(* ===== verification/_CoqProject ===== *)
-Q . S2P
Prelude.v
Memory.v
Os.v
LmDefs.v
UArena.v
PageArena.v
ThreadArenas.v
ArenaIface.v
KArenaModule.v
MemExpand.v
KArena.v
OldKArena.v
LmString.v
Log.v
Files.v
Pipe.v
PipeCreate.v
SdbMemory.v
Pool.v
Time.v
Json.v
ThreadControl.v
ThreadGroup.v
Modbus.v
Postgres.v
SetUp.v
Session.v
Timing.v
JsonPrint.v
JsonTree.v
JsonForest.v
JsonDelete.v
JsonClient.v
JsonDuplicate.v
JsonCompare.v
JsonMinify.v
Bench.v
Tests.v
Benchmarks.v
DataPath.v
Threads.v
