(* ===== verification/Prelude.v ===== *)
(** * A verification library for the lmalloc repository

    lmalloc compares arena allocators -- one in user space, one behind a kernel
    device -- inside a program that needs them: a sensor data handler, which
    receives Modbus frames on one thread, hands them to another through a pipe
    of arena buffers and inserts them into PostgreSQL.  This library models the
    C code of the allocators, of the handler and of the benchmarks as executable
    definitions and proves what makes them correct.  The code is that of
    [src/src]; assertions are off, as in its build ([-DNDEBUG]), unless a
    definition takes the switch, and integers wrap at their width.

    ** Parts and files

    In dependency order; a definition has the name of the C function it models.

    - [Prelude]: words and their wrap-around, byte strings, the arithmetic hints
      ([word]).
    - [Memory], [Os]: byte memory with little-endian loads and stores, the
      fault monad [M]; [malloc], [mmap] and the table of live blocks, the monad
      [P].  [None] is undefined behaviour.  Where a block is placed is a
      parameter, of which only [place_fresh] is used.
    - [LmDefs]: units, alignment and the size parser of [lm.h] and [Sdb.h].
    - [UArena]: [allocators/u_arena.c].  [Bump] is the abstract allocator, a
      cursor under a capacity, that the arenas implement.
    - [PageArena]: [poc/page_zalloc/u_arena.c], an arena that clears a page when
      its cursor gets there, with its layouts.
    - [ThreadArenas]: the table of scratch arenas, in the three copies of
      [u_arena.c], [karena.c] and [Sdb.h].
    - [ArenaIface]: [allocators/sdhs_arena.h], the names that the program uses
      for either arena, as the class [ArenaImpl] whose law is [Bump], and
      [ScratchImpl] for the scratch functions of each.
    - [KArenaModule]: [modules/karena/karena.c], the device: a table of a
      hundred arenas, one definition per ioctl handler, open, release, mmap and
      page fault, with loading and unloading; [kstep] is a call of a user.
    - [MemExpand]: [poc/memexpand/memexpand/memexpand.c], the device before the
      drivers, with the areas of the processes that use it; its calls are
      interleaved between their accesses to the field that they share.
    - [KArena]: [allocators/karena.c], the client, run on top of the driver.
    - [OldKArena]: the first driver ([modules/oldkarena/okarena.c]), over a heap
      of its objects and the areas of a process, and its client
      ([allocators/oldkarena.c]) on top of it.
    - [LmString]: the arena strings of [lm.h] and of [Sdb.h].
    - [Log]: the logs of [lm.h] and of [Sdb.h], programs of effects on a module,
      interleaved; the abstract log without mutex and buffer is [log_spec].
    - [Files]: the file functions, [Sdb__MemMap__] and the traced allocation
      functions of the two headers, over descriptors, pages and streams.
    - [Pipe], [PipeCreate]: [Common/SensorDataPipe.c].  [Pipe] interleaves the
      accesses of one writer and one reader; [PipeCreate] is the construction
      and the destruction, in memory.
    - [SdbMemory]: the memory section of [Sdb.h] with its arena, its C string
      helpers, generator and tokenizer.
    - [Pool]: the functions that [SDB_POOL_ALLOCATOR_DEFINE] of [Sdb.h] defines,
      on an arena of [SdbMemory].
    - [Time]: [Common/Time.c], with doubles by their rounding.
    - [Json]: the parser, the deletion and the accessors of [cJSON/cJSON.c], on
      the bytes of the text by position; blocks are counted.
    - [ThreadControl]: [Common/Thread.c], the POSIX wrappers and the stop
      handshake of any number of threads.
    - [ThreadGroup]: [Common/ThreadGroup.c] with the end of [Sdhs.c]: groups,
      their monitors, the manager.
    - [Modbus]: [CommProtocols/Modbus.c], [Common/Socket.c], the Modbus thread
      of [DataHandlers/ModbusWithPostgres/Modbus.c] and the frames of
      [DevUtils/ModbusTestServer.c].
    - [Postgres]: [DatabaseSystems/Postgres.c] and the thread of
      [DataHandlers/ModbusWithPostgres/Postgres.c]; libpq and the server are
      classes.
    - [SetUp]: [SetUpFromConf] of [Sdhs.c], [DataHandlers.c] and the creation of a
      group in [ModbusWithPostgres.c], over the objects that the process holds;
      the configuration is a value of [Json], the groups are of [ThreadGroup].
    - [Session]: the threads of a group at work: [Signals.c], the barrier of the
      group, the configuration and the connections of the Modbus thread
      ([MbPrepareCtx], [SocketCreate]), the outer loop of [MbRun] around the
      rounds of [Modbus], and the test server.
    - [JsonPrint]: the printer of [cJSON/cJSON.c] with its growing buffer and the
      hooks, on the same values; the text without the buffer is [render].
    - [JsonTree]: the functions of [cJSON/cJSON.c] that make, name, move, copy
      and delete items, on a heap of items with their links.  [JsonForest] is
      the abstract side, a list of children for each item; [JsonDelete] and
      [JsonClient] show that calls in any legal order keep to it.
      [JsonDuplicate] does so for copies, [JsonCompare] holds the comparison and
      what it decides, [JsonMinify] the removal of white space in place.
    - [Timing]: [metrics/timing.c], the text of a timing, averages, comparisons.
    - [Bench]: [allocators/allocator_wrappers.c], the timed calls around the
      operations of any of the models above, and the loops of
      [tests/tight_loop_test.c] over the class [BenchTarget], of which
      [u_arena.c] is the instance; the file of timings and its reader in
      [metrics/data_analysis.py].
    - [Tests]: [run_tests] and the tests of [tests/tests.c], on a value of [Json];
      the numbers in the names of the files of a run.
    - [Benchmarks]: the main function ([benchmarks.c]), which composes [UArena],
      [Files], [Json] and [Tests], and [utils/system_info.c].
    - [DataPath]: the inner loops of the two threads on one pipe: [MbRun] of
      [Modbus], [PgRun] of [Postgres], the functions of [Pipe] access by access,
      in any order of turns.
    - [Threads]: a thread of the handler from the creation of its arenas to their
      destruction, around the loops of [Session] and [Postgres]; it may fault,
      and it may stay at the barrier or in its loop.

    The handler's components meet at three interfaces: [ArenaImpl] (the strings,
    the pipe and the scratch regions over any arena), the pair of functions of
    [Pipe] (the Modbus thread writes, the database thread reads), and the table
    information that [GetTableMetadata] computes and [PgInsertData] follows.

    ** What the theorems show

    - The arenas.  Sequences of calls refine [Bump] ([ua_run_refines]); blocks
      are disjoint and inside the buffer; the zeroing calls clear; creation and
      destruction in the four layouts return every block; a bootstrapped child
      stays in its block.  The user-space arena, [sdb_arena] and the kernel
      arena give the same answers ([arenas_agree]); a scratch region of a handle
      that is not NULL leaves the arena as it was ([scratch_around_transparent]).  Blocks of a pool do not overlap and keep what is written
      to them until they are released ([pool_refines]).  The arena that clears
      whole pages gives clear blocks but for the first ([zalloc_clears]).
    - The driver.  After any calls of a well-behaved user the table and the
      [vmalloc] blocks are consistent and every call completes but a create for
      which [vmalloc] fails ([karena_reachable_safe]); an allocated address faults in the arena's own
      page; the calls that corrupt the kernel are [karena_ioctl_faults].
    - The first driver.  A client that keeps to one arena gets [Bump]
      ([oka_run_refines]), and creating and destroying returns the driver's
      objects ([oka_lifecycle]); where it faults is stated too.  The device before
      it keeps what it has lent, for good, if no reply fails once its memory is
      mapped ([memexpand_safe]; otherwise [reply_races]).
    - Configuration.  The parser ends on any bytes, stays inside its buffer,
      bounds its depth and gives back every block of a failure ([parse_safe]);
      it accepts every text of its grammar, numbers up to 63 characters long, with
      the value the text spells ([cJSON_Parse_complete]).  The printer writes the text of a value and
      nothing outside of its buffer, and gives back every block of a failure
      ([print_renders]); the parser reads that text back ([print_parse]); a block
      of the caller needs exactly one byte more than the text and its NUL
      ([print_preallocated]); minifying a formatted text gives the unformatted
      one ([Print_Minify]).  The set-up builds what the configuration asks
      for ([SetUpFromConf_builds], with the repository's own configuration as
      its instance) and gives back what it needs only for itself.
    - JSON values.  Calls that make, move and delete items keep the heap a forest
      ([client_refines], [client_items_ok]).  A copy is a tree of its own, equal
      to the original item by item, and one that fails gives everything back
      ([Duplicate_copies]); the comparison decides the equality of arrays in
      order and of objects by name ([Compare_decides]), and finds a copy equal
      ([Duplicate_Compare]).
    - Strings.  Building a string gives the concatenation; the two libraries are
      one but for the empty string.
    - The logs.  That of [lm.h] is linearisable ([lm_log_atomic]) and always goes
      on to its end ([lm_log_ends]); that of [Sdb.h] is up to the first failure,
      which takes the module away for good ([sdb_log_jams]).
    - Files.  A mapping and its end bring back the pages and the descriptors but
      the caller's own ([MemMap_unmap]); what is written is read back up to what
      closing the file lost ([write_load]).
    - The pipe.  The reader gets what the writer filled, in order and once, and
      both go on, from three buffers up; two buffers race.  A pipe is laid out
      exactly in the arena it asks for, and its destruction frees it wrongly.
    - Threads.  No wake-up of the stop handshake is lost and it makes progress;
      the wait for the groups is complete, and it terminates; a shutdown request
      frees the manager under the monitors.  A group whose threads all start
      passes its barrier and ends ([group_returns]); one thread that fails
      before strands the others ([group_stranded]).  The database thread ends
      with everything given back, or before its barrier with its memory kept, or
      stays for a stated reason ([PgRun_ends]).
    - Time.  Adding and subtracting agree and are exact below 2^53 ns; timeouts
      are never early and late by at most 512 ns.
    - Modbus.  Frames are reassembled whatever the chunks, what the server sends
      is what the thread stores, and a round keeps the buffer packed.  A
      connection is that of the configuration; the loop leaks no descriptor, of
      a socket or of the file, but outlives only a bounded number of connections; the server keeps its rate.
    - The data path.  With three buffers or more, what a server sends arrives in
      the table in order and none twice, all of it when no insertion fails
      ([path_delivers]), and each thread goes on or waits for the other, never
      both ([path_goes_on]).  With two, the number of
      [configs/benchmark_config.json], whole buffers are lost and stored twice
      without an error, whatever the table ([path_two_buffers]).
    - PostgreSQL.  The row layout follows the table, pipe sizes follow the row,
      and an insertion writes exactly the converted rows or nothing.
    - Benchmarks.  The suite runs what the configuration lists, in order
      ([run_tests_runs], with the repository's own configuration as its
      instance), up to the first run that does not come back, in files that are new ([run_files_new]); the main function runs
      it on the value of the file, or exits when the parser needs more than its
      arena ([main_runs]).  A loop over all sizes
      ends exactly when the arena holds all its rounds, and its file is read back
      as the timings in order ([all_sizes_repeatedly_runs]); the files of the
      loop over each size count the calls of the sizes before too
      ([each_size_accumulates]).  A printed timing is read back up to the
      resolution of its format ([format_timing_reads]).

    The other theorems that the files state give the behaviour on the remaining
    branches, where the code departs from what it means to do.

    ** Bounds and fuel

    Loops are structural on the list or count they walk.  Fuel is used by
    [recv_until] (one unit per byte that is missing, which its caller gives),
    the scans of NUL-terminated text in [SdbMemory] (the length of the string),
    [tokens] of [Session] (the length of the text), the parser of [Json]
    ([parse_fuel], three units per byte and three more: [parse_safe] shows that
    it never runs out) the deletion and search of [JsonTree] (one unit per
    item of the heap: [client_refines] shows that it is enough), copies and
    comparisons (two units per item, and the items of both values) and
    [minify_from] (one unit per byte).  Hypotheses like [cap < 2 ^ 63] say that
    an object fits the address space; the theorems on wrap-around say what
    happens without them.  Timers: differences below 2^62 ns, clocks before
    2106.  The thread systems have no bound on threads or calls.

    ** Not modelled

    libpq, POSIX and the kernel, which are parameters with the behaviour that they
    document.  Left out because it computes nothing that the rest relies on: the
    instructions that read the cycle counter, the plots, the functions that print
    a result of libpq, the convenience macros that only rename a call.  Of the proofs of concept, which the program does not link, the
    network test and the clients of the devices. *)

From stdpp Require Export base numbers list option gmap.
From Stdlib Require Export ZArith Lia.
From Stdlib Require Ascii String.
#[global] Open Scope Z_scope.

(** ** Machine words

    A C unsigned integer of width [w] is a [Z] in [0, 2^w); every operation of
    the code that can leave that range is written with the wrap-around. *)

Definition u8 (x : Z) : Z := x mod 2 ^ 8.
Definition u16 (x : Z) : Z := x mod 2 ^ 16.
Definition u32 (x : Z) : Z := x mod 2 ^ 32.
Definition u64 (x : Z) : Z := x mod 2 ^ 64.

(** Two's complement reading of a word: [(ssize_t)x], [(i64)x], [(i32)x]. *)
Definition s64 (x : Z) : Z := (x + 2 ^ 63) mod 2 ^ 64 - 2 ^ 63.
Definition s16 (x : Z) : Z := (x + 2 ^ 15) mod 2 ^ 16 - 2 ^ 15.
Definition s32 (x : Z) : Z := (x + 2 ^ 31) mod 2 ^ 32 - 2 ^ 31.

Declare Scope word_scope.
Delimit Scope word_scope with word.
Notation "x +64 y" := (u64 (x + y)) (at level 50, left associativity) : word_scope.
Notation "x -64 y" := (u64 (x - y)) (at level 50, left associativity) : word_scope.
Notation "x *64 y" := (u64 (x * y)) (at level 40, left associativity) : word_scope.
#[global] Open Scope word_scope.

Definition NULL : Z := 0.

(** ** Error codes: those of [errno.h] and those of [sdb_errno] *)

Definition EIO : Z := 5.
Definition ENOMEM : Z := 12.
Definition EFAULT : Z := 14.
Definition EINVAL : Z := 22.
Definition ENOTTY : Z := 25.
Definition ETIMEDOUT : Z := 110.
Definition SDBE_PG_ERR : Z := 6.
Definition SDBE_JSON_ERR : Z := 7.

(** ** Byte strings *)

(** The length of a byte string, as the integer the code computes with. *)
Definition len (l : list Z) : Z := Z.of_nat (length l).

(** The bytes of a string literal, without the terminating NUL. *)
Fixpoint bytes (s : String.string) : list Z :=
  match s with
  | String.EmptyString => []
  | String.String c s => Z.of_N (Ascii.N_of_ascii c) :: bytes s
  end.

Lemma len_app l l' : len (l ++ l') = len l + len l'.
Proof. unfold len. rewrite length_app. lia. Qed.

Lemma len_nil : len [] = 0.
Proof. done. Qed.

Lemma len_nonneg l : 0 <= len l.
Proof. unfold len. lia. Qed.

Lemma len_replicate n x : len (replicate n x) = Z.of_nat n.
Proof. unfold len. by rewrite length_replicate. Qed.

Lemma take_len l : take (Z.to_nat (len l)) l = l.
Proof. unfold len. rewrite Nat2Z.id. apply firstn_all. Qed.

(** ** Automation *)

(** Linear arithmetic over words: unfold the wraps, turn every division and
    remainder by a constant into its defining equation. *)
Ltac unfold_words := unfold u8, u16, u32, u64, s64, s32, s16, NULL in *.
Ltac word_lia := unfold_words; Z.div_mod_to_equations; lia.

(** Split every boolean comparison of the goal into its two arithmetic cases. *)
Ltac case_cmp :=
  repeat match goal with
  | |- context [Z.leb ?a ?b] => destruct (Z.leb_spec a b)
  | |- context [Z.ltb ?a ?b] => destruct (Z.ltb_spec a b)
  | |- context [Z.eqb ?a ?b] => destruct (Z.eqb_spec a b)
  end.

Create HintDb word discriminated.

Lemma u64_small x : 0 <= x < 2 ^ 64 -> u64 x = x.
Proof. intros. unfold u64. by rewrite Z.mod_small. Qed.

Lemma u32_small x : 0 <= x < 2 ^ 32 -> u32 x = x.
Proof. intros. unfold u32. by rewrite Z.mod_small. Qed.

Lemma u16_small x : 0 <= x < 2 ^ 16 -> u16 x = x.
Proof. intros. unfold u16. by rewrite Z.mod_small. Qed.

Lemma u8_small x : 0 <= x < 2 ^ 8 -> u8 x = x.
Proof. intros. unfold u8. by rewrite Z.mod_small. Qed.

Lemma u64_range x : 0 <= u64 x < 2 ^ 64.
Proof. unfold u64. apply Z.mod_pos_bound. lia. Qed.

Lemma u32_range x : 0 <= u32 x < 2 ^ 32.
Proof. unfold u32. apply Z.mod_pos_bound. lia. Qed.

Lemma u16_range x : 0 <= u16 x < 2 ^ 16.
Proof. unfold u16. apply Z.mod_pos_bound. lia. Qed.

Lemma u8_range x : 0 <= u8 x < 2 ^ 8.
Proof. unfold u8. apply Z.mod_pos_bound. lia. Qed.

Lemma s64_small x : 0 <= x < 2 ^ 63 -> s64 x = x.
Proof. intros. word_lia. Qed.

Lemma s32_small x : 0 <= x < 2 ^ 31 -> s32 x = x.
Proof. intros. unfold s32. rewrite Z.mod_small; lia. Qed.

Lemma s64_neg x : 2 ^ 63 <= x < 2 ^ 64 -> s64 x = x - 2 ^ 64.
Proof. intros. word_lia. Qed.

#[export] Hint Resolve u64_small u32_small u16_small u8_small s64_small : word.
#[export] Hint Resolve u64_range u32_range u16_range u8_range : word.
#[export] Hint Extern 5 (_ <= _) => lia : word.
#[export] Hint Extern 5 (_ < _) => lia : word.
#[export] Hint Extern 5 (_ <= _ < _) => lia : word.
#[export] Hint Extern 5 (_ = _ :> Z) => lia : word.

(** Joining a high and a low part with [|]. *)
Lemma lor_shiftl a b k : 0 <= k -> 0 <= b < 2 ^ k -> Z.lor (Z.shiftl a k) b = a * 2 ^ k + b.
Proof.
  intros Hk Hb. rewrite Z.shiftl_mul_pow2 by done. pose proof (Z.add_lor_land (a * 2 ^ k) b) as Hadd.
  assert (Hland : Z.land (a * 2 ^ k) b = 0); [|by rewrite Hland, Z.add_0_r in Hadd].
  apply Z.bits_inj'. intros n Hn. rewrite Z.land_spec, Z.bits_0.
  destruct (Z.lt_ge_cases n k); [by rewrite Z.mul_pow2_bits_low by lia|].
  destruct (Z.eq_dec b 0) as [->|]; [by rewrite Z.bits_0, andb_false_r|].
  rewrite (Z.bits_above_log2 b); [apply andb_false_r|lia|].
  assert (Z.log2 b < k); [apply Z.log2_lt_pow2; lia|lia].
Qed.
