(* ===== verification/Memory.v ===== *)
(** * Byte-addressed memory and the effect monad

    The C code of the repository lays out structs, strings and arenas inside
    one address space and relies on it: a bootstrapped arena's struct sits in
    its parent's buffer, a string's header precedes its characters.  Memory is
    therefore a finite map from addresses to byte values, structs are read and
    written field by field through little-endian loads and stores, and an
    access to an address that is not mapped is a fault.

    A stateful C function is a term of the monad [M]: a function from memory
    to either a result and the new memory, or [None] when the execution faults
    (undefined behaviour: NULL or wild dereference). *)

From S2P Require Import Prelude.
#[local] Open Scope Z_scope.

Abbreviation mem := (gmap Z Z).

(** ** The monad of memory-transforming computations *)

Definition M (A : Type) : Type := mem -> option (A * mem).

#[export] Instance M_ret : MRet M := fun A a m => Some (a, m).
#[export] Instance M_bind : MBind M := fun A B f c m =>
  match c m with
  | Some (a, m') => f a m'
  | None => None
  end.
#[export] Instance M_fmap : FMap M := fun A B f c m =>
  match c m with
  | Some (a, m') => Some (f a, m')
  | None => None
  end.

Definition fault {A} : M A := fun _ => None.

(** ** Ranges of bytes *)

Fixpoint read_bytes (m : mem) (a : Z) (n : nat) : option (list Z) :=
  match n with
  | O => Some []
  | S n => b ← m !! a; l ← read_bytes m (a + 1) n; Some (b :: l)
  end.

Fixpoint write_bytes (m : mem) (a : Z) (l : list Z) : option mem :=
  match l with
  | [] => Some m
  | b :: l => match m !! a with
              | Some _ => write_bytes (<[a := b]> m) (a + 1) l
              | None => None
              end
  end.

(** Little-endian representation of an unsigned integer on [n] bytes. *)
Fixpoint le_encode (n : nat) (v : Z) : list Z :=
  match n with
  | O => []
  | S n => v mod 256 :: le_encode n (v / 256)
  end.

Fixpoint le_decode (l : list Z) : Z :=
  match l with
  | [] => 0
  | b :: l => b + 256 * le_decode l
  end.

(** ** Memory operations of the C abstract machine *)

Definition load8 (a : Z) : M Z := fun m => b ← m !! a; Some (b, m).

Definition store8 (a v : Z) : M unit := fun m =>
  m' ← write_bytes m a [v mod 256]; Some (tt, m').

Definition load64 (a : Z) : M Z := fun m =>
  l ← read_bytes m a 8; Some (le_decode l, m).

Definition store64 (a v : Z) : M unit := fun m =>
  m' ← write_bytes m a (le_encode 8 v); Some (tt, m').

(** [explicit_bzero(a, n)] *)
Definition bzero (a n : Z) : M unit := fun m =>
  m' ← write_bytes m a (replicate (Z.to_nat n) 0); Some (tt, m').

(** [memcpy(dst, src, n)] between two objects of the address space. *)
Definition memcpy (dst src n : Z) : M unit := fun m =>
  l ← read_bytes m src (Z.to_nat n);
  m' ← write_bytes m dst l; Some (tt, m').

(** [memcpy] from a buffer outside the modelled address space (a string
    literal, a local array): [n] bytes of [src], a fault past its end. *)
Definition copy_in (dst : Z) (src : list Z) (n : Z) : M unit := fun m =>
  if Z.of_nat (length src) <? n then None
  else m' ← write_bytes m dst (take (Z.to_nat n) src); Some (tt, m').

(** ** Regions and frames *)

Definition mapped (m : mem) (a n : Z) : Prop :=
  forall x, a <= x < a + n -> is_Some (m !! x).

(** [m'] has the mapped addresses of [m] and differs from it only inside
    [lo, lo + n). *)
Definition agree_outside (lo n : Z) (m m' : mem) : Prop :=
  (forall x, is_Some (m' !! x) <-> is_Some (m !! x)) /\
  (forall x, x < lo \/ lo + n <= x -> m' !! x = m !! x).

Create HintDb mem discriminated.

(** *** Little-endian words *)

Lemma length_le_encode n v : length (le_encode n v) = n.
Proof. revert v; induction n; intros; simpl; auto. Qed.

Lemma le_decode_encode n v : le_decode (le_encode n v) = v mod 256 ^ Z.of_nat n.
Proof.
  revert v; induction n as [|n IH]; intros v; cbn [le_encode le_decode].
  { by rewrite Z.pow_0_r, Z.mod_1_r. }
  rewrite IH, Nat2Z.inj_succ, Z.pow_succ_r by lia.
  rewrite Z.rem_mul_r by lia. lia.
Qed.

Lemma le_encode_bytes n v b : b ∈ le_encode n v -> 0 <= b < 256.
Proof.
  revert v; induction n as [|n IH]; intros v; cbn [le_encode].
  { intros H. by apply elem_of_nil in H. }
  rewrite elem_of_cons. intros [-> | H]; [apply Z.mod_pos_bound; lia | eauto].
Qed.

Lemma le_decode_encode_64 v : 0 <= v < 2 ^ 64 -> le_decode (le_encode 8 v) = v.
Proof.
  intros. rewrite le_decode_encode. apply Z.mod_small.
  change (256 ^ Z.of_nat 8) with (2 ^ 64). lia.
Qed.

Lemma le_decode_range l :
  (forall b, b ∈ l -> 0 <= b < 256) -> 0 <= le_decode l < 256 ^ Z.of_nat (length l).
Proof.
  induction l as [|b l IH]; intros Hb; cbn [le_decode length].
  { rewrite Z.pow_0_r. lia. }
  rewrite Nat2Z.inj_succ, Z.pow_succ_r by lia.
  apply Forall_forall in Hb. apply Forall_cons in Hb as [? Hl].
  pose proof (IH (proj1 (Forall_forall _ _) Hl)). lia.
Qed.

(** *** Pointwise characterisation of the range operations *)

Lemma read_bytes_Some m a n l :
  read_bytes m a n = Some l <->
  length l = n /\ forall i b, l !! i = Some b -> m !! (a + Z.of_nat i) = Some b.
Proof.
  revert a l; induction n as [|n IH]; intros a l; cbn [read_bytes].
  { split.
    - intros [= <-]. split; [done|]. intros i b H. by rewrite lookup_nil in H.
    - intros [H _]. by apply nil_length_inv in H as ->. }
  split.
  - intros H. destruct (m !! a) as [b|] eqn:Hb; [|done]. cbn in H.
    destruct (read_bytes m (a + 1) n) as [t|] eqn:Ht; [|done]. cbn in H.
    injection H as <-. apply IH in Ht as [Hlen Ht]. split; [cbn; lia|].
    intros [|i] c Hc; cbn in Hc.
    + injection Hc as <-. by rewrite Z.add_0_r.
    + apply Ht in Hc. rewrite <- Hc. f_equal. lia.
  - intros [Hlen H]. destruct l as [|b t]; [done|]. cbn in Hlen.
    pose proof (H 0%nat b eq_refl) as H0. rewrite Z.add_0_r in H0. rewrite H0. cbn.
    assert (read_bytes m (a + 1) n = Some t) as ->; [|done].
    apply IH. split; [lia|]. intros i c Hc.
    specialize (H (S i) c Hc). rewrite <- H. f_equal. lia.
Qed.

Lemma write_bytes_is_Some m a l :
  mapped m a (Z.of_nat (length l)) -> is_Some (write_bytes m a l).
Proof.
  revert m a; induction l as [|b l IH]; intros m a Hm; cbn [write_bytes]; [done|].
  destruct (Hm a) as [c ->]; [cbn; lia|]. apply IH.
  intros x Hx. destruct (decide (x = a)) as [->|Hne].
  - rewrite lookup_insert_eq. eauto.
  - rewrite lookup_insert_ne by done. apply Hm. cbn. lia.
Qed.

Lemma write_bytes_lookup m a l m' x :
  write_bytes m a l = Some m' ->
  m' !! x = if decide (a <= x < a + Z.of_nat (length l))
            then l !! Z.to_nat (x - a) else m !! x.
Proof.
  revert m a; induction l as [|b l IH]; intros m a; cbn [write_bytes].
  { intros [= <-]. case_decide; [cbn in *; lia|done]. }
  destruct (m !! a) as [c|] eqn:Hc; [|done]. intros Hw. rewrite (IH _ _ Hw).
  cbn [length]. destruct (decide (x = a)) as [->|Hne].
  - rewrite decide_False by lia. rewrite decide_True by lia.
    rewrite lookup_insert_eq, Z.sub_diag. done.
  - case_decide as H1.
    + rewrite decide_True by lia.
      replace (Z.to_nat (x - a)) with (S (Z.to_nat (x - (a + 1)))) by lia. done.
    + rewrite decide_False by lia. by rewrite lookup_insert_ne.
Qed.

Lemma write_bytes_mapped m a l m' :
  write_bytes m a l = Some m' -> mapped m a (Z.of_nat (length l)).
Proof.
  revert m a; induction l as [|b l IH]; intros m a; cbn [write_bytes].
  { intros _ x Hx. cbn in Hx. lia. }
  destruct (m !! a) as [c|] eqn:Hc; [|done]. intros Hw x Hx. cbn [length] in Hx.
  destruct (decide (x = a)) as [->|Hne]; [eauto|].
  destruct (IH _ _ Hw x ltac:(lia)) as [d Hd].
  rewrite lookup_insert_ne in Hd by done. eauto.
Qed.

Lemma write_bytes_agree m a l m' :
  write_bytes m a l = Some m' -> agree_outside a (Z.of_nat (length l)) m m'.
Proof.
  intros Hw. split; intros x.
  - rewrite (write_bytes_lookup _ _ _ _ x Hw). case_decide as Hx; [|done].
    split; intros _.
    + by eapply write_bytes_mapped.
    + apply lookup_lt_is_Some_2. lia.
  - intros Hx. rewrite (write_bytes_lookup _ _ _ _ x Hw). rewrite decide_False by lia. done.
Qed.

Lemma read_write_same m a l m' :
  write_bytes m a l = Some m' -> read_bytes m' a (length l) = Some l.
Proof.
  intros Hw. apply read_bytes_Some. split; [done|]. intros i b Hi.
  rewrite (write_bytes_lookup _ _ _ _ _ Hw).
  pose proof (lookup_lt_Some _ _ _ Hi).
  rewrite decide_True by lia. by replace (Z.to_nat _) with i by lia.
Qed.

(** Reads depend only on the bytes they read. *)
Lemma read_bytes_agree m m' a n lo k :
  agree_outside lo k m m' ->
  a + Z.of_nat n <= lo \/ lo + k <= a ->
  read_bytes m' a n = read_bytes m a n.
Proof.
  intros [_ Hag] Hdis. apply option_eq. intros l. rewrite !read_bytes_Some.
  split; intros [Hl H]; (split; [done|]); intros i b Hi;
    specialize (H i b Hi); pose proof (lookup_lt_Some _ _ _ Hi);
    [rewrite Hag in H | rewrite Hag]; try done; lia.
Qed.

Lemma read_bytes_mapped m a n l :
  read_bytes m a n = Some l -> mapped m a (Z.of_nat n).
Proof.
  intros [Hl H]%read_bytes_Some x Hx.
  destruct (lookup_lt_is_Some_2 l (Z.to_nat (x - a))) as [b Hb]; [lia|].
  exists b. rewrite <- (H _ _ Hb). f_equal. lia.
Qed.

Lemma read_bytes_is_Some m a n : mapped m a (Z.of_nat n) -> is_Some (read_bytes m a n).
Proof.
  revert a; induction n as [|n IH]; intros a Hm; cbn [read_bytes]; [done|].
  destruct (Hm a) as [b ->]; [lia|]. cbn.
  destruct (IH (a + 1)) as [l ->]; [|by eauto].
  intros x Hx. apply Hm. lia.
Qed.

(** *** The frame relation is a preorder, monotone in its region *)

#[export] Instance agree_outside_refl lo n : Reflexive (agree_outside lo n).
Proof. by split. Qed.

#[export] Instance agree_outside_trans lo n : Transitive (agree_outside lo n).
Proof.
  intros m1 m2 m3 [D1 A1] [D2 A2]. split; intros x.
  - by rewrite D2.
  - intros Hx. by rewrite A2, A1.
Qed.

#[export] Instance agree_outside_sym lo n : Symmetric (agree_outside lo n).
Proof.
  intros m1 m2 [D A]. split; intros x; [by rewrite D | intros Hx; by rewrite A].
Qed.

Lemma agree_outside_weaken lo n lo' n' m m' :
  agree_outside lo n m m' -> lo' <= lo -> lo + n <= lo' + n' -> agree_outside lo' n' m m'.
Proof. intros [D A] ??. split; [done|]. intros x Hx. apply A. lia. Qed.

Lemma agree_outside_mapped lo n m m' a k :
  agree_outside lo n m m' -> mapped m a k -> mapped m' a k.
Proof. intros [D _] Hm x Hx. apply D, Hm, Hx. Qed.

#[export] Instance mapped_proper lo n :
  Proper (agree_outside lo n ==> eq ==> eq ==> iff) mapped.
Proof.
  intros m m' Ha ? a -> ? k ->. split; intros H.
  - by eapply agree_outside_mapped.
  - eapply agree_outside_mapped; [|exact H]. by symmetry.
Qed.

Lemma mapped_sub m a n a' n' :
  mapped m a n -> a <= a' -> a' + n' <= a + n -> mapped m a' n'.
Proof. intros Hm ?? x Hx. apply Hm. lia. Qed.

#[export] Hint Resolve mapped_sub agree_outside_mapped agree_outside_weaken : mem.

(** *** Frames with an arbitrary footprint

    [frame W m m'] : the addresses mapped are the same, and only those of [W]
    may have changed. *)

Definition frame (W : Z -> Prop) (m m' : mem) : Prop :=
  (forall x, is_Some (m' !! x) <-> is_Some (m !! x)) /\
  (forall x, ~ W x -> m' !! x = m !! x).

#[export] Instance frame_refl W : Reflexive (frame W).
Proof. by split. Qed.

#[export] Instance frame_trans W : Transitive (frame W).
Proof.
  intros m1 m2 m3 [D1 A1] [D2 A2]. split; intros x.
  - by rewrite D2.
  - intros Hx. by rewrite A2, A1.
Qed.

Lemma frame_mono (W W' : Z -> Prop) m m' :
  frame W m m' -> (forall x, W x -> W' x) -> frame W' m m'.
Proof. intros [D A] HW. split; [done|]. intros x Hx. apply A. auto. Qed.

Lemma agree_outside_frame lo n (W : Z -> Prop) m m' :
  agree_outside lo n m m' -> (forall x, lo <= x < lo + n -> W x) -> frame W m m'.
Proof.
  intros [D A] HW. split; [done|]. intros x Hx. apply A.
  destruct (Z.lt_ge_cases x lo); [lia|]. right. apply Z.le_ngt. intros ?. apply Hx, HW. lia.
Qed.

Lemma frame_mapped W m m' a n : frame W m m' -> mapped m a n -> mapped m' a n.
Proof. intros [D _] Hm x Hx. apply D, Hm, Hx. Qed.

Lemma read_bytes_frame W m m' a n :
  frame W m m' -> (forall x, a <= x < a + Z.of_nat n -> ~ W x) ->
  read_bytes m' a n = read_bytes m a n.
Proof.
  intros [_ Hag] Hdis. apply option_eq. intros l. rewrite !read_bytes_Some.
  split; intros [Hl H]; (split; [done|]); intros i b Hi;
    specialize (H i b Hi); pose proof (lookup_lt_Some _ _ _ Hi);
    [rewrite Hag in H | rewrite Hag]; try done; apply Hdis; lia.
Qed.

(** *** Loads and stores *)

Lemma store64_spec m a v :
  mapped m a 8 ->
  exists m', store64 a v m = Some (tt, m') /\ agree_outside a 8 m m' /\
             read_bytes m' a 8 = Some (le_encode 8 v).
Proof.
  intros Hm. destruct (write_bytes_is_Some m a (le_encode 8 v)) as [m' Hw].
  { by rewrite length_le_encode. }
  exists m'. unfold store64. rewrite Hw. split; [done|]. split.
  - pose proof (write_bytes_agree _ _ _ _ Hw) as H. by rewrite length_le_encode in H.
  - pose proof (read_write_same _ _ _ _ Hw) as H. by rewrite length_le_encode in H.
Qed.

Lemma load64_spec m a l :
  read_bytes m a 8 = Some l -> load64 a m = Some (le_decode l, m).
Proof. unfold load64. by intros ->. Qed.

(** Executable tests of [mapped], for concrete memories. *)
Lemma mapped_check m a n :
  is_Some (read_bytes m a (Z.to_nat n)) -> mapped m a n.
Proof.
  intros [l H%read_bytes_mapped] x Hx. apply H. lia.
Qed.

(** The word stored at [a]. *)
Definition word_at (m : mem) (a v : Z) : Prop :=
  read_bytes m a 8 = Some (le_encode 8 v) /\ 0 <= v < 2 ^ 64.

Lemma load64_word_at m a v : word_at m a v -> load64 a m = Some (v, m).
Proof.
  intros [Hr Hv]. rewrite (load64_spec _ _ _ Hr). by rewrite le_decode_encode_64.
Qed.

Lemma word_at_mapped m a v : word_at m a v -> mapped m a 8.
Proof. intros [Hr _]. by apply read_bytes_mapped in Hr. Qed.

Lemma word_at_agree m m' a v lo k :
  agree_outside lo k m m' -> a + 8 <= lo \/ lo + k <= a ->
  word_at m a v -> word_at m' a v.
Proof.
  intros Hag Hd [Hr Hv]. split; [|done].
  by rewrite (read_bytes_agree _ _ _ _ _ _ Hag) by (cbn; lia).
Qed.

Lemma word_at_frame W m m' a v :
  frame W m m' -> (forall x, a <= x < a + 8 -> ~ W x) -> word_at m a v -> word_at m' a v.
Proof.
  intros Hf Hd [Hr Hv]. split; [|done].
  by rewrite (read_bytes_frame _ _ _ _ _ Hf) by (intros x Hx; apply Hd; cbn in Hx; lia).
Qed.

Lemma store64_word m a v :
  mapped m a 8 -> 0 <= v < 2 ^ 64 ->
  exists m', store64 a v m = Some (tt, m') /\ agree_outside a 8 m m' /\ word_at m' a v.
Proof.
  intros Hm Hv. destruct (store64_spec m a v Hm) as (m' & ? & ? & ?).
  exists m'. split_and!; done.
Qed.

(** A store to a field of a struct [p, p + n) that was mapped in [m0]. *)
Lemma store_field m0 m p n k v :
  mapped m0 p n -> agree_outside p n m0 m -> 0 <= k -> k + 8 <= n -> 0 <= v < 2 ^ 64 ->
  exists m', store64 (p + k) v m = Some (tt, m') /\ agree_outside p n m0 m' /\
             agree_outside (p + k) 8 m m' /\ word_at m' (p + k) v.
Proof.
  intros Hm Hag ?? Hv. destruct (store64_word m (p + k) v) as (m' & Hs & Ha & Hw); [|done|].
  { eapply mapped_sub; [by eapply agree_outside_mapped|lia..]. }
  exists m'. split_and!; try done. etrans; [exact Hag|].
  eapply agree_outside_weaken; [exact Ha|lia..].
Qed.

Lemma bzero_spec m a n :
  mapped m a n ->
  exists m', bzero a n m = Some (tt, m') /\ agree_outside a (Z.max 0 n) m m' /\
             forall x, a <= x < a + n -> m' !! x = Some 0.
Proof.
  intros Hm.
  destruct (write_bytes_is_Some m a (replicate (Z.to_nat n) 0)) as [m' Hw].
  { rewrite length_replicate. intros x Hx. apply Hm. lia. }
  exists m'. unfold bzero. rewrite Hw. split; [done|]. split.
  - pose proof (write_bytes_agree _ _ _ _ Hw) as H. rewrite length_replicate in H.
    by replace (Z.max 0 n) with (Z.of_nat (Z.to_nat n)) by lia.
  - intros x Hx. rewrite (write_bytes_lookup _ _ _ _ x Hw), length_replicate.
    rewrite decide_True by lia. apply lookup_replicate_2. lia.
Qed.

Lemma copy_in_spec m dst src n :
  mapped m dst n -> 0 <= n <= Z.of_nat (length src) ->
  exists m', copy_in dst src n m = Some (tt, m') /\ agree_outside dst n m m' /\
             read_bytes m' dst (Z.to_nat n) = Some (take (Z.to_nat n) src).
Proof.
  intros Hm Hn. unfold copy_in. destruct (Z.ltb_spec (Z.of_nat (length src)) n); [lia|].
  assert (Hlen : length (take (Z.to_nat n) src) = Z.to_nat n)
    by (rewrite length_take; lia).
  destruct (write_bytes_is_Some m dst (take (Z.to_nat n) src)) as [m' Hw].
  { rewrite Hlen. by replace (Z.of_nat (Z.to_nat n)) with n by lia. }
  exists m'. rewrite Hw. split; [done|]. split.
  - pose proof (write_bytes_agree _ _ _ _ Hw) as Ha. rewrite Hlen in Ha.
    by replace (Z.of_nat (Z.to_nat n)) with n in Ha by lia.
  - pose proof (read_write_same _ _ _ _ Hw) as Hr. by rewrite Hlen in Hr.
Qed.

Lemma store8_spec m a v :
  mapped m a 1 ->
  exists m', store8 a v m = Some (tt, m') /\ agree_outside a 1 m m' /\ m' !! a = Some (v mod 256).
Proof.
  intros Hm. destruct (write_bytes_is_Some m a [v mod 256] Hm) as [m' Hw].
  exists m'. unfold store8. rewrite Hw. split; [done|]. split.
  - exact (write_bytes_agree _ _ _ _ Hw).
  - rewrite (write_bytes_lookup _ _ _ _ a Hw). cbn. rewrite decide_True by lia.
    by rewrite Z.sub_diag.
Qed.

Lemma memcpy_spec m dst src n l :
  mapped m dst n -> 0 <= n -> read_bytes m src (Z.to_nat n) = Some l ->
  exists m', memcpy dst src n m = Some (tt, m') /\ agree_outside dst n m m' /\
             read_bytes m' dst (Z.to_nat n) = Some l.
Proof.
  intros Hm Hn Hr. pose proof (proj1 (read_bytes_Some _ _ _ _) Hr) as [Hlen _].
  destruct (write_bytes_is_Some m dst l) as [m' Hw].
  { rewrite Hlen. by replace (Z.of_nat (Z.to_nat n)) with n by lia. }
  exists m'. unfold memcpy. rewrite Hr. cbn. rewrite Hw. split; [done|]. split.
  - pose proof (write_bytes_agree _ _ _ _ Hw) as Ha. rewrite Hlen in Ha.
    by replace (Z.of_nat (Z.to_nat n)) with n in Ha by lia.
  - pose proof (read_write_same _ _ _ _ Hw) as Hs. by rewrite Hlen in Hs.
Qed.

(** Reading a range in two parts. *)
Lemma read_bytes_app m a n k l1 l2 :
  read_bytes m a n = Some l1 -> read_bytes m (a + Z.of_nat n) k = Some l2 ->
  read_bytes m a (n + k) = Some (l1 ++ l2).
Proof.
  rewrite !read_bytes_Some. intros [Hl1 H1] [Hl2 H2]. split; [rewrite length_app; lia|].
  intros i b Hi. destruct (decide (i < n)%nat) as [Hlt|Hge].
  - rewrite lookup_app_l in Hi by lia. by apply H1.
  - rewrite lookup_app_r in Hi by lia. rewrite <- (H2 _ _ Hi). f_equal. lia.
Qed.

Lemma read_bytes_take m a n k l :
  (k <= n)%nat -> read_bytes m a n = Some l -> read_bytes m a k = Some (take k l).
Proof.
  rewrite !read_bytes_Some. intros Hk [Hl H]. split; [rewrite length_take; lia|].
  intros i b Hi. apply H. apply lookup_take_Some in Hi. tauto.
Qed.

(** ** Evaluating monadic code

    [M_step] unfolds one bind of the goal once the result of its first
    computation is known. *)

Lemma M_bind_Some {A B} (c : M A) (f : A -> M B) m a m' :
  c m = Some (a, m') -> (c ≫= f) m = f a m'.
Proof. intros H. unfold mbind, M_bind. by rewrite H. Qed.

Lemma M_ret_eq {A} (a : A) m : (mret a : M A) m = Some (a, m).
Proof. done. Qed.

Lemma M_ret_bind {A B} (a : A) (f : A -> M B) m : (mret a ≫= f) m = f a m.
Proof. done. Qed.

Ltac M_load H := rewrite (M_bind_Some _ _ _ _ _ (load64_word_at _ _ _ H)).
Ltac M_step H := rewrite (M_bind_Some _ _ _ _ _ H).
