(* ===== verification/Os.v ===== *)
(** * The operating system's memory services

    [malloc]/[free] and anonymous [mmap]/[munmap] over the byte memory of
    [Memory], with the table of live blocks that makes a double or foreign
    release a fault.  Where a block is placed is the allocator's business: the
    address is chosen by the section variable [place], of which clients use
    only what the C standard and POSIX promise ([place_fresh]). *)

From S2P Require Import Prelude.
From S2P Require Import Memory.
#[local] Open Scope Z_scope.

Inductive block_kind := Malloc | Mmap.

#[export] Instance block_kind_eq_dec : EqDecision block_kind.
Proof. solve_decision. Defined.

Record os := mkOs {
  os_mem : mem;
  os_blocks : gmap Z (block_kind * Z);
}.

(** Computations over the whole process: [None] is a fault, as in [M]. *)
Definition P (A : Type) : Type := os -> option (A * os).

#[export] Instance P_ret : MRet P := fun A a o => Some (a, o).
#[export] Instance P_bind : MBind P := fun A B f c o =>
  match c o with
  | Some (a, o') => f a o'
  | None => None
  end.

Definition lift {A} (c : M A) : P A := fun o =>
  match c (os_mem o) with
  | Some (a, m) => Some (a, mkOs m (os_blocks o))
  | None => None
  end.

(** Map [n] bytes at [a]; byte [i] of the block holds [fill i]. *)
Fixpoint map_bytes (m : mem) (a : Z) (n : nat) (fill : Z -> Z) : mem :=
  match n with
  | O => m
  | S n => <[a := fill a]> (map_bytes m (a + 1) n fill)
  end.

(** Unmap [a, a + n). *)
Fixpoint unmap_bytes (m : mem) (a : Z) (n : nat) : mem :=
  match n with
  | O => m
  | S n => delete a (unmap_bytes m (a + 1) n)
  end.

Definition MAP_FAILED : Z := 2 ^ 64 - 1.

Section Services.
(** The address the allocator picks for a block, [None] when it fails, and
    the indeterminate contents of fresh [malloc] memory. *)
Variable place : os -> block_kind -> Z -> option Z.
Variable junk : Z -> Z.

Definition grant (k : block_kind) (fill : Z -> Z) (n a : Z) (o : os) : os :=
  mkOs (map_bytes (os_mem o) a (Z.to_nat n) fill)
       (<[a := (k, n)]> (os_blocks o)).

Definition malloc (n : Z) : P Z := fun o =>
  match place o Malloc n with
  | Some a => Some (a, grant Malloc junk n a o)
  | None => Some (NULL, o)
  end.

(** [mmap(NULL, n, PROT_READ | PROT_WRITE, MAP_PRIVATE | MAP_ANONYMOUS, -1, 0)];
    an empty mapping is refused with [EINVAL]. *)
Definition mmap (n : Z) : P Z := fun o =>
  if n =? 0 then Some (MAP_FAILED, o) else
  match place o Mmap n with
  | Some a => Some (a, grant Mmap (fun _ => 0) n a o)
  | None => Some (MAP_FAILED, o)
  end.
End Services.

Definition release (a n : Z) (o : os) : os :=
  mkOs (unmap_bytes (os_mem o) a (Z.to_nat n)) (delete a (os_blocks o)).

(** [free(a)]: a fault unless [a] is NULL or the start of a live block. *)
Definition free (a : Z) : P unit := fun o =>
  if a =? NULL then Some (tt, o)
  else match os_blocks o !! a with
       | Some (Malloc, n) => Some (tt, release a n o)
       | _ => None
       end.

(** [munmap(a, n)] of a whole mapping; any other range is outside the model. *)
Definition munmap (a n : Z) : P unit := fun o =>
  match os_blocks o !! a with
  | Some (Mmap, k) => if k =? n then Some (tt, release a n o) else None
  | _ => None
  end.

(** What the C standard and POSIX promise of a successful allocation: a
    non-null block of the address space that overlaps nothing live. *)
Definition place_fresh (place : os -> block_kind -> Z -> option Z) : Prop :=
  forall o k n a, place o k n = Some a ->
    0 < a /\ a + n <= 2 ^ 64 - 1 /\
    (forall x, a <= x < a + n -> os_mem o !! x = None) /\
    os_blocks o !! a = None.

(** A concrete allocator for the witnesses: blocks at a fixed stride, above
    everything that is mapped. *)
Definition bump_place (o : os) (k : block_kind) (n : Z) : option Z :=
  let top := map_fold (fun x _ t => Z.max x t) 0 (os_mem o) in
  let topb := map_fold (fun x _ t => Z.max x t) 0 (os_blocks o) in
  let a := Z.max top topb + 1 in
  if (0 <=? n) && (a + n <=? 2 ^ 64 - 1) then Some a else None.

(** ** Lemmas *)

Lemma P_bind_Some {A B} (c : P A) (f : A -> P B) o a o' :
  c o = Some (a, o') -> (c ≫= f) o = f a o'.
Proof. intros H. unfold mbind, P_bind. by rewrite H. Qed.

Lemma lift_Some {A} (c : M A) o a m' :
  c (os_mem o) = Some (a, m') -> lift c o = Some (a, mkOs m' (os_blocks o)).
Proof. intros H. unfold lift. by rewrite H. Qed.

Ltac P_step H := rewrite (P_bind_Some _ _ _ _ _ H).
Ltac P_lift H := rewrite (P_bind_Some _ _ _ _ _ (lift_Some _ _ _ _ H)).

Lemma map_bytes_lookup m a n fill x :
  map_bytes m a n fill !! x =
  if decide (a <= x < a + Z.of_nat n) then Some (fill x) else m !! x.
Proof.
  revert a; induction n as [|n IH]; intros a; cbn [map_bytes].
  { by rewrite decide_False by lia. }
  destruct (decide (x = a)) as [->|Hne].
  - rewrite lookup_insert_eq, decide_True by lia. done.
  - rewrite lookup_insert_ne, IH by done.
    do 2 case_decide; (done || lia).
Qed.

Lemma unmap_bytes_lookup m a n x :
  unmap_bytes m a n !! x =
  if decide (a <= x < a + Z.of_nat n) then None else m !! x.
Proof.
  revert a; induction n as [|n IH]; intros a; cbn [unmap_bytes].
  { by rewrite decide_False by lia. }
  destruct (decide (x = a)) as [->|Hne].
  - rewrite lookup_delete_eq, decide_True by lia. done.
  - rewrite lookup_delete_ne, IH by done.
    do 2 case_decide; (done || lia).
Qed.

Lemma map_bytes_mapped m a n fill : 0 <= n -> mapped (map_bytes m a (Z.to_nat n) fill) a n.
Proof.
  intros ? x Hx. rewrite map_bytes_lookup, decide_True by lia. eauto.
Qed.

(** Unmapping a block after writes confined to it gives back the memory from
    before the block was mapped. *)
Lemma unmap_map_agree m m' a n fill :
  0 <= n -> (forall x, a <= x < a + n -> m !! x = None) ->
  agree_outside a n (map_bytes m a (Z.to_nat n) fill) m' ->
  unmap_bytes m' a (Z.to_nat n) = m.
Proof.
  intros Hn Hfresh [_ Hag]. apply map_eq. intros x.
  rewrite unmap_bytes_lookup. case_decide as Hx.
  - symmetry. apply Hfresh. lia.
  - rewrite Hag by lia. rewrite map_bytes_lookup, decide_False; [done|lia].
Qed.

Lemma map_fold_max_bound {A} (m : gmap Z A) :
  0 <= map_fold (fun x _ t => Z.max x t) 0 m /\
  forall x v, m !! x = Some v -> x <= map_fold (fun x _ t => Z.max x t) 0 m.
Proof.
  apply (map_fold_weak_ind (fun r m => 0 <= r /\ forall x v, m !! x = Some v -> x <= r)).
  - split; [lia|]. intros x v H. by rewrite lookup_empty in H.
  - intros i w m' r Hi [Hr IH]. split; [lia|]. intros x v.
    destruct (decide (i = x)) as [->|Hne]; [lia|].
    rewrite lookup_insert_ne by done. intros H. pose proof (IH _ _ H). lia.
Qed.

Lemma bump_place_fresh : place_fresh bump_place.
Proof.
  intros o k n a. unfold bump_place.
  destruct (map_fold_max_bound (os_mem o)) as [? Hbm].
  destruct (map_fold_max_bound (os_blocks o)) as [? Hbb].
  destruct (_ && _) eqn:Hc; [|done]. apply andb_true_iff in Hc as [Hn Ha].
  apply Z.leb_le in Hn, Ha. intros [= <-]. split_and!; [lia|lia| |].
  - intros x Hx. destruct (os_mem o !! x) eqn:Hm; [|done].
    pose proof (Hbm _ _ Hm). lia.
  - destruct (os_blocks o !! _) eqn:Hm; [|done].
    pose proof (Hbb _ _ Hm). lia.
Qed.
