(* ===== verification/LmDefs.v ===== *)
(** * The macros and size parser of [src/src/lm.h]

    Alignment and power-of-two macros, the decimal and binary unit macros, and
    [lm_mem_sz_from_string] with its copy [SdbMemSizeFromString] in
    [src/src/sdhs/Sdb.h].  C strings are the list of their bytes, without the
    terminating NUL; a pointer into a string is the suffix it points at. *)

From S2P Require Import Prelude.
#[local] Open Scope Z_scope.

(** ** Units and alignment (operands are [size_t]) *)

Definition LmKiloByte (n : Z) : Z := n *64 1000.
Definition LmMegaByte (n : Z) : Z := LmKiloByte n *64 1000.
Definition LmGigaByte (n : Z) : Z := LmMegaByte n *64 1000.
Definition LmTeraByte (n : Z) : Z := LmGigaByte n *64 1000.
Definition LmKibiByte (n : Z) : Z := n *64 1024.
Definition LmMebiByte (n : Z) : Z := LmKibiByte n *64 1024.
Definition LmGibiByte (n : Z) : Z := LmMebiByte n *64 1024.
Definition LmTebiByte (n : Z) : Z := LmGibiByte n *64 1024.

Definition LmIsPowerOfTwo (n : Z) : bool := negb (n =? 0) && (Z.land n (n -64 1) =? 0).

Definition LmIsAligned (val alignment : Z) : bool := val mod alignment =? 0.

(** [((alignment - 1) & (-value))] *)
Definition LmPow2AlignUp (value alignment : Z) : Z :=
  Z.land (alignment -64 1) (u64 (- value)).

Definition LmPaddingToAlign (value alignment : Z) : Z :=
  (alignment -64 (value mod alignment)) mod alignment.

(** ** [lm_mem_sz_from_string] *)

Definition is_digit (c : Z) : bool := (48 <=? c) && (c <=? 57).

(** [isspace] in the C locale. *)
Definition isspace (c : Z) : bool := (c =? 32) || ((9 <=? c) && (c <=? 13)).

Fixpoint skip_space (s : list Z) : list Z :=
  match s with
  | c :: s' => if isspace c then skip_space s' else s
  | [] => []
  end.

(** The digits at the head of [s]: their value added to [acc * 10 ^ k], and
    the rest. *)
Fixpoint scan_digits (acc : Z) (s : list Z) : Z * list Z :=
  match s with
  | c :: s' => if is_digit c then scan_digits (10 * acc + (c - 48)) s' else (acc, s)
  | [] => (acc, [])
  end.

Definition ULLONG_MAX : Z := 2 ^ 64 - 1.

(** [strtoull(string, &end_ptr, 10)]: the value, clamped to [ULLONG_MAX], then
    negated when a minus sign was read, and [end_ptr].  When there is no digit
    [end_ptr] is [string] itself, which [None] stands for. *)
Definition strtoull (s : list Z) : Z * option (list Z) :=
  let s1 := skip_space s in
  let '(neg, s2) := match s1 with
                    | 43 :: s' => (false, s')
                    | 45 :: s' => (true, s')
                    | _ => (false, s1)
                    end in
  match s2 with
  | c :: _ =>
      if is_digit c then
        let '(v, rest) := scan_digits 0 s2 in
        ((if ULLONG_MAX <? v then ULLONG_MAX else if neg then u64 (- v) else v),
         Some rest)
      else (0, None)
  | [] => (0, None)
  end.

(** The [switch] on the unit letter: the multiplier, [None] for [default]. *)
Definition unit_multiplier (c : Z) : option Z :=
  if c =? 84 then Some (1000 * 1000 * 1000 * 1000)          (* 'T' *)
  else if c =? 116 then Some (1024 * 1024 * 1024 * 1024)    (* 't' *)
  else if c =? 71 then Some (1000 * 1000 * 1000)            (* 'G' *)
  else if c =? 103 then Some (1024 * 1024 * 1024)           (* 'g' *)
  else if c =? 77 then Some (1000 * 1000)                   (* 'M' *)
  else if c =? 109 then Some (1024 * 1024)                  (* 'm' *)
  else if c =? 75 then Some 1000                            (* 'K' *)
  else if c =? 107 then Some 1024                           (* 'k' *)
  else if c =? 66 then Some 1                               (* 'B' *)
  else None.

(** The character [s[i]], 0 at and past the terminator. *)
Definition char_at (s : list Z) (i : nat) : Z := default 0 (s !! i).

Definition lm_mem_sz_from_string (string : option (list Z)) : Z :=
  match string with
  | None => 0
  | Some s =>
      if char_at s 0 =? 0 then 0 else
      let '(value, end_ptr) := strtoull s in
      match end_ptr with
      | None => 0                                     (* No number found *)
      | Some e =>
          let e := skip_space e in
          if char_at e 0 =? 0 then value else
          match unit_multiplier (char_at e 0) with
          | None => 0
          | Some multiplier =>
              if (char_at e 0 =? 66) && negb (char_at e 1 =? 0) then 0
              else if negb (char_at e 0 =? 66) &&
                      (negb (char_at e 1 =? 66) || negb (char_at e 2 =? 0)) then 0
              else value *64 multiplier
          end
      end
  end.

(** [SdbMemSizeFromString] of [Sdb.h]: the same routine, written a second
    time; the 'B' case sets the multiplier itself. *)
Definition SdbMemSizeFromString (SizeStr : option (list Z)) : Z :=
  match SizeStr with
  | None => 0
  | Some s =>
      if char_at s 0 =? 0 then 0 else
      match strtoull s with
      | (_, None) => 0
      | (Value, Some EndPtr) =>
          let EndPtr := skip_space EndPtr in
          let c := char_at EndPtr 0 in
          if c =? 0 then Value else
          let Multiplier :=
            if c =? 66 then (if negb (char_at EndPtr 1 =? 0) then None else Some 1)
            else unit_multiplier c in
          match Multiplier with
          | None => 0
          | Some k =>
              if negb (c =? 66) && (negb (char_at EndPtr 1 =? 66) || negb (char_at EndPtr 2 =? 0))
              then 0 else Value *64 k
          end
      end
  end.

(** ** Reference definitions *)

(** The decimal digits of [n], most significant first; [fuel] digits at most. *)
Fixpoint digits_rev (fuel : nat) (n : Z) : list Z :=
  match fuel with
  | O => []
  | S f => (48 + n mod 10) :: if n <? 10 then [] else digits_rev f (n / 10)
  end.

Definition print_dec (n : Z) : list Z := rev (digits_rev 20 n).

(** The unit suffixes the parser accepts, as (spelling, factor). *)
Definition size_units : list (list Z * Z) :=
  [ ([], 1); ([66], 1);
    ([75; 66], 1000); ([107; 66], 1024);
    ([77; 66], 1000 ^ 2); ([109; 66], 1024 ^ 2);
    ([71; 66], 1000 ^ 3); ([103; 66], 1024 ^ 3);
    ([84; 66], 1000 ^ 4); ([116; 66], 1024 ^ 4) ].

(** ** Lemmas *)

Lemma pow2_land_pred k x : 0 <= k -> Z.land x (2 ^ k - 1) = x mod 2 ^ k.
Proof. intros. rewrite <- Z.land_ones by done. by rewrite Z.ones_equiv. Qed.

Lemma pow2_bounds k : 0 <= k <= 63 -> 1 <= 2 ^ k <= 2 ^ 63.
Proof.
  intros. split; [apply (Z.pow_le_mono_r 2 0 k); lia | apply Z.pow_le_mono_r; lia].
Qed.

Lemma LmPaddingToAlign_mod v a :
  0 < a < 2 ^ 64 -> 0 <= v -> LmPaddingToAlign v a = (- v) mod a.
Proof.
  intros Ha Hv. unfold LmPaddingToAlign.
  pose proof (Z.mod_pos_bound v a ltac:(lia)).
  rewrite u64_small by lia.
  pose proof (Z.div_mod v a ltac:(lia)) as Hdm.
  replace (a - v mod a) with (- v + (1 + v / a) * a) by lia.
  by rewrite Z.mod_add by lia.
Qed.

Lemma LmPaddingToAlign_aligned v a :
  0 < a < 2 ^ 64 -> 0 <= v -> (v + LmPaddingToAlign v a) mod a = 0.
Proof.
  intros. rewrite LmPaddingToAlign_mod by done.
  rewrite Z.add_mod_idemp_r, Z.add_opp_diag_r by lia. apply Z.mod_0_l. lia.
Qed.

Lemma LmPaddingToAlign_bound v a :
  0 < a < 2 ^ 64 -> 0 <= v -> 0 <= LmPaddingToAlign v a < a.
Proof. intros. rewrite LmPaddingToAlign_mod by done. apply Z.mod_pos_bound. lia. Qed.

Lemma is_digit_spec c : is_digit c = true <-> 48 <= c <= 57.
Proof. unfold is_digit. rewrite andb_true_iff, !Z.leb_le. lia. Qed.

Lemma scan_digits_app acc ds rest :
  Forall (fun c => is_digit c = true) ds ->
  (forall c rest', rest = c :: rest' -> is_digit c = false) ->
  scan_digits acc (ds ++ rest) =
  (fold_left (fun a c => 10 * a + (c - 48)) ds acc, rest).
Proof.
  intros Hds Hrest. revert acc. induction Hds as [|c ds Hc Hds IH]; intros acc; cbn.
  - destruct rest as [|c rest]; [done|]. cbn. by rewrite (Hrest c rest eq_refl).
  - by rewrite Hc, IH.
Qed.

Lemma digits_rev_digits f n : 0 <= n -> Forall (fun c => is_digit c = true) (digits_rev f n).
Proof.
  revert n; induction f as [|f IH]; intros n Hn; cbn [digits_rev]; constructor.
  - apply is_digit_spec. pose proof (Z.mod_pos_bound n 10 ltac:(lia)). lia.
  - destruct (n <? 10); [constructor|]. apply IH. apply Z.div_pos; lia.
Qed.

Lemma digits_rev_value f n acc :
  0 <= n < 10 ^ Z.of_nat f -> (0 < f)%nat ->
  exists k, fold_right (fun c a => 10 * a + (c - 48)) acc (digits_rev f n) = acc * 10 ^ k + n
            /\ 0 < k.
Proof.
  revert n; induction f as [|f IH]; intros n Hn Hf; [lia|].
  cbn [digits_rev fold_right].
  pose proof (Z.div_mod n 10 ltac:(lia)). pose proof (Z.mod_pos_bound n 10 ltac:(lia)).
  destruct (Z.ltb_spec n 10).
  - exists 1. cbn [fold_right]. rewrite Z.pow_1_r, Z.mod_small by lia. lia.
  - rewrite Nat2Z.inj_succ, Z.pow_succ_r in Hn by lia.
    destruct f as [|f]; [rewrite Z.pow_0_r in Hn; lia|].
    destruct (IH (n / 10)) as (k & -> & Hk); [|lia|].
    { split; [apply Z.div_pos; lia | apply Z.div_lt_upper_bound; lia]. }
    exists (k + 1). rewrite Z.pow_add_r, Z.pow_1_r by lia. lia.
Qed.

Lemma print_dec_nonempty n : exists c l, print_dec n = c :: l.
Proof.
  unfold print_dec. destruct (rev (digits_rev 20 n)) as [|c l] eqn:E; [|by eauto].
  apply (f_equal (@length Z)) in E. by rewrite length_rev in E.
Qed.

Lemma print_dec_digits n : 0 <= n -> Forall (fun c => is_digit c = true) (print_dec n).
Proof. intros. unfold print_dec. apply Forall_rev. by apply digits_rev_digits. Qed.

Lemma print_dec_value n :
  0 <= n < 2 ^ 64 -> fold_left (fun a c => 10 * a + (c - 48)) (print_dec n) 0 = n.
Proof.
  intros Hn. unfold print_dec.
  rewrite <- (rev_involutive (digits_rev 20 n)) at 1.
  rewrite rev_involutive.
  rewrite <- fold_left_rev_right, rev_involutive.
  destruct (digits_rev_value 20 n 0) as (k & -> & _); [|lia|lia].
  change (10 ^ Z.of_nat 20) with 100000000000000000000. lia.
Qed.

(** [strtoull] reads back a printed number and stops at the first character
    that is not a digit. *)
Lemma strtoull_print n rest :
  0 <= n < 2 ^ 64 ->
  (forall c rest', rest = c :: rest' -> is_digit c = false) ->
  strtoull (print_dec n ++ rest) = (n, Some rest).
Proof.
  intros Hn Hrest.
  pose proof (print_dec_digits n ltac:(lia)) as Hd.
  pose proof (print_dec_value n Hn) as Hv.
  destruct (print_dec_nonempty n) as (c & l & Hp). rewrite Hp in *.
  pose proof (Forall_inv Hd) as Hc. cbn beta in Hc.
  assert (Hc' := Hc). apply is_digit_spec in Hc'.
  unfold strtoull. cbn [app skip_space].
  replace (isspace c) with false by (unfold isspace; symmetry;
    apply orb_false_iff; rewrite andb_false_iff, Z.eqb_neq, !Z.leb_gt; lia).
  replace (match c :: l ++ rest with
           | 43 :: s' => (false, s') | 45 :: s' => (true, s')
           | _ => (false, c :: l ++ rest) end)
    with (false, c :: l ++ rest).
  2:{ assert (c <> 43 /\ c <> 45) by lia. destruct c as [|p|p]; try done.
      do 6 (destruct p as [p|p|]; try done; try lia). }
  rewrite Hc.
  change (c :: l ++ rest) with ((c :: l) ++ rest). rewrite scan_digits_app by done.
  rewrite Hv. destruct (Z.ltb_spec ULLONG_MAX n); [unfold ULLONG_MAX in *; lia|done].
Qed.

(** The factor of a unit spelling, if the parser knows it. *)
Fixpoint bytes_eqb (l l' : list Z) : bool :=
  match l, l' with
  | [], [] => true
  | x :: l, y :: l' => (x =? y) && bytes_eqb l l'
  | _, _ => false
  end.

Definition unit_factor (e : list Z) : option Z :=
  snd <$> find (fun p => bytes_eqb (fst p) e) size_units.

Lemma char_at_cons_0 c s : char_at (c :: s) 0 = c.
Proof. done. Qed.

Ltac eqb_cases :=
  repeat match goal with
  | |- context [Z.eqb ?a ?b] => destruct (Z.eqb_spec a b); subst; cbn -[Z.eqb]; try done
  end.

(** A unit letter is followed by exactly one 'B' in a known spelling. *)
Lemma unit_factor_letter c s :
  Forall (fun x => x <> 0) (c :: s) -> c <> 66 ->
  unit_factor (c :: s) =
  if negb (char_at s 0 =? 66) || negb (char_at s 1 =? 0) then None else unit_multiplier c.
Proof.
  intros Hnz Hc. apply Forall_cons in Hnz as [Hc0 Hs].
  destruct s as [|d [|d' s']];
    unfold unit_factor, size_units, unit_multiplier, char_at; cbn -[Z.eqb].
  - eqb_cases.
  - eqb_cases.
  - apply Forall_inv_tail, Forall_inv in Hs. eqb_cases.
Qed.

Lemma unit_factor_B s :
  Forall (fun x => x <> 0) s ->
  unit_factor (66 :: s) = if negb (char_at s 0 =? 0) then None else Some 1.
Proof.
  intros Hs. destruct s as [|d s]; [done|].
  apply Forall_inv in Hs. unfold unit_factor, size_units, char_at; cbn -[Z.eqb]. eqb_cases.
Qed.

Lemma Forall_skip_space (Q : Z -> Prop) s : Forall Q s -> Forall Q (skip_space s).
Proof. induction 1; cbn; [done|]. destruct (isspace x); [done|by constructor]. Qed.

(** ** Properties *)

(** [lm_mem_sz_from_string] on a decimal number followed by anything: the
    number times the factor of its unit (modulo 2^64) when what follows the
    optional white space is one of the ten known spellings, and 0 otherwise. *)
Theorem lm_mem_sz_from_string_spec (n : Z) (rest : list Z) :
  0 <= n < 2 ^ 64 ->
  Forall (fun c => c <> 0) rest ->
  (forall c rest', rest = c :: rest' -> is_digit c = false) ->
  lm_mem_sz_from_string (Some (print_dec n ++ rest)) =
  match unit_factor (skip_space rest) with
  | Some k => n *64 k
  | None => 0
  end.
Proof.
  intros Hn Hnz Hrest. unfold lm_mem_sz_from_string.
  pose proof (strtoull_print n rest Hn Hrest) as Hst.
  destruct (print_dec_nonempty n) as (c & l & Hp).
  pose proof (print_dec_digits n ltac:(lia)) as Hd. rewrite Hp in *.
  apply Forall_inv, is_digit_spec in Hd.
  cbn [app]. rewrite char_at_cons_0. destruct (Z.eqb_spec c 0); [lia|].
  change (c :: l ++ rest) with ((c :: l) ++ rest). rewrite Hst. cbn iota beta.
  apply Forall_skip_space in Hnz. destruct (skip_space rest) as [|u s].
  { cbn. rewrite Z.mul_1_r. by rewrite u64_small. }
  rewrite char_at_cons_0.
  pose proof (Forall_inv Hnz) as Hu. cbn beta in Hu.
  destruct (Z.eqb_spec u 0); [done|].
  change (char_at (u :: s) 1) with (char_at s 0). change (char_at (u :: s) 2) with (char_at s 1).
  destruct (Z.eqb_spec u 66) as [->|Hu66].
  - rewrite unit_factor_B by (by apply Forall_inv_tail in Hnz). cbn [negb andb].
    by destruct (char_at s 0 =? 0).
  - rewrite unit_factor_letter by done. cbn [negb andb].
    destruct (unit_multiplier u); by destruct (_ || _).
Qed.

Lemma lm_mem_sz_from_string_spec_witness :
  lm_mem_sz_from_string (Some (print_dec 32 ++ [107; 66])) = 32768.
Proof.
  rewrite (lm_mem_sz_from_string_spec 32 [107; 66]);
    [reflexivity | lia | repeat constructor; lia | ].
  intros c r [= <- _]. reflexivity.
Defined.

(** the size parser of [Sdb.h] and the one of [lm.h] are the same function
    of the string, on every input, NULL and malformed ones included. *)
Theorem SdbMemSizeFromString_eq (s : option (list Z)) :
  SdbMemSizeFromString s = lm_mem_sz_from_string s.
Proof.
  destruct s as [s|]; [|done]. unfold SdbMemSizeFromString, lm_mem_sz_from_string.
  destruct (char_at s 0 =? 0); [done|].
  destruct (strtoull s) as [v [e|]]; [|done]. cbn zeta.
  set (e' := skip_space e). destruct (char_at e' 0 =? 0); [done|].
  destruct (Z.eqb_spec (char_at e' 0) 66) as [He|He]; cbn [negb andb].
  - rewrite He. change (unit_multiplier 66) with (Some 1).
    by destruct (char_at e' 1 =? 0).
  - by destruct (unit_multiplier (char_at e' 0)).
Qed.

(** [LmIsPowerOfTwo] decides exactly the powers of two among the
    [size_t] values. *)
Theorem LmIsPowerOfTwo_spec (n : Z) :
  0 <= n < 2 ^ 64 ->
  LmIsPowerOfTwo n = true <-> exists k, 0 <= k < 64 /\ n = 2 ^ k.
Proof.
  intros Hn. unfold LmIsPowerOfTwo. rewrite andb_true_iff, negb_true_iff, Z.eqb_neq, Z.eqb_eq.
  split.
  - intros [Hn0 Hland]. rewrite u64_small in Hland by lia.
    exists (Z.log2 n).
    assert (Hlog : 2 ^ Z.log2 n <= n < 2 ^ Z.succ (Z.log2 n)) by (apply Z.log2_spec; lia).
    assert (0 <= Z.log2 n < 64).
    { split; [apply Z.log2_nonneg|]. apply Z.log2_lt_pow2; lia. }
    split; [done|]. apply Z.le_antisymm; [|lia]. apply Z.le_ngt. intros Hlt.
    assert (Hb : Z.testbit (Z.land n (n - 1)) (Z.log2 n) = true).
    { rewrite Z.land_spec, Z.bit_log2 by lia.
      replace (Z.log2 n) with (Z.log2 (n - 1)); [apply Z.bit_log2; lia|].
      apply Z.log2_unique; lia. }
    by rewrite Hland, Z.bits_0 in Hb.
  - intros (k & Hk & ->). pose proof (pow2_bounds k ltac:(lia)).
    split; [lia|]. rewrite u64_small by lia.
    rewrite pow2_land_pred by lia. apply Z.mod_same. lia.
Qed.

Lemma LmIsPowerOfTwo_spec_witness :
  LmIsPowerOfTwo 64 = true /\ (exists k, 0 <= k < 64 /\ 64 = 2 ^ k).
Proof. split; [reflexivity|]. apply (LmIsPowerOfTwo_spec 64); [lia|reflexivity]. Defined.

(** for a power-of-two alignment [LmPow2AlignUp] is the padding up to the
    next multiple -- it equals [LmPaddingToAlign], and adding it aligns the
    value -- so, its name notwithstanding, it never returns the aligned value
    itself. *)
Theorem LmPow2AlignUp_is_padding (v k : Z) :
  0 <= v < 2 ^ 64 -> 0 <= k < 64 ->
  LmPow2AlignUp v (2 ^ k) = LmPaddingToAlign v (2 ^ k) /\
  (v + LmPow2AlignUp v (2 ^ k)) mod 2 ^ k = 0 /\
  LmPow2AlignUp v (2 ^ k) < 2 ^ k.
Proof.
  intros Hv Hk. pose proof (pow2_bounds k ltac:(lia)) as Hp.
  assert (Heq : LmPow2AlignUp v (2 ^ k) = LmPaddingToAlign v (2 ^ k)).
  { rewrite LmPaddingToAlign_mod by lia. unfold LmPow2AlignUp.
    rewrite (u64_small (2 ^ k - 1)) by lia.
    rewrite Z.land_comm, pow2_land_pred by lia. unfold u64.
    replace (2 ^ 64) with (2 ^ k * 2 ^ (64 - k)) by (rewrite <- Z.pow_add_r by lia; f_equal; lia).
    assert (0 < 2 ^ (64 - k)) by (apply Z.pow_pos_nonneg; lia).
    rewrite Z.rem_mul_r by lia.
    rewrite (Z.mul_comm (2 ^ k) (_ mod _)), Z.mod_add by lia. by apply Z.mod_mod; lia. }
  rewrite Heq. split; [done|]. split.
  - by apply LmPaddingToAlign_aligned; lia.
  - apply LmPaddingToAlign_bound; lia.
Qed.

Lemma LmPow2AlignUp_is_padding_witness :
  LmPow2AlignUp 13 (2 ^ 3) = 3 /\ (13 + LmPow2AlignUp 13 (2 ^ 3)) mod 2 ^ 3 = 0.
Proof.
  split; [reflexivity|]. apply (LmPow2AlignUp_is_padding 13 3); lia.
Defined.
