(* ===== verification/UArena.v ===== *)
(** * The userland arena: [src/src/allocators/u_arena.c]

    The struct [UArena] lives in byte memory (four 64-bit words) and its buffer
    is a range of the same memory.  Every function of the file is here as a
    term of the monad [M] ([P] for the two that call the operating system),
    reading and writing the struct word by word as the C code does.

    - [arena_at m p a]: the struct at address [p] of [m] holds the record [a];
    - [wf_arena m p a]: its buffer is mapped, does not wrap around the address
      space and does not overlap the struct, and the cursor is within the
      capacity;
    - [Bump]: the abstract bump allocator that the code implements
      ([ua_run_refines]).

    Thread arenas and the scratch functions are in [ThreadArenas]. *)

From S2P Require Import Prelude.
From S2P Require Import Memory.
From S2P Require Import Os.
From S2P Require Import LmDefs.
#[local] Open Scope Z_scope.

(** ** The struct and its flags *)

Record UArena := mkUArena {
  ua_flags : Z;   (* uint_least64_t *)
  ua_cap : Z;     (* size_t *)
  ua_cur : Z;     (* size_t *)
  ua_mem : Z;     (* uint8_t * *)
}.

Definition sizeof_UArena : Z := 32.

(** Addresses of the fields of the struct at [p]. *)
Definition p_flags (p : Z) : Z := p.
Definition p_cap (p : Z) : Z := p + 8.
Definition p_cur (p : Z) : Z := p + 16.
Definition p_mem (p : Z) : Z := p + 24.

Definition UaIsContiguous (flags : Z) : bool := negb (Z.land (Z.shiftr flags 0) 1 =? 0).
Definition UaIsMallocd (flags : Z) : bool := negb (Z.land (Z.shiftr flags 1) 1 =? 0).
Definition UaIsBootstrapped (flags : Z) : bool := negb (Z.land (Z.shiftr flags 2) 1 =? 0).

Definition UaSetIsContiguous (flags : Z) : Z := Z.lor flags 1.
Definition UaSetIsMallocd (flags : Z) : Z := Z.lor flags (Z.shiftl 1 1).
Definition UaSetIsBootstrapped (flags : Z) : Z := Z.lor flags (Z.shiftl 1 2).

(** ** Operations that stay inside the arena *)

Definition ua_init (ua : Z) (contiguous mallocd bootstrapped : bool) (cap mem : Z) : M unit :=
  store64 (p_flags ua) 0;;
  (if contiguous
   then f ← load64 (p_flags ua); store64 (p_flags ua) (UaSetIsContiguous f) else mret tt);;
  (if mallocd
   then f ← load64 (p_flags ua); store64 (p_flags ua) (UaSetIsMallocd f) else mret tt);;
  (if bootstrapped
   then f ← load64 (p_flags ua); store64 (p_flags ua) (UaSetIsBootstrapped f) else mret tt);;
  store64 (p_cur ua) 0;;
  store64 (p_cap ua) cap;;
  store64 (p_mem ua) mem.

Definition ua_alloc (ua size : Z) : M Z :=
  cur ← load64 (p_cur ua);
  cap ← load64 (p_cap ua);
  if cur +64 size <=? cap then
    mem ← load64 (p_mem ua);
    store64 (p_cur ua) (cur +64 size);;
    mret (mem +64 cur)
  else mret NULL.

Definition ua_zalloc (ua size : Z) : M Z :=
  cur ← load64 (p_cur ua);
  cap ← load64 (p_cap ua);
  if cur +64 size <=? cap then
    mem ← load64 (p_mem ua);
    store64 (p_cur ua) (cur +64 size);;
    bzero (mem +64 cur) size;;
    mret (mem +64 cur)
  else mret NULL.

Definition ua_falloc (ua size : Z) : M Z :=
  mem ← load64 (p_mem ua);
  cur ← load64 (p_cur ua);
  store64 (p_cur ua) (cur +64 size);;
  mret (mem +64 cur).

Definition ua_fzalloc (ua size : Z) : M Z :=
  mem ← load64 (p_mem ua);
  cur ← load64 (p_cur ua);
  store64 (p_cur ua) (cur +64 size);;
  bzero (mem +64 cur) size;;
  mret (mem +64 cur).

Definition ua_free (ua : Z) : M unit :=
  if ua =? NULL then mret tt else store64 (p_cur ua) 0.

(** [(ssize_t)cur - (ssize_t)size >= 0]: the subtraction is done in the signed
    type (its overflow wraps, as the compilers in use do with the difference of
    two loaded words). *)
Definition ua_pop (ua size : Z) : M unit :=
  cur ← load64 (p_cur ua);
  if 0 <=? s64 (s64 cur - s64 size) then store64 (p_cur ua) (cur -64 size) else mret tt.

Definition ua_pos (ua : Z) : M Z := load64 (p_cur ua).

Definition ua_seek (ua pos : Z) : M Z :=
  cap ← load64 (p_cap ua);
  if pos <=? cap then
    store64 (p_cur ua) pos;;
    mem ← load64 (p_mem ua);
    cur ← load64 (p_cur ua);
    mret (mem +64 cur)
  else mret NULL.

Definition ua_reserve (ua sz : Z) : M Z :=
  cur ← load64 (p_cur ua);
  cap ← load64 (p_cap ua);
  if cur +64 sz <=? cap then
    store64 (p_cur ua) (cur +64 sz);;
    mret sz
  else mret (cap -64 cur).

(** Without a place of its own the new struct is pushed on the parent; the
    buffer is taken from the parent in either case. *)
Definition ua_bootstrap (ua new_existing cap : Z) : M Z :=
  new ← (if negb (new_existing =? NULL) then mret new_existing else ua_alloc ua sizeof_UArena);
  mem ← ua_zalloc ua cap;
  if (new =? NULL) || (mem =? NULL) then mret NULL
  else ua_init new false false true cap mem;; mret new.

(** ** Creation and destruction *)

Section Create.
(** The allocator, and the L1 cache line size that
    [get_l1d_cacheln_sz] obtains from [sysconf]. *)
Variable place : os -> block_kind -> Z -> option Z.
Variable junk : Z -> Z.
Variable cacheln_sz : Z.

Definition arena_cache_aligned_sz : Z :=
  sizeof_UArena +64 LmPaddingToAlign sizeof_UArena cacheln_sz.

Definition ua_create (cap : Z) (contiguous mallocd : bool) : P Z :=
  let arena_sz := arena_cache_aligned_sz in
  if mallocd then
    if contiguous then
      ua ← malloc place junk (arena_sz +64 cap);
      let mem := ua +64 arena_sz in
      lift (ua_init ua contiguous mallocd false cap mem);; mret ua
    else
      ua ← malloc place junk sizeof_UArena;
      mem ← malloc place junk cap;
      lift (ua_init ua contiguous mallocd false cap mem);; mret ua
  else
    if contiguous then
      mem ← mmap place (arena_sz +64 cap);
      if mem =? MAP_FAILED then mret NULL
      else
        let ua := mem in
        let mem := mem +64 arena_sz in
        lift (ua_init ua contiguous mallocd false cap mem);; mret ua
    else
      ua ← malloc place junk sizeof_UArena;
      mem ← mmap place cap;
      lift (ua_init ua contiguous mallocd false cap mem);; mret ua.

(** [uap] is the address of the caller's pointer, NULL allowed. *)
Definition ua_destroy (uap : Z) : P unit :=
  if uap =? NULL then mret tt else
  ua ← lift (load64 uap);
  if ua =? NULL then mret tt else
  flags ← lift (load64 (p_flags ua));
  if UaIsBootstrapped flags then mret tt else
  mem ← lift (load64 (p_mem ua));
  if mem =? NULL then mret tt else
  (if UaIsMallocd flags then
     if UaIsContiguous flags then free ua
     else (free mem;; free ua)
   else
     cap ← lift (load64 (p_cap ua));
     if UaIsContiguous flags then munmap ua (arena_cache_aligned_sz +64 cap)
     else (munmap mem cap;; free ua));;
  lift (store64 uap NULL).
End Create.

(** ** The struct in memory *)

Definition with_cur (a : UArena) (c : Z) : UArena :=
  mkUArena (ua_flags a) (ua_cap a) c (ua_mem a).

Definition arena_at (m : mem) (p : Z) (a : UArena) : Prop :=
  p <> NULL /\
  word_at m (p_flags p) (ua_flags a) /\ word_at m (p_cap p) (ua_cap a) /\
  word_at m (p_cur p) (ua_cur a) /\ word_at m (p_mem p) (ua_mem a).

(** The buffer: mapped, within the address space, apart from the struct. *)
Record wf_arena (m : mem) (p : Z) (a : UArena) : Prop := {
  wf_cur : 0 <= ua_cur a <= ua_cap a;
  wf_buf : 0 < ua_mem a /\ ua_mem a + ua_cap a < 2 ^ 64;
  wf_mapped : mapped m (ua_mem a) (ua_cap a);
  wf_apart : p + sizeof_UArena <= ua_mem a \/ ua_mem a + ua_cap a <= p;
}.

(** What an operation on the arena at [p] may write: its cursor and, for the
    zeroing ones, its buffer. *)
Definition arena_footprint (p : Z) (a : UArena) (x : Z) : Prop :=
  p_cur p <= x < p_cur p + 8 \/ ua_mem a <= x < ua_mem a + ua_cap a.

Definition flag_bits (contiguous mallocd bootstrapped : bool) : Z :=
  Z.b2z contiguous + 2 * Z.b2z mallocd + 4 * Z.b2z bootstrapped.

Ltac unfold_fields := unfold p_flags, p_cap, p_cur, p_mem, sizeof_UArena in *.

Lemma arena_at_ranges m p a :
  arena_at m p a ->
  0 <= ua_flags a < 2 ^ 64 /\ 0 <= ua_cap a < 2 ^ 64 /\
  0 <= ua_cur a < 2 ^ 64 /\ 0 <= ua_mem a < 2 ^ 64.
Proof. intros (_ & [_ ?] & [_ ?] & [_ ?] & [_ ?]). done. Qed.

Lemma arena_at_mapped m p a : arena_at m p a -> mapped m p sizeof_UArena.
Proof.
  intros (_ & H0%word_at_mapped & H1%word_at_mapped & H2%word_at_mapped & H3%word_at_mapped).
  unfold mapped in *. unfold_fields. intros x Hx.
  destruct (Z.lt_ge_cases x (p + 8)); [apply H0; lia|].
  destruct (Z.lt_ge_cases x (p + 16)); [apply H1; lia|].
  destruct (Z.lt_ge_cases x (p + 24)); [apply H2; lia|]. apply H3; lia.
Qed.

Lemma arena_at_frame W m m' p a :
  frame W m m' -> (forall x, p <= x < p + sizeof_UArena -> ~ W x) ->
  arena_at m p a -> arena_at m' p a.
Proof.
  intros Hf Hd (Hp & H0 & H1 & H2 & H3). unfold_fields.
  split; [done|]. split_and!;
    (eapply word_at_frame; [done| |done]; intros x Hx; apply Hd; unfold_fields; lia).
Qed.

Lemma store_cur m p a c :
  arena_at m p a -> 0 <= c < 2 ^ 64 ->
  exists m', store64 (p_cur p) c m = Some (tt, m') /\ agree_outside (p_cur p) 8 m m' /\
             arena_at m' p (with_cur a c).
Proof.
  intros (Hp & H0 & H1 & H2 & H3) Hc.
  destruct (store64_word m (p_cur p) c) as (m' & Hs & Hag & Hw);
    [by eapply word_at_mapped|done|].
  exists m'. split_and!; [done|done|].
  split; [done|]. unfold_fields. split_and!; try done;
    (eapply word_at_agree; [done| |done]; unfold_fields; lia).
Qed.

Lemma with_cur_wf m m' p a c :
  wf_arena m p a -> (forall n x, mapped m x n -> mapped m' x n) ->
  0 <= c <= ua_cap a -> wf_arena m' p (with_cur a c).
Proof. intros [] Hm Hc. split; cbn; auto. Qed.

(** Each stored field leaves the others in place. *)
Ltac other_word H := eapply word_at_agree; [exact H | unfold_fields; lia | assumption].

Lemma or_flag m0 m p n f (b : bool) (set : Z -> Z) :
  mapped m0 p n -> agree_outside p n m0 m -> 8 <= n ->
  word_at m p f -> 0 <= set f < 2 ^ 64 ->
  exists m', (if b then x ← load64 p; store64 p (set x) else mret tt) m = Some (tt, m') /\
             agree_outside p n m0 m' /\ word_at m' p (if b then set f else f).
Proof.
  intros Hm Hag Hn Hf Hr. destruct b; [|by exists m].
  M_load Hf. destruct (store_field m0 m p n 0 (set f)) as (m' & Hs & ? & _ & Hw); try done; [].
  rewrite Z.add_0_r in *. by exists m'.
Qed.

Lemma ua_init_flags (c m b : bool) :
  let f1 := if c then UaSetIsContiguous 0 else 0 in
  let f2 := if m then UaSetIsMallocd f1 else f1 in
  (if b then UaSetIsBootstrapped f2 else f2) = flag_bits c m b.
Proof. by destruct c, m, b. Qed.

Lemma ua_init_spec m p (c mal b : bool) cap mem :
  p <> NULL -> mapped m p sizeof_UArena -> 0 <= cap < 2 ^ 64 -> 0 <= mem < 2 ^ 64 ->
  exists m', ua_init p c mal b cap mem m = Some (tt, m') /\
             agree_outside p sizeof_UArena m m' /\
             arena_at m' p (mkUArena (flag_bits c mal b) cap 0 mem).
Proof.
  intros Hp Hm Hcap Hmem. unfold ua_init, arena_at, p_flags, p_cap, p_cur, p_mem. cbn.
  destruct (store_field m m p 32 0 0) as (m1 & S1 & A1 & _ & W1); try done; [].
  rewrite Z.add_0_r in *. M_step S1.
  destruct (or_flag m m1 p 32 0 c UaSetIsContiguous) as (m2 & S2 & A2 & W2); try done; [].
  M_step S2.
  destruct (or_flag m m2 p 32 (if c then UaSetIsContiguous 0 else 0) mal UaSetIsMallocd)
    as (m3 & S3 & A3 & W3); [done..|by destruct c|]. M_step S3.
  match type of W3 with word_at _ _ ?f =>
    destruct (or_flag m m3 p 32 f b UaSetIsBootstrapped) as (m4 & S4 & A4 & W4);
      [done..|by destruct c, mal|] end. M_step S4.
  rewrite ua_init_flags in W4.
  destruct (store_field m m4 p 32 16 0) as (m5 & S5 & A5 & B5 & W5); try done; [].
  M_step S5.
  destruct (store_field m m5 p 32 8 cap) as (m6 & S6 & A6 & B6 & W6); try done; [].
  M_step S6.
  destruct (store_field m m6 p 32 24 mem) as (m7 & S7 & A7 & B7 & W7); try done; [].
  exists m7. split_and!; try done.
  - apply (word_at_agree _ _ _ _ _ _ B7); [lia|]. apply (word_at_agree _ _ _ _ _ _ B6); [lia|].
    apply (word_at_agree _ _ _ _ _ _ B5); [lia|done].
  - apply (word_at_agree _ _ _ _ _ _ B7); [lia|done].
  - apply (word_at_agree _ _ _ _ _ _ B7); [lia|]. apply (word_at_agree _ _ _ _ _ _ B6); [lia|done].
Qed.

(** ** The operations, branch by branch *)

(** The cursor store of an operation, as a frame of the arena's footprint. *)
Lemma cur_store_frame p a m m' :
  agree_outside (p_cur p) 8 m m' -> frame (arena_footprint p a) m m'.
Proof. intros H. eapply agree_outside_frame; [exact H|]. unfold arena_footprint. lia. Qed.

Lemma wf_with_cur m m' p a c :
  wf_arena m p a -> frame (arena_footprint p a) m m' -> 0 <= c <= ua_cap a ->
  wf_arena m' p (with_cur a c).
Proof. intros [] Hf Hc. split; cbn; auto. by eapply frame_mapped. Qed.

Lemma ua_alloc_fits m p a size :
  arena_at m p a -> ua_cur a +64 size <= ua_cap a ->
  exists m', ua_alloc p size m = Some (ua_mem a +64 ua_cur a, m') /\
             agree_outside (p_cur p) 8 m m' /\ arena_at m' p (with_cur a (ua_cur a +64 size)).
Proof.
  intros Ha Hfit. pose proof Ha as (_ & _ & Hcap & Hcur & Hmem). unfold ua_alloc.
  M_load Hcur. M_load Hcap. rewrite (proj2 (Z.leb_le _ _) Hfit). M_load Hmem.
  destruct (store_cur m p a (ua_cur a +64 size) Ha) as (m' & S & ? & ?); [auto with word|].
  M_step S. by exists m'.
Qed.

Lemma ua_alloc_full m p a size :
  arena_at m p a -> ua_cap a < ua_cur a +64 size -> ua_alloc p size m = Some (NULL, m).
Proof.
  intros (_ & _ & Hcap & Hcur & _) Hfull. unfold ua_alloc.
  M_load Hcur. M_load Hcap. by rewrite (proj2 (Z.leb_gt _ _) Hfull).
Qed.

(** [ua_zalloc] is [ua_alloc] followed by clearing the block. *)
Lemma ua_zalloc_alloc m p size r m' :
  ua_alloc p size m = Some (r, m') ->
  forall cur cap mem, word_at m (p_cur p) cur -> word_at m (p_cap p) cap ->
  word_at m (p_mem p) mem ->
  ua_zalloc p size m =
  if cur +64 size <=? cap then (bzero r size;; mret r) m' else Some (NULL, m).
Proof.
  intros H cur cap mem Hcur Hcap Hmem. unfold ua_zalloc, ua_alloc in *.
  M_load Hcur. M_load Hcap.
  rewrite (M_bind_Some _ _ _ _ _ (load64_word_at _ _ _ Hcur)) in H.
  rewrite (M_bind_Some _ _ _ _ _ (load64_word_at _ _ _ Hcap)) in H.
  destruct (_ <=? _); [|done].
  rewrite (M_bind_Some _ _ _ _ _ (load64_word_at _ _ _ Hmem)) in H. M_load Hmem.
  unfold mbind, M_bind in *. destruct (store64 _ _ m) as [[[] m1]|]; [|done].
  by injection H as <- <-.
Qed.

Lemma ua_zalloc_fits m p a size :
  arena_at m p a -> wf_arena m p a -> 0 <= size -> ua_cur a + size <= ua_cap a ->
  exists m', ua_zalloc p size m = Some (ua_mem a + ua_cur a, m') /\
             arena_at m' p (with_cur a (ua_cur a + size)) /\
             (forall x, ua_mem a + ua_cur a <= x < ua_mem a + ua_cur a + size -> m' !! x = Some 0) /\
             frame (fun x => p_cur p <= x < p_cur p + 8 \/
                      ua_mem a + ua_cur a <= x < ua_mem a + ua_cur a + size) m m'.
Proof.
  intros Ha Hwf Hs Hfit. pose proof Hwf as [Hc Hb Hm Hap].
  pose proof (arena_at_ranges _ _ _ Ha) as (_ & ? & ? & ?).
  destruct (ua_alloc_fits m p a size Ha) as (m1 & S1 & A1 & W1); [rewrite u64_small; lia|].
  rewrite !u64_small in * by lia.
  pose proof Ha as (_ & _ & Hcap & Hcur & Hmem).
  rewrite (ua_zalloc_alloc _ _ _ _ _ S1 _ _ _ Hcur Hcap Hmem).
  rewrite u64_small by lia. rewrite (proj2 (Z.leb_le _ _) Hfit).
  destruct (bzero_spec m1 (ua_mem a + ua_cur a) size) as (m2 & S2 & A2 & Z2).
  { eapply agree_outside_mapped; [exact A1|]. eapply mapped_sub; [exact Hm|lia..]. }
  M_step S2. exists m2. split; [done|].
  assert (Hf : frame (fun x => ua_mem a + ua_cur a <= x < ua_mem a + ua_cur a + size) m1 m2)
    by (eapply agree_outside_frame; [exact A2|lia]).
  split_and!.
  - eapply arena_at_frame; [exact Hf| |exact W1]. unfold_fields. lia.
  - intros x Hx. apply Z2. lia.
  - trans m1; [eapply agree_outside_frame; [exact A1|] | eapply frame_mono; [exact Hf|]];
      intros x Hx; cbn beta in Hx; tauto.
Qed.

(** The unchecked variants are [ua_alloc] and [ua_zalloc] without the test. *)
Lemma ua_falloc_spec m p a size :
  arena_at m p a ->
  exists m', ua_falloc p size m = Some (ua_mem a +64 ua_cur a, m') /\
             agree_outside (p_cur p) 8 m m' /\ arena_at m' p (with_cur a (ua_cur a +64 size)).
Proof.
  intros Ha. pose proof Ha as (_ & _ & Hcap & Hcur & Hmem). unfold ua_falloc.
  M_load Hmem. M_load Hcur.
  destruct (store_cur m p a (ua_cur a +64 size) Ha) as (m' & S & ? & ?); [auto with word|].
  M_step S. by exists m'.
Qed.

Lemma ua_free_spec m p a :
  arena_at m p a ->
  exists m', ua_free p m = Some (tt, m') /\
             agree_outside (p_cur p) 8 m m' /\ arena_at m' p (with_cur a 0).
Proof.
  intros Ha. unfold ua_free. destruct (Z.eqb_spec p NULL) as [->|]; [by destruct Ha|].
  by apply store_cur.
Qed.

Lemma ua_pop_spec m p a size :
  arena_at m p a -> 0 <= ua_cur a < 2 ^ 63 -> 0 <= size < 2 ^ 63 ->
  exists m', ua_pop p size m = Some (tt, m') /\
             agree_outside (p_cur p) 8 m m' /\
             arena_at m' p (with_cur a (if size <=? ua_cur a then ua_cur a - size else ua_cur a)).
Proof.
  intros Ha Hc Hs. pose proof Ha as (_ & _ & _ & Hcur & _). unfold ua_pop. M_load Hcur.
  rewrite (s64_small (ua_cur a)), (s64_small size) by lia.
  destruct (Z.leb_spec size (ua_cur a)).
  - rewrite s64_small by lia. rewrite (proj2 (Z.leb_le _ _)) by lia.
    rewrite u64_small by lia. apply store_cur; [done|lia].
  - rewrite (proj2 (Z.leb_gt _ _)) by word_lia. exists m. by destruct a.
Qed.

Lemma ua_pos_spec m p a : arena_at m p a -> ua_pos p m = Some (ua_cur a, m).
Proof. intros (_ & _ & _ & Hcur & _). by apply load64_word_at. Qed.

Lemma ua_seek_spec m p a pos :
  arena_at m p a -> 0 <= pos <= ua_cap a ->
  exists m', ua_seek p pos m = Some (ua_mem a +64 pos, m') /\
             agree_outside (p_cur p) 8 m m' /\ arena_at m' p (with_cur a pos).
Proof.
  intros Ha Hp. pose proof Ha as (_ & _ & Hcap & _). pose proof (arena_at_ranges _ _ _ Ha).
  unfold ua_seek. M_load Hcap. rewrite (proj2 (Z.leb_le _ _)) by lia.
  destruct (store_cur m p a pos Ha) as (m' & S & ? & W); [lia|]. M_step S.
  pose proof W as (_ & _ & _ & Hcur & Hmem). M_load Hmem. M_load Hcur. by exists m'.
Qed.

Lemma ua_seek_out m p a pos :
  arena_at m p a -> ua_cap a < pos -> ua_seek p pos m = Some (NULL, m).
Proof.
  intros (_ & _ & Hcap & _) Hp. unfold ua_seek. M_load Hcap.
  by rewrite (proj2 (Z.leb_gt _ _)) by lia.
Qed.

Lemma ua_reserve_spec m p a sz :
  arena_at m p a -> wf_arena m p a -> 0 <= sz -> ua_cur a + sz < 2 ^ 64 ->
  exists m', ua_reserve p sz m = Some (Z.min sz (ua_cap a - ua_cur a), m') /\
             agree_outside (p_cur p) 8 m m' /\
             arena_at m' p (with_cur a (if ua_cur a + sz <=? ua_cap a
                                        then ua_cur a + sz else ua_cur a)).
Proof.
  intros Ha [Hc _ _ _] Hs Hno. pose proof (arena_at_ranges _ _ _ Ha).
  pose proof Ha as (_ & _ & Hcap & Hcur & _). unfold ua_reserve.
  M_load Hcur. M_load Hcap. rewrite u64_small by lia.
  destruct (Z.leb_spec (ua_cur a + sz) (ua_cap a)).
  - destruct (store_cur m p a (ua_cur a + sz) Ha) as (m' & S & ? & ?); [lia|]. M_step S.
    exists m'. rewrite Z.min_l by lia. done.
  - exists m. rewrite u64_small, Z.min_r by lia. by destruct a.
Qed.

(** ** The abstract allocator and the refinement

    [Bump] is the contract of the file: a capacity, a cursor and unbounded
    arithmetic.  An operation returns an offset in the buffer ([Off]), nothing
    ([Fail]), a size or unit. *)

Module Bump.

Inductive op :=
  | Alloc (n : Z) | Zalloc (n : Z) | Free | Pop (n : Z) | Pos | Seek (pos : Z) | Reserve (n : Z).

Inductive result := Off (o : Z) | Fail | Size (n : Z) | Unit.

(** The size argument of an operation is that of a C object or part of one. *)
Definition arg (o : op) : Z :=
  match o with
  | Alloc n | Zalloc n | Pop n | Seek n | Reserve n => n
  | Free | Pos => 0
  end.

Definition step (cap cur : Z) (o : op) : Z * result :=
  match o with
  | Alloc n | Zalloc n => if cur + n <=? cap then (cur + n, Off cur) else (cur, Fail)
  | Free => (0, Unit)
  | Pop n => (if n <=? cur then cur - n else cur, Unit)
  | Pos => (cur, Size cur)
  | Seek p => if p <=? cap then (p, Off p) else (cur, Fail)
  | Reserve n => (if cur + n <=? cap then cur + n else cur, Size (Z.min n (cap - cur)))
  end.

Fixpoint run (cap cur : Z) (ops : list op) : Z * list result :=
  match ops with
  | [] => (cur, [])
  | o :: ops => let '(cur, r) := step cap cur o in
                let '(cur, rs) := run cap cur ops in (cur, r :: rs)
  end.

Lemma step_bounds cap cur o :
  0 <= cur <= cap -> 0 <= arg o -> 0 <= fst (step cap cur o) <= cap.
Proof. intros. destruct o; cbn in *; case_cmp; cbn; lia. Qed.

End Bump.

(** What the code returns for an abstract result, the buffer being at [mem]. *)
Definition concrete (mem : Z) (r : Bump.result) : Z :=
  match r with
  | Bump.Off o => mem + o
  | Bump.Fail => NULL
  | Bump.Size n => n
  | Bump.Unit => 0
  end.

Definition ua_run1 (ua : Z) (o : Bump.op) : M Z :=
  match o with
  | Bump.Alloc n => ua_alloc ua n
  | Bump.Zalloc n => ua_zalloc ua n
  | Bump.Free => ua_free ua;; mret 0
  | Bump.Pop n => ua_pop ua n;; mret 0
  | Bump.Pos => ua_pos ua
  | Bump.Seek p => ua_seek ua p
  | Bump.Reserve n => ua_reserve ua n
  end.

Fixpoint ua_run (ua : Z) (ops : list Bump.op) : M (list Z) :=
  match ops with
  | [] => mret []
  | o :: ops => r ← ua_run1 ua o; rs ← ua_run ua ops; mret (r :: rs)
  end.

(** Sizes below 2^63, which is all a C object can have. *)
Definition op_ok (o : Bump.op) : Prop := 0 <= Bump.arg o < 2 ^ 63.

(** One step: the code returns what the abstract allocator says, moves the
    cursor where it says, keeps the arena well formed and writes nothing but
    the cursor and the buffer. *)
Definition step_refines (m : mem) (p : Z) (a : UArena) (r : option (Z * mem)) (o : Bump.op) : Prop :=
  let '(cur, res) := Bump.step (ua_cap a) (ua_cur a) o in
  exists m', r = Some (concrete (ua_mem a) res, m') /\
             arena_at m' p (with_cur a cur) /\ frame (arena_footprint p a) m m'.

Lemma ua_alloc_refines m p a n :
  arena_at m p a -> wf_arena m p a -> ua_cap a < 2 ^ 63 -> 0 <= n < 2 ^ 63 ->
  step_refines m p a (ua_alloc p n m) (Bump.Alloc n).
Proof.
  intros Ha Hwf Hcap Hn. unfold step_refines; cbn. destruct Hwf as [Hc Hb _ _].
  destruct (Z.leb_spec (ua_cur a + n) (ua_cap a)).
  - destruct (ua_alloc_fits m p a n Ha) as (m' & -> & A & W); [rewrite u64_small; lia|].
    rewrite !u64_small in * by lia. exists m'. split_and!; [done|done|].
    by apply cur_store_frame.
  - rewrite (ua_alloc_full _ _ _ _ Ha) by (rewrite u64_small; lia).
    exists m. split_and!; [done|by destruct a|reflexivity].
Qed.

Lemma ua_zalloc_full m p a size :
  arena_at m p a -> ua_cap a < ua_cur a +64 size -> ua_zalloc p size m = Some (NULL, m).
Proof.
  intros (_ & _ & Hcap & Hcur & _) Hfull. unfold ua_zalloc.
  M_load Hcur. M_load Hcap. by rewrite (proj2 (Z.leb_gt _ _) Hfull).
Qed.

Lemma ua_zalloc_refines m p a n :
  arena_at m p a -> wf_arena m p a -> ua_cap a < 2 ^ 63 -> 0 <= n < 2 ^ 63 ->
  step_refines m p a (ua_zalloc p n m) (Bump.Zalloc n).
Proof.
  intros Ha Hwf Hcap Hn. unfold step_refines; cbn. pose proof (wf_cur _ _ _ Hwf).
  destruct (Z.leb_spec (ua_cur a + n) (ua_cap a)).
  - destruct (ua_zalloc_fits m p a n Ha Hwf) as (m' & -> & A & _ & F); [lia..|].
    exists m'. split_and!; [done|done|].
    eapply frame_mono; [exact F|]. unfold arena_footprint. intros x Hx. cbn beta in Hx. lia.
  - rewrite (ua_zalloc_full _ _ _ _ Ha) by (rewrite u64_small; lia).
    exists m. split_and!; [done|by destruct a|reflexivity].
Qed.

#[global] Arguments ua_pos : simpl never.

Lemma ua_run1_refines m p a o :
  arena_at m p a -> wf_arena m p a -> ua_cap a < 2 ^ 63 -> op_ok o ->
  step_refines m p a (ua_run1 p o m) o.
Proof.
  intros Ha Hwf Hcap Ho. pose proof (wf_cur _ _ _ Hwf). pose proof (wf_buf _ _ _ Hwf).
  unfold op_ok in Ho.
  destruct o; cbn in Ho |- *; auto using ua_alloc_refines, ua_zalloc_refines;
    unfold step_refines; cbn.
  - destruct (ua_free_spec m p a Ha) as (m' & S & A & W). M_step S.
    exists m'. auto using cur_store_frame.
  - destruct (ua_pop_spec m p a n Ha) as (m' & S & A & W); [lia..|]. M_step S.
    exists m'. auto using cur_store_frame.
  - rewrite (ua_pos_spec _ _ _ Ha). exists m. split_and!; [done|by destruct a|reflexivity].
  - destruct (Z.leb_spec pos (ua_cap a)).
    + destruct (ua_seek_spec m p a pos Ha) as (m' & -> & A & W); [lia|].
      rewrite u64_small by lia. exists m'. auto using cur_store_frame.
    + rewrite (ua_seek_out _ _ _ _ Ha) by lia.
      exists m. split_and!; [done|by destruct a|reflexivity].
  - destruct (ua_reserve_spec m p a n Ha Hwf) as (m' & -> & A & W); [lia..|].
    exists m'. auto using cur_store_frame.
Qed.

Lemma ua_run1_wf m p a o m' :
  wf_arena m p a -> op_ok o -> frame (arena_footprint p a) m m' ->
  wf_arena m' p (with_cur a (fst (Bump.step (ua_cap a) (ua_cur a) o))).
Proof.
  intros Hwf Ho Hf. eapply wf_with_cur; [done..|].
  apply Bump.step_bounds; [by destruct Hwf|by destruct Ho].
Qed.

Lemma ua_run_simulates ops m p a :
  arena_at m p a -> wf_arena m p a -> ua_cap a < 2 ^ 63 -> Forall op_ok ops ->
  exists m', ua_run p ops m =
               Some (map (concrete (ua_mem a)) (snd (Bump.run (ua_cap a) (ua_cur a) ops)), m') /\
             arena_at m' p (with_cur a (fst (Bump.run (ua_cap a) (ua_cur a) ops))) /\
             wf_arena m' p (with_cur a (fst (Bump.run (ua_cap a) (ua_cur a) ops))) /\
             frame (arena_footprint p a) m m'.
Proof.
  intros Ha Hwf Hcap Hops. revert m a Ha Hwf Hcap.
  induction Hops as [|o ops Ho Hops IH]; intros m a Ha Hwf Hcap; cbn [ua_run Bump.run].
  { exists m. split_and!; [done|by destruct a|by destruct a|reflexivity]. }
  pose proof (ua_run1_refines m p a o Ha Hwf Hcap Ho) as H1.
  unfold step_refines in H1.
  pose proof (fun m' => ua_run1_wf m p a o m' Hwf Ho) as Hwf1.
  destruct (Bump.step (ua_cap a) (ua_cur a) o) as [cur res]; cbn [fst] in Hwf1.
  destruct H1 as (m1 & S1 & A1 & F1). M_step S1.
  destruct (IH m1 (with_cur a cur) A1 (Hwf1 _ F1) Hcap) as (m2 & S2 & A2 & W2 & F2).
  cbn [with_cur ua_cap ua_cur ua_mem] in *.
  destruct (Bump.run (ua_cap a) cur ops) as [cur' rs]; cbn [fst snd] in *.
  M_step S2. exists m2. split_and!; try done. by etrans.
Qed.

(** ** Bootstrapping *)

(** The block a bootstrap with no place of its own takes from the parent. *)
Definition child_of (a : UArena) (cap : Z) : UArena :=
  mkUArena (flag_bits false false true) cap 0 (ua_mem a + ua_cur a + sizeof_UArena).

Definition in_block (a : UArena) (n x : Z) : Prop :=
  ua_mem a + ua_cur a <= x < ua_mem a + ua_cur a + n.

Lemma ua_bootstrap_fits m p a cap :
  arena_at m p a -> wf_arena m p a -> 0 <= cap ->
  ua_cur a + sizeof_UArena + cap <= ua_cap a ->
  exists m', ua_bootstrap p NULL cap m = Some (ua_mem a + ua_cur a, m') /\
    arena_at m' (ua_mem a + ua_cur a) (child_of a cap) /\
    wf_arena m' (ua_mem a + ua_cur a) (child_of a cap) /\
    arena_at m' p (with_cur a (ua_cur a + sizeof_UArena + cap)) /\
    frame (fun x => p_cur p <= x < p_cur p + 8 \/ in_block a (sizeof_UArena + cap) x) m m'.
Proof.
  intros Ha Hwf Hcap Hfit. pose proof Hwf as [Hc Hb Hm Hap].
  pose proof (arena_at_ranges _ _ _ Ha) as (_ & ? & ? & ?). unfold sizeof_UArena in *.
  unfold ua_bootstrap, sizeof_UArena. cbn [Z.eqb negb NULL].
  destruct (ua_alloc_fits m p a 32 Ha) as (m1 & S1 & A1 & W1); [rewrite u64_small; lia|].
  rewrite !u64_small in * by lia. M_step S1.
  assert (F1 := cur_store_frame p a _ _ A1).
  assert (Hwf1 : wf_arena m1 p (with_cur a (ua_cur a + 32))) by (eapply wf_with_cur; eauto; lia).
  destruct (ua_zalloc_fits m1 p _ cap W1 Hwf1) as (m2 & S2 & W2 & _ & F2); cbn; [lia..|].
  cbn [with_cur ua_mem ua_cur ua_cap ua_flags] in *. M_step S2.
  rewrite (proj2 (Z.eqb_neq _ _)) by (unfold NULL; lia).
  rewrite (proj2 (Z.eqb_neq _ _)) by (unfold NULL; lia). cbn [orb].
  assert (D2 : forall x n, mapped m x n -> mapped m2 x n)
    by (intros; eapply frame_mapped; [exact F2|]; by eapply frame_mapped).
  destruct (ua_init_spec m2 (ua_mem a + ua_cur a) false false true cap
              (ua_mem a + (ua_cur a + 32))) as (m3 & S3 & A3 & W3);
    [unfold NULL; lia|apply D2; eapply mapped_sub; [exact Hm|unfold sizeof_UArena; lia..]|lia..|].
  M_step S3. exists m3. split; [done|].
  assert (F3 : frame (fun x => in_block a (32 + cap) x) m2 m3).
  { eapply agree_outside_frame; [exact A3|]. unfold in_block, sizeof_UArena. lia. }
  unfold child_of. replace (ua_mem a + ua_cur a + sizeof_UArena)
    with (ua_mem a + (ua_cur a + 32)) by (unfold sizeof_UArena; lia).
  split_and!.
  - done.
  - split; cbn; unfold sizeof_UArena; [lia|lia| |lia].
    eapply frame_mapped; [exact F3|]. apply D2. eapply mapped_sub; [exact Hm|lia..].
  - eapply arena_at_frame; [exact F3| |exact W2].
    unfold in_block, sizeof_UArena. intros x Hx ?. lia.
  - trans m1; [eapply agree_outside_frame; [exact A1|tauto]|].
    trans m2; [eapply frame_mono; [exact F2|]|eapply frame_mono; [exact F3|]];
      intros x Hx; cbn beta in *; unfold in_block, p_cur in *; lia.
Qed.

(** Enough room for the struct but not for the buffer: NULL, and the struct's
    32 bytes stay taken. *)
Lemma ua_bootstrap_short m p a cap :
  arena_at m p a -> wf_arena m p a -> ua_cap a < 2 ^ 63 -> 0 <= cap < 2 ^ 63 ->
  ua_cur a + sizeof_UArena <= ua_cap a < ua_cur a + sizeof_UArena + cap ->
  exists m', ua_bootstrap p NULL cap m = Some (NULL, m') /\
             arena_at m' p (with_cur a (ua_cur a + sizeof_UArena)).
Proof.
  intros Ha Hwf Hlim Hcap Hs. pose proof Hwf as [Hc Hb Hm Hap].
  unfold sizeof_UArena in *. unfold ua_bootstrap, sizeof_UArena. cbn [Z.eqb negb NULL].
  destruct (ua_alloc_fits m p a 32 Ha) as (m1 & S1 & A1 & W1); [rewrite u64_small; lia|].
  rewrite !u64_small in * by lia. M_step S1.
  assert (S2 : ua_zalloc p cap m1 = Some (NULL, m1)).
  { eapply ua_zalloc_full; [exact W1|]. cbn. rewrite u64_small; lia. }
  M_step S2. rewrite orb_true_r. by exists m1.
Qed.

(** A sequence of operations on an arena whose struct and buffer lie in a
    region keeps every byte outside that region. *)
Lemma ua_run_local ops m p a (W : Z -> Prop) :
  arena_at m p a -> wf_arena m p a -> ua_cap a < 2 ^ 63 -> Forall op_ok ops ->
  (forall x, p <= x < p + sizeof_UArena -> W x) ->
  (forall x, ua_mem a <= x < ua_mem a + ua_cap a -> W x) ->
  exists rs m', ua_run p ops m = Some (rs, m') /\ frame W m m'.
Proof.
  intros Ha Hwf Hcap Hops Hs Hb.
  destruct (ua_run_simulates ops m p a Ha Hwf Hcap Hops) as (m' & S & _ & _ & F).
  eexists _, m'. split; [exact S|]. eapply frame_mono; [exact F|].
  unfold arena_footprint. unfold_fields. intros x [Hx|Hx]; [apply Hs; lia|by apply Hb].
Qed.

(** ** Creating and destroying *)

(** The blocks of the operating system that the arena at [ua] owns. *)
Definition owns (cacheln_sz : Z) (o : os) (ua : Z) (a : UArena) : Prop :=
  let kind := if UaIsMallocd (ua_flags a) then Malloc else Mmap in
  if UaIsContiguous (ua_flags a) then
    os_blocks o !! ua = Some (kind, arena_cache_aligned_sz cacheln_sz +64 ua_cap a)
  else
    os_blocks o !! ua = Some (Malloc, sizeof_UArena) /\
    os_blocks o !! ua_mem a = Some (kind, ua_cap a).

(** The addresses the arena at [ua] holds. *)
Definition held (cacheln_sz ua : Z) (a : UArena) (x : Z) : Prop :=
  if UaIsContiguous (ua_flags a)
  then ua <= x < ua + (arena_cache_aligned_sz cacheln_sz + ua_cap a)
  else ua <= x < ua + sizeof_UArena \/ ua_mem a <= x < ua_mem a + ua_cap a.

#[export] Instance held_dec cacheln_sz ua a x : Decision (held cacheln_sz ua a x).
Proof. unfold held. destruct (UaIsContiguous _); solve_decision. Defined.

(** The blocks left after the arena's are gone. *)
Definition blocks_without (ua : Z) (a : UArena) (bs : gmap Z (block_kind * Z)) :=
  if UaIsContiguous (ua_flags a) then delete ua bs else delete ua (delete (ua_mem a) bs).

Lemma flag_bits_decode c m b :
  UaIsContiguous (flag_bits c m b) = c /\ UaIsMallocd (flag_bits c m b) = m /\
  UaIsBootstrapped (flag_bits c m b) = b.
Proof. by destruct c, m, b. Qed.

Lemma arena_cache_aligned_sz_bounds cacheln_sz :
  0 < cacheln_sz < 2 ^ 32 ->
  sizeof_UArena <= arena_cache_aligned_sz cacheln_sz < sizeof_UArena + cacheln_sz.
Proof.
  intros Hc. unfold arena_cache_aligned_sz, sizeof_UArena.
  pose proof (LmPaddingToAlign_bound 32 cacheln_sz ltac:(lia) ltac:(lia)).
  rewrite u64_small; lia.
Qed.

Section CreateSpec.
Context (place : os -> block_kind -> Z -> option Z) (junk : Z -> Z) (cacheln_sz : Z).
Context (Hplace : place_fresh place) (Hline : 0 < cacheln_sz < 2 ^ 32).

#[local] Abbreviation arena_sz := (arena_cache_aligned_sz cacheln_sz).

(** What a successful creation guarantees. *)
Definition created (o o' : os) (ua cap : Z) (c m : bool) (mem : Z) : Prop :=
  let a := mkUArena (flag_bits c m false) cap 0 mem in
  arena_at (os_mem o') ua a /\ wf_arena (os_mem o') ua a /\ owns cacheln_sz o' ua a /\
  (forall x, held cacheln_sz ua a x -> os_mem o !! x = None) /\
  (forall x, ~ held cacheln_sz ua a x -> os_mem o' !! x = os_mem o !! x) /\
  blocks_without ua a (os_blocks o') = os_blocks o.

Lemma grant_mem k fill n a o x :
  os_mem (grant k fill n a o) !! x =
  if decide (a <= x < a + Z.of_nat (Z.to_nat n)) then Some (fill x) else os_mem o !! x.
Proof. apply map_bytes_lookup. Qed.

Lemma grant_mapped k fill n a o : 0 <= n -> mapped (os_mem (grant k fill n a o)) a n.
Proof. apply map_bytes_mapped. Qed.

Lemma grant_keeps k fill n a o x :
  place o k n = Some a -> is_Some (os_mem o !! x) ->
  os_mem (grant k fill n a o) !! x = os_mem o !! x.
Proof.
  intros Hp Hx. rewrite grant_mem. destruct (decide _) as [Hr|]; [|done].
  destruct (Hplace _ _ _ _ Hp) as (_ & _ & Hn & _).
  rewrite Hn in Hx by lia. by destruct Hx.
Qed.

(** The contiguous layouts: one block, the struct at its start. *)
Lemma create_contiguous o k fill ua cap (m : bool) :
  place o k (arena_sz +64 cap) = Some ua -> 0 < cap -> arena_sz + cap < 2 ^ 64 ->
  k = (if m then Malloc else Mmap) ->
  exists o', lift (ua_init ua true m false cap (ua +64 arena_sz))
                  (grant k fill (arena_sz +64 cap) ua o) = Some (tt, o') /\
             created o o' ua cap true m (ua + arena_sz).
Proof.
  intros Hp Hc Hov Hk. pose proof (arena_cache_aligned_sz_bounds _ Hline) as Hsz.
  unfold sizeof_UArena in *.
  destruct (Hplace _ _ _ _ Hp) as (H0 & Hend & Hfree & Hnb).
  rewrite (u64_small (arena_sz + cap)) in * by lia. rewrite (u64_small (ua + arena_sz)) by lia.
  set (o1 := grant k fill (arena_sz + cap) ua o).
  assert (Hmap : mapped (os_mem o1) ua (arena_sz + cap)) by (apply grant_mapped; lia).
  destruct (ua_init_spec (os_mem o1) ua true m false cap (ua + arena_sz)) as (m' & S & A & W);
    [unfold NULL; lia|eapply mapped_sub; [exact Hmap|unfold sizeof_UArena; lia..]|lia..|].
  eexists. split; [by apply lift_Some|]. unfold created, owns, held, blocks_without.
  cbn [ua_flags ua_cap ua_mem os_mem os_blocks].
  destruct (flag_bits_decode true m false) as (-> & -> & _). split_and!; [done| | | | |].
  - split; cbn; unfold sizeof_UArena; [lia..| |lia].
    eapply agree_outside_mapped; [exact A|]. eapply mapped_sub; [exact Hmap|lia..].
  - rewrite (u64_small (arena_sz + cap)) by lia. unfold o1, grant; cbn.
    rewrite lookup_insert_eq. by subst k.
  - intros x Hx. apply Hfree. lia.
  - intros x Hx. destruct A as [_ A]. rewrite A by (unfold sizeof_UArena; lia).
    unfold o1. rewrite grant_mem. by rewrite decide_False by lia.
  - unfold o1, grant; cbn. by apply delete_insert_id.
Qed.

(** The split layouts: the struct from [malloc], the buffer on its own. *)
Lemma create_split o k fill ua mem cap (m : bool) :
  let o1 := grant Malloc junk sizeof_UArena ua o in
  place o Malloc sizeof_UArena = Some ua -> place o1 k cap = Some mem -> 0 < cap < 2 ^ 64 ->
  k = (if m then Malloc else Mmap) ->
  exists o', lift (ua_init ua false m false cap mem) (grant k fill cap mem o1) = Some (tt, o') /\
             created o o' ua cap false m mem.
Proof.
  intros o1 Hp1 Hp2 Hc Hk.
  destruct (Hplace _ _ _ _ Hp1) as (H0 & Hend & Hf1 & Hb1).
  destruct (Hplace _ _ _ _ Hp2) as (H0' & Hend' & Hf2 & Hb2).
  assert (M1 : mapped (os_mem o1) ua sizeof_UArena) by (by apply grant_mapped).
  set (o2 := grant k fill cap mem o1).
  assert (M2 : mapped (os_mem o2) ua sizeof_UArena).
  { intros x Hx. unfold o2. rewrite grant_keeps; [by apply M1|done|by apply M1]. }
  assert (Hap : ua + sizeof_UArena <= mem \/ mem + cap <= ua).
  { destruct (Z.le_gt_cases (ua + sizeof_UArena) mem) as [|H1]; [lia|]. right.
    apply Z.le_ngt. intros H2. unfold sizeof_UArena in *.
    destruct (M1 (Z.max ua mem)) as [b Hb]; [lia|]. by rewrite Hf2 in Hb by lia. }
  destruct (ua_init_spec (os_mem o2) ua false m false cap mem) as (m' & S & A & W);
    [unfold NULL; lia|done|lia..|].
  eexists. split; [by apply lift_Some|]. unfold created, owns, held, blocks_without.
  cbn [ua_flags ua_cap ua_mem os_mem os_blocks].
  destruct (flag_bits_decode false m false) as (-> & -> & _). split_and!; [done| | | | | |].
  - split; cbn; [lia..| |done]. eapply agree_outside_mapped; [exact A|]. apply grant_mapped. lia.
  - unfold o2, o1, grant in *; cbn in *. rewrite lookup_insert_ne; [apply lookup_insert_eq|].
    intros ->. by rewrite lookup_insert_eq in Hb2.
  - unfold o2, grant; cbn. rewrite lookup_insert_eq. by subst k.
  - intros x [Hx|Hx]; [by apply Hf1|].
    assert (Hx1 := Hf2 x Hx). unfold o1 in Hx1. rewrite grant_mem in Hx1. by case_decide.
  - intros x Hx. destruct A as [_ A]. rewrite A by lia. unfold o2, o1.
    rewrite !grant_mem. unfold sizeof_UArena in *. by rewrite !decide_False by lia.
  - unfold o2, o1, grant in *; cbn in *. rewrite delete_insert_id by done.
    by apply delete_insert_id.
Qed.
End CreateSpec.

Section DestroySpec.
Context (cacheln_sz : Z) (Hline : 0 < cacheln_sz < 2 ^ 32).

#[local] Abbreviation arena_sz := (arena_cache_aligned_sz cacheln_sz).

Definition release_arena (ua : Z) (a : UArena) : P unit :=
  if UaIsMallocd (ua_flags a) then
    if UaIsContiguous (ua_flags a) then free ua else (free (ua_mem a);; free ua)
  else
    cap ← lift (load64 (p_cap ua));
    if UaIsContiguous (ua_flags a) then munmap ua (arena_sz +64 cap)
    else (munmap (ua_mem a) cap;; free ua).

Lemma free_block a n o :
  a <> NULL -> os_blocks o !! a = Some (Malloc, n) -> free a o = Some (tt, release a n o).
Proof. intros Ha Hb. unfold free. rewrite (proj2 (Z.eqb_neq _ _) Ha). by rewrite Hb. Qed.

Lemma munmap_block a n o :
  os_blocks o !! a = Some (Mmap, n) -> munmap a n o = Some (tt, release a n o).
Proof. intros Hb. unfold munmap. rewrite Hb. by rewrite Z.eqb_refl. Qed.

Lemma release_lookup a n o x :
  0 <= n -> os_mem (release a n o) !! x =
  if decide (a <= x < a + n) then None else os_mem o !! x.
Proof. intros. cbn. rewrite unmap_bytes_lookup. by replace (Z.of_nat (Z.to_nat n)) with n by lia. Qed.

Lemma release_arena_spec o ua a :
  arena_at (os_mem o) ua a -> wf_arena (os_mem o) ua a -> 0 < ua_cap a ->
  arena_sz + ua_cap a < 2 ^ 64 -> owns cacheln_sz o ua a ->
  exists o', release_arena ua a o = Some (tt, o') /\
             os_blocks o' = blocks_without ua a (os_blocks o) /\
             (forall x, held cacheln_sz ua a x -> os_mem o' !! x = None) /\
             (forall x, ~ held cacheln_sz ua a x -> os_mem o' !! x = os_mem o !! x).
Proof.
  intros Ha [Hc Hb Hm Hap] Hpos Hov Hown.
  pose proof (arena_cache_aligned_sz_bounds _ Hline) as Hsz. unfold sizeof_UArena in *.
  pose proof Ha as (Hua & _ & Hcap & _). unfold NULL in Hua.
  unfold release_arena, held, blocks_without, owns, sizeof_UArena in *.
  rewrite (u64_small (arena_sz + ua_cap a)) in * by lia.
  assert (Hload : lift (load64 (p_cap ua)) o = Some (ua_cap a, o)).
  { destruct o as [mm bb]. by erewrite lift_Some by (by apply load64_word_at). }
  destruct (UaIsContiguous (ua_flags a)).
  - exists (release ua (arena_sz + ua_cap a) o). split_and!.
    + destruct (UaIsMallocd (ua_flags a)); [by apply free_block|].
      P_step Hload. rewrite u64_small by lia. by apply munmap_block.
    + done.
    + intros x Hx. by rewrite release_lookup, decide_True by lia.
    + intros x Hx. by rewrite release_lookup, decide_False by lia.
  - destruct Hown as [Hown1 Hown2].
    set (o1 := release (ua_mem a) (ua_cap a) o).
    assert (Hne : ua_mem a <> ua) by lia.
    assert (S2 : free ua o1 = Some (tt, release ua 32 o1)).
    { apply free_block; [done|]. cbn. by rewrite lookup_delete_ne. }
    exists (release ua 32 o1). split_and!.
    + destruct (UaIsMallocd (ua_flags a)).
      * assert (S1 : free (ua_mem a) o = Some (tt, o1)) by (apply free_block; unfold NULL; [lia|done]).
        by P_step S1.
      * P_step Hload. assert (S1 : munmap (ua_mem a) (ua_cap a) o = Some (tt, o1))
          by (by apply munmap_block). by P_step S1.
    + done.
    + intros x Hx. rewrite release_lookup by lia. unfold o1. rewrite release_lookup by lia.
      repeat case_decide; try done; lia.
    + intros x Hx. rewrite release_lookup by lia. unfold o1. rewrite release_lookup by lia.
      repeat case_decide; try done; lia.
Qed.

Lemma ua_destroy_ok o uap ua a :
  uap <> NULL -> word_at (os_mem o) uap ua -> UaIsBootstrapped (ua_flags a) = false ->
  arena_at (os_mem o) ua a -> wf_arena (os_mem o) ua a -> 0 < ua_cap a ->
  arena_sz + ua_cap a < 2 ^ 64 -> owns cacheln_sz o ua a ->
  (forall x, uap <= x < uap + 8 -> ~ held cacheln_sz ua a x) ->
  exists o', ua_destroy cacheln_sz uap o = Some (tt, o') /\
             os_blocks o' = blocks_without ua a (os_blocks o) /\
             word_at (os_mem o') uap NULL /\
             (forall x, held cacheln_sz ua a x -> os_mem o' !! x = None) /\
             (forall x, ~ held cacheln_sz ua a x -> ~ (uap <= x < uap + 8) ->
                os_mem o' !! x = os_mem o !! x).
Proof.
  intros Hup Hcell Hboot Ha Hwf Hpos Hov Hown Hout.
  destruct (release_arena_spec o ua a Ha Hwf Hpos Hov Hown) as (o1 & S & B & R & K).
  assert (Hld : forall q v, word_at (os_mem o) q v -> lift (load64 q) o = Some (v, o)).
  { intros q v H. destruct o. by erewrite lift_Some by (by apply load64_word_at). }
  destruct (store64_word (os_mem o1) uap NULL) as (m2 & S2 & A2 & W2); [|unfold NULL; lia|].
  { intros x Hx. rewrite K by auto. by eapply word_at_mapped. }
  exists (mkOs m2 (os_blocks o1)). split_and!.
  - unfold ua_destroy. rewrite (proj2 (Z.eqb_neq _ _) Hup).
    pose proof Ha as (Hua & Hf & _ & _ & Hm). P_step (Hld _ _ Hcell).
    rewrite (proj2 (Z.eqb_neq _ _) Hua). P_step (Hld _ _ Hf). rewrite Hboot.
    P_step (Hld _ _ Hm). rewrite (proj2 (Z.eqb_neq _ _)) by (unfold NULL; destruct Hwf; lia).
    unfold release_arena in S. P_step S. by apply lift_Some.
  - done.
  - done.
  - intros x Hx. destruct A2 as [_ A2]. cbn. rewrite A2; [by apply R|].
    destruct (Z.lt_ge_cases x uap); [lia|]. right. apply Z.le_ngt. intros ?.
    eapply (Hout x); [lia|done].
  - intros x Hx Hc. destruct A2 as [_ A2]. cbn. rewrite A2 by lia. by apply K.
Qed.
End DestroySpec.

(** ** Creation as a whole *)

Section CreateWhole.
Context (place : os -> block_kind -> Z -> option Z) (junk : Z -> Z) (cacheln_sz : Z).

(** The blocks the operating system grants to [ua_create]: the struct at
    [ua], the buffer at [mem]. *)
Definition granted (o : os) (cap : Z) (c m : bool) (ua mem : Z) : Prop :=
  let k := if m then Malloc else Mmap in
  if c then place o k (arena_cache_aligned_sz cacheln_sz +64 cap) = Some ua /\
            mem = ua + arena_cache_aligned_sz cacheln_sz
  else place o Malloc sizeof_UArena = Some ua /\
       place (grant Malloc junk sizeof_UArena ua o) k cap = Some mem.

Context (Hplace : place_fresh place) (Hline : 0 < cacheln_sz < 2 ^ 32).

Lemma malloc_granted n a o :
  place o Malloc n = Some a -> malloc place junk n o = Some (a, grant Malloc junk n a o).
Proof. intros H. unfold malloc. by rewrite H. Qed.

Lemma mmap_granted n a o :
  0 < n -> place o Mmap n = Some a ->
  mmap place n o = Some (a, grant Mmap (fun _ => 0) n a o) /\ a <> MAP_FAILED.
Proof.
  intros Hn H. unfold mmap. rewrite (proj2 (Z.eqb_neq _ _)) by lia. rewrite H. split; [done|].
  destruct (Hplace _ _ _ _ H) as (_ & ? & _). unfold MAP_FAILED. lia.
Qed.

Lemma ua_create_granted o cap c m ua mem :
  0 < cap -> arena_cache_aligned_sz cacheln_sz + cap < 2 ^ 64 -> granted o cap c m ua mem ->
  exists o', ua_create place junk cacheln_sz cap c m o = Some (ua, o') /\
             created cacheln_sz o o' ua cap c m mem.
Proof.
  intros Hcap Hov Hg. pose proof (arena_cache_aligned_sz_bounds _ Hline) as Hsz.
  unfold sizeof_UArena in Hsz. unfold granted in Hg. unfold ua_create.
  destruct m, c; destruct Hg as [Hg1 Hg2].
  - P_step (malloc_granted _ _ _ Hg1). subst mem.
    edestruct create_contiguous with (m := true) as (o' & S & C); [done..|reflexivity|]. P_step S. by exists o'.
  - P_step (malloc_granted _ _ _ Hg1). P_step (malloc_granted _ _ _ Hg2).
    edestruct create_split with (m := true) as (o' & S & C); [done..|lia|reflexivity|]. P_step S. by exists o'.
  - destruct (mmap_granted (arena_cache_aligned_sz cacheln_sz +64 cap) ua o) as [Hm Hnf];
      [rewrite u64_small; lia|done|]. P_step Hm.
    rewrite (proj2 (Z.eqb_neq _ _) Hnf). subst mem.
    edestruct create_contiguous with (m := false) as (o' & S & C); [done..|reflexivity|]. P_step S. by exists o'.
  - P_step (malloc_granted _ _ _ Hg1).
    destruct (mmap_granted _ _ _ Hcap Hg2) as [Hm Hnf]. P_step Hm.
    edestruct create_split with (m := false) as (o' & S & C); [done..|lia|reflexivity|]. P_step S. by exists o'.
Qed.

(** The struct and the buffer are among the addresses held. *)
Lemma granted_held o cap c m ua mem x :
  let a := mkUArena (flag_bits c m false) cap 0 mem in
  0 < cap -> arena_cache_aligned_sz cacheln_sz + cap < 2 ^ 64 -> granted o cap c m ua mem ->
  0 <= ua < 2 ^ 64 /\
  (ua <= x < ua + sizeof_UArena \/ mem <= x < mem + cap -> held cacheln_sz ua a x).
Proof.
  intros a Hcap Hov Hg. pose proof (arena_cache_aligned_sz_bounds _ Hline) as Hsz.
  unfold held, granted, sizeof_UArena in *. cbn [ua_flags ua_cap ua_mem a].
  destruct (flag_bits_decode c m false) as (-> & _ & _).
  destruct c; destruct Hg as [Hg1 Hg2]; destruct (Hplace _ _ _ _ Hg1) as (? & Hend & _).
  - rewrite u64_small in Hend by lia. lia.
  - split; [lia|tauto].
Qed.
End CreateWhole.

(** ** Sequences of allocations *)

Fixpoint ua_alloc_all (ua : Z) (sizes : list Z) : M (list Z) :=
  match sizes with
  | [] => mret []
  | n :: sizes => r ← ua_alloc ua n; rs ← ua_alloc_all ua sizes; mret (r :: rs)
  end.

(** Every granted block lies in the free part of the buffer, after all the
    blocks granted before it. *)
Lemma ua_alloc_all_blocks sizes m p a :
  arena_at m p a -> wf_arena m p a -> ua_cap a < 2 ^ 63 -> Forall (fun n => 0 <= n < 2 ^ 63) sizes ->
  exists rs m', ua_alloc_all p sizes m = Some (rs, m') /\ length rs = length sizes /\
    (forall i r n, rs !! i = Some r -> sizes !! i = Some n -> r <> NULL ->
       ua_mem a + ua_cur a <= r /\ r + n <= ua_mem a + ua_cap a) /\
    (forall i j r r' n, (i < j)%nat -> rs !! i = Some r -> sizes !! i = Some n -> rs !! j = Some r' ->
       r <> NULL -> r' <> NULL -> r + n <= r').
Proof.
  intros Ha Hwf Hcap Hs. revert m a Ha Hwf Hcap.
  induction Hs as [|n sizes Hn Hs IH]; intros m a Ha Hwf Hcap; cbn [ua_alloc_all].
  { exists [], m. split_and!; done. }
  pose proof (wf_cur _ _ _ Hwf). pose proof (wf_buf _ _ _ Hwf).
  pose proof (ua_alloc_refines m p a n Ha Hwf Hcap Hn) as Hst.
  unfold step_refines in Hst; cbn in Hst.
  pose proof (fun m' => ua_run1_wf m p a (Bump.Alloc n) m' Hwf Hn) as Hwf1. cbn in Hwf1.
  destruct (Z.leb_spec (ua_cur a + n) (ua_cap a)); cbn [fst] in Hwf1;
    destruct Hst as (m1 & S1 & A1 & F1); M_step S1;
    destruct (IH m1 _ A1 (Hwf1 _ F1) Hcap) as (rs & m2 & S2 & Hl & Hin & Hord); M_step S2;
    cbn [concrete with_cur ua_cur ua_cap ua_mem] in *.
  - exists (ua_mem a + ua_cur a :: rs), m2. split_and!; [done|cbn; lia| |].
    + intros [|i] r k Hr Hk Hnn; cbn in Hr, Hk; [injection Hr as <-; injection Hk as <-; lia|].
      destruct (Hin i r k Hr Hk Hnn). lia.
    + intros [|i] [|j] r r' k Hij Hr Hk Hr' Hnn Hnn'; cbn in *; [lia| |lia|].
      * injection Hr as <-; injection Hk as <-.
        destruct (lookup_lt_is_Some_2 sizes j) as [k' Hk'];
          [rewrite <- Hl; by eapply lookup_lt_Some|].
        destruct (Hin j r' k' Hr' Hk' Hnn'). lia.
      * eapply (Hord i j); eauto; lia.
  - exists (NULL :: rs), m2. split_and!; [done|cbn; lia| |].
    + intros [|i] r k Hr Hk Hnn; cbn in Hr, Hk; [by injection Hr as <-|by eapply Hin].
    + intros [|i] [|j] r r' k Hij Hr Hk Hr' Hnn Hnn'; cbn in *; [lia| |lia|].
      * by injection Hr as <-.
      * eapply (Hord i j); eauto; lia.
Qed.

(** ** A concrete arena, on which the properties are instantiated *)

Module Demo.

Definition blank : mem := map_bytes (map_bytes ∅ 1000 32 (fun _ => 0)) 2000 64 (fun _ => 7).

(** An arena at 1000 with a 64-byte buffer at 2000, 16 bytes of it taken. *)
Definition m0 : mem :=
  match (ua_init 1000 true false false 64 2000;; ua_alloc 1000 16) blank with
  | Some (_, m) => m
  | None => ∅
  end.

Definition a0 : UArena := mkUArena 1 64 16 2000.

Lemma at0 : arena_at m0 1000 a0.
Proof. repeat split; (done || vm_compute; reflexivity || lia). Qed.

Lemma wf0 : wf_arena m0 1000 a0.
Proof. split; cbn; unfold sizeof_UArena; [lia..| |lia]. apply mapped_check. vm_compute. eauto. Qed.

End Demo.

(** ** Properties *)

(** C1: Refinement.  Any sequence of arena operations (allocate, zeroing
    allocate, free, pop, position, seek, reserve) with sizes of C objects runs
    without a fault, returns exactly what the abstract bump allocator returns
    -- base plus offset, NULL on failure -- and leaves the arena well formed
    with the abstract cursor, having written only its cursor word and its own
    buffer. *)
Theorem ua_run_refines (ops : list Bump.op) (m : mem) (p : Z) (a : UArena) :
  arena_at m p a -> wf_arena m p a -> ua_cap a < 2 ^ 63 -> Forall op_ok ops ->
  let '(cur, results) := Bump.run (ua_cap a) (ua_cur a) ops in
  exists m', ua_run p ops m = Some (map (concrete (ua_mem a)) results, m') /\
             arena_at m' p (with_cur a cur) /\ wf_arena m' p (with_cur a cur) /\
             frame (arena_footprint p a) m m'.
Proof.
  intros Ha Hwf Hcap Hops. pose proof (ua_run_simulates ops m p a Ha Hwf Hcap Hops) as H.
  by destruct (Bump.run _ _ ops).
Qed.

Lemma ua_run_refines_witness :
  exists m', ua_run 1000 [Bump.Alloc 16; Bump.Pop 8; Bump.Zalloc 100; Bump.Reserve 60] Demo.m0 =
               Some ([2016; 0; 0; 40], m') /\
             wf_arena m' 1000 (mkUArena 1 64 24 2000).
Proof.
  destruct (ua_run_refines [Bump.Alloc 16; Bump.Pop 8; Bump.Zalloc 100; Bump.Reserve 60]
              Demo.m0 1000 Demo.a0 Demo.at0 Demo.wf0) as (m' & S & _ & W & _).
  - reflexivity.
  - repeat constructor; cbn; lia.
  - exists m'. split; [exact S|exact W].
Defined.

(** [ua_alloc] on every [size_t].  A request that fits returns the current
    position and advances the cursor by it; one that does not fit changes
    nothing and returns NULL; and one so large that [cur + size] wraps is
    granted although it cannot fit, and moves the cursor backwards. *)
Theorem ua_alloc_spec (m : mem) (p : Z) (a : UArena) (size : Z) :
  arena_at m p a -> wf_arena m p a -> 0 <= size < 2 ^ 64 ->
  exists r m', ua_alloc p size m = Some (r, m') /\ agree_outside (p_cur p) 8 m m' /\
    if ua_cur a + size <=? ua_cap a then
      r = ua_mem a + ua_cur a /\ arena_at m' p (with_cur a (ua_cur a + size)) /\
      wf_arena m' p (with_cur a (ua_cur a + size))
    else if ua_cur a + size <? 2 ^ 64 then r = NULL /\ m' = m
    else r = ua_mem a + ua_cur a /\ ua_cur a + size - 2 ^ 64 < ua_cur a /\
         arena_at m' p (with_cur a (ua_cur a + size - 2 ^ 64)).
Proof.
  intros Ha Hwf Hs. pose proof Hwf as [Hc Hb _ _].
  destruct (Z.leb_spec (ua_cur a + size) (ua_cap a)).
  - destruct (ua_alloc_fits m p a size Ha) as (m' & S & A & W); [rewrite u64_small; lia|].
    rewrite !u64_small in * by lia. exists (ua_mem a + ua_cur a), m'. split_and!; try done.
    eapply wf_with_cur; [done|by apply cur_store_frame|lia].
  - destruct (Z.ltb_spec (ua_cur a + size) (2 ^ 64)).
    + exists NULL, m. split_and!; try done.
      apply (ua_alloc_full _ _ _ _ Ha). rewrite u64_small; lia.
    + assert (Hw : ua_cur a +64 size = ua_cur a + size - 2 ^ 64) by word_lia.
      destruct (ua_alloc_fits m p a size Ha) as (m' & S & A & W); [lia|].
      rewrite Hw, u64_small in * by lia. exists (ua_mem a + ua_cur a), m'. split_and!; try done. lia.
Qed.

Lemma ua_alloc_spec_witness :
  exists m', ua_alloc 1000 (2 ^ 64 - 8) Demo.m0 = Some (2016, m') /\
             arena_at m' 1000 (mkUArena 1 64 8 2000).
Proof.
  destruct (ua_alloc_spec Demo.m0 1000 Demo.a0 (2 ^ 64 - 8) Demo.at0 Demo.wf0)
    as (r & m' & S & _ & H); [lia|].
  cbn in H. destruct H as (-> & _ & W). exists m'. split; [exact S|exact W].
Defined.

(** [ua_zalloc] of a request that fits returns a block whose bytes are all
    zero and advances the cursor; no byte outside the block and the cursor word
    changes. *)
Theorem ua_zalloc_clears (m : mem) (p : Z) (a : UArena) (size : Z) :
  arena_at m p a -> wf_arena m p a -> 0 <= size -> ua_cur a + size <= ua_cap a ->
  exists m', ua_zalloc p size m = Some (ua_mem a + ua_cur a, m') /\
             arena_at m' p (with_cur a (ua_cur a + size)) /\
             (forall x, in_block a size x -> m' !! x = Some 0) /\
             (forall x, ~ in_block a size x -> ~ (p_cur p <= x < p_cur p + 8) -> m' !! x = m !! x).
Proof.
  intros Ha Hwf Hs Hfit.
  destruct (ua_zalloc_fits m p a size Ha Hwf Hs Hfit) as (m' & S & A & Z0 & [_ F]).
  exists m'. split_and!; try done. intros x H1 H2. apply F. unfold in_block in H1. tauto.
Qed.

Lemma ua_zalloc_clears_witness :
  exists m', ua_zalloc 1000 48 Demo.m0 = Some (2016, m') /\ m' !! 2063 = Some 0 /\ m' !! 2015 = Some 7.
Proof.
  destruct (ua_zalloc_clears Demo.m0 1000 Demo.a0 48 Demo.at0 Demo.wf0)
    as (m' & S & _ & HZ & HF); [lia|cbn; lia|].
  exists m'. split; [exact S|]. split.
  - apply HZ. unfold in_block. cbn. lia.
  - rewrite HF; [reflexivity| |]; unfold in_block, p_cur; cbn; lia.
Defined.

(** C31: Safety of allocation.  In an arena of less than 2^63 bytes, however many
    blocks of less than 2^63 bytes each are requested one after the other, every
    block granted lies inside the buffer, and no two of them overlap.  (A larger
    size can make [cur + size] wrap around, and is then granted: see
    [ua_alloc_spec].) *)
Theorem ua_allocs_disjoint (sizes : list Z) (m : mem) (p : Z) (a : UArena) :
  arena_at m p a -> wf_arena m p a -> ua_cap a < 2 ^ 63 -> Forall (fun n => 0 <= n < 2 ^ 63) sizes ->
  exists rs m', ua_alloc_all p sizes m = Some (rs, m') /\ length rs = length sizes /\
    (forall i r n, rs !! i = Some r -> sizes !! i = Some n -> r <> NULL ->
       ua_mem a <= r /\ r + n <= ua_mem a + ua_cap a) /\
    (forall i j r r' n n', i <> j -> rs !! i = Some r -> sizes !! i = Some n ->
       rs !! j = Some r' -> sizes !! j = Some n' -> r <> NULL -> r' <> NULL ->
       r + n <= r' \/ r' + n' <= r).
Proof.
  intros Ha Hwf Hcap Hs.
  destruct (ua_alloc_all_blocks sizes m p a Ha Hwf Hcap Hs) as (rs & m' & S & Hl & Hin & Hord).
  exists rs, m'. split_and!; [done|done| |].
  - intros i r n Hr Hn Hnn. pose proof (wf_cur _ _ _ Hwf).
    destruct (Hin i r n Hr Hn Hnn). lia.
  - intros i j r r' n n' Hij Hr Hn Hr' Hn' ? ?.
    assert ((i < j)%nat \/ (j < i)%nat) as [Hlt|Hlt] by lia.
    + left. by eapply (Hord i j).
    + right. by eapply (Hord j i).
Qed.

Lemma ua_allocs_disjoint_witness :
  exists rs m', ua_alloc_all 1000 [16; 40; 32] Demo.m0 = Some (rs, m') /\ length rs = 3%nat.
Proof.
  destruct (ua_allocs_disjoint [16; 40; 32] Demo.m0 1000 Demo.a0 Demo.at0 Demo.wf0)
    as (rs & m' & S & L & _); [reflexivity|repeat constructor; lia|].
  exists rs, m'. split; [exact S|exact L].
Defined.

(** The unchecked allocators agree with the checked ones, result and memory,
    whenever the request passes the check the latter make; otherwise they hand
    out the same address and leave the cursor past the capacity. *)
Theorem ua_unchecked_equiv (m : mem) (p : Z) (a : UArena) (size : Z) :
  arena_at m p a ->
  (ua_cur a +64 size <= ua_cap a ->
     ua_falloc p size m = ua_alloc p size m /\ ua_fzalloc p size m = ua_zalloc p size m) /\
  (ua_cap a < ua_cur a +64 size ->
     exists m', ua_falloc p size m = Some (ua_mem a +64 ua_cur a, m') /\
                arena_at m' p (with_cur a (ua_cur a +64 size)) /\
                ~ wf_arena m' p (with_cur a (ua_cur a +64 size))).
Proof.
  intros Ha. split; intros Hfit.
  - destruct Ha as (_ & _ & Hcap & Hcur & Hmem).
    unfold ua_falloc, ua_alloc, ua_fzalloc, ua_zalloc. split;
      M_load Hmem; M_load Hcur; M_load Hcur; M_load Hcap;
      rewrite (proj2 (Z.leb_le _ _) Hfit); by M_load Hmem.
  - destruct (ua_falloc_spec m p a size Ha) as (m' & S & _ & W).
    exists m'. split_and!; [done|done|]. intros [Hc _ _ _]. cbn in Hc. lia.
Qed.

Lemma ua_unchecked_equiv_witness :
  ua_falloc 1000 8 Demo.m0 = ua_alloc 1000 8 Demo.m0 /\
  exists m', ua_falloc 1000 49 Demo.m0 = Some (2016, m').
Proof.
  split.
  - apply (ua_unchecked_equiv Demo.m0 1000 Demo.a0 8 Demo.at0). vm_compute. done.
  - destruct (proj2 (ua_unchecked_equiv Demo.m0 1000 Demo.a0 49 Demo.at0)) as (m' & S & _);
      [vm_compute; done|]. exists m'. exact S.
Defined.

(** A bootstrapped arena is a well-formed arena inside one block of its
    parent, marked bootstrapped; and whatever is done with the child changes
    neither the parent's struct nor any byte outside that block. *)
Theorem ua_bootstrap_isolated (m : mem) (p : Z) (a : UArena) (cap : Z) (ops : list Bump.op) :
  arena_at m p a -> wf_arena m p a -> 0 <= cap < 2 ^ 63 ->
  ua_cur a + sizeof_UArena + cap <= ua_cap a -> Forall op_ok ops ->
  exists c m1, ua_bootstrap p NULL cap m = Some (c, m1) /\
    arena_at m1 c (child_of a cap) /\ wf_arena m1 c (child_of a cap) /\
    arena_at m1 p (with_cur a (ua_cur a + sizeof_UArena + cap)) /\
    exists rs m2, ua_run c ops m1 = Some (rs, m2) /\
      arena_at m2 p (with_cur a (ua_cur a + sizeof_UArena + cap)) /\
      forall x, ~ in_block a (sizeof_UArena + cap) x -> m2 !! x = m1 !! x.
Proof.
  intros Ha Hwf Hcap Hfit Hops. pose proof Hwf as [Hc _ _ Hap].
  destruct (ua_bootstrap_fits m p a cap) as (m1 & S & A & W & Ap & F); [done..|lia|done|].
  exists (ua_mem a + ua_cur a), m1. split_and!; try done.
  destruct (ua_run_local ops m1 _ _ (in_block a (sizeof_UArena + cap)) A W) as (rs & m2 & S2 & F2);
    [cbn; lia|done|unfold in_block; lia|cbn; unfold in_block, sizeof_UArena; lia|].
  exists rs, m2. split_and!; [done| |by destruct F2].
  eapply arena_at_frame; [exact F2| |exact Ap]. unfold in_block. intros x Hx ?. lia.
Qed.

Lemma ua_bootstrap_isolated_witness :
  exists c m1, ua_bootstrap 1000 NULL 16 Demo.m0 = Some (c, m1) /\
               wf_arena m1 c (mkUArena 4 16 0 2048).
Proof.
  destruct (ua_bootstrap_isolated Demo.m0 1000 Demo.a0 16 [Bump.Zalloc 16] Demo.at0 Demo.wf0)
    as (c & m1 & S & _ & W & _); [lia|vm_compute; done|repeat constructor; cbn; lia|].
  exists c, m1. split; [exact S|exact W].
Defined.

(** When the parent has room for the struct but not for the child's buffer,
    [ua_bootstrap] reports failure yet leaves the struct's 32 bytes allocated
    on the parent. *)
Theorem ua_bootstrap_leak (m : mem) (p : Z) (a : UArena) (cap : Z) :
  arena_at m p a -> wf_arena m p a -> ua_cap a < 2 ^ 63 -> 0 <= cap < 2 ^ 63 ->
  ua_cur a + sizeof_UArena <= ua_cap a < ua_cur a + sizeof_UArena + cap ->
  exists m', ua_bootstrap p NULL cap m = Some (NULL, m') /\
             ua_pos p m' = Some (ua_cur a + sizeof_UArena, m').
Proof.
  intros Ha Hwf Hl Hc Hs. destruct (ua_bootstrap_short m p a cap) as (m' & S & A); [done..|].
  exists m'. split; [done|]. by rewrite (ua_pos_spec _ _ _ A).
Qed.

Lemma ua_bootstrap_leak_witness :
  exists m', ua_bootstrap 1000 NULL 17 Demo.m0 = Some (NULL, m') /\ ua_pos 1000 m' = Some (48, m').
Proof.
  apply (ua_bootstrap_leak Demo.m0 1000 Demo.a0 17 Demo.at0 Demo.wf0);
    unfold sizeof_UArena; cbn; lia.
Defined.

(** Life cycle.  In all four layouts (contiguous or split, [malloc] or
    [mmap]) a granted [ua_create] yields a well-formed empty arena on fresh
    memory; any use of it followed by [ua_destroy] through the caller's pointer
    returns every block to the system -- the memory and the block table are
    those from before the creation -- and clears the pointer. *)
Theorem ua_create_destroy (place : os -> block_kind -> Z -> option Z) (junk : Z -> Z)
    (cacheln_sz : Z) (o : os) (cap : Z) (c m : bool) (ua mem uap : Z) (ops : list Bump.op) :
  place_fresh place -> 0 < cacheln_sz < 2 ^ 32 ->
  0 < cap < 2 ^ 63 -> arena_cache_aligned_sz cacheln_sz + cap < 2 ^ 64 ->
  granted place junk cacheln_sz o cap c m ua mem ->
  uap <> NULL -> mapped (os_mem o) uap 8 -> Forall op_ok ops ->
  exists o1 rs o2 o3,
    ua_create place junk cacheln_sz cap c m o = Some (ua, o1) /\
    wf_arena (os_mem o1) ua (mkUArena (flag_bits c m false) cap 0 mem) /\
    (lift (store64 uap ua);; lift (ua_run ua ops)) o1 = Some (rs, o2) /\
    ua_destroy cacheln_sz uap o2 = Some (tt, o3) /\
    os_blocks o3 = os_blocks o /\ word_at (os_mem o3) uap NULL /\
    forall x, ~ (uap <= x < uap + 8) -> os_mem o3 !! x = os_mem o !! x.
Proof.
  intros Hpl Hli Hcap Hov Hg Hup Hcell Hops.
  destruct (ua_create_granted place junk cacheln_sz Hpl Hli o cap c m ua mem)
    as (o1 & S1 & A1 & W1 & Own & Fresh & Keep & Blk); [lia|done..|].
  set (a := mkUArena (flag_bits c m false) cap 0 mem) in *.
  assert (Hcellout : forall x, uap <= x < uap + 8 -> ~ held cacheln_sz ua a x).
  { intros x Hx Hh. destruct (Hcell x Hx) as [b Hb]. by rewrite Fresh in Hb. }
  assert (Hheld : forall x, ua <= x < ua + sizeof_UArena \/ mem <= x < mem + cap ->
                     held cacheln_sz ua a x)
    by (intros x; apply (granted_held place junk cacheln_sz Hpl Hli o cap c m); (done || lia)).
  destruct (granted_held place junk cacheln_sz Hpl Hli o cap c m ua mem 0) as [Hua _]; [lia|done..|].
  assert (Hcell1 : mapped (os_mem o1) uap 8) by (intros x Hx; rewrite Keep by auto; by apply Hcell).
  destruct (store64_word (os_mem o1) uap ua Hcell1 Hua) as (m1 & Sc & Ac & Wc).
  assert (A1' : arena_at m1 ua a).
  { eapply arena_at_frame; [eapply (agree_outside_frame _ _ (fun x => uap <= x < uap + 8)); [exact Ac|tauto]| |done].
    intros x Hx Hc. eapply (Hcellout x); auto. }
  assert (W1' : wf_arena m1 ua a).
  { destruct W1. split; try done. by eapply agree_outside_mapped. }
  destruct (ua_run_simulates ops m1 ua a A1' W1') as (m2 & S2 & A2 & W2 & F2); [cbn; lia|done|].
  assert (Hfp : forall x, arena_footprint ua a x -> held cacheln_sz ua a x).
  { unfold arena_footprint. unfold_fields. intros x Hx. apply Hheld. cbn in Hx. lia. }
  assert (Wc2 : word_at m2 uap ua).
  { eapply word_at_frame; [exact F2| |exact Wc]. intros x Hx Hf. eapply Hcellout; eauto. }
  set (o2 := mkOs m2 (os_blocks o1)).
  destruct (ua_destroy_ok cacheln_sz Hli o2 uap ua (with_cur a (fst (Bump.run (ua_cap a) (ua_cur a) ops))) Hup Wc2)
    as (o3 & S3 & B3 & C3 & R3 & K3);
    [cbn; by destruct c, m|exact A2|exact W2|cbn; lia|done|done|done|].
  eexists o1, _, o2, o3. split_and!.
  - done.
  - done.
  - P_step (lift_Some _ _ _ _ Sc). rewrite (lift_Some _ (mkOs m1 (os_blocks o1)) _ _ S2). reflexivity.
  - done.
  - rewrite B3. exact Blk.
  - done.
  - intros x Hx. destruct (held_dec cacheln_sz ua a x) as [Hh|Hh].
    + rewrite (R3 x Hh). symmetry. by apply Fresh.
    + rewrite (K3 x Hh Hx). destruct F2 as [_ F2]. destruct Ac as [_ Ac]. cbn.
      rewrite F2 by eauto. rewrite Ac by lia. by apply Keep.
Qed.

Lemma ua_create_destroy_witness :
  let o := mkOs (map_bytes ∅ 500 8 (fun _ => 0)) ∅ in
  exists o1 rs o2 o3,
    ua_create bump_place (fun _ => 0) 64 100 true false o = Some (508, o1) /\
    (lift (store64 500 508);; lift (ua_run 508 [Bump.Alloc 50; Bump.Alloc 60])) o1 = Some (rs, o2) /\
    ua_destroy 64 500 o2 = Some (tt, o3) /\ os_blocks o3 = ∅.
Proof.
  cbv zeta.
  destruct (ua_create_destroy bump_place (fun _ => 0) 64
              (mkOs (map_bytes ∅ 500 8 (fun _ => 0)) ∅) 100 true false 508 572 500
              [Bump.Alloc 50; Bump.Alloc 60] bump_place_fresh)
    as (o1 & rs & o2 & o3 & S1 & _ & S2 & S3 & B & _).
  - lia.
  - lia.
  - vm_compute. done.
  - split; vm_compute; reflexivity.
  - done.
  - apply mapped_check. vm_compute. eauto.
  - repeat constructor; cbn; lia.
  - exists o1, rs, o2, o3. split; [exact S1|]. split; [exact S2|]. split; [exact S3|exact B].
Defined.

(** Failures of [ua_create].  Only the contiguous [mmap] layout checks its
    allocation and returns NULL.  With a failed [malloc] every other layout
    initialises a struct at address 0 (a fault, or -- contiguous -- at the
    buffer offset from it), and a failed [mmap] of a split buffer is not
    noticed: the arena returned is accepted by the allocator and its first
    zeroing allocation faults. *)
Theorem ua_create_failures (place : os -> block_kind -> Z -> option Z) (junk : Z -> Z)
    (cacheln_sz : Z) (o : os) (cap : Z) :
  0 < cap < 2 ^ 63 -> os_mem o !! NULL = None ->
  (place o Mmap (arena_cache_aligned_sz cacheln_sz +64 cap) = None ->
     ua_create place junk cacheln_sz cap true false o = Some (NULL, o)) /\
  (forall c, place o Malloc (arena_cache_aligned_sz cacheln_sz +64 cap) = None ->
     place o Malloc sizeof_UArena = None ->
     place o Malloc cap = None -> ua_create place junk cacheln_sz cap c true o = None) /\
  (forall ua, let o1 := grant Malloc junk sizeof_UArena ua o in
     0 < ua -> ua + sizeof_UArena < MAP_FAILED -> os_mem o !! MAP_FAILED = None ->
     place o Malloc sizeof_UArena = Some ua -> place o1 Mmap cap = None ->
     exists o2, ua_create place junk cacheln_sz cap false false o = Some (ua, o2) /\
       arena_at (os_mem o2) ua (mkUArena (flag_bits false false false) cap 0 MAP_FAILED) /\
       ua_zalloc ua 1 (os_mem o2) = None).
Proof.
  intros Hcap Hnull.
  assert (Hinit : forall c mem, lift (ua_init NULL c true false cap mem) o = None).
  { intros c mem. unfold lift, ua_init, mbind, M_bind, store64, write_bytes.
    cbn [le_encode]. unfold p_flags, NULL in *. by rewrite Hnull. }
  split_and!.
  - intros Hp. unfold ua_create, mmap, mbind, P_bind.
    destruct (_ =? 0); [by rewrite Z.eqb_refl|]. rewrite Hp. by rewrite Z.eqb_refl.
  - intros [] H1 H2 H3; unfold ua_create, malloc, mbind, P_bind.
    + rewrite H1. by rewrite Hinit.
    + rewrite H2, H3. by rewrite Hinit.
  - intros ua o1 Hua Hend Hfree Hp1 Hp2. unfold ua_create.
    P_step (malloc_granted place junk _ _ _ Hp1).
    assert (Hm : mmap place cap o1 = Some (MAP_FAILED, o1)).
    { unfold mmap. rewrite (proj2 (Z.eqb_neq _ _)) by lia. by rewrite Hp2. }
    P_step Hm.
    destruct (ua_init_spec (os_mem o1) ua false false false cap MAP_FAILED) as (m' & S & A & W);
      [unfold NULL; lia|by apply grant_mapped|lia|unfold MAP_FAILED; lia|].
    P_step (lift_Some _ o1 _ _ S). eexists. split; [reflexivity|]. split; [exact W|].
    pose proof W as (_ & _ & Wcap & Wcur & Wmem). unfold ua_zalloc. cbn [os_mem ua_cap ua_cur ua_mem] in *.
    M_load Wcur. M_load Wcap. rewrite (proj2 (Z.leb_le _ _)) by (rewrite u64_small; lia). M_load Wmem.
    destruct (store_cur m' ua _ (0 +64 1) W) as (m2 & S2 & A2 & _); [vm_compute; intuition congruence|].
    M_step S2. assert (Hnone : m2 !! (MAP_FAILED +64 0) = None).
    { change (MAP_FAILED +64 0) with MAP_FAILED. destruct A2 as [_ A2].
      rewrite A2 by (unfold p_cur, sizeof_UArena in *; lia).
      destruct A as [_ A]. rewrite A by lia. unfold o1. rewrite grant_mem.
      by rewrite decide_False by (unfold sizeof_UArena in *; lia). }
    unfold mbind, M_bind, bzero. cbn [Z.to_nat Pos.to_nat replicate write_bytes].
    change (Z.to_nat 1) with 1%nat. cbn [replicate write_bytes]. by rewrite Hnone.
Qed.

Lemma ua_create_failures_witness :
  ua_create (fun _ _ _ => None) (fun _ => 0) 64 100 true false (mkOs ∅ ∅) = Some (NULL, mkOs ∅ ∅).
Proof.
  apply (ua_create_failures (fun _ _ _ => None) (fun _ => 0) 64 (mkOs ∅ ∅) 100); [lia|reflexivity..].
Defined.

(** [ua_pop].  For sizes below 2^63 it is the truncated inverse of an
    allocation: it takes back [size] when that much is in use and nothing
    otherwise.  A larger size (any for which the signed subtraction is defined)
    is read as negative, so the test passes and the cursor moves {e up}, by
    [2^64 - size], past the capacity if that is how far it goes. *)
Theorem ua_pop_spec_all (m : mem) (p : Z) (a : UArena) (size : Z) :
  arena_at m p a -> 0 <= ua_cur a < 2 ^ 63 -> 0 <= size < 2 ^ 64 ->
  size < 2 ^ 63 \/ 2 ^ 63 + ua_cur a < size ->
  exists m', ua_pop p size m = Some (tt, m') /\ agree_outside (p_cur p) 8 m m' /\
    arena_at m' p (with_cur a
      (if size <=? ua_cur a then ua_cur a - size
       else if size <? 2 ^ 63 then ua_cur a
       else ua_cur a + (2 ^ 64 - size))).
Proof.
  intros Ha Hc Hs Hdef.
  destruct (Z.ltb_spec size (2 ^ 63)) as [Hlt|Hge].
  { apply ua_pop_spec; [done|lia|lia]. }
  rewrite (proj2 (Z.leb_gt _ _)) by lia.
  pose proof Ha as (_ & _ & _ & Hcur & _). unfold ua_pop. M_load Hcur.
  rewrite (s64_small (ua_cur a)), (s64_neg size) by lia.
  rewrite s64_small by lia. rewrite (proj2 (Z.leb_le _ _)) by lia.
  replace (ua_cur a -64 size) with (ua_cur a + (2 ^ 64 - size)) by word_lia.
  apply store_cur; [done|lia].
Qed.

Lemma ua_pop_spec_all_witness :
  exists m', ua_pop 1000 (2 ^ 64 - 1000) Demo.m0 = Some (tt, m') /\
             arena_at m' 1000 (mkUArena 1 64 1016 2000).
Proof.
  destruct (ua_pop_spec_all Demo.m0 1000 Demo.a0 (2 ^ 64 - 1000) Demo.at0) as (m' & S & _ & W);
    [cbn; lia..|].
  exists m'. split; [exact S|exact W].
Defined.
