(* ===== verification/PageArena.v ===== *)
(** * The arena that clears whole pages: [src/poc/page_zalloc/u_arena.c]

    A proof of concept for the arena of [UArena]: blocks are aligned, and
    [u_arena_zalloc] clears the pages that an allocation is the first to touch
    instead of the block.  The struct is a record, its buffer a range of the
    memory; a result of [None] is a fault. *)

From S2P Require Import Prelude.
From S2P Require Import Memory.
From S2P Require Import Os.
From S2P Require Import LmDefs.
#[local] Open Scope Z_scope.

Record u_arena := mkArena {
  contiguous : bool;
  mallocd : bool;
  alignment : Z;
  page_sz : Z;
  last_page_start : Z;
  cap : Z;
  cur : Z;
  mem_ : Z;             (* mem *)
}.

(** Two flags, padded, and six words; the fourth is [last_page_start]. *)
Definition sizeof_u_arena : Z := 56.

Definition at_cur (a : u_arena) (c : Z) : u_arena :=
  mkArena (contiguous a) (mallocd a) (alignment a) (page_sz a) (last_page_start a) (cap a) c (mem_ a).
Definition at_page (a : u_arena) (l : Z) : u_arena :=
  mkArena (contiguous a) (mallocd a) (alignment a) (page_sz a) l (cap a) (cur a) (mem_ a).

(** ** Operations *)

(** A remainder by 0 is undefined. *)
Definition aligned (size alignment : Z) : option Z :=
  if alignment =? 0 then None else Some (size +64 LmPaddingToAlign size alignment).

Definition u_arena_alloc (a : u_arena) (size : Z) : option (Z * u_arena) :=
  aligned_sz ← aligned size (alignment a);
  if cur a +64 aligned_sz <=? cap a
  then Some (mem_ a +64 cur a, at_cur a (cur a +64 aligned_sz))
  else Some (NULL, a).

(** [ssize_t] is signed. *)
Definition zero_new_pages (a : u_arena) (aligned_sz : Z) (m : mem) : option (u_arena * mem) :=
  if cur a =? 0 then
    '(_, m) ← bzero (mem_ a) (page_sz a) m;
    Some (a, m)
  else
    let used_in_current_page := s64 (cur a -64 last_page_start a) in
    let available_in_current_page := s64 (page_sz a -64 used_in_current_page) in
    let mem_needed_from_new_pages := s64 (aligned_sz -64 available_in_current_page) in
    if mem_needed_from_new_pages <=? 0 then Some (a, m)
    else
      let mem_to_clear := mem_needed_from_new_pages +64 LmPaddingToAlign mem_needed_from_new_pages 4096 in
      let start_next_untouched_page := mem_ a +64 last_page_start a +64 page_sz a in
      '(_, m) ← bzero start_next_untouched_page mem_to_clear m;
      Some (at_page a (last_page_start a +64 mem_to_clear), m).

Definition u_arena_zalloc (a : u_arena) (size : Z) (m : mem) : option (Z * u_arena * mem) :=
  aligned_sz ← aligned size (alignment a);
  '(a, m) ← zero_new_pages a aligned_sz m;
  if cur a +64 aligned_sz <=? cap a
  then Some (mem_ a +64 cur a, at_cur a (cur a +64 aligned_sz), m)
  else Some (NULL, a, m).

Definition u_arena_falloc (a : u_arena) (size : Z) : option (Z * u_arena) :=
  aligned_sz ← aligned size (alignment a);
  Some (mem_ a +64 cur a, at_cur a (cur a +64 aligned_sz)).

Definition u_arena_fzalloc (a : u_arena) (size : Z) (m : mem) : option (Z * u_arena * mem) :=
  aligned_sz ← aligned size (alignment a);
  let ptr := mem_ a +64 cur a in
  '(_, m) ← bzero ptr aligned_sz m;
  Some (ptr, at_cur a (cur a +64 aligned_sz), m).

(** [madvise] with [MADV_DONTNEED] leaves zeros in the pages of an anonymous
    mapping; it is only logged when it fails. *)
Definition u_arena_release (madvise : bool) (a : u_arena) (pos size : Z) (m : mem) : option mem :=
  if mallocd a then Some m
  else if madvise then '(_, m) ← bzero (mem_ a +64 pos) size m; Some m
  else Some m.

Definition u_arena_free (a : u_arena) : u_arena := at_cur a 0.

Definition u_arena_pop (a : u_arena) (size : Z) : option u_arena :=
  if alignment a =? 0 then None
  else if (size mod alignment a =? 0) && (0 <=? s64 (s64 (cur a) - s64 size))
  then Some (at_cur a (cur a -64 size))
  else Some a.

Definition u_arena_set_alignment (a : u_arena) (al : Z) : u_arena :=
  if LmIsPowerOfTwo al && (al <=? 4096)
  then mkArena (contiguous a) (mallocd a) al (page_sz a) (last_page_start a) (cap a) (cur a) (mem_ a)
  else a.

Definition u_arena_pos (a : u_arena) : Z := mem_ a +64 cur a.

Definition u_arena_seek (a : u_arena) (pos : Z) : option (Z * u_arena) :=
  if pos <=? cap a then
    if alignment a =? 0 then None
    else if pos mod alignment a =? 0 then Some (mem_ a +64 pos, at_cur a pos) else Some (NULL, a)
  else Some (NULL, a).

(** ** Creation *)

(** [last_page_start] stays as it was in the memory of the struct. *)
Definition u_arena_init (last_page_start : Z) (contiguous mallocd : bool) (alignment page_sz cap mem : Z) : u_arena :=
  mkArena contiguous mallocd alignment page_sz last_page_start cap 0 mem.

Section Create.
Variable place : os -> block_kind -> Z -> option Z.
Variable junk : Z -> Z.
(** [get_page_size], [get_l1d_cacheln_sz] *)
Variables sys_page_sz cacheln_sz : Z.

Definition arena_cache_aligned_sz : Z := sizeof_u_arena +64 LmPaddingToAlign sizeof_u_arena cacheln_sz.

(** The struct at [arena] must be there. *)
Definition init_at (arena : Z) (contiguous mallocd : bool) (alignment cap mem : Z) : P (option (Z * u_arena)) :=
  last ← (if (arena =? NULL) || (arena =? MAP_FAILED) then lift fault else lift (load64 (arena + 24)));
  mret (Some (arena, u_arena_init last contiguous mallocd alignment sys_page_sz cap mem)).

Definition u_arena_create (cap : Z) (contiguous mallocd : bool) (alignment : Z) : P (option (Z * u_arena)) :=
  if mallocd then
    if contiguous then
      arena ← malloc place junk (arena_cache_aligned_sz +64 cap);
      init_at arena contiguous mallocd alignment cap (arena +64 arena_cache_aligned_sz)
    else
      arena ← malloc place junk sizeof_u_arena;
      mem ← malloc place junk cap;
      init_at arena contiguous mallocd alignment cap mem
  else
    if negb (cap mod sys_page_sz =? 0) then mret None
    else if contiguous then
      arena ← mmap place (arena_cache_aligned_sz +64 cap);
      init_at arena contiguous mallocd alignment cap (arena +64 arena_cache_aligned_sz)
    else
      arena ← malloc place junk sizeof_u_arena;
      mem ← mmap place cap;
      init_at arena contiguous mallocd alignment cap mem.

(** [ap]: the caller's pointer, and what it is afterwards. *)
Definition u_arena_destroy (ap : option (option (Z * u_arena))) : P (option (option (Z * u_arena))) :=
  match ap with
  | Some (Some (p, a)) =>
      if mem_ a =? NULL then mret ap
      else
        (if mallocd a then
           if contiguous a then free p else free (mem_ a);; free p
         else
           if contiguous a then munmap p (arena_cache_aligned_sz +64 cap a)
           else munmap (mem_ a) (cap a);; free p);;
        mret (Some None)
  | _ => mret ap
  end.
End Create.

(** ** The pages that are clear *)

Lemma aligned_pos size al : 0 < al <= 4096 -> 0 <= size < 2 ^ 63 ->
  exists n, aligned size al = Some n /\ size <= n < size + 4096.
Proof.
  intros Ha Hs. unfold aligned. rewrite (proj2 (Z.eqb_neq al 0)) by lia.
  pose proof (LmPaddingToAlign_bound size al ltac:(lia) ltac:(lia)). eexists. split; [done|]. rewrite u64_small; lia.
Qed.

Lemma s64_u64 x : - 2 ^ 63 <= x < 2 ^ 63 -> s64 (u64 x) = x.
Proof. intros. word_lia. Qed.

Lemma add_mod_0 d x y : 0 < d -> x mod d = 0 -> y mod d = 0 -> (x + y) mod d = 0.
Proof. intros Hd Hx Hy. rewrite Z.add_mod by lia. by rewrite Hx, Hy, Z.mod_0_l by lia. Qed.

(** Below a multiple, the next multiple of something smaller fits. *)
Lemma multiples_le d x y : 0 < d -> x mod d = 0 -> y mod d = 0 -> x < y + d -> x <= y.
Proof.
  intros Hd Hx Hy H. apply Z.div_exact in Hx, Hy; [|lia..]. set (a := x / d) in *. set (b := y / d) in *.
  assert (a < b + 1) by (apply (Z.mul_lt_mono_pos_l d); lia). nia.
Qed.

(** The bytes from the cursor to the end of the pages that were touched hold
    zero, and no page was touched in vain. *)
Record ready (a : u_arena) (m : mem) : Prop := {
  r_alignment : 0 < alignment a <= 4096;
  r_page : 4096 <= page_sz a /\ page_sz a mod 4096 = 0;
  r_cap : cap a mod 4096 = 0 /\ page_sz a <= cap a;
  r_last : 0 <= last_page_start a /\ last_page_start a mod 4096 = 0 /\ last_page_start a + page_sz a <= cap a;
  r_cur : last_page_start a <= cur a <= last_page_start a + page_sz a;
  r_first : cur a = 0 -> last_page_start a = 0;
  r_zero : cur a <> 0 -> forall x, mem_ a + cur a <= x < mem_ a + last_page_start a + page_sz a -> m !! x = Some 0;
  r_mem : 0 < mem_ a /\ mem_ a + cap a < 2 ^ 62;
  r_mapped : mapped m (mem_ a) (cap a);
}.

(** What stays as it was made. *)
Definition same_arena (a a' : u_arena) : Prop :=
  alignment a' = alignment a /\ page_sz a' = page_sz a /\ cap a' = cap a /\ mem_ a' = mem_ a.

(** The bytes that the next block is the first to have are cleared. *)
Lemma zero_new_pages_clears a m n :
  ready a m -> 0 <= n < 2 ^ 62 -> cur a + n <= cap a -> (cur a = 0 -> n <= page_sz a) ->
  exists a' m', zero_new_pages a n m = Some (a', m') /\ same_arena a a' /\ cur a' = cur a /\
    (0 <= last_page_start a' <= cur a + n /\ last_page_start a' mod 4096 = 0 /\ last_page_start a' + page_sz a <= cap a) /\
    cur a + n <= last_page_start a' + page_sz a /\ (cur a = 0 -> last_page_start a' = 0) /\
    (forall x, mem_ a + cur a <= x < mem_ a + last_page_start a' + page_sz a -> m' !! x = Some 0) /\
    agree_outside (mem_ a + cur a) (cap a - cur a) m m'.
Proof.
  intros [Ha Hp Hc Hl Hcur Hf Hz Hm Hmap] Hn Hfit Hfirst. unfold zero_new_pages. destruct (Z.eqb_spec (cur a) 0) as [E|E].
  - destruct (bzero_spec m (mem_ a) (page_sz a)) as (m' & Eb & Hag & H0); [intros x Hx; apply Hmap; lia|].
    rewrite Eb. cbn [mbind option_bind]. rewrite (Hf E) in *. exists a, m'. rewrite E, (Hf E). split_and!; try done; try lia.
    + intros x Hx. apply H0. lia.
    + eapply agree_outside_weaken; [exact Hag|lia..].
  - cbv zeta. rewrite (s64_u64 (cur a - _)) by lia. rewrite (s64_u64 (page_sz a - _)) by lia. rewrite (s64_u64 (n - _)) by lia. replace (n - (page_sz a - (cur a - last_page_start a))) with (cur a + n - (last_page_start a + page_sz a)) by lia.
    set (k := cur a + n - (last_page_start a + page_sz a)). destruct (Z.leb_spec k 0) as [Hk|Hk].
    + exists a, m. split_and!; try done; try lia. exact (Hz E).
    + pose proof (LmPaddingToAlign_bound k 4096 ltac:(lia) ltac:(lia)). pose proof (LmPaddingToAlign_aligned k 4096 ltac:(lia) ltac:(lia)) as Hal.
      rewrite (u64_small (k + _)) by lia. set (r := k + LmPaddingToAlign k 4096) in *.
      assert (Hr : last_page_start a + page_sz a + r <= cap a).
      { apply (multiples_le 4096); [lia|apply add_mod_0; [lia|apply add_mod_0; [lia|tauto..]|exact Hal]|tauto|lia]. }
      rewrite !(u64_small (mem_ a + _)), (u64_small (_ + page_sz a)), (u64_small (last_page_start a + r)) by lia.
      destruct (bzero_spec m (mem_ a + last_page_start a + page_sz a) r) as (m' & Eb & Hag & H0); [intros x Hx; apply Hmap; lia|].
      rewrite Eb. cbn [mbind option_bind]. exists (at_page a (last_page_start a + r)), m'. cbn [cur last_page_start at_page].
      split_and!; try done; try lia.
      * apply add_mod_0; [lia|tauto|exact Hal].
      * intros x Hx. destruct (decide (mem_ a + last_page_start a + page_sz a <= x)); [apply H0; lia|].
        rewrite (proj2 Hag) by lia. apply Hz; lia.
      * eapply agree_outside_weaken; [exact Hag|lia..].
Qed.

Lemma zalloc_ready a m size n :
  ready a m -> 0 <= size < 2 ^ 61 -> aligned size (alignment a) = Some n -> cur a + n <= cap a -> (cur a = 0 -> n <= page_sz a) ->
  exists a' m', u_arena_zalloc a size m = Some (mem_ a + cur a, a', m') /\ same_arena a a' /\ cur a' = cur a + n /\ ready a' m' /\
    (forall x, mem_ a + cur a <= x < mem_ a + cur a + n -> m' !! x = Some 0) /\
    agree_outside (mem_ a + cur a) (cap a - cur a) m m'.
Proof.
  intros Hr Hs En Hfit Hfirst. pose proof Hr as [Ha Hp Hc Hl Hcur Hf _ Hm Hmap].
  assert (Hn : size <= n < size + 4096) by (destruct (aligned_pos size (alignment a) ltac:(lia) ltac:(lia)) as (n' & E & ?); congruence).
  destruct (zero_new_pages_clears a m n Hr ltac:(lia) Hfit Hfirst) as (a1 & m1 & E1 & (E2 & E3 & E4 & E5) & E6 & Hl1 & Hle & Hf1 & H0 & Hag).
  unfold u_arena_zalloc. rewrite En. cbn [mbind option_bind]. rewrite E1. cbn [mbind option_bind].
  rewrite E4, E5, E6, !u64_small by lia. rewrite (proj2 (Z.leb_le _ _)) by lia.
  exists (at_cur a1 (cur a + n)), m1. split_and!; try done.
  - split; cbn [at_cur alignment page_sz cap cur mem_ last_page_start]; rewrite ?E2, ?E3, ?E4, ?E5; try done; try tauto; try lia.
    + intros _ x Hx. apply H0. lia.
    + eapply agree_outside_mapped; [exact Hag|done].
  - intros x Hx. apply H0. lia.
Qed.

(** Clients write to their blocks. *)
Lemma write_ready a m m' : ready a m -> agree_outside (mem_ a) (cur a) m m' -> ready a m'.
Proof.
  intros [] H. split; try done; [|by eapply agree_outside_mapped].
  intros Hc x Hx. rewrite (proj2 H) by lia. by apply r_zero0.
Qed.

Lemma write_bytes_same n m a x : (forall i, a <= i < a + Z.of_nat n -> m !! i = Some x) -> read_bytes m a n = Some (replicate n x).
Proof.
  revert a. induction n as [|n IH]; intros a H; [done|]. cbn [read_bytes replicate]. rewrite (H a) by lia. cbn.
  rewrite IH; [done|]. intros i Hi. apply H. lia.
Qed.

Section Created.
Context (place : os -> block_kind -> Z -> option Z) (junk : Z -> Z) (sys_page_sz cacheln_sz : Z).
Context (Hfresh : place_fresh place).

(** The size of the struct with its padding. *)
Lemma arena_sz_bounds : 0 < cacheln_sz <= 4096 -> sizeof_u_arena <= arena_cache_aligned_sz cacheln_sz < 8192.
Proof.
  intros Hc. unfold arena_cache_aligned_sz, sizeof_u_arena. pose proof (LmPaddingToAlign_bound 56 cacheln_sz ltac:(lia) ltac:(lia)).
  rewrite u64_small; lia.
Qed.

Lemma init_at_inv arena c ml al cp mb o r o' :
  init_at sys_page_sz arena c ml al cp mb o = Some (r, o') ->
  exists last, arena <> NULL /\ arena <> MAP_FAILED /\ os_blocks o' = os_blocks o /\
    r = Some (arena, u_arena_init last c ml al sys_page_sz cp mb).
Proof.
  unfold init_at, mbind, P_bind, lift, mret, P_ret. destruct (Z.eqb_spec arena NULL), (Z.eqb_spec arena MAP_FAILED); cbn [orb]; try done.
  destruct (load64 _ _) as [[v m]|]; [|done]. intros [= <- <-]. by exists v.
Qed.

(** What a request for memory leaves. *)
Lemma malloc_granted_inv n o r o' : malloc place junk n o = Some (r, o') ->
  r = NULL \/ (os_blocks o !! r = None /\ os_blocks o' = <[r := (Malloc, n)]> (os_blocks o)).
Proof.
  unfold malloc. destruct (place o Malloc n) as [a|] eqn:E; intros [= <- <-]; [right|by left].
  split; [|done]. by destruct (Hfresh _ _ _ _ E) as (_ & _ & _ & ?).
Qed.

Lemma mmap_granted_inv n o r o' : mmap place n o = Some (r, o') ->
  r = MAP_FAILED \/ (os_blocks o !! r = None /\ os_blocks o' = <[r := (Mmap, n)]> (os_blocks o)).
Proof.
  unfold mmap. destruct (n =? 0); [intros [= <- <-]; by left|].
  destruct (place o Mmap n) as [a|] eqn:E; intros [= <- <-]; [right|by left].
  split; [|done]. by destruct (Hfresh _ _ _ _ E) as (_ & _ & _ & ?).
Qed.

(** A contiguous mapping is all zeros, [last_page_start] with it. *)
Lemma create_mapped (cap_ al : Z) (o : os) a :
  0 < cacheln_sz <= 4096 -> 4096 <= sys_page_sz -> sys_page_sz mod 4096 = 0 -> 0 < al <= 4096 ->
  0 < cap_ < 2 ^ 60 -> cap_ mod sys_page_sz = 0 ->
  place o Mmap (arena_cache_aligned_sz cacheln_sz + cap_) = Some a -> a < 2 ^ 60 ->
  exists p ar o', u_arena_create place junk sys_page_sz cacheln_sz cap_ true false al o = Some (Some (p, ar), o') /\
    cap ar = cap_ /\ cur ar = 0 /\ alignment ar = al /\ page_sz ar = sys_page_sz /\ ready ar (os_mem o') /\
    contiguous ar = true /\ mallocd ar = false /\ p = a /\
    os_blocks o' = <[a := (Mmap, arena_cache_aligned_sz cacheln_sz + cap_)]> (os_blocks o).
Proof.
  intros Hcl Hps Hpm Hal Hcap Hmod Hplace Hlow. pose proof (arena_sz_bounds Hcl) as Hsz. unfold sizeof_u_arena in Hsz.
  destruct (Hfresh _ _ _ _ Hplace) as (Ha0 & Ha1 & _ & _). unfold u_arena_create. rewrite (proj2 (Z.eqb_eq _ 0)) by done. cbn [negb].
  set (sz := arena_cache_aligned_sz cacheln_sz) in *. rewrite u64_small by lia.
  erewrite P_bind_Some by (unfold mmap; rewrite (proj2 (Z.eqb_neq _ 0)), Hplace by lia; reflexivity).
  set (o' := grant _ _ _ _ _). assert (Hz : forall x, a <= x < a + (sz + cap_) -> os_mem o' !! x = Some 0).
  { intros x Hx. cbn. rewrite map_bytes_lookup, decide_True by lia. done. }
  unfold init_at. rewrite (proj2 (Z.eqb_neq a NULL)) by (unfold NULL; lia).
  rewrite (proj2 (Z.eqb_neq a MAP_FAILED)) by (unfold MAP_FAILED; lia). cbn [orb]. erewrite P_bind_Some.
  2: { apply lift_Some. apply load64_spec. apply (write_bytes_same 8 _ _ 0). intros i Hi. apply Hz. lia. }
  do 3 eexists. split; [reflexivity|]. cbn [cap cur alignment page_sz contiguous mallocd u_arena_init]. split_and!; try done.
  assert (Hc4 : cap_ mod 4096 = 0).
  { apply Z.div_exact in Hmod, Hpm; [|lia..]. rewrite Hmod, Hpm. rewrite <- Z.mul_assoc, Z.mul_comm. apply Z.mod_mul. lia. }
  assert (sys_page_sz <= cap_).
  { apply Z.div_exact in Hmod; [|lia]. assert (0 < cap_ / sys_page_sz) by nia. nia. }
  rewrite u64_small by lia.
  split; cbn -[Z.pow] in *; try done; try lia.
  intros x Hx. exists 0. apply Hz. lia.
Qed.
End Created.

(** What a client does with an arena: blocks, newest first, and writes to them. *)
Inductive in_use (a0 : u_arena) (m0 : mem) : list (Z * Z) -> u_arena -> mem -> Prop :=
  | in_use_none : in_use a0 m0 [] a0 m0
  | in_use_block bs a m size n p a' m' :
      in_use a0 m0 bs a m -> 0 <= size < 2 ^ 61 -> aligned size (alignment a) = Some n -> cur a + n <= cap a ->
      (cur a = 0 -> n <= page_sz a) -> u_arena_zalloc a size m = Some (p, a', m') -> in_use a0 m0 ((p, n) :: bs) a' m'
  | in_use_write bs a m m' :
      in_use a0 m0 bs a m -> agree_outside (mem_ a) (cur a) m m' -> in_use a0 m0 bs a m'.

Lemma in_use_ready a0 m0 bs a m : ready a0 m0 -> in_use a0 m0 bs a m ->
  ready a m /\ same_arena a0 a /\ Forall (fun '(q, k) => mem_ a0 <= q /\ q + k <= mem_ a + cur a) bs.
Proof.
  intros H0. induction 1 as [|bs a m size n p a' m' H (IH & (S1 & S2 & S3 & S4) & IHb) Hs En Hfit Hfirst E|bs a m m' H (IH & IHs & IHb) Hw].
  - done.
  - destruct (zalloc_ready _ _ _ _ IH Hs En Hfit Hfirst) as (a1 & m1 & E1 & (T1 & T2 & T3 & T4) & Hc & Hr & _). rewrite E in E1. injection E1 as -> <- <-.
    destruct (aligned_pos size (alignment a) ltac:(apply IH) ltac:(lia)) as (n' & En' & Hn'). pose proof (r_cur _ _ IH). pose proof (r_last _ _ IH).
    assert (n' = n) as -> by congruence. split; [done|]. split; [split_and!; congruence|]. constructor; [split; lia|].
    eapply Forall_impl; [exact IHb|]. intros [q k] Hq. lia.
  - split; [by eapply write_ready|]. by split.
Qed.

Lemma P_bind_inv {A B} (c : P A) (f : A -> P B) o x : (c ≫= f) o = Some x -> exists a o', c o = Some (a, o') /\ f a o' = Some x.
Proof. unfold mbind, P_bind. destruct (c o) as [[a o']|]; [|done]. by exists a, o'. Qed.

Lemma P_both (c d : P unit) o o' o'' : c o = Some (tt, o') -> d o' = Some (tt, o'') -> (c;; d) o = Some (tt, o'').
Proof. intros Hc Hd. by rewrite (P_bind_Some _ _ _ _ _ Hc). Qed.

Lemma free_live o r n : r <> NULL -> os_blocks o !! r = Some (Malloc, n) ->
  exists o', free r o = Some (tt, o') /\ os_blocks o' = delete r (os_blocks o).
Proof. intros Hr H. unfold free. rewrite (proj2 (Z.eqb_neq r NULL)), H by done. by eexists. Qed.

Lemma munmap_live o r n : os_blocks o !! r = Some (Mmap, n) ->
  exists o', munmap r n o = Some (tt, o') /\ os_blocks o' = delete r (os_blocks o).
Proof. intros H. unfold munmap. rewrite H, Z.eqb_refl. by eexists. Qed.

(** The release of a block that was granted to [blocks]. *)
Lemma free_granted (blocks : gmap Z (block_kind * Z)) o r n : r <> NULL -> blocks !! r = None ->
  os_blocks o = <[r := (Malloc, n)]> blocks -> exists o', free r o = Some (tt, o') /\ os_blocks o' = blocks.
Proof.
  intros Hr Hn Hb. destruct (free_live o r n Hr) as (o' & E & Hd); [by rewrite Hb, lookup_insert_eq|].
  exists o'. split; [done|]. by rewrite Hd, Hb, delete_insert_id.
Qed.

Lemma munmap_granted (blocks : gmap Z (block_kind * Z)) o r n : blocks !! r = None ->
  os_blocks o = <[r := (Mmap, n)]> blocks -> exists o', munmap r n o = Some (tt, o') /\ os_blocks o' = blocks.
Proof.
  intros Hn Hb. destruct (munmap_live o r n) as (o' & E & Hd); [by rewrite Hb, lookup_insert_eq|].
  exists o'. split; [done|]. by rewrite Hd, Hb, delete_insert_id.
Qed.

(** ** Properties *)

(** Blocks of a mapped arena are clear.  In a contiguous arena over a mapping,
    however clients write to the blocks they have, [u_arena_zalloc] of what still
    fits returns a block of its own, behind the others, in which every byte is
    zero, and changes no byte of theirs -- when the first block of all is no
    larger than a page. *)
Theorem zalloc_clears (place : os -> block_kind -> Z -> option Z) (junk : Z -> Z) (sys_page_sz cacheln_sz cap_ al : Z)
    (o : os) (base : Z) :
  place_fresh place -> 0 < cacheln_sz <= 4096 -> 4096 <= sys_page_sz -> sys_page_sz mod 4096 = 0 -> 0 < al <= 4096 ->
  0 < cap_ < 2 ^ 60 -> cap_ mod sys_page_sz = 0 ->
  place o Mmap (arena_cache_aligned_sz cacheln_sz + cap_) = Some base -> base < 2 ^ 60 ->
  exists p a0 o', u_arena_create place junk sys_page_sz cacheln_sz cap_ true false al o = Some (Some (p, a0), o') /\
    cur a0 = 0 /\ cap a0 = cap_ /\
    forall bs a m size n, in_use a0 (os_mem o') bs a m -> 0 <= size < 2 ^ 61 -> aligned size al = Some n ->
      cur a + n <= cap_ -> (cur a = 0 -> n <= sys_page_sz) ->
      exists ptr a' m', u_arena_zalloc a size m = Some (ptr, a', m') /\
        (forall x, ptr <= x < ptr + n -> m' !! x = Some 0) /\
        mem_ a0 <= ptr /\ ptr + n <= mem_ a0 + cap_ /\ Forall (fun '(q, k) => q + k <= ptr) bs /\
        (forall q k x, (q, k) ∈ bs -> q <= x < q + k -> m' !! x = m !! x).
Proof.
  intros Hfr Hcl Hps Hpm Hal Hcap Hmod Hpl Hlow.
  destruct (create_mapped place junk sys_page_sz cacheln_sz Hfr cap_ al o base) as (p & a0 & o' & E & Ec & E0 & Ea & Ep & Hr & _); try done.
  exists p, a0, o'. split; [exact E|]. split; [exact E0|]. split; [exact Ec|]. intros bs a m size n Hu Hs En Hfit Hfirst.
  destruct (in_use_ready _ _ _ _ _ Hr Hu) as (Hra & (S1 & S2 & S3 & S4) & Hbs).
  destruct (zalloc_ready a m size n) as (a' & m' & Ez & _ & _ & _ & H0 & Hag); [done|done|by rewrite S1, Ea|by rewrite S3, Ec|by rewrite S2, Ep|].
  pose proof (r_cur _ _ Hra). pose proof (r_last _ _ Hra). exists (mem_ a + cur a), a', m'.
  split_and!; [done|done|lia|lia|eapply Forall_impl; [exact Hbs|]; intros [q k] ?; lia|].
  intros q k x Hin Hx. rewrite Forall_forall in Hbs. specialize (Hbs _ Hin). cbn in Hbs. apply (proj2 Hag). lia.
Qed.

(** Creation and destruction.  Whatever the layout, an arena that was made with
    memory for its buffer is destroyed with every block given back. *)
Theorem create_destroy (place : os -> block_kind -> Z -> option Z) (junk : Z -> Z) (sys_page_sz cacheln_sz cap_ al : Z)
    (contiguous_ mallocd_ : bool) (o o1 : os) (p : Z) (a : u_arena) :
  place_fresh place ->
  u_arena_create place junk sys_page_sz cacheln_sz cap_ contiguous_ mallocd_ al o = Some (Some (p, a), o1) ->
  mem_ a <> NULL -> (contiguous_ = false -> mem_ a <> MAP_FAILED) ->
  exists o2, u_arena_destroy cacheln_sz (Some (Some (p, a))) o1 = Some (Some None, o2) /\ os_blocks o2 = os_blocks o.
Proof.
  intros Hfr Hc Hnull Hfail. unfold u_arena_create in Hc.
  destruct mallocd_, contiguous_; [| |destruct (cap_ mod sys_page_sz =? 0); [|done]; cbn [negb] in Hc..];
    apply P_bind_inv in Hc as (r & ox & Er & Hc).
  2, 4: apply P_bind_inv in Hc as (mb & oy & Emb & Hc).
  all: apply init_at_inv in Hc as (last & Hp0 & Hp1 & Hb1 & [= -> ->]); cbn [u_arena_init mem_] in *;
    unfold u_arena_destroy; cbn [u_arena_init mem_ mallocd contiguous cap]; rewrite (proj2 (Z.eqb_neq _ NULL)) by done.
  - apply (malloc_granted_inv _ _ Hfr) in Er as [?|[Hn Hb]]; [done|]. rewrite Hb in Hb1.
    destruct (free_granted _ _ _ _ Hp0 Hn Hb1) as (o2 & E2 & ?). exists o2. by rewrite (P_bind_Some _ _ _ _ _ E2).
  - apply (malloc_granted_inv _ _ Hfr) in Er as [?|[Hn Hb]]; [done|]. apply (malloc_granted_inv _ _ Hfr) in Emb as [?|[Hn2 Hb2]]; [done|].
    rewrite Hb in Hn2, Hb2. rewrite Hb2 in Hb1. destruct (free_granted _ _ _ _ Hnull Hn2 Hb1) as (o2 & E2 & Hb3).
    destruct (free_granted _ _ _ _ Hp0 Hn Hb3) as (o3 & E3 & ?). exists o3. by rewrite (P_bind_Some _ _ _ _ _ (P_both _ _ _ _ _ E2 E3)).
  - apply (malloc_granted_inv _ _ Hfr) in Er as [?|[Hn Hb]]; [done|]. apply (mmap_granted_inv _ Hfr) in Emb as [?|[Hn2 Hb2]]; [by destruct (Hfail eq_refl)|].
    rewrite Hb in Hn2, Hb2. rewrite Hb2 in Hb1. destruct (munmap_granted _ _ _ _ Hn2 Hb1) as (o2 & E2 & Hb3).
    destruct (free_granted _ _ _ _ Hp0 Hn Hb3) as (o3 & E3 & ?). exists o3. by rewrite (P_bind_Some _ _ _ _ _ (P_both _ _ _ _ _ E2 E3)).
  - apply (mmap_granted_inv _ Hfr) in Er as [?|[Hn Hb]]; [done|]. rewrite Hb in Hb1.
    destruct (munmap_granted _ _ _ _ Hn Hb1) as (o2 & E2 & ?). exists o2. by rewrite (P_bind_Some _ _ _ _ _ E2).
Qed.

(** Blocks of [u_arena_alloc] start at multiples of the alignment. *)
Lemma alloc_aligned a size ptr a' :
  0 < alignment a <= 4096 -> 0 <= size < 2 ^ 62 -> 0 < mem_ a -> 0 <= cur a -> cap a < 2 ^ 62 -> mem_ a + cap a < 2 ^ 63 -> cur a <= cap a ->
  (mem_ a) mod alignment a = 0 -> cur a mod alignment a = 0 ->
  u_arena_alloc a size = Some (ptr, a') -> ptr <> NULL ->
  ptr = mem_ a + cur a /\ ptr mod alignment a = 0 /\ cur a' mod alignment a = 0 /\ size <= cur a' - cur a < size + alignment a /\ cur a' <= cap a.
Proof.
  intros Ha Hs Hm Hc Hcap Hmc Hcc Hma Hca. unfold u_arena_alloc, aligned. rewrite (proj2 (Z.eqb_neq _ 0)) by lia. cbn [mbind option_bind].
  pose proof (LmPaddingToAlign_bound size (alignment a) ltac:(lia) ltac:(lia)).
  pose proof (LmPaddingToAlign_aligned size (alignment a) ltac:(lia) ltac:(lia)).
  rewrite !(u64_small (size + _)), !(u64_small (cur a + _)), (u64_small (mem_ a + _)) by lia.
  destruct (Z.leb_spec (cur a + (size + LmPaddingToAlign size (alignment a))) (cap a)); intros [= <- <-] Hn; [|done].
  cbn [cur at_cur]. split_and!; try lia; apply add_mod_0; try done; lia.
Qed.

(** Where the pages are not clear, or not the arena's. *)
Section Departures.
Let page (n : nat) (fill : Z -> Z) : mem := map_bytes ∅ 65536 (n * 4096) fill.
Let arena (last cap cur : Z) : u_arena := mkArena true false 8 4096 last cap cur 65536.
Let at_byte (r : option (Z * u_arena * mem)) (x : Z) : option Z := '(_, _, m) ← r; m !! x.

(** A first block of two pages: only the first page is cleared. *)
Lemma zalloc_first_large : at_byte (u_arena_zalloc (arena 0 8192 0) 8192 (page 2 (fun _ => 7))) (65536 + 4096) = Some 7.
Proof. vm_compute. reflexivity. Qed.

(** After [u_arena_free] the pages count as clear: the second block holds what
    was written to the one that was there before. *)
Lemma zalloc_after_free : at_byte (u_arena_zalloc (at_cur (u_arena_free (arena 4096 8192 8192)) 4096) 8 (page 2 (fun _ => 7))) (65536 + 4096) = Some 7.
Proof. vm_compute. reflexivity. Qed.

(** A block that does not fit: the page behind the buffer is cleared before the
    sizes are compared. *)
Lemma zalloc_past_end : u_arena_zalloc (arena 0 4096 4096) 8 (page 1 (fun _ => 0)) = None /\
  (u_arena_alloc (arena 0 4096 4096) 8) = Some (NULL, arena 0 4096 4096).
Proof. split; vm_compute; reflexivity. Qed.

(** A buffer of less than a page is written past its end by the first block. *)
Lemma zalloc_small_arena : u_arena_zalloc (arena 0 1024 0) 8 (map_bytes ∅ 65536 1024 (fun _ => 0)) = None.
Proof. vm_compute. reflexivity. Qed.

(** [last_page_start] is not set by [u_arena_init]: in an arena from [malloc] it
    is whatever was there, and then no page counts as new. *)
Lemma create_uninitialised :
  (r ← u_arena_create bump_place (fun _ => 1) 4096 64 8192 true true 8 (mkOs ∅ ∅); (fun '(_, a) => last_page_start a) <$> fst r)
  = Some 72340172838076673.
Proof. vm_compute. reflexivity. Qed.
End Departures.

Lemma zalloc_clears_witness :
  exists p a0 o', u_arena_create bump_place (fun _ => 1) 4096 64 8192 true false 8 (mkOs ∅ ∅) = Some (Some (p, a0), o') /\
    exists ptr a' m', u_arena_zalloc a0 100 (os_mem o') = Some (ptr, a', m') /\ (forall x, ptr <= x < ptr + 104 -> m' !! x = Some 0).
Proof.
  destruct (zalloc_clears bump_place (fun _ => 1) 4096 64 8192 8 (mkOs ∅ ∅) 1 bump_place_fresh) as (p & a0 & o' & E & H0 & Hcap & H);
    [lia|lia|reflexivity|lia|lia|reflexivity|reflexivity|lia|].
  exists p, a0, o'. split; [exact E|].
  destruct (H [] a0 (os_mem o') 100 104) as (ptr & a' & m' & Ez & Hz & _);
    [constructor|lia|reflexivity|rewrite H0; lia|intros _; lia|].
  exists ptr, a', m'. split; [exact Ez|exact Hz].
Defined.

Lemma create_destroy_witness :
  exists p a o1 o2, u_arena_create bump_place (fun _ => 1) 4096 64 64 false true 8 (mkOs ∅ ∅) = Some (Some (p, a), o1) /\
    u_arena_destroy 64 (Some (Some (p, a))) o1 = Some (Some None, o2) /\ os_blocks o2 = ∅.
Proof.
  assert (exists p a o1, u_arena_create bump_place (fun _ => 1) 4096 64 64 false true 8 (mkOs ∅ ∅) = Some (Some (p, a), o1) /\
            mem_ a <> NULL /\ mem_ a <> MAP_FAILED) as (p & a & o1 & E & Hn & Hf).
  { do 3 eexists. split; [vm_compute; reflexivity|]. split; vm_compute; discriminate. }
  destruct (create_destroy bump_place (fun _ => 1) 4096 64 64 8 false true _ o1 p a bump_place_fresh E Hn (fun _ => Hf)) as (o2 & Ed & Hb).
  exists p, a, o1, o2. split; [exact E|]. split; [exact Ed|exact Hb].
Defined.
