(* ===== verification/ThreadArenas.v ===== *)
(** * Thread arenas and scratch regions

    The per-thread table of scratch arenas and the scratch functions, written
    three times in the repository: [src/src/allocators/u_arena.c] (lines
    220-276), [src/src/allocators/karena.c] (183-239) and
    [src/src/sdhs/Sdb.h] (1000-1059).  The table holds arena pointers; its
    array is NULL until the init function has run, and a store or load outside
    the array is a fault.  What differs between the copies is how a scratch
    region reads and resets its arena's position, so the table and its search
    are written once, over any pointer, and closed with each copy's own
    functions. *)

From S2P Require Import Prelude.
From S2P Require Import Memory.
From S2P Require Import UArena.
#[local] Open Scope Z_scope.

(** ** The table *)

Record thread_arenas := mkTas {
  tas_uas : option (list Z);   (* NULL, or the buffer of [max_count] pointers *)
  tas_count : Z;
  tas_max_count : Z;
}.

(** [UA_THREAD_ARENAS_REGISTER(name, count)] *)
Definition thread_arenas_register (count : Z) : thread_arenas := mkTas None 0 count.

(** The table after the init function; the instance pointer designates it. *)
Definition thread_arenas_init (ta_buf : list Z) (tas : thread_arenas) : thread_arenas :=
  mkTas (Some ta_buf) (tas_count tas) (tas_max_count tas).

(** The exit code, and the table; [None] is a store through NULL or past the
    buffer. *)
Definition thread_arenas_add (a : Z) (tas : thread_arenas) : option (Z * thread_arenas) :=
  if tas_count tas + 1 <=? tas_max_count tas then
    uas ← tas_uas tas;
    if (0 <=? tas_count tas) && (tas_count tas <? Z.of_nat (length uas)) then
      Some (0, mkTas (Some (<[Z.to_nat (tas_count tas) := a]> uas)) (tas_count tas + 1)
                 (tas_max_count tas))
    else None
  else Some (1, tas).

(** [for (int j = 0; j < conflict_count; ++j) if (u != conflicts[j]) ... goto exit] *)
Fixpoint differs_from_one (u : Z) (conflicts : list Z) : bool :=
  match conflicts with
  | [] => false
  | c :: conflicts => negb (u =? c) || differs_from_one u conflicts
  end.

(** The loop over [i]: the first arena that the inner loop lets through, NULL
    when there is none. *)
Fixpoint first_free (uas conflicts : list Z) : Z :=
  match uas with
  | [] => NULL
  | u :: uas => if differs_from_one u conflicts then u else first_free uas conflicts
  end.

(** The arena that the search settles on; [conflict_count] is the length of
    [conflicts]. *)
Definition scratch_select (conflicts : list Z) (tas : thread_arenas) : option Z :=
  if 0 <? Z.of_nat (length conflicts) then
    if tas_count tas <=? 0 then Some NULL
    else uas ← tas_uas tas;
         if Z.of_nat (length uas) <? tas_count tas then None
         else Some (first_free (take (Z.to_nat (tas_count tas)) uas) conflicts)
  else
    uas ← tas_uas tas; uas !! 0%nat.

(** ** The [UArena] copy *)

Record UAScratch := mkUAScratch { uas_ua : Z; uas_f5 : Z }.

Definition ua__thread_arenas_init__ := thread_arenas_init.
Definition ua__thread_arenas_add__ := thread_arenas_add.

Definition ua_scratch_begin (ua : Z) : M UAScratch :=
  if ua =? NULL then mret (mkUAScratch NULL 0)
  else cur ← load64 (p_cur ua); mret (mkUAScratch ua cur).

Definition ua_scratch_release (uas : UAScratch) : M unit :=
  ua_seek (uas_ua uas) (uas_f5 uas);; mret tt.

Definition ua__scratch_get__ (conflicts : list Z) (tas : thread_arenas) : M UAScratch :=
  match scratch_select conflicts tas with
  | None => fault
  | Some ua => if ua =? NULL then mret (mkUAScratch NULL 0) else ua_scratch_begin ua
  end.

(** ** Lemmas *)

(** The registered arenas, in order. *)
Definition registered (tas : thread_arenas) : list Z :=
  match tas_uas tas with
  | Some uas => take (Z.to_nat (tas_count tas)) uas
  | None => []
  end.

(** The invariant of a table: [max_count] places, [count] of them in use. *)
Record tas_ok (tas : thread_arenas) : Prop := {
  ok_buf : exists uas, tas_uas tas = Some uas /\ Z.of_nat (length uas) = tas_max_count tas;
  ok_count : 0 <= tas_count tas <= tas_max_count tas;
}.

Lemma differs_from_one_spec u cs :
  differs_from_one u cs = true <-> exists c, c ∈ cs /\ u <> c.
Proof.
  induction cs as [|c cs IH]; cbn.
  - split; [done|]. intros (c & Hc & _). by apply elem_of_nil in Hc.
  - rewrite orb_true_iff, negb_true_iff, Z.eqb_neq, IH. clear IH. split.
    + intros [Hne|(d & Hd & Hne)]; [exists c|exists d]; set_solver.
    + intros (d & [->|Hd]%elem_of_cons & Hne); [by left|right; eauto].
Qed.

(** Two different conflicts cannot both equal the candidate. *)
Lemma differs_from_one_two u cs c d :
  c ∈ cs -> d ∈ cs -> c <> d -> differs_from_one u cs = true.
Proof.
  intros Hc Hd Hne. apply differs_from_one_spec.
  destruct (decide (u = c)) as [->|]; [by exists d|by exists c].
Qed.

Lemma first_free_one uas c :
  first_free uas [c] = match filter (fun u => u <> c) uas with u :: _ => u | [] => NULL end.
Proof.
  induction uas as [|u uas IH]; cbn [first_free]; [done|].
  rewrite filter_cons. cbn. destruct (Z.eqb_spec u c) as [->|Hne]; cbn.
  - rewrite decide_False by tauto. done.
  - by rewrite decide_True.
Qed.

Lemma scratch_select_registered tas c cs :
  tas_ok tas -> scratch_select (c :: cs) tas = Some (first_free (registered tas) (c :: cs)).
Proof.
  intros [(uas & Hb & Hl) Hc]. unfold scratch_select, registered. rewrite Hb.
  rewrite (proj2 (Z.ltb_lt _ _)) by (cbn [length]; lia).
  destruct (Z.leb_spec (tas_count tas) 0).
  - by replace (Z.to_nat (tas_count tas)) with 0%nat by lia.
  - cbn. by rewrite (proj2 (Z.ltb_ge _ _)) by lia.
Qed.

(** Operations that never move the cursor back. *)
Definition growing (o : Bump.op) : Prop :=
  match o with
  | Bump.Alloc _ | Bump.Zalloc _ | Bump.Reserve _ | Bump.Pos => True
  | _ => False
  end.

Lemma growing_step cap cur o :
  growing o -> 0 <= Bump.arg o -> cur <= fst (Bump.step cap cur o).
Proof. intros. destruct o; cbn in *; try done; case_cmp; cbn; lia. Qed.

(** What growing operations can write: the cursor and the free part of the
    buffer. *)
Definition free_footprint (p : Z) (a : UArena) (x : Z) : Prop :=
  p_cur p <= x < p_cur p + 8 \/ ua_mem a + ua_cur a <= x < ua_mem a + ua_cap a.

Lemma growing_run1 m p a o :
  arena_at m p a -> wf_arena m p a -> ua_cap a < 2 ^ 63 -> op_ok o -> growing o ->
  let a' := with_cur a (fst (Bump.step (ua_cap a) (ua_cur a) o)) in
  exists r m', ua_run1 p o m = Some (r, m') /\ arena_at m' p a' /\ wf_arena m' p a' /\
               frame (free_footprint p a) m m'.
Proof.
  intros Ha Hwf Hcap Ho Hg a'.
  pose proof (ua_run1_refines m p a o Ha Hwf Hcap Ho) as H. unfold step_refines in H.
  pose proof (fun m' => ua_run1_wf m p a o m' Hwf Ho) as Hw. fold a' in Hw.
  destruct (Bump.step (ua_cap a) (ua_cur a) o) as [cur res] eqn:Es. cbn [fst] in a'.
  destruct H as (m' & S & A & F). exists (concrete (ua_mem a) res), m'.
  split_and!; [done|done|by apply Hw|].
  assert (Hstore : forall m1, agree_outside (p_cur p) 8 m m1 -> frame (free_footprint p a) m m1).
  { intros m1 Hag. eapply agree_outside_frame; [exact Hag|]. unfold free_footprint. tauto. }
  unfold op_ok in Ho. pose proof (wf_cur _ _ _ Hwf). pose proof (wf_buf _ _ _ Hwf).
  destruct o as [n|n| |n| |n|n]; try done; cbn in Ho, S.
  - destruct (Z.le_gt_cases (ua_cur a +64 n) (ua_cap a)) as [Hf|Hf].
    + destruct (ua_alloc_fits m p a n Ha Hf) as (m1 & S1 & Hag & _).
      rewrite S1 in S. injection S as _ <-. auto.
    + rewrite (ua_alloc_full m p a n Ha Hf) in S. by injection S as _ <-.
  - destruct (Z.le_gt_cases (ua_cur a + n) (ua_cap a)) as [Hf|Hf].
    + destruct (ua_zalloc_fits m p a n Ha Hwf) as (m1 & S1 & _ & _ & F1); [lia..|].
      rewrite S1 in S. injection S as _ <-.
      eapply frame_mono; [exact F1|]. unfold free_footprint. intros x Hx. cbn beta in Hx. lia.
    + rewrite (ua_zalloc_full m p a n Ha) in S by (rewrite u64_small; lia).
      by injection S as _ <-.
  - rewrite (ua_pos_spec m p a Ha) in S. by injection S as _ <-.
  - destruct (ua_reserve_spec m p a n Ha Hwf) as (m1 & S1 & Hag & _); [lia..|].
    rewrite S1 in S. injection S as _ <-. auto.
Qed.

Lemma growing_run ops m p a :
  arena_at m p a -> wf_arena m p a -> ua_cap a < 2 ^ 63 ->
  Forall op_ok ops -> Forall growing ops ->
  exists rs m' c, ua_run p ops m = Some (rs, m') /\ ua_cur a <= c /\
    arena_at m' p (with_cur a c) /\ wf_arena m' p (with_cur a c) /\
    frame (free_footprint p a) m m'.
Proof.
  intros Ha Hwf Hcap Hops Hg. revert m a Ha Hwf Hcap.
  induction Hops as [|o ops Ho Hops IH]; intros m a Ha Hwf Hcap; cbn [ua_run].
  { exists [], m, (ua_cur a). split_and!; [done|lia|by destruct a|by destruct a|reflexivity]. }
  apply Forall_cons in Hg as [Hgo Hg].
  destruct (growing_run1 m p a o Ha Hwf Hcap Ho Hgo) as (r & m1 & S1 & A1 & W1 & F1).
  pose proof (growing_step (ua_cap a) (ua_cur a) o Hgo ltac:(by destruct Ho)) as Hup.
  destruct (IH Hg m1 _ A1 W1 Hcap) as (rs & m2 & c & S2 & Hc & A2 & W2 & F2).
  cbn [with_cur ua_cur ua_cap ua_mem] in *.
  M_step S1. M_step S2. exists (r :: rs), m2, c. split_and!; [done|lia|done|done|].
  etrans; [exact F1|]. eapply frame_mono; [exact F2|].
  unfold free_footprint. cbn [with_cur ua_cur ua_cap ua_mem]. intros x Hx. cbn beta in Hx. lia.
Qed.

(** ** Properties *)

(** A scratch region is transparent.  Between [ua_scratch_begin] and
    [ua_scratch_release] any allocations may be made on the arena; afterwards
    its position is the one from before, and nothing outside the free part of
    the buffer has changed: what the arena's user had allocated is intact. *)
Theorem ua_scratch_transparent (ops : list Bump.op) (m : mem) (p : Z) (a : UArena) :
  arena_at m p a -> wf_arena m p a -> ua_cap a < 2 ^ 63 ->
  Forall op_ok ops -> Forall growing ops ->
  exists rs m',
    (uas ← ua_scratch_begin p; rs ← ua_run p ops; ua_scratch_release uas;; mret rs) m
      = Some (rs, m') /\
    arena_at m' p a /\ wf_arena m' p a /\
    forall x, ~ (ua_mem a + ua_cur a <= x < ua_mem a + ua_cap a) ->
              ~ (p_cur p <= x < p_cur p + 8) -> m' !! x = m !! x.
Proof.
  intros Ha Hwf Hcap Hops Hg. pose proof Ha as (Hp & _ & _ & Hcur & _).
  pose proof (wf_cur _ _ _ Hwf).
  destruct (growing_run ops m p a Ha Hwf Hcap Hops Hg) as (rs & m1 & c & S1 & Hc & A1 & W1 & F1).
  destruct (ua_seek_spec m1 p (with_cur a c) (ua_cur a) A1) as (m2 & S2 & Hag & A2); [cbn; lia|].
  exists rs, m2. split_and!.
  - unfold ua_scratch_begin, ua_scratch_release. rewrite (proj2 (Z.eqb_neq _ _) Hp).
    assert (S0 : (cur ← load64 (p_cur p); mret (mkUAScratch p cur)) m
                 = Some (mkUAScratch p (ua_cur a), m)) by (by M_load Hcur).
    M_step S0. M_step S1. cbn [uas_ua uas_f5].
    unfold mbind, M_bind in *. by rewrite S2.
  - by destruct a.
  - destruct Hwf. split; try done.
    eapply agree_outside_mapped; [exact Hag|]. by eapply frame_mapped.
  - intros x Hx1 Hx2. destruct Hag as [_ Hag]. rewrite Hag by lia.
    destruct F1 as [_ F1]. apply F1. unfold free_footprint. tauto.
Qed.

Lemma ua_scratch_transparent_witness :
  exists rs m',
    (uas ← ua_scratch_begin 1000; rs ← ua_run 1000 [Bump.Zalloc 20; Bump.Reserve 5];
     ua_scratch_release uas;; mret rs) Demo.m0 = Some (rs, m') /\ arena_at m' 1000 Demo.a0.
Proof.
  destruct (ua_scratch_transparent [Bump.Zalloc 20; Bump.Reserve 5] Demo.m0 1000 Demo.a0
              Demo.at0 Demo.wf0) as (rs & m' & S & A & _);
    [reflexivity|repeat constructor; cbn; lia|repeat constructor|].
  exists rs, m'. split; [exact S|exact A].
Defined.

(** [scratch_get] with exactly one conflict selects the first registered
    arena that is not the conflict, and none when there is no such arena. *)
Theorem scratch_get_one_conflict (tas : thread_arenas) (c : Z) :
  tas_ok tas ->
  scratch_select [c] tas =
    Some (match filter (fun u => u <> c) (registered tas) with u :: _ => u | [] => NULL end).
Proof. intros Hok. by rewrite scratch_select_registered, first_free_one. Qed.

Lemma scratch_get_one_conflict_witness :
  scratch_select [1000] (mkTas (Some [1000; 2000; 0]) 2 3) = Some 2000.
Proof.
  rewrite (scratch_get_one_conflict (mkTas (Some [1000; 2000; 0]) 2 3) 1000); [reflexivity|].
  split; [by exists [1000; 2000; 0]|cbn; lia].
Defined.

(** With two different conflicts the search stops at the first registered
    arena, whether or not it is one of them: no arena equals both, so the inner
    loop always finds a conflict to differ from.  A caller that passes two
    arenas in use can be handed one of them as scratch space. *)
Theorem scratch_get_two_conflicts (tas : thread_arenas) (cs : list Z) (c d : Z) :
  tas_ok tas -> c ∈ cs -> d ∈ cs -> c <> d ->
  scratch_select cs tas =
    Some (match registered tas with u :: _ => u | [] => NULL end).
Proof.
  intros Hok Hc Hd Hne. destruct cs as [|c0 cs]; [by apply elem_of_nil in Hc|].
  rewrite scratch_select_registered by done. destruct (registered tas) as [|u us]; [done|].
  cbn [first_free]. by rewrite (differs_from_one_two u _ c d Hc Hd Hne).
Qed.

Lemma scratch_get_two_conflicts_witness :
  scratch_select [1000; 2000] (mkTas (Some [1000; 2000; 3000]) 3 3) = Some 1000.
Proof.
  apply (scratch_get_two_conflicts (mkTas (Some [1000; 2000; 3000]) 3 3) [1000; 2000] 1000 2000).
  - split; [by exists [1000; 2000; 3000]|cbn; lia].
  - set_solver.
  - set_solver.
  - done.
Defined.

(** Registering arenas one by one: the table accepts them in order until it
    holds [max_count], refuses every later one with 1 and no change, and always
    satisfies its invariant. *)
Theorem thread_arenas_add_spec (tas : thread_arenas) (a : Z) :
  tas_ok tas ->
  exists code tas', thread_arenas_add a tas = Some (code, tas') /\ tas_ok tas' /\
    (tas_count tas < tas_max_count tas ->
       code = 0 /\ registered tas' = registered tas ++ [a]) /\
    (tas_count tas = tas_max_count tas -> code = 1 /\ tas' = tas).
Proof.
  intros Hok. pose proof Hok as [(uas & Hb & Hl) Hc]. unfold thread_arenas_add.
  destruct (Z.leb_spec (tas_count tas + 1) (tas_max_count tas)).
  - rewrite Hb. cbn. rewrite (proj2 (andb_true_iff _ _)) by lia.
    eexists 0, _. split; [done|]. split_and!.
    + split; cbn; [|lia]. eexists. split; [done|]. by rewrite length_insert.
    + intros _. split; [done|]. unfold registered. rewrite Hb. cbn.
      replace (Z.to_nat (tas_count tas + 1)) with (S (Z.to_nat (tas_count tas))) by lia.
      rewrite (take_S_r _ _ a) by (apply list_lookup_insert_eq; lia).
      f_equal. apply take_insert_ge. lia.
    + lia.
  - exists 1, tas. split_and!; [done|done|lia|done].
Qed.

Lemma thread_arenas_add_spec_witness :
  exists tas', thread_arenas_add 7 (thread_arenas_init [0; 0] (thread_arenas_register 2)) = Some (0, tas') /\
               registered tas' = [7].
Proof.
  destruct (thread_arenas_add_spec (thread_arenas_init [0; 0] (thread_arenas_register 2)) 7)
    as (code & tas' & S & _ & H & _).
  - split; [by exists [0; 0]|cbn; lia].
  - destruct H as [-> R]; [cbn; lia|]. exists tas'. split; [exact S|exact R].
Defined.
