(* ===== verification/ArenaIface.v ===== *)
(** * The arena interface: [src/src/allocators/sdhs_arena.h]

    The header gives the rest of the program one set of names -- [ArenaAlloc],
    [ArenaPos], [ScratchBegin] and so on -- and a compile-time switch picks the
    implementation behind them, [u_arena.c] or [karena.c].  Here the names are
    the operations of the class [ArenaImpl]; its law is what both
    implementations promise: on calls inside the contract they do what the bump
    allocator of [UArena] does.  [ScratchBegin] and [ScratchRelease] are those of
    the class [ScratchImpl].  The instances for [u_arena.c] are below, those
    for [karena.c] in [KArena]; the scratch regions are proved once, against
    the classes. *)

From S2P Require Import Prelude.
From S2P Require Import Memory.
From S2P Require Import UArena.
From S2P Require Import ThreadArenas.
#[local] Open Scope Z_scope.

(** What a client sees of an arena. *)
Record view := mkView { v_base : Z; v_cap : Z; v_cur : Z }.

Definition view_at (v : view) (cur : Z) : view := mkView (v_base v) (v_cap v) cur.

(** The calls both implementations support: no seek beyond the capacity
    ([karena.c] obeys it), no zeroing allocation that fails ([karena.c] clears
    the result unchecked). *)
Definition in_contract (v : view) (o : Bump.op) : Prop :=
  op_ok o /\
  match o with
  | Bump.Seek p => p <= v_cap v
  | Bump.Zalloc n => v_cur v + n <= v_cap v
  | _ => True
  end.

(** The view after an operation, and its result. *)
Definition view_step (v : view) (o : Bump.op) : view :=
  view_at v (Bump.step (v_cap v) (v_cur v) o).1.

Definition view_result (v : view) (o : Bump.op) : Z :=
  concrete (v_base v) (Bump.step (v_cap v) (v_cur v) o).2.

(** [S]: the state the operations work on; [arena_do h o]: the function that
    [sdhs_arena.h] names for [o], on the handle [h]; [None] is a fault. *)
Class ArenaImpl (S : Type) := {
  arena_do : Z -> Bump.op -> S -> option (Z * S);
  arena_view : S -> Z -> view -> Prop;
  arena_view_cur s h v : arena_view s h v -> 0 <= v_cur v <= v_cap v /\ v_cap v < 2 ^ 63;
  arena_do_spec s h v o :
    arena_view s h v -> in_contract v o ->
    exists s', arena_do h o s = Some (view_result v o, s') /\ arena_view s' h (view_step v o);
}.

Section Clients.
Context {S : Type} `{ArenaImpl S}.

Definition ArenaAlloc (h n : Z) := arena_do h (Bump.Alloc n).
Definition ArenaFree (h : Z) := arena_do h Bump.Free.
Definition ArenaPop (h n : Z) := arena_do h (Bump.Pop n).
Definition ArenaPos (h : Z) := arena_do h Bump.Pos.
Definition ArenaSeek (h p : Z) := arena_do h (Bump.Seek p).
Definition ArenaReserve (h n : Z) := arena_do h (Bump.Reserve n).

(** A sequence of calls on one arena. *)
Fixpoint arena_run (h : Z) (ops : list Bump.op) (s : S) : option (list Z * S) :=
  match ops with
  | [] => Some ([], s)
  | o :: ops =>
      '(r, s) ← arena_do h o s;
      '(rs, s) ← arena_run h ops s;
      Some (r :: rs, s)
  end.

Fixpoint view_run (v : view) (ops : list Bump.op) : view * list Z :=
  match ops with
  | [] => (v, [])
  | o :: ops => let '(v', rs) := view_run (view_step v o) ops in (v', view_result v o :: rs)
  end.

Fixpoint all_in_contract (v : view) (ops : list Bump.op) : Prop :=
  match ops with
  | [] => True
  | o :: ops => in_contract v o /\ all_in_contract (view_step v o) ops
  end.

Lemma arena_run_refines s h v ops :
  arena_view s h v -> all_in_contract v ops ->
  exists s', arena_run h ops s = Some ((view_run v ops).2, s') /\ arena_view s' h (view_run v ops).1.
Proof.
  revert s v. induction ops as [|o ops IH]; intros s v Hv Hc; cbn [arena_run view_run].
  - by exists s.
  - destruct Hc as [Ho Hc]. destruct (arena_do_spec s h v o Hv Ho) as (s1 & -> & Hv1).
    destruct (IH s1 _ Hv1 Hc) as (s2 & E & Hv2). cbn [mbind option_bind]. rewrite E.
    destruct (view_run (view_step v o) ops) as [v' rs]. by exists s2.
Qed.

Lemma view_run_base v ops :
  v_base (view_run v ops).1 = v_base v /\ v_cap (view_run v ops).1 = v_cap v.
Proof.
  revert v. induction ops as [|o ops IH]; intros v; cbn [view_run]; [done|].
  destruct (IH (view_step v o)) as [E1 E2]. by destruct (view_run (view_step v o) ops).
Qed.

End Clients.

(** The two scratch functions that [sdhs_arena.h] names.  Both copies test the
    handle: a region of NULL is not one of an arena, and the laws promise nothing
    for it. *)
Class ScratchImpl (S : Type) `{ArenaImpl S} := {
  SdhsArenaScratch : Type;
  mk_scratch : Z -> Z -> SdhsArenaScratch;          (* the arena, f5 *)
  ScratchBegin : Z -> S -> option (SdhsArenaScratch * S);
  ScratchRelease : SdhsArenaScratch -> S -> option (unit * S);
  ScratchBegin_spec s h v :
    h <> NULL -> arena_view s h v ->
    exists s', ScratchBegin h s = Some (mk_scratch h (v_cur v), s') /\ arena_view s' h v;
  ScratchRelease_spec s h v p :
    arena_view s h v -> 0 <= p <= v_cap v ->
    exists s', ScratchRelease (mk_scratch h p) s = Some (tt, s') /\ arena_view s' h (view_at v p);
}.

Section Scratch.
Context {S : Type} `{ScratchImpl S}.

(** A scratch region around a sequence of calls: what the calls returned. *)
Definition scratch_around (h : Z) (ops : list Bump.op) (s : S) : option (list Z * S) :=
  '(scratch, s) ← ScratchBegin h s;
  '(rs, s) ← arena_run h ops s;
  '(_, s) ← ScratchRelease scratch s;
  Some (rs, s).

(** C19: Scratch regions of an arena whose handle is not NULL are transparent, in
    both implementations.  Take a scratch region of the arena with
    [ScratchBegin], make any sequence of calls inside the contract, release the
    region: the calls returned what the bump allocator returns, and the
    arena is back where it was.  (The kernel's first arena has the handle 0, which
    both functions take for NULL; it is not covered.) *)
Theorem scratch_around_transparent (s : S) (h : Z) (v : view) (ops : list Bump.op) :
  h <> NULL -> arena_view s h v -> all_in_contract v ops ->
  exists s', scratch_around h ops s = Some ((view_run v ops).2, s') /\ arena_view s' h v.
Proof.
  intros Hh Hv Hc. pose proof (arena_view_cur s h v Hv) as Hcur. unfold scratch_around.
  destruct (ScratchBegin_spec s h v Hh Hv) as (s1 & -> & Hv1). cbn [mbind option_bind].
  destruct (arena_run_refines s1 h v ops Hv1 Hc) as (s2 & -> & Hv2). cbn [mbind option_bind].
  destruct (view_run_base v ops) as [Eb Ec].
  destruct (ScratchRelease_spec s2 h _ (v_cur v) Hv2) as (s3 & -> & Hv3); [rewrite Ec; lia|].
  exists s3. split; [done|]. unfold view_at in Hv3. rewrite Eb, Ec in Hv3. by destruct v.
Qed.
End Scratch.

(** ** The implementation of [u_arena.c] *)

Definition ua_view (m : mem) (p : Z) (v : view) : Prop :=
  exists flags, let a := mkUArena flags (v_cap v) (v_cur v) (v_base v) in
  arena_at m p a /\ wf_arena m p a /\ v_cap v < 2 ^ 63.

Lemma ua_view_cur m p v : ua_view m p v -> 0 <= v_cur v <= v_cap v /\ v_cap v < 2 ^ 63.
Proof. intros (flags & _ & Hwf & Hc). split; [exact (wf_cur _ _ _ Hwf)|exact Hc]. Qed.

Lemma ua_do_spec m p v o :
  ua_view m p v -> in_contract v o ->
  exists m', ua_run1 p o m = Some (view_result v o, m') /\ ua_view m' p (view_step v o).
Proof.
  intros (flags & Ha & Hwf & Hc) [Ho _].
  pose proof (ua_run1_refines m p _ o Ha Hwf Hc Ho) as H. unfold step_refines in H.
  pose proof (fun m' => ua_run1_wf m p _ o m' Hwf Ho) as Hwf'.
  unfold view_result, view_step. cbn [ua_cap ua_cur ua_mem] in *.
  destruct (Bump.step (v_cap v) (v_cur v) o) as [cur r]. destruct H as (m' & -> & A & F).
  exists m'. split; [done|]. exists flags. split; [exact A|]. split; [exact (Hwf' m' F)|done].
Qed.

#[global] Instance UArena_impl : ArenaImpl mem := {
  arena_do := ua_run1;
  arena_view := ua_view;
  arena_view_cur := ua_view_cur;
  arena_do_spec := ua_do_spec;
}.

Lemma ua_ScratchBegin_spec m p v :
  p <> NULL -> ua_view m p v -> exists m', ua_scratch_begin p m = Some (mkUAScratch p (v_cur v), m') /\ ua_view m' p v.
Proof.
  intros Hp Hv. exists m. split; [|done]. destruct Hv as (flags & (_ & _ & _ & Hcur & _) & _).
  unfold ua_scratch_begin. rewrite (proj2 (Z.eqb_neq _ _) Hp). cbn [ua_cur] in Hcur. by M_load Hcur.
Qed.

Lemma ua_ScratchRelease_spec m p v c :
  ua_view m p v -> 0 <= c <= v_cap v ->
  exists m', ua_scratch_release (mkUAScratch p c) m = Some (tt, m') /\ ua_view m' p (view_at v c).
Proof.
  intros Hv Hc. destruct (ua_do_spec m p v (Bump.Seek c) Hv) as (m' & E & Hv').
  { pose proof (ua_view_cur _ _ _ Hv). split; [unfold op_ok; cbn; lia|lia]. }
  exists m'. unfold view_step in Hv'. cbn [Bump.step] in Hv'. rewrite (proj2 (Z.leb_le _ _)) in Hv' by lia.
  split; [|exact Hv']. unfold ua_scratch_release. cbn [uas_ua uas_f5 ua_run1] in *. by M_step E.
Qed.

#[global] Instance UArena_scratch : ScratchImpl mem := {
  SdhsArenaScratch := UAScratch;
  mk_scratch := mkUAScratch;
  ScratchBegin := ua_scratch_begin;
  ScratchRelease := ua_scratch_release;
  ScratchBegin_spec := ua_ScratchBegin_spec;
  ScratchRelease_spec := ua_ScratchRelease_spec;
}.

(** Witness of the theorem above, at this implementation. *)
Lemma scratch_around_transparent_witness :
  exists m', scratch_around 1000 [Bump.Alloc 16; Bump.Zalloc 8; Bump.Free; Bump.Reserve 100] Demo.m0
               = Some ([2016; 2032; 0; 64], m') /\ ua_view m' 1000 (mkView 2000 64 16).
Proof.
  destruct (scratch_around_transparent (S := mem) Demo.m0 1000 (mkView 2000 64 16)
              [Bump.Alloc 16; Bump.Zalloc 8; Bump.Free; Bump.Reserve 100]) as (m' & E & H).
  - discriminate.
  - exists 1. split; [exact Demo.at0|split; [exact Demo.wf0|reflexivity]].
  - cbn. unfold in_contract, op_ok. repeat split; cbn; try lia; by vm_compute.
  - exists m'. split; [exact E|exact H].
Defined.
