(* ===== verification/KArenaModule.v ===== *)
(** * The kernel arena: [src/src/modules/karena/karena.c]

    The character device [/dev/karena]: a static table of 100 arenas, an ioctl
    with one handler per command, [mmap] with its page-fault handler, [open]
    and [release].  The kernel state is the table, the device's
    [current_arena_index] and the set of live [vmalloc] blocks.  An operation
    returns [None] where the kernel would be corrupted: an index past the
    table, a [kfree] of an element of the static table, a [vfree] of an address
    that is not a live block.

    The registration of the device ([karena_init], [karena_exit]) is a list of
    the resources held.  Not modelled: the log messages, and the mutex, which
    serialises [find_open_slot] with itself only. *)

From S2P Require Import Prelude.
#[local] Open Scope Z_scope.

(** ** Data *)

(** [struct KArena] *)
Record KSlot := mkKSlot {
  k_size : Z;
  k_cur : Z;
  k_uaddr : Z;
  k_bootstrapped : bool;
  k_kaddr : Z;
  k_owner_pid : Z;
}.

(** [struct ka_data] of [karena.h] *)
Record ka_data := mkKaData { kd_size : Z; kd_arena : Z }.

(** The ioctl commands of [karena.h]; any other code is [KARENA_OTHER]. *)
Inductive karena_cmd :=
  | KARENA_CREATE | KARENA_ALLOC | KARENA_SEEK | KARENA_POP | KARENA_POS
  | KARENA_RESERVE | KARENA_DESTROY | KARENA_SIZE | KARENA_BOOTSTRAP | KARENA_BASE
  | KARENA_OTHER.

#[export] Instance karena_cmd_eq_dec : EqDecision karena_cmd.
Proof. solve_decision. Defined.

Record kstate := mkK {
  karenas : list KSlot;              (* struct KArena karenas[100] *)
  current_arena_index : Z;
  vmallocs : gmap Z Z;               (* live vmalloc blocks: address, size *)
}.

Definition empty_slot : KSlot := mkKSlot 0 0 0 false NULL 0.

(** The module just loaded: the static table is zero. *)
Definition karena_loaded : kstate := mkK (replicate 100 empty_slot) 0 ∅.

Definition PAGE_SHIFT : Z := 12.
Definition PAGE_SIZE : Z := 4096.
(** [((x) + (PAGE_SIZE - 1)) & ~(PAGE_SIZE - 1)] on [unsigned long]. *)
Definition PAGE_ALIGN (x : Z) : Z := Z.ldiff (x +64 (PAGE_SIZE - 1)) (PAGE_SIZE - 1).

Definition set_slot (i : Z) (s : KSlot) (k : kstate) : kstate :=
  mkK (<[Z.to_nat i := s]> (karenas k)) (current_arena_index k) (vmallocs k).

Definition get_slot (i : Z) (k : kstate) : option KSlot :=
  if 0 <=? i then karenas k !! Z.to_nat i else None.

(** The slot with one field assigned. *)
Definition set_uaddr (v : Z) (s : KSlot) : KSlot :=
  mkKSlot (k_size s) (k_cur s) v (k_bootstrapped s) (k_kaddr s) (k_owner_pid s).
Definition set_cur (v : Z) (s : KSlot) : KSlot :=
  mkKSlot (k_size s) v (k_uaddr s) (k_bootstrapped s) (k_kaddr s) (k_owner_pid s).

(** [(unsigned int)-1] *)
Definition NO_SLOT : Z := 2 ^ 32 - 1.

(** [find_open_slot]: the walk of the table from [index]. *)
Fixpoint find_open_from (index : Z) (slots : list KSlot) : Z :=
  match slots with
  | [] => NO_SLOT
  | s :: slots => if negb (k_uaddr s =? 0) then find_open_from (index + 1) slots else index
  end.

Definition find_open_slot (k : kstate) : Z * kstate :=
  let index := find_open_from 0 (karenas k) in
  match get_slot index k with
  | Some s => (index, set_slot index (set_uaddr 1 s) k)
  | None => (NO_SLOT, k)
  end.

(** [vfree(a)]: a fault unless [a] is a live block. *)
Definition vfree (a : Z) (k : kstate) : option kstate :=
  _ ← vmallocs k !! a;
  Some (mkK (karenas k) (current_arena_index k) (delete a (vmallocs k))).

(** ** The handlers that touch one arena only: code, arena, reply *)

Definition handle_arena_alloc (arena : KSlot) (alloc : ka_data) : Z * KSlot * ka_data :=
  if k_cur arena +64 kd_size alloc <=? k_size arena then
    (0, set_cur (k_cur arena +64 kd_size alloc) arena,
     mkKaData (kd_size alloc) (k_uaddr arena +64 k_cur arena))
  else (- ENOMEM, arena, alloc).

Definition handle_arena_seek (arena : KSlot) (alloc : ka_data) : Z * KSlot * ka_data :=
  let arena := set_cur (kd_size alloc) arena in
  (0, arena, mkKaData (kd_size alloc) (k_uaddr arena +64 k_cur arena)).

Definition handle_arena_pop (arena : KSlot) (alloc : ka_data) : Z * KSlot * ka_data :=
  if k_cur arena <? kd_size alloc then (- EFAULT, arena, alloc)
  else (0, set_cur (k_cur arena -64 kd_size alloc) arena, alloc).

Definition handle_arena_pos (arena : KSlot) (alloc : ka_data) : Z * KSlot * ka_data :=
  (0, arena, mkKaData (k_cur arena) (kd_arena alloc)).

Definition handle_arena_reserve (arena : KSlot) (alloc : ka_data) : Z * KSlot * ka_data :=
  if k_size arena <? k_cur arena +64 kd_size alloc then
    (0, arena, mkKaData (k_size arena -64 k_cur arena) (kd_arena alloc))
  else (0, set_cur (k_cur arena +64 kd_size alloc) arena, alloc).

Definition handle_arena_size (arena : KSlot) (alloc : ka_data) : Z * KSlot * ka_data :=
  (0, arena, mkKaData (k_size arena) (kd_arena alloc)).

Definition handle_arena_base (arena : KSlot) (alloc : ka_data) : Z * KSlot * ka_data :=
  (0, arena, mkKaData (kd_size alloc) (k_uaddr arena)).

(** ** The handlers that allocate or release *)

(** [info] is the arena at [index], read before the call. *)
Definition handle_arena_destroy (index : Z) (info : KSlot) (alloc : ka_data) (k : kstate)
    : option (Z * ka_data * kstate) :=
  let alloc := mkKaData (k_size info) (kd_arena alloc) in
  let info := mkKSlot 0 0 0 (k_bootstrapped info) (k_kaddr info) 0 in
  if k_bootstrapped info then
    let info := mkKSlot 0 0 0 false (k_kaddr info) 0 in
    Some (0, mkKaData 0 (kd_arena alloc), set_slot index info k)
  else
    let k := set_slot index info k in
    if negb (k_kaddr info =? NULL) then
      k ← vfree (k_kaddr info) k; Some (0, alloc, k)
    else Some (0, alloc, k).

(** The parent is the arena at [parent]; its cursor moves before a slot for the
    child is looked for. *)
Definition handle_arena_bootstrap (parent : Z) (arena : KSlot) (alloc : ka_data) (k : kstate)
    : option (Z * ka_data * kstate) :=
  if k_size arena -64 k_cur arena <? kd_size alloc then Some (- EFAULT, alloc, k)
  else
    let addr := k_uaddr arena +64 k_cur arena in
    let k := set_slot parent (set_cur (k_cur arena +64 kd_size alloc) arena) k in
    let '(index, k) := find_open_slot k in
    if index =? NO_SLOT then Some (- EFAULT, alloc, k)
    else
      arena ← get_slot parent k;
      let child := mkKSlot (kd_size alloc) 0 addr true (k_kaddr arena) (k_owner_pid arena) in
      Some (0, mkKaData (kd_size alloc) index, set_slot index child k).

Section Kernel.
(** [vmalloc]: the block chosen for a size, [None] when it fails. *)
Variable vplace : kstate -> Z -> option Z.
(** [vmalloc_to_page]. *)
Variable vmalloc_to_page : Z -> option Z.

Definition vmalloc (n : Z) (k : kstate) : Z * kstate :=
  match vplace k n with
  | Some a => (a, mkK (karenas k) (current_arena_index k) (<[a := n]> (vmallocs k)))
  | None => (NULL, k)
  end.

(** [pid] is that of the calling process.  The two [kfree(info)] of the
    error paths free an element of the static table. *)
Definition handle_arena_create (pid : Z) (alloc : ka_data) (k : kstate)
    : option (Z * ka_data * kstate) :=
  let '(index, k) := find_open_slot k in
  if index =? NO_SLOT then Some (- EFAULT, alloc, k)
  else
    info ← get_slot index k;
    let info := mkKSlot (k_size info) 0 0 false (k_kaddr info) pid in
    let k := mkK (karenas (set_slot index info k)) index (vmallocs k) in
    let alloc := mkKaData (kd_size alloc) index in
    let size := PAGE_ALIGN (kd_size alloc) in
    if size =? 0 then None
    else
      let alloc := mkKaData size index in
      let '(kaddr, k) := vmalloc size k in
      if kaddr =? NULL then None
      else Some (0, alloc, set_slot index (mkKSlot size 0 0 false kaddr pid) k).

Definition on_slot (h : KSlot -> ka_data -> Z * KSlot * ka_data)
    (index : Z) (info : KSlot) (alloc : ka_data) (k : kstate) : option (Z * ka_data * kstate) :=
  let '(ret, info, alloc) := h info alloc in Some (ret, alloc, set_slot index info k).

(** [user]: the argument read by [copy_from_user] ([None] when that fails);
    [copy_out]: whether [copy_to_user] succeeds.  The result is the return
    value and, when one is written back, the reply. *)
Definition karena_ioctl (cmd : karena_cmd) (pid : Z) (user : option ka_data) (copy_out : bool)
    (k : kstate) : option (Z * option ka_data * kstate) :=
  match user with
  | None => Some (- EFAULT, None, k)
  | Some alloc =>
      let index := kd_arena alloc in
      '(ret, alloc, k) ←
        (match cmd with
         | KARENA_CREATE => handle_arena_create pid alloc k
         | KARENA_OTHER => Some (- ENOTTY, alloc, k)
         | KARENA_ALLOC => info ← get_slot index k; on_slot handle_arena_alloc index info alloc k
         | KARENA_SEEK => info ← get_slot index k; on_slot handle_arena_seek index info alloc k
         | KARENA_POP => info ← get_slot index k; on_slot handle_arena_pop index info alloc k
         | KARENA_POS => info ← get_slot index k; on_slot handle_arena_pos index info alloc k
         | KARENA_RESERVE => info ← get_slot index k; on_slot handle_arena_reserve index info alloc k
         | KARENA_DESTROY => info ← get_slot index k; handle_arena_destroy index info alloc k
         | KARENA_SIZE => info ← get_slot index k; on_slot handle_arena_size index info alloc k
         | KARENA_BOOTSTRAP => info ← get_slot index k; handle_arena_bootstrap index info alloc k
         | KARENA_BASE => info ← get_slot index k; on_slot handle_arena_base index info alloc k
         end);
      if negb (ret =? 0) then Some (ret, None, k)
      else if bool_decide (cmd = KARENA_POP) || bool_decide (cmd = KARENA_DESTROY)
      then Some (0, None, k)
      else if copy_out then Some (0, Some alloc, k) else Some (- EFAULT, None, k)
  end.

(** ** Mapping *)

(** The fields of [struct vm_area_struct] that the driver reads. *)
Record vma := mkVma { vm_start : Z; vm_end : Z; vm_pgoff : Z }.

(** The return value and the arena stored in [vm_private_data]. *)
Definition karena_mmap (v : vma) (k : kstate) : option (Z * option Z * kstate) :=
  let arena_index := current_arena_index k in
  arena ← get_slot arena_index k;
  if negb (k_uaddr arena =? 0) then Some (- EINVAL, None, k)
  else if k_size arena <? vm_end v -64 vm_start v then Some (- EINVAL, None, k)
  else if negb (vm_pgoff v =? 0) then Some (- EINVAL, None, k)
  else Some (0, Some arena_index, set_slot arena_index (set_uaddr (vm_start v) arena) k).

(** [private]: the arena of the area, [None] for NULL; the result is the page
    mapped, [None] for [VM_FAULT_SIGBUS]. *)
Definition karena_vm_fault (private : option Z) (pgoff : Z) (k : kstate) : option Z :=
  index ← private;
  arena ← get_slot index k;
  let offset := u64 (Z.shiftl pgoff PAGE_SHIFT) in
  if k_size arena <=? offset then None
  else vmalloc_to_page (k_kaddr arena +64 offset).

(** ** Open and release *)

Definition dev_open (k : kstate) : Z * kstate :=
  (0, mkK (karenas k) (2 ^ 64 - 1) (vmallocs k)).

(** The loop of [dev_release] from index [i], [n] arenas left. *)
Fixpoint dev_release_from (pid i : Z) (n : nat) (k : kstate) : option (Z * kstate) :=
  match n with
  | O => Some (0, k)
  | S n =>
      s ← get_slot i k;
      if negb (k_uaddr s =? 0) && (k_owner_pid s =? pid) then
        let s' := mkKSlot 0 0 0 (k_bootstrapped s) (k_kaddr s) 0 in
        if k_bootstrapped s then
          Some (0, set_slot i (mkKSlot 0 0 0 false (k_kaddr s) 0) k)
        else if negb (k_kaddr s =? NULL) then
          k ← vfree (k_kaddr s) (set_slot i s' k);
          dev_release_from pid (i + 1) n (set_slot i (mkKSlot 0 0 0 false NULL 0) k)
        else dev_release_from pid (i + 1) n (set_slot i s' k)
      else dev_release_from pid (i + 1) n k
  end.

Definition dev_release (pid : Z) (k : kstate) : option (Z * kstate) :=
  dev_release_from pid 0 100 k.
End Kernel.

(** ** Loading and unloading the module *)

(** What the module holds of the kernel: the newest first. *)
Inductive resource := Chrdev_region | Dev_class | Dev_node | Cdev_entry.

#[export] Instance resource_eq_dec : EqDecision resource.
Proof. solve_decision. Defined.

(** Giving back something that is not held is a fault. *)
Fixpoint release_resource (r : resource) (held : list resource) : option (list resource) :=
  match held with
  | [] => None
  | s :: held =>
      if decide (r = s) then Some held
      else held ← release_resource r held; Some (s :: held)
  end.

(** [alloc_chrdev_region], [device_create] and [cdev_add] succeed or not;
    [class_create] may return an error pointer. *)
Record registration := mkReg {
  reg_region : bool;
  reg_class : option Z;      (* the error, if it is one *)
  reg_device : bool;
  reg_cdev : bool;
}.

Definition karena_init (env : registration) (held : list resource) : option (Z * list resource) :=
  if negb (reg_region env) then Some (- ENOMEM, held)
  else
    let held := Chrdev_region :: held in
    match reg_class env with
    | Some e => held ← release_resource Chrdev_region held; Some (e, held)
    | None =>
        let held := Dev_class :: held in
        if negb (reg_device env) then
          held ← release_resource Dev_class held;
          held ← release_resource Chrdev_region held;
          Some (-1, held)
        else
          let held := Dev_node :: held in
          if negb (reg_cdev env) then
            held ← release_resource Dev_node held;
            held ← release_resource Dev_class held;
            held ← release_resource Chrdev_region held;
            Some (-1, held)
          else Some (0, Cdev_entry :: held)
    end.

Definition karena_exit (held : list resource) : option (list resource) :=
  held ← release_resource Cdev_entry held;
  held ← release_resource Dev_node held;
  held ← release_resource Dev_class held;
  release_resource Chrdev_region held.

Lemma release_newest r held : release_resource r (r :: held) = Some held.
Proof. cbn. by rewrite decide_True. Qed.

(** Loading either fails with a negative code and holds nothing more than
    before, or succeeds and unloading gives back all it took. *)
Lemma karena_init_exit env held :
  (forall e, reg_class env = Some e -> e < 0) ->
  exists ret held', karena_init env held = Some (ret, held') /\
    if ret =? 0 then karena_exit held' = Some held else ret < 0 /\ held' = held.
Proof.
  intros He. destruct env as [[] [e|] [] []]; unfold karena_init;
    cbn [reg_region reg_class reg_device reg_cdev negb];
    repeat (rewrite release_newest; cbn [mbind option_bind]); do 2 eexists; (split; [reflexivity|]);
    try by vm_compute.
  all: specialize (He e eq_refl); rewrite (proj2 (Z.eqb_neq e 0)) by lia; by split.
Qed.

(** ** The invariant of the table *)

(** An arena that owns a [vmalloc] block. *)
Definition owner_slot (s : KSlot) : Prop := 0 < k_size s /\ k_bootstrapped s = false.

Record slot_ok (s : KSlot) : Prop := {
  slot_cur : 0 <= k_cur s <= k_size s;
  slot_size : k_size s < 2 ^ 64;
  slot_mapped : k_uaddr s <> 0 -> k_bootstrapped s = false -> 0 < k_size s;
}.

Record kinv (k : kstate) : Prop := {
  inv_len : length (karenas k) = 100%nat;
  inv_slots : forall i s, karenas k !! i = Some s -> slot_ok s;
  inv_backed : forall i s, karenas k !! i = Some s -> owner_slot s ->
                 k_kaddr s <> NULL /\ vmallocs k !! k_kaddr s = Some (k_size s);
  inv_distinct : forall i j s t, i <> j -> karenas k !! i = Some s -> karenas k !! j = Some t ->
                   owner_slot s -> owner_slot t -> k_kaddr s <> k_kaddr t;
}.

Lemma get_slot_range i k s :
  get_slot i k = Some s -> 0 <= i /\ karenas k !! Z.to_nat i = Some s.
Proof. unfold get_slot. destruct (Z.leb_spec 0 i); [done|done]. Qed.

Lemma get_slot_is_Some i k : kinv k -> 0 <= i < 100 -> exists s, get_slot i k = Some s.
Proof.
  intros Hk Hi. unfold get_slot. rewrite (proj2 (Z.leb_le _ _)) by lia.
  apply lookup_lt_is_Some_2. rewrite (inv_len _ Hk). lia.
Qed.

Lemma get_slot_is_Some_len i k :
  (Z.to_nat i < length (karenas k))%nat -> 0 <= i -> exists s, get_slot i k = Some s.
Proof.
  intros Hl Hi. unfold get_slot. rewrite (proj2 (Z.leb_le _ _)) by lia.
  by apply lookup_lt_is_Some_2.
Qed.

Lemma set_slot_lookup i s k j :
  (j < length (karenas k))%nat -> 0 <= i ->
  karenas (set_slot i s k) !! j = if decide (j = Z.to_nat i) then Some s else karenas k !! j.
Proof.
  intros Hj Hi. cbn. case_decide as H.
  - subst j. by apply list_lookup_insert_eq.
  - by apply list_lookup_insert_ne.
Qed.

Lemma get_set_slot i s k s0 : get_slot i k = Some s0 -> get_slot i (set_slot i s k) = Some s.
Proof.
  intros [Hi Hl]%get_slot_range. unfold get_slot. rewrite (proj2 (Z.leb_le _ _)) by lia.
  rewrite set_slot_lookup by (try lia; by eapply lookup_lt_Some). by rewrite decide_True.
Qed.

(** Replacing one arena. *)
Lemma kinv_set_slot i s s0 k :
  kinv k -> get_slot i k = Some s0 -> slot_ok s ->
  (owner_slot s -> k_kaddr s <> NULL /\ vmallocs k !! k_kaddr s = Some (k_size s) /\
     forall j t, j <> Z.to_nat i -> karenas k !! j = Some t -> owner_slot t -> k_kaddr t <> k_kaddr s) ->
  kinv (set_slot i s k).
Proof.
  intros Hk Hg Hs Ho. destruct (get_slot_range _ _ _ Hg) as [Hi Hl].
  assert (Hlk : forall j t, karenas (set_slot i s k) !! j = Some t ->
            (j = Z.to_nat i /\ t = s) \/ (j <> Z.to_nat i /\ karenas k !! j = Some t)).
  { intros j t Hj. assert (Hlt := lookup_lt_Some _ _ _ Hj). cbn in Hlt.
    rewrite length_insert in Hlt. rewrite set_slot_lookup in Hj by done.
    case_decide; [left; by injection Hj as <-|by right]. }
  split.
  - cbn. rewrite length_insert. apply (inv_len _ Hk).
  - intros j t [[-> ->]|[_ Hj]]%Hlk; [done|by eapply inv_slots].
  - intros j t [[-> ->]|[_ Hj]]%Hlk Hot; [by destruct (Ho Hot) as (? & ? & _)|].
    by eapply (inv_backed _ Hk).
  - intros j1 j2 t1 t2 Hne [[-> ->]|[N1 H1]]%Hlk [[-> ->]|[N2 H2]]%Hlk O1 O2.
    + done.
    + destruct (Ho O1) as (_ & _ & H). intros E. by apply (H j2 t2 N2 H2 O2).
    + destruct (Ho O2) as (_ & _ & H). by apply (H j1 t1 N1 H1 O1).
    + by eapply (inv_distinct _ Hk j1 j2).
Qed.

(** The arena keeps its block and its size. *)
Lemma kinv_same_block i s s0 k :
  kinv k -> get_slot i k = Some s0 -> slot_ok s ->
  k_size s = k_size s0 -> k_bootstrapped s = k_bootstrapped s0 -> k_kaddr s = k_kaddr s0 ->
  kinv (set_slot i s k).
Proof.
  intros Hk Hg Hs E1 E2 E3. apply (kinv_set_slot i s s0); [done..|].
  destruct (get_slot_range _ _ _ Hg) as [Hi Hl].
  intros Ho. assert (Ho0 : owner_slot s0) by (unfold owner_slot in *; by rewrite <- E1, <- E2).
  destruct (inv_backed _ Hk _ _ Hl Ho0) as [??]. rewrite E3, E1. split_and!; [done|done|].
  intros j t Hne Hj Hot. by eapply (inv_distinct _ Hk j (Z.to_nat i)).
Qed.

(** The arena gives up its block, if it had one. *)
Lemma kinv_drop i s s0 k :
  kinv k -> get_slot i k = Some s0 -> slot_ok s -> ~ owner_slot s -> kinv (set_slot i s k).
Proof. intros Hk Hg Hs Hn. by apply (kinv_set_slot i s s0). Qed.

Lemma get_slot_ok i k s : kinv k -> get_slot i k = Some s -> slot_ok s.
Proof. intros Hk [_ Hl]%get_slot_range. by eapply inv_slots. Qed.

(** Releasing the block of an arena whose entry is being emptied. *)
Lemma kinv_free_slot i s s' k :
  kinv k -> get_slot i k = Some s -> owner_slot s -> slot_ok s' -> ~ owner_slot s' ->
  exists k1, vfree (k_kaddr s) (set_slot i s' k) = Some k1 /\ kinv k1 /\
             karenas k1 = karenas (set_slot i s' k) /\ vmallocs k1 = delete (k_kaddr s) (vmallocs k).
Proof.
  intros Hk Hg Hown Hs' Hn. destruct (get_slot_range _ _ _ Hg) as [_ Hl].
  destruct (inv_backed _ Hk _ _ Hl Hown) as [Ha Hb].
  unfold vfree. cbn. rewrite Hb. cbn. eexists. split; [done|]. split; [|done].
  assert (K1 : kinv (set_slot i s' k)) by (by apply (kinv_drop i s' s)).
  destruct K1 as [L1 S1 B1 D1]. split; [done|done| |done].
  intros j t Hj Ho. destruct (B1 j t Hj Ho) as [? Hbt]. split; [done|]. cbn in *.
  rewrite lookup_delete_ne; [done|]. intros E.
  destruct (decide (j = Z.to_nat i)) as [->|Hne].
  - rewrite list_lookup_insert_eq in Hj by (by eapply lookup_lt_Some). by injection Hj as <-.
  - rewrite list_lookup_insert_ne in Hj by done. by eapply (inv_distinct _ Hk _ _ _ _ Hne Hj Hl).
Qed.

(** *** [find_open_slot] *)

Lemma find_open_from_spec slots index :
  0 <= index -> index + Z.of_nat (length slots) <= NO_SLOT ->
  (find_open_from index slots = NO_SLOT /\ Forall (fun s => k_uaddr s <> 0) slots) \/
  (exists n s, slots !! n = Some s /\ k_uaddr s = 0 /\
     find_open_from index slots = index + Z.of_nat n /\
     Forall (fun s => k_uaddr s <> 0) (take n slots)).
Proof.
  revert index; induction slots as [|s slots IH]; intros index Hi Hb; cbn [find_open_from length] in *.
  { by left. }
  destruct (Z.eqb_spec (k_uaddr s) 0) as [H0|H0]; cbn [negb].
  - right. exists 0%nat, s. split_and!; [done|done|lia|constructor].
  - destruct (IH (index + 1)) as [[-> Hf]|(n & t & Hn & Ht & -> & Hf)]; [lia..| |].
    + left. split; [done|by constructor].
    + right. exists (S n), t. cbn. split_and!; [done|done|lia|by constructor].
Qed.

(** The first open slot is determined by the entries up to it. *)
Lemma find_open_from_at slots index n s :
  slots !! n = Some s -> k_uaddr s = 0 -> Forall (fun s => k_uaddr s <> 0) (take n slots) ->
  find_open_from index slots = index + Z.of_nat n.
Proof.
  revert index n; induction slots as [|t slots IH]; intros index [|n] Hn H0 Hf; try done; cbn in Hn.
  - injection Hn as ->. cbn [find_open_from]. rewrite H0. cbn. lia.
  - cbn in Hf. apply Forall_cons in Hf as [Ht Hf]. cbn [find_open_from].
    rewrite (proj2 (Z.eqb_neq _ _) Ht). cbn [negb]. rewrite (IH (index + 1) n) by done. lia.
Qed.

(** A slot is found and reserved, or the table is full and unchanged. *)
Lemma find_open_slot_spec k :
  length (karenas k) = 100%nat ->
  (find_open_slot k = (NO_SLOT, k) /\ Forall (fun s => k_uaddr s <> 0) (karenas k)) \/
  (exists index s, find_open_slot k = (index, set_slot index (set_uaddr 1 s) k) /\
     get_slot index k = Some s /\ k_uaddr s = 0 /\ 0 <= index < 100).
Proof.
  intros Hlen. unfold find_open_slot.
  destruct (find_open_from_spec (karenas k) 0) as [[-> Hf]|(n & s & Hn & H0 & -> & _)];
    [lia|rewrite Hlen; unfold NO_SLOT; lia| |].
  - left. split; [|done]. unfold get_slot. cbn [Z.leb Z.compare NO_SLOT].
    by rewrite lookup_ge_None_2 by (rewrite Hlen; unfold NO_SLOT; lia).
  - right. exists (0 + Z.of_nat n), s. apply lookup_lt_Some in Hn as Hlt.
    unfold get_slot. rewrite (proj2 (Z.leb_le _ _)) by lia.
    replace (Z.to_nat (0 + Z.of_nat n)) with n by lia. rewrite Hn. split_and!; done || lia.
Qed.

(** Writing an unmapped arena into the slot just found leaves it the first
    open one. *)
Lemma find_open_slot_again k i s t k' :
  length (karenas k) = 100%nat -> find_open_slot k = (i, set_slot i (set_uaddr 1 s) k) ->
  get_slot i k = Some s -> 0 <= i < 100 -> k_uaddr t = 0 ->
  karenas k' = <[Z.to_nat i := t]> (karenas k) ->
  find_open_slot k' = (i, set_slot i (set_uaddr 1 t) k') /\ get_slot i k' = Some t.
Proof.
  intros Hlen Hf Hg Hi Ht E. destruct (get_slot_range _ _ _ Hg) as [_ Hl].
  assert (Hgt : get_slot i k' = Some t).
  { unfold get_slot. rewrite (proj2 (Z.leb_le _ _)), E by lia. apply list_lookup_insert_eq.
    by eapply lookup_lt_Some. }
  split; [|done]. unfold find_open_slot.
  assert (Hi' : find_open_from 0 (karenas k') = i).
  { destruct (find_open_from_spec (karenas k) 0) as [[E1 _]|(n & s' & Hn & H0 & E1 & Hall)];
      [lia|rewrite Hlen; unfold NO_SLOT; lia| |]; unfold find_open_slot in Hf; rewrite E1 in Hf.
    - destruct (get_slot NO_SLOT k); injection Hf as Hf _; unfold NO_SLOT in Hf; lia.
    - assert (n = Z.to_nat i).
      { apply lookup_lt_Some in Hn. destruct (get_slot _ k); injection Hf as Hf _; [lia|].
        unfold NO_SLOT in Hf; lia. }
      subst n. rewrite E. rewrite (find_open_from_at _ 0 (Z.to_nat i) t); [lia| |done|].
      + apply list_lookup_insert_eq. by eapply lookup_lt_Some.
      + by rewrite take_insert_ge by lia. }
  by rewrite Hi', Hgt.
Qed.

Lemma set_slot_twice i s t k : set_slot i s (set_slot i t k) = set_slot i s k.
Proof. unfold set_slot; cbn. by rewrite list_insert_insert_eq. Qed.

(** *** [PAGE_ALIGN] and the local handlers *)

Lemma PAGE_ALIGN_spec x :
  0 <= x -> x + 4095 < 2 ^ 64 -> PAGE_ALIGN x = 4096 * ((x + 4095) / 4096).
Proof.
  intros. unfold PAGE_ALIGN, PAGE_SIZE. rewrite u64_small by lia.
  change (4096 - 1) with (Z.ones 12). rewrite Z.ldiff_ones_r by lia.
  rewrite Z.shiftl_mul_pow2, Z.shiftr_div_pow2 by lia.
  change (Z.ones 12) with 4095. change (2 ^ 12) with 4096. lia.
Qed.

Lemma PAGE_ALIGN_range x : 0 <= PAGE_ALIGN x < 2 ^ 64.
Proof.
  unfold PAGE_ALIGN, PAGE_SIZE. pose proof (u64_range (x + (4096 - 1))) as H.
  set (y := u64 _) in *. change (4096 - 1) with (Z.ones 12). rewrite Z.ldiff_ones_r by lia.
  rewrite Z.shiftl_mul_pow2, Z.shiftr_div_pow2 by lia.
  pose proof (Z.div_mod y (2 ^ 12) ltac:(lia)). pose proof (Z.mod_pos_bound y (2 ^ 12) ltac:(lia)).
  assert (0 <= y / 2 ^ 12) by (apply Z.div_pos; lia). lia.
Qed.

Lemma slot_ok_set_cur s c : slot_ok s -> 0 <= c <= k_size s -> slot_ok (set_cur c s).
Proof. intros [] Hc. by split. Qed.

(** A local handler that leaves the arena well formed and does not touch its
    block. *)
Definition local_ok (h : KSlot -> ka_data -> Z * KSlot * ka_data) (s : KSlot) (d : ka_data) : Prop :=
  let '(_, s', _) := h s d in
  slot_ok s' /\ k_size s' = k_size s /\ k_bootstrapped s' = k_bootstrapped s /\
  k_kaddr s' = k_kaddr s.

Lemma on_slot_inv h i s d k :
  kinv k -> get_slot i k = Some s -> local_ok h s d ->
  exists ret d' k', on_slot h i s d k = Some (ret, d', k') /\ kinv k'.
Proof.
  intros Hk Hg Hl. unfold local_ok, on_slot in *.
  destruct (h s d) as [[ret s'] d'] eqn:E. destruct Hl as (Hs & E1 & E2 & E3).
  eexists _, _, _. split; [done|]. by eapply kinv_same_block.
Qed.

Lemma handlers_local_ok s d :
  slot_ok s -> 0 <= kd_size d < 2 ^ 64 ->
  local_ok handle_arena_alloc s d /\ local_ok handle_arena_pop s d /\
  local_ok handle_arena_pos s d /\ local_ok handle_arena_reserve s d /\
  local_ok handle_arena_size s d /\ local_ok handle_arena_base s d /\
  (kd_size d <= k_size s -> local_ok handle_arena_seek s d).
Proof.
  intros Hs Hd. pose proof Hs as [Hc Hz _].
  pose proof (u64_range (k_cur s + kd_size d)).
  unfold local_ok, handle_arena_alloc, handle_arena_pop, handle_arena_pos, handle_arena_reserve,
    handle_arena_size, handle_arena_base, handle_arena_seek.
  split_and!; case_cmp; cbn; intros; split_and?; try done; apply slot_ok_set_cur; try done;
    try (rewrite u64_small; lia); lia.
Qed.

(** ** The events of a well-behaved user, and the faults they avoid *)

Section Safety.
Context (vplace : kstate -> Z -> option Z).

(** What [vmalloc] promises: it may fail, but a block that it grants is not
    live. *)
Definition vmalloc_fresh : Prop :=
  forall k n a, vplace k n = Some a -> a <> NULL /\ vmallocs k !! a = None.

(** [vmalloc] that never fails. *)
Definition vmalloc_works : Prop :=
  forall k n, exists a, vplace k n = Some a /\ a <> NULL /\ vmallocs k !! a = None.

Lemma vmalloc_works_fresh : vmalloc_works -> vmalloc_fresh.
Proof. intros Hv k n a E. destruct (Hv k n) as (a' & E' & H). rewrite E in E'. by simplify_eq. Qed.

(** [vmalloc] fails for a size while the blocks of [k] are live. *)
Definition vmalloc_refuses (k : kstate) (n : Z) : Prop :=
  exists k', vmallocs k' = vmallocs k /\ vplace k' n = None.

Context (Hv : vmalloc_fresh).

Definition req_ok (k : kstate) (cmd : karena_cmd) (d : ka_data) : Prop :=
  0 <= kd_size d < 2 ^ 64 /\
  match cmd with
  | KARENA_CREATE => PAGE_ALIGN (kd_size d) <> 0
  | KARENA_OTHER => True
  | KARENA_SEEK => exists s, get_slot (kd_arena d) k = Some s /\ kd_size d <= k_size s
  | KARENA_DESTROY => exists s, get_slot (kd_arena d) k = Some s /\
                        (k_bootstrapped s = true \/ 0 < k_size s)
  | _ => 0 <= kd_arena d < 100
  end.

(** A successful create: the arena in the first open slot, its block fresh. *)
Definition create_result (k : kstate) (i pid size a : Z) : kstate :=
  mkK (<[Z.to_nat i := mkKSlot size 0 0 false a pid]> (karenas k)) i (<[a := size]> (vmallocs k)).

(** With an open slot a create gets its block, or frees an element of the
    static table. *)
Lemma create_cases pid d k i s :
  find_open_slot k = (i, set_slot i (set_uaddr 1 s) k) -> get_slot i k = Some s -> 0 <= i < 100 ->
  PAGE_ALIGN (kd_size d) <> 0 ->
  (handle_arena_create vplace pid d k = None /\ vmalloc_refuses k (PAGE_ALIGN (kd_size d))) \/
  exists a, handle_arena_create vplace pid d k =
              Some (0, mkKaData (PAGE_ALIGN (kd_size d)) i, create_result k i pid (PAGE_ALIGN (kd_size d)) a) /\
            a <> NULL /\ vmallocs k !! a = None.
Proof.
  intros Hf Hg Hi Hsz. unfold handle_arena_create. rewrite Hf.
  rewrite (proj2 (Z.eqb_neq _ _)) by (unfold NO_SLOT; lia).
  rewrite (get_set_slot _ _ _ _ Hg). cbn [mbind option_bind kd_size kd_arena].
  rewrite (proj2 (Z.eqb_neq _ _) Hsz).
  unfold vmalloc. cbn [karenas set_slot current_arena_index vmallocs k_size k_kaddr set_uaddr].
  rewrite !list_insert_insert_eq.
  match goal with |- context [vplace ?k1 _] => destruct (vplace k1 (PAGE_ALIGN (kd_size d))) as [a|] eqn:E; [right|left] end.
  - destruct (Hv _ _ _ E) as [Ha Hfr].
    rewrite (proj2 (Z.eqb_neq _ _) Ha). cbn in Hfr |- *. unfold set_slot; cbn.
    rewrite list_insert_insert_eq. by exists a.
  - split; [done|]. eexists. by split; [|exact E].
Qed.

Lemma create_result_inv k i pid size a s :
  kinv k -> get_slot i k = Some s -> 0 <= size < 2 ^ 64 -> a <> NULL -> vmallocs k !! a = None ->
  kinv (create_result k i pid size a).
Proof.
  intros Hk Hg Hsz Ha Hf.
  assert (K1 : kinv (set_slot i empty_slot k)).
  { apply (kinv_drop i _ s); [done..| |]; [by split; cbn; lia|intros [H1 _]; cbn in H1; lia]. }
  assert (K2 : kinv (mkK (karenas (set_slot i empty_slot k)) i (<[a := size]> (vmallocs k)))).
  { destruct K1 as [L1 S1 B1 D1]. split; [done|done| |done].
    intros j t Hj Ho. destruct (B1 j t Hj Ho) as [? Hb]. split; [done|]. cbn in *.
    rewrite lookup_insert_ne; [done|]. intros ->. by rewrite Hf in Hb. }
  assert (K3 := kinv_set_slot i (mkKSlot size 0 0 false a pid) empty_slot _ K2).
  unfold set_slot in K3; cbn in K3. rewrite list_insert_insert_eq in K3. apply K3.
  - apply (get_set_slot i _ k s Hg).
  - split; cbn; lia.
  - intros _. split_and!; [done|by rewrite lookup_insert_eq|].
    intros j t Hne Hj Ho. destruct (inv_backed _ K1 j t Hj Ho) as [_ Hb]. intros E.
    cbn in Hb. by rewrite E, Hf in Hb.
Qed.

Lemma create_inv pid d k :
  kinv k -> PAGE_ALIGN (kd_size d) <> 0 ->
  (handle_arena_create vplace pid d k = None /\ vmalloc_refuses k (PAGE_ALIGN (kd_size d))) \/
  exists ret d' k', handle_arena_create vplace pid d k = Some (ret, d', k') /\ kinv k'.
Proof.
  intros Hk Hsz. destruct (find_open_slot_spec k (inv_len _ Hk)) as [[Hf _]|(i & s & Hf & Hg & Hu & Hi)].
  { right. unfold handle_arena_create. rewrite Hf. cbn. eauto. }
  destruct (create_cases pid d k i s Hf Hg Hi Hsz) as [?|(a & -> & Ha & Hfr)]; [by left|right].
  eexists _, _, _. split; [done|]. eapply create_result_inv; eauto using PAGE_ALIGN_range.
Qed.

Lemma destroy_inv i s d k :
  kinv k -> get_slot i k = Some s -> k_bootstrapped s = true \/ 0 < k_size s ->
  exists ret d' k', handle_arena_destroy i s d k = Some (ret, d', k') /\ kinv k'.
Proof.
  intros Hk Hg Hs. destruct (get_slot_range _ _ _ Hg) as [_ Hl].
  unfold handle_arena_destroy. cbn [k_bootstrapped k_kaddr].
  destruct (k_bootstrapped s) eqn:Eb.
  - eexists _, _, _. split; [done|]. eapply kinv_drop; [done..| |]; [by split; cbn; lia|].
    intros [H _]; cbn in H; lia.
  - destruct Hs as [|Hpos]; [done|]. destruct (inv_backed _ Hk _ _ Hl) as [Ha Hb]; [done|].
    rewrite (proj2 (Z.eqb_neq _ _) Ha).
    destruct (kinv_free_slot i s (mkKSlot 0 0 0 false (k_kaddr s) 0) k) as (k1 & -> & K1 & _);
      [done..|by split; cbn; lia|intros [H _]; cbn in H; lia|]. cbn. eauto.
Qed.

Lemma bootstrap_inv i s d k :
  kinv k -> get_slot i k = Some s -> 0 <= kd_size d ->
  exists ret d' k', handle_arena_bootstrap i s d k = Some (ret, d', k') /\ kinv k'.
Proof.
  intros Hk Hg Hd. pose proof (get_slot_ok _ _ _ Hk Hg) as Hs. pose proof Hs as [Hc Hz _].
  unfold handle_arena_bootstrap. rewrite u64_small by lia.
  destruct (Z.ltb_spec (k_size s - k_cur s) (kd_size d)); [by eauto|].
  rewrite (u64_small (k_cur s + kd_size d)) by lia.
  set (k1 := set_slot i _ k).
  assert (K1 : kinv k1).
  { eapply kinv_same_block; [done..| |done|done|done]. apply slot_ok_set_cur; [done|lia]. }
  destruct (find_open_slot_spec k1 (inv_len _ K1)) as [[-> _]|(j & t & -> & Hgj & Hu & Hj)]; [by cbn; eauto|].
  rewrite (proj2 (Z.eqb_neq _ _)) by (unfold NO_SLOT; lia).
  set (k2 := set_slot j _ k1).
  assert (Hgi : exists s2, get_slot i k2 = Some s2).
  { apply get_slot_range in Hg as [Hi Hl]. unfold get_slot, k2, k1. rewrite (proj2 (Z.leb_le _ _)) by lia.
    apply lookup_lt_is_Some_2. cbn. rewrite !length_insert. by eapply lookup_lt_Some. }
  destruct Hgi as [s2 ->]. cbn. eexists _, _, _. split; [done|].
  unfold k2. rewrite set_slot_twice.
  eapply kinv_drop; [done|done| |]; [|by intros [_ H1]].
  split; cbn; [lia|lia|done].
Qed.

(** A create for which [vmalloc] fails. *)
Definition create_refused (k : kstate) (cmd : karena_cmd) (d : ka_data) : Prop :=
  cmd = KARENA_CREATE /\ vmalloc_refuses k (PAGE_ALIGN (kd_size d)).

Lemma karena_ioctl_inv cmd pid d copy_out k :
  kinv k -> req_ok k cmd d ->
  (karena_ioctl vplace cmd pid (Some d) copy_out k = None /\ create_refused k cmd d) \/
  exists ret reply k', karena_ioctl vplace cmd pid (Some d) copy_out k = Some (ret, reply, k') /\ kinv k'.
Proof.
  intros Hk [Hd Hr]. unfold karena_ioctl.
  match goal with |- context [mbind _ ?c] => assert (H : (c = None /\ create_refused k cmd d) \/
    exists ret d' k', c = Some (ret, d', k') /\ kinv k') end.
  { assert (Hslot : 0 <= kd_arena d < 100 -> exists s, get_slot (kd_arena d) k = Some s)
      by (by apply get_slot_is_Some).
    destruct cmd; try (destruct (create_inv pid d k Hk Hr) as [[? ?]|?]; [left; by split|by right]); right;
      try (destruct (Hslot Hr) as [s Hg]; rewrite Hg; cbn [mbind option_bind];
      pose proof (handlers_local_ok s d (get_slot_ok _ _ _ Hk Hg) Hd) as (?&?&?&?&?&?&?)).
    all: try (by apply on_slot_inv).
    - destruct Hr as (s & Hg & Hle). rewrite Hg. cbn [mbind option_bind].
      pose proof (handlers_local_ok s d (get_slot_ok _ _ _ Hk Hg) Hd) as (_&_&_&_&_&_&H).
      apply on_slot_inv; auto.
    - destruct Hr as (s & Hg & Hor). rewrite Hg. cbn. by apply destroy_inv.
    - apply bootstrap_inv; [done|done|lia].
    - eauto. }
  destruct H as [[-> H]|(ret & d' & k' & -> & Hk')]; [by left|right]. cbn.
  destruct (negb _); [by eauto|]. destruct (_ || _); [by eauto|]. destruct copy_out; eauto.
Qed.
End Safety.

Lemma create_works vplace pid d k i s :
  vmalloc_works vplace ->
  find_open_slot k = (i, set_slot i (set_uaddr 1 s) k) -> get_slot i k = Some s -> 0 <= i < 100 ->
  PAGE_ALIGN (kd_size d) <> 0 ->
  exists a, handle_arena_create vplace pid d k =
              Some (0, mkKaData (PAGE_ALIGN (kd_size d)) i, create_result k i pid (PAGE_ALIGN (kd_size d)) a) /\
            a <> NULL /\ vmallocs k !! a = None.
Proof.
  intros Hv Hf Hg Hi Hsz.
  destruct (create_cases vplace (vmalloc_works_fresh _ Hv) pid d k i s Hf Hg Hi Hsz) as [(_ & k' & _ & E)|H]; [|exact H].
  destruct (Hv k' (PAGE_ALIGN (kd_size d))) as (a & E' & _). by rewrite E in E'.
Qed.

Lemma kinv_index k i : kinv k -> kinv (mkK (karenas k) i (vmallocs k)).
Proof. by intros []. Qed.

Lemma mmap_inv v k :
  kinv k -> 0 <= current_arena_index k < 100 -> 0 < vm_end v -64 vm_start v ->
  exists ret p k', karena_mmap v k = Some (ret, p, k') /\ kinv k'.
Proof.
  intros Hk Hi Hlen. unfold karena_mmap.
  destruct (get_slot_is_Some _ _ Hk Hi) as [s Hg]. rewrite Hg. cbn.
  destruct (negb (k_uaddr s =? 0)); [by eauto|].
  destruct (Z.ltb_spec (k_size s) (vm_end v -64 vm_start v)); [by eauto|].
  destruct (negb _); [by eauto|]. eexists _, _, _. split; [done|].
  eapply kinv_same_block; [done..| |done|done|done].
  destruct (get_slot_ok _ _ _ Hk Hg). split; cbn; [done|done|lia].
Qed.

(** What [dev_release] leaves of an arena it cleans up. *)
Definition cleared : KSlot := mkKSlot 0 0 0 false NULL 0.

Definition owned_by (pid : Z) (s : KSlot) : bool :=
  negb (k_uaddr s =? 0) && (k_owner_pid s =? pid).

(** One round of the loop on an owned arena with a block of its own. *)
Lemma release_round pid i n s k :
  kinv k -> get_slot i k = Some s -> owned_by pid s = true -> k_bootstrapped s = false ->
  exists k1, dev_release_from pid i (S n) k = dev_release_from pid (i + 1) n k1 /\ kinv k1 /\
    karenas k1 = <[Z.to_nat i := cleared]> (karenas k) /\
    vmallocs k1 = delete (k_kaddr s) (vmallocs k).
Proof.
  intros Hk Hg Ho Hb. destruct (get_slot_range _ _ _ Hg) as [_ Hl].
  assert (Hown : owner_slot s).
  { split; [|done]. destruct (get_slot_ok _ _ _ Hk Hg) as [_ _ Hm]. apply Hm; [|done].
    apply andb_true_iff in Ho as [Hu _]. apply negb_true_iff, Z.eqb_neq in Hu. done. }
  destruct (inv_backed _ Hk _ _ Hl Hown) as [Ha _].
  cbn [dev_release_from]. rewrite Hg. cbn [mbind option_bind]. unfold owned_by in Ho. rewrite Ho, Hb.
  rewrite (proj2 (Z.eqb_neq _ _) Ha). cbn [negb].
  destruct (kinv_free_slot i s (mkKSlot 0 0 0 false (k_kaddr s) 0) k) as (k1 & -> & K1 & E1 & E2);
    [done..|by split; cbn; lia|intros [H _]; cbn in H; lia|]. cbn [mbind option_bind].
  exists (set_slot i cleared k1). split; [done|]. split_and!.
  - eapply (kinv_drop i _ (mkKSlot 0 0 0 false (k_kaddr s) 0)); [done| |by split; cbn; lia|].
    + unfold get_slot. rewrite E1. by apply (get_set_slot i _ k s).
    + intros [H _]; cbn in H; lia.
  - unfold set_slot; cbn. rewrite E1. cbn. by rewrite list_insert_insert_eq.
  - done.
Qed.

Lemma release_inv pid n i k :
  kinv k -> 0 <= i -> i + Z.of_nat n <= 100 ->
  exists k', dev_release_from pid i n k = Some (0, k') /\ kinv k'.
Proof.
  revert i k; induction n as [|n IH]; intros i k Hk Hi Hb; [by exists k|].
  destruct (get_slot_is_Some i k Hk ltac:(lia)) as [s Hg].
  destruct (owned_by pid s) eqn:Ho.
  - destruct (k_bootstrapped s) eqn:Eb.
    + cbn [dev_release_from]. rewrite Hg. cbn [mbind option_bind]. unfold owned_by in Ho.
      rewrite Ho, Eb. eexists. split; [done|].
      eapply kinv_drop; [done..|by split; cbn; lia|]. intros [H _]; cbn in H; lia.
    + destruct (release_round pid i n s k Hk Hg Ho Eb) as (k1 & -> & K1 & _). apply IH; [done|lia|lia].
  - cbn [dev_release_from]. rewrite Hg. cbn [mbind option_bind]. unfold owned_by in Ho. rewrite Ho.
    apply IH; [done|lia|lia].
Qed.

(** *** The transition system *)

(** The driver's entry points, called the way the library in [karena.c] of
    [src/src/allocators] calls them: with handles it was given, sizes within
    bounds, and no second destroy. *)
Inductive event :=
  | Ioctl (cmd : karena_cmd) (pid : Z) (d : ka_data) (copy_out : bool)
  | Mmap (v : vma)
  | Open
  | Release (pid : Z).

Definition event_ok (k : kstate) (e : event) : Prop :=
  match e with
  | Ioctl cmd _ d _ => req_ok k cmd d
  | Mmap v => 0 <= current_arena_index k < 100 /\ 0 < vm_end v -64 vm_start v
  | Open | Release _ => True
  end.

Definition kstep (vplace : kstate -> Z -> option Z) (k : kstate) (e : event) : option kstate :=
  match e with
  | Ioctl cmd pid d out => '(_, _, k) ← karena_ioctl vplace cmd pid (Some d) out k; Some k
  | Mmap v => '(_, _, k) ← karena_mmap v k; Some k
  | Open => Some (snd (dev_open k))
  | Release pid => '(_, k) ← dev_release pid k; Some k
  end.

(** Reachability from the loaded module. *)
Inductive reachable (vplace : kstate -> Z -> option Z) : kstate -> Prop :=
  | reach_init : reachable vplace karena_loaded
  | reach_step k e k' :
      reachable vplace k -> event_ok k e -> kstep vplace k e = Some k' -> reachable vplace k'.

Lemma kinv_loaded : kinv karena_loaded.
Proof.
  assert (H : forall i s, replicate 100 empty_slot !! i = Some s -> s = empty_slot)
    by (by intros i s [-> _]%lookup_replicate).
  split; [done| | |].
  - intros i s ->%H. by split.
  - intros i s ->%H [Hs _]. cbn in Hs. lia.
  - intros i j s t _ ->%H _ [Hs _]. cbn in Hs. lia.
Qed.

(** A step of which the driver's [vmalloc] fails. *)
Definition refused (vplace : kstate -> Z -> option Z) (k : kstate) (e : event) : Prop :=
  match e with
  | Ioctl cmd _ d _ => create_refused vplace k cmd d
  | _ => False
  end.

Lemma kstep_inv vplace k e :
  vmalloc_fresh vplace -> kinv k -> event_ok k e ->
  (kstep vplace k e = None /\ refused vplace k e) \/ exists k', kstep vplace k e = Some k' /\ kinv k'.
Proof.
  intros Hv Hk He. destruct e as [cmd pid d out|v| |pid]; cbn [kstep event_ok refused] in *.
  - destruct (karena_ioctl_inv vplace Hv cmd pid d out k Hk He) as [[-> ?]|(? & ? & k' & -> & ?)]; [by left|right; by exists k'].
  - destruct He as [Hi Hl]. destruct (mmap_inv v k Hk Hi Hl) as (? & ? & k' & -> & ?). right. by exists k'.
  - right. eexists. split; [done|]. by apply kinv_index.
  - unfold dev_release. destruct (release_inv pid 100 0 k Hk) as (k' & -> & ?); [lia|lia|]. right. by exists k'.
Qed.

Lemma reachable_inv vplace k : vmalloc_fresh vplace -> reachable vplace k -> kinv k.
Proof.
  intros Hv. induction 1 as [|k e k' _ IH He Hs]; [apply kinv_loaded|].
  destruct (kstep_inv vplace k e Hv IH He) as [[Hs' _]|(k'' & Hs' & Hk')]; by simplify_eq.
Qed.

(** *** [dev_release] as a whole *)

(** Entries before [i] are done with; those from [i] on are released. *)
Lemma release_complete_from pid n i k :
  kinv k -> 0 <= i -> i + Z.of_nat n = 100 ->
  (forall j s, Z.to_nat i <= j -> karenas k !! j = Some s -> owned_by pid s = true ->
     k_bootstrapped s = false)%nat ->
  exists k', dev_release_from pid i n k = Some (0, k') /\
    forall j s, karenas k !! j = Some s ->
      karenas k' !! j = Some (if bool_decide (Z.to_nat i <= j)%nat && owned_by pid s then cleared else s).
Proof.
  revert i k; induction n as [|n IH]; intros i k Hk Hi Hb Hno.
  { exists k. split; [done|]. intros j s Hj. pose proof (lookup_lt_Some _ _ _ Hj) as Hlt.
    rewrite (inv_len _ Hk) in Hlt. by rewrite bool_decide_eq_false_2 by lia. }
  destruct (get_slot_is_Some i k Hk ltac:(lia)) as [s Hg].
  destruct (get_slot_range _ _ _ Hg) as [_ Hl].
  destruct (owned_by pid s) eqn:Ho.
  - destruct (release_round pid i n s k Hk Hg Ho) as (k1 & -> & K1 & E1 & _); [by eapply Hno|].
    assert (Hlk : forall j t, karenas k !! j = Some t ->
              karenas k1 !! j = Some (if decide (j = Z.to_nat i) then cleared else t)).
    { intros j t Hj. rewrite E1. case_decide as Hji.
      - subst j. apply list_lookup_insert_eq. by eapply lookup_lt_Some.
      - by rewrite list_lookup_insert_ne. }
    destruct (IH (i + 1) k1 K1) as (k' & S & H); [lia|lia| |].
    { intros j t Hle Hj Hot. destruct (karenas k !! j) as [t0|] eqn:Ej.
      - rewrite (Hlk _ _ Ej) in Hj. rewrite decide_False in Hj by lia. simplify_eq.
        eapply Hno; [|done|done]. lia.
      - apply lookup_lt_Some in Hj. apply lookup_ge_None in Ej. rewrite E1, length_insert in Hj. lia. }
    exists k'. split; [done|]. intros j t Hj. rewrite (H j _ (Hlk j t Hj)). f_equal.
    destruct (decide (j = Z.to_nat i)) as [->|Hne].
    + rewrite Hl in Hj. injection Hj as <-. rewrite bool_decide_eq_false_2 by lia.
      rewrite bool_decide_eq_true_2 by lia. by rewrite Ho.
    + by rewrite (bool_decide_ext (Z.to_nat (i + 1) <= j)%nat (Z.to_nat i <= j)%nat) by lia.
  - cbn [dev_release_from]. rewrite Hg. cbn [mbind option_bind]. unfold owned_by in Ho. rewrite Ho.
    destruct (IH (i + 1) k Hk) as (k' & S & H); [lia|lia|intros j t ?; apply Hno; lia|].
    exists k'. split; [done|]. intros j t Hj. rewrite (H j t Hj). f_equal.
    destruct (decide (j = Z.to_nat i)) as [->|Hne].
    + rewrite Hl in Hj. injection Hj as <-. unfold owned_by. rewrite Ho. by rewrite !andb_false_r.
    + by rewrite (bool_decide_ext (Z.to_nat (i + 1) <= j)%nat (Z.to_nat i <= j)%nat) by lia.
Qed.

(** The walk up to the first bootstrapped arena, where it returns. *)
Lemma release_stops_from pid n i b s k :
  kinv k -> 0 <= i -> i + Z.of_nat n = 100 -> i <= b < 100 ->
  get_slot b k = Some s -> owned_by pid s = true -> k_bootstrapped s = true ->
  exists k', dev_release_from pid i n k = Some (0, k') /\
    forall j, (Z.to_nat b < j)%nat -> karenas k' !! j = karenas k !! j.
Proof.
  revert i k; induction n as [|n IH]; intros i k Hk Hi Hb Hib Hg Ho Hboot; [lia|].
  destruct (get_slot_is_Some i k Hk ltac:(lia)) as [t Hgi].
  destruct (owned_by pid t) eqn:Hot; [destruct (k_bootstrapped t) eqn:Ebt|].
  - cbn [dev_release_from]. rewrite Hgi. cbn [mbind option_bind]. unfold owned_by in Hot.
    rewrite Hot, Ebt. eexists. split; [done|]. intros j Hj. cbn.
    apply list_lookup_insert_ne. lia.
  - assert (i <> b) by (intros ->; congruence).
    destruct (release_round pid i n t k Hk Hgi Hot Ebt) as (k1 & -> & K1 & E1 & _).
    destruct (IH (i + 1) k1 K1) as (k' & HS & HH); [lia|lia|lia| |done|done|].
    { destruct (get_slot_range _ _ _ Hg) as [? Hl]. unfold get_slot.
      rewrite (proj2 (Z.leb_le _ _)) by lia. rewrite E1. rewrite list_lookup_insert_ne; [done|lia]. }
    exists k'. split; [done|]. intros j Hj. rewrite (HH j Hj), E1.
    apply list_lookup_insert_ne. lia.
  - assert (i <> b) by (intros ->; congruence).
    cbn [dev_release_from]. rewrite Hgi. cbn [mbind option_bind]. unfold owned_by in Hot. rewrite Hot.
    apply IH; (done || lia).
Qed.

(** ** Properties *)

(** C3: Safety of the driver.  From the loaded module, after any sequence of
    calls by a well-behaved user, with a [vmalloc] that may fail but never grants
    a block that is live: every arena's cursor is within its size, every
    arena that is not bootstrapped is backed by a live block of exactly its
    size, and no two of them share a block.  Every further such call completes
    without corrupting the kernel, except a create for which [vmalloc] fails:
    that one, and no other, frees an element of the static table. *)
Theorem karena_reachable_safe (vplace : kstate -> Z -> option Z) (k : kstate) :
  vmalloc_fresh vplace -> reachable vplace k ->
  (forall i s, karenas k !! i = Some s ->
     0 <= k_cur s <= k_size s /\
     (owner_slot s -> vmallocs k !! k_kaddr s = Some (k_size s))) /\
  (forall i j s t, i <> j -> karenas k !! i = Some s -> karenas k !! j = Some t ->
     owner_slot s -> owner_slot t -> k_kaddr s <> k_kaddr t) /\
  (forall e, event_ok k e ->
     (exists k', kstep vplace k e = Some k' /\ reachable vplace k') \/
     (kstep vplace k e = None /\ refused vplace k e)).
Proof.
  intros Hv Hr. pose proof (reachable_inv vplace k Hv Hr) as Hk. split_and!.
  - intros i s Hi. split; [by destruct (inv_slots _ Hk i s Hi)|].
    intros Ho. by destruct (inv_backed _ Hk i s Hi Ho).
  - apply (inv_distinct _ Hk).
  - intros e He. destruct (kstep_inv vplace k e Hv Hk He) as [?|(k' & Hs & _)]; [by right|left].
    exists k'. split; [done|]. by eapply reach_step.
Qed.

(** An unbounded bump allocator for the kernel's blocks. *)
Definition bump_vplace (k : kstate) (n : Z) : option Z :=
  Some (map_fold (fun x _ t => Z.max x t) 0 (vmallocs k) + 1).

Lemma bump_vplace_works : vmalloc_works bump_vplace.
Proof.
  intros k n. eexists. split; [done|].
  assert (H : 0 <= map_fold (fun x _ t => Z.max x t) 0 (vmallocs k) /\
    forall x v, vmallocs k !! x = Some v -> x <= map_fold (fun x _ t => Z.max x t) 0 (vmallocs k)).
  { apply (map_fold_weak_ind (fun r m => 0 <= r /\ forall x v, m !! x = Some v -> x <= r)).
    - split; [lia|]. intros x v E. by rewrite lookup_empty in E.
    - intros i w m' r Hi [Hr IH]. split; [lia|]. intros x v.
      destruct (decide (i = x)) as [->|Hne]; [lia|].
      rewrite lookup_insert_ne by done. intros E. pose proof (IH _ _ E). lia. }
  destruct H as [H0 H]. split; [unfold NULL; lia|].
  destruct (vmallocs k !! _) eqn:E; [|done]. pose proof (H _ _ E). lia.
Qed.

Lemma bump_vplace_fresh : vmalloc_fresh bump_vplace.
Proof. apply vmalloc_works_fresh, bump_vplace_works. Qed.

(** A create for which there is no memory. *)
Example create_refused_corrupts :
  kstep (fun _ _ => None) karena_loaded (Ioctl KARENA_CREATE 7 (mkKaData 5000 0) true) = None.
Proof. reflexivity. Qed.

(** A session: open, create an 8 KiB arena, map it, bootstrap 100 bytes. *)
Definition demo_vma : vma := mkVma 65536 73728 0.
Definition demo_step (k : kstate) (e : event) : kstate :=
  default karena_loaded (kstep bump_vplace k e).
Definition demo_k1 : kstate := snd (dev_open karena_loaded).
Definition demo_k2 : kstate := demo_step demo_k1 (Ioctl KARENA_CREATE 7 (mkKaData 5000 0) true).
Definition demo_k3 : kstate := demo_step demo_k2 (Mmap demo_vma).
Definition demo_k : kstate := demo_step demo_k3 (Ioctl KARENA_BOOTSTRAP 7 (mkKaData 100 0) true).

Lemma demo_step_inv k e : kinv k -> event_ok k e -> kinv (demo_step k e).
Proof.
  intros Hk He. destruct (kstep_inv _ _ e bump_vplace_fresh Hk He) as [[_ H]|(k' & S & H)].
  - destruct e; [|done..]. destruct H as (_ & k' & _ & H). discriminate H.
  - unfold demo_step. by rewrite S.
Qed.

Lemma demo_k2_inv : kinv demo_k2.
Proof.
  apply demo_step_inv; [apply kinv_index, kinv_loaded|].
  split; [cbn; lia|]. cbn. by vm_compute.
Qed.

Lemma demo_k3_inv : kinv demo_k3.
Proof. apply demo_step_inv; [apply demo_k2_inv|]. by vm_compute. Qed.

Lemma demo_k_inv : kinv demo_k.
Proof. apply demo_step_inv; [apply demo_k3_inv|]. by vm_compute. Qed.

Lemma demo_k_eq :
  karenas demo_k = mkKSlot 8192 100 65536 false 1 7 :: mkKSlot 100 0 65536 true 1 7 :: replicate 98 empty_slot.
Proof. vm_compute. reflexivity. Qed.

Lemma karena_reachable_safe_witness :
  exists k', kstep bump_vplace karena_loaded (Release 7) = Some k' /\ reachable bump_vplace k'.
Proof.
  destruct (karena_reachable_safe bump_vplace karena_loaded bump_vplace_fresh (reach_init _)) as (_ & _ & H).
  destruct (H (Release 7) I) as [E|[_ []]]. exact E.
Defined.

(** Allocation is backed by memory.  On a mapped arena with a block of its
    own, a request that fits is answered with the address of a range inside the
    mapping, and touching any byte of that range makes the fault handler look
    up a page that lies inside the arena's live [vmalloc] block. *)
Theorem karena_alloc_backed (vplace : kstate -> Z -> option Z) (to_page : Z -> option Z)
    (k : kstate) (i pid n : Z) (s : KSlot) :
  kinv k -> get_slot i k = Some s -> k_bootstrapped s = false ->
  0 < n -> k_cur s + n <= k_size s ->
  0 <= k_uaddr s -> k_uaddr s + k_size s < 2 ^ 64 ->
  0 <= k_kaddr s -> k_kaddr s + k_size s < 2 ^ 64 ->
  let addr := k_uaddr s + k_cur s in
  exists k', karena_ioctl vplace KARENA_ALLOC pid (Some (mkKaData n i)) true k
               = Some (0, Some (mkKaData n addr), k') /\
    get_slot i k' = Some (set_cur (k_cur s + n) s) /\
    k_uaddr s <= addr /\ addr + n <= k_uaddr s + k_size s /\
    forall x, addr <= x < addr + n ->
      let pgoff := (x - k_uaddr s) / PAGE_SIZE in
      karena_vm_fault to_page (Some i) pgoff k' = to_page (k_kaddr s + PAGE_SIZE * pgoff) /\
      PAGE_SIZE * pgoff <= x - k_uaddr s < PAGE_SIZE * (pgoff + 1) /\
      k_kaddr s + (x - k_uaddr s) < k_kaddr s + k_size s /\
      vmallocs k' !! k_kaddr s = Some (k_size s).
Proof.
  intros Hk Hg Hb Hn Hfit Hu0 Hu1 Ha0 Ha1 addr.
  pose proof (get_slot_ok _ _ _ Hk Hg) as [Hc Hz _].
  destruct (get_slot_range _ _ _ Hg) as [_ Hl].
  assert (Hown : owner_slot s) by (split; [lia|done]).
  destruct (inv_backed _ Hk _ _ Hl Hown) as [_ Hlive].
  eexists. split.
  { unfold karena_ioctl. cbn [kd_arena]. rewrite Hg. cbn [mbind option_bind].
    unfold on_slot, handle_arena_alloc. cbn [kd_size]. rewrite !u64_small by lia.
    rewrite (proj2 (Z.leb_le _ _)) by lia. cbn. reflexivity. }
  split; [by apply (get_set_slot i _ k s)|]. split; [lia|]. split; [lia|].
  intros x Hx pgoff. unfold PAGE_SIZE in *.
  pose proof (Z.div_mod (x - k_uaddr s) 4096 ltac:(lia)).
  pose proof (Z.mod_pos_bound (x - k_uaddr s) 4096 ltac:(lia)). fold pgoff in H.
  split_and!; [|lia|lia|lia|done].
  unfold karena_vm_fault. cbn [mbind option_bind]. rewrite (get_set_slot i _ k s Hg). cbn [mbind option_bind].
  unfold PAGE_SHIFT. rewrite Z.shiftl_mul_pow2 by lia. change (2 ^ 12) with 4096.
  cbn [k_size k_kaddr set_cur]. rewrite (u64_small (pgoff * 4096)) by lia.
  rewrite (proj2 (Z.leb_gt _ _)) by lia. rewrite u64_small by lia. f_equal. lia.
Qed.

Lemma karena_alloc_backed_witness :
  exists k', karena_ioctl bump_vplace KARENA_ALLOC 7 (Some (mkKaData 4096 0)) true demo_k
               = Some (0, Some (mkKaData 4096 65636), k') /\
             karena_vm_fault Some (Some 0) 1 k' = Some 4097.
Proof.
  destruct (karena_alloc_backed bump_vplace Some demo_k 0 7 4096 (mkKSlot 8192 100 65536 false 1 7) demo_k_inv)
    as (k' & S & _ & _ & _ & H).
  - vm_compute. reflexivity.
  - reflexivity.
  - lia.
  - cbn. lia.
  - cbn. lia.
  - cbn. lia.
  - cbn. lia.
  - cbn. lia.
  - exists k'. split; [exact S|]. destruct (H 69632) as [F _]; [cbn; lia|]. exact F.
Defined.

(** The slot of a created arena is not reserved until it is mapped: a
    second create before the [mmap] of the first returns the same handle, and
    the first arena's block stays allocated with no arena to free it. *)
Theorem karena_create_twice (vplace : kstate -> Z -> option Z) (k : kstate) (pid1 pid2 n1 n2 : Z) :
  vmalloc_works vplace -> kinv k -> PAGE_ALIGN n1 <> 0 -> PAGE_ALIGN n2 <> 0 ->
  Exists (fun s => k_uaddr s = 0) (karenas k) ->
  exists i k1 k2,
    karena_ioctl vplace KARENA_CREATE pid1 (Some (mkKaData n1 0)) true k
      = Some (0, Some (mkKaData (PAGE_ALIGN n1) i), k1) /\
    karena_ioctl vplace KARENA_CREATE pid2 (Some (mkKaData n2 0)) true k1
      = Some (0, Some (mkKaData (PAGE_ALIGN n2) i), k2) /\
    exists s1, get_slot i k1 = Some s1 /\ vmallocs k2 !! k_kaddr s1 = Some (PAGE_ALIGN n1) /\
      forall j t, karenas k2 !! j = Some t -> owner_slot t -> k_kaddr t <> k_kaddr s1.
Proof.
  intros Hv Hk H1 H2 Hopen.
  destruct (find_open_slot_spec k (inv_len _ Hk)) as [[_ Hfull]|(i & s & Hf & Hg & Hu & Hi)].
  { apply Exists_exists in Hopen as (x & Hx & H0). exfalso. by apply (proj1 (Forall_forall _ _) Hfull x Hx). }
  destruct (create_works vplace pid1 (mkKaData n1 0) k i s Hv Hf Hg Hi H1) as (a1 & S1 & Ha1 & Hf1).
  cbn [kd_size] in S1. set (k1 := create_result k i pid1 (PAGE_ALIGN n1) a1) in *.
  assert (K1 : kinv k1) by (eapply create_result_inv; eauto using PAGE_ALIGN_range).
  set (s1 := mkKSlot (PAGE_ALIGN n1) 0 0 false a1 pid1).
  destruct (find_open_slot_again k i s s1 k1 (inv_len _ Hk) Hf Hg Hi) as [Hf' Hg']; [done|done|].
  destruct (create_works vplace pid2 (mkKaData n2 0) k1 i s1 Hv Hf' Hg' Hi H2) as (a2 & S2 & Ha2 & Hf2).
  cbn [kd_size] in S2. set (k2 := create_result k1 i pid2 (PAGE_ALIGN n2) a2) in *.
  exists i, k1, k2. unfold karena_ioctl. rewrite S1, S2. cbn [mbind option_bind].
  split_and!; [done|done|]. exists s1.
  assert (Hne : a1 <> a2).
  { intros <-. cbn in Hf2. by rewrite lookup_insert_eq in Hf2. }
  split_and!; [done| |].
  - cbn. by rewrite lookup_insert_ne, lookup_insert_eq.
  - intros j t Hj Ho. destruct (get_slot_range _ _ _ Hg') as [_ Hl'].
    destruct (decide (j = Z.to_nat i)) as [->|Hji].
    + destruct (get_slot_range _ _ _ Hg) as [_ Hl]. cbn in Hj.
      rewrite list_lookup_insert_eq in Hj by (rewrite length_insert; by eapply lookup_lt_Some).
      injection Hj as <-. cbn. done.
    + cbn in Hj. rewrite list_lookup_insert_ne in Hj by done.
      eapply (inv_distinct _ K1 j (Z.to_nat i) t s1); [done|exact Hj|exact Hl'|done|].
      split; [|done]. cbn. pose proof (PAGE_ALIGN_range n1). lia.
Qed.

Lemma karena_create_twice_witness :
  exists i k1 k2,
    karena_ioctl bump_vplace KARENA_CREATE 7 (Some (mkKaData 1024 0)) true demo_k
      = Some (0, Some (mkKaData 4096 i), k1) /\
    karena_ioctl bump_vplace KARENA_CREATE 8 (Some (mkKaData 5000 0)) true k1
      = Some (0, Some (mkKaData 8192 i), k2).
Proof.
  destruct (karena_create_twice bump_vplace demo_k 7 8 1024 5000 bump_vplace_works demo_k_inv)
    as (i & k1 & k2 & S1 & S2 & _).
  - by vm_compute.
  - by vm_compute.
  - rewrite demo_k_eq. do 2 apply Exists_cons_tl. apply Exists_cons_hd. reflexivity.
  - exists i, k1, k2. split; [exact S1|exact S2].
Defined.

(** [handle_arena_seek] checks nothing.  Any position is accepted and the
    address it designates returned; with the cursor past the end the room left
    computed by [handle_arena_bootstrap] wraps around, and a child arena is
    granted that starts outside its parent. *)
Theorem karena_seek_unchecked (vplace : kstate -> Z -> option Z) (k : kstate) (i pid pos n : Z) (s : KSlot) :
  kinv k -> get_slot i k = Some s -> k_size s < pos < 2 ^ 64 -> 0 <= n <= 2 ^ 64 - (pos - k_size s) ->
  Exists (fun s => k_uaddr s = 0) (karenas k) ->
  exists k1 j k2 child,
    karena_ioctl vplace KARENA_SEEK pid (Some (mkKaData pos i)) true k
      = Some (0, Some (mkKaData pos (k_uaddr s +64 pos)), k1) /\
    karena_ioctl vplace KARENA_BOOTSTRAP pid (Some (mkKaData n i)) true k1
      = Some (0, Some (mkKaData n j), k2) /\
    get_slot j k2 = Some child /\ k_uaddr child = k_uaddr s +64 pos /\ k_size child = n.
Proof.
  intros Hk Hg Hpos Hn Hopen. pose proof (get_slot_ok _ _ _ Hk Hg) as [Hc Hz _].
  destruct (get_slot_range _ _ _ Hg) as [Hi Hl].
  set (k1 := set_slot i (set_cur pos s) k).
  assert (Hg1 : get_slot i k1 = Some (set_cur pos s)) by (by apply (get_set_slot i _ k s)).
  set (k2 := set_slot i (set_cur (pos +64 n) (set_cur pos s)) k1).
  assert (Hlen : length (karenas k2) = 100%nat) by (cbn; rewrite !length_insert; apply (inv_len _ Hk)).
  destruct (find_open_slot_spec k2 Hlen) as [[_ Hfull]|(j & t & Hf & Hgj & Hu & Hj)].
  { exfalso. apply Exists_exists in Hopen as (x & Hx & H0).
    apply list_elem_of_lookup in Hx as [m Hm].
    destruct (decide (m = Z.to_nat i)) as [->|Hne].
    - rewrite Hl in Hm. injection Hm as ->.
      apply (proj1 (Forall_lookup _ _) Hfull (Z.to_nat i) (set_cur (pos +64 n) (set_cur pos x))); [|done].
      cbn. apply list_lookup_insert_eq. rewrite length_insert. by eapply lookup_lt_Some.
    - apply (proj1 (Forall_lookup _ _) Hfull m x); [|done]. cbn. by rewrite !list_lookup_insert_ne. }
  set (k3 := set_slot j (set_uaddr 1 t) k2).
  destruct (get_slot_is_Some_len i k3) as [s3 Hg3].
  { cbn. rewrite !length_insert. by eapply lookup_lt_Some. } { done. }
  exists k1, j. eexists _, _. split_and!.
  - unfold karena_ioctl. cbn [kd_arena]. rewrite Hg. done.
  - unfold karena_ioctl. cbn [kd_arena]. rewrite Hg1. cbn [mbind option_bind].
    unfold handle_arena_bootstrap. cbn [kd_size k_size k_cur set_cur].
    replace (k_size s -64 pos) with (2 ^ 64 - (pos - k_size s)) by word_lia.
    rewrite (proj2 (Z.ltb_ge _ _)) by lia. fold k2. rewrite Hf. fold k3.
    rewrite (proj2 (Z.eqb_neq _ _)) by (unfold NO_SLOT; lia).
    rewrite Hg3. cbn. reflexivity.
  - unfold k3. rewrite set_slot_twice. by apply (get_set_slot j _ k2 t).
  - done.
  - done.
Qed.

Lemma karena_seek_unchecked_witness :
  exists k1 j k2, karena_ioctl bump_vplace KARENA_SEEK 7 (Some (mkKaData 1048576 0)) true demo_k
      = Some (0, Some (mkKaData 1048576 1114112), k1) /\
    karena_ioctl bump_vplace KARENA_BOOTSTRAP 7 (Some (mkKaData 4096 0)) true k1
      = Some (0, Some (mkKaData 4096 j), k2).
Proof.
  destruct (karena_seek_unchecked bump_vplace demo_k 0 7 1048576 4096 (mkKSlot 8192 100 65536 false 1 7) demo_k_inv)
    as (k1 & j & k2 & c & S1 & S2 & _).
  - vm_compute. reflexivity.
  - cbn. lia.
  - cbn. lia.
  - rewrite demo_k_eq. do 2 apply Exists_cons_tl. apply Exists_cons_hd. reflexivity.
  - exists k1, j, k2. split; [exact S1|exact S2].
Defined.

(** [dev_release] of a process with no bootstrapped arena empties every
    mapped arena of the process and leaves all other entries as they were. *)
Theorem dev_release_complete (k : kstate) (pid : Z) :
  kinv k ->
  (forall j s, karenas k !! j = Some s -> owned_by pid s = true -> k_bootstrapped s = false) ->
  exists k', dev_release pid k = Some (0, k') /\
    forall j s, karenas k !! j = Some s ->
      karenas k' !! j = Some (if owned_by pid s then cleared else s).
Proof.
  intros Hk Hno. destruct (release_complete_from pid 100 0 k Hk) as (k' & S & H); [lia|lia|by intros; eapply Hno|].
  exists k'. split; [done|]. intros j s Hj. rewrite (H j s Hj).
  by rewrite bool_decide_eq_true_2 by lia.
Qed.

Lemma dev_release_complete_witness :
  exists k', dev_release 7 demo_k3 = Some (0, k') /\ karenas k' !! 0%nat = Some cleared.
Proof.
  destruct (dev_release_complete demo_k3 7 demo_k3_inv) as (k' & S & H).
  - intros j s Hj _. change (karenas demo_k3) with (karenas demo_k3) in Hj.
    assert (E : karenas demo_k3 = mkKSlot 8192 0 65536 false 1 7 :: replicate 99 empty_slot)
      by (vm_compute; reflexivity).
    rewrite E in Hj. destruct j as [|j]; [by injection Hj as <-|].
    cbn in Hj. change (replicate 99 empty_slot !! j = Some s) in Hj.
    by apply lookup_replicate in Hj as [-> _].
  - exists k'. split; [exact S|]. apply (H 0%nat (mkKSlot 8192 0 65536 false 1 7)). vm_compute. reflexivity.
Defined.

(** [dev_release] returns at the first bootstrapped arena of the process:
    every arena after it in the table stays as it was, the process's own
    included, with its block still allocated. *)
Theorem dev_release_stops (k : kstate) (pid b : Z) (s : KSlot) :
  kinv k -> get_slot b k = Some s -> b < 100 -> owned_by pid s = true -> k_bootstrapped s = true ->
  exists k', dev_release pid k = Some (0, k') /\
    forall j, (Z.to_nat b < j)%nat -> karenas k' !! j = karenas k !! j.
Proof.
  intros Hk Hg Hb Ho Hboot. destruct (get_slot_range _ _ _ Hg) as [? _].
  by apply (release_stops_from pid 100 0 b s k).
Qed.

Lemma dev_release_stops_witness :
  exists k', dev_release 7 demo_k = Some (0, k') /\ karenas k' !! 2%nat = karenas demo_k !! 2%nat.
Proof.
  destruct (dev_release_stops demo_k 7 1 (mkKSlot 100 0 65536 true 1 7) demo_k_inv) as (k' & S & H).
  - vm_compute. reflexivity.
  - lia.
  - reflexivity.
  - reflexivity.
  - exists k'. split; [exact S|]. apply H. cbn. lia.
Defined.

(** The requests that corrupt the kernel: a handle past the table on any
    command that uses it, a create whose page-aligned size is 0 (a size of 0, or
    one within a page of 2^64) or whose [vmalloc] fails, which free an element
    of the static table, and a second destroy of an arena that was not
    bootstrapped, which frees its block again. *)
Theorem karena_ioctl_faults (vplace : kstate -> Z -> option Z) (k : kstate) (pid : Z) (d : ka_data) (out : bool) :
  kinv k ->
  (forall cmd, cmd <> KARENA_CREATE -> cmd <> KARENA_OTHER -> 100 <= kd_arena d ->
     karena_ioctl vplace cmd pid (Some d) out k = None) /\
  (Exists (fun s => k_uaddr s = 0) (karenas k) ->
   PAGE_ALIGN (kd_size d) = 0 \/ (forall k' n, vplace k' n = None) ->
     karena_ioctl vplace KARENA_CREATE pid (Some d) out k = None) /\
  (forall s, get_slot (kd_arena d) k = Some s -> owner_slot s ->
     exists k1, karena_ioctl vplace KARENA_DESTROY pid (Some d) out k = Some (0, None, k1) /\
                karena_ioctl vplace KARENA_DESTROY pid (Some d) out k1 = None).
Proof.
  intros Hk. split_and!.
  - intros cmd H1 H2 Hi. assert (Hn : get_slot (kd_arena d) k = None).
    { unfold get_slot. destruct (0 <=? _); [|done]. apply lookup_ge_None_2. rewrite (inv_len _ Hk). lia. }
    unfold karena_ioctl. rewrite Hn. by destruct cmd.
  - intros Hopen Hbad. unfold karena_ioctl, handle_arena_create.
    destruct (find_open_slot_spec k (inv_len _ Hk)) as [[_ Hfull]|(i & s & -> & Hg & Hu & Hi)].
    { apply Exists_exists in Hopen as (x & Hx & H0). exfalso. by apply (proj1 (Forall_forall _ _) Hfull x Hx). }
    rewrite (proj2 (Z.eqb_neq _ _)) by (unfold NO_SLOT; lia).
    rewrite (get_set_slot _ _ _ _ Hg). cbn [mbind option_bind kd_size kd_arena].
    destruct (Z.eqb_spec (PAGE_ALIGN (kd_size d)) 0) as [|Hne]; [done|].
    destruct Hbad as [|Hbad]; [done|]. unfold vmalloc. by rewrite Hbad.
  - intros s Hg [Hpos Hb]. unfold karena_ioctl. rewrite Hg. cbn [mbind option_bind].
    destruct (get_slot_range _ _ _ Hg) as [Hi Hl].
    destruct (inv_backed _ Hk _ _ Hl) as [Ha Hlive]; [done|].
    unfold handle_arena_destroy. cbn [k_bootstrapped k_kaddr]. rewrite Hb.
    rewrite (proj2 (Z.eqb_neq _ _) Ha). cbn [negb]. unfold vfree. cbn [vmallocs set_slot]. rewrite Hlive.
    cbn [mbind option_bind]. eexists. split; [done|].
    unfold get_slot. rewrite (proj2 (Z.leb_le _ _)) by lia. cbn [karenas set_slot].
    rewrite list_lookup_insert_eq by (by eapply lookup_lt_Some). cbn [mbind option_bind k_bootstrapped k_kaddr].
    rewrite (proj2 (Z.eqb_neq _ _) Ha). cbn [negb vmallocs set_slot]. by rewrite lookup_delete_eq.
Qed.

Lemma karena_ioctl_faults_witness :
  karena_ioctl bump_vplace KARENA_ALLOC 7 (Some (mkKaData 8 100)) true demo_k = None /\
  exists k1, karena_ioctl bump_vplace KARENA_DESTROY 7 (Some (mkKaData 0 0)) true demo_k = Some (0, None, k1).
Proof.
  split.
  - apply (karena_ioctl_faults bump_vplace demo_k 7 (mkKaData 8 100) true demo_k_inv); [done|done|cbn; lia].
  - destruct (karena_ioctl_faults bump_vplace demo_k 7 (mkKaData 0 0) true demo_k_inv) as (_ & _ & H).
    destruct (H (mkKSlot 8192 100 65536 false 1 7)) as (k1 & S & _).
    + vm_compute. reflexivity.
    + split; [cbn; lia|reflexivity].
    + exists k1. exact S.
Defined.
