(* ===== verification/MemExpand.v ===== *)
(** * The device that lends kernel memory: [src/poc/memexpand/memexpand/memexpand.c]

    The proof of concept before the arena drivers: one command allocates, [mmap]
    hangs the last allocation on an area of the process, and page faults find the
    memory through the area.  Allocations are objects that the device and the
    areas share by address; reading one that is not live is [None], an oops.

    The driver takes no lock.  The calls of several processes are interleaved
    between their accesses to [mmap_info]: an ioctl publishes the object before it
    copies its reply, which can fail, and [mmap] reads the field four times.  A
    page fault looks at its own area and at the object there, which no call
    changes but by freeing it; it is one step. *)

From S2P Require Import Prelude.
From S2P Require Import KArenaModule.
#[local] Open Scope Z_scope.

(** [struct memexpand_mmap_info] *)
Record memexpand_mmap_info := mkInfo { data : Z; size : Z }.

(** The fields of [struct vm_area_struct] that matter here. *)
Record area := mkArea { vm_start : Z; vm_end : Z; vm_private_data : Z }.

Record mstate := mkMem {
  infos : gmap Z memexpand_mmap_info;   (* live objects, by address *)
  blocks : gmap Z Z;                    (* live vmalloc blocks: address, size *)
  mmap_info : Z;                        (* memexpand.mmap_info *)
  areas : list area;                    (* of the processes that have the device open *)
}.

Inductive memexpand_cmd := MEMEXPAND_ALLOCATE | MEMEXPAND_OTHER.

Definition put_info (p : Z) (i : memexpand_mmap_info) (s : mstate) : mstate :=
  mkMem (<[p := i]> (infos s)) (blocks s) (mmap_info s) (areas s).
Definition put_block (a n : Z) (s : mstate) : mstate := mkMem (infos s) (<[a := n]> (blocks s)) (mmap_info s) (areas s).
Definition set_mmap_info (p : Z) (s : mstate) : mstate := mkMem (infos s) (blocks s) p (areas s).

Definition kfree (p : Z) (s : mstate) : option mstate :=
  if p =? NULL then Some s
  else _ ← infos s !! p; Some (mkMem (delete p (infos s)) (blocks s) (mmap_info s) (areas s)).

Definition vfree (a : Z) (s : mstate) : option mstate :=
  if a =? NULL then Some s
  else _ ← blocks s !! a; Some (mkMem (infos s) (delete a (blocks s)) (mmap_info s) (areas s)).

Section Device.
(** [kzalloc] and [vzalloc]: the address, [None] when they fail;
    [vmalloc_to_page]. *)
Variable kplace : mstate -> option Z.
Variable vzplace : mstate -> Z -> option Z.
Variable to_page : Z -> option Z.

(** Up to the store to [mmap_info], with the size that [copy_from_user] reads: the
    object that is published, with its size, or the result. *)
Definition memexpand_ioctl_publish (cmd : memexpand_cmd) (user : option Z) (s : mstate)
    : option ((Z + Z * Z) * mstate) :=
  match user with
  | None => Some (inl (- EFAULT), s)
  | Some n =>
      match cmd with
      | MEMEXPAND_OTHER => Some (inl (- ENOTTY), s)
      | MEMEXPAND_ALLOCATE =>
          match kplace s with
          | None => Some (inl (- ENOMEM), s)
          | Some info =>
              let n := PAGE_ALIGN n in
              let s := put_info info (mkInfo NULL n) s in
              if n =? 0 then s ← kfree info s; Some (inl (- EINVAL), s)
              else
                match vzplace s n with
                | None => s ← kfree info s; Some (inl (- ENOMEM), s)
                | Some block =>
                    let s := put_info info (mkInfo block n) (put_block block n s) in
                    Some (inr (info, n), set_mmap_info info s)
                end
          end
      end
  end.

(** The rest, whether the reply can be copied or not: the result, the reply, and
    the state after. *)
Definition memexpand_ioctl_reply (info : Z) (copy_out : bool) (s : mstate) : option (Z * option Z * mstate) :=
  i ← infos s !! info;
  if copy_out then Some (0, Some (size i), s)
  else
    s ← vfree (data i) s;
    s ← kfree info s;
    Some (- EFAULT, None, set_mmap_info NULL s).

(** The whole call, when nothing comes in between. *)
Definition memexpand_ioctl (cmd : memexpand_cmd) (user : option Z) (copy_out : bool) (s : mstate)
    : option (Z * option Z * mstate) :=
  '(r, s) ← memexpand_ioctl_publish cmd user s;
  match r with
  | inl ret => Some (ret, None, s)
  | inr (info, _) => memexpand_ioctl_reply info copy_out s
  end.

(** Outer [None] an oops, inner [None] [VM_FAULT_SIGBUS], else the page. *)
Definition memexpand_vm_fault (vma : area) (pgoff : Z) (s : mstate) : option (option Z) :=
  if vm_private_data vma =? NULL then Some None
  else
    info ← infos s !! vm_private_data vma;
    let offset := u64 (Z.shiftl pgoff PAGE_SHIFT) in
    if size info <=? offset then Some None
    else Some (to_page (data info +64 offset)).

(** *** The four reads of [mmap_info] in [memexpand_mmap] *)

(** Is there one? *)
Definition memexpand_mmap_any (s : mstate) : bool := negb (mmap_info s =? NULL).

(** Does the range fit its size; and is the offset 0?  The result, if not. *)
Definition memexpand_mmap_check (start end_ vm_pgoff : Z) (s : mstate) : option (option Z) :=
  info ← infos s !! mmap_info s;
  Some (if size info <? end_ -64 start then Some (- EINVAL)
        else if negb (vm_pgoff =? 0) then Some (- EINVAL)
        else None).

(** It is stored in the area. *)
Definition memexpand_mmap_store (start end_ : Z) (s : mstate) : area := mkArea start end_ (mmap_info s).

(** Its size goes to the log. *)
Definition memexpand_mmap_log (s : mstate) : option Z := size <$> infos s !! mmap_info s.

(** The whole call, when nothing comes in between: the result and, with 0, the
    area as the process has it from then on. *)
Definition memexpand_mmap (start end_ vm_pgoff : Z) (s : mstate) : option (Z * option area) :=
  if negb (memexpand_mmap_any s) then Some (- EINVAL, None)
  else
    bad ← memexpand_mmap_check start end_ vm_pgoff s;
    match bad with
    | Some ret => Some (ret, None)
    | None => _ ← memexpand_mmap_log s; Some (0, Some (memexpand_mmap_store start end_ s))
    end.

Definition my_open (s : mstate) : Z * mstate := (0, s).
Definition my_release (s : mstate) : Z * mstate := (0, s).

(** Registering the device is what the later drivers do. *)
Definition my_init (env : registration) (held : list resource) : option (Z * list resource * mstate) :=
  '(ret, held) ← karena_init env held; Some (ret, held, mkMem ∅ ∅ NULL []).

Definition my_exit (held : list resource) (s : mstate) : option (list resource * mstate) :=
  s ← (if mmap_info s =? NULL then Some s
       else
         info ← infos s !! mmap_info s;
         s ← vfree (data info) s;
         kfree (mmap_info s) s);
  held ← karena_exit held;
  Some (held, s).

(** ** Processes *)

(** Where a call is that has not returned. *)
Inductive progress :=
  | Replying (info : Z)                        (* an ioctl that has published *)
  | Checking (start end_ vm_pgoff : Z)         (* an mmap that has found an allocation *)
  | Storing (start end_ : Z)                   (* with the size and the offset checked *)
  | Logging (vma : area).                      (* with the object stored in the area *)

(** The kernel, and what each thread is in. *)
Record device := mkDevice { kernel : mstate; under_way : gmap nat progress }.

(** The next step of a call: it is somewhere else, or has returned. *)
Definition goes_on (p : progress) (copy_out : bool) (s : mstate) : option (option progress * mstate) :=
  match p with
  | Replying info => '(_, _, s) ← memexpand_ioctl_reply info copy_out s; Some (None, s)
  | Checking start end_ vm_pgoff =>
      bad ← memexpand_mmap_check start end_ vm_pgoff s;
      Some (match bad with Some _ => None | None => Some (Storing start end_) end, s)
  | Storing start end_ => Some (Some (Logging (memexpand_mmap_store start end_ s)), s)
  | Logging vma => _ ← memexpand_mmap_log s; Some (None, mkMem (infos s) (blocks s) (mmap_info s) (areas s ++ [vma]))
  end.

(** What thread [t] does: it begins a call, or goes on with the one that it is in. *)
Inductive call :=
  | Open (t : nat) | Release (t : nat)
  | Ioctl (t : nat) (cmd : memexpand_cmd) (user : option Z)
  | Mmap (t : nat) (start end_ vm_pgoff : Z)
  | GoesOn (t : nat) (copy_out : bool)
  | Fault (i : nat) (pgoff : Z)
  | Munmap (i : nat).

(** No area has the object, and no [mmap] is under way. *)
Definition unmapped (info : Z) (d : device) : Prop :=
  Forall (fun v => vm_private_data v <> info) (areas (kernel d)) /\
  forall t p, under_way d !! t = Some p -> exists i, p = Replying i.

(** A process maps ranges of its address space and touches what it has mapped; a
    thread makes one call at a time.  The condition on the driver's own steps: a
    reply fails only while its object is unmapped. *)
Definition possible (c : call) (d : device) : Prop :=
  match c with
  | Open t | Release t => under_way d !! t = None
  | Ioctl t _ user => under_way d !! t = None /\ match user with Some n => 0 <= n < 2 ^ 64 | None => True end
  | Mmap t start end_ _ => under_way d !! t = None /\ 0 <= start < end_ /\ end_ < 2 ^ 47
  | GoesOn t copy_out =>
      exists p, under_way d !! t = Some p /\ (copy_out = false -> forall info, p = Replying info -> unmapped info d)
  | Fault i pgoff => exists v, areas (kernel d) !! i = Some v /\ 0 <= pgoff /\ pgoff * 4096 < vm_end v - vm_start v
  | Munmap i => is_Some (areas (kernel d) !! i)
  end.

Definition device_step (c : call) (d : device) : option device :=
  let s := kernel d in
  match c with
  | Open _ => Some (mkDevice (snd (my_open s)) (under_way d))
  | Release _ => Some (mkDevice (snd (my_release s)) (under_way d))
  | Ioctl t cmd user =>
      '(r, s) ← memexpand_ioctl_publish cmd user s;
      Some (mkDevice s match r with inl _ => under_way d | inr (info, _) => <[t := Replying info]> (under_way d) end)
  | Mmap t start end_ vm_pgoff =>
      Some (mkDevice s (if memexpand_mmap_any s then <[t := Checking start end_ vm_pgoff]> (under_way d) else under_way d))
  | GoesOn t copy_out =>
      p ← under_way d !! t;
      '(next, s) ← goes_on p copy_out s;
      Some (mkDevice s match next with Some p => <[t := p]> (under_way d) | None => delete t (under_way d) end)
  | Fault i pgoff => v ← areas s !! i; _ ← memexpand_vm_fault v pgoff s; Some d
  | Munmap i => Some (mkDevice (mkMem (infos s) (blocks s) (mmap_info s) (delete i (areas s))) (under_way d))
  end.

Definition loaded : device := mkDevice (mkMem ∅ ∅ NULL []) ∅.

Inductive device_reachable : device -> Prop :=
  | device_loaded : device_reachable loaded
  | device_called c d d' : device_reachable d -> possible c d -> device_step c d = Some d' -> device_reachable d'.
End Device.

(** ** What holds between steps *)

Section Safe.
Context (kplace : mstate -> option Z) (vzplace : mstate -> Z -> option Z) (to_page : Z -> option Z).
(** What the kernel promises of memory that it hands out. *)
Context (Hk : forall s p, kplace s = Some p -> p <> NULL /\ infos s !! p = None).
Context (Hv : forall s n a, vzplace s n = Some a -> 0 < a /\ a + n < 2 ^ 64 /\ blocks s !! a = None).

Definition info_ok (s : mstate) (p : Z) (i : memexpand_mmap_info) : Prop :=
  p <> NULL /\ 0 < size i /\ size i mod 4096 = 0 /\ 0 < data i /\ data i + size i < 2 ^ 64 /\ blocks s !! data i = Some (size i).

Definition area_ok (s : mstate) (v : area) : Prop :=
  is_Some (infos s !! vm_private_data v) /\ 0 <= vm_start v < vm_end v /\ vm_end v < 2 ^ 47.

Record memory_ok (s : mstate) : Prop := {
  ok_infos : forall p i, infos s !! p = Some i -> info_ok s p i;
  ok_apart : forall p q i j, infos s !! p = Some i -> infos s !! q = Some j -> data i = data j -> p = q;
  ok_last : mmap_info s = NULL \/ is_Some (infos s !! mmap_info s);
  ok_areas : Forall (area_ok s) (areas s);
}.

(** An [mmap] has found an allocation. *)
Definition progress_ok (s : mstate) (p : progress) : Prop :=
  match p with
  | Replying info => is_Some (infos s !! info)
  | Checking start end_ _ | Storing start end_ => mmap_info s <> NULL /\ 0 <= start < end_ /\ end_ < 2 ^ 47
  | Logging v => mmap_info s <> NULL /\ area_ok s v
  end.

(** Each object is replied about once. *)
Record device_ok (d : device) : Prop := {
  ok_memory : memory_ok (kernel d);
  ok_progress : forall t p, under_way d !! t = Some p -> progress_ok (kernel d) p;
  ok_once : forall t u info, under_way d !! t = Some (Replying info) -> under_way d !! u = Some (Replying info) -> t = u;
}.

Lemma PAGE_ALIGN_pages n : PAGE_ALIGN n mod 4096 = 0.
Proof.
  unfold PAGE_ALIGN, PAGE_SIZE. change (4096 - 1) with (Z.ones 12). rewrite Z.ldiff_ones_r by lia.
  rewrite Z.shiftl_mul_pow2 by lia. apply Z.mod_mul. done.
Qed.

(** A new object with its block. *)
Definition with_new (p a n : Z) (s : mstate) : mstate := mkMem (<[p := mkInfo a n]> (infos s)) (<[a := n]> (blocks s)) p (areas s).

Lemma with_new_keeps p a n s q : infos s !! p = None -> is_Some (infos s !! q) -> is_Some (infos (with_new p a n s) !! q).
Proof. intros Hn [i Hi]. exists i. cbn. by rewrite lookup_insert_ne by congruence. Qed.

Lemma with_new_ok p a n s :
  memory_ok s -> p <> NULL -> infos s !! p = None -> 0 < a -> a + n < 2 ^ 64 -> blocks s !! a = None ->
  0 < n -> n mod 4096 = 0 -> memory_ok (with_new p a n s).
Proof.
  intros [Hi Ha Hl Hv'] Hp Hn H0 H1 Hb Hn0 Hnm. assert (Hd : forall q j, infos s !! q = Some j -> data j <> a).
  { intros q j Hq E. destruct (Hi _ _ Hq) as (_ & _ & _ & _ & _ & Eb). congruence. }
  split; cbn.
  - intros q j. rewrite lookup_insert_Some. intros [[<- <-]|[Hne Hq]]; unfold info_ok; cbn; [by rewrite lookup_insert_eq|].
    destruct (Hi _ _ Hq) as (? & ? & ? & ? & ? & ?). rewrite lookup_insert_ne by (intros E; by apply (Hd _ _ Hq)). done.
  - intros q r j k. rewrite !lookup_insert_Some. intros [[<- <-]|[Hne Hq]] [[<- <-]|[Hne' Hr]]; cbn; intros E; try done.
    + by destruct (Hd _ _ Hr).
    + by destruct (Hd _ _ Hq).
    + by eapply Ha.
  - right. by rewrite lookup_insert_eq.
  - eapply Forall_impl; [exact Hv'|]. intros v (? & ? & ?). split; [by apply (with_new_keeps p a n s)|done].
Qed.

(** An ioctl up to its store: nothing is different, or there is a new object. *)
Lemma publish_cases cmd user s :
  (exists ret, memexpand_ioctl_publish kplace vzplace cmd user s = Some (inl ret, s)) \/
  exists p a n, memexpand_ioctl_publish kplace vzplace cmd user s = Some (inr (p, n), with_new p a n s) /\
    p <> NULL /\ infos s !! p = None /\ 0 < a /\ a + n < 2 ^ 64 /\ blocks s !! a = None /\ 0 < n /\ n mod 4096 = 0.
Proof.
  unfold memexpand_ioctl_publish. destruct user as [n|]; [|left; by eexists]. destruct cmd; [|left; by eexists].
  destruct (kplace s) as [p|] eqn:Ek; [|left; by eexists]. destruct (Hk _ _ Ek) as [Hp Hn].
  assert (Hfree : forall i, kfree p (put_info p i s) = Some s).
  { intros i. unfold kfree, put_info. rewrite (proj2 (Z.eqb_neq p NULL)) by done. cbn. rewrite lookup_insert_eq. cbn.
    rewrite delete_insert_id by done. by destruct s. }
  pose proof (PAGE_ALIGN_range n) as Hr. destruct (Z.eqb_spec (PAGE_ALIGN n) 0) as [E0|E0]; [left; rewrite Hfree; by eexists|].
  destruct (vzplace _ _) as [a|] eqn:Ev; [right|left; rewrite Hfree; by eexists].
  destruct (Hv _ _ _ Ev) as (Ha & Hb & Hbn). cbn in Hbn. exists p, a, (PAGE_ALIGN n). split.
  - unfold with_new, set_mmap_info, put_info, put_block. cbn. by rewrite insert_insert_eq.
  - split_and!; try done; [lia|apply PAGE_ALIGN_pages].
Qed.

(** A reply that fails frees the object and its block. *)
Lemma reply_fails info i s :
  memory_ok s -> infos s !! info = Some i ->
  memexpand_ioctl_reply info false s =
    Some (- EFAULT, None, mkMem (delete info (infos s)) (delete (data i) (blocks s)) NULL (areas s)).
Proof.
  intros Hs Hi. destruct (ok_infos _ Hs _ _ Hi) as (Hp & _ & _ & Hd & _ & Hb). unfold memexpand_ioctl_reply. rewrite Hi. cbn [mbind option_bind].
  unfold vfree. rewrite (proj2 (Z.eqb_neq (data i) NULL)) by (unfold NULL; lia). rewrite Hb. cbn [mbind option_bind].
  unfold kfree. rewrite (proj2 (Z.eqb_neq info NULL)) by done. cbn [infos]. by rewrite Hi.
Qed.

Lemma freed_ok info i s :
  memory_ok s -> infos s !! info = Some i -> Forall (fun v => vm_private_data v <> info) (areas s) ->
  memory_ok (mkMem (delete info (infos s)) (delete (data i) (blocks s)) NULL (areas s)).
Proof.
  intros [Hi Ha _ Hv'] E Hun. split; cbn; [| |by left|].
  - intros p j [Hne Hj]%lookup_delete_Some. destruct (Hi _ _ Hj) as (? & ? & ? & ? & ? & ?). unfold info_ok. cbn.
    rewrite lookup_delete_ne by (intros Hd; by apply Hne, (Ha _ _ _ _ E Hj)). done.
  - intros p q j k [_ Hj]%lookup_delete_Some [_ Hq]%lookup_delete_Some. by apply Ha.
  - rewrite Forall_forall in Hun, Hv' |- *. intros v Hin. destruct (Hv' v Hin) as (? & ?). split; [|done]. cbn.
    rewrite lookup_delete_ne; [done|]. intros E'. by apply (Hun v Hin).
Qed.

(** A page that is touched: one of the object's block, or none. *)
Lemma fault_inside s i v pgoff :
  memory_ok s -> areas s !! i = Some v -> 0 <= pgoff -> pgoff * 4096 < vm_end v - vm_start v ->
  exists info, infos s !! vm_private_data v = Some info /\ blocks s !! data info = Some (size info) /\
    memexpand_vm_fault to_page v pgoff s =
      Some (if pgoff * 4096 + 4096 <=? size info then to_page (data info + pgoff * 4096) else None).
Proof.
  intros [Hi _ _ Har] Hl Hp Hlt. pose proof (proj1 (Forall_lookup _ _) Har _ _ Hl) as ([info Ei] & ? & ?).
  destruct (Hi _ _ Ei) as (Hn & Hsz & Hm & Hd & Hb & Hbl). exists info. split; [done|]. split; [done|].
  unfold memexpand_vm_fault. rewrite (proj2 (Z.eqb_neq _ NULL)) by done. rewrite Ei. cbn [mbind option_bind].
  unfold PAGE_SHIFT. rewrite Z.shiftl_mul_pow2 by lia. change (2 ^ 12) with 4096. rewrite (u64_small (pgoff * 4096)) by lia.
  apply Z.div_exact in Hm; [|done]. destruct (Z.leb_spec (size info) (pgoff * 4096)) as [Hout|Hin].
  - by rewrite (proj2 (Z.leb_gt _ _)) by lia.
  - assert (pgoff < size info / 4096) by (apply (Z.mul_lt_mono_pos_l 4096); lia).
    rewrite u64_small by lia. by rewrite (proj2 (Z.leb_le _ _)) by lia.
Qed.

(** A call that begins, or goes on, at [t]. *)
Lemma device_ok_at t p d :
  device_ok d -> progress_ok (kernel d) p ->
  (forall info u, p = Replying info -> under_way d !! u = Some (Replying info) -> u = t) ->
  device_ok (mkDevice (kernel d) (<[t := p]> (under_way d))).
Proof.
  intros [Hm Hp Ho] Hok Honce. split; cbn; [done| |].
  - intros u q [[_ <-]|[_ Hq]]%lookup_insert_Some; [done|by eapply Hp].
  - intros u v info [[<- E]|[Hu H1]]%lookup_insert_Some [[<- E']|[Hv' H2]]%lookup_insert_Some; try done; try subst.
    + symmetry. by eapply Honce.
    + by eapply Honce.
    + by eapply Ho.
Qed.

Lemma device_ok_returned t d : device_ok d -> device_ok (mkDevice (kernel d) (delete t (under_way d))).
Proof.
  intros [Hm Hp Ho]. split; cbn; [done| |].
  - intros u q [_ Hq]%lookup_delete_Some. by eapply Hp.
  - intros u v info [_ H1]%lookup_delete_Some [_ H2]%lookup_delete_Some. by eapply Ho.
Qed.

Lemma ioctl_step_ok t cmd user d : device_ok d -> under_way d !! t = None ->
  exists d', device_step kplace vzplace to_page (Ioctl t cmd user) d = Some d' /\ device_ok d'.
Proof.
  intros Hd Ht. cbn [device_step]. destruct (publish_cases cmd user (kernel d)) as [[ret ->]|(p & a & n & -> & Hp & Hn & Ha & Hb & Hbn & Hn0 & Hnm)]; cbn [mbind option_bind].
  { exists d. split; [by destruct d|done]. }
  eexists. split; [reflexivity|]. pose proof Hd as [Hm Hpr Ho]. set (s := with_new p a n (kernel d)).
  apply (device_ok_at t (Replying p) (mkDevice s (under_way d))).
  - split; cbn; [by apply with_new_ok| |exact Ho]. intros u q Hq. specialize (Hpr u q Hq). destruct q as [j|st en off|st en|v]; cbn in *.
    + by apply (with_new_keeps p a n (kernel d)).
    + tauto.
    + tauto.
    + destruct Hpr as (_ & ? & ?). split; [done|]. split; [by apply (with_new_keeps p a n (kernel d))|done].
  - cbn. rewrite lookup_insert_eq. by eexists.
  - cbn. intros info u [= <-] Hu. exfalso. destruct (Hpr u _ Hu) as [j Hj]. by rewrite Hn in Hj.
Qed.

Lemma goes_on_step_ok t copy_out d : device_ok d -> possible (GoesOn t copy_out) d ->
  exists d', device_step kplace vzplace to_page (GoesOn t copy_out) d = Some d' /\ device_ok d'.
Proof.
  intros Hd (p & Ht & Hun). cbn [device_step]. rewrite Ht. cbn [mbind option_bind]. pose proof Hd as [Hm Hpr Ho]. pose proof (Hpr t p Ht) as Hp.
  assert (Hback : device_ok (mkDevice (kernel d) (delete t (under_way d)))) by by apply device_ok_returned.
  assert (Hlive : mmap_info (kernel d) <> NULL -> is_Some (infos (kernel d) !! mmap_info (kernel d))) by (destruct (ok_last _ Hm); tauto).
  destruct p as [info|st en off|st en|v]; cbn [goes_on progress_ok] in *.
  - destruct Hp as [i Hi]. destruct copy_out.
    { unfold memexpand_ioctl_reply. rewrite Hi. by eexists. }
    destruct (Hun eq_refl info eq_refl) as [Hfree Hall]. rewrite (reply_fails info i _ Hm Hi). eexists. split; [reflexivity|].
    split; cbn; [by apply freed_ok| |].
    + intros u q [Hne Hq]%lookup_delete_Some. destruct (Hall u q Hq) as [j ->]. cbn. pose proof (Hpr u _ Hq) as Hj. cbn in Hj.
      rewrite lookup_delete_ne; [done|]. intros <-. by apply Hne, (Ho t u info).
    + intros u v j [_ H1]%lookup_delete_Some [_ H2]%lookup_delete_Some. by eapply Ho.
  - destruct Hp as (Hn & Hr). destruct (Hlive Hn) as [i Hi]. unfold memexpand_mmap_check. rewrite Hi. cbn [mbind option_bind].
    destruct (_ <? _); [by eexists|]. destruct (negb _); [by eexists|]. eexists. split; [reflexivity|]. by apply device_ok_at.
  - destruct Hp as (Hn & Hr). eexists. split; [reflexivity|]. apply device_ok_at; [done| |done]. cbn. split; [done|]. split; [by apply Hlive|done].
  - destruct Hp as (Hn & Hv'). destruct (Hlive Hn) as [i Hi]. unfold memexpand_mmap_log. rewrite Hi. cbn. eexists. split; [reflexivity|].
    destruct Hback as [[? ? ? ?] Hpr' Ho']. split; cbn; [split; cbn; try done; apply Forall_app; split; [done|by constructor]|exact Hpr'|exact Ho'].
Qed.

Lemma step_ok c d : device_ok d -> possible c d -> exists d', device_step kplace vzplace to_page c d = Some d' /\ device_ok d'.
Proof.
  intros Hd Hp. destruct c as [t|t|t cmd user|t start end_ off|t copy_out|i pgoff|i].
  - exists d. split; [by destruct d|done].
  - exists d. split; [by destruct d|done].
  - apply ioctl_step_ok; [done|apply Hp].
  - destruct Hp as (Ht & Hr). cbn [device_step]. eexists. split; [reflexivity|]. unfold memexpand_mmap_any.
    destruct (Z.eqb_spec (mmap_info (kernel d)) NULL); [by destruct d|]. by apply device_ok_at.
  - by apply goes_on_step_ok.
  - destruct Hp as (v & Ev & H0 & H1). destruct (fault_inside (kernel d) i v pgoff (ok_memory _ Hd) Ev H0 H1) as (info & _ & _ & E).
    cbn [device_step]. rewrite Ev. cbn [mbind option_bind]. rewrite E. by exists d.
  - eexists. split; [reflexivity|]. destruct Hd as [[? ? ? ?] Hpr Ho]. split; cbn; [split; cbn; try done; by apply Forall_delete|exact Hpr|exact Ho].
Qed.

Lemma loaded_ok : device_ok loaded.
Proof.
  split; cbn; [split; cbn; [intros p i; by rewrite lookup_empty|intros p q i j; by rewrite lookup_empty|by left|constructor]|..].
  - intros t p. by rewrite lookup_empty.
  - intros t u info. by rewrite lookup_empty.
Qed.

Lemma reachable_ok d : device_reachable kplace vzplace to_page d -> device_ok d.
Proof.
  induction 1 as [|c d d' _ IH Hp E]; [apply loaded_ok|]. destruct (step_ok c d IH Hp) as (s1 & E1 & H1). congruence.
Qed.
End Safe.


(** Unloading frees the last allocation only. *)
Lemma my_exit_frees s held held' : memory_ok s -> karena_exit held = Some held' ->
  exists s', my_exit held s = Some (held', s') /\ infos s' = delete (mmap_info s) (infos s).
Proof.
  intros [Hi _ Hl _] He. unfold my_exit. destruct (Z.eqb_spec (mmap_info s) NULL) as [E|E].
  - cbn [mbind option_bind]. rewrite He. cbn. exists s. split; [done|]. rewrite E, delete_id; [done|].
    destruct (infos s !! NULL) as [i|] eqn:Hn; [|done]. by destruct (Hi _ _ Hn) as [? _].
  - destruct Hl as [?|[i Ei]]; [done|]. rewrite Ei. cbn [mbind option_bind]. destruct (Hi _ _ Ei) as (_ & _ & _ & Hd & _ & Hb).
    unfold vfree, kfree. rewrite (proj2 (Z.eqb_neq (data i) NULL)) by (unfold NULL; lia). rewrite Hb. cbn [mbind option_bind mmap_info infos].
    rewrite (proj2 (Z.eqb_neq (mmap_info s) NULL)) by done. cbn [infos]. rewrite Ei. cbn [mbind option_bind]. rewrite He. cbn. by eexists.
Qed.

(** A concrete kernel: objects and blocks by their number. *)
Module DemoExpand.
Definition kplace (s : mstate) : option Z := Some (1 + map_fold (fun p _ t => Z.max p t) 0 (infos s)).
Definition vzplace (s : mstate) (n : Z) : option Z :=
  let a := 65536 + map_fold (fun p k t => Z.max (p + Z.max k 0) t) 0 (blocks s) in if a + n <? 2 ^ 64 then Some a else None.
Definition to_page (a : Z) : option Z := Some (a / 4096).

Lemma kplace_new s p : kplace s = Some p -> p <> NULL /\ infos s !! p = None.
Proof.
  intros [= <-]. pose proof (map_fold_weak_ind (fun r m => 0 <= r /\ forall q (i : memexpand_mmap_info), m !! q = Some i -> q <= r)
    (fun p _ t => Z.max p t) 0) as H. destruct (H ltac:(split; [lia|intros q i Hq; by rewrite lookup_empty in Hq])
    ltac:(intros i x m r _ [Hr IH]; split; [lia|]; intros q j [[<- <-]|[_ Hq]]%lookup_insert_Some; [lia|specialize (IH _ _ Hq); lia]) (infos s)) as [H0 Hm].
  unfold NULL. split; [lia|]. destruct (infos s !! _) eqn:E; [|done]. specialize (Hm _ _ E). lia.
Qed.

Lemma vzplace_new s n a : vzplace s n = Some a -> 0 < a /\ a + n < 2 ^ 64 /\ blocks s !! a = None.
Proof.
  unfold vzplace. pose proof (map_fold_weak_ind (fun r m => 0 <= r /\ forall q (i : Z), m !! q = Some i -> q <= r)
    (fun p k t => Z.max (p + Z.max k 0) t) 0) as H. destruct (H ltac:(split; [lia|intros q i Hq; by rewrite lookup_empty in Hq])
    ltac:(intros i x m r _ [Hr IH]; split; [lia|]; intros q j [[<- <-]|[_ Hq]]%lookup_insert_Some; [lia|specialize (IH _ _ Hq); lia]) (blocks s)) as [H0 Hm].
  destruct (Z.ltb_spec (65536 + map_fold (fun p k t => Z.max (p + Z.max k 0) t) 0 (blocks s) + n) (2 ^ 64)); intros [= <-].
  split_and!; [lia|lia|]. destruct (blocks s !! _) eqn:E; [|done]. specialize (Hm _ _ E). lia.
Qed.

Abbreviation reachable := (device_reachable kplace vzplace to_page).
Abbreviation steps := (fold_left (fun o c => o ≫= device_step kplace vzplace to_page c)).

(** One step more, in a concrete run. *)
Ltac next R c :=
  eapply (device_called _ _ _ c) in R;
  [|cbn; first [by (eexists; split; [reflexivity|])|by (repeat split; lia)]|vm_compute; reflexivity].

(** Memory mapped by thread 1 while thread 0 waits for its reply, another
    allocation, and a page is touched. *)
Lemma played : exists d, reachable d /\ exists v, areas (kernel d) !! 0%nat = Some v /\ possible (Fault 0 0) d /\
  infos (kernel d) !! vm_private_data v = Some (mkInfo 65536 8192).
Proof.
  pose proof (device_loaded kplace vzplace to_page) as R.
  next R (Ioctl 0 MEMEXPAND_ALLOCATE (Some 5000)).
  next R (Mmap 1 1048576 1052672 0). next R (GoesOn 1 true). next R (GoesOn 1 true).
  next R (GoesOn 0 true). next R (GoesOn 1 true). next R (Ioctl 0 MEMEXPAND_ALLOCATE (Some 100)).
  eexists. split; [exact R|]. eexists. split; [reflexivity|]. split; [|reflexivity]. eexists. split; [reflexivity|]. cbn. lia.
Qed.

(** Two allocations and the end of the module: the first stays for good. *)
Lemma exit_leaks : exists d s', reachable d /\ areas (kernel d) = [] /\ under_way d = ∅ /\
  my_exit [Cdev_entry; Dev_node; Dev_class; Chrdev_region] (kernel d) = Some ([], s') /\ infos s' !! 1 = Some (mkInfo 65536 8192) /\
  blocks s' !! 65536 = Some 8192.
Proof.
  pose proof (device_loaded kplace vzplace to_page) as R.
  next R (Ioctl 0 MEMEXPAND_ALLOCATE (Some 5000)). next R (GoesOn 0 true).
  next R (Ioctl 0 MEMEXPAND_ALLOCATE (Some 100)). next R (GoesOn 0 true).
  do 2 eexists. split; [exact R|]. split; [reflexivity|]. split; [reflexivity|]. split; [vm_compute; reflexivity|]. by split.
Qed.

(** When the reply cannot be copied the device forgets the allocation before,
    too: it can no longer be mapped. *)
Lemma copy_out_forgets : exists d s', reachable d /\ mmap_info (kernel d) <> NULL /\
  memexpand_ioctl kplace vzplace MEMEXPAND_ALLOCATE (Some 100) false (kernel d) = Some (- EFAULT, None, s') /\
  infos s' = infos (kernel d) /\ memexpand_mmap 0 4096 0 s' = Some (- EINVAL, None).
Proof.
  pose proof (device_loaded kplace vzplace to_page) as R.
  next R (Ioctl 0 MEMEXPAND_ALLOCATE (Some 5000)). next R (GoesOn 0 true).
  do 2 eexists. split; [exact R|]. split; [done|]. split; [vm_compute; reflexivity|]. by split.
Qed.

(** A reply that fails too late.  The object is published before it is copied
    out: thread 1 maps it, the reply of thread 0 fails and frees it, and touching
    the page reads the freed object; and when the reply fails between the test
    for NULL and the comparison of the size, [mmap] reads through NULL. *)
Lemma reply_races :
  (exists d, steps [Ioctl 0 MEMEXPAND_ALLOCATE (Some 5000); Mmap 1 1048576 1052672 0; GoesOn 1 true; GoesOn 1 true; GoesOn 1 true;
                    GoesOn 0 false] (Some loaded) = Some d /\
     possible (Fault 0 0) d /\ device_step kplace vzplace to_page (Fault 0 0) d = None) /\
  (exists d, steps [Ioctl 0 MEMEXPAND_ALLOCATE (Some 5000); Mmap 1 1048576 1052672 0; GoesOn 0 false] (Some loaded) = Some d /\
     possible (GoesOn 1 true) d /\ device_step kplace vzplace to_page (GoesOn 1 true) d = None).
Proof.
  split; (eexists; split; [vm_compute; reflexivity|]; split; [|vm_compute; reflexivity]).
  - eexists. split; [reflexivity|]. cbn. lia.
  - eexists. split; [reflexivity|]. done.
Qed.
End DemoExpand.

