(* ===== verification/KArena.v ===== *)
(** * The client of the kernel arena: [src/src/allocators/karena.c]

    The library functions over the device [/dev/karena], composed with the
    model of the driver ([KArenaModule]): a process has its descriptor of the
    device (the static [fd]), the driver behind it, its memory and the areas of
    it that are mappings of the device.  An arena handle is the index of an
    arena of the driver.  [None] is a fault: of the process, or of the kernel.

    The thread-arena table is that of [ThreadArenas]; the scratch functions of
    this copy are here. *)

From S2P Require Import Prelude.
From S2P Require Import Memory.
From S2P Require Import Os.
From S2P Require Import UArena.
From S2P Require Import ThreadArenas.
From S2P Require Import KArenaModule.
From S2P Require Import ArenaIface.
#[local] Open Scope Z_scope.

Record kclient := mkKC {
  kc_fd : Z;                 (* static int fd *)
  kc_open : bool;            (* whether fd is an open descriptor of the device *)
  kc_kernel : kstate;
  kc_mem : mem;
  kc_maps : gmap Z Z;        (* device mappings: address, length *)
}.

Definition KC (A : Type) : Type := kclient -> option (A * kclient).

#[export] Instance KC_ret : MRet KC := fun A a c => Some (a, c).
#[export] Instance KC_bind : MBind KC := fun A B f k c =>
  match k c with
  | Some (a, c') => f a c'
  | None => None
  end.

Definition with_kernel (k : kstate) (c : kclient) : kclient :=
  mkKC (kc_fd c) (kc_open c) k (kc_mem c) (kc_maps c).
Definition with_mem (m : mem) (c : kclient) : kclient :=
  mkKC (kc_fd c) (kc_open c) (kc_kernel c) m (kc_maps c).

Section Client.
(** The kernel's [vmalloc], the calling process, the result of [open], and the
    address [mmap] picks with the contents found there. *)
Variable vplace : kstate -> Z -> option Z.
Variable pid : Z.
Variable open_result : Z.
Variable mmap_place : kclient -> Z -> option Z.
Variable contents : Z -> Z.

(** [ioctl(fd, cmd, &alloc)]: the result and [alloc] after the call. *)
Definition ioctl (cmd : karena_cmd) (alloc : ka_data) : KC (Z * ka_data) := fun c =>
  if kc_open c then
    '(ret, reply, k) ← karena_ioctl vplace cmd pid (Some alloc) true (kc_kernel c);
    Some ((if ret <? 0 then -1 else ret, default alloc reply), with_kernel k c)
  else Some ((-1, alloc), c).

(** [close(fd)]: the driver's release runs when no mapping holds the file. *)
Definition close_fd : KC unit := fun c =>
  if kc_open c then
    if decide (kc_maps c = ∅) then
      '(_, k) ← dev_release pid (kc_kernel c);
      Some (tt, mkKC (kc_fd c) false k (kc_mem c) (kc_maps c))
    else Some (tt, mkKC (kc_fd c) false (kc_kernel c) (kc_mem c) (kc_maps c))
  else Some (tt, c).

(** [fd = open("/dev/karena", O_RDWR)] *)
Definition open_fd : KC unit := fun c =>
  if open_result <? 0 then
    Some (tt, mkKC open_result false (kc_kernel c) (kc_mem c) (kc_maps c))
  else
    let '(_, k) := dev_open (kc_kernel c) in
    Some (tt, mkKC open_result true k (kc_mem c) (kc_maps c)).

(** [mmap(NULL, size, PROT_READ | PROT_WRITE, MAP_SHARED, fd, 0)] *)
Definition mmap_fd (size : Z) : KC Z := fun c =>
  if negb (kc_open c) || (size =? 0) then Some (MAP_FAILED, c)
  else match mmap_place c size with
       | None => Some (MAP_FAILED, c)
       | Some a =>
           '(ret, _, k) ← karena_mmap (mkVma a (a + size) 0) (kc_kernel c);
           if ret =? 0 then
             Some (a, mkKC (kc_fd c) (kc_open c) k
                        (map_bytes (kc_mem c) a (Z.to_nat size) contents) (<[a := size]> (kc_maps c)))
           else Some (MAP_FAILED, with_kernel k c)
       end.

(** [munmap(a, n)] of a whole device mapping; of anything else, [EINVAL] or no
    effect on the device. *)
Definition munmap_fd (a n : Z) : KC unit := fun c =>
  match kc_maps c !! a with
  | Some k =>
      if k =? n then
        Some (tt, mkKC (kc_fd c) (kc_open c) (kc_kernel c)
                    (unmap_bytes (kc_mem c) a (Z.to_nat n)) (delete a (kc_maps c)))
      else Some (tt, c)
  | None => Some (tt, c)
  end.

Definition get_fd : KC Z := fun c => Some (kc_fd c, c).

Definition ka_create (size : Z) : KC Z :=
  fd ← get_fd;
  failed ← (if fd =? 0 then open_fd;; fd ← get_fd; mret (fd <? 0) else mret false);
  if (failed : bool) then mret NULL
  else
    '(r, alloc) ← ioctl KARENA_CREATE (mkKaData size 0);
    if r <? 0 then close_fd;; mret NULL
    else
      a ← mmap_fd (kd_size alloc);
      if a =? MAP_FAILED then close_fd;; mret NULL
      else mret (kd_arena alloc).

Definition ka_alloc (arena size : Z) : KC Z :=
  '(r, alloc) ← ioctl KARENA_ALLOC (mkKaData size arena);
  if negb (r =? 0) then mret 0 else mret (kd_arena alloc).

(** [explicit_bzero(ptr, size)] on the process's memory. *)
Definition explicit_bzero (ptr size : Z) : KC unit := fun c =>
  '(_, m) ← bzero ptr size (kc_mem c); Some (tt, with_mem m c).

Definition ka_zalloc (arena size : Z) : KC Z :=
  ptr ← ka_alloc arena size;
  explicit_bzero ptr size;;
  mret ptr.

Definition ka_seek (arena pos : Z) : KC Z :=
  '(r, alloc) ← ioctl KARENA_SEEK (mkKaData pos arena);
  if negb (r =? 0) then mret NULL else mret (kd_arena alloc).

Definition ka_free (arena : Z) : KC Z := ka_seek arena 0.

Definition ka_pop (arena size : Z) : KC unit :=
  ioctl KARENA_POP (mkKaData size arena);; mret tt.

Definition ka_pos (arena : Z) : KC Z :=
  '(r, alloc) ← ioctl KARENA_POS (mkKaData 0 arena);
  if negb (r =? 0) then mret (u64 (-1)) else mret (kd_size alloc).

Definition ka_reserve (arena sz : Z) : KC Z :=
  '(r, alloc) ← ioctl KARENA_RESERVE (mkKaData sz arena);
  if negb (r =? 0) then mret (u64 (-1)) else mret (kd_size alloc).

Definition ka_base (arena : Z) : KC Z :=
  '(r, alloc) ← ioctl KARENA_BASE (mkKaData 0 arena);
  if negb (r =? 0) then mret NULL else mret (kd_arena alloc).

Definition ka_size (arena : Z) : KC Z :=
  '(r, alloc) ← ioctl KARENA_SIZE (mkKaData 0 arena);
  if negb (r =? 0) then mret (u64 (-1)) else mret (kd_size alloc).

Definition ka_destroy (arena : Z) : KC unit :=
  '(_, alloc) ← ioctl KARENA_DESTROY (mkKaData 0 arena);
  if 0 <? kd_size alloc then munmap_fd arena (kd_size alloc) else mret tt.

Definition ka_bootstrap (arena size : Z) : KC Z :=
  '(r, alloc) ← ioctl KARENA_BOOTSTRAP (mkKaData size arena);
  if negb (r =? 0) then mret NULL else mret (kd_arena alloc).

(** *** Scratch regions *)

Record KAScratch := mkKAScratch { kas_ua : Z; kas_f5 : Z }.

Definition ka_scratch_begin (ka : Z) : KC KAScratch :=
  if negb (ka =? NULL) then pos ← ka_pos ka; mret (mkKAScratch ka pos)
  else mret (mkKAScratch NULL 0).

Definition ka_scratch_release (kas : KAScratch) : KC unit :=
  ka_seek (kas_ua kas) (kas_f5 kas);; mret tt.

Definition ka__thread_arenas_init__ := thread_arenas_init.
Definition ka__thread_arenas_add__ := thread_arenas_add.

Definition ka__scratch_get__ (conflicts : list Z) (tas : thread_arenas) : KC KAScratch :=
  match scratch_select conflicts tas with
  | None => fun _ => None
  | Some ka => if ka =? NULL then mret (mkKAScratch NULL 0) else ka_scratch_begin ka
  end.

(** *** The operations behind [sdhs_arena.h] *)

Definition ka_do (h : Z) (o : Bump.op) : KC Z :=
  match o with
  | Bump.Alloc n => ka_alloc h n
  | Bump.Zalloc n => ka_zalloc h n
  | Bump.Free => ka_free h;; mret 0
  | Bump.Pop n => ka_pop h n;; mret 0
  | Bump.Pos => ka_pos h
  | Bump.Seek p => ka_seek h p
  | Bump.Reserve n => ka_reserve h n
  end.

(** An arena of the driver, mapped in full in the process. *)
Record ka_view (c : kclient) (h : Z) (v : view) : Prop := {
  kav_open : kc_open c = true;
  kav_slot : exists s, get_slot h (kc_kernel c) = Some s /\
               k_size s = v_cap v /\ k_cur s = v_cur v /\ k_uaddr s = v_base v;
  kav_cur : 0 <= v_cur v <= v_cap v /\ v_cap v < 2 ^ 63;
  kav_base : 0 < v_base v /\ v_base v + v_cap v < 2 ^ 64;
  kav_mem : mapped (kc_mem c) (v_base v) (v_cap v);
}.

(** ** Lemmas *)

(** The commands served by a handler on one arena. *)
Definition slot_handler (cmd : karena_cmd) : option (KSlot -> ka_data -> Z * KSlot * ka_data) :=
  match cmd with
  | KARENA_ALLOC => Some handle_arena_alloc
  | KARENA_SEEK => Some handle_arena_seek
  | KARENA_POP => Some handle_arena_pop
  | KARENA_POS => Some handle_arena_pos
  | KARENA_RESERVE => Some handle_arena_reserve
  | KARENA_SIZE => Some handle_arena_size
  | KARENA_BASE => Some handle_arena_base
  | _ => None
  end.

Lemma ioctl_on_slot cmd f alloc c s :
  kc_open c = true -> slot_handler cmd = Some f -> get_slot (kd_arena alloc) (kc_kernel c) = Some s ->
  ioctl cmd alloc c =
  let '(ret, s', alloc') := f s alloc in
  Some ((if ret <? 0 then -1 else ret,
         if negb (ret =? 0) || bool_decide (cmd = KARENA_POP) then alloc else alloc'),
        with_kernel (set_slot (kd_arena alloc) s' (kc_kernel c)) c).
Proof.
  intros Ho Hf Hs. unfold ioctl. rewrite Ho. unfold karena_ioctl.
  destruct cmd; cbn in Hf; simplify_eq; rewrite Hs; cbn [mbind option_bind on_slot];
    unfold on_slot;
    match goal with |- context [?h s alloc] => destruct (h s alloc) as [[ret s'] alloc'] end;
    cbn [mbind option_bind]; rewrite ?bool_decide_eq_false_2 by done;
    rewrite ?bool_decide_eq_true_2 by done; rewrite ?orb_false_r, ?orb_true_r; cbn [orb];
    destruct (Z.eqb_spec ret 0) as [->|]; reflexivity.
Qed.

Lemma set_cur_eq s : set_cur (k_cur s) s = s.
Proof. by destruct s. Qed.

(** Moving the cursor inside the capacity. *)
Lemma ka_view_cursor c h v s cur :
  ka_view c h v -> get_slot h (kc_kernel c) = Some s -> 0 <= cur <= v_cap v ->
  ka_view (with_kernel (set_slot h (set_cur cur s) (kc_kernel c)) c) h (view_at v cur).
Proof.
  intros [Ho (s' & Hs' & Hz & Hc & Hu) Hcur Hb Hm] Hs Hr. rewrite Hs in Hs'. simplify_eq.
  constructor; cbn; try done; [|lia].
  exists (set_cur cur s'). split; [by eapply get_set_slot|]. cbn. by rewrite Hz, Hu.
Qed.

Lemma ka_view_cleared c h v m :
  ka_view c h v -> mapped m (v_base v) (v_cap v) -> ka_view (with_mem m c) h v.
Proof. by intros [Ho Hs Hcur Hb Hm] Hm'. Qed.

Ltac ka_ioctl Hs :=
  match goal with
  | |- context [ioctl ?cmd ?alloc ?c] =>
      erewrite (ioctl_on_slot cmd _ alloc c) by (reflexivity || exact Hs || eassumption)
  end.

Lemma ka_alloc_spec c h v n :
  ka_view c h v -> 0 <= n < 2 ^ 63 ->
  exists c', ka_alloc h n c = Some (view_result v (Bump.Alloc n), c') /\
             ka_view c' h (view_step v (Bump.Alloc n)) /\ kc_mem c' = kc_mem c.
Proof.
  intros Hv Hn. pose proof Hv as [Ho (s & Hs & Hz & Hc & Hu) Hcur Hb _].
  unfold ka_alloc, mbind, KC_bind. ka_ioctl Hs. unfold handle_arena_alloc. cbn [kd_size kd_arena].
  rewrite Hz, Hc, Hu, u64_small by lia. unfold view_result, view_step. cbn [Bump.step].
  destruct (Z.leb_spec (v_cur v + n) (v_cap v)); cbn -[with_kernel set_slot]; eexists.
  - rewrite u64_small by lia. split; [done|]. split; [apply ka_view_cursor; by (done || lia)|done].
  - split; [done|]. split; [|done]. rewrite <- (set_cur_eq s), Hc. apply ka_view_cursor; by (done || lia).
Qed.

Lemma ka_zalloc_spec c h v n :
  ka_view c h v -> 0 <= n -> v_cur v + n <= v_cap v ->
  exists c', ka_zalloc h n c = Some (view_result v (Bump.Zalloc n), c') /\
             ka_view c' h (view_step v (Bump.Zalloc n)).
Proof.
  intros Hv Hn Hfit. destruct (ka_alloc_spec c h v n Hv) as (c1 & E & Hv1 & Hm).
  { destruct Hv. lia. }
  unfold ka_zalloc, mbind, KC_bind. rewrite E. unfold view_result, view_step in *. cbn [Bump.step] in *.
  rewrite (proj2 (Z.leb_le _ _)) in * by lia. cbn [fst snd concrete] in *.
  pose proof Hv as [_ _ Hcur Hb Hmap]. unfold explicit_bzero. rewrite Hm.
  destruct (bzero_spec (kc_mem c) (v_base v + v_cur v) n) as (m' & Em & Hag & _);
    [eapply mapped_sub; [exact Hmap|lia..]|].
  rewrite Em. cbn [mbind option_bind]. eexists. split; [reflexivity|].
  apply ka_view_cleared; [done|]. by eapply agree_outside_mapped.
Qed.

Lemma ka_seek_spec c h v p :
  ka_view c h v -> 0 <= p <= v_cap v ->
  exists c', ka_seek h p c = Some (v_base v + p, c') /\ ka_view c' h (view_at v p).
Proof.
  intros Hv Hp. pose proof Hv as [Ho (s & Hs & Hz & Hc & Hu) Hcur Hb _].
  unfold ka_seek, mbind, KC_bind. ka_ioctl Hs. unfold handle_arena_seek. cbn [kd_size kd_arena].
  eexists. split; [|by apply ka_view_cursor].
  cbn -[with_kernel set_slot set_cur]. cbn [k_uaddr k_cur set_cur]. rewrite Hu, u64_small by lia. done.
Qed.

Lemma ka_do_spec c h v o :
  ka_view c h v -> in_contract v o ->
  exists c', ka_do h o c = Some (view_result v o, c') /\ ka_view c' h (view_step v o).
Proof.
  intros Hv [Hop Hin]. pose proof Hv as [Ho (s & Hs & Hz & Hc & Hu) Hcur Hb _]. unfold op_ok in Hop.
  destruct o as [n|n| |n| |p|n]; cbn [ka_do Bump.arg] in *.
  - destruct (ka_alloc_spec c h v n Hv) as (c' & ? & ? & _); [lia|by exists c'].
  - apply ka_zalloc_spec; [done|lia|done].
  - destruct (ka_seek_spec c h v 0 Hv) as (c' & E & Hv'); [lia|].
    unfold ka_free, mbind, KC_bind. rewrite E. by exists c'.
  - unfold ka_pop, mbind, KC_bind. ka_ioctl Hs. unfold handle_arena_pop. cbn [kd_size kd_arena].
    rewrite Hc. unfold view_result, view_step. cbn [Bump.step].
    destruct (Z.ltb_spec (v_cur v) n), (Z.leb_spec n (v_cur v)); try lia;
      cbn -[with_kernel set_slot]; eexists; (split; [reflexivity|]).
    + rewrite <- (set_cur_eq s), Hc. apply ka_view_cursor; by (done || lia).
    + rewrite u64_small by lia. apply ka_view_cursor; by (done || lia).
  - unfold ka_pos, mbind, KC_bind. ka_ioctl Hs. unfold handle_arena_pos. cbn [kd_size kd_arena].
    cbn -[with_kernel set_slot]. rewrite Hc. eexists. split; [reflexivity|].
    unfold view_step. cbn [Bump.step fst]. rewrite <- (set_cur_eq s), Hc.
    apply ka_view_cursor; by (done || lia).
  - unfold view_result, view_step. cbn [Bump.step]. rewrite (proj2 (Z.leb_le _ _)) by lia.
    exact (ka_seek_spec c h v p Hv (conj (proj1 Hop) Hin)).
  - unfold ka_reserve, mbind, KC_bind. ka_ioctl Hs. unfold handle_arena_reserve. cbn [kd_size kd_arena].
    rewrite Hz, Hc, (u64_small (v_cur v + n)) by lia. unfold view_result, view_step. cbn [Bump.step].
    destruct (Z.ltb_spec (v_cap v) (v_cur v + n)), (Z.leb_spec (v_cur v + n) (v_cap v)); try lia;
      cbn -[with_kernel set_slot]; eexists.
    + rewrite u64_small, Z.min_r by lia. split; [reflexivity|].
      rewrite <- (set_cur_eq s), Hc. apply ka_view_cursor; by (done || lia).
    + rewrite Z.min_l by lia. split; [reflexivity|]. apply ka_view_cursor; by (done || lia).
Qed.

Lemma ka_view_bounds c h v : ka_view c h v -> 0 <= v_cur v <= v_cap v /\ v_cap v < 2 ^ 63.
Proof. by intros []. Qed.

(** The kernel arena behind the interface. *)
Definition KArena_impl : ArenaImpl kclient := {|
  arena_do := ka_do;
  arena_view := ka_view;
  arena_view_cur := ka_view_bounds;
  arena_do_spec := ka_do_spec;
|}.

Lemma ka_ScratchBegin_spec c h v :
  h <> NULL -> ka_view c h v -> exists c', ka_scratch_begin h c = Some (mkKAScratch h (v_cur v), c') /\ ka_view c' h v.
Proof.
  intros Hh Hv. destruct (ka_do_spec c h v Bump.Pos Hv) as (c' & E & Hv').
  { split; [|done]. unfold op_ok. cbn. lia. }
  exists c'. unfold ka_scratch_begin, mbind, KC_bind, mret, KC_ret. rewrite (proj2 (Z.eqb_neq _ _) Hh). cbn [negb ka_do] in *.
  rewrite E. split; [done|]. by destruct v.
Qed.

Lemma ka_ScratchRelease_spec c h v p :
  ka_view c h v -> 0 <= p <= v_cap v ->
  exists c', ka_scratch_release (mkKAScratch h p) c = Some (tt, c') /\ ka_view c' h (view_at v p).
Proof.
  intros Hv Hp. destruct (ka_seek_spec c h v p Hv Hp) as (c' & E & Hv').
  exists c'. split; [|done]. unfold ka_scratch_release, mbind, KC_bind, mret, KC_ret. cbn [kas_ua kas_f5]. by rewrite E.
Qed.

(** Its scratch regions: the law holds of every handle but 0. *)
Definition KArena_scratch : @ScratchImpl kclient KArena_impl := {|
  mk_scratch := mkKAScratch;
  ScratchBegin := ka_scratch_begin;
  ScratchRelease := ka_scratch_release;
  ScratchBegin_spec := ka_ScratchBegin_spec : forall s h v, h <> NULL -> @arena_view _ KArena_impl s h v -> _;
  ScratchRelease_spec := ka_ScratchRelease_spec : forall s h v p, @arena_view _ KArena_impl s h v -> _ -> _;
|}.
End Client.

(** A concrete process for the witnesses: it maps at a fixed address. *)
Definition demo_place (c : kclient) (n : Z) : option Z := Some (2 ^ 20).

(** ** Properties *)

(** C33: A kernel arena is a bump allocator.  With an open device (not on descriptor 0), a driver in
    its invariant that has a free slot, a size from 1 to below 2^63 - 4095, a
    [vmalloc] that never grants a live block and [mmap] giving an address below
    the top of the address space: [ka_create] returns the handle of an arena of
    the page-aligned size that is mapped in full, and then any sequence of calls
    inside the contract does exactly what the abstract allocator does; or
    [vmalloc] fails for that size, and the call corrupts the kernel. *)
Theorem ka_create_refines (vplace : kstate -> Z -> option Z) (pid open_result : Z)
    (mmap_place : kclient -> Z -> option Z) (contents : Z -> Z) (c : kclient) (size : Z)
    (ops : list Bump.op) :
  vmalloc_fresh vplace -> kinv (kc_kernel c) -> kc_open c = true -> kc_fd c <> 0 ->
  Exists (fun s => k_uaddr s = 0) (karenas (kc_kernel c)) ->
  0 < size -> size + 4095 < 2 ^ 63 ->
  (forall c, exists a, mmap_place c (PAGE_ALIGN size) = Some a /\
                       0 < a /\ a + PAGE_ALIGN size < 2 ^ 64 - 1) ->
  (ka_create vplace pid open_result mmap_place contents size c = None /\
   vmalloc_refuses vplace (kc_kernel c) (PAGE_ALIGN size)) \/
  exists h a c1,
    let v := mkView a (PAGE_ALIGN size) 0 in
    ka_create vplace pid open_result mmap_place contents size c = Some (h, c1) /\
    ka_view c1 h v /\ size <= PAGE_ALIGN size /\
    (all_in_contract v ops ->
     exists c2, @arena_run _ (KArena_impl vplace pid) h ops c1 = Some ((view_run v ops).2, c2) /\
                ka_view c2 h (view_run v ops).1).
Proof.
  intros Hv Hk Ho Hfd Hfree Hsz Hsz2 Hmap.
  assert (HP : PAGE_ALIGN size = 4096 * ((size + 4095) / 4096)) by (apply PAGE_ALIGN_spec; lia).
  assert (HP2 : size <= PAGE_ALIGN size < 2 ^ 63) by (Z.div_mod_to_equations; lia).
  set (n := PAGE_ALIGN size) in *.
  destruct (find_open_slot_spec (kc_kernel c) (inv_len _ Hk)) as [[_ Hfull]|(i & s & Hf & Hg & Hu & Hi)].
  { apply Exists_exists in Hfree as (x & Hx & Hx0). exfalso. by apply (proj1 (Forall_forall _ _) Hfull x Hx). }
  destruct (create_cases vplace Hv pid (mkKaData size 0) (kc_kernel c) i s Hf Hg Hi)
    as [[Hcreate Hno]|(ka & Hcreate & _ & _)]; [cbn; fold n; lia|left|right]; cbn [kd_size] in Hcreate; fold n in Hcreate.
  { split; [|done]. unfold ka_create, mbind, KC_bind, get_fd. rewrite (proj2 (Z.eqb_neq _ _) Hfd).
    unfold mret, KC_ret, ioctl. cbn iota. rewrite Ho. unfold karena_ioctl. by rewrite Hcreate. }
  set (k1 := create_result (kc_kernel c) i pid n ka) in *.
  set (cm := with_kernel k1 c). destruct (Hmap cm) as (a & Ha & Ha1 & Ha2).
  assert (Hg1 : get_slot i k1 = Some (mkKSlot n 0 0 false ka pid)) by exact (get_set_slot i _ _ s Hg).
  set (c1 := mkKC (kc_fd c) true (set_slot i (set_uaddr a (mkKSlot n 0 0 false ka pid)) k1)
               (map_bytes (kc_mem c) a (Z.to_nat n) contents) (<[a := n]> (kc_maps c))).
  assert (Hview : ka_view c1 i (mkView a n 0)).
  { constructor; cbn; [done| |lia|lia|apply map_bytes_mapped; lia].
    eexists. split; [by eapply get_set_slot|done]. }
  exists i, a, c1. split; [|split; [done|split; [lia|]]].
  - unfold ka_create, mbind, KC_bind, get_fd. rewrite (proj2 (Z.eqb_neq _ _) Hfd).
    unfold mret, KC_ret, ioctl at 1. cbn iota. rewrite Ho. unfold karena_ioctl. rewrite Hcreate.
    cbn [mbind option_bind Z.eqb negb]. rewrite !bool_decide_eq_false_2 by done. cbn [orb].
    cbn iota. cbn [option_bind mbind Z.ltb Z.compare default id kd_size kd_arena].
    unfold mmap_fd. fold cm. cbn [kc_open cm with_kernel]. rewrite Ho.
    rewrite (proj2 (Z.eqb_neq n 0)) by lia. cbn [negb orb]. fold cm. rewrite Ha.
    unfold karena_mmap. cbn [current_arena_index create_result k1 kc_kernel with_kernel cm].
    fold k1. rewrite Hg1. cbn [mbind option_bind k_uaddr k_size vm_end vm_start vm_pgoff Z.eqb negb].
    rewrite u64_small by lia. rewrite (proj2 (Z.ltb_ge _ _)) by lia. cbn [mbind option_bind Z.eqb].
    unfold MAP_FAILED. rewrite (proj2 (Z.eqb_neq a _)) by lia. unfold c1, cm. reflexivity.
  - intros Hops. exact (@arena_run_refines _ (KArena_impl vplace pid) c1 i _ ops Hview Hops).
Qed.

Lemma ka_create_refines_witness :
  exists h a c1 c2,
    ka_create bump_vplace 7 3 demo_place (fun _ => 9) 5000 (mkKC 3 true karena_loaded ∅ ∅) = Some (h, c1) /\
    @arena_run _ (KArena_impl bump_vplace 7) h [Bump.Alloc 100; Bump.Reserve 9000; Bump.Pos] c1
      = Some ([a + 0; 8092; 100], c2).
Proof.
  destruct (ka_create_refines bump_vplace 7 3 demo_place (fun _ => 9)
              (mkKC 3 true karena_loaded ∅ ∅) 5000
              [Bump.Alloc 100; Bump.Reserve 9000; Bump.Pos]) as [(_ & k' & _ & E)|(h & a & c1 & E & Hv & _ & Hr)].
  - exact bump_vplace_fresh.
  - exact kinv_loaded.
  - reflexivity.
  - done.
  - left. reflexivity.
  - lia.
  - lia.
  - intros c. exists (2 ^ 20). by vm_compute.
  - discriminate E.
  - destruct Hr as (c2 & Er & _); [repeat split; cbn; try lia; by vm_compute|].
    exists h, a, c1, c2. split; [exact E|exact Er].
Defined.

(** The two ioctls of a scratch region. *)
Lemma ka_pos_view vplace pid c h v :
  ka_view c h v -> exists c', ka_pos vplace pid h c = Some (v_cur v, c') /\ ka_view c' h v.
Proof.
  intros Hv. destruct (ka_do_spec vplace pid c h v Bump.Pos Hv) as (c' & E & Hv').
  { split; [|done]. unfold op_ok. cbn. lia. }
  exists c'. split; [exact E|]. by destruct v.
Qed.

(** A scratch region of the first arena.  The driver's first arena has
    handle 0, which [ka_scratch_begin] takes for NULL: it does not record the
    position, and releasing the region resets the arena to 0, whatever was
    allocated before.  On every other handle the release restores the
    position. *)
Theorem ka_scratch_first_arena (vplace : kstate -> Z -> option Z) (pid h : Z) (c : kclient) (v : view) :
  ka_view c h v ->
  exists c', (s ← ka_scratch_begin vplace pid h; ka_scratch_release vplace pid s) c = Some (tt, c') /\
    ka_view c' h (if h =? 0 then view_at v 0 else v).
Proof.
  intros Hv. pose proof (ka_view_bounds _ _ _ Hv) as Hcur.
  unfold ka_scratch_begin, ka_scratch_release, NULL. destruct (Z.eqb_spec h 0) as [->|]; cbn [negb].
  - destruct (ka_seek_spec vplace pid c 0 v 0 Hv) as (c' & E & Hv'); [lia|].
    exists c'. split; [|done]. unfold mbind, KC_bind, mret, KC_ret. cbn [kas_ua kas_f5]. by rewrite E.
  - destruct (ka_pos_view vplace pid c h v Hv) as (c1 & E1 & Hv1).
    destruct (ka_seek_spec vplace pid c1 h v (v_cur v) Hv1) as (c2 & E2 & Hv2); [lia|].
    exists c2. split; [|by destruct v]. unfold mbind, KC_bind, mret, KC_ret. rewrite E1.
    cbn [kas_ua kas_f5]. by rewrite E2.
Qed.

(** An arena of 4096 bytes, 40 of them taken, with handle [h]: the driver's
    table has it at that index. *)
Definition demo_client (h : nat) : kclient :=
  mkKC 3 true (mkK (<[h := mkKSlot 4096 40 65536 false 5 7]> (replicate 100 empty_slot)) 0 {[5 := 4096]})
    (map_bytes ∅ 65536 4096 (fun _ => 9)) {[65536 := 4096]}.

Lemma demo_client_view : ka_view (demo_client 0) 0 (mkView 65536 4096 40).
Proof.
  constructor; [done| |cbn; lia|cbn; lia|].
  - eexists. split; [reflexivity|done].
  - apply (map_bytes_mapped ∅ 65536 4096). lia.
Qed.

Lemma ka_scratch_first_arena_witness :
  exists c', (s ← ka_scratch_begin bump_vplace 7 0; ka_scratch_release bump_vplace 7 s) (demo_client 0)
               = Some (tt, c') /\ ka_view c' 0 (mkView 65536 4096 0).
Proof.
  destruct (ka_scratch_first_arena bump_vplace 7 0 (demo_client 0) _ demo_client_view) as (c' & E & H).
  exists c'. split; [exact E|exact H].
Defined.

(** [ka_destroy] never unmaps.  The driver does not copy the reply of a
    destroy back, so the size that the function tests is still 0: the block of
    the arena is freed in the kernel, while the process keeps the mapping and
    its memory as they were. *)
Theorem ka_destroy_keeps_mapping (vplace : kstate -> Z -> option Z) (pid h : Z) (c : kclient) (s : KSlot) :
  kinv (kc_kernel c) -> kc_open c = true -> get_slot h (kc_kernel c) = Some s -> owner_slot s ->
  exists c', ka_destroy vplace pid h c = Some (tt, c') /\
    kc_maps c' = kc_maps c /\ kc_mem c' = kc_mem c /\
    vmallocs (kc_kernel c') !! k_kaddr s = None.
Proof.
  intros Hk Ho Hs Hown. pose proof Hown as [Hpos Hb].
  destruct (get_slot_range _ _ _ Hs) as [_ Hl].
  destruct (inv_backed _ Hk _ _ Hl Hown) as [Ha _].
  destruct (kinv_free_slot h s (mkKSlot 0 0 0 false (k_kaddr s) 0) (kc_kernel c))
    as (k1 & Ef & _ & _ & Hd); [done..|by split; cbn; lia|intros [H _]; cbn in H; lia|].
  exists (with_kernel k1 c). split; [|split; [done|split; [done|]]].
  - unfold ka_destroy, mbind, KC_bind, ioctl. rewrite Ho. unfold karena_ioctl. cbn [kd_arena].
    rewrite Hs. cbn [mbind option_bind]. unfold handle_arena_destroy. cbn [k_bootstrapped k_kaddr kd_arena].
    rewrite Hb, (proj2 (Z.eqb_neq _ _) Ha). cbn [negb]. rewrite Ef. reflexivity.
  - cbn. rewrite Hd. apply lookup_delete_eq.
Qed.

Lemma ka_destroy_keeps_mapping_witness :
  exists c', ka_destroy bump_vplace 7 0 (mkKC 3 true demo_k3 ∅ {[65536 := 8192]}) = Some (tt, c') /\
    kc_maps c' = {[65536 := 8192]} /\ vmallocs (kc_kernel c') !! 1 = None.
Proof.
  destruct (ka_destroy_keeps_mapping bump_vplace 7 0 (mkKC 3 true demo_k3 ∅ {[65536 := 8192]})
              (mkKSlot 8192 0 65536 false 1 7)) as (c' & E & M & _ & V).
  - exact demo_k3_inv.
  - reflexivity.
  - vm_compute. reflexivity.
  - split; [cbn; lia|reflexivity].
  - exists c'. split; [exact E|split; [exact M|exact V]].
Defined.

(** A zeroing allocation that does not fit clears through the NULL that
    [ka_alloc] returned. *)
Lemma ka_zalloc_full_faults vplace pid c h v n :
  ka_view c h v -> v_cap v < v_cur v + n -> 0 < n < 2 ^ 63 -> kc_mem c !! 0 = None ->
  ka_zalloc vplace pid h n c = None.
Proof.
  intros Hv Hn Hn2 Hm. destruct (ka_alloc_spec vplace pid c h v n Hv) as (c' & E & _ & Ec); [lia|].
  unfold ka_zalloc, mbind, KC_bind. rewrite E. unfold view_result. cbn [Bump.step].
  rewrite (proj2 (Z.leb_gt _ _)) by lia. cbn [snd concrete]. unfold explicit_bzero, bzero, NULL.
  rewrite Ec. destruct (Z.to_nat n) as [|k] eqn:En; [lia|]. cbn [replicate write_bytes].
  by rewrite Hm.
Qed.
