(* ===== verification/OldKArena.v ===== *)
(** * The first kernel arena: [src/src/modules/oldkarena/okarena.c] and its
    client [src/src/allocators/oldkarena.c]

    The device [/dev/okarena] keeps no table: an arena is a heap object
    ([struct mmap_info]) that [OKARENA_CREATE] leaves in the one global
    [karena.mmap_info], that [mmap] hangs on the new area of the process, and
    that every later command finds by looking up the area of the address it is
    given.  Areas, the global and the commands share these objects by address,
    so the model keeps a heap of them; reading an address that is not a live
    object is [None], a kernel oops.  The client functions are composed with the
    driver: the process has its descriptor (the static [fd]) and, in the driver
    state, its areas ([current->mm]).

    Not modelled: the log messages. *)

From S2P Require Import Prelude.
From S2P Require Import Memory.
From S2P Require Import Os.
From S2P Require Import UArena.
From S2P Require Import KArenaModule.
From S2P Require Import ArenaIface.
#[local] Open Scope Z_scope.

(** ** The driver: data *)

Record mmap_info := mkInfo { i_size : Z; i_cur : Z; i_data : Z }.

(** [struct oka_data] of [oldkarena.h] *)
Record oka_data := mkOka { ok_size : Z; ok_addr : Z }.

Inductive okarena_cmd :=
  | OKARENA_CREATE | OKARENA_ALLOC | OKARENA_SEEK | OKARENA_POP | OKARENA_POS
  | OKARENA_RESERVE | OKARENA_DESTROY | OKARENA_SIZE | OKARENA_OTHER.

#[export] Instance okarena_cmd_eq_dec : EqDecision okarena_cmd.
Proof. solve_decision. Defined.

(** The fields of [struct vm_area_struct] that matter here. *)
Record area := mkArea { a_start : Z; a_end : Z; a_private : Z }.

Record ostate := mkO {
  infos : gmap Z mmap_info;      (* live mmap_info objects, by address *)
  blocks : gmap Z Z;             (* live vmalloc blocks: address, size *)
  dev_info : Z;                  (* karena.mmap_info *)
  areas : list area;             (* current->mm, in the order of addresses *)
}.

Definition okarena_loaded : ostate := mkO ∅ ∅ NULL [].

Definition set_infos (h : gmap Z mmap_info) (o : ostate) : ostate :=
  mkO h (blocks o) (dev_info o) (areas o).
Definition set_blocks (b : gmap Z Z) (o : ostate) : ostate :=
  mkO (infos o) b (dev_info o) (areas o).
Definition set_dev (p : Z) (o : ostate) : ostate := mkO (infos o) (blocks o) p (areas o).
Definition set_areas (l : list area) (o : ostate) : ostate :=
  mkO (infos o) (blocks o) (dev_info o) l.

(** [find_vma]: the first area that ends above [addr] -- it need not contain
    it -- with its place in the list. *)
Fixpoint find_vma (addr : Z) (l : list area) : option (nat * area) :=
  match l with
  | [] => None
  | a :: l => if addr <? a_end a then Some (O, a)
              else '(i, a) ← find_vma addr l; Some (S i, a)
  end.

(** [info->cur = v] through an address. *)
Definition store_cur (p v : Z) (o : ostate) : option ostate :=
  info ← infos o !! p;
  Some (set_infos (<[p := mkInfo (i_size info) v (i_data info)]> (infos o)) o).

Definition kfree (p : Z) (o : ostate) : option ostate :=
  if p =? NULL then Some o
  else _ ← infos o !! p; Some (set_infos (delete p (infos o)) o).

Definition vfree_block (a : Z) (o : ostate) : option ostate :=
  if a =? NULL then Some o
  else _ ← blocks o !! a; Some (set_blocks (delete a (blocks o)) o).

Definition set_private (i : nat) (p : Z) (o : ostate) : ostate :=
  set_areas (alter (fun a => mkArea (a_start a) (a_end a) p) i (areas o)) o.

(** [user]: the argument read by [copy_from_user], [None] when it fails.  The
    callers dereference the NULL that is returned for a failed copy and for an
    address above every area. *)
Definition get_alloc_and_find_vma (user : option oka_data) (o : ostate)
    : option (oka_data * (nat * area)) :=
  alloc ← user;
  v ← find_vma (ok_addr alloc) (areas o);
  Some (alloc, v).

(** [copy_to_user((void __user * )arg, &alloc, sizeof(alloc))], the last step of
    most commands. *)
Definition copy_alloc (copy_out : bool) (alloc : oka_data) (o : ostate)
    : option (Z * option oka_data * ostate) :=
  if copy_out then Some (0, Some alloc, o) else Some (- EFAULT, None, o).

Section Driver.
(** [kzalloc(sizeof(struct mmap_info))] and [vzalloc]: the address chosen,
    [None] when they fail; [vmalloc_to_page]. *)
Variable kplace : ostate -> option Z.
Variable vzplace : ostate -> Z -> option Z.
Variable to_page : Z -> option Z.

(** [OKARENA_CREATE]: [user] is the [size_t] read at [arg]; the reply is the
    aligned size. *)
Definition ioctl_create (user : option Z) (copy_out : bool) (o : ostate)
    : option (Z * option Z * ostate) :=
  match kplace o with
  | None => Some (- ENOMEM, None, o)
  | Some info =>
      let o := set_infos (<[info := mkInfo 0 0 NULL]> (infos o)) o in
      match user with
      | None => Some (- EFAULT, None, o)
      | Some size =>
          let size := PAGE_ALIGN size in
          let o := set_infos (<[info := mkInfo size 0 NULL]> (infos o)) o in
          if size =? 0 then o ← kfree info o; Some (- EINVAL, None, o)
          else
            match vzplace o size with
            | None => o ← kfree info o; Some (- ENOMEM, None, o)
            | Some data =>
                let o := set_blocks (<[data := size]> (blocks o)) o in
                let o := set_infos (<[info := mkInfo size 0 data]> (infos o)) o in
                let o := set_dev info o in
                if copy_out then Some (0, Some size, o)
                else
                  o ← vfree_block data o;
                  o ← kfree info o;
                  Some (- EFAULT, None, set_dev NULL o)
            end
      end
  end.

Definition ioctl_alloc (user : option oka_data) (copy_out : bool) (o : ostate) :=
  '(alloc, (_, vma)) ← get_alloc_and_find_vma user o;
  info ← infos o !! a_private vma;
  let alloc := mkOka (ok_size alloc) (i_cur info +64 ok_addr alloc) in
  o ← store_cur (a_private vma) (i_cur info +64 ok_size alloc) o;
  copy_alloc copy_out alloc o.

Definition ioctl_seek (user : option oka_data) (copy_out : bool) (o : ostate) :=
  '(alloc, (_, vma)) ← get_alloc_and_find_vma user o;
  o ← store_cur (a_private vma) (ok_size alloc) o;
  copy_alloc copy_out (mkOka (ok_size alloc) (ok_addr alloc +64 ok_size alloc)) o.

Definition ioctl_pop (user : option oka_data) (o : ostate)
    : option (Z * option oka_data * ostate) :=
  '(alloc, (_, vma)) ← get_alloc_and_find_vma user o;
  info ← infos o !! a_private vma;
  if i_cur info <? ok_size alloc then Some (- EFAULT, None, o)
  else o ← store_cur (a_private vma) (i_cur info -64 ok_size alloc) o; Some (0, None, o).

Definition ioctl_pos (user : option oka_data) (copy_out : bool) (o : ostate) :=
  '(alloc, (_, vma)) ← get_alloc_and_find_vma user o;
  info ← infos o !! a_private vma;
  copy_alloc copy_out (mkOka (i_cur info) (ok_addr alloc)) o.

Definition ioctl_reserve (user : option oka_data) (copy_out : bool) (o : ostate) :=
  '(alloc, (_, vma)) ← get_alloc_and_find_vma user o;
  info ← infos o !! a_private vma;
  if i_size info <? i_cur info +64 ok_size alloc then
    copy_alloc copy_out (mkOka (i_size info -64 i_cur info) (ok_addr alloc)) o
  else
    o ← store_cur (a_private vma) (i_cur info +64 ok_size alloc) o;
    copy_alloc copy_out alloc o.

Definition ioctl_destroy (user : option oka_data) (o : ostate)
    : option (Z * option oka_data * ostate) :=
  '(_, (i, vma)) ← get_alloc_and_find_vma user o;
  info ← infos o !! a_private vma;
  o ← vfree_block (i_data info) o;
  o ← kfree (a_private vma) o;
  Some (0, None, set_private i NULL o).

Definition ioctl_size (user : option oka_data) (copy_out : bool) (o : ostate) :=
  '(alloc, (_, vma)) ← get_alloc_and_find_vma user o;
  info ← infos o !! a_private vma;
  copy_alloc copy_out (mkOka (i_size info) (ok_addr alloc)) o.

(** What [copy_from_user] reads at [arg]: the two sizes read it at two types. *)
Record user_arg := mkArg { at_size : option Z; at_data : option oka_data }.

Definition reply_size (r : option (Z * option Z * ostate)) : option (Z * option oka_data * ostate) :=
  match r with
  | Some (ret, Some n, o) => Some (ret, Some (mkOka n 0), o)
  | Some (ret, None, o) => Some (ret, None, o)
  | None => None
  end.

(** [karena_ioctl].  The reply of [OKARENA_CREATE] is in the field [ok_size],
    the first of the structure. *)
Definition okarena_ioctl (cmd : okarena_cmd) (arg : user_arg) (copy_out : bool) (o : ostate)
    : option (Z * option oka_data * ostate) :=
  match cmd with
  | OKARENA_CREATE => reply_size (ioctl_create (at_size arg) copy_out o)
  | OKARENA_ALLOC => ioctl_alloc (at_data arg) copy_out o
  | OKARENA_SEEK => ioctl_seek (at_data arg) copy_out o
  | OKARENA_POP => ioctl_pop (at_data arg) o
  | OKARENA_POS => ioctl_pos (at_data arg) copy_out o
  | OKARENA_RESERVE => ioctl_reserve (at_data arg) copy_out o
  | OKARENA_DESTROY => ioctl_destroy (at_data arg) o
  | OKARENA_SIZE => ioctl_size (at_data arg) copy_out o
  | OKARENA_OTHER => Some (- ENOTTY, None, o)
  end.

(** [karena_vm_fault] on the area [vma]: outer [None] an oops, inner [None]
    [VM_FAULT_SIGBUS], else the page mapped. *)
Definition okarena_vm_fault (vma : area) (pgoff : Z) (o : ostate) : option (option Z) :=
  if a_private vma =? NULL then Some None
  else
    info ← infos o !! a_private vma;
    let offset := u64 (Z.shiftl pgoff PAGE_SHIFT) in
    if i_size info <=? offset then Some None
    else Some (to_page (i_data info +64 offset)).

(** [karena_mmap] of a new area: the return value and the area's private data. *)
Definition okarena_mmap (start end_ pgoff : Z) (o : ostate) : option (Z * option Z) :=
  if dev_info o =? NULL then Some (- EINVAL, None)
  else
    info ← infos o !! dev_info o;
    if i_size info <? end_ -64 start then Some (- EINVAL, None)
    else if negb (pgoff =? 0) then Some (- EINVAL, None)
    else Some (0, Some (dev_info o)).

(** [karena_init] and [karena_exit] are those of the later driver, word for
    word. *)
Definition okarena_init := karena_init.
Definition okarena_exit := karena_exit.

(** [dev_open] and [dev_release] *)
Definition okarena_open (o : ostate) : Z * ostate := (0, o).
Definition okarena_release (o : ostate) : Z * ostate := (0, o).

End Driver.

(** ** The client *)

Record okclient := mkOC {
  oc_fd : Z;                 (* static int fd *)
  oc_open : bool;            (* whether fd is an open descriptor of the device *)
  oc_kernel : ostate;
}.

Definition OC (A : Type) : Type := okclient -> option (A * okclient).

#[export] Instance OC_ret : MRet OC := fun A a c => Some (a, c).
#[export] Instance OC_bind : MBind OC := fun A B f k c =>
  match k c with
  | Some (a, c') => f a c'
  | None => None
  end.

Definition with_okernel (o : ostate) (c : okclient) : okclient :=
  mkOC (oc_fd c) (oc_open c) o.

(** A new area, in the order of addresses. *)
Fixpoint insert_area (v : area) (l : list area) : list area :=
  match l with
  | [] => [v]
  | a :: l => if a_end v <=? a_start a then v :: a :: l else a :: insert_area v l
  end.

Section OldClient.
(** The kernel's placements as above, the result of [open], and the address
    [mmap] picks for a length. *)
Variable kplace : ostate -> option Z.
Variable vzplace : ostate -> Z -> option Z.
Variable open_result : Z.
Variable mmap_place : okclient -> Z -> option Z.

(** [ioctl(fd, cmd, &alloc)] on a local variable, which the kernel can copy from
    and to: the result and [alloc] after the call. *)
Definition oioctl (cmd : okarena_cmd) (alloc : oka_data) : OC (Z * oka_data) := fun c =>
  if oc_open c then
    '(ret, reply, o) ← okarena_ioctl kplace vzplace cmd (mkArg (Some (ok_size alloc)) (Some alloc))
                         true (oc_kernel c);
    Some ((if ret <? 0 then -1 else ret, default alloc reply), with_okernel o c)
  else Some ((-1, alloc), c).

Definition oget_fd : OC Z := fun c => Some (oc_fd c, c).

(** [fd = open("/dev/okarena", O_RDWR)] *)
Definition oopen_fd : OC unit := fun c =>
  if open_result <? 0 then Some (tt, mkOC open_result false (oc_kernel c))
  else let '(_, o) := okarena_open (oc_kernel c) in Some (tt, mkOC open_result true o).

(** [close(fd)] *)
Definition oclose_fd : OC unit := fun c =>
  if oc_open c then
    let '(_, o) := okarena_release (oc_kernel c) in Some (tt, mkOC (oc_fd c) false o)
  else Some (tt, c).

(** [mmap(NULL, size, PROT_READ | PROT_WRITE, MAP_SHARED, fd, 0)] *)
Definition ommap (size : Z) : OC Z := fun c =>
  if negb (oc_open c) || (size =? 0) then Some (MAP_FAILED, c)
  else match mmap_place c size with
       | None => Some (MAP_FAILED, c)
       | Some a =>
           '(ret, private) ← okarena_mmap a (a + size) 0 (oc_kernel c);
           if ret =? 0 then
             Some (a, with_okernel
                        (set_areas (insert_area (mkArea a (a + size) (default NULL private))
                                      (areas (oc_kernel c))) (oc_kernel c)) c)
           else Some (MAP_FAILED, c)
       end.

(** [munmap(a, n)]: refused for a length of zero or beyond the address space
    and for an address inside a page; what is left of the areas it cuts keeps
    their private data. *)
Definition TASK_SIZE : Z := 2 ^ 47.

Definition cut_area (a e : Z) (v : area) : list area :=
  (if a_start v <? a then [mkArea (a_start v) (Z.min (a_end v) a) (a_private v)] else []) ++
  (if e <? a_end v then [mkArea (Z.max (a_start v) e) (a_end v) (a_private v)] else []).

Definition omunmap (a n : Z) : OC unit := fun c =>
  if (n =? 0) || (TASK_SIZE <? n) || (TASK_SIZE - n <? a) || negb (a mod PAGE_SIZE =? 0)
  then Some (tt, c)
  else Some (tt, with_okernel
                   (set_areas (concat (cut_area a (a + PAGE_ALIGN n) <$> areas (oc_kernel c)))
                      (oc_kernel c)) c).

Definition oka_create (size : Z) : OC Z :=
  fd ← oget_fd;
  failed ← (if fd =? 0 then oopen_fd;; fd ← oget_fd; mret (fd <? 0) else mret false);
  if (failed : bool) then mret NULL
  else
    '(r, alloc) ← oioctl OKARENA_CREATE (mkOka size 0);
    if r <? 0 then oclose_fd;; mret NULL
    else
      memory ← ommap (ok_size alloc);
      if memory =? MAP_FAILED then oclose_fd;; mret NULL
      else if memory =? NULL then oclose_fd;; mret NULL
      else mret memory.

Definition oka_alloc (arena size : Z) : OC Z :=
  '(r, alloc) ← oioctl OKARENA_ALLOC (mkOka size arena);
  if negb (r =? 0) then mret 0 else mret (ok_addr alloc).

Definition oka_seek (arena pos : Z) : OC Z :=
  '(r, alloc) ← oioctl OKARENA_SEEK (mkOka pos arena);
  if negb (r =? 0) then mret NULL else mret (ok_addr alloc).

Definition oka_free (arena : Z) : OC Z := oka_seek arena 0.

Definition oka_pop (arena size : Z) : OC unit :=
  oioctl OKARENA_POP (mkOka size arena);; mret tt.

Definition oka_pos (arena : Z) : OC Z :=
  '(r, alloc) ← oioctl OKARENA_POS (mkOka 0 arena);
  if negb (r =? 0) then mret (u64 (-1)) else mret (ok_size alloc).

Definition oka_reserve (arena sz : Z) : OC Z :=
  '(r, alloc) ← oioctl OKARENA_RESERVE (mkOka sz arena);
  if negb (r =? 0) then mret (u64 (-1)) else mret (ok_size alloc).

Definition oka_size (arena : Z) : OC Z :=
  '(r, alloc) ← oioctl OKARENA_SIZE (mkOka 0 arena);
  if negb (r =? 0) then mret (u64 (-1)) else mret (ok_size alloc).

Definition oka_destroy (arena : Z) : OC unit :=
  size ← oka_size arena;
  oioctl OKARENA_DESTROY (mkOka 0 arena);;
  omunmap arena size.

(** ** The operations as those of the bump allocator *)

(** The calls of the client; there is no zeroing allocation. *)
Inductive oka_call :=
  | OAlloc (n : Z) | OFree | OPop (n : Z) | OPos | OSeek (p : Z) | OReserve (n : Z).

Definition oka_do (h : Z) (o : oka_call) : OC Z :=
  match o with
  | OAlloc n => oka_alloc h n
  | OFree => oka_free h;; mret 0
  | OPop n => oka_pop h n;; mret 0
  | OPos => oka_pos h
  | OSeek p => oka_seek h p
  | OReserve n => oka_reserve h n
  end.

Definition as_bump (o : oka_call) : Bump.op :=
  match o with
  | OAlloc n => Bump.Alloc n
  | OFree => Bump.Free
  | OPop n => Bump.Pop n
  | OPos => Bump.Pos
  | OSeek p => Bump.Seek p
  | OReserve n => Bump.Reserve n
  end.

Fixpoint oka_run (h : Z) (ops : list oka_call) : OC (list Z) :=
  match ops with
  | [] => mret []
  | o :: ops => r ← oka_do h o; rs ← oka_run h ops; mret (r :: rs)
  end.
End OldClient.

(** ** Lemmas on the areas *)

Fixpoint areas_from (lo : Z) (l : list area) : Prop :=
  match l with
  | [] => True
  | a :: l => lo <= a_start a < a_end a /\ areas_from (a_end a) l
  end.

(** Two areas without a common address. *)
Definition apart (v a : area) : Prop := a_end v <= a_start a \/ a_end a <= a_start v.

Lemma areas_from_le lo lo' l : areas_from lo l -> lo' <= lo -> areas_from lo' l.
Proof. destruct l; cbn; [done|]. intros [? ?] ?. split; [lia|done]. Qed.

Lemma areas_from_in lo l a : areas_from lo l -> a ∈ l -> lo <= a_start a < a_end a.
Proof.
  revert lo. induction l as [|b l IH]; intros lo; [by rewrite elem_of_nil|].
  intros [Hb Hl] [->|Hin]%elem_of_cons; [done|]. specialize (IH _ Hl Hin). lia.
Qed.

Lemma find_vma_in lo l x a :
  areas_from lo l -> a ∈ l -> a_start a <= x < a_end a -> exists i, find_vma x l = Some (i, a).
Proof.
  revert lo. induction l as [|b l IH]; intros lo; [by rewrite elem_of_nil|].
  intros [Hb Hl] [<-|Hin]%elem_of_cons Hx; cbn.
  - rewrite (proj2 (Z.ltb_lt _ _)) by lia. by eexists.
  - pose proof (areas_from_in _ _ _ Hl Hin). rewrite (proj2 (Z.ltb_ge _ _)) by lia.
    destruct (IH _ Hl Hin Hx) as [i ->]. by eexists.
Qed.

(** An address below an area, with no area ending in between, finds it too. *)
Lemma find_vma_next lo l x a :
  areas_from lo l -> a ∈ l -> x < a_end a ->
  Forall (fun b => a_start b < a_start a -> a_end b <= x) l ->
  exists i, find_vma x l = Some (i, a).
Proof.
  revert lo. induction l as [|b l IH]; intros lo; [by rewrite elem_of_nil|].
  intros [Hb Hl] [<-|Hin]%elem_of_cons Hx [Hg Hgap]%Forall_cons; cbn.
  - rewrite (proj2 (Z.ltb_lt _ _)) by lia. by eexists.
  - pose proof (areas_from_in _ _ _ Hl Hin). rewrite (proj2 (Z.ltb_ge _ _)) by (apply Hg; lia).
    destruct (IH _ Hl Hin Hx Hgap) as [i ->]. by eexists.
Qed.

Lemma elem_of_insert_area v l a : a ∈ insert_area v l <-> a = v \/ a ∈ l.
Proof.
  induction l as [|b l IH]; cbn; [set_solver|].
  destruct (a_end v <=? a_start b); set_solver.
Qed.

Lemma insert_area_from lo v l :
  areas_from lo l -> lo <= a_start v < a_end v -> Forall (apart v) l ->
  areas_from lo (insert_area v l).
Proof.
  revert lo. induction l as [|b l IH]; intros lo; cbn; [done|].
  intros [Hb Hl] Hv [Hap Hall]%Forall_cons. destruct (Z.leb_spec (a_end v) (a_start b)); cbn.
  - split; [lia|split; [lia|done]].
  - split; [done|]. apply IH; [done| |done]. unfold apart in Hap. lia.
Qed.

(** The area just inserted, found again, with its private data replaced. *)
Lemma alter_insert_area lo v l f i b :
  areas_from lo l -> lo <= a_start v < a_end v -> Forall (apart v) l ->
  (forall a, a_start (f a) = a_start a /\ a_end (f a) = a_end a) ->
  find_vma (a_start v) (insert_area v l) = Some (i, b) ->
  b = v /\ alter f i (insert_area v l) = insert_area (f v) l.
Proof.
  revert lo i. induction l as [|c l IH]; intros lo i Hl Hv Hall Hf; cbn [insert_area find_vma].
  - rewrite (proj2 (Z.ltb_lt _ _)) by lia. intros [= <- <-]. done.
  - destruct Hl as [Hc Hl]. apply Forall_cons in Hall as [Hap Hall].
    destruct (Hf v) as [Es Ee]. rewrite Ee.
    destruct (Z.leb_spec (a_end v) (a_start c)); cbn [find_vma].
    + rewrite (proj2 (Z.ltb_lt _ _)) by lia. intros [= <- <-]. done.
    + unfold apart in Hap. rewrite (proj2 (Z.ltb_ge _ _)) by lia.
      destruct (find_vma (a_start v) (insert_area v l)) as [[j b']|] eqn:E; [|done].
      intros [= <- <-]. destruct (IH (a_end c) j) as [-> E']; [done|lia|done|done|done|].
      split; [done|]. cbn. by rewrite E'.
Qed.

Lemma cut_area_apart v a :
  a_start v < a_end v -> a_start a < a_end a -> apart v a -> cut_area (a_start v) (a_end v) a = [a].
Proof.
  unfold apart, cut_area. destruct a as [s e p]; cbn. intros Hv Ha [H|H].
  - rewrite (proj2 (Z.ltb_ge s _)), (proj2 (Z.ltb_lt _ e)), Z.max_l by lia. done.
  - rewrite (proj2 (Z.ltb_lt s _)), (proj2 (Z.ltb_ge _ e)), Z.min_l by lia. done.
Qed.

Lemma cut_area_self v : a_start v < a_end v -> cut_area (a_start v) (a_end v) v = [].
Proof. intros H. unfold cut_area. by rewrite !(proj2 (Z.ltb_ge _ _)) by lia. Qed.

(** Unmapping the area just inserted gives back the areas before. *)
Lemma cut_insert_area lo v l :
  areas_from lo l -> a_start v < a_end v -> Forall (apart v) l ->
  concat (cut_area (a_start v) (a_end v) <$> insert_area v l) = l.
Proof.
  intros Hl Hv Hall.
  assert (Hc : forall lo l, areas_from lo l -> Forall (apart v) l ->
                 concat (cut_area (a_start v) (a_end v) <$> l) = l).
  { clear lo l Hl Hall. intros lo l. revert lo. induction l as [|a l IH]; intros lo; [done|].
    cbn [areas_from]. intros [Ha Hl] [Hap Hall]%Forall_cons. rewrite fmap_cons. cbn [concat].
    rewrite cut_area_apart, (IH _ Hl Hall) by (lia || done). done. }
  revert lo Hl. induction l as [|a l IH]; intros lo Hl; cbn [insert_area].
  - rewrite fmap_cons. cbn [concat fmap list_fmap]. by rewrite cut_area_self.
  - destruct Hl as [Ha Hl]. pose proof Hall as [Hap Hall']%Forall_cons.
    destruct (a_end v <=? a_start a); rewrite fmap_cons; cbn [concat].
    + rewrite cut_area_self by done. cbn [app]. eapply (Hc lo). { by split. } done.
    + rewrite cut_area_apart by (lia || done). cbn [app]. by rewrite (IH Hall' _ Hl).
Qed.

(** ** An arena as the process sees it *)

(** [h] is the address of the arena, [p] that of its object. *)
Record oka_view (c : okclient) (h p : Z) (v : view) : Prop := {
  okv_open : oc_open c = true;
  okv_areas : areas_from 0 (areas (oc_kernel c));
  okv_area : mkArea h (h + v_cap v) p ∈ areas (oc_kernel c);
  okv_base : v_base v = h;
  okv_info : exists data, infos (oc_kernel c) !! p = Some (mkInfo (v_cap v) (v_cur v) data);
  okv_cur : 0 <= v_cur v <= v_cap v /\ 0 < v_cap v < 2 ^ 63;
  okv_addr : h + v_cap v < 2 ^ 64;
}.

(** The only change an arena operation makes. *)
Definition put_cur (p cur : Z) (c : okclient) : okclient :=
  with_okernel (set_infos (alter (fun i => mkInfo (i_size i) cur (i_data i)) p
                             (infos (oc_kernel c))) (oc_kernel c)) c.

Lemma okv_nonneg c h p v : oka_view c h p v -> 0 <= h.
Proof. intros [_ Ha Hin _ _ _ _]. pose proof (areas_from_in _ _ _ Ha Hin) as H. cbn in H. lia. Qed.

Lemma okv_find c h p v alloc :
  oka_view c h p v -> ok_addr alloc = h ->
  exists i, get_alloc_and_find_vma (Some alloc) (oc_kernel c)
              = Some (alloc, (i, mkArea h (h + v_cap v) p)).
Proof.
  intros [_ Ha Hin _ _ Hc _] Hh. unfold get_alloc_and_find_vma. cbn [mbind option_bind].
  destruct (find_vma_in _ _ (ok_addr alloc) _ Ha Hin) as [i E]; [cbn; lia|].
  rewrite E. by eexists.
Qed.

Lemma store_cur_put c p cur info :
  infos (oc_kernel c) !! p = Some info ->
  store_cur p cur (oc_kernel c) = Some (oc_kernel (put_cur p cur c)).
Proof.
  intros E. unfold store_cur. rewrite E. cbn. do 2 f_equal. apply map_eq. intros q.
  destruct (decide (p = q)) as [<-|H].
  - by rewrite lookup_insert_eq, lookup_alter_eq, E.
  - by rewrite lookup_insert_ne, lookup_alter_ne.
Qed.

Lemma put_cur_same c h p v : oka_view c h p v -> put_cur p (v_cur v) c = c.
Proof.
  intros [_ _ _ _ [d E] _ _]. destruct c as [fd op [inf bl dev ar]]; cbn in *.
  unfold put_cur, with_okernel, set_infos. cbn. do 2 f_equal. apply map_eq. intros q.
  destruct (decide (p = q)) as [<-|H]; [|by rewrite lookup_alter_ne].
  by rewrite lookup_alter_eq, E.
Qed.

Lemma put_cur_view c h p v cur :
  oka_view c h p v -> 0 <= cur <= v_cap v -> oka_view (put_cur p cur c) h p (view_at v cur).
Proof.
  intros [Ho Ha Hin Hb [d E] Hc Hs] Hcur. constructor; cbn; try done; try lia.
  exists d. by rewrite lookup_alter_eq, E.
Qed.

(** The arenas of other objects are not touched. *)
Lemma put_cur_frame c h p v p' cur :
  oka_view c h p v -> p' <> p -> oka_view (put_cur p' cur c) h p v.
Proof.
  intros [Ho Ha Hin Hb [d E] Hc Hs] Hne. constructor; cbn; try done.
  exists d. by rewrite lookup_alter_ne.
Qed.

(** ** Each command on an arena *)

Lemma oioctl_eq kp vp cmd alloc c ret reply c' :
  oc_open c = true ->
  okarena_ioctl kp vp cmd (mkArg (Some (ok_size alloc)) (Some alloc)) true (oc_kernel c)
    = Some (ret, reply, oc_kernel c') ->
  oioctl kp vp cmd alloc c
    = Some ((if ret <? 0 then -1 else ret, default alloc reply), with_okernel (oc_kernel c') c).
Proof. intros Ho E. unfold oioctl. by rewrite Ho, E. Qed.

Lemma with_okernel_same c : with_okernel (oc_kernel c) c = c.
Proof. by destruct c. Qed.

Section Commands.
Variables (kp : ostate -> option Z) (vp : ostate -> Z -> option Z).
Variables (c : okclient) (h p : Z) (v : view).
Hypothesis Hv : oka_view c h p v.

(** The lookups of a handler, resolved. *)
Ltac handler body :=
  let i := fresh "i" in let E := fresh "E" in let d := fresh "d" in let Ei := fresh "Ei" in
  cbn [okarena_ioctl at_data]; unfold body;
  match goal with
  | |- context [get_alloc_and_find_vma (Some ?alloc) _] =>
      destruct (okv_find c h p v alloc Hv eq_refl) as [i E]; rewrite E
  end;
  destruct (okv_info _ _ _ _ Hv) as [d Ei]; cbn [mbind option_bind a_private ok_size ok_addr];
  rewrite ?Ei; cbn [mbind option_bind i_size i_cur i_data];
  repeat erewrite store_cur_put by exact Ei; cbn [mbind option_bind copy_alloc].

(** One command: the client after it, the handler and the guard it branches on. *)
Ltac command c' body branch :=
  erewrite (oioctl_eq _ _ _ _ _ _ _ c');
    [|apply Hv|handler body; branch; repeat erewrite store_cur_put by eassumption;
               cbn [mbind option_bind]; reflexivity];
  rewrite ?with_okernel_same; reflexivity.

Lemma oka_alloc_eq n :
  oka_alloc kp vp h n c = Some (u64 (v_cur v + h), put_cur p (u64 (v_cur v + n)) c).
Proof.
  unfold oka_alloc, mbind, OC_bind. command (put_cur p (u64 (v_cur v + n)) c) ioctl_alloc idtac.
Qed.

Lemma oka_seek_eq n : oka_seek kp vp h n c = Some (u64 (h + n), put_cur p n c).
Proof. unfold oka_seek, mbind, OC_bind. command (put_cur p n c) ioctl_seek idtac. Qed.

Lemma oka_pop_eq n :
  oka_pop kp vp h n c
    = Some (tt, if v_cur v <? n then c else put_cur p (u64 (v_cur v - n)) c).
Proof.
  unfold oka_pop, mbind, OC_bind. destruct (v_cur v <? n) eqn:Hn.
  - command c ioctl_pop ltac:(rewrite Hn).
  - command (put_cur p (u64 (v_cur v - n)) c) ioctl_pop ltac:(rewrite Hn).
Qed.

Lemma oka_pos_eq : oka_pos kp vp h c = Some (v_cur v, c).
Proof. unfold oka_pos, mbind, OC_bind. command c ioctl_pos idtac. Qed.

Lemma oka_size_eq : oka_size kp vp h c = Some (v_cap v, c).
Proof. unfold oka_size, mbind, OC_bind. command c ioctl_size idtac. Qed.

Lemma oka_reserve_eq n :
  oka_reserve kp vp h n c
    = Some (if v_cap v <? u64 (v_cur v + n) then (u64 (v_cap v - v_cur v), c)
            else (n, put_cur p (u64 (v_cur v + n)) c)).
Proof.
  unfold oka_reserve, mbind, OC_bind. destruct (v_cap v <? u64 (v_cur v + n)) eqn:Hn.
  - command c ioctl_reserve ltac:(rewrite Hn).
  - command (put_cur p (u64 (v_cur v + n)) c) ioctl_reserve ltac:(rewrite Hn).
Qed.

(** The calls on which the driver and the bump allocator agree: besides the
    common contract, the driver does not check an allocation against the size. *)
Definition old_contract (v : view) (o : oka_call) : Prop :=
  in_contract v (as_bump o) /\
  match o with OAlloc n => v_cur v + n <= v_cap v | _ => True end.

Lemma oka_do_spec o :
  old_contract v o ->
  oka_do kp vp h o c
    = Some (view_result v (as_bump o), put_cur p (v_cur (view_step v (as_bump o))) c).
Proof.
  intros [[Hop Hin] Hfit]. unfold op_ok in Hop. pose proof (okv_nonneg _ _ _ _ Hv) as Hh.
  pose proof Hv as [_ _ _ Hb _ Hc Ha]. pose proof (put_cur_same _ _ _ _ Hv) as Hsame.
  unfold view_result, view_step.
  destruct o as [n| |n| |n|n]; cbn [oka_do as_bump Bump.arg Bump.step] in *.
  - rewrite oka_alloc_eq, (proj2 (Z.leb_le _ _)), !u64_small by lia. cbn. do 2 f_equal. lia.
  - unfold oka_free, mbind, OC_bind. by rewrite oka_seek_eq.
  - unfold mbind, OC_bind. rewrite oka_pop_eq.
    destruct (Z.ltb_spec (v_cur v) n), (Z.leb_spec n (v_cur v)); try lia; cbn.
    + by rewrite Hsame.
    + by rewrite u64_small by lia.
  - rewrite oka_pos_eq. cbn. by rewrite Hsame.
  - rewrite oka_seek_eq, (proj2 (Z.leb_le _ _)), u64_small by lia. cbn. do 2 f_equal. lia.
  - rewrite oka_reserve_eq, (u64_small (v_cur v + n)) by lia.
    destruct (Z.ltb_spec (v_cap v) (v_cur v + n)), (Z.leb_spec (v_cur v + n) (v_cap v)); try lia; cbn.
    + rewrite u64_small, Z.min_r, Hsame by lia. done.
    + rewrite Z.min_l by lia. done.
Qed.
End Commands.

(** ** Sequences of calls *)

Fixpoint all_old_contract (v : view) (ops : list oka_call) : Prop :=
  match ops with
  | [] => True
  | o :: ops => old_contract v o /\ all_old_contract (view_step v (as_bump o)) ops
  end.

Lemma put_cur_twice p x y c : put_cur p y (put_cur p x c) = put_cur p y c.
Proof.
  unfold put_cur, with_okernel, set_infos. cbn. do 2 f_equal. apply map_eq. intros q.
  destruct (decide (p = q)) as [<-|H]; [|by rewrite !lookup_alter_ne].
  rewrite !lookup_alter_eq. by destruct (infos (oc_kernel c) !! p).
Qed.

Lemma view_step_cur v o : in_contract v o -> 0 <= v_cur v <= v_cap v -> 0 <= v_cur (view_step v o) <= v_cap v.
Proof. intros [Hop _] Hc. apply Bump.step_bounds; [done|]. unfold op_ok in Hop. lia. Qed.

Lemma oka_run_spec kp vp c h p v ops :
  oka_view c h p v -> all_old_contract v ops ->
  oka_run kp vp h ops c
    = Some ((view_run v (as_bump <$> ops)).2, put_cur p (v_cur (view_run v (as_bump <$> ops)).1) c) /\
  oka_view (put_cur p (v_cur (view_run v (as_bump <$> ops)).1) c) h p (view_run v (as_bump <$> ops)).1.
Proof.
  revert c v. induction ops as [|o ops IH]; intros c v Hv Hok.
  - cbn. rewrite (put_cur_same _ _ _ _ Hv). by split.
  - destruct Hok as [Ho Hok]. rewrite fmap_cons. cbn [oka_run view_run].
    set (v1 := view_step v (as_bump o)). set (c1 := put_cur p (v_cur v1) c).
    assert (Hv1 : oka_view c1 h p v1).
    { replace v1 with (view_at v (v_cur v1)) by done. apply put_cur_view; [done|].
      apply view_step_cur; [exact (proj1 Ho)|]. by destruct (okv_cur _ _ _ _ Hv). }
    destruct (IH c1 v1 Hv1 Hok) as [E Hv2].
    unfold mbind, OC_bind. rewrite (oka_do_spec kp vp c h p v Hv o Ho). fold v1 c1. rewrite E.
    destruct (view_run v1 (as_bump <$> ops)) as [v2 rs]. cbn [fst snd] in *.
    unfold c1 in *. rewrite put_cur_twice in *. by split.
Qed.

(** ** Creation and destruction *)

(** An address range [mmap] may return. *)
Record free_range (a n : Z) (l : list area) : Prop := {
  fr_pos : 0 < a;
  fr_page : a mod PAGE_SIZE = 0;
  fr_top : a + n <= TASK_SIZE;
  fr_apart : forall p, Forall (apart (mkArea a (a + n) p)) l;
}.

(** The allocators of the kernel succeed with addresses not in use, and [mmap]
    finds a place among the areas of the process. *)
Record places_work (kp : ostate -> option Z) (vp : ostate -> Z -> option Z)
    (mp : okclient -> Z -> option Z) (c : okclient) (n : Z) : Prop := {
  pw_info : exists p, kp (oc_kernel c) = Some p /\ p <> NULL /\ infos (oc_kernel c) !! p = None;
  pw_data : exists d, d <> NULL /\ blocks (oc_kernel c) !! d = None /\
              forall o, blocks o = blocks (oc_kernel c) -> vp o n = Some d;
  pw_mmap : forall o, areas o = areas (oc_kernel c) ->
              exists a, mp (with_okernel o c) n = Some a /\ free_range a n (areas o);
}.

(** The driver with one arena more. *)
Definition with_arena (p d a n cur : Z) (o : ostate) : ostate :=
  mkO (<[p := mkInfo n cur d]> (infos o)) (<[d := n]> (blocks o)) p
      (insert_area (mkArea a (a + n) p) (areas o)).

Lemma PAGE_ALIGN_pos size :
  0 < size -> size + 4095 < 2 ^ 63 -> size <= PAGE_ALIGN size < 2 ^ 63.
Proof. intros. rewrite PAGE_ALIGN_spec by lia. Z.div_mod_to_equations. lia. Qed.

Lemma PAGE_ALIGN_idem size :
  0 < size -> size + 4095 < 2 ^ 47 -> PAGE_ALIGN (PAGE_ALIGN size) = PAGE_ALIGN size.
Proof.
  intros. rewrite (PAGE_ALIGN_spec size) by lia. rewrite PAGE_ALIGN_spec; Z.div_mod_to_equations; lia.
Qed.

(** [OKARENA_CREATE] when every step succeeds. *)
Lemma ioctl_create_ok kp vp o size p d :
  kp o = Some p -> PAGE_ALIGN size <> 0 ->
  (forall o', blocks o' = blocks o -> vp o' (PAGE_ALIGN size) = Some d) ->
  ioctl_create kp vp (Some size) true o
    = Some (0, Some (PAGE_ALIGN size),
            mkO (<[p := mkInfo (PAGE_ALIGN size) 0 d]> (infos o))
                (<[d := PAGE_ALIGN size]> (blocks o)) p (areas o)).
Proof.
  intros Hp Hn Hd. unfold ioctl_create. rewrite Hp, (proj2 (Z.eqb_neq _ _) Hn), Hd by done.
  unfold set_dev, set_infos, set_blocks. cbn. by rewrite !insert_insert_eq.
Qed.

(** [mmap] of an arena just created. *)
Lemma ommap_ok mp c n a d :
  oc_open c = true -> 0 < n -> mp c n = Some a -> free_range a n (areas (oc_kernel c)) ->
  dev_info (oc_kernel c) <> NULL ->
  infos (oc_kernel c) !! dev_info (oc_kernel c) = Some (mkInfo n 0 d) ->
  ommap mp n c
    = Some (a, with_okernel (set_areas (insert_area (mkArea a (a + n) (dev_info (oc_kernel c)))
                               (areas (oc_kernel c))) (oc_kernel c)) c).
Proof.
  intros Ho Hn Hm Hf H0 Hi. destruct Hf as [Hpos _ Htop _]. unfold TASK_SIZE in Htop.
  unfold ommap. rewrite Ho, (proj2 (Z.eqb_neq n 0)) by lia. cbn [negb orb]. rewrite Hm.
  unfold okarena_mmap. rewrite (proj2 (Z.eqb_neq _ _) H0), Hi. cbn [mbind option_bind i_size].
  rewrite u64_small, (proj2 (Z.ltb_ge _ _)) by lia. done.
Qed.

Lemma oka_create_eq kp vp open_result mp c size :
  oc_open c = true -> oc_fd c <> 0 -> 0 < size -> size + 4095 < 2 ^ 63 ->
  places_work kp vp mp c (PAGE_ALIGN size) ->
  exists a p d,
    oka_create kp vp open_result mp size c
      = Some (a, with_okernel (with_arena p d a (PAGE_ALIGN size) 0 (oc_kernel c)) c) /\
    free_range a (PAGE_ALIGN size) (areas (oc_kernel c)) /\
    p <> NULL /\ infos (oc_kernel c) !! p = None /\
    d <> NULL /\ blocks (oc_kernel c) !! d = None.
Proof.
  intros Ho Hfd Hs Hs2 [(p & Hp & Hp0 & Hpf) (d & Hd0 & Hdf & Hd) Hm].
  pose proof (PAGE_ALIGN_pos size Hs Hs2) as HP.
  pose proof (ioctl_create_ok kp vp (oc_kernel c) size p d Hp) as Hcr.
  set (n := PAGE_ALIGN size) in *. specialize (Hcr ltac:(lia) Hd).
  set (o1 := mkO _ _ p _) in Hcr. destruct (Hm o1 eq_refl) as (a & Ha & Hfr). exists a, p, d.
  split; [|done]. unfold oka_create, mbind, OC_bind, oget_fd. rewrite (proj2 (Z.eqb_neq _ _) Hfd).
  unfold mret, OC_ret. cbn iota. unfold oioctl at 1. rewrite Ho.
  cbn [okarena_ioctl at_size ok_size]. rewrite Hcr.
  cbn [reply_size mbind option_bind Z.ltb Z.compare default id ok_size].
  rewrite (ommap_ok mp (with_okernel o1 c) n a d); try done; [|lia|cbn; by rewrite lookup_insert_eq].
  pose proof (fr_pos _ _ _ Hfr). pose proof (fr_top _ _ _ Hfr). unfold MAP_FAILED, TASK_SIZE, NULL in *.
  by rewrite !(proj2 (Z.eqb_neq a _)) by lia.
Qed.

Lemma with_arena_view c p d a n cur :
  oc_open c = true -> areas_from 0 (areas (oc_kernel c)) -> 0 < n < 2 ^ 63 -> 0 <= cur <= n ->
  free_range a n (areas (oc_kernel c)) ->
  oka_view (with_okernel (with_arena p d a n cur (oc_kernel c)) c) a p (mkView a n cur).
Proof.
  intros Ho Hl Hn Hcur [Hpos _ Htop Hap]. unfold TASK_SIZE in Htop.
  constructor; cbn; try done; try lia.
  - apply insert_area_from; cbn; [done|lia|apply Hap].
  - apply elem_of_insert_area. by left.
  - exists d. by rewrite lookup_insert_eq.
Qed.

Lemma with_arena_frame c p d a n h p' v :
  oka_view c h p' v -> p' <> p -> 0 < n -> free_range a n (areas (oc_kernel c)) ->
  oka_view (with_okernel (with_arena p d a n 0 (oc_kernel c)) c) h p' v.
Proof.
  intros [Ho Hl Hin Hb [d' Hi] Hc Ha] Hne Hn [Hpos _ Htop Hap].
  constructor; cbn; try done.
  - apply insert_area_from; cbn; [done|lia|apply Hap].
  - apply elem_of_insert_area. by right.
  - exists d'. by rewrite lookup_insert_ne.
Qed.

(** [OKARENA_DESTROY] of the arena created last: its object and its block are
    gone, its area stays, with no private data. *)
Lemma ioctl_destroy_eq p d a n cur o :
  areas_from 0 (areas o) -> 0 < n -> free_range a n (areas o) ->
  p <> NULL -> infos o !! p = None -> d <> NULL -> blocks o !! d = None ->
  ioctl_destroy (Some (mkOka 0 a)) (with_arena p d a n cur o)
    = Some (0, None, mkO (infos o) (blocks o) p (insert_area (mkArea a (a + n) NULL) (areas o))).
Proof.
  intros Hl Hn [Hpos _ _ Hap] Hp Hpf Hd Hdf. set (v := mkArea a (a + n) p).
  assert (Hv : 0 <= a_start v < a_end v) by (cbn; lia).
  destruct (find_vma_in 0 (insert_area v (areas o)) a v) as [i Ef]; [|by apply elem_of_insert_area; left|cbn; lia|].
  { by apply insert_area_from; [..|apply Hap]. }
  destruct (alter_insert_area 0 v (areas o) (fun b => mkArea (a_start b) (a_end b) NULL) i v Hl Hv
              (Hap p) ltac:(done) Ef) as [_ Ealt].
  unfold ioctl_destroy, get_alloc_and_find_vma. cbn [mbind option_bind ok_addr with_arena areas].
  fold v. rewrite Ef. cbn [mbind option_bind]. change (a_private v) with p. set (o1 := with_arena _ _ _ _ _ o).
  assert (Ei : infos o1 !! p = Some (mkInfo n cur d)) by apply lookup_insert_eq.
  assert (Eb : blocks o1 !! d = Some n) by apply lookup_insert_eq.
  rewrite Ei. unfold vfree_block, kfree. cbn [mbind option_bind i_data].
  rewrite (proj2 (Z.eqb_neq _ _) Hd), (proj2 (Z.eqb_neq _ _) Hp), Eb. cbn [mbind option_bind infos set_blocks].
  rewrite Ei. unfold set_private, set_areas, set_infos, set_blocks. cbn -[alter]. fold v.
  by rewrite Ealt, !delete_insert_id.
Qed.

(** [oka_destroy] of the arena created last undoes its creation, but for the
    global of the driver. *)
Lemma oka_destroy_eq kp vp p d a n cur c :
  oc_open c = true -> areas_from 0 (areas (oc_kernel c)) -> 0 < n < 2 ^ 63 -> PAGE_ALIGN n = n ->
  free_range a n (areas (oc_kernel c)) -> 0 <= cur <= n ->
  p <> NULL -> infos (oc_kernel c) !! p = None -> d <> NULL -> blocks (oc_kernel c) !! d = None ->
  oka_destroy kp vp a (with_okernel (with_arena p d a n cur (oc_kernel c)) c)
    = Some (tt, with_okernel (set_dev p (oc_kernel c)) c).
Proof.
  intros Ho Hl Hn Hal Hfr Hcur Hp Hpf Hd Hdf.
  unfold oka_destroy, mbind, OC_bind.
  erewrite oka_size_eq by (apply with_arena_view; done). cbn [v_cap].
  unfold oioctl. cbn [oc_open with_okernel oc_kernel]. rewrite Ho.
  cbn [okarena_ioctl at_data]. rewrite ioctl_destroy_eq by (done || lia).
  cbn [mbind option_bind Z.ltb Z.compare]. destruct Hfr as [Hpos Hpg Htop Hap].
  unfold omunmap. rewrite (proj2 (Z.eqb_neq n 0)), !(proj2 (Z.ltb_ge _ _)), Hpg, Hal by lia.
  cbn [Z.eqb negb orb]. unfold with_okernel. cbn [oc_kernel areas oc_fd oc_open].
  pose proof (cut_insert_area 0 (mkArea a (a + n) NULL) _ Hl ltac:(cbn; lia) (Hap NULL)) as E.
  cbn [a_start a_end] in E. unfold set_areas, set_dev. cbn [infos blocks dev_info]. by rewrite E.
Qed.

(** ** Properties *)

(** A machine for the witnesses: an open device, two arenas mapped. *)
Module Demo.
Definition kp (o : ostate) : option Z := Some 77.
Definition vp (o : ostate) (n : Z) : option Z := Some (2 ^ 20).
Definition mp (c : okclient) (n : Z) : option Z := Some 40960.
Definition c0 : okclient :=
  mkOC 3 true (mkO {[ 10 := mkInfo 8192 100 500; 20 := mkInfo 4096 0 600 ]}
                   {[ 500 := 8192; 600 := 4096 ]} 20
                   [mkArea 4096 12288 10; mkArea 16384 20480 20]).

Lemma view1 : oka_view c0 4096 10 (mkView 4096 8192 100).
Proof. constructor; cbn; try done; [set_solver|by eexists]. Qed.

Lemma view2 : oka_view c0 16384 20 (mkView 16384 4096 0).
Proof. constructor; cbn; try done; [set_solver|by eexists]. Qed.

Lemma free1 : free_range 40960 8192 (areas (oc_kernel c0)).
Proof.
  constructor; [done..|]. intros p.
  do 2 (apply Forall_cons_2; [right; cbn; lia|]). by apply Forall_nil_2.
Qed.

Lemma places : places_work kp vp mp c0 8192.
Proof.
  constructor.
  - by exists 77.
  - by exists (2 ^ 20).
  - intros o ->. exists 40960. split; [done|exact free1].
Qed.
End Demo.

(** An arena of the first driver is a bump allocator, and arenas do not
    interfere.  Any sequence of calls on an arena that fits in it does what the
    abstract allocator does, and leaves every arena with another object as it
    was. *)
Theorem oka_run_refines (kp : ostate -> option Z) (vp : ostate -> Z -> option Z)
    (c : okclient) (h p : Z) (v : view) (ops : list oka_call) :
  oka_view c h p v -> all_old_contract v ops ->
  exists c',
    oka_run kp vp h ops c = Some ((view_run v (as_bump <$> ops)).2, c') /\
    oka_view c' h p (view_run v (as_bump <$> ops)).1 /\
    (forall h2 p2 v2, oka_view c h2 p2 v2 -> p2 <> p -> oka_view c' h2 p2 v2).
Proof.
  intros Hv Hok. destruct (oka_run_spec kp vp c h p v ops Hv Hok) as [E Hv'].
  eexists. split; [exact E|]. split; [exact Hv'|].
  intros h2 p2 v2 H2 Hne. by eapply put_cur_frame.
Qed.

Lemma oka_run_refines_witness :
  exists c', oka_run Demo.kp Demo.vp 4096 [OAlloc 28; OPos; OReserve 9000; OPop 8000; OFree] Demo.c0
               = Some ([4196; 128; 8064; 0; 0], c') /\
             oka_view c' 16384 20 (mkView 16384 4096 0).
Proof.
  destruct (oka_run_refines Demo.kp Demo.vp Demo.c0 4096 10 (mkView 4096 8192 100)
              [OAlloc 28; OPos; OReserve 9000; OPop 8000; OFree] Demo.view1) as (c' & E & _ & F).
  - unfold all_old_contract, old_contract, in_contract, op_ok. repeat split; cbn; lia || done.
  - exists c'. split; [exact E|]. by apply (F _ _ _ Demo.view2).
Defined.

(** Creating an arena, using it and destroying it.  With allocations that
    succeed, [oka_create] returns a mapped, empty arena of the page-aligned
    size and leaves the arenas there were; any fitting calls and
    [oka_destroy] bring the objects, the blocks and the areas back to what they
    were.  The driver's global is what remains: it points to the freed object,
    and the next [mmap] of the device reads it. *)
Theorem oka_lifecycle (kp : ostate -> option Z) (vp : ostate -> Z -> option Z) (open_result : Z)
    (mp : okclient -> Z -> option Z) (c : okclient) (size : Z) (ops : list oka_call) :
  oc_open c = true -> oc_fd c <> 0 -> areas_from 0 (areas (oc_kernel c)) ->
  0 < size -> size + 4095 < 2 ^ 47 -> places_work kp vp mp c (PAGE_ALIGN size) ->
  exists h p c1,
    let v := mkView h (PAGE_ALIGN size) 0 in
    oka_create kp vp open_result mp size c = Some (h, c1) /\
    size <= PAGE_ALIGN size /\ oka_view c1 h p v /\
    (forall h2 p2 v2, oka_view c h2 p2 v2 -> oka_view c1 h2 p2 v2) /\
    (all_old_contract v ops ->
     exists c2,
       oka_run kp vp h ops c1 = Some ((view_run v (as_bump <$> ops)).2, c2) /\
       oka_destroy kp vp h c2 = Some (tt, with_okernel (set_dev p (oc_kernel c)) c) /\
       (forall s e pgoff, okarena_mmap s e pgoff (set_dev p (oc_kernel c)) = None)).
Proof.
  intros Ho Hfd Hl Hs Hs2 Hw.
  destruct (oka_create_eq kp vp open_result mp c size) as (h & p & d & E & Hfr & Hp & Hpf & Hd & Hdf);
    [done..|lia|done|].
  pose proof (PAGE_ALIGN_pos size Hs ltac:(lia)) as HP. pose proof (PAGE_ALIGN_idem size Hs Hs2) as Hidem.
  set (n := PAGE_ALIGN size) in *. exists h, p. eexists. cbn zeta. split; [exact E|].
  assert (Hv : oka_view (with_okernel (with_arena p d h n 0 (oc_kernel c)) c) h p (mkView h n 0))
    by (apply with_arena_view; done || lia).
  split; [lia|]. split; [exact Hv|]. split.
  { intros h2 p2 v2 H2. apply with_arena_frame; [done| |lia|done].
    intros ->. destruct (okv_info _ _ _ _ H2) as [d2 E2]. congruence. }
  intros Hok. destruct (oka_run_spec kp vp _ h p _ ops Hv Hok) as [Er Hv2].
  pose proof (okv_cur _ _ _ _ Hv2) as [Hcur _].
  destruct (view_run_base (mkView h n 0) (as_bump <$> ops)) as [_ Hcap]. rewrite Hcap in Hcur. cbn in Hcur.
  eexists. split; [exact Er|]. set (cur := v_cur _) in *.
  replace (put_cur p cur _) with (with_okernel (with_arena p d h n cur (oc_kernel c)) c).
  { split; [by apply oka_destroy_eq; try lia|]. intros s e pgoff. unfold okarena_mmap. cbn.
    by rewrite (proj2 (Z.eqb_neq _ _) Hp), Hpf. }
  unfold put_cur, with_okernel, with_arena, set_infos. cbn. do 2 f_equal.
  by rewrite alter_insert_eq.
Qed.

Lemma oka_lifecycle_witness :
  exists h p c1 c2,
    oka_create Demo.kp Demo.vp 5 Demo.mp 5000 Demo.c0 = Some (h, c1) /\
    oka_run Demo.kp Demo.vp h [OAlloc 100; OReserve 9000; OPos] c1 = Some ([h + 0; 8092; 100], c2) /\
    oka_destroy Demo.kp Demo.vp h c2 = Some (tt, with_okernel (set_dev p (oc_kernel Demo.c0)) Demo.c0).
Proof.
  destruct (oka_lifecycle Demo.kp Demo.vp 5 Demo.mp Demo.c0 5000 [OAlloc 100; OReserve 9000; OPos])
    as (h & p & c1 & E & _ & _ & _ & R); [done..| |lia|lia|exact Demo.places|].
  - cbn. lia.
  - destruct R as (c2 & Er & Ed & _).
    + unfold all_old_contract, old_contract, in_contract, op_ok. repeat split; cbn; by vm_compute.
    + exists h, p, c1, c2. split; [exact E|]. split; [exact Er|exact Ed].
Defined.

Lemma kfree_fresh p x h o :
  p <> NULL -> h !! p = None -> infos o = <[p := x]> h -> kfree p o = Some (set_infos h o).
Proof.
  intros Hp Hf E. unfold kfree. rewrite (proj2 (Z.eqb_neq _ _) Hp), E, lookup_insert_eq. cbn.
  by rewrite delete_insert_id.
Qed.

Lemma PAGE_ALIGN_wraps size :
  size = 0 \/ 2 ^ 64 - 4096 < size < 2 ^ 64 -> PAGE_ALIGN size = 0.
Proof.
  intros [->|Hs]; [done|]. unfold PAGE_ALIGN.
  replace (size +64 (PAGE_SIZE - 1)) with (size - (2 ^ 64 - 4095)) by (unfold PAGE_SIZE; word_lia).
  change (PAGE_SIZE - 1) with (Z.ones 12). rewrite Z.ldiff_ones_r by lia.
  rewrite Z.shiftr_div_pow2, Z.shiftl_mul_pow2 by lia. by rewrite Z.div_small by lia.
Qed.

(** A failed creation.  When [OKARENA_CREATE] fails, it writes no reply and
    changes no block and no area; it gives back the object it allocated in every
    case but one, a bad user pointer, where the object stays allocated with
    nothing pointing to it.  A size of zero, or one so large that aligning it
    wraps around, is refused with [EINVAL]. *)
Theorem ioctl_create_errors (kp : ostate -> option Z) (vp : ostate -> Z -> option Z)
    (user : option Z) (copy_out : bool) (o : ostate) :
  (forall p, kp o = Some p -> p <> NULL /\ infos o !! p = None) ->
  (forall o' n d, blocks o' = blocks o -> vp o' n = Some d -> d <> NULL /\ blocks o !! d = None) ->
  exists ret reply o',
    ioctl_create kp vp user copy_out o = Some (ret, reply, o') /\
    (ret <> 0 ->
     reply = None /\ blocks o' = blocks o /\ areas o' = areas o /\
     infos o' = match user, kp o with
                | None, Some p => <[p := mkInfo 0 0 NULL]> (infos o)
                | _, _ => infos o
                end) /\
    (forall size, user = Some size -> size = 0 \/ 2 ^ 64 - 4096 < size < 2 ^ 64 ->
     kp o <> None -> ret = - EINVAL).
Proof.
  intros Hkp Hvp. unfold ioctl_create. destruct (kp o) as [p|]; [|by repeat eexists; [destruct user|]].
  destruct (Hkp p eq_refl) as [Hp Hpf]. destruct user as [size|].
  2: { do 3 eexists. split; [reflexivity|]. split; [by repeat split|done]. }
  assert (Hkf : forall x o', infos o' = <[p := x]> (infos o) ->
                  kfree p o' = Some (set_infos (infos o) o')) by (intros; by eapply kfree_fresh).
  pose proof (PAGE_ALIGN_wraps size) as Hwrap.
  destruct (Z.eqb_spec (PAGE_ALIGN size) 0) as [H0|H0].
  { erewrite Hkf by (cbn; by rewrite insert_insert_eq). do 3 eexists. by repeat split. }
  destruct (vp _ (PAGE_ALIGN size)) as [d|] eqn:Ed.
  2: { erewrite Hkf by (cbn; by rewrite insert_insert_eq). do 3 eexists. split; [reflexivity|].
       split; [done|]. intros s [= <-] Hs. by destruct H0, (Hwrap Hs). }
  apply Hvp in Ed as [Hd Hdf]; [|done]. destruct copy_out.
  { do 3 eexists. split; [reflexivity|]. split; [done|]. intros s [= <-] Hs. by destruct H0, (Hwrap Hs). }
  unfold vfree_block. rewrite (proj2 (Z.eqb_neq _ _) Hd). cbn [set_dev set_infos set_blocks blocks].
  rewrite lookup_insert_eq. cbn [mbind option_bind].
  erewrite Hkf by (cbn; by rewrite !insert_insert_eq). do 3 eexists. split; [reflexivity|].
  split; [cbn; by rewrite delete_insert_id|]. intros s [= <-] Hs. by destruct H0, (Hwrap Hs).
Qed.

Lemma ioctl_create_errors_witness :
  exists o', ioctl_create Demo.kp Demo.vp (Some (2 ^ 64 - 1)) true (oc_kernel Demo.c0)
               = Some (- EINVAL, None, o') /\ infos o' = infos (oc_kernel Demo.c0).
Proof.
  destruct (ioctl_create_errors Demo.kp Demo.vp (Some (2 ^ 64 - 1)) true (oc_kernel Demo.c0))
    as (ret & reply & o' & E & H1 & H2).
  - intros p [= <-]. by vm_compute.
  - intros o' n d _ [= <-]. by vm_compute.
  - rewrite (H2 _ eq_refl ltac:(right; lia) ltac:(done)) in *.
    destruct (H1 ltac:(done)) as (-> & _ & _ & Hi). exists o'. split; [exact E|exact Hi].
Defined.

(** A handle outlives its arena.  The driver looks up the first area that
    ends above the address, not the one that contains it: an allocation with
    the handle of an arena whose area is gone moves the cursor of the next arena
    above, and returns an address counted from the old handle. *)
Theorem oka_alloc_stale_handle (kp : ostate -> option Z) (vp : ostate -> Z -> option Z)
    (c : okclient) (h n h2 p2 : Z) (v2 : view) :
  oka_view c h2 p2 v2 -> h <= h2 ->
  Forall (fun a => a_start a < h2 -> a_end a <= h) (areas (oc_kernel c)) ->
  oka_alloc kp vp h n c = Some (u64 (v_cur v2 + h), put_cur p2 (u64 (v_cur v2 + n)) c).
Proof.
  intros Hv Hle Hgap. pose proof Hv as [Ho Hl Hin Hb [d Hi] Hc Ha].
  destruct (find_vma_next 0 (areas (oc_kernel c)) h _ Hl Hin) as [i Ef]; [cbn; lia|done|].
  unfold oka_alloc, mbind, OC_bind.
  erewrite (oioctl_eq _ _ _ _ _ _ _ (put_cur p2 (u64 (v_cur v2 + n)) c)); [|done|].
  2: { cbn [okarena_ioctl at_data]. unfold ioctl_alloc, get_alloc_and_find_vma.
       cbn [mbind option_bind ok_addr]. rewrite Ef. cbn [mbind option_bind a_private].
       rewrite Hi. cbn [mbind option_bind i_cur ok_size]. erewrite store_cur_put by exact Hi. reflexivity. }
  reflexivity.
Qed.

(** The arena at 4096 is destroyed; its handle now allocates from the other. *)
Lemma oka_alloc_stale_handle_witness :
  let c := mkOC 3 true (mkO {[ 20 := mkInfo 4096 0 600 ]} {[ 600 := 4096 ]} 20 [mkArea 16384 20480 20]) in
  oka_alloc Demo.kp Demo.vp 4096 64 c = Some (4096, put_cur 20 64 c).
Proof.
  intros c. apply (oka_alloc_stale_handle Demo.kp Demo.vp c 4096 64 16384 20 (mkView 16384 4096 0)).
  - constructor; cbn; try done; [set_solver|by eexists].
  - lia.
  - apply Forall_cons_2; [cbn; lia|by apply Forall_nil_2].
Defined.

(** A command on a bad user pointer, or on an address above every area, is an
    oops: the callers of [get_alloc_and_find_vma] do not test its result. *)
Lemma okarena_unchecked_vma kp vp cmd arg copy_out o :
  cmd <> OKARENA_CREATE -> cmd <> OKARENA_OTHER ->
  match at_data arg with
  | None => True
  | Some alloc => Forall (fun a => a_end a <= ok_addr alloc) (areas o)
  end ->
  okarena_ioctl kp vp cmd arg copy_out o = None.
Proof.
  intros H1 H2 Hd.
  assert (E : get_alloc_and_find_vma (at_data arg) o = None).
  { destruct (at_data arg) as [alloc|]; [|done]. unfold get_alloc_and_find_vma. cbn [mbind option_bind].
    induction (areas o) as [|a l IH]; [done|]. apply Forall_cons in Hd as [Ha Hl]. cbn.
    rewrite (proj2 (Z.ltb_ge _ _) Ha). specialize (IH Hl).
    by destruct (find_vma (ok_addr alloc) l) as [[i b]|]. }
  by destruct cmd; try done; cbn [okarena_ioctl];
    unfold ioctl_alloc, ioctl_seek, ioctl_pop, ioctl_pos, ioctl_reserve, ioctl_destroy, ioctl_size;
    rewrite E.
Qed.

(** The faults of a mapping: a page of the block inside the size, [SIGBUS]
    outside of it and after the arena was destroyed through this area; a fault
    in another area of the same object reads the freed object. *)
Lemma okarena_vm_fault_spec to_page o vma pgoff info :
  0 <= pgoff -> pgoff * PAGE_SIZE < 2 ^ 64 -> a_private vma <> NULL ->
  infos o !! a_private vma = Some info -> 0 <= i_data info -> i_data info + i_size info < 2 ^ 64 ->
  okarena_vm_fault to_page vma pgoff o
    = Some (if i_size info <=? pgoff * PAGE_SIZE then None
            else to_page (i_data info + pgoff * PAGE_SIZE)).
Proof.
  intros Hp Hw Hn E Hd Hs. unfold okarena_vm_fault. rewrite (proj2 (Z.eqb_neq _ _) Hn), E.
  cbn [mbind option_bind]. rewrite Z.shiftl_mul_pow2 by (unfold PAGE_SHIFT; lia).
  change (2 ^ PAGE_SHIFT) with PAGE_SIZE. rewrite (u64_small (pgoff * PAGE_SIZE)) by (unfold PAGE_SIZE in *; lia).
  destruct (Z.leb_spec (i_size info) (pgoff * PAGE_SIZE)); [done|].
  rewrite u64_small; [done|]. unfold PAGE_SIZE in *. lia.
Qed.
