(* ===== verification/LmString.v ===== *)
(** * Arena strings: [lm.h] (lines 667-829) and [Sdb.h] (1084-1310)

    A string is a pointer to its characters, which a three-word header
    precedes: the arena it was made in, its length and its capacity.  It grows
    by reserving bytes at the arena's cursor, which are its own only if the
    string is the last thing allocated there.  The two libraries have the same
    functions; the text of the C strings they are given is a list of bytes. *)

From S2P Require Import Prelude.
From S2P Require Import Memory.
From S2P Require Import UArena.
#[local] Open Scope Z_scope.

(** ** [lm.h] *)

Definition sizeof_header : Z := 24.

(** [LM_STRING_HEADER(str)], and its fields. *)
Definition LM_STRING_HEADER (str : Z) : Z := str -64 sizeof_header.
Definition hdr_ua (str : Z) : Z := LM_STRING_HEADER str.
Definition hdr_len (str : Z) : Z := LM_STRING_HEADER str + 8.
Definition hdr_cap (str : Z) : Z := LM_STRING_HEADER str + 16.

Definition lm_string_len (string : Z) : M Z := load64 (hdr_len string).
Definition lm_string_cap (string : Z) : M Z := load64 (hdr_cap string).

Definition lm_string_space_avail (string : Z) : M Z :=
  cap ← load64 (hdr_cap string);
  len ← load64 (hdr_len string);
  mret (cap -64 len).

Definition lm_string_alloc_sz (string : Z) : M Z :=
  cap ← lm_string_cap string; mret (sizeof_header +64 cap).

Definition lm__string_set_len__ (string len : Z) : M unit := store64 (hdr_len string) len.
Definition lm__string_set_cap__ (string cap : Z) : M unit := store64 (hdr_cap string) cap.

(** [copy] is [memcpy(string, init_string, len)], [None] when [init_string] is
    NULL. *)
Definition lm__string_make__ (copy : option (Z -> Z -> M unit)) (len ua : Z) : M Z :=
  mem ← ua_zalloc ua (sizeof_header +64 len +64 1);
  if mem =? NULL then mret NULL
  else
    let string := mem +64 sizeof_header in
    store64 mem ua;;
    store64 (mem + 8) len;;
    store64 (mem + 16) len;;
    (match copy with
     | Some copy => if 0 <? len then copy string len else mret tt
     | None => mret tt
     end);;
    store8 (string +64 len) 0;;
    mret string.

Definition strlen (s : list Z) : Z := Z.of_nat (length s).

Definition copy_text (s : list Z) (dst n : Z) : M unit := copy_in dst s n.

Definition lm_string_make (string : option (list Z)) (ua : Z) : M Z :=
  match string with
  | Some s => lm__string_make__ (Some (copy_text s)) (strlen s) ua
  | None => lm__string_make__ None 0 ua
  end.

Definition lm_string_free (string : Z) : M unit := mret tt.

Definition lm_string_dup (string ua : Z) : M Z :=
  len ← lm_string_len string;
  lm__string_make__ (Some (fun dst n => memcpy dst string n)) len ua.

Definition lm_string_clear (string : Z) : M unit :=
  lm__string_set_len__ string 0;; store8 string 0.

Definition lm_string_backspace (string n : Z) : M unit :=
  len ← lm_string_len string;
  let new_len := len -64 n in
  lm__string_set_len__ string new_len;;
  store8 (string +64 new_len) 0.

Definition lm_string_make_space (string add_len : Z) : M Z :=
  available ← lm_string_space_avail string;
  if available <? add_len then
    ua ← load64 (hdr_ua string);
    reserved ← ua_reserve ua add_len;
    if reserved <? add_len then mret NULL
    else
      cap ← lm_string_cap string;
      lm__string_set_cap__ string (cap +64 add_len);;
      mret string
  else mret string.

(** [copy dst n] is [memcpy(dst, other, n)]. *)
Definition lm__string_append__ (string : Z) (copy : Z -> Z -> M unit) (other_len : Z) : M Z :=
  string ← lm_string_make_space string other_len;
  if string =? NULL then mret NULL
  else
    cur_len ← lm_string_len string;
    copy (string +64 cur_len) other_len;;
    lm__string_set_len__ string (cur_len +64 other_len);;
    store8 (string +64 (cur_len +64 other_len)) 0;;
    mret string.

Definition lm_string_append (String Other : Z) : M Z :=
  len ← lm_string_len Other;
  lm__string_append__ String (fun dst n => memcpy dst Other n) len.

Definition lm_string_append_c (string : Z) (other : list Z) : M Z :=
  lm__string_append__ string (copy_text other) (strlen other).

(** [char buf[1024]] after [vsnprintf(buf, 1023, ...)], whose full output would
    be [out]: at most 1022 characters of it and zeros. *)
Definition fmt_buf (out : list Z) : list Z :=
  take 1022 out ++ replicate (1024 - length (take 1022 out)) 0.

(** [vsnprintf] returns the length of the full output. *)
Definition lm_string_append_fmt (string : Z) (out : list Z) : M Z :=
  lm__string_append__ string (copy_text (fmt_buf out)) (strlen out).

Definition lm_string_set (string : Z) (c_string : list Z) : M Z :=
  let len := strlen c_string in
  string ← lm_string_make_space string len;
  if string =? NULL then mret NULL
  else
    copy_text c_string string len;;
    store8 (string +64 len) 0;;
    lm__string_set_len__ string len;;
    mret string.

(** [memcmp] as a comparison of the two ranges. *)
Definition bytes_equal (a b n : Z) : M bool := fun m =>
  l ← read_bytes m a (Z.to_nat n); l' ← read_bytes m b (Z.to_nat n);
  Some (bool_decide (l = l'), m).

Definition lm_strings_are_equal (lhs rhs : Z) : M bool :=
  l ← lm_string_len lhs;
  r ← lm_string_len rhs;
  if negb (l =? r) then mret false else bytes_equal lhs rhs l.

(** ** [Sdb.h] *)

Definition SdbMemcpy (To From Len : Z) : M unit := memcpy To From Len.
Definition SdbMemZero (Mem Size : Z) : M unit := bzero Mem Size.

Definition Sdb__StringMake__ (A : Z) (copy : option (Z -> Z -> M unit)) (Len : Z) : M Z :=
  Ptr ← ua_alloc A (sizeof_header +64 Len +64 1);
  if Ptr =? NULL then mret NULL
  else
    (match copy with
     | Some _ => mret tt
     | None => SdbMemZero Ptr (sizeof_header +64 Len +64 1)
     end);;
    let String := Ptr +64 sizeof_header in
    store64 (hdr_ua String) A;;
    store64 (hdr_len String) Len;;
    store64 (hdr_cap String) Len;;
    (match copy with
     | Some copy => if 0 <? Len then copy String Len;; store8 (String +64 Len) 0 else mret tt
     | None => mret tt
     end);;
    mret String.

Definition SdbStringLen (String : Z) : M Z := load64 (hdr_len String).
Definition SdbStringCap (String : Z) : M Z := load64 (hdr_cap String).

Definition SdbStringAvailableSpace (String : Z) : M Z :=
  Cap ← load64 (hdr_cap String);
  Len ← load64 (hdr_len String);
  mret (Cap -64 Len).

Definition SdbStringAllocSize (String : Z) : M Z :=
  Cap ← SdbStringCap String; mret (sizeof_header +64 Cap).

Definition Sdb__StringSetLen__ (String Len : Z) : M unit := store64 (hdr_len String) Len.
Definition Sdb__StringSetCap__ (String Cap : Z) : M unit := store64 (hdr_cap String) Cap.

Definition SdbStringMake (A : Z) (String : option (list Z)) : M Z :=
  match String with
  | Some s => Sdb__StringMake__ A (Some (copy_text s)) (strlen s)
  | None => Sdb__StringMake__ A None 0
  end.

Definition SdbStringFree (String : Z) : M unit :=
  if String =? NULL then mret tt
  else
    Cap ← load64 (hdr_cap String);
    let PopSize := sizeof_header +64 Cap +64 1 in
    Arena ← load64 (hdr_ua String);
    ua_pop Arena PopSize.

Definition SdbStringDuplicate (A String : Z) : M Z :=
  Len ← SdbStringLen String;
  Sdb__StringMake__ A (Some (fun dst n => SdbMemcpy dst String n)) Len.

Definition SdbStringClear (String : Z) : M unit :=
  Sdb__StringSetLen__ String 0;; store8 String 0.

Definition SdbStringBackspace (String N : Z) : M unit :=
  Len ← SdbStringLen String;
  let NewLen := Len -64 N in
  Sdb__StringSetLen__ String NewLen;;
  store8 (String +64 NewLen) 0.

Definition SdbStringMakeSpace (String AddLen : Z) : M Z :=
  Available ← SdbStringAvailableSpace String;
  if Available <? AddLen then
    A ← load64 (hdr_ua String);
    Reserved ← ua_reserve A AddLen;
    if Reserved <? AddLen then mret NULL
    else
      Cap ← SdbStringCap String;
      Sdb__StringSetCap__ String (Cap +64 AddLen);;
      mret String
  else mret String.

Definition Sdb__StringAppend__ (String : Z) (copy : Z -> Z -> M unit) (OtherLen : Z) : M Z :=
  String ← SdbStringMakeSpace String OtherLen;
  if String =? NULL then mret NULL
  else
    CurLen ← SdbStringLen String;
    copy (String +64 CurLen) OtherLen;;
    Sdb__StringSetLen__ String (CurLen +64 OtherLen);;
    store8 (String +64 (CurLen +64 OtherLen)) 0;;
    mret String.

Definition SdbStringAppend (String Other : Z) : M Z :=
  Len ← SdbStringLen Other;
  Sdb__StringAppend__ String (fun dst n => SdbMemcpy dst Other n) Len.

Definition SdbStringAppendC (String : Z) (Other : list Z) : M Z :=
  Sdb__StringAppend__ String (copy_text Other) (strlen Other).

Definition SdbStringAppendFmt (String : Z) (out : list Z) : M Z :=
  Sdb__StringAppend__ String (copy_text (fmt_buf out)) (strlen out).

Definition SdbStringSet (String : Z) (CString : list Z) : M Z :=
  let Len := strlen CString in
  String ← SdbStringMakeSpace String Len;
  if String =? NULL then mret NULL
  else
    copy_text CString String Len;;
    store8 (String +64 Len) 0;;
    Sdb__StringSetLen__ String Len;;
    mret String.

Definition SdbStringsAreEqual (Lhs Rhs : Z) : M bool :=
  LStringLen ← SdbStringLen Lhs;
  RStringLen ← SdbStringLen Rhs;
  if negb (LStringLen =? RStringLen) then mret false else bytes_equal Lhs Rhs LStringLen.

(** ** A string in memory *)

Record lmstr := mkStr {
  s_ua : Z;
  s_cap : Z;
  s_text : list Z;
}.

Definition s_len (t : lmstr) : Z := Z.of_nat (length (s_text t)).

Record string_at (m : mem) (s : Z) (t : lmstr) : Prop := {
  st_addr : sizeof_header <= s /\ s + s_cap t + 1 < 2 ^ 64;
  st_ua : word_at m (s - 24) (s_ua t);
  st_len : word_at m (s - 16) (s_len t);
  st_cap : word_at m (s - 8) (s_cap t);
  st_fits : s_len t <= s_cap t;
  st_mapped : mapped m s (s_cap t + 1);
  st_text : read_bytes m s (length (s_text t)) = Some (s_text t);
  st_nul : m !! (s + s_len t) = Some 0;
}.

(** The string is the last thing in its arena: its block ends at the cursor. *)
Definition last_in (s : Z) (t : lmstr) (a : UArena) : Prop :=
  s + s_cap t + 1 = ua_mem a + ua_cur a /\ ua_mem a + sizeof_header <= s.

(** The string is somewhere in the used part of its arena. *)
Definition inside (s : Z) (t : lmstr) (a : UArena) : Prop :=
  ua_mem a + sizeof_header <= s /\ s + s_cap t + 1 <= ua_mem a + ua_cur a.

(** The bytes of the string's block. *)
Definition str_block (s : Z) (cap x : Z) : Prop := s - sizeof_header <= x < s + cap + 1.

Lemma hdr_addresses s :
  sizeof_header <= s < 2 ^ 64 -> hdr_ua s = s - 24 /\ hdr_len s = s - 16 /\ hdr_cap s = s - 8.
Proof.
  unfold hdr_ua, hdr_len, hdr_cap, LM_STRING_HEADER, sizeof_header. intros.
  rewrite u64_small by lia. lia.
Qed.

Lemma string_at_hdr m s t :
  string_at m s t -> hdr_ua s = s - 24 /\ hdr_len s = s - 16 /\ hdr_cap s = s - 8.
Proof.
  intros []. apply hdr_addresses. unfold s_len in *. lia.
Qed.

Lemma s_len_nonneg t : 0 <= s_len t.
Proof. unfold s_len. lia. Qed.

Lemma lookup_frame W m m' x : frame W m m' -> ~ W x -> m' !! x = m !! x.
Proof. intros [_ F] H. by apply F. Qed.

(** Writes away from the block keep the string. *)
Lemma string_at_frame W m m' s t :
  string_at m s t -> frame W m m' -> (forall x, str_block s (s_cap t) x -> ~ W x) -> string_at m' s t.
Proof.
  intros [Ha Hu Hl Hc Hf Hm Ht Hn] F HW. pose proof (s_len_nonneg t).
  unfold str_block, sizeof_header in *.
  split; try done.
  - eapply word_at_frame; [exact F| |exact Hu]. intros x Hx. apply HW. lia.
  - eapply word_at_frame; [exact F| |exact Hl]. intros x Hx. apply HW. lia.
  - eapply word_at_frame; [exact F| |exact Hc]. intros x Hx. apply HW. lia.
  - by eapply frame_mapped.
  - rewrite (read_bytes_frame _ _ _ _ _ F); [done|]. intros x Hx. apply HW. unfold s_len in *. lia.
  - rewrite (lookup_frame _ _ _ _ F); [done|]. apply HW. lia.
Qed.

(** ** Specifications *)

(** [copy] writes the [n] characters [other] when run in [m]. *)
Definition copies (copy : Z -> Z -> M unit) (other : list Z) (m : mem) : Prop :=
  let n := Z.of_nat (length other) in
  forall dst, mapped m dst n ->
    exists m', copy dst n m = Some (tt, m') /\ agree_outside dst n m m' /\
               read_bytes m' dst (length other) = Some other.

Lemma copies_text other m : copies (copy_text other) other m.
Proof.
  intros dst Hm. destruct (copy_in_spec m dst other (Z.of_nat (length other)) Hm) as (m' & S & A & R); [lia|].
  rewrite Nat2Z.id, firstn_all in R. by exists m'.
Qed.

Lemma copies_memcpy other src m :
  read_bytes m src (length other) = Some other -> copies (fun dst n => memcpy dst src n) other m.
Proof.
  intros Hr dst Hm.
  destruct (memcpy_spec m dst src (Z.of_nat (length other)) other Hm) as (m' & S & A & R);
    [lia|by rewrite Nat2Z.id|]. rewrite Nat2Z.id in R. by exists m'.
Qed.

Lemma set_cap_spec m s t c :
  string_at m s t -> s_len t <= c -> s + c + 1 < 2 ^ 64 -> mapped m s (c + 1) ->
  exists m', lm__string_set_cap__ s c m = Some (tt, m') /\ agree_outside (s - 8) 8 m m' /\
             string_at m' s (mkStr (s_ua t) c (s_text t)).
Proof.
  intros Hs Hle Hend Hmap. pose proof (string_at_hdr _ _ _ Hs) as (_ & _ & Hc).
  destruct Hs as [Ha Hu Hl Hcap Hf Hm Ht Hn]. pose proof (s_len_nonneg t).
  unfold lm__string_set_cap__. rewrite Hc. unfold sizeof_header in *.
  destruct (store64_word m (s - 8) c) as (m' & S & A & W); [by eapply word_at_mapped|lia|].
  exists m'. split_and!; [done|done|].
  split; cbn; unfold sizeof_header; try done; try lia.
  - eapply word_at_agree; [exact A| |exact Hu]. lia.
  - eapply word_at_agree; [exact A| |exact Hl]. lia.
  - by eapply agree_outside_mapped.
  - rewrite (read_bytes_agree _ _ _ _ _ _ A); [done|lia].
  - destruct A as [_ A]. rewrite A; [done|]. unfold s_len. cbn. lia.
Qed.

Lemma space_avail_spec m s t :
  string_at m s t -> lm_string_space_avail s m = Some (s_cap t - s_len t, m).
Proof.
  intros Hs. pose proof (string_at_hdr _ _ _ Hs) as (_ & Hl & Hc).
  destruct Hs as [Ha Hu Hlen Hcap Hf Hm Ht Hn]. pose proof (s_len_nonneg t).
  unfold lm_string_space_avail. rewrite Hl, Hc. M_load Hcap. M_load Hlen.
  rewrite u64_small; [done|]. unfold sizeof_header in *. lia.
Qed.

Lemma make_space_room m s t n :
  string_at m s t -> n <= s_cap t - s_len t -> lm_string_make_space s n m = Some (s, m).
Proof.
  intros Hs Hn. unfold lm_string_make_space. M_step (space_avail_spec _ _ _ Hs).
  by rewrite (proj2 (Z.ltb_ge _ _)) by lia.
Qed.

Lemma make_space_full m s t p a n :
  string_at m s t -> s_ua t = p -> arena_at m p a -> wf_arena m p a ->
  s_cap t - s_len t < n -> ua_cap a < ua_cur a + n -> ua_cur a + n < 2 ^ 64 ->
  lm_string_make_space s n m = Some (NULL, m).
Proof.
  intros Hs Hu Ha Hwf Hn Hfull Hov. subst p. pose proof (string_at_hdr _ _ _ Hs) as (Hhu & _ & _).
  unfold lm_string_make_space. M_step (space_avail_spec _ _ _ Hs).
  rewrite (proj2 (Z.ltb_lt _ _)) by lia. rewrite Hhu. M_load (st_ua _ _ _ Hs).
  assert (S : ua_reserve (s_ua t) n m = Some (ua_cap a - ua_cur a, m)).
  { pose proof (wf_cur _ _ _ Hwf). pose proof (arena_at_ranges _ _ _ Ha).
    destruct Ha as (_ & _ & Hcap & Hcur & _). unfold ua_reserve. M_load Hcur. M_load Hcap.
    pose proof (st_fits _ _ _ Hs).
    rewrite u64_small by lia. rewrite (proj2 (Z.leb_gt _ _)) by lia. by rewrite u64_small by lia. }
  M_step S. by rewrite (proj2 (Z.ltb_lt _ _)) by lia.
Qed.

Definition grown (t : lmstr) (n : Z) : lmstr := mkStr (s_ua t) (s_cap t + n) (s_text t).

Lemma make_space_grow m s t p a n :
  string_at m s t -> s_ua t = p -> arena_at m p a -> wf_arena m p a -> inside s t a ->
  s_cap t - s_len t < n -> ua_cur a + n <= ua_cap a ->
  exists m', lm_string_make_space s n m = Some (s, m') /\ string_at m' s (grown t n) /\
             arena_at m' p (with_cur a (ua_cur a + n)) /\ wf_arena m' p (with_cur a (ua_cur a + n)) /\
             inside s (grown t n) (with_cur a (ua_cur a + n)) /\
             frame (fun x => p_cur p <= x < p_cur p + 8 \/ s - 8 <= x < s) m m'.
Proof.
  intros Hs Hu Ha Hwf [Hl2 Hl1] Hn Hfit. subst p. pose proof (string_at_hdr _ _ _ Hs) as (Hhu & _ & Hhc).
  pose proof (s_len_nonneg t). pose proof (st_fits _ _ _ Hs). pose proof Hwf as [Hc Hb Hmap Hap].
  unfold lm_string_make_space. M_step (space_avail_spec _ _ _ Hs).
  rewrite (proj2 (Z.ltb_lt _ _)) by lia. rewrite Hhu. M_load (st_ua _ _ _ Hs).
  destruct (ua_reserve_spec m (s_ua t) a n Ha Hwf) as (m1 & S1 & A1 & W1); [lia..|].
  rewrite Z.min_l in S1 by lia. rewrite (proj2 (Z.leb_le _ _)) in W1 by lia. M_step S1.
  rewrite (proj2 (Z.ltb_ge _ _)) by lia.
  assert (F1 : frame (fun x => p_cur (s_ua t) <= x < p_cur (s_ua t) + 8) m m1)
    by (eapply agree_outside_frame; [exact A1|tauto]).
  assert (Hs1 : string_at m1 s t).
  { eapply string_at_frame; [exact Hs|exact F1|]. unfold str_block, p_cur. unfold_fields.
    unfold sizeof_header in *. intros x Hx ?. lia. }
  unfold sizeof_header in Hl2.
  unfold lm_string_cap. rewrite Hhc. M_load (st_cap _ _ _ Hs1). rewrite u64_small by lia.
  destruct (set_cap_spec m1 s t (s_cap t + n) Hs1) as (m2 & S2 & A2 & W2); [lia|lia| |].
  { eapply agree_outside_mapped; [exact A1|]. eapply mapped_sub; [exact Hmap|lia..]. }
  M_step S2. exists m2. split; [done|]. split; [exact W2|].
  assert (F2 : frame (fun x => s - 8 <= x < s) m1 m2)
    by (eapply agree_outside_frame; [exact A2|intros; lia]).
  split_and!.
  - eapply arena_at_frame; [exact F2| |exact W1]. unfold_fields. unfold sizeof_header in *. intros x Hx ?. lia.
  - split; cbn; [lia|lia| |done]. eapply frame_mapped; [exact F2|]. by eapply frame_mapped.
  - split; cbn; unfold sizeof_header; lia.
  - etrans; (eapply frame_mono; [eassumption|]); intros x Hx; cbn beta in Hx; tauto.
Qed.

Lemma append_core m s t copy other :
  string_at m s t -> s_len t + Z.of_nat (length other) <= s_cap t -> copies copy other m ->
  exists m',
    (cur_len ← lm_string_len s;
     copy (s +64 cur_len) (Z.of_nat (length other));;
     lm__string_set_len__ s (cur_len +64 Z.of_nat (length other));;
     store8 (s +64 (cur_len +64 Z.of_nat (length other))) 0;;
     mret s) m = Some (s, m') /\
    string_at m' s (mkStr (s_ua t) (s_cap t) (s_text t ++ other)) /\
    frame (str_block s (s_cap t)) m m'.
Proof.
  intros Hs Hfit Hcopy. pose proof (string_at_hdr _ _ _ Hs) as (_ & Hhl & _).
  pose proof Hs as [Ha Hu Hl Hcap Hf Hm Ht Hn]. pose proof (s_len_nonneg t).
  set (n := Z.of_nat (length other)) in *. unfold sizeof_header in *.
  unfold lm_string_len, lm__string_set_len__. rewrite Hhl. M_load Hl.
  rewrite (u64_small (s_len t + n)), (u64_small (s + s_len t)), (u64_small (s + (s_len t + n))) by lia.
  destruct (Hcopy (s + s_len t)) as (m1 & S1 & A1 & R1); [eapply mapped_sub; [exact Hm|lia..]|]. M_step S1.
  destruct (store64_word m1 (s - 16) (s_len t + n)) as (m2 & S2 & A2 & W2);
    [eapply agree_outside_mapped; [exact A1|by eapply word_at_mapped]|lia|]. M_step S2.
  destruct (store8_spec m2 (s + (s_len t + n)) 0) as (m3 & S3 & A3 & R3).
  { eapply agree_outside_mapped; [exact A2|]. eapply agree_outside_mapped; [exact A1|].
    eapply mapped_sub; [exact Hm|lia..]. }
  M_step S3. exists m3. split; [done|].
  assert (F : frame (str_block s (s_cap t)) m m3).
  { unfold str_block, sizeof_header.
    trans m1; [eapply agree_outside_frame; [exact A1|lia]|].
    trans m2; [eapply agree_outside_frame; [exact A2|lia]|]. eapply agree_outside_frame; [exact A3|lia]. }
  split; [|exact F].
  assert (Hlen : s_len (mkStr (s_ua t) (s_cap t) (s_text t ++ other)) = s_len t + n).
  { unfold s_len. cbn. rewrite length_app. lia. }
  split; rewrite ?Hlen; cbn; unfold sizeof_header; try lia.
  - eapply word_at_agree; [exact A3|lia|]. eapply word_at_agree; [exact A2|lia|].
    eapply word_at_agree; [exact A1|lia|done].
  - eapply word_at_agree; [exact A3|lia|done].
  - eapply word_at_agree; [exact A3|lia|]. eapply word_at_agree; [exact A2|lia|].
    eapply word_at_agree; [exact A1|lia|done].
  - by eapply frame_mapped.
  - rewrite length_app. apply read_bytes_app; unfold s_len in *.
    + rewrite (read_bytes_agree _ _ _ _ _ _ A3), (read_bytes_agree _ _ _ _ _ _ A2),
        (read_bytes_agree _ _ _ _ _ _ A1) by lia. done.
    + rewrite (read_bytes_agree _ _ _ _ _ _ A3), (read_bytes_agree _ _ _ _ _ _ A2) by lia. done.
  - exact R3.
Qed.

(** What an append leaves: the string with the text added, its arena with the
    cursor after the (possibly grown) block. *)
Definition appended (t : lmstr) (a : UArena) (other : list Z) : lmstr * UArena :=
  let n := Z.of_nat (length other) in
  if s_cap t - s_len t <? n
  then (mkStr (s_ua t) (s_cap t + n) (s_text t ++ other), with_cur a (ua_cur a + n))
  else (mkStr (s_ua t) (s_cap t) (s_text t ++ other), a).

Lemma append_spec m s t p a copy other :
  let n := Z.of_nat (length other) in
  string_at m s t -> s_ua t = p -> arena_at m p a -> wf_arena m p a -> inside s t a ->
  (s_cap t - s_len t < n -> ua_cur a + n <= ua_cap a) ->
  (forall m1, frame (fun x => p_cur p <= x < p_cur p + 8 \/ s - 8 <= x < s) m m1 -> copies copy other m1) ->
  let '(t', a') := appended t a other in
  exists m', lm__string_append__ s copy n m = Some (s, m') /\ string_at m' s t' /\
             arena_at m' p a' /\ wf_arena m' p a' /\ inside s t' a' /\
             frame (fun x => p_cur p <= x < p_cur p + 8 \/ str_block s (s_cap t') x) m m'.
Proof.
  intros n Hs Hu Ha Hwf Hin Hroom Hcopy. unfold appended. fold n.
  pose proof (s_len_nonneg t). pose proof (st_fits _ _ _ Hs). pose proof (st_addr _ _ _ Hs).
  pose proof Hin as [Hi1 Hi2]. pose proof Hwf as [Hc Hb Hmap Hap].
  unfold sizeof_header, sizeof_UArena in *.
  assert (Hne : (s =? NULL) = false) by (apply Z.eqb_neq; unfold NULL; lia).
  unfold lm__string_append__. destruct (Z.ltb_spec (s_cap t - s_len t) n) as [Hlt|Hge].
  - destruct (make_space_grow m s t p a n) as (m1 & S1 & T1 & A1 & W1 & I1 & F1); [done..|by apply Hroom|].
    M_step S1. rewrite Hne.
    destruct (append_core m1 s (grown t n) copy other T1) as (m2 & S2 & T2 & F2);
      [unfold s_len in *; cbn; lia|by apply Hcopy|].
    exists m2. split; [exact S2|]. split; [exact T2|]. cbn [s_cap grown] in F2.
    pose proof I1 as [_ I2]. cbn in I2.
    split; [|split; [|split; [exact I1|]]].
    + eapply arena_at_frame; [exact F2| |exact A1]. unfold str_block, sizeof_header, sizeof_UArena in *.
      intros x Hx ?. cbn in *. lia.
    + destruct W1. split; cbn in *; try done. by eapply frame_mapped.
    + etrans; (eapply frame_mono; [eassumption|]); intros x Hx; cbn beta in Hx; cbn;
        unfold str_block, sizeof_header in *; lia.
  - M_step (make_space_room m s t n Hs Hge). rewrite Hne.
    destruct (append_core m s t copy other Hs) as (m2 & S2 & T2 & F2);
      [fold n; lia|by apply Hcopy; reflexivity|].
    exists m2. split; [exact S2|]. split; [exact T2|]. cbn [s_cap].
    split; [|split; [|split; [exact Hin|]]].
    + eapply arena_at_frame; [exact F2| |exact Ha]. unfold str_block, sizeof_header, sizeof_UArena in *.
      intros x Hx ?. lia.
    + split; try done. by eapply frame_mapped.
    + eapply frame_mono; [exact F2|]. tauto.
Qed.

(** *** Making a string *)

Lemma make_spec m p a copy text :
  let n := Z.of_nat (length text) in
  let s := ua_mem a + ua_cur a + sizeof_header in
  let a' := with_cur a (ua_cur a + (sizeof_header + n + 1)) in
  0 <= p < 2 ^ 64 -> arena_at m p a -> wf_arena m p a -> ua_cur a + (sizeof_header + n + 1) <= ua_cap a ->
  (forall m1, frame (fun x => p_cur p <= x < p_cur p + 8 \/ ua_mem a + ua_cur a <= x < s + n + 1) m m1 ->
     copies copy text m1) ->
  exists m', lm__string_make__ (Some copy) n p m = Some (s, m') /\
    string_at m' s (mkStr p n text) /\ arena_at m' p a' /\ wf_arena m' p a' /\
    last_in s (mkStr p n text) a' /\
    frame (fun x => p_cur p <= x < p_cur p + 8 \/ ua_mem a + ua_cur a <= x < s + n + 1) m m'.
Proof.
  intros n s a' Hp Ha Hwf Hfit Hcopy. pose proof Hwf as [Hc Hb Hm Hap].
  pose proof (arena_at_ranges _ _ _ Ha) as (_ & ? & ? & ?).
  unfold lm__string_make__, sizeof_header, sizeof_UArena in *.
  rewrite (u64_small (24 + n)), (u64_small (24 + n + 1)) by lia.
  destruct (ua_zalloc_fits m p a (24 + n + 1) Ha Hwf) as (m1 & S1 & A1 & Z1 & F1); [lia|lia|].
  M_step S1. rewrite (proj2 (Z.eqb_neq _ _)) by (unfold NULL; lia).
  set (b := ua_mem a + ua_cur a) in *. rewrite (u64_small (b + 24)) by lia.
  fold s. rewrite (u64_small (s + n)) by lia.
  assert (Hblk : mapped m1 b (24 + n + 1)).
  { eapply frame_mapped; [exact F1|]. eapply mapped_sub; [exact Hm|lia..]. }
  pose proof (store_field m1 m1 b (24 + n + 1) 0 p Hblk (reflexivity _)) as H2.
  rewrite Z.add_0_r in H2. destruct H2 as (m2 & S2 & A2 & _ & W2); [lia..|]. M_step S2.
  destruct (store_field m1 m2 b (24 + n + 1) 8 n Hblk A2) as (m3 & S3 & A3 & B3 & W3); [lia..|]. M_step S3.
  destruct (store_field m1 m3 b (24 + n + 1) 16 n Hblk A3) as (m4 & S4 & A4 & B4 & W4); [lia..|]. M_step S4.
  assert (F4 : frame (fun x => p_cur p <= x < p_cur p + 8 \/ b <= x < s + n + 1) m m4).
  { trans m1; [eapply frame_mono; [exact F1|]; intros x Hx; cbn beta in Hx; lia|].
    eapply agree_outside_frame; [exact A4|lia]. }
  assert (H5 : exists m5, (if 0 <? n then copy s n else mret tt) m4 = Some (tt, m5) /\
                          agree_outside s n m4 m5 /\ read_bytes m5 s (length text) = Some text).
  { destruct (Z.ltb_spec 0 n) as [Hn|Hn].
    - apply (Hcopy m4 F4). eapply mapped_sub; [eapply agree_outside_mapped; [exact A4|exact Hblk]|lia..].
    - exists m4. assert (length text = 0)%nat as Hl by lia. apply nil_length_inv in Hl. subst text.
      split_and!; [done|reflexivity|done]. }
  destruct H5 as (m5 & S5 & A5 & R5). cbn [mbind] in *. M_step S5.
  destruct (store8_spec m5 (s + n) 0) as (m6 & S6 & A6 & R6).
  { eapply agree_outside_mapped; [exact A5|]. eapply agree_outside_mapped; [exact A4|].
    eapply mapped_sub; [exact Hblk|lia..]. }
  M_step S6. exists m6. split; [done|].
  assert (A16 : frame (fun x => b <= x < s + n + 1) m1 m6).
  { trans m4; [eapply agree_outside_frame; [exact A4|lia]|].
    trans m5; eapply agree_outside_frame; [exact A5|lia|exact A6|lia]. }
  split; [|split; [|split; [|split]]].
  - split; cbn; unfold s_len, sizeof_header; cbn; fold n; try lia.
    + replace (s - 24) with b by lia. eapply word_at_agree; [exact A6|lia|].
      eapply word_at_agree; [exact A5|lia|]. eapply word_at_agree; [exact B4|lia|].
      eapply word_at_agree; [exact B3|lia|done].
    + replace (s - 16) with (b + 8) by lia. eapply word_at_agree; [exact A6|lia|].
      eapply word_at_agree; [exact A5|lia|]. eapply word_at_agree; [exact B4|lia|done].
    + replace (s - 8) with (b + 16) by lia. eapply word_at_agree; [exact A6|lia|].
      eapply word_at_agree; [exact A5|lia|done].
    + eapply frame_mapped; [exact A16|]. eapply mapped_sub; [exact Hblk|lia..].
    + rewrite (read_bytes_agree _ _ _ _ _ _ A6) by lia. exact R5.
    + exact R6.
  - eapply arena_at_frame; [exact A16| |exact A1]. unfold_fields. intros x Hx ?. lia.
  - split; cbn; [lia|lia| |done]. eapply frame_mapped; [exact A16|]. by eapply frame_mapped.
  - split; cbn; unfold sizeof_header; lia.
  - etrans; [eapply frame_mono; [exact F1|]|eapply frame_mono; [exact A16|]]; intros x Hx; cbn beta in Hx; lia.
Qed.

(** *** Strings built by appending *)

Fixpoint append_all (s : Z) (pieces : list (list Z)) : M unit :=
  match pieces with
  | [] => mret tt
  | x :: pieces => lm_string_append_c s x;; append_all s pieces
  end.

Lemma last_inside s t a : 0 <= s_cap t -> last_in s t a -> inside s t a.
Proof. intros ? [? ?]. split; lia. Qed.

Lemma append_all_spec pieces m s t p a :
  string_at m s t -> s_ua t = p -> arena_at m p a -> wf_arena m p a -> last_in s t a ->
  ua_cur a + Z.of_nat (length (concat pieces)) <= ua_cap a ->
  exists m' c, append_all s pieces m = Some (tt, m') /\
    string_at m' s (mkStr p c (s_text t ++ concat pieces)) /\
    arena_at m' p (with_cur a (s + c + 1 - ua_mem a)) /\
    wf_arena m' p (with_cur a (s + c + 1 - ua_mem a)) /\
    last_in s (mkStr p c (s_text t ++ concat pieces)) (with_cur a (s + c + 1 - ua_mem a)) /\
    frame (fun x => p_cur p <= x < p_cur p + 8 \/ s - sizeof_header <= x < ua_mem a + ua_cap a) m m'.
Proof.
  revert m t a. induction pieces as [|x pieces IH]; intros m t a Hs Hu Ha Hwf Hl Hroom; cbn [append_all concat] in *.
  { destruct Hl as [Hl1 Hl2]. rewrite app_nil_r. exists m, (s_cap t).
    replace (s + s_cap t + 1 - ua_mem a) with (ua_cur a) by lia.
    destruct t, a; cbn in *; subst. split_and!; try done. }
  rewrite length_app in Hroom.
  pose proof (st_fits _ _ _ Hs). pose proof (s_len_nonneg t). pose proof (wf_cur _ _ _ Hwf).
  assert (Hin : inside s t a) by (apply last_inside; [lia|done]).
  pose proof (append_spec m s t p a (copy_text x) x Hs Hu Ha Hwf Hin ltac:(lia)
                (fun m1 _ => copies_text x m1)) as Happ.
  unfold appended in Happ. cbv zeta in Happ. unfold lm_string_append_c, strlen.
  destruct Hl as [Hl1 Hl2].
  destruct (Z.ltb_spec (s_cap t - s_len t) (Z.of_nat (length x)));
    destruct Happ as (m1 & S1 & T1 & A1 & W1 & I1 & F1); M_step S1;
    (destruct (IH m1 _ _ T1 Hu A1 W1) as (m2 & c & S2 & T2 & A2 & W2 & L2 & F2);
      [split; cbn; lia|cbn; lia|]);
    cbn [s_text with_cur ua_mem ua_cap ua_cur ua_flags] in *;
    rewrite <- app_assoc in T2, L2; exists m2, c; (split; [exact S2|]); split_and!; try done;
    (etrans; [eapply frame_mono; [exact F1|]|exact F2]);
    intros y Hy; cbn beta in Hy; unfold str_block, sizeof_header in *; cbn in Hy; destruct Hwf; lia.
Qed.

(** ** Properties *)

(** C40: Building a string.  [lm_string_make] followed by any number of
    [lm_string_append_c] on the last string of an arena with room for the total
    yields one NUL-terminated string whose text is the concatenation, with its
    header up to date, still the last thing in the arena; nothing outside the
    arena's free space and its cursor word has changed. *)
Theorem lm_string_build (m : mem) (p : Z) (a : UArena) (first : list Z) (pieces : list (list Z)) :
  0 <= p < 2 ^ 64 -> arena_at m p a -> wf_arena m p a ->
  ua_cur a + (sizeof_header + Z.of_nat (length (first ++ concat pieces)) + 1) <= ua_cap a ->
  exists s m1 m2 c,
    lm_string_make (Some first) p m = Some (s, m1) /\
    append_all s pieces m1 = Some (tt, m2) /\
    string_at m2 s (mkStr p c (first ++ concat pieces)) /\
    (exists a2, arena_at m2 p a2 /\ wf_arena m2 p a2 /\ last_in s (mkStr p c (first ++ concat pieces)) a2) /\
    forall x, ~ (p_cur p <= x < p_cur p + 8) ->
              ~ (ua_mem a + ua_cur a <= x < ua_mem a + ua_cap a) -> m2 !! x = m !! x.
Proof.
  intros Hp Ha Hwf Hroom. rewrite length_app in Hroom.
  destruct (make_spec m p a (copy_text first) first) as (m1 & S1 & T1 & A1 & W1 & L1 & F1);
    [done..|lia|intros; apply copies_text|].
  destruct (append_all_spec pieces m1 _ _ p _ T1 eq_refl A1 W1 L1) as (m2 & c & S2 & T2 & A2 & W2 & L2 & F2);
    [cbn; lia|].
  eexists _, m1, m2, c. split; [exact S1|]. split; [exact S2|]. split; [exact T2|]. split; [by eexists|].
  intros x Hx1 Hx2. cbn in F2. unfold sizeof_header in *. pose proof (wf_cur _ _ _ Hwf).
  rewrite (lookup_frame _ _ _ _ F2) by lia. apply (lookup_frame _ _ _ _ F1). lia.
Qed.

Lemma lm_string_build_witness :
  exists s m1 m2 c, lm_string_make (Some [104; 105]) 1000 Demo.m0 = Some (s, m1) /\
    append_all s [[33]; [63; 63]] m1 = Some (tt, m2) /\ string_at m2 s (mkStr 1000 c [104; 105; 33; 63; 63]).
Proof.
  destruct (lm_string_build Demo.m0 1000 Demo.a0 [104; 105] [[33]; [63; 63]])
    as (s & m1 & m2 & c & S1 & S2 & T & _); [lia|exact Demo.at0|exact Demo.wf0|vm_compute; done|].
  exists s, m1, m2, c. split; [exact S1|]. split; [exact S2|exact T].
Defined.

(** Growing a string that is not the last allocation of its arena: the
    append succeeds and the text is right, but the bytes it needs are reserved
    at the arena's cursor and used after the string, so those of whatever was
    allocated there are overwritten. *)
Theorem lm_string_append_overwrites (m : mem) (s p : Z) (t : lmstr) (a : UArena) (other : list Z) (b : Z) :
  string_at m s t -> s_ua t = p -> arena_at m p a -> wf_arena m p a ->
  ua_mem a + sizeof_header <= s -> s + s_cap t + 1 < ua_mem a + ua_cur a -> s_len t = s_cap t ->
  ua_cur a + Z.of_nat (length other) <= ua_cap a -> other !! 1%nat = Some b ->
  exists m', lm_string_append_c s other m = Some (s, m') /\
    string_at m' s (mkStr p (s_cap t + Z.of_nat (length other)) (s_text t ++ other)) /\
    m' !! (s + s_cap t + 1) = Some b.
Proof.
  intros Hs Hu Ha Hwf Hlo Hhi Hfull Hroom Hb. pose proof (lookup_lt_Some _ _ _ Hb).
  assert (Hin : inside s t a) by (split; lia).
  pose proof (append_spec m s t p a (copy_text other) other Hs Hu Ha Hwf Hin ltac:(lia)
                (fun m1 _ => copies_text other m1)) as Happ.
  unfold appended in Happ. cbv zeta in Happ. rewrite (proj2 (Z.ltb_lt _ _)) in Happ by lia.
  destruct Happ as (m' & S & T & _). exists m'. split; [exact S|]. subst p. split; [exact T|].
  destruct (proj1 (read_bytes_Some _ _ _ _) (st_text _ _ _ T)) as [_ Hr]. cbn in Hr.
  specialize (Hr (length (s_text t) + 1)%nat b). rewrite lookup_app_r in Hr by lia.
  replace (length (s_text t) + 1 - length (s_text t))%nat with 1%nat in Hr by lia.
  rewrite <- (Hr Hb). f_equal. unfold s_len in Hfull. lia.
Qed.

(** Two strings made one after the other in the demonstration arena. *)
Definition two_strings : mem :=
  match (lm_string_make (Some [97]) 1000;; ua_alloc 1000 5) Demo.m0 with
  | Some (_, m) => m
  | None => ∅
  end.

Lemma two_strings_first : string_at two_strings 2040 (mkStr 1000 1 [97]).
Proof.
  split; try (cbn; unfold sizeof_header, s_len; cbn; lia);
    try (split; [vm_compute; reflexivity|unfold s_len; cbn; lia]).
  - apply mapped_check. vm_compute. eauto.
  - vm_compute. reflexivity.
  - vm_compute. reflexivity.
Qed.

Lemma lm_string_append_overwrites_witness :
  exists m', lm_string_append_c 2040 [98; 99; 100] two_strings = Some (2040, m') /\ m' !! 2042 = Some 99.
Proof.
  destruct (lm_string_append_overwrites two_strings 2040 1000 (mkStr 1000 1 [97]) (mkUArena 1 64 47 2000) [98; 99; 100] 99
              two_strings_first) as (m' & S & _ & B).
  - reflexivity.
  - repeat split; (done || vm_compute; reflexivity || lia).
  - split; cbn; unfold sizeof_UArena; [lia..| |lia]. apply mapped_check. vm_compute. eauto.
  - cbn. unfold sizeof_header. lia.
  - cbn. lia.
  - reflexivity.
  - cbn. lia.
  - reflexivity.
  - exists m'. split; [exact S|exact B].
Defined.

(** A copy of [n] bytes matters only at [n]. *)
Lemma append_ext s n (copy copy' : Z -> Z -> M unit) m :
  (forall dst m1, copy dst n m1 = copy' dst n m1) ->
  lm__string_append__ s copy n m = lm__string_append__ s copy' n m.
Proof.
  intros H. unfold lm__string_append__, mbind, M_bind.
  destruct (lm_string_make_space s n m) as [[s' m1]|]; [|done].
  destruct (s' =? NULL); [done|]. destruct (lm_string_len s' m1) as [[l m2]|]; [|done]. by rewrite H.
Qed.

Lemma length_fmt_buf out : length (fmt_buf out) = 1024%nat.
Proof. unfold fmt_buf. rewrite length_app, length_replicate, length_take. lia. Qed.

Lemma copy_fmt_short out dst m :
  (length out <= 1022)%nat ->
  copy_text (fmt_buf out) dst (strlen out) m = copy_text out dst (strlen out) m.
Proof.
  intros Hl. unfold copy_text, copy_in, strlen. rewrite length_fmt_buf.
  rewrite (proj2 (Z.ltb_ge _ _)) by lia. rewrite (proj2 (Z.ltb_ge _ _)) by lia.
  rewrite Nat2Z.id. unfold fmt_buf. rewrite (take_ge out 1022) by done.
  by rewrite take_app_length, firstn_all.
Qed.

(** Formatted appends.  Output of at most 1022 characters is appended as
    [lm_string_append_c] would append it.  Longer output is truncated in the
    buffer but its full length is used: from 1025 characters on the copy reads
    past the end of the 1024-byte buffer. *)
Theorem lm_string_append_fmt_spec (s : Z) (out : list Z) (m : mem) :
  ((length out <= 1022)%nat -> lm_string_append_fmt s out m = lm_string_append_c s out m) /\
  ((1024 < length out)%nat ->
     lm_string_append_fmt s out m = None \/
     exists m', lm_string_make_space s (strlen out) m = Some (NULL, m') /\
                lm_string_append_fmt s out m = Some (NULL, m')).
Proof.
  split; intros Hl.
  - apply append_ext. intros. by apply copy_fmt_short.
  - unfold lm_string_append_fmt, lm__string_append__, mbind, M_bind.
    destruct (lm_string_make_space s (strlen out) m) as [[s' m1]|]; [|by left].
    destruct (Z.eqb_spec s' NULL) as [->|]; [right; by exists m1|left].
    destruct (lm_string_len s' m1) as [[l m2]|]; [|done].
    unfold copy_text, copy_in, strlen. rewrite length_fmt_buf.
    by rewrite (proj2 (Z.ltb_lt _ _)) by lia.
Qed.

Lemma lm_string_append_fmt_spec_witness :
  lm_string_append_fmt 2040 [98; 99] two_strings = lm_string_append_c 2040 [98; 99] two_strings.
Proof. apply (lm_string_append_fmt_spec 2040 [98; 99] two_strings). cbn. lia. Defined.

(** [lm_string_backspace] drops the last [n] characters of a string that
    has them.  Asked for more than the length, up to the size of the header
    more, it sets the length to a number just below 2^64 and writes its NUL into
    the string's own header. *)
Theorem lm_string_backspace_spec (m : mem) (s n : Z) (t : lmstr) :
  string_at m s t ->
  (0 <= n <= s_len t ->
     exists m', lm_string_backspace s n m = Some (tt, m') /\
       string_at m' s (mkStr (s_ua t) (s_cap t) (take (Z.to_nat (s_len t - n)) (s_text t)))) /\
  (s_len t < n <= s_len t + sizeof_header ->
     exists m', lm_string_backspace s n m = Some (tt, m') /\
       m' !! (s - (n - s_len t)) = Some 0 /\
       (s_len t + 16 < n -> lm_string_len s m' = Some (2 ^ 64 - (n - s_len t), m'))).
Proof.
  intros Hs. pose proof (string_at_hdr _ _ _ Hs) as (_ & Hl & _). pose proof (s_len_nonneg t).
  pose proof Hs as [Ha Hu Hlen Hcap Hf Hm Ht Hn]. unfold sizeof_header in *.
  unfold lm_string_backspace, lm_string_len, lm__string_set_len__. rewrite Hl.
  split; intros Hrange; M_load Hlen.
  - rewrite (u64_small (s_len t - n)), (u64_small (s + (s_len t - n))) by lia.
    destruct (store64_word m (s - 16) (s_len t - n)) as (m1 & S1 & A1 & W1); [by eapply word_at_mapped|lia|].
    M_step S1.
    destruct (store8_spec m1 (s + (s_len t - n)) 0) as (m2 & S2 & A2 & R2).
    { eapply agree_outside_mapped; [exact A1|]. eapply mapped_sub; [exact Hm|lia..]. }
    exists m2. split; [exact S2|].
    assert (Hl' : s_len (mkStr (s_ua t) (s_cap t) (take (Z.to_nat (s_len t - n)) (s_text t))) = s_len t - n).
    { unfold s_len in *. cbn. rewrite length_take. lia. }
    split; rewrite ?Hl'; cbn; unfold sizeof_header; try lia.
    + eapply word_at_agree; [exact A2|lia|]. eapply word_at_agree; [exact A1|lia|done].
    + eapply word_at_agree; [exact A2|lia|done].
    + eapply word_at_agree; [exact A2|lia|]. eapply word_at_agree; [exact A1|lia|done].
    + eapply agree_outside_mapped; [exact A2|]. by eapply agree_outside_mapped.
    + assert (Hk : length (take (Z.to_nat (s_len t - n)) (s_text t)) = Z.to_nat (s_len t - n))
        by (rewrite length_take; unfold s_len in *; lia).
      rewrite Hk. rewrite (read_bytes_agree _ _ _ _ _ _ A2), (read_bytes_agree _ _ _ _ _ _ A1) by lia.
      eapply read_bytes_take; [|exact Ht]. unfold s_len in *. lia.
    + exact R2.
  - assert (E1 : s_len t -64 n = 2 ^ 64 - (n - s_len t)) by word_lia.
    assert (E2 : s +64 (2 ^ 64 - (n - s_len t)) = s - (n - s_len t)) by word_lia. rewrite E1, E2.
    destruct (store64_word m (s - 16) (2 ^ 64 - (n - s_len t))) as (m1 & S1 & A1 & W1);
      [by eapply word_at_mapped|lia|]. M_step S1.
    destruct (store8_spec m1 (s - (n - s_len t)) 0) as (m2 & S2 & A2 & R2).
    { eapply agree_outside_mapped; [exact A1|]. apply word_at_mapped in Hu, Hlen, Hcap. intros x Hx.
      destruct (Z.lt_ge_cases x (s - 16)); [apply Hu; lia|].
      destruct (Z.lt_ge_cases x (s - 8)); [apply Hlen; lia|apply Hcap; lia]. }
    exists m2. split; [exact S2|]. split; [exact R2|]. intros Hfar.
    apply load64_word_at. eapply word_at_agree; [exact A2|lia|exact W1].
Qed.

Lemma lm_string_backspace_spec_witness :
  exists m', lm_string_backspace 2040 20 two_strings = Some (tt, m') /\ m' !! 2021 = Some 0.
Proof.
  destruct (proj2 (lm_string_backspace_spec two_strings 2040 20 _ two_strings_first)) as (m' & S & Z0 & _).
  - unfold s_len, sizeof_header. cbn. lia.
  - exists m'. split; [exact S|exact Z0].
Defined.

(** The string functions of [Sdb.h] compute what those of [lm.h] do, with two
    differences.  [Sdb__StringMake__] does not clear its block, and an empty,
    non-NULL initial text is given no terminator: the first character of the
    new string is whatever the arena held there.  [SdbStringFree] gives the
    block back to the arena, where [lm_string_free] does nothing. *)
Theorem SdbString_equiv (m : mem) (s p : Z) (a : UArena) :
  (forall x, SdbStringAppendC s x m = lm_string_append_c s x m /\
             SdbStringSet s x m = lm_string_set s x m /\
             SdbStringAppendFmt s x m = lm_string_append_fmt s x m) /\
  (forall n, SdbStringBackspace s n m = lm_string_backspace s n m) /\
  (forall s', SdbStringAppend s s' m = lm_string_append s s' m /\
              SdbStringsAreEqual s s' m = lm_strings_are_equal s s' m) /\
  SdbStringClear s m = lm_string_clear s m /\
  (0 <= p < 2 ^ 64 -> arena_at m p a -> wf_arena m p a ->
   ua_cur a + (sizeof_header + 1) <= ua_cap a ->
   let str := ua_mem a + ua_cur a + sizeof_header in
   exists m', SdbStringMake p (Some []) m = Some (str, m') /\ m' !! str = m !! str).
Proof.
  split_and!; try done.
  intros Hp Ha Hwf Hfit str. pose proof Hwf as [Hc Hb Hm Hap]. unfold sizeof_header in *.
  pose proof (arena_at_ranges _ _ _ Ha) as (_ & ? & ? & ?).
  unfold SdbStringMake, Sdb__StringMake__, strlen, sizeof_header. cbn [length Z.of_nat].
  change (24 +64 0 +64 1) with 25.
  destruct (ua_alloc_fits m p a 25 Ha) as (m1 & S1 & A1 & W1); [rewrite u64_small; lia|].
  rewrite !u64_small in * by lia. M_step S1. rewrite (proj2 (Z.eqb_neq _ _)) by (unfold NULL; lia).
  assert (Hs : (ua_mem a + ua_cur a) +64 24 = str) by (rewrite u64_small; lia).
  assert (Hblk : mapped m1 (str - 24) 24).
  { eapply agree_outside_mapped; [exact A1|]. eapply mapped_sub; [exact Hm|lia..]. }
  cbn [mbind]. rewrite M_ret_bind. cbn zeta. rewrite Hs.
  destruct (hdr_addresses str) as (-> & -> & ->); [unfold sizeof_header; lia|].
  pose proof (store_field m1 m1 (str - 24) 24 0 p Hblk (reflexivity _)) as H2.
  rewrite Z.add_0_r in H2. destruct H2 as (m2 & S2 & A2 & _); [lia..|]. M_step S2.
  destruct (store_field m1 m2 (str - 24) 24 8 0 Hblk A2) as (m3 & S3 & A3 & _); [lia..|].
  replace (str - 24 + 8) with (str - 16) in S3 by lia. M_step S3.
  destruct (store_field m1 m3 (str - 24) 24 16 0 Hblk A3) as (m4 & S4 & A4 & _); [lia..|].
  replace (str - 24 + 16) with (str - 8) in S4 by lia. M_step S4.
  exists m4. split; [done|]. destruct A4 as [_ A4]. rewrite A4 by lia.
  destruct A1 as [_ A1]. apply A1. unfold_fields. lia.
Qed.

Lemma SdbString_equiv_witness :
  exists m', SdbStringMake 1000 (Some []) Demo.m0 = Some (2040, m') /\ m' !! 2040 = Some 7.
Proof.
  destruct (SdbString_equiv Demo.m0 2040 1000 Demo.a0) as (_ & _ & _ & _ & H).
  destruct H as (m' & S & E); [lia|exact Demo.at0|exact Demo.wf0|cbn; unfold sizeof_header; lia|].
  exists m'. split; [exact S|]. exact (eq_trans E eq_refl).
Defined.
