(* ===== verification/Log.v ===== *)
(** * The logs: [src/src/lm.h] and [src/src/sdhs/Sdb.h]

    A log module is a buffer behind a mutex, with a flag and a stream for each
    place that lines go to.  [lm__write_log__] and [Sdb__WriteLog__] are programs
    with one effect per call of the C library or access to the module; the
    threads of a process run them interleaved, one effect at a time.  The results
    of the library (a clock that fails, a format that does not, a short write)
    are free, within [possible]; the texts of the formats are arguments.
    Assertions are off, as in the build: a failing [strftime] returns.

    The abstract log is a list of what was written where, without a mutex and
    without a buffer: a call on it is one step ([log_spec]). *)

From Stdlib Require Import Strings.String.
From S2P Require Import Prelude.
#[local] Open Scope Z_scope.
#[local] Abbreviation length := List.length.

(** ** Effects *)

Inductive destination := Stdout | Stderr | File (f : nat).

(** The accesses to a module and the calls of the library; a failure is the
    negated [errno]. *)
Inductive eff :=
  | MutexLock
  | MutexUnlock
  | Time
  | Localtime
  | Strftime (size : nat) (suffix : list Z)         (* into buf, the format is "%T" with the suffix; 0 when it does not fit *)
  | Snprintf (at_ size : nat) (text : list Z)       (* into buf + at, the length of the text *)
  | Memset (at_ n : nat)
  | Store (at_ : nat) (c : Z)
  | ReadTerm                                        (* write_to_term *)
  | ReadFile                                        (* write_to_file *)
  | SetTerm (b : bool)
  | SetFile (b : bool) (f : option nat)             (* write_to_file, file *)
  | Write (d : destination) (n : nat)               (* of the first bytes of buf *)
  | Fwrite (n : nat).                               (* the same, to file: 1, or minus ferror *)

Inductive prog :=
  | Ret (r : Z)
  | Eff (e : eff) (k : Z -> prog).

Notation "r '<~' e ';' k" := (Eff e (fun r => k)) (at level 100, e at next level, right associativity).

Definition ENOMEM : Z := 12.

(** ** The functions *)

Definition colons : list Z := bytes "::".
Definition colon_space : list Z := bytes ": ".
Definition dropped : list Z := bytes "Message dropped; too big".

Definition is_err_level (log_level : list Z) : bool := match log_level with c :: _ => c =? 69 | [] => false end.

Section Functions.
(** [name] and [buf_size] of the module. *)
Variable name : list Z.
Variable buf_size : nat.

(** [lm__write_log__] from the test of [write_to_term] on. *)
Definition write_out (log_level : list Z) (chars_written : nat) : prog :=
  let out r := _ <~ MutexUnlock; Ret r in
  let to_file :=
    f <~ ReadFile;
    if f =? 1 then
      w <~ Fwrite chars_written;
      if w =? 1 then out 0 else out w
    else out 0 in
  t <~ ReadTerm;
  if t =? 1 then
    w <~ Write (if is_err_level log_level then Stderr else Stdout) chars_written;
    if w <? 0 then out w else to_file
  else to_file.

(** The message, from [chars_written] on. *)
Definition write_message (log_raw : bool) (log_level message : list Z) (chars_written : nat) : prog :=
  let out r := _ <~ MutexUnlock; Ret r in
  let buf_remaining := (buf_size - chars_written)%nat in
  let finish chars_written :=
    if log_raw then write_out log_level chars_written
    else _ <~ Store chars_written 10; write_out log_level (chars_written + 1) in
  fmt_ret <~ Snprintf chars_written buf_remaining message;
  if fmt_ret <? 0 then out fmt_ret
  else if Z.of_nat buf_remaining <=? fmt_ret then
    _ <~ Memset chars_written buf_remaining;
    fmt_ret <~ Snprintf chars_written buf_remaining dropped;
    if fmt_ret <? 0 then out fmt_ret
    else if Z.of_nat buf_remaining <=? fmt_ret then out (- ENOMEM)
    else finish (chars_written + Z.to_nat fmt_ret)%nat
  else finish (chars_written + Z.to_nat fmt_ret)%nat.

(** [message] is the text of the format. *)
Definition lm__write_log__ (module_is_null log_raw : bool) (log_level message : list Z) : prog :=
  let out r := _ <~ MutexUnlock; Ret r in
  if module_is_null then Ret 0
  else
    _ <~ MutexLock;
    if log_raw then write_message true log_level message 0
    else
      t <~ Time;
      if t <? 0 then out t
      else
        l <~ Localtime;
        if l <? 0 then out l
        else
          fmt_ret <~ Strftime buf_size colons;
          if fmt_ret =? 0 then out (- ENOMEM)
          else
            let chars_written := Z.to_nat fmt_ret in
            let buf_remaining := (buf_size - chars_written)%nat in
            fmt_ret <~ Snprintf chars_written buf_remaining (name ++ colons ++ log_level ++ colon_space);
            if fmt_ret <? 0 then out fmt_ret
            else if Z.of_nat buf_remaining <=? fmt_ret then out (- ENOMEM)
            else write_message false log_level message (chars_written + Z.to_nat fmt_ret).

Definition lm__set_log_file__ (file : nat) : prog :=
  _ <~ MutexLock; _ <~ SetFile true (Some file); _ <~ MutexUnlock; Ret 0.

Definition lm__remove_log_file__ : prog :=
  _ <~ MutexLock; _ <~ SetFile false None; _ <~ MutexUnlock; Ret 0.

Definition lm__enable_log_to_term__ : prog :=
  _ <~ MutexLock; _ <~ SetTerm true; _ <~ MutexUnlock; Ret 0.

Definition lm__disable_log_to_term__ : prog :=
  _ <~ MutexLock; _ <~ SetTerm false; _ <~ MutexLock; Ret 0.

(** The same in [Sdb__WriteLog__]: to the terminal alone. *)
Definition WriteMessage (LogLevel message : list Z) (CharsWritten : nat) : prog :=
  let BufferRemaining := (buf_size - CharsWritten)%nat in
  let finish CharsWritten :=
    _ <~ Store CharsWritten 10;
    w <~ Write (if is_err_level LogLevel then Stderr else Stdout) (CharsWritten + 1);
    if w <? 0 then Ret w else _ <~ MutexUnlock; Ret 0 in
  FormatRet <~ Snprintf CharsWritten BufferRemaining message;
  if FormatRet <? 0 then Ret FormatRet
  else if Z.of_nat BufferRemaining <=? FormatRet then
    _ <~ Memset CharsWritten BufferRemaining;
    FormatRet <~ Snprintf CharsWritten BufferRemaining dropped;
    if FormatRet <? 0 then Ret FormatRet
    else if Z.of_nat BufferRemaining <=? FormatRet then Ret (- ENOMEM)
    else finish (CharsWritten + Z.to_nat FormatRet)%nat
  else finish (CharsWritten + Z.to_nat FormatRet)%nat.

(** A failure returns without a word to the mutex. *)
Definition Sdb__WriteLog__ (module_is_null : bool) (LogLevel message : list Z) : prog :=
  if module_is_null then Ret 0
  else
    _ <~ MutexLock;
    t <~ Time;
    if t <? 0 then Ret t
    else
      l <~ Localtime;
      if l <? 0 then Ret l
      else
        FormatRet <~ Strftime buf_size colon_space;
        if FormatRet =? 0 then Ret (- ENOMEM)
        else
          let CharsWritten := Z.to_nat FormatRet in
          let BufferRemaining := (buf_size - CharsWritten)%nat in
          FormatRet <~ Snprintf CharsWritten BufferRemaining (name ++ colon_space ++ LogLevel ++ colon_space);
          if FormatRet <? 0 then Ret FormatRet
          else if Z.of_nat BufferRemaining <=? FormatRet then Ret (- ENOMEM)
          else WriteMessage LogLevel message (CharsWritten + Z.to_nat FormatRet).
End Functions.

(** ** A module, and the effects on it *)

(** What was written, by which thread and where, is kept with the module. *)
Record log_module := mkModule {
  lock : option nat; write_to_term : bool; write_to_file : bool; file : option nat;
  buf : list Z; written : list (nat * destination * list Z);
}.

Definition set_lock (l : option nat) (s : log_module) : log_module :=
  mkModule l (write_to_term s) (write_to_file s) (file s) (buf s) (written s).
Definition set_buf (b : list Z) (s : log_module) : log_module :=
  mkModule (lock s) (write_to_term s) (write_to_file s) (file s) b (written s).
Definition set_term (b : bool) (s : log_module) : log_module :=
  mkModule (lock s) b (write_to_file s) (file s) (buf s) (written s).
Definition set_file (b : bool) (f : option nat) (s : log_module) : log_module :=
  mkModule (lock s) (write_to_term s) b f (buf s) (written s).
Definition add_written (x : nat * destination * list Z) (s : log_module) : log_module :=
  mkModule (lock s) (write_to_term s) (write_to_file s) (file s) (buf s) (written s ++ [x]).

(** Bytes stored at a position; [None] outside of the buffer. *)
Definition store (at_ : nat) (t : list Z) (b : list Z) : option (list Z) :=
  if (at_ + length t <=? length b)%nat then Some (take at_ b ++ t ++ drop (at_ + length t) b) else None.

(** What [snprintf] leaves of a text. *)
Definition cut (size : nat) (text : list Z) : list Z := take (size - 1) text ++ [0].

(** The results of the library. *)
Definition possible (e : eff) (a : Z) : Prop :=
  match e with
  | MutexLock | MutexUnlock | Memset _ _ | Store _ _ | SetTerm _ | SetFile _ _ => a = 0
  | Time | Localtime => a <= 0
  | Strftime size suffix => a = if (8 + length suffix <? size)%nat then 8 + len suffix else 0
  | Snprintf _ _ text => a < 0 \/ a = len text
  | ReadTerm | ReadFile => a = 0 \/ a = 1
  | Write _ n => a < 0 \/ 0 <= a <= Z.of_nat n
  | Fwrite n => if (n =? 0)%nat then a = 0 else a = 1 \/ a < 0
  end.

(** An effect of thread [i]; none outside of the buffer, none on a mutex that is
    taken, none on a stream that is NULL. *)
Inductive exec (i : nat) : eff -> Z -> log_module -> log_module -> Prop :=
  | X_lock s : lock s = None -> exec i MutexLock 0 s (set_lock (Some i) s)
  | X_unlock s : lock s = Some i -> exec i MutexUnlock 0 s (set_lock None s)
  | X_time a s : possible Time a -> exec i Time a s s
  | X_localtime a s : possible Localtime a -> exec i Localtime a s s
  | X_strftime size suffix hms b s :
      length hms = 8%nat -> (8 + length suffix < size)%nat -> store 0 (hms ++ suffix ++ [0]) (buf s) = Some b ->
      exec i (Strftime size suffix) (8 + len suffix) s (set_buf b s)
  | X_strftime_small size suffix s :
      ~ (8 + length suffix < size)%nat -> exec i (Strftime size suffix) 0 s s
  | X_snprintf at_ size text b s :
      (0 < size)%nat -> store at_ (cut size text) (buf s) = Some b ->
      exec i (Snprintf at_ size text) (len text) s (set_buf b s)
  | X_snprintf_error at_ size text a s : a < 0 -> exec i (Snprintf at_ size text) a s s
  | X_memset at_ n b s : store at_ (replicate n 0) (buf s) = Some b -> exec i (Memset at_ n) 0 s (set_buf b s)
  | X_store at_ c b s : store at_ [c] (buf s) = Some b -> exec i (Store at_ c) 0 s (set_buf b s)
  | X_read_term s : exec i ReadTerm (Z.b2z (write_to_term s)) s s
  | X_read_file s : exec i ReadFile (Z.b2z (write_to_file s)) s s
  | X_set_term b s : exec i (SetTerm b) 0 s (set_term b s)
  | X_set_file b f s : exec i (SetFile b f) 0 s (set_file b f s)
  | X_write d n m s :
      (m <= n)%nat -> (n <= length (buf s))%nat ->
      exec i (Write d n) (Z.of_nat m) s (add_written (i, d, take m (buf s)) s)
  | X_write_error d n a s : a < 0 -> exec i (Write d n) a s s
  | X_fwrite n f s :
      (0 < n <= length (buf s))%nat -> file s = Some f ->
      exec i (Fwrite n) 1 s (add_written (i, File f, take n (buf s)) s)
  | X_fwrite_nothing f s : file s = Some f -> exec i (Fwrite 0) 0 s s
  | X_fwrite_error n f a s : (0 < n)%nat -> file s = Some f -> a < 0 -> exec i (Fwrite n) a s s.

(** ** Threads *)

Section Threads.
(** A call, and its program. *)
Context {call : Type} (prog_of : call -> prog).

(** [running]: the call and what is left of it; [results]: the calls that have
    returned. *)
Record thread := mkThread { running : option (call * prog); todo : list call; results : list (call * Z) }.

(** A call that has come to its end returns. *)
Definition settle (t : thread) : thread :=
  match running t with
  | Some (c, Ret r) => mkThread None (todo t) (results t ++ [(c, r)])
  | _ => t
  end.

Record sys := mkSys { shared : log_module; threads : list thread }.

Inductive step : sys -> sys -> Prop :=
  | step_call y i c cs rs :
      threads y !! i = Some (mkThread None (c :: cs) rs) ->
      step y (mkSys (shared y) (<[i := settle (mkThread (Some (c, prog_of c)) cs rs)]> (threads y)))
  | step_eff y i c e k cs rs a s :
      threads y !! i = Some (mkThread (Some (c, Eff e k)) cs rs) -> exec i e a (shared y) s ->
      step y (mkSys s (<[i := settle (mkThread (Some (c, k a)) cs rs)]> (threads y))).

Definition start (s : log_module) (calls : list (list call)) : sys :=
  mkSys s (map (fun cs => mkThread None cs []) calls).

Definition reachable (s : log_module) (calls : list (list call)) : sys -> Prop := rtc step (start s calls).

(** ** One call after the other *)

(** A program alone, from one module to another. *)
Inductive run (i : nat) : prog -> log_module -> prog -> log_module -> Prop :=
  | run_done p s : run i p s p s
  | run_eff p s e k a s1 s2 : run i p s (Eff e k) s1 -> exec i e a s1 s2 -> run i p s (k a) s2.

(** Calls that run alone, in the order of the list. *)
Inductive serial (s0 : log_module) : list (nat * call * Z) -> log_module -> Prop :=
  | serial_nil : serial s0 [] s0
  | serial_snoc h s i c r s' :
      serial s0 h s -> run i (prog_of c) s (Ret r) s' -> serial s0 (h ++ [(i, c, r)]) s'.

(** The calls of thread [i] in a history. *)
Definition of_thread (i : nat) (h : list (nat * call * Z)) : list (call * Z) :=
  omap (fun '(j, c, r) => if decide (j = i) then Some (c, r) else None) h.
End Threads.

(** ** What a call may do while it holds the mutex

    [b]: the stream of the module is known not to be NULL.  A program of a
    [leak]ing module may return with the mutex. *)

Definition in_bounds (n : nat) (b : bool) (e : eff) : Prop :=
  match e with
  | MutexLock | MutexUnlock => False
  | Strftime size _ => (0 < size <= n)%nat
  | Snprintf at_ size _ => (0 < size)%nat /\ (at_ + size <= n)%nat
  | Memset at_ m => (at_ + m <= n)%nat
  | Store at_ _ => (at_ < n)%nat
  | Write _ m => (m <= n)%nat
  | Fwrite m => (m <= n)%nat /\ b = true
  | SetFile w f => w = true -> f <> None
  | _ => True
  end.

Definition knows_file (b : bool) (e : eff) (a : Z) : bool :=
  match e with
  | ReadFile => b || (a =? 1)
  | SetFile _ _ => false
  | _ => b
  end.

Inductive body (n : nat) (leak : bool) : bool -> prog -> Prop :=
  | body_unlock b k r : k 0 = Ret r -> body n leak b (Eff MutexUnlock k)
  | body_leak b r : leak = true -> body n leak b (Ret r)
  | body_eff b e k :
      in_bounds n b e -> (forall a, possible e a -> body n leak (knows_file b e a) (k a)) -> body n leak b (Eff e k).

(** A buffer of its size, and a stream when lines go to it. *)
Definition well_formed (n : nat) (s : log_module) : Prop :=
  length (buf s) = n /\ (write_to_file s = true -> file s <> None).

Lemma store_length at_ t b b' : store at_ t b = Some b' -> length b' = length b.
Proof.
  unfold store. destruct (Nat.leb_spec (at_ + length t) (length b)); [|done]. intros [= <-].
  rewrite !length_app, length_take, length_drop. lia.
Qed.

Lemma store_in_bounds at_ t b : (at_ + length t <= length b)%nat -> is_Some (store at_ t b).
Proof. intros H. unfold store. rewrite (proj2 (Nat.leb_le _ _) H). by eexists. Qed.

Lemma cut_length size text : (0 < size)%nat -> (length (cut size text) <= size)%nat.
Proof. intros H. unfold cut. rewrite length_app, length_take. cbn. lia. Qed.

Lemma exec_possible i e a s s' : exec i e a s s' -> possible e a.
Proof.
  destruct 1; unfold possible in *; try done; try lia.
  - by rewrite (proj2 (Nat.ltb_lt _ _)).
  - by rewrite (proj2 (Nat.ltb_ge _ _)) by lia.
  - destruct (write_to_term s); cbn; lia.
  - destruct (write_to_file s); cbn; lia.
  - rewrite (proj2 (Nat.eqb_neq _ _)) by lia. by left.
  - rewrite (proj2 (Nat.eqb_neq _ _)) by lia. by right.
Qed.

(** An effect of the body keeps the module well formed and the mutex taken. *)
Lemma exec_keeps n b i e a s s' :
  exec i e a s s' -> in_bounds n b e -> well_formed n s -> (b = true -> file s <> None) ->
  well_formed n s' /\ lock s' = lock s /\ (knows_file b e a = true -> file s' <> None).
Proof.
  intros Hx Hb [Hl Hf] Hk.
  destruct Hx; cbn in *; try done; split_and!; try done; try (split; [|done]); cbn; try (by erewrite store_length);
    try (intros [Hb'|Ha]%orb_true_iff; [by apply Hk|]); destruct (write_to_file s); try done; auto.
Qed.

(** A body that is not at its end can go on. *)
Lemma exec_enabled n b i e s :
  in_bounds n b e -> well_formed n s -> (b = true -> file s <> None) -> exists a s', exec i e a s s'.
Proof.
  intros Hb [Hl Hf] Hk. destruct e as [| | | |size suffix|at_ size text|at_ m|at_ c| | |w|w f|d m|m]; cbn in Hb; try done.
  - exists 0, s. by constructor.
  - exists 0, s. by constructor.
  - destruct (decide (8 + length suffix < size)%nat) as [Hs|Hs]; [|eexists _, _; by apply X_strftime_small].
    destruct (store_in_bounds 0 (replicate 8 0 ++ suffix ++ [0]) (buf s)) as [b' E].
    { rewrite !length_app, length_replicate. cbn [length]. lia. }
    eexists _, _. eapply X_strftime; [|done|exact E]. by rewrite length_replicate.
  - destruct (store_in_bounds at_ (cut size text) (buf s)) as [b' E]; [pose proof (cut_length size text); lia|].
    eexists _, _. eapply X_snprintf; [lia|exact E].
  - destruct (store_in_bounds at_ (replicate m 0) (buf s)) as [b' E]; [rewrite length_replicate; lia|].
    eexists _, _. by apply X_memset.
  - destruct (store_in_bounds at_ [c] (buf s)) as [b' E]; [cbn; lia|]. eexists _, _. by apply X_store.
  - eexists _, _. apply X_read_term.
  - eexists _, _. apply X_read_file.
  - eexists _, _. apply X_set_term.
  - eexists _, _. apply X_set_file.
  - eexists _, _. apply (X_write i d m 0); lia.
  - destruct Hb as [Hm ->]. destruct (file s) as [f|] eqn:Ef; [|by destruct Hk]. destruct m as [|m].
    + eexists _, _. by eapply X_fwrite_nothing.
    + eexists _, _. eapply X_fwrite; [lia|done].
Qed.

(** ** What every run keeps *)

Lemma run_front i p s q s' :
  run i p s q s' -> p = q /\ s = s' \/ exists e k a s1, p = Eff e k /\ exec i e a s s1 /\ run i (k a) s1 q s'.
Proof.
  induction 1 as [p s|p s e k a s1 s2 Hr IH Hx]; [by left|]. right.
  destruct IH as [[-> ->]|(e' & k' & a' & s' & -> & Hx' & Hr')].
  - exists e, k, a, s2. split_and!; [done|done|constructor].
  - exists e', k', a', s'. split_and!; [done|done|by eapply run_eff].
Qed.

(** What was written stays. *)
Lemma run_written i p s q s' : run i p s q s' -> written s `prefix_of` written s'.
Proof.
  induction 1 as [|p s e k a s1 s2 _ IH Hx]; [done|]. etrans; [exact IH|]. destruct Hx; cbn; try done; by eexists.
Qed.

Lemma body_keeps n leak b p i s q s' :
  body n leak b p -> well_formed n s -> (b = true -> file s <> None) -> run i p s q s' -> well_formed n s'.
Proof.
  intros Hb. revert s. induction Hb as [b k r E| |b e k Hin Hk IH]; intros s Hw Hf Hr;
    apply run_front in Hr as [[_ <-]|(e' & k' & a & s1 & Ep & Hx & Hr)]; try done.
  - injection Ep as <- <-. inversion Hx; subst. rewrite E in Hr.
    by apply run_front in Hr as [[_ <-]|(? & ? & ? & ? & E' & _)].
  - injection Ep as <- <-. destruct (exec_keeps _ _ _ _ _ _ _ Hx Hin Hw Hf) as (Hw1 & _ & Hf1).
    apply (IH a (exec_possible _ _ _ _ _ Hx) s1); [done..|exact Hr].
Qed.

(** A call that takes the mutex first, or does nothing. *)
Lemma call_keeps n leak p i s r s' :
  (exists r, p = Ret r) \/ (exists k, p = Eff MutexLock k /\ body n leak false (k 0)) ->
  run i p s (Ret r) s' -> well_formed n s -> well_formed n s'.
Proof.
  intros [[r' ->]|[k [-> Hb]]] Hr Hw.
  - by apply run_front in Hr as [[_ <-]|(? & ? & ? & ? & E' & _)].
  - apply run_front in Hr as [[E' _]|(e & k' & a & s1 & Ep & Hx & Hr)]; [discriminate E'|]. injection Ep as <- <-.
    inversion Hx; subst. by apply (body_keeps n leak false (k 0) i (set_lock (Some i) s) (Ret r) s' Hb).
Qed.

(** ** Interleaved calls are calls one after the other *)

Section Serial.
Context {call : Type} (prog_of : call -> prog) (n : nat) (leak : bool).
(** A call does nothing, or takes the mutex first. *)
Context (Hprog : forall c, (exists r, prog_of c = Ret r) \/
                           exists k, prog_of c = Eff MutexLock k /\ body n leak false (k 0)).
Context (s0 : log_module) (calls : list (list call)).

#[local] Abbreviation step := (step prog_of).

(** Between calls, or in front of the mutex. *)
Definition idle (t : thread (call := call)) : Prop :=
  running t = None \/ exists c k, running t = Some (c, Eff MutexLock k) /\ prog_of c = Eff MutexLock k.

Definition at_rest (y : sys) (s : log_module) : Prop :=
  shared y = s /\ forall i t, threads y !! i = Some t -> idle t.

(** Thread [j] is inside of a call that began on [s]. *)
Definition in_call (y : sys) (s : log_module) : Prop :=
  exists j t c e k b, threads y !! j = Some t /\ running t = Some (c, Eff e k) /\
    run j (prog_of c) s (Eff e k) (shared y) /\ body n leak b (Eff e k) /\
    (b = true -> file (shared y) <> None) /\ lock (shared y) = Some j /\
    forall i t', i <> j -> threads y !! i = Some t' -> idle t'.

(** What the threads have done and have to do is the calls they were given. *)
Definition accounted (h : list (nat * call * Z)) (ts : list (thread (call := call))) : Prop :=
  forall i t, ts !! i = Some t -> results t = of_thread i h /\
    Some (map fst (results t) ++ option_list (fst <$> running t) ++ todo t) = calls !! i.

Definition sys_inv (y : sys) : Prop :=
  exists h s, serial prog_of s0 h s /\ well_formed n s /\ well_formed n (shared y) /\ (leak = false -> lock s = None) /\
    accounted h (threads y) /\ (at_rest y s \/ in_call y s).

Lemma of_thread_snoc i (h : list (nat * call * Z)) j c r :
  of_thread i (h ++ [(j, c, r)]) = of_thread i h ++ (if decide (j = i) then [(c, r)] else []).
Proof. unfold of_thread. rewrite omap_app. cbn. by destruct (decide (j = i)). Qed.

Lemma settle_ret (c : call) r cs rs : settle (mkThread (Some (c, Ret r)) cs rs) = mkThread None cs (rs ++ [(c, r)]).
Proof. done. Qed.

(** A call returns. *)
Lemma accounted_return h (ts : list (thread (call := call))) i t c r cs :
  accounted h ts -> ts !! i = Some t ->
  map fst (results t) ++ option_list (fst <$> running t) ++ todo t = map fst (results t) ++ [c] ++ cs ->
  accounted (h ++ [(i, c, r)]) (<[i := mkThread None cs (results t ++ [(c, r)])]> ts).
Proof.
  intros Ha Hi Hc i' t' Hi'. rewrite of_thread_snoc. pose proof (lookup_lt_Some _ _ _ Hi) as Hlt.
  destruct (decide (i = i')) as [<-|Hne].
  - rewrite list_lookup_insert_eq in Hi' by done. injection Hi' as <-. destruct (Ha _ _ Hi) as [Hr Hcs]. cbn.
    split; [by rewrite Hr|]. rewrite <- Hcs, Hc, map_app. cbn. by rewrite <- app_assoc.
  - rewrite list_lookup_insert_ne in Hi' by done. rewrite app_nil_r. by apply Ha.
Qed.

(** A thread goes on. *)
Lemma accounted_same h (ts : list (thread (call := call))) i t t' :
  accounted h ts -> ts !! i = Some t -> results t' = results t ->
  option_list (fst <$> running t') ++ todo t' = option_list (fst <$> running t) ++ todo t ->
  accounted h (<[i := t']> ts).
Proof.
  intros Ha Hi Hr Hc i' t1 Hi'. pose proof (lookup_lt_Some _ _ _ Hi) as Hlt. destruct (decide (i = i')) as [<-|Hne].
  - rewrite list_lookup_insert_eq in Hi' by done. injection Hi' as <-. rewrite Hr, Hc. by apply Ha.
  - rewrite list_lookup_insert_ne in Hi' by done. by apply Ha.
Qed.

Lemma idle_insert (ts : list (thread (call := call))) i t' :
  (forall j t, ts !! j = Some t -> idle t) -> idle t' -> forall j t, <[i := t']> ts !! j = Some t -> idle t.
Proof.
  intros H Ht j t Hj. destruct (decide (i = j)) as [<-|Hne].
  - apply list_lookup_insert_Some in Hj as [(_ & -> & _)|[]]; [done|congruence].
  - rewrite list_lookup_insert_ne in Hj by done. by eapply H.
Qed.

(** A call that does not use the module, or stops in front of the mutex. *)
Lemma step_call_inv y i c cs rs :
  sys_inv y -> threads y !! i = Some (mkThread None (c :: cs) rs) ->
  sys_inv (mkSys (shared y) (<[i := settle (mkThread (Some (c, prog_of c)) cs rs)]> (threads y))).
Proof.
  intros (h & s & Hs & Hw & Hw' & Hl & Ha & Hst) Hi.
  assert (Hshape : forall ts i' (t' : thread), idle t' -> ts = <[i' := t']> (threads y) -> threads y !! i' = Some (mkThread None (c :: cs) rs) ->
            at_rest (mkSys (shared y) ts) s \/ in_call (mkSys (shared y) ts) s).
  { intros ts i' t' Ht' -> Hi'. destruct Hst as [[E Hidle]|(j & t & c' & e & k & b & Hj & Hrun & Hr & Hb & Hf & Hlk & Hidle)].
    - left. split; [done|]. cbn. by apply idle_insert.
    - right. assert (i' <> j) by (intros ->; rewrite Hj in Hi'; by injection Hi' as ->).
      exists j, t, c', e, k, b. cbn. rewrite list_lookup_insert_ne by done. split_and!; try done.
      intros i1 t1 Hne Hi1. destruct (decide (i' = i1)) as [<-|].
      + apply list_lookup_insert_Some in Hi1 as [(_ & -> & _)|[]]; [done|congruence].
      + rewrite list_lookup_insert_ne in Hi1 by done. by eapply Hidle. }
  destruct (Hprog c) as [[r E]|[k [E Hk]]]; rewrite E.
  - rewrite settle_ret. exists (h ++ [(i, c, r)]), s. split_and!; try done.
    + eapply serial_snoc; [done|]. rewrite E. constructor.
    + by apply (accounted_return h _ i (mkThread None (c :: cs) rs)).
    + eapply Hshape; [|done|done]. by left.
  - exists h, s. split_and!; try done.
    + by apply (accounted_same h _ i (mkThread None (c :: cs) rs)).
    + eapply Hshape; [|done|done]. right. by exists c, k.
Qed.

(** The first effect of a call, on the mutex that is free. *)
Lemma step_lock_inv y i c k cs rs s a s' :
  at_rest y s -> (exists h, serial prog_of s0 h s /\ accounted h (threads y)) -> well_formed n s ->
  threads y !! i = Some (mkThread (Some (c, Eff MutexLock k)) cs rs) -> prog_of c = Eff MutexLock k ->
  exec i MutexLock a (shared y) s' ->
  sys_inv (mkSys s' (<[i := settle (mkThread (Some (c, k a)) cs rs)]> (threads y))).
Proof.
  intros [E Hidle] (h & Hs & Ha) Hw Hi Hc Hx. subst s.
  assert (a = 0 /\ s' = set_lock (Some i) (shared y) /\ lock (shared y) = None) as (-> & -> & Hl) by (by inversion Hx).
  assert (Hrun : run i (prog_of c) (shared y) (k 0) (set_lock (Some i) (shared y))).
  { rewrite Hc. eapply run_eff; [constructor|exact Hx]. }
  destruct (Hprog c) as [[r E]|[k' [E Hk]]]; [congruence|]. rewrite Hc in E. injection E as <-.
  destruct (k 0) as [r|e k'] eqn:Ek.
  - rewrite settle_ret. exists (h ++ [(i, c, r)]), (set_lock (Some i) (shared y)). split_and!; try done.
    + by eapply serial_snoc.
    + intros ->. by inversion Hk.
    + by apply (accounted_return h _ i _ c r cs Ha Hi).
    + left. split; [done|]. cbn. apply idle_insert; [done|by left].
  - exists h, (shared y). split_and!; try done.
    + by apply (accounted_same h _ i _ _ Ha Hi).
    + right. exists i, (mkThread (Some (c, Eff e k')) cs rs), c, e, k', false. cbn. split_and!; try done.
      * by rewrite list_lookup_insert_eq by by eapply lookup_lt_Some.
      * intros j t Hne Hj. rewrite list_lookup_insert_ne in Hj by done. by eapply Hidle.
Qed.

(** An effect inside of a call. *)
Lemma step_body_inv y i c e k cs rs s a s' b :
  threads y !! i = Some (mkThread (Some (c, Eff e k)) cs rs) ->
  run i (prog_of c) s (Eff e k) (shared y) -> body n leak b (Eff e k) -> (b = true -> file (shared y) <> None) ->
  lock (shared y) = Some i -> (forall j t, j <> i -> threads y !! j = Some t -> idle t) ->
  (exists h, serial prog_of s0 h s /\ accounted h (threads y)) -> well_formed n s -> well_formed n (shared y) ->
  (leak = false -> lock s = None) -> exec i e a (shared y) s' ->
  sys_inv (mkSys s' (<[i := settle (mkThread (Some (c, k a)) cs rs)]> (threads y))).
Proof.
  intros Hi Hrun Hb Hf Hl Hidle (h & Hs & Ha) Hw Hw' Hlk Hx.
  assert (Hidle' : forall t', idle t' -> forall j t, <[i := t']> (threads y) !! j = Some t -> idle t).
  { intros t' Ht' j t Hj. destruct (decide (i = j)) as [<-|Hne].
    - apply list_lookup_insert_Some in Hj as [(_ & -> & _)|[]]; [done|congruence].
    - rewrite list_lookup_insert_ne in Hj by done. by apply (Hidle j). }
  assert (Hend : forall r, k a = Ret r -> well_formed n s' -> (leak = false -> lock s' = None) ->
            sys_inv (mkSys s' (<[i := settle (mkThread (Some (c, k a)) cs rs)]> (threads y)))).
  { intros r Er Hws Hls. rewrite Er, settle_ret. exists (h ++ [(i, c, r)]), s'. split_and!; try done.
    - eapply serial_snoc; [done|]. rewrite <- Er. by eapply run_eff.
    - by apply (accounted_return h _ i _ c r cs Ha Hi).
    - left. split; [done|]. apply Hidle'. by left. }
  inversion Hb as [? ? r Er| |? ? ? Hin Hk]; subst.
  - inversion Hx; subst. by apply (Hend r).
  - destruct (exec_keeps n b i e a _ _ Hx Hin Hw' Hf) as (Hws & Hls & Hfs).
    specialize (Hk a (exec_possible _ _ _ _ _ Hx)). destruct (k a) as [r|e' k'] eqn:Ek.
    + apply (Hend r); [done..|]. intros ->. by inversion Hk.
    + exists h, s. split_and!; try done; [by apply (accounted_same h _ i _ _ Ha Hi)|]. right.
      exists i, (mkThread (Some (c, Eff e' k')) cs rs), c, e', k', (knows_file b e a). cbn. split_and!; try done.
      * by rewrite list_lookup_insert_eq by by eapply lookup_lt_Some.
      * rewrite <- Ek. by eapply run_eff.
      * congruence.
      * intros j t Hne Hj. rewrite list_lookup_insert_ne in Hj by done. by eapply Hidle.
Qed.

Lemma step_inv y y' : sys_inv y -> step y y' -> sys_inv y'.
Proof.
  intros Hinv Hst. destruct Hst as [y i c cs rs Hi|y i c e k cs rs a s' Hi Hx]; [by apply step_call_inv|].
  destruct Hinv as (h & s & Hs & Hw & Hw' & Hl & Ha & [Hrest|(j & t & c' & e' & k' & b & Hj & Hrun & Hr & Hb & Hf & Hlk & Hidle)]).
  - destruct (proj2 Hrest _ _ Hi) as [Hn|(c' & k' & Hn & Hc)]; [done|]. injection Hn as <- -> <-.
    by apply (step_lock_inv y i c k cs rs s); [|exists h| | | |].
  - destruct (decide (i = j)) as [->|Hne].
    + rewrite Hi in Hj. injection Hj as <-. cbn in Hrun. injection Hrun as <- <- <-.
      by apply (step_body_inv y j c e k cs rs s a s' b); try (by exists h).
    + destruct (Hidle i _ Hne Hi) as [Hn|(c1 & k1 & Hn & Hc)]; [done|]. injection Hn as <- -> <-.
      inversion Hx; congruence.
Qed.

Lemma start_inv : well_formed n s0 -> lock s0 = None -> sys_inv (start s0 calls).
Proof.
  intros Hw Hl. exists [], s0. split_and!; try done.
  - constructor.
  - intros i t Hi. unfold start in Hi. cbn in Hi. rewrite list_lookup_fmap in Hi.
    destruct (calls !! i) as [cs|]; [|done]. injection Hi as <-. by split.
  - left. split; [done|]. intros i t Hi. unfold start in Hi. cbn in Hi. rewrite list_lookup_fmap in Hi.
    destruct (calls !! i) as [cs|]; [|done]. injection Hi as <-. by left.
Qed.

Lemma reachable_sys_inv y : well_formed n s0 -> lock s0 = None -> reachable prog_of s0 calls y -> sys_inv y.
Proof.
  intros Hw Hl Hr. unfold reachable in Hr. pose proof (start_inv Hw Hl) as Hi.
  induction Hr as [y|y y1 y2 Hst _ IH]; [done|]. apply IH. by eapply step_inv.
Qed.

(** A thread that has something left can go on, or another one can, when no call
    keeps the mutex. *)
Lemma inv_progress y i t :
  leak = false -> sys_inv y -> threads y !! i = Some t -> running t <> None \/ todo t <> [] -> exists y', step y y'.
Proof.
  intros Hleak (h & s & _ & Hw & Hw' & Hl & _ & Hst) Hi Ht.
  destruct Hst as [[E Hidle]|(j & t' & c & e & k & b & Hj & Hrun & _ & Hb & Hf & Hlk & _)].
  - destruct t as [[[c p]|] cs rs].
    + destruct (Hidle _ _ Hi) as [Hn|(c' & k & Hn & _)]; [done|]. cbn in Hn. injection Hn as <- ->.
      eexists. eapply step_eff; [exact Hi|]. constructor. rewrite E. by apply Hl.
    + destruct cs as [|c cs]; [by destruct Ht|]. eexists. by eapply step_call.
  - destruct t' as [r' cs rs]. cbn in Hrun. subst r'. inversion Hb as [? ? r Er| |? ? ? Hin Hk]; subst.
    + eexists. eapply step_eff; [exact Hj|]. by constructor.
    + destruct (exec_enabled n b j e (shared y) Hin Hw' Hf) as (a & s' & Hx). eexists. by eapply step_eff.
Qed.
End Serial.

(** ** The number of steps *)

(** At most [d] effects, whatever they result in. *)
Inductive within : nat -> prog -> Prop :=
  | within_ret d r : within d (Ret r)
  | within_eff d e k : (forall a, within d (k a)) -> within (S d) (Eff e k).

Lemma within_le d d' p : within d p -> (d <= d')%nat -> within d' p.
Proof.
  intros H. revert d'. induction H as [|d e k _ IH]; intros d' Hd; [constructor|]. destruct d' as [|d']; [lia|].
  constructor. intros a. apply IH. lia.
Qed.

Section Steps.
Context {call : Type} (prog_of : call -> prog) (d : nat) (Hprog : forall c, within d (prog_of c)).

(** [m] steps are enough for a thread. *)
Definition enough (t : thread (call := call)) (m : nat) : Prop :=
  match running t with
  | None => m = (S d * length (todo t))%nat
  | Some (_, p) => exists d', within d' p /\ m = (d' + S d * length (todo t))%nat
  end.

Lemma settle_enough c d' p cs rs m :
  within d' p -> (d' + S d * length cs < m)%nat -> exists m', enough (settle (mkThread (Some (c, p)) cs rs)) m' /\ (m' < m)%nat.
Proof.
  intros Hp Hm. unfold enough. destruct p as [r|e k]; cbn [settle running todo].
  - eexists. split; [done|]. lia.
  - eexists. split; [by exists d'|done].
Qed.

Lemma sum_list_insert ms i m m' : ms !! i = Some m -> (m' < m)%nat -> (sum_list (<[i := m']> ms) < sum_list ms)%nat.
Proof.
  revert i. induction ms as [|x ms IH]; intros [|i] Hi Hm; try done.
  - injection Hi as ->. cbn. lia.
  - specialize (IH i Hi Hm). change (x + sum_list (<[i := m']> ms) < x + sum_list ms)%nat. lia.
Qed.

Lemma step_fewer y y' ms :
  Forall2 enough (threads y) ms -> step prog_of y y' ->
  exists ms', Forall2 enough (threads y') ms' /\ (sum_list ms' < sum_list ms)%nat.
Proof.
  intros Hf Hst.
  assert (Hgo : forall i t t' m m', threads y !! i = Some t -> ms !! i = Some m -> enough t' m' -> (m' < m)%nat ->
            exists ms', Forall2 enough (<[i := t']> (threads y)) ms' /\ (sum_list ms' < sum_list ms)%nat).
  { intros i t t' m m' _ Hm He Hlt. exists (<[i := m']> ms). split; [by apply Forall2_insert|by eapply sum_list_insert]. }
  destruct Hst as [y i c cs rs Hi|y i c e k cs rs a s Hi Hx]; destruct (Forall2_lookup_l _ _ _ _ _ Hf Hi) as (m & Hm & He);
    unfold enough in He; cbn [running todo] in He.
  - destruct (settle_enough c d (prog_of c) cs rs m (Hprog c)) as (m' & He' & Hlt); [rewrite He; cbn [length]; lia|]. by eapply Hgo.
  - destruct He as (d' & Hd & ->). inversion Hd as [|d1 ? ? Hk]; subst.
    destruct (settle_enough c d1 (k a) cs rs (S d1 + S d * length cs)%nat (Hk a)) as (m' & He' & Hlt); [lia|]. by eapply Hgo.
Qed.

Lemma nsteps_enough k y y' ms :
  Forall2 enough (threads y) ms -> nsteps (step prog_of) k y y' -> (k <= sum_list ms)%nat.
Proof.
  intros Hf Hk. revert ms Hf. induction Hk as [y|k y y1 y2 Hst _ IH]; intros ms Hf; [lia|].
  destruct (step_fewer _ _ _ Hf Hst) as (ms' & Hf' & Hlt). specialize (IH ms' Hf'). lia.
Qed.

Lemma start_enough s calls : Forall2 enough (threads (start s calls)) (map (fun cs => (S d * length cs)%nat) calls).
Proof. unfold start. cbn. induction calls as [|cs calls IH]; constructor; [done|exact IH]. Qed.

(** All the calls of the threads together. *)
Definition calls_number (calls : list (list call)) : nat := sum_list_with length calls.

Lemma steps_bound k s calls y : nsteps (step prog_of) k (start s calls) y -> (k <= S d * calls_number calls)%nat.
Proof.
  intros Hk%(nsteps_enough _ _ _ _ (start_enough s calls)). etrans; [exact Hk|]. unfold calls_number.
  clear. induction calls as [|cs calls IH]; [cbn; lia|].
  change (S d * length cs + sum_list (map (fun cs => S d * length cs) calls) <=
          S d * (length cs + sum_list_with length calls))%nat. lia.
Qed.
End Steps.

(** ** The abstract log *)

(** Where lines go to, and what was written. *)
Record journal := mkJournal { to_term : bool; to_file : option nat; entries : list (nat * destination * list Z) }.

Definition journal_of (s : log_module) : journal :=
  mkJournal (write_to_term s) (if write_to_file s then file s else None) (written s).

Definition add_entries (l : list (nat * destination * list Z)) (a : journal) : journal :=
  mkJournal (to_term a) (to_file a) (entries a ++ l).

(** The first [m] bytes of a line to the terminal; a whole line to the file. *)
Definition term_entry (i : nat) (level line : list Z) (m : nat) (a : journal) : list (nat * destination * list Z) :=
  if to_term a then [(i, if is_err_level level then Stderr else Stdout, take m line)] else [].
Definition file_entry (i : nat) (line : list Z) (a : journal) : list (nat * destination * list Z) :=
  match to_file a with
  | Some f => if bool_decide (line = []) then [] else [(i, File f, line)]
  | None => []
  end.

(** A line is written to where lines go to, or to no place behind one that
    failed. *)
Inductive out_spec (i : nat) (level line : list Z) (a : journal) : Z -> journal -> Prop :=
  | out_done m :
      (m <= length line)%nat -> out_spec i level line a 0 (add_entries (term_entry i level line m a ++ file_entry i line a) a)
  | out_term_fails r : to_term a = true -> r < 0 -> out_spec i level line a r a
  | out_file_fails m f r :
      (m <= length line)%nat -> to_file a = Some f -> r < 0 ->
      out_spec i level line a r (add_entries (term_entry i level line m a) a).

(** ** A call of lm.h alone *)

(** What an effect does, by the effect. *)
Definition effect_of (i : nat) (e : eff) (a : Z) (s s' : log_module) : Prop :=
  match e with
  | MutexLock => lock s = None /\ a = 0 /\ s' = set_lock (Some i) s
  | MutexUnlock => lock s = Some i /\ a = 0 /\ s' = set_lock None s
  | Time | Localtime => a <= 0 /\ s' = s
  | Strftime size suffix =>
      (exists hms b, length hms = 8%nat /\ (8 + length suffix < size)%nat /\
         store 0 (hms ++ suffix ++ [0]) (buf s) = Some b /\ a = 8 + len suffix /\ s' = set_buf b s) \/
      a = 0 /\ s' = s
  | Snprintf at_ size text =>
      (exists b, (0 < size)%nat /\ store at_ (cut size text) (buf s) = Some b /\ a = len text /\ s' = set_buf b s) \/
      a < 0 /\ s' = s
  | Memset at_ n => exists b, store at_ (replicate n 0) (buf s) = Some b /\ s' = set_buf b s
  | Store at_ c => exists b, store at_ [c] (buf s) = Some b /\ s' = set_buf b s
  | ReadTerm => a = Z.b2z (write_to_term s) /\ s' = s
  | ReadFile => a = Z.b2z (write_to_file s) /\ s' = s
  | SetTerm b => s' = set_term b s
  | SetFile b f => s' = set_file b f s
  | Write d n =>
      (exists m, (m <= n)%nat /\ a = Z.of_nat m /\ s' = add_written (i, d, take m (buf s)) s) \/ a < 0 /\ s' = s
  | Fwrite n =>
      exists f, file s = Some f /\
        ((0 < n <= length (buf s))%nat /\ a = 1 /\ s' = add_written (i, File f, take n (buf s)) s \/
         n = 0%nat /\ a = 0 /\ s' = s \/ (0 < n)%nat /\ a < 0 /\ s' = s)
  end.

Lemma exec_effect i e a s s' : exec i e a s s' -> effect_of i e a s s'.
Proof. destruct 1; cbn; eauto 12. Qed.

Lemma run_eff_front i e k s r s' :
  run i (Eff e k) s (Ret r) s' -> exists a s1, exec i e a s s1 /\ run i (k a) s1 (Ret r) s'.
Proof. intros [[E _]|(e' & k' & a & s1 & [= <- <-] & Hx & Hr)]%run_front; [discriminate E|by exists a, s1]. Qed.

(** The first effect of a run. *)
Ltac run_step H a X :=
  apply run_eff_front in H as (a & ? & X & H); cbv beta in H; apply exec_effect in X; unfold effect_of in X.

Lemma unlock_run i r s r' s' :
  run i (_ <~ MutexUnlock; Ret r) s (Ret r') s' -> r' = r /\ s' = set_lock None s.
Proof.
  intros H. run_step H a X. destruct X as (_ & _ & ->).
  apply run_front in H as [[[= ->] ->]|(? & ? & ? & ? & E & _)]; [done|discriminate E].
Qed.

(** The part of [write_out] after the terminal. *)
Lemma file_part_spec i c s r s' :
  (c <= length (buf s))%nat -> (write_to_file s = true -> file s <> None) ->
  run i (f <~ ReadFile;
         if f =? 1 then
           w <~ Fwrite c;
           if w =? 1 then _ <~ MutexUnlock; Ret 0 else _ <~ MutexUnlock; Ret w
         else _ <~ MutexUnlock; Ret 0) s (Ret r) s' ->
  lock s' = None /\
  (r = 0 /\ journal_of s' = add_entries (file_entry i (take c (buf s)) (journal_of s)) (journal_of s) \/
   r < 0 /\ (exists f, to_file (journal_of s) = Some f) /\ journal_of s' = journal_of s).
Proof.
  intros Hc Hf H. unfold file_entry, journal_of, add_entries. cbn [to_file to_term entries]. run_step H a X. destruct X as [-> ->].
  destruct (write_to_file s) eqn:Ew; cbn [Z.b2z Z.eqb Pos.eqb] in H.
  - run_step H a X. destruct X as (f & Ef & [([Hn _] & -> & ->)|[(-> & -> & ->)|(Hn & Ha & ->)]]).
    + apply unlock_run in H as [-> ->]. split; [done|]. left. split; [done|]. cbn. rewrite Ew, Ef.
      rewrite bool_decide_eq_false_2; [done|]. intros E0. apply (f_equal length) in E0. rewrite length_take in E0. cbn in E0. lia.
    + apply unlock_run in H as [-> ->]. split; [done|]. left. split; [done|]. cbn. by rewrite Ew, Ef, app_nil_r.
    + replace (_ =? 1) with false in H by lia. apply unlock_run in H as [-> ->]. split; [done|]. right. cbn.
      rewrite Ew, Ef. split; [done|]. split; [by eexists|done].
  - apply unlock_run in H as [-> ->]. split; [done|]. left. split; [done|]. cbn. by rewrite Ew, app_nil_r.
Qed.

Lemma add_entries_add l l' a : add_entries l' (add_entries l a) = add_entries (l ++ l') a.
Proof. unfold add_entries. cbn. by rewrite app_assoc. Qed.

Lemma write_out_spec i level c s r s' :
  (c <= length (buf s))%nat -> (write_to_file s = true -> file s <> None) ->
  run i (write_out level c) s (Ret r) s' ->
  lock s' = None /\ out_spec i level (take c (buf s)) (journal_of s) r (journal_of s').
Proof.
  intros Hc Hf H. unfold write_out in H. run_step H a X. destruct X as [-> ->].
  assert (Hlen : length (take c (buf s)) = c) by (rewrite length_take; lia).
  destruct (write_to_term s) eqn:Et; cbn [Z.b2z Z.eqb Pos.eqb] in H.
  - run_step H a X. destruct X as [(m & Hm & -> & ->)|[Ha ->]].
    + replace (_ <? 0) with false in H by lia. apply file_part_spec in H as (Hl & H); [|done|done]. split; [done|].
      assert (Hterm : journal_of (add_written (i, if is_err_level level then Stderr else Stdout, take m (buf s)) s)
                      = add_entries (term_entry i level (take c (buf s)) m (journal_of s)) (journal_of s)).
      { unfold term_entry. cbn [to_term journal_of]. rewrite Et, take_take, Nat.min_l by lia. done. }
      rewrite Hterm in H. destruct H as [[-> ->]|(Hr & [f Hfile] & ->)].
      * rewrite add_entries_add. exact (out_done i level (take c (buf s)) (journal_of s) m ltac:(lia)).
      * exact (out_file_fails i level (take c (buf s)) (journal_of s) m f r ltac:(lia) Hfile Hr).
    + replace (_ <? 0) with true in H by lia. apply unlock_run in H as [-> ->]. split; [done|]. by apply out_term_fails.
  - apply file_part_spec in H as (Hl & H); [|done|done]. split; [done|].
    assert (Hterm : term_entry i level (take c (buf s)) 0 (journal_of s) = []) by (unfold term_entry; cbn; by rewrite Et).
    destruct H as [[-> ->]|(Hr & [f Hfile] & ->)].
    + rewrite <- (app_nil_l (file_entry _ _ _)), <- Hterm. apply out_done. lia.
    + pose proof (out_file_fails i level (take c (buf s)) (journal_of s) 0 f r ltac:(lia) Hfile Hr) as Hd.
      rewrite Hterm in Hd. unfold add_entries in Hd. rewrite app_nil_r in Hd. by destruct (journal_of s).
Qed.

Lemma store_text at_ t b b' : store at_ t b = Some b' -> take (at_ + length t) b' = take at_ b ++ t.
Proof.
  unfold store. destruct (Nat.leb_spec (at_ + length t) (length b)); [|done]. intros [= <-].
  rewrite app_assoc, take_app_length'; [done|]. rewrite length_app, length_take. lia.
Qed.

Lemma store_front p t b b' : store (length p) t b = Some b' -> take (length p) b = p -> take (length p) b' = p.
Proof. unfold store. destruct (_ <=? _)%nat; [|done]. intros [= <-] ->. by rewrite take_app_length. Qed.

Lemma cut_whole size text : (length text < size)%nat -> cut size text = text ++ [0].
Proof. intros H. unfold cut. by rewrite take_ge by lia. Qed.

Lemma len_not_negative l : (len l <? 0) = false.
Proof. apply Z.ltb_ge, len_nonneg. Qed.

(** A text that fits, behind the text before it. *)
Lemma snprintf_text p size text b b' :
  take (length p) b = p -> (length text < size)%nat -> store (length p) (cut size text) b = Some b' ->
  take (length (p ++ text)) b' = p ++ text /\ length b' = length b.
Proof.
  intros Hp Hs E. split; [|by eapply store_length]. rewrite cut_whole in E by done. apply store_text in E as E'. rewrite Hp in E'.
  rewrite length_app in *. cbn in E'. rewrite <- (Nat.min_l (length p + length text) (length p + (length text + 1))) by lia.
  rewrite <- take_take, E', app_assoc. apply take_app_length'. by rewrite length_app.
Qed.

(** The clock at the beginning of a line. *)
Lemma strftime_text hms suffix b b' :
  store 0 (hms ++ suffix ++ [0]) b = Some b' ->
  take (length (hms ++ suffix)) b' = hms ++ suffix /\ length b' = length b.
Proof.
  intros E. apply store_length in E as EL. split; [|done]. apply store_text in E. rewrite take_0, app_nil_l, app_assoc in E.
  rewrite <- (Nat.min_l (length (hms ++ suffix)) (0 + length ((hms ++ suffix) ++ [0]))) by (rewrite (length_app (_ ++ _)); cbn; lia).
  rewrite <- take_take, E. by apply take_app_length'.
Qed.

Section Line.
Context (name : list Z) (buf_size : nat).

(** A line behind its beginning [p]: a message that does not fit is replaced. *)
Definition line_from (raw : bool) (p message : list Z) : list Z :=
  p ++ (if Z.of_nat (buf_size - length p) <=? len message then dropped else message) ++ (if raw then [] else [10]).

Definition line_of (raw : bool) (hms level message : list Z) : list Z :=
  line_from raw (if raw then [] else hms ++ colons ++ name ++ colons ++ level ++ colon_space) message.

(** A call of [lm__write_log__] on the abstract log, in one step: it fails and
    writes nothing, or it writes its line. *)
Inductive log_spec (i : nat) (raw : bool) (level message : list Z) (a : journal) : Z -> journal -> Prop :=
  | log_fails r : r < 0 -> log_spec i raw level message a r a
  | log_writes hms r a' :
      length hms = 8%nat -> out_spec i level (line_of raw hms level message) a r a' -> log_spec i raw level message a r a'.

Lemma finish_spec i (raw : bool) level p t s r s' :
  take (length (p ++ t)) (buf s) = p ++ t -> (length (p ++ t) < length (buf s))%nat ->
  (write_to_file s = true -> file s <> None) ->
  run i (if raw then write_out level (length (p ++ t))
         else _ <~ Store (length (p ++ t)) 10; write_out level (length (p ++ t) + 1)) s (Ret r) s' ->
  lock s' = None /\ out_spec i level (p ++ t ++ (if raw then [] else [10])) (journal_of s) r (journal_of s').
Proof.
  intros Ht Hl Hf H. destruct raw.
  - apply write_out_spec in H as [Hlk H]; [|lia|done]. rewrite Ht in H. by rewrite app_nil_r.
  - run_step H a X. destruct X as (b & E & ->). apply write_out_spec in H as [Hlk H]; [|cbn|done].
    + cbn in H. apply store_text in E. cbn in E. rewrite E, Ht in H. by rewrite <- app_assoc in H.
    + apply store_length in E. lia.
Qed.

Lemma write_message_spec i raw level message p s r s' :
  length (buf s) = buf_size -> take (length p) (buf s) = p -> (length p < buf_size)%nat ->
  (write_to_file s = true -> file s <> None) ->
  run i (write_message buf_size raw level message (length p)) s (Ret r) s' ->
  lock s' = None /\ (r < 0 /\ journal_of s' = journal_of s \/
                     out_spec i level (line_from raw p message) (journal_of s) r (journal_of s')).
Proof.
  intros Hb Hp Hl Hf H. unfold write_message in H. unfold line_from. run_step H a X.
  destruct X as [(b & Hsz & E & -> & ->)|[Ha ->]].
  2: { replace (_ <? 0) with true in H by lia. apply unlock_run in H as [-> ->]. split; [done|]. by left. }
  rewrite len_not_negative in H.
  destruct (Z.leb_spec (Z.of_nat (buf_size - length p)) (len message)) as [Hbig|Hfits].
  - run_step H a1 X. destruct X as (b1 & E1 & ->). run_step H a2 X. cbn [buf set_buf] in E1. destruct X as [(b2 & Hsz2 & E2 & -> & ->)|[Ha ->]].
    2: { replace (_ <? 0) with true in H by lia. apply unlock_run in H as [-> ->]. split; [done|]. by left. }
    rewrite len_not_negative in H.
    destruct (Z.leb_spec (Z.of_nat (buf_size - length p)) (len dropped)) as [Hbig2|Hfits2].
    { apply unlock_run in H as [-> ->]. split; [done|]. left. unfold ENOMEM. split; [lia|done]. }
    cbn [buf set_buf] in E2. assert (Hp1 : take (length p) b1 = p /\ length b1 = length (buf s)).
    { apply store_length in E as EL. apply store_length in E1 as EL1. split; [|congruence].
      eapply store_front; [exact E1|]. by eapply store_front. }
    destruct Hp1 as [Hp1 Hl1]. unfold len in Hfits2. destruct (snprintf_text p (buf_size - length p) dropped b1 b2 Hp1 ltac:(lia) E2) as [Ht2 Hl2].
    unfold len in H. rewrite Nat2Z.id, <- length_app in H.
    apply finish_spec in H as [Hlk H]; [split; [done|by right]|exact Ht2|cbn [buf set_buf]; rewrite Hl2, Hl1, length_app; lia|done].
  - unfold len in Hfits. destruct (snprintf_text p (buf_size - length p) message (buf s) b Hp ltac:(lia) E) as [Ht Hlb].
    unfold len in H. rewrite Nat2Z.id, <- length_app in H.
    apply finish_spec in H as [Hlk H]; [split; [done|by right]|exact Ht|cbn [buf set_buf]; rewrite Hlb, length_app; lia|done].
Qed.

Lemma write_log_spec i raw level message s r s' :
  well_formed buf_size s -> (0 < buf_size)%nat -> run i (lm__write_log__ name buf_size false raw level message) s (Ret r) s' ->
  lock s' = None /\ log_spec i raw level message (journal_of s) r (journal_of s').
Proof.
  intros [Hb Hf] Hn H. unfold lm__write_log__ in H. run_step H a0 X. destruct X as (_ & _ & ->).
  assert (Hfail : forall r1 s1, journal_of s1 = journal_of s -> r1 < 0 -> run i (_ <~ MutexUnlock; Ret r1) s1 (Ret r) s' ->
            lock s' = None /\ log_spec i raw level message (journal_of s) r (journal_of s')).
  { intros r1 s1 Hj Hr Hrun. apply unlock_run in Hrun as [-> ->]. split; [done|]. change (journal_of (set_lock None s1)) with (journal_of s1). rewrite Hj. by apply log_fails. }
  destruct raw.
  { apply (write_message_spec i true level message []) in H as [Hlk H]; [|done|done|done|done]. split; [done|].
    destruct H as [[Hr ->]|H]; [by apply log_fails|]. by apply (log_writes _ _ _ _ _ (replicate 8 0)). }
  run_step H a X. destruct X as [_ ->]. destruct (Z.ltb_spec a 0); [by apply (Hfail a (set_lock (Some i) s))|].
  run_step H a' X. destruct X as [_ ->]. destruct (Z.ltb_spec a' 0); [by apply (Hfail a' (set_lock (Some i) s))|].
  run_step H n X. destruct X as [(hms & b & Hh & Hsz & E & -> & ->)|(-> & ->)].
  2: { by apply (Hfail (- ENOMEM) (set_lock (Some i) s)). }
  assert (Hsep : len colons = 2) by done. rewrite Hsep in H. change (8 + 2 =? 0) with false in H. change (Z.to_nat (8 + 2)) with 10%nat in H.
  set (p0 := hms ++ colons). assert (Hp0 : length p0 = 10%nat) by (unfold p0; rewrite length_app, Hh; done).
  destruct (strftime_text _ _ _ _ E) as [Ht0 Hlb]. fold p0 in Ht0. cbn [buf set_lock] in Hlb. rewrite Hb in Hlb.
run_step H k X. destruct X as [(b2 & Hsz2 & E2 & -> & ->)|[Ha ->]].
  2: { replace (_ <? 0) with true in H by lia. by apply (Hfail k (set_buf b (set_lock (Some i) s))). }
  set (head := name ++ colons ++ level ++ colon_space) in *.
  rewrite len_not_negative in H.
  destruct (Z.leb_spec (Z.of_nat (buf_size - 10)) (len head)); [by apply (Hfail (- ENOMEM) (set_buf b2 (set_buf b (set_lock (Some i) s))))|].
  unfold len in *. cbn [buf set_buf] in E2. rewrite <- Hp0 in E2. destruct (snprintf_text p0 (buf_size - length p0) head b b2 Ht0 ltac:(lia) E2) as [Ht2 Hl2].
  rewrite Nat2Z.id in H. replace (10 + length head)%nat with (length (p0 ++ head)) in H by (rewrite length_app; lia).
  apply write_message_spec in H as [Hlk H]; [|cbn; lia|exact Ht2|rewrite length_app; lia|done]. split; [done|].
  destruct H as [[Hr ->]|H]; [by apply log_fails|]. apply (log_writes _ _ _ _ _ hms); [done|].
  unfold line_of. unfold p0, head in H. by rewrite <- app_assoc in H.
Qed.
End Line.

(** ** The calls of lm.h *)

Inductive lm_call :=
  | LmLog (module_is_null log_raw : bool) (log_level message : list Z)
  | LmSetLogFile (f : nat)
  | LmRemoveLogFile
  | LmEnableLogToTerm.

(** A registered module: to the terminal. *)
Definition LM_LOG_REGISTER (buf_size : nat) : log_module := mkModule None true false None (replicate buf_size 0) [].

Inductive lm_log_level := ERR | WRN | INF | DBG.

Definition level_number (l : lm_log_level) : Z := match l with ERR => 1 | WRN => 2 | INF => 3 | DBG => 4 end.
Definition level_name (l : lm_log_level) : list Z :=
  match l with ERR => bytes "ERR" | WRN => bytes "WRN" | INF => bytes "INF" | DBG => bytes "DBG" end.

(** The call that the macros make, with the level that was compiled in. *)
Definition LM__LOG_MANUAL__ (LM_LOG_LEVEL : Z) (module_is_null log_raw : bool) (l : lm_log_level) (text : list Z) : option lm_call :=
  if level_number l <=? LM_LOG_LEVEL then Some (LmLog module_is_null log_raw (level_name l) text) else None.

(** [lm__set_log_file_by_name__]: the call on the module when the file opens, or
    one on the global module that says so; and the result. *)
Definition lm__set_log_file_by_name__ (opened : option nat) (LM_LOG_LEVEL : Z) (global_is_null : bool) (text : list Z) :
    option lm_call * option lm_call * Z :=
  match opened with
  | None => (None, LM__LOG_MANUAL__ LM_LOG_LEVEL global_is_null false ERR text, -1)
  | Some f => (Some (LmSetLogFile f), None, 0)
  end.

Section Lm.
Context (name : list Z) (buf_size : nat) (Hsize : (0 < buf_size)%nat).

Definition lm_prog (c : lm_call) : prog :=
  match c with
  | LmLog null raw level message => lm__write_log__ name buf_size null raw level message
  | LmSetLogFile f => lm__set_log_file__ f
  | LmRemoveLogFile => lm__remove_log_file__
  | LmEnableLogToTerm => lm__enable_log_to_term__
  end.

(** A call of thread [i] on the abstract log. *)
Definition lm_spec (i : nat) (c : lm_call) (a : journal) (r : Z) (a' : journal) : Prop :=
  match c with
  | LmLog true _ _ _ => r = 0 /\ a' = a
  | LmLog false raw level message => log_spec name buf_size i raw level message a r a'
  | LmSetLogFile f => r = 0 /\ a' = mkJournal (to_term a) (Some f) (entries a)
  | LmRemoveLogFile => r = 0 /\ a' = mkJournal (to_term a) None (entries a)
  | LmEnableLogToTerm => r = 0 /\ a' = mkJournal true (to_file a) (entries a)
  end.

(** Calls on the abstract log, one after the other. *)
Inductive atomically (a0 : journal) : list (nat * lm_call * Z) -> journal -> Prop :=
  | atomically_nil : atomically a0 [] a0
  | atomically_snoc h a i c r a' :
      atomically a0 h a -> lm_spec i c a r a' -> atomically a0 (h ++ [(i, c, r)]) a'.

#[local] Abbreviation body := (body buf_size false).

Lemma body_out b r : body b (_ <~ MutexUnlock; Ret r).
Proof. by eapply body_unlock. Qed.
#[local] Hint Resolve body_out : core.

Lemma body_write_out b level c : (c <= buf_size)%nat -> body b (write_out level c).
Proof.
  intros Hc. unfold write_out.
  assert (Hfile : forall b', body b'
            (f <~ ReadFile;
             if f =? 1 then
               w <~ Fwrite c;
               if w =? 1 then _ <~ MutexUnlock; Ret 0 else _ <~ MutexUnlock; Ret w
             else _ <~ MutexUnlock; Ret 0)).
  { intros b'. apply body_eff; [done|]. intros a Ha. cbn. destruct (a =? 1); [|done]. apply body_eff; [by rewrite orb_true_r|].
    intros a' _. by destruct (a' =? 1). }
  apply body_eff; [done|]. intros a _. cbn [knows_file]. destruct (a =? 1); [|done].
  apply body_eff; [done|]. intros a' _. by destruct (a' <? 0).
Qed.

Lemma body_write_message b raw level message c : (c < buf_size)%nat -> body b (write_message buf_size raw level message c).
Proof.
  intros Hc. unfold write_message.
  assert (Hfinish : forall b' c', (c' < buf_size)%nat ->
            body b' (if raw then write_out level c' else _ <~ Store c' 10; write_out level (c' + 1))).
  { intros b' c' Hc'. destruct raw; [by apply body_write_out; lia|]. apply body_eff; [done|]. intros a _. apply body_write_out. lia. }
  apply body_eff; [cbn; lia|]. intros a Ha. cbn [knows_file]. destruct (Z.ltb_spec a 0); [done|].
  destruct (Z.leb_spec (Z.of_nat (buf_size - c)) a).
  - apply body_eff; [cbn; lia|]. intros a' _. apply body_eff; [cbn; lia|]. intros a2 Ha2. cbn [knows_file].
    destruct (Z.ltb_spec a2 0); [done|]. destruct (Z.leb_spec (Z.of_nat (buf_size - c)) a2); [done|]. apply Hfinish. lia.
  - apply Hfinish. lia.
Qed.

Lemma lm_prog_shape c :
  (exists r, lm_prog c = Ret r) \/ exists k, lm_prog c = Eff MutexLock k /\ body false (k 0).
Proof.
  destruct c as [[] raw level message|f| |]; cbn [lm_prog].
  - left. by eexists.
  - right. eexists. split; [reflexivity|]. cbv beta. destruct raw; [by apply body_write_message|].
    apply body_eff; [done|]. intros t _. destruct (t <? 0); [done|].
    apply body_eff; [done|]. intros l _. destruct (l <? 0); [done|].
    apply body_eff; [cbn; lia|]. intros a Ha. cbn [knows_file]. destruct (Z.eqb_spec a 0); [done|].
    assert (Hlt : (Z.to_nat a < buf_size)%nat).
    { unfold possible, len in Ha. destruct (Nat.ltb_spec (8 + length colons) buf_size); lia. }
    apply body_eff; [cbn; lia|]. intros a' Ha'. cbn [knows_file]. destruct (Z.ltb_spec a' 0); [done|].
    destruct (Z.leb_spec (Z.of_nat (buf_size - Z.to_nat a)) a'); [done|]. apply body_write_message. lia.
  - right. eexists. split; [reflexivity|]. apply body_eff; [done|]. intros a _. apply body_out.
  - right. eexists. split; [reflexivity|]. apply body_eff; [done|]. intros a _. apply body_out.
  - right. eexists. split; [reflexivity|]. apply body_eff; [done|]. intros a _. apply body_out.
Qed.

(** A call alone does what it does on the abstract log. *)
Lemma lm_call_spec i c s r s' :
  well_formed buf_size s -> run i (lm_prog c) s (Ret r) s' -> lm_spec i c (journal_of s) r (journal_of s').
Proof.
  intros Hw H. destruct c as [[] raw level message|f| |]; cbn [lm_prog lm_spec] in *.
  - apply run_front in H as [[[= ->] ->]|(? & ? & ? & ? & E & _)]; [done|discriminate E].
  - by apply write_log_spec in H as [_ H].
  - run_step H a X. run_step H a2 X2. apply unlock_run in H as [-> ->]. destruct X as (_ & _ & ->). by rewrite X2.
  - run_step H a X. run_step H a2 X2. apply unlock_run in H as [-> ->]. destruct X as (_ & _ & ->). by rewrite X2.
  - run_step H a X. run_step H a2 X2. apply unlock_run in H as [-> ->]. destruct X as (_ & _ & ->). by rewrite X2.
Qed.

(** Calls one after the other, with their results, are calls on the abstract log. *)
Lemma lm_serial_spec s0 h s :
  well_formed buf_size s0 -> serial lm_prog s0 h s -> atomically (journal_of s0) h (journal_of s) /\ well_formed buf_size s.
Proof.
  intros Hw. induction 1 as [|h s i c r s' _ [IH Hws] Hr]; [by split; [constructor|]|]. split.
  - eapply atomically_snoc; [exact IH|]. by apply lm_call_spec.
  - by apply (call_keeps _ false _ _ _ _ _ (lm_prog_shape c) Hr).
Qed.

(** C22: the log of lm.h is linearisable.  Threads call it on one module, their
    accesses interleaved in any way and the library failing in any way: there is
    an order of the calls that have returned, that of each thread in it, in
    which calls on the abstract log, one step each, give the results the threads
    got; with the mutex free the module is the abstract log at the end of that
    order, and what was written at any time begins with what the abstract log
    has.  So no line has bytes of another line in it. *)
Theorem lm_log_atomic s0 calls y :
  well_formed buf_size s0 -> lock s0 = None -> reachable lm_prog s0 calls y ->
  exists h a, atomically (journal_of s0) h a /\
    (forall i t, threads y !! i = Some t -> results t = of_thread i h /\
       Some (map fst (results t) ++ option_list (fst <$> running t) ++ todo t) = calls !! i) /\
    (lock (shared y) = None -> journal_of (shared y) = a) /\
    entries a `prefix_of` written (shared y).
Proof.
  intros Hw Hl Hr.
  destruct (reachable_sys_inv lm_prog buf_size false lm_prog_shape s0 calls y Hw Hl Hr) as (h & s & Hs & _ & _ & _ & Ha & Hst).
  apply lm_serial_spec in Hs as [Hat _]; [|done]. exists h, (journal_of s). split_and!; [done|done| |].
  - intros Hlock. destruct Hst as [[-> _]|(j & t & c & e & k & b & _ & _ & _ & _ & _ & Hj & _)]; [done|congruence].
  - destruct Hst as [[-> _]|(j & t & c & e & k & b & _ & _ & Hrun & _)]; [done|]. cbn. by eapply run_written.
Qed.

(** Every call has at most 14 effects. *)
Ltac within_tac := repeat first [constructor; intros ? | case_match].

Lemma within_lm_prog c : within 14 (lm_prog c).
Proof. destruct c as [[] raw level message|f| |]; cbn [lm_prog]; by within_tac. Qed.

(** threads that log come to their ends, whatever the library answers: a
    run has at most 15 steps for each call, and while a thread has something
    left some thread can take a step.  No call of lm.h but
    [lm__disable_log_to_term__] keeps the mutex. *)
Theorem lm_log_ends s0 calls k y :
  well_formed buf_size s0 -> lock s0 = None -> nsteps (step lm_prog) k (start s0 calls) y ->
  (k <= 15 * calls_number calls)%nat /\
  forall i t, threads y !! i = Some t -> running t <> None \/ todo t <> [] -> exists y', step lm_prog y y'.
Proof.
  intros Hw Hl Hk. split; [by eapply (steps_bound lm_prog 14 within_lm_prog)|]. intros i t Hi Ht.
  apply (inv_progress lm_prog buf_size false lm_prog_shape s0 calls y i t); try done.
  apply (reachable_sys_inv lm_prog buf_size false lm_prog_shape); [done..|]. by eapply rtc_nsteps_2.
Qed.
End Lm.

(** [lm__disable_log_to_term__] does not return: it waits for the mutex that it has. *)
Lemma disable_log_stuck i s r s' : ~ run i lm__disable_log_to_term__ s (Ret r) s'.
Proof.
  intros H. unfold lm__disable_log_to_term__ in H. run_step H a X. run_step H a2 X2. run_step H a3 X3.
  destruct X as (_ & _ & ->). subst. by destruct X3.
Qed.

(** ** The calls of Sdb.h *)

Record sdb_call := SdbLog { module_is_null : bool; log_level : list Z; message : list Z }.

Section Sdb.
Context (name : list Z) (buf_size : nat) (Hsize : (0 < buf_size)%nat).

Definition sdb_prog (c : sdb_call) : prog :=
  Sdb__WriteLog__ name buf_size (module_is_null c) (log_level c) (message c).

#[local] Abbreviation body := (body buf_size true).

Lemma body_returns b r : body b (Ret r).
Proof. by apply body_leak. Qed.
#[local] Hint Resolve body_returns : core.

Lemma body_WriteMessage level text c : (c < buf_size)%nat -> body false (WriteMessage buf_size level text c).
Proof.
  intros Hc. unfold WriteMessage.
  assert (Hfinish : forall c', (c' < buf_size)%nat ->
            body false (_ <~ Store c' 10;
                        w <~ Write (if is_err_level level then Stderr else Stdout) (c' + 1);
                        if w <? 0 then Ret w else _ <~ MutexUnlock; Ret 0)).
  { intros c' Hc'. apply body_eff; [done|]. intros ? _. cbn [knows_file]. apply body_eff; [cbn; lia|]. intros w _.
    cbn [knows_file]. destruct (w <? 0); [done|]. by eapply body_unlock. }
  apply body_eff; [cbn; lia|]. intros a Ha. cbn [knows_file]. destruct (Z.ltb_spec a 0); [done|].
  destruct (Z.leb_spec (Z.of_nat (buf_size - c)) a); [|apply Hfinish; lia].
  apply body_eff; [cbn; lia|]. intros ? _. cbn [knows_file]. apply body_eff; [cbn; lia|]. intros a3 Ha3. cbn [knows_file].
  destruct (Z.ltb_spec a3 0); [done|]. destruct (Z.leb_spec (Z.of_nat (buf_size - c)) a3); [done|]. apply Hfinish. lia.
Qed.

Lemma sdb_prog_shape c :
  (exists r, sdb_prog c = Ret r) \/ exists k, sdb_prog c = Eff MutexLock k /\ body false (k 0).
Proof.
  destruct c as [[] level text]; unfold sdb_prog; cbn [module_is_null log_level message].
  - left. by eexists.
  - right. eexists. split; [reflexivity|]. cbv beta.
    apply body_eff; [done|]. intros t _. cbn [knows_file]. destruct (t <? 0); [done|].
    apply body_eff; [done|]. intros l _. cbn [knows_file]. destruct (l <? 0); [done|].
    apply body_eff; [cbn; lia|]. intros a Ha. cbn [knows_file]. destruct (Z.eqb_spec a 0); [done|].
    assert (Hlt : (Z.to_nat a < buf_size)%nat).
    { unfold possible, len in Ha. destruct (Nat.ltb_spec (8 + length colon_space) buf_size); lia. }
    apply body_eff; [cbn; lia|]. intros a1 Ha1. cbn [knows_file]. destruct (Z.ltb_spec a1 0); [done|].
    destruct (Z.leb_spec (Z.of_nat (buf_size - Z.to_nat a)) a1); [done|]. apply body_WriteMessage. lia.
Qed.

(** The line of a call. *)
Definition sdb_line (hms : list Z) (c : sdb_call) : list Z :=
  line_from buf_size false (hms ++ colon_space ++ name ++ colon_space ++ log_level c ++ colon_space) (message c).

(** A call alone: without a module nothing; or its line, in part perhaps, to the
    terminal; or a failure that keeps the mutex. *)
Definition sdb_spec (i : nat) (c : sdb_call) (s : log_module) (r : Z) (s' : log_module) : Prop :=
  if module_is_null c then r = 0 /\ s' = s
  else
    lock s = None /\
    (r < 0 /\ lock s' = Some i /\ written s' = written s \/
     r = 0 /\ lock s' = None /\
     exists hms m, length hms = 8%nat /\ (m <= length (sdb_line hms c))%nat /\
       written s' = written s ++ [(i, if is_err_level (log_level c) then Stderr else Stdout, take m (sdb_line hms c))]).

Lemma ret_run i r s r' s' : run i (Ret r) s (Ret r') s' -> r' = r /\ s' = s.
Proof. intros [[[= ->] ->]|(? & ? & ? & ? & E & _)]%run_front; [done|discriminate E]. Qed.

Lemma sdb_finish_spec i level p t s r s' :
  take (length (p ++ t)) (buf s) = p ++ t -> (length (p ++ t) < length (buf s))%nat ->
  run i (_ <~ Store (length (p ++ t)) 10;
         w <~ Write (if is_err_level level then Stderr else Stdout) (length (p ++ t) + 1);
         if w <? 0 then Ret w else _ <~ MutexUnlock; Ret 0) s (Ret r) s' ->
  r < 0 /\ lock s' = lock s /\ written s' = written s \/
  r = 0 /\ lock s' = None /\ exists m, (m <= length (p ++ t ++ [10%Z]))%nat /\
    written s' = written s ++ [(i, if is_err_level level then Stderr else Stdout, take m (p ++ t ++ [10%Z]))].
Proof.
  intros Ht Hl H. run_step H a X. destruct X as (b & E & ->). run_step H w X. destruct X as [(m & Hm & -> & ->)|[Hw ->]].
  - replace (_ <? 0) with false in H by lia. apply unlock_run in H as [-> ->]. right. split_and!; [done|done|]. exists m.
    apply store_text in E. cbn in E. rewrite Ht, <- app_assoc in E. split; [rewrite !length_app in *; cbn; lia|]. cbn. do 3 f_equal.
    rewrite <- E, take_take. f_equal. lia.
  - rewrite (proj2 (Z.ltb_lt _ _)) in H by done. apply ret_run in H as [-> ->]. by left.
Qed.

(** Behind the beginning [p] of a line. *)
Lemma sdb_message_spec i level p text s r s' :
  length (buf s) = buf_size -> take (length p) (buf s) = p -> (length p < buf_size)%nat ->
  run i (WriteMessage buf_size level text (length p)) s (Ret r) s' ->
  r < 0 /\ lock s' = lock s /\ written s' = written s \/
  r = 0 /\ lock s' = None /\ exists m, (m <= length (line_from buf_size false p text))%nat /\
    written s' = written s ++ [(i, if is_err_level level then Stderr else Stdout, take m (line_from buf_size false p text))].
Proof.
  intros Hb Hp Hl H. unfold WriteMessage in H. unfold line_from. run_step H a X. destruct X as [(b & Hsz & E & -> & ->)|[Ha ->]].
  2: { replace (_ <? 0) with true in H by lia. apply ret_run in H as [-> ->]. by left. }
  rewrite len_not_negative in H. apply store_length in E as EL.
  destruct (Z.leb_spec (Z.of_nat (buf_size - length p)) (len text)) as [Hbig|Hfits].
  - run_step H a1 X. destruct X as (b1 & E1 & ->). cbn [buf set_buf] in E1. apply store_length in E1 as EL1.
    run_step H a2 X. destruct X as [(b2 & Hsz2 & E2 & -> & ->)|[Ha ->]].
    2: { replace (_ <? 0) with true in H by lia. apply ret_run in H as [-> ->]. by left. }
    rewrite len_not_negative in H.
    destruct (Z.leb_spec (Z.of_nat (buf_size - length p)) (len dropped)).
    { apply ret_run in H as [-> ->]. left. unfold ENOMEM. split; [lia|done]. }
    cbn [buf set_buf] in E2. assert (Hp1 : take (length p) b1 = p) by (eapply store_front; [exact E1|]; by eapply store_front).
    unfold len in *. destruct (snprintf_text p (buf_size - length p) dropped b1 b2 Hp1 ltac:(lia) E2) as [Ht2 Hl2].
    rewrite Nat2Z.id, <- length_app in H.
    apply sdb_finish_spec in H; [exact H|exact Ht2|cbn [buf set_buf]; rewrite length_app; lia].
  - unfold len in Hfits. destruct (snprintf_text p (buf_size - length p) text (buf s) b Hp ltac:(lia) E) as [Ht Hlb].
    unfold len in H. rewrite Nat2Z.id, <- length_app in H.
    apply sdb_finish_spec in H; [exact H|exact Ht|cbn [buf set_buf]; rewrite length_app; lia].
Qed.

Lemma sdb_call_spec i c s r s' : length (buf s) = buf_size -> run i (sdb_prog c) s (Ret r) s' -> sdb_spec i c s r s'.
Proof.
  intros Hb H. destruct c as [[] level text]; unfold sdb_spec, sdb_line, sdb_prog in *; cbn [module_is_null log_level message] in *.
  { by apply ret_run in H. }
  unfold Sdb__WriteLog__ in H. run_step H a0 X. destruct X as (Hfree & _ & ->). split; [done|].
  assert (Hfail : forall r1 s1, lock s1 = Some i -> written s1 = written s -> r1 < 0 -> run i (Ret r1) s1 (Ret r) s' ->
            r < 0 /\ lock s' = Some i /\ written s' = written s) by (by intros r1 s1 Hl Hwr Hr [-> ->]%ret_run).
  run_step H a X. destruct X as [_ ->]. destruct (Z.ltb_spec a 0); [by left; eapply Hfail, H|].
  run_step H a' X. destruct X as [_ ->]. destruct (Z.ltb_spec a' 0); [by left; eapply Hfail, H|].
  run_step H n X. destruct X as [(hms & b & Hh & Hsz & E & -> & ->)|(-> & ->)]; [|by left; eapply Hfail, H].
  assert (Hsep : len colon_space = 2) by done. rewrite Hsep in H. change (8 + 2 =? 0) with false in H. change (Z.to_nat (8 + 2)) with 10%nat in H.
  destruct (strftime_text _ _ _ _ E) as [Ht0 Hlb]. set (p0 := hms ++ colon_space) in *. cbn [buf set_lock] in Hlb.
  assert (Hp0 : length p0 = 10%nat) by (unfold p0; rewrite length_app, Hh; done).
  run_step H k X. destruct X as [(b2 & Hsz2 & E2 & -> & ->)|[Ha ->]].
  2: { replace (_ <? 0) with true in H by lia. left. by eapply Hfail, H. }
  set (head := name ++ colon_space ++ level ++ colon_space) in *. rewrite len_not_negative in H.
  destruct (Z.leb_spec (Z.of_nat (buf_size - 10)) (len head)); [by left; eapply Hfail, H|].
  unfold len in *. cbn [buf set_buf] in E2. rewrite <- Hp0 in E2.
  destruct (snprintf_text p0 (buf_size - length p0) head b b2 Ht0 ltac:(lia) E2) as [Ht2 Hl2].
  rewrite Nat2Z.id in H. replace (10 + length head)%nat with (length (p0 ++ head)) in H by (rewrite length_app; lia).
  apply sdb_message_spec in H; [|cbn; lia|exact Ht2|rewrite length_app; lia].
  destruct H as [(Hr & Hl & Hwr)|(-> & Hl & m & Hm & Hwr)]; [by left|right]. split_and!; [done|done|].
  exists hms, m. unfold p0, head in *. rewrite <- app_assoc in *. split_and!; [done|exact Hm|exact Hwr].
Qed.

(** Calls one after the other: behind one that failed none takes the mutex. *)
Inductive sdb_serial (w0 : list (nat * destination * list Z)) :
    list (nat * sdb_call * Z) -> option nat -> list (nat * destination * list Z) -> Prop :=
  | sdb_serial_nil : sdb_serial w0 [] None w0
  | sdb_serial_null h l w i c : sdb_serial w0 h l w -> module_is_null c = true -> sdb_serial w0 (h ++ [(i, c, 0)]) l w
  | sdb_serial_line h w i c hms m :
      sdb_serial w0 h None w -> module_is_null c = false -> length hms = 8%nat -> (m <= length (sdb_line hms c))%nat ->
      sdb_serial w0 (h ++ [(i, c, 0)]) None
        (w ++ [(i, if is_err_level (log_level c) then Stderr else Stdout, take m (sdb_line hms c))])
  | sdb_serial_fails h w i c r :
      sdb_serial w0 h None w -> module_is_null c = false -> r < 0 -> sdb_serial w0 (h ++ [(i, c, r)]) (Some i) w.

Lemma sdb_serial_spec s0 h s :
  well_formed buf_size s0 -> lock s0 = None -> serial sdb_prog s0 h s ->
  sdb_serial (written s0) h (lock s) (written s) /\ well_formed buf_size s.
Proof.
  intros Hw Hl0. induction 1 as [|h s i c r s' _ [IH Hws] Hr]; [rewrite Hl0; by split; [constructor|]|]. split.
  - apply sdb_call_spec in Hr; [|apply Hws]. unfold sdb_spec in Hr. destruct (module_is_null c) eqn:Ec.
    + destruct Hr as [-> ->]. by apply sdb_serial_null.
    + destruct Hr as (Hl & [(Hneg & -> & ->)|(-> & -> & hms & m & Hh & Hm & ->)]); rewrite Hl in IH.
      * by apply sdb_serial_fails.
      * by apply sdb_serial_line.
  - by apply (call_keeps _ true _ _ _ _ _ (sdb_prog_shape c) Hr).
Qed.

(** The mutex is somebody's and no thread is in a call. *)
Definition jammed (y : sys (call := sdb_call)) : Prop :=
  lock (shared y) <> None /\ forall i t, threads y !! i = Some t -> idle sdb_prog t.

Lemma sdb_reachable s0 calls y :
  well_formed buf_size s0 -> lock s0 = None -> reachable sdb_prog s0 calls y ->
  exists h l w, sdb_serial (written s0) h l w /\ accounted calls h (threads y) /\
    w `prefix_of` written (shared y) /\ (lock (shared y) = None -> written (shared y) = w) /\ (l <> None -> jammed y).
Proof.
  intros Hw Hl Hr.
  destruct (reachable_sys_inv sdb_prog buf_size true sdb_prog_shape s0 calls y Hw Hl Hr) as (h & s & Hs & _ & _ & _ & Ha & Hst).
  apply sdb_serial_spec in Hs as [Hs _]; [|done..]. exists h, (lock s), (written s). split_and!; [done|done| | |].
  - destruct Hst as [[-> _]|(j & t & c & e & k & b & _ & _ & Hrun & _)]; [done|]. by eapply run_written.
  - intros Hlock. destruct Hst as [[-> _]|(j & t & c & e & k & b & _ & _ & _ & _ & _ & Hj & _)]; [done|congruence].
  - intros Hlock. destruct Hst as [[E Hidle]|(j & t & c & e & k & b & _ & _ & Hrun & Hb & _)]; [by split; [rewrite E|]|].
    exfalso. destruct (sdb_prog_shape c) as [[r E]|[k' [E _]]]; rewrite E in Hrun;
      apply run_front in Hrun as [[Ep _]|(e1 & k1 & a & s1 & Ep & Hx & _)]; try discriminate Ep.
    + injection Ep as <- <-. by inversion Hb.
    + injection Ep as <- <-. by inversion Hx.
Qed.

(** Calls without a module, and no others, have returned since. *)
Definition only_null (ts ts' : list (thread (call := sdb_call))) : Prop :=
  forall i t', ts' !! i = Some t' -> exists t rs, ts !! i = Some t /\ results t' = results t ++ rs /\
    Forall (fun '(c, _) => module_is_null c = true) rs.

Lemma jammed_step y y' : jammed y -> step sdb_prog y y' -> jammed y' /\ shared y' = shared y /\ only_null (threads y) (threads y').
Proof.
  intros [Hl Hidle] Hst. destruct Hst as [y i c cs rs Hi|y i c e k cs rs a s Hi Hx].
  - assert (Hboth : forall t rs', idle sdb_prog t -> results t = rs ++ rs' -> Forall (fun '(c, _) => module_is_null c = true) rs' ->
              jammed (mkSys (shared y) (<[i := t]> (threads y))) /\ shared y = shared y /\ only_null (threads y) (<[i := t]> (threads y))).
    { intros t rs' Ht Er Hf. split_and!; [split; [done|by apply idle_insert]|done|]. intros j t' [(<- & <- & _)|[Hne Hj]]%list_lookup_insert_Some.
      - by exists (mkThread None (c :: cs) rs), rs'.
      - exists t', []. by rewrite app_nil_r. }
    destruct (module_is_null c) eqn:Ec.
    + assert (E : sdb_prog c = Ret 0) by (unfold sdb_prog; by rewrite Ec). rewrite E, settle_ret. eapply Hboth; [by left|done|by repeat constructor].
    + destruct (sdb_prog_shape c) as [[r E]|[k [E _]]].
      { unfold sdb_prog in E. rewrite Ec in E. discriminate E. }
      apply (Hboth _ []); [right; rewrite E; by exists c, k|by rewrite E, app_nil_r|done].
  - destruct (Hidle _ _ Hi) as [Hn|(c' & k' & Hn & _)]; [done|]. injection Hn as <- -> <-. by inversion Hx.
Qed.

Lemma jammed_rtc y y' : jammed y -> rtc (step sdb_prog) y y' -> shared y' = shared y /\ only_null (threads y) (threads y').
Proof.
  intros Hj Hr. induction Hr as [y|y y1 y2 Hst _ IH].
  - split; [done|]. intros i t Hi. exists t, []. by rewrite app_nil_r.
  - destruct (jammed_step _ _ Hj Hst) as (Hj1 & E & Ho). destruct (IH Hj1) as [E2 Ho2]. split; [congruence|].
    intros i t' Hi. destruct (Ho2 _ _ Hi) as (t1 & rs1 & Hi1 & E1 & Hf1). destruct (Ho _ _ Hi1) as (t0 & rs0 & Hi0 & E0 & Hf0).
    exists t0, (rs0 ++ rs1). split; [done|]. split; [by rewrite E1, E0, app_assoc|by apply Forall_app_2].
Qed.

Lemma sdb_serial_failed w0 h l w i c r : sdb_serial w0 h l w -> (c, r) ∈ of_thread i h -> r < 0 -> l <> None.
Proof.
  induction 1 as [|h l w j c' _ IH|h w j c' hms m _ IH|h w j c' r' _ _]; intros Hin Hr; [by apply not_elem_of_nil in Hin|..]; [| |done];
    rewrite of_thread_snoc in Hin; apply elem_of_app in Hin as [Hin|Hin]; try by apply IH.
  all: destruct (decide _); [|by apply not_elem_of_nil in Hin]; apply elem_of_cons in Hin as [[= -> ->]|Hin]; [lia|by apply not_elem_of_nil in Hin].
Qed.

(** C23: the log of Sdb.h is linearisable up to its first failure, and ends
    there.  There is an order of the calls that have returned in which each
    wrote its line alone, and nothing follows a failure but calls without a
    module; when a call has failed, in whatever way, the module never changes
    again: no call on it returns any more, of any thread. *)
Theorem sdb_log_jams s0 calls y :
  well_formed buf_size s0 -> lock s0 = None -> reachable sdb_prog s0 calls y ->
  (exists h l w, sdb_serial (written s0) h l w /\ accounted calls h (threads y) /\
     w `prefix_of` written (shared y) /\ (lock (shared y) = None -> written (shared y) = w)) /\
  (forall i t c r y', threads y !! i = Some t -> (c, r) ∈ results t -> r < 0 -> rtc (step sdb_prog) y y' ->
     shared y' = shared y /\ only_null (threads y) (threads y')).
Proof.
  intros Hw Hl Hr. destruct (sdb_reachable s0 calls y Hw Hl Hr) as (h & l & w & Hs & Ha & Hp & Hlk & Hj). split; [by exists h, l, w|].
  intros i t c r y' Hi Hin Hneg. apply jammed_rtc, Hj. destruct (Ha _ _ Hi) as [E _]. rewrite E in Hin. by eapply sdb_serial_failed.
Qed.
End Sdb.

(** ** The properties at work *)

Section Witnesses.

Lemma registered_well_formed n : well_formed n (LM_LOG_REGISTER n) /\ lock (LM_LOG_REGISTER n) = None.
Proof. split; [split; [apply length_replicate|discriminate]|done]. Qed.

(** Thread [i] takes a step. *)
Ltac thread_step i c :=
  eapply rtc_l; [eapply (step_eff _ _ i); [reflexivity|eapply c; cbn; try reflexivity; try lia]|]; cbn.
Ltac thread_call i := eapply rtc_l; [eapply (step_call _ _ i); reflexivity|]; cbn.

Definition hi : list Z := bytes "hi".

(** One thread begins a call and waits, another one logs in between. *)
Lemma two_log :
  exists y, reachable (lm_prog [] 4) (LM_LOG_REGISTER 4) [[LmLog false true (level_name ERR) hi]; [LmRemoveLogFile]] y /\
            written (shared y) = [(0%nat, Stderr, hi)] /\ lock (shared y) = Some 1%nat.
Proof.
  eexists. split.
  - unfold reachable, start. cbn. thread_call 1%nat. thread_call 0%nat. thread_step 0%nat X_lock. thread_step 0%nat X_snprintf.
    thread_step 0%nat X_read_term. thread_step 0%nat (X_write 0 Stderr 2 2). thread_step 0%nat X_read_file.
    thread_step 0%nat X_unlock. thread_step 1%nat X_lock. apply rtc_refl.
  - split; reflexivity.
Qed.

Lemma lm_log_atomic_witness :
  exists y : sys (call := lm_call), written (shared y) = [(0%nat, Stderr, hi)] /\ exists h a,
    atomically [] 4 (journal_of (LM_LOG_REGISTER 4)) h a /\ entries a `prefix_of` [(0%nat, Stderr, hi)].
Proof.
  destruct two_log as (y & Hr & Hwr & _). exists y. split; [exact Hwr|].
  destruct (lm_log_atomic [] 4 ltac:(lia) (LM_LOG_REGISTER 4) _ y (proj1 (registered_well_formed 4)) eq_refl Hr) as (h & a & Hat & _ & _ & Hp).
  exists h, a. rewrite Hwr in Hp. by split.
Defined.

Lemma lm_log_ends_witness :
  exists k y, nsteps (step (lm_prog [] 4)) k (start (LM_LOG_REGISTER 4) [[LmLog false true (level_name ERR) hi]; [LmRemoveLogFile]]) y /\
    (k <= 30)%nat.
Proof.
  destruct two_log as (y & Hr & _). apply rtc_nsteps_1 in Hr as [k Hk]. exists k, y. split; [exact Hk|].
  exact (proj1 (lm_log_ends [] 4 ltac:(lia) (LM_LOG_REGISTER 4) _ k y (proj1 (registered_well_formed 4)) eq_refl Hk)).
Defined.

(** The clock fails for thread 0; thread 1 wants to log. *)
Definition sdb_hi : sdb_call := SdbLog false (level_name ERR) hi.

Lemma clock_fails :
  exists y y', reachable (sdb_prog [] 64) (LM_LOG_REGISTER 64) [[sdb_hi]; [sdb_hi]] y /\
    threads y !! 0%nat = Some (mkThread None [] [(sdb_hi, -1)]) /\ rtc (step (sdb_prog [] 64)) y y' /\
    exists p, threads y' !! 1%nat = Some (mkThread (Some (sdb_hi, p)) [] []).
Proof.
  eexists _, _. split.
  - unfold reachable, start. cbn. thread_call 0%nat. thread_step 0%nat X_lock. thread_step 0%nat (X_time 0 (-1)). apply rtc_refl.
  - split; [reflexivity|]. split; [thread_call 1%nat; apply rtc_refl|]. eexists. reflexivity.
Qed.

Lemma sdb_log_jams_witness :
  exists y', (exists p, threads y' !! 1%nat = Some (mkThread (Some (sdb_hi, p)) [] [])) /\
    exists y, shared y' = shared y /\ only_null (threads y) (threads y').
Proof.
  destruct clock_fails as (y & y' & Hr & H0 & Hst & Hp). exists y'. split; [exact Hp|].
  destruct (sdb_log_jams [] 64 ltac:(lia) (LM_LOG_REGISTER 64) _ y (proj1 (registered_well_formed 64)) eq_refl Hr) as [_ Hj].
  exists y. apply (Hj 0%nat _ sdb_hi (-1) y' H0); [by left|lia|exact Hst].
Defined.
End Witnesses.
