(* ===== verification/Files.v ===== *)
(** * Files, mappings and traced memory: [src/src/lm.h] and [src/src/sdhs/Sdb.h]

    The file sections of the two headers.  [Mapping] has [Sdb__MemMap__] and
    [SdbMemUnmap] over the descriptors and the pages of a process; [Streams] the
    functions that write a buffer to a file, over streams that keep bytes until
    they are closed; [Loading] has [lm_load_file_into_memory] in byte memory, on
    an arena or from [malloc]; [Trace] the traced allocation functions.  What
    the system answers is an argument of each call. *)

From S2P Require Import Prelude.
From S2P Require Import Memory.
From S2P Require Import Os.
From S2P Require Import UArena.
From S2P Require Import ThreadArenas.
#[local] Open Scope Z_scope.

Module Mapping.

(** ** The process *)

(** Open descriptors, mapped pages by number, and [errno]. *)
Record proc := mkProc { fds : gset Z; pages : gset Z; errno : Z }.

Definition set_errno (e : Z) (p : proc) : proc := mkProc (fds p) (pages p) e.

Definition EBADF : Z := 9.
Definition EINVAL : Z := 22.

Definition page : Z := 4096.
Definition MAP_SHARED : Z := 1.
Definition MAP_PRIVATE : Z := 2.
Definition MAP_ANONYMOUS : Z := 32.
Definition MAP_LOCKED : Z := 8192.
Definition PROT_WRITE : Z := 2.
Definition O_TRUNC : Z := 512.

Definition has (flags flag : Z) : bool := negb (Z.land flags flag =? 0).

(** The pages of [size] bytes from the page at [a] on. *)
Definition pages_of (a size : Z) : gset Z := list_to_set (seqZ (a / page) ((size + page - 1) / page)).

(** What the system answers in one call of [Sdb__MemMap__]: a descriptor or an
    address, or a negated [errno]. *)
Record answers := mkAnswers { open_at : Z; truncates : Z; seeks : Z; map_at : Z }.

Definition failed (r : Z) (p : proc) : Z * proc := (-1, set_errno (- r) p).

Definition open_file (an : answers) (p : proc) : Z * proc :=
  if open_at an <? 0 then failed (open_at an) p
  else (open_at an, mkProc (fds p ∪ {[open_at an]}) (pages p) (errno p)).

(** [ftruncate] and [lseek], which answer [r] for an open descriptor. *)
Definition on_fd (fd r : Z) (p : proc) : Z * proc :=
  if bool_decide (fd ∈ fds p) then if r <? 0 then failed r p else (0, p) else failed (- EBADF) p.

Definition close (fd : Z) (p : proc) : proc :=
  if bool_decide (fd ∈ fds p) then mkProc (fds p ∖ {[fd]}) (pages p) (errno p) else set_errno EBADF p.

Definition MAP_FAILED : Z := -1.

(** A mapping of a file needs its descriptor. *)
Definition mmap (size flags fd : Z) (an : answers) (p : proc) : Z * proc :=
  if size =? 0 then failed (- EINVAL) p
  else if negb (has flags MAP_ANONYMOUS) && negb (bool_decide (fd ∈ fds p)) then failed (- EBADF) p
  else if map_at an <? 0 then failed (map_at an) p
  else (map_at an, mkProc (fds p) (pages p ∪ pages_of (map_at an) size) (errno p)).

(** Unmaps whatever is mapped in the range. *)
Definition munmap (a size : Z) (p : proc) : proc :=
  if negb (a mod page =? 0) || (size =? 0) then set_errno EINVAL p
  else mkProc (fds p) (pages p ∖ pages_of a size) (errno p).

(** ** The functions *)

(** [Data] is 0 for NULL; the name of the file is not used behind [open]. *)
Record sdb_mmap := mkMap { Data : Z; Size : Z; Fd : Z }.

Definition SdbMemUnmap (Map : sdb_mmap) (p : proc) : proc :=
  let p := if negb (Data Map =? 0) && negb (Data Map =? MAP_FAILED) then munmap (Data Map) (Size Map) p else p in
  if 0 <=? Fd Map then close (Fd Map) p else p.

(** [error:] *)
Definition map_error (Map : sdb_mmap) (p : proc) : Z * sdb_mmap * proc :=
  let p := SdbMemUnmap Map p in (- errno p, Map, p).

(** The descriptor is closed when [MFlags] has [flag]. *)
Definition drop_fd (MFlags flag : Z) (Map : sdb_mmap) (p : proc) : sdb_mmap * proc :=
  if has MFlags flag && negb (Fd Map =? -1) then (mkMap (Data Map) (Size Map) (-1), close (Fd Map) p) else (Map, p).

(** From the test of [MAP_ANONYMOUS] on. *)
Definition map_data (MSize MFlags : Z) (an : answers) (Map : sdb_mmap) (p : proc) : Z * sdb_mmap * proc :=
  let '(Map, p) := drop_fd MFlags MAP_ANONYMOUS Map p in
  let '(a, p) := mmap MSize MFlags (Fd Map) an p in
  let Map := mkMap a (Size Map) (Fd Map) in
  if a =? MAP_FAILED then map_error Map p
  else let '(Map, p) := drop_fd MFlags MAP_PRIVATE Map p in (0, Map, p).

(** [Data0] is what [Map->Data] holds before the call.  A failing [mlock] is
    only logged. *)
Definition Sdb__MemMap__ (Data0 MSize MProt MFlags MFd OFlags : Z) (an : answers) (p : proc) : Z * sdb_mmap * proc :=
  let '(fd, p) := if MFd <? -1 then open_file an p else (MFd, p) in
  let Map := mkMap Data0 MSize fd in
  if (MFd <? -1) && (fd =? -1) then map_error Map p
  else if has OFlags O_TRUNC || has MFlags MAP_SHARED && has MProt PROT_WRITE then
    let '(r, p) := on_fd fd (truncates an) p in
    if r =? -1 then map_error Map p
    else
      let '(r, p) := on_fd fd (seeks an) p in
      if r =? -1 then map_error Map p else map_data MSize MFlags an Map p
  else map_data MSize MFlags an Map p.

(** ** Lemmas *)

Lemma close_fds fd p : fds (close fd p) = fds p ∖ {[fd]} /\ pages (close fd p) = pages p.
Proof. unfold close. case_bool_decide; cbn; [done|]. split; [set_solver|done]. Qed.

Lemma close_errno fd p : 0 < errno p -> 0 < errno (close fd p).
Proof. unfold close, EBADF. by case_bool_decide. Qed.

(** The descriptor that a mapping holds. *)
Definition owned (fd : Z) : gset Z := if 0 <=? fd then {[fd]} else ∅.

Lemma owned_close fd p : (if 0 <=? fd then fds (close fd p) else fds p) = fds p ∖ owned fd.
Proof. unfold owned. destruct (0 <=? fd); [by rewrite (proj1 (close_fds fd p))|set_solver]. Qed.

(** Nothing to unmap: the descriptor is closed. *)
Lemma map_error_spec Map p r Map' p' :
  Data Map = 0 \/ Data Map = MAP_FAILED -> 0 < errno p -> map_error Map p = (r, Map', p') ->
  r < 0 /\ pages p' = pages p /\ fds p' = fds p ∖ owned (Fd Map).
Proof.
  intros Hd He. unfold map_error, SdbMemUnmap.
  assert (negb (Data Map =? 0) && negb (Data Map =? MAP_FAILED) = false) as -> by (destruct Hd as [->| ->]; done).
  intros [= <- <- <-]. unfold owned. pose proof (close_fds (Fd Map) p) as [Hf Hp]. pose proof (close_errno (Fd Map) p He).
  destruct (0 <=? Fd Map); (split; [lia|]); (split; [done|]); [done|set_solver].
Qed.

(** What the kernel promises: a descriptor that is not open, pages that are not
    mapped. *)
Definition fd_ok (an : answers) (p : proc) : Prop := 0 <= open_at an -> open_at an ∉ fds p.
Definition map_ok (MSize : Z) (an : answers) (p : proc) : Prop :=
  0 <= map_at an -> 0 < map_at an /\ map_at an mod page = 0 /\ pages_of (map_at an) MSize ## pages p.

Lemma drop_fd_spec MFlags flag Map p Map' p' :
  -1 <= Fd Map -> drop_fd MFlags flag Map p = (Map', p') ->
  Data Map' = Data Map /\ Size Map' = Size Map /\ -1 <= Fd Map' /\ pages p' = pages p /\
  fds p' ∖ owned (Fd Map') = fds p ∖ owned (Fd Map).
Proof.
  intros Hfd. unfold drop_fd. destruct (has MFlags flag && negb (Fd Map =? -1)) eqn:E; [|by intros [= <- <-]].
  apply andb_true_iff in E as [_ E%negb_true_iff%Z.eqb_neq]. intros [= <- <-]. cbn. destruct (close_fds (Fd Map) p) as [-> ->].
  unfold owned. replace (0 <=? Fd Map) with true by lia. split_and!; [done|done|lia|done|]. set_solver.
Qed.

Lemma mmap_spec size flags fd an p a p' :
  mmap size flags fd an p = (a, p') -> 0 <= size ->
  a = MAP_FAILED /\ fds p' = fds p /\ pages p' = pages p /\ (0 < errno p') \/
  a = map_at an /\ 0 <= a /\ 0 < size /\ fds p' = fds p /\ pages p' = pages p ∪ pages_of a size.
Proof.
  intros H Hs. unfold mmap in H. destruct (Z.eqb_spec size 0); [injection H as <- <-; by left|].
  destruct (negb _ && negb _); [injection H as <- <-; by left|].
  destruct (Z.ltb_spec (map_at an) 0); injection H as <- <-; [left; cbn; split_and!; [done|done|done|lia]|right].
  cbn. split_and!; try done; lia.
Qed.

(** From [mmap] on, for a mapping that holds nothing but its descriptor. *)
Lemma map_data_spec MSize MFlags an Map p r Map' p' :
  Data Map = 0 -> Size Map = MSize -> 0 <= MSize -> -1 <= Fd Map -> map_ok MSize an p ->
  map_data MSize MFlags an Map p = (r, Map', p') ->
  (r < 0 /\ pages p' = pages p /\ fds p' = fds p ∖ owned (Fd Map)) \/
  (r = 0 /\ pages p' = pages p ∪ pages_of (Data Map') MSize /\ Data Map' = map_at an /\ Size Map' = MSize /\ 0 < MSize /\
   0 <= map_at an /\ fds p' ∖ owned (Fd Map') = fds p ∖ owned (Fd Map)).
Proof.
  intros Hd Hs Hn Hfd Hok H. unfold map_data in H.
  destruct (drop_fd MFlags MAP_ANONYMOUS Map p) as [Map1 p1] eqn:E1. apply drop_fd_spec in E1 as (D1 & S1 & F1 & P1 & O1); [|done].
  destruct (mmap MSize MFlags (Fd Map1) an p1) as [a p2] eqn:E2.
  apply mmap_spec in E2; [|done]. destruct E2 as [(-> & Hf2 & Hp2 & He2)|(-> & Ha & Hpos & Hf2 & Hp2)].
  - left. apply map_error_spec in H; [|by right|done]. destruct H as (Hr & Hp & Hf). cbn in Hf. split; [done|].
    by rewrite Hp, Hf, Hp2, Hf2, P1, O1.
  - right. replace (map_at an =? MAP_FAILED) with false in H by (unfold MAP_FAILED; lia).
    destruct (drop_fd MFlags MAP_PRIVATE _ p2) as [Map3 p3] eqn:E3. apply drop_fd_spec in E3 as (D3 & S3 & F3 & P3 & O3); [|done].
    injection H as <- <- <-. cbn in *. rewrite P3, O3, D3, S3, Hp2, Hf2, P1, O1, S1. split_and!; done || lia.
Qed.

(** The descriptor of the call. *)
Lemma given_fd MFd an p fd p1 :
  fd_ok an p -> (if MFd <? -1 then open_file an p else (MFd, p)) = (fd, p1) ->
  -1 <= fd /\ pages p1 = pages p /\ fds p1 ∖ owned fd = fds p ∖ owned MFd /\ (MFd < -1 -> fd = -1 -> 0 < errno p1).
Proof.
  intros Hok. destruct (Z.ltb_spec MFd (-1)) as [Hlt|Hge]; [|intros [= <- <-]; split_and!; done || lia].
  unfold open_file. destruct (Z.ltb_spec (open_at an) 0) as [Hn|Hn]; intros [= <- <-]; cbn.
  - split_and!; try done; [|lia]. unfold owned. by replace (0 <=? MFd) with false by lia.
  - specialize (Hok Hn). split_and!; [lia|done| |lia]. unfold owned. replace (0 <=? MFd) with false by lia.
    replace (0 <=? open_at an) with true by lia. set_solver.
Qed.

Lemma on_fd_spec fd r p x p1 :
  on_fd fd r p = (x, p1) -> fds p1 = fds p /\ pages p1 = pages p /\ (x = -1 -> 0 < errno p1).
Proof.
  unfold on_fd, failed. case_bool_decide; [destruct (Z.ltb_spec r 0)|]; intros [= <- <-]; cbn; split_and!; done || lia.
Qed.

Lemma unmap_data Map p :
  0 < Data Map -> Data Map mod page = 0 -> 0 < Size Map ->
  pages (SdbMemUnmap Map p) = pages p ∖ pages_of (Data Map) (Size Map) /\
  fds (SdbMemUnmap Map p) = fds p ∖ owned (Fd Map).
Proof.
  intros Hd Hm Hs. unfold SdbMemUnmap, munmap. rewrite Hm. unfold MAP_FAILED.
  replace (Data Map =? 0) with false by lia. replace (Data Map =? -1) with false by lia. replace (Size Map =? 0) with false by lia.
  cbn [negb andb orb Z.eqb]. unfold owned. destruct (0 <=? Fd Map); [|split; [done|set_solver]].
  by destruct (close_fds (Fd Map) (mkProc (fds p) (pages p ∖ pages_of (Data Map) (Size Map)) (errno p))) as [-> ->].
Qed.

(** a mapping and its end.  [Sdb__MemMap__] of a structure that holds
    nothing either fails with a negated [errno], and the process has the pages
    that it had, or maps fresh pages, and [SdbMemUnmap] brings back the pages
    that the process had.  No descriptor that was opened stays; the one that
    the caller gave is closed in every case. *)
Theorem MemMap_unmap MSize MProt MFlags MFd OFlags an p r Map p' :
  0 <= MSize -> fd_ok an p -> map_ok MSize an p ->
  Sdb__MemMap__ 0 MSize MProt MFlags MFd OFlags an p = (r, Map, p') ->
  (r < 0 /\ pages p' = pages p /\ fds p' = fds p ∖ owned MFd) \/
  (r = 0 /\ pages p' = pages p ∪ pages_of (Data Map) MSize /\ pages_of (Data Map) MSize ## pages p /\
   pages (SdbMemUnmap Map p') = pages p /\ fds (SdbMemUnmap Map p') = fds p ∖ owned MFd).
Proof.
  intros Hn Hfd Hmap H. unfold Sdb__MemMap__ in H.
  destruct (if MFd <? -1 then open_file an p else (MFd, p)) as [fd p1] eqn:E1.
  apply given_fd in E1 as (F1 & P1 & O1 & R1); [|done].
  assert (Herr : forall q, fds q = fds p1 -> pages q = pages p1 -> 0 < errno q -> map_error (mkMap 0 MSize fd) q = (r, Map, p') ->
            r < 0 /\ pages p' = pages p /\ fds p' = fds p ∖ owned MFd).
  { intros q Hf Hp He Hq. apply map_error_spec in Hq as (Hr & Hpq & Hfq); [|by left|done]. cbn in Hfq. split; [done|]. by rewrite Hpq, Hfq, Hp, Hf, P1, O1. }
  assert (Hdata : forall q, fds q = fds p1 -> pages q = pages p1 -> map_data MSize MFlags an (mkMap 0 MSize fd) q = (r, Map, p') ->
            (r < 0 /\ pages p' = pages p /\ fds p' = fds p ∖ owned MFd) \/
            (r = 0 /\ pages p' = pages p ∪ pages_of (Data Map) MSize /\ pages_of (Data Map) MSize ## pages p /\
             pages (SdbMemUnmap Map p') = pages p /\ fds (SdbMemUnmap Map p') = fds p ∖ owned MFd)).
  { intros q Hf Hp Hq. apply map_data_spec in Hq; [|done|done|done|done|unfold map_ok; by rewrite Hp, P1]. cbn [Fd] in Hq. rewrite Hf, Hp, P1, O1 in Hq.
    destruct Hq as [Hq|(-> & Hpq & Hd & Hs & Hpos & Hge & Hfq)]; [by left|right]. destruct (Hmap Hge) as (Hgt & Hmod & Hdis).
    rewrite <- Hd in Hdis, Hgt, Hmod. rewrite <- Hs in Hpos. destruct (unmap_data Map p' Hgt Hmod Hpos) as [-> ->]. rewrite Hs, Hpq, Hfq.
    split_and!; try done. set_solver. }
  destruct ((MFd <? -1) && (fd =? -1)) eqn:Eo.
  { left. apply andb_true_iff in Eo as [Elt%Z.ltb_lt Em%Z.eqb_eq]. by apply (Herr p1 eq_refl eq_refl (R1 Elt Em)). }
  destruct (_ || _); [|by apply (Hdata p1)].
  destruct (on_fd fd (truncates an) p1) as [x p2] eqn:E2. apply on_fd_spec in E2 as (F2 & P2 & R2).
  destruct (Z.eqb_spec x (-1)); [left; by apply (Herr p2 F2 P2 (R2 ltac:(done)))|].
  destruct (on_fd fd (seeks an) p2) as [y p3] eqn:E3. apply on_fd_spec in E3 as (F3 & P3 & R3).
  destruct (Z.eqb_spec y (-1)); [left; apply (Herr p3); [congruence..|by apply R3|done]|]. by apply (Hdata p3); [congruence..|].
Qed.

(** A writable shared mapping without a file, which the header describes, never
    comes about: [ftruncate] of descriptor -1 fails. *)
Theorem MemMap_shared_anonymous MSize MProt MFlags OFlags an p :
  has MFlags MAP_SHARED = true -> has MProt PROT_WRITE = true -> -1 ∉ fds p ->
  exists Map p', Sdb__MemMap__ 0 MSize MProt MFlags (-1) OFlags an p = (- EBADF, Map, p') /\ pages p' = pages p.
Proof.
  intros Hs Hw Hfd. unfold Sdb__MemMap__. rewrite Hs, Hw, orb_true_r.
  unfold on_fd. change (-1 <? -1) with false. cbv beta iota zeta. rewrite bool_decide_eq_false_2 by done. cbn. by eexists _, _.
Qed.

(** With something in [Map->Data], as on the stack of a caller, a file that does
    not open unmaps what is there. *)
Theorem MemMap_stale a MSize MProt MFlags MFd OFlags an p :
  0 < a -> a mod page = 0 -> 0 < MSize -> MFd < -1 -> open_at an < 0 ->
  exists r Map p', Sdb__MemMap__ a MSize MProt MFlags MFd OFlags an p = (r, Map, p') /\ r < 0 /\
    pages p' = pages p ∖ pages_of a MSize.
Proof.
  intros Ha Hm Hn Hfd Ho. unfold Sdb__MemMap__, open_file. replace (MFd <? -1) with true by lia.
  replace (open_at an <? 0) with true by lia. cbn. unfold map_error. eexists _, _, _. split; [reflexivity|].
  destruct (unmap_data (mkMap a MSize (-1)) (set_errno (- open_at an) p)) as [-> _]; [done..|]. split; [|done].
  unfold SdbMemUnmap, munmap. cbn. rewrite Hm. destruct (_ && _); [|cbn; lia]. cbn. destruct (MSize =? 0) eqn:E; cbn; lia.
Qed.

Definition a_proc : proc := mkProc {[0; 1; 2]} {[16]} 0.
Definition a_file : answers := mkAnswers 3 0 0 8192.

(** A file of 5000 bytes, mapped shared for writing: two pages and descriptor 3. *)
Lemma MemMap_unmap_witness :
  exists Map p', Sdb__MemMap__ 0 5000 3 MAP_SHARED (-2) 0 a_file a_proc = (0, Map, p') /\
    Map = mkMap 8192 5000 3 /\ pages p' = pages a_proc ∪ pages_of 8192 5000 /\ pages (SdbMemUnmap Map p') = pages a_proc.
Proof.
  eexists _, _. split; [vm_compute; reflexivity|]. split; [reflexivity|].
  destruct (MemMap_unmap 5000 3 MAP_SHARED (-2) 0 a_file a_proc _ _ _ ltac:(lia)
              ltac:(intros _; apply (bool_decide_eq_false_1 (3 ∈ fds a_proc)); vm_compute; reflexivity) ltac:(intros _; split_and!; [done|done|by apply (bool_decide_eq_true_1 (pages_of 8192 5000 ## pages a_proc)); vm_compute]) eq_refl)
    as [(Hr & _)|(_ & Hp & _ & Hu & _)].
  - exfalso. vm_compute in Hr. discriminate Hr.
  - split; [exact Hp|exact Hu].
Defined.

End Mapping.

Module Streams.

(** ** Files and streams *)

(** What the files hold, by their names; the open streams, each with its file
    and the bytes that it has not written yet; the memory of the process. *)
Record files := mkFiles {
  disk : gmap (list Z) (list Z);
  streams : gmap nat (list Z * list Z);
  system : os;
}.

Definition F (A : Type) : Type := files -> option (A * files).

#[export] Instance F_ret : MRet F := fun A a w => Some (a, w).
#[export] Instance F_bind : MBind F := fun A B f c w =>
  match c w with
  | Some (a, w) => f a w
  | None => None
  end.

Definition on_system {A} (c : P A) : F A := fun w =>
  '(a, o) ← c (system w); Some (a, mkFiles (disk w) (streams w) o).

(** What the system answers in one call: whether the file opens, whether a seek
    works, how many bytes a read or a write takes, and how many a stream that is
    closed still writes. *)
Record io := mkIo { opens : bool; seeks : bool; takes : nat; flushes : nat; io_errno : Z }.

Inductive mode := Read | Write | Append.

Definition new_stream (w : files) : nat := fresh (dom (streams w) : gset nat).

Definition fopen (name : list Z) (m : mode) (r : io) : F (option nat) := fun w =>
  match (if opens r then match m with Read => disk w !! name | Write => Some [] | Append => Some (default [] (disk w !! name)) end
         else None) with
  | None => Some (None, w)
  | Some content =>
      Some (Some (new_stream w), mkFiles (<[name := content]> (disk w)) (<[new_stream w := (name, [])]> (streams w)) (system w))
  end.

(** The number of whole elements written; [buf] has [esize * ecount] bytes. *)
Definition fwrite (buf : list Z) (esize ecount : Z) (f : nat) (r : io) : F Z := fun w =>
  '(name, pending) ← streams w !! f;
  if len buf <? esize * ecount then None
  else
    let out := take (takes r) (take (Z.to_nat (esize * ecount)) buf) in
    Some (if esize =? 0 then 0 else len out / esize,
          mkFiles (disk w) (<[f := (name, pending ++ out)]> (streams w)) (system w)).

(** [false]: EOF. *)
Definition fclose (f : nat) (r : io) : F bool := fun w =>
  '(name, pending) ← streams w !! f;
  Some (bool_decide (length pending <= flushes r)%nat,
        mkFiles (<[name := default [] (disk w !! name) ++ take (flushes r) pending]> (disk w)) (delete f (streams w)) (system w)).

(** ** The functions *)

Definition lm_open_file_by_name (filename : list Z) (m : mode) (r : io) : F (option nat) := fopen filename m r.

(** [-EOF] is 1. *)
Definition lm_close_file (file : nat) (r : io) : F Z :=
  ok ← fclose file r;
  mret (if (ok : bool) then 0 else 1).

Definition lm_write_bytes_to_file_by_name (buf : list Z) (size : Z) (filename : list Z) (r : io) : F Z :=
  file ← fopen filename Write r;
  match file with
  | None => mret (io_errno r)
  | Some file =>
      n ← fwrite buf size 1 file r;
      if negb (n =? 1) then mret (io_errno r) else fclose file r;; mret 0
  end.

Definition SdbWriteBufferToFile (Buffer : list Z) (ElementSize ElementCount : Z) (Filename : list Z) (r : io) : F bool :=
  fd ← fopen Filename Write r;
  match fd with
  | None => mret false
  | Some fd =>
      n ← fwrite Buffer ElementSize ElementCount fd r;
      fclose fd r;;
      mret (n =? ElementCount)
  end.

Section Loading.
Variable place : os -> block_kind -> Z -> option Z.
Variable junk : Z -> Z.

(** [fread(dst, size, 1, file)] *)
Definition fread (dst size : Z) (f : nat) (r : io) : F Z := fun w =>
  '(name, _) ← streams w !! f;
  content ← disk w !! name;
  let got := take (takes r) (take (Z.to_nat size) content) in
  '(_, o) ← lift (copy_in dst got (len got)) (system w);
  Some (if (0 <? size) && (len got =? size) then 1 else 0, mkFiles (disk w) (streams w) o).

(** [ftell] at the end of the file. *)
Definition file_size (f : nat) : F Z := fun w =>
  '(name, _) ← streams w !! f; content ← disk w !! name; Some (len content, w).

(** The data and [*sz_out]; NULL for [ua] is [malloc]. *)
Definition lm_load_file_into_memory (filename : list Z) (r : io) (ua : Z) : F (option (Z * Z)) :=
  file ← fopen filename Read r;
  match file with
  | None => mret None
  | Some file =>
      if negb (seeks r) then fclose file r;; mret None
      else
        size ← file_size file;
        uas ← on_system (lift (ua_scratch_begin ua));
        file_data ← on_system (if ua =? NULL then malloc place junk size else lift (ua_alloc ua size));
        if file_data =? NULL then fclose file r;; mret None
        else
          n ← fread file_data size file r;
          if negb (n =? 1) then
            fclose file r;;
            on_system (if ua =? NULL then free file_data else lift (ua_scratch_release uas));;
            mret None
          else fclose file r;; mret (Some (file_data, size))
  end.
End Loading.

(** ** Lemmas *)

Lemma F_bind_Some {A B} (c : F A) (f : A -> F B) w a w' : c w = Some (a, w') -> (c ≫= f) w = f a w'.
Proof. intros H. unfold mbind, F_bind. by rewrite H. Qed.

Ltac F_step H := rewrite (F_bind_Some _ _ _ _ _ H).

Lemma new_stream_fresh w : streams w !! new_stream w = None.
Proof. apply (not_elem_of_dom (D := gset nat)). unfold new_stream. apply is_fresh. Qed.

(** A stream just opened on [name], with what it has not written yet. *)
Definition opened (name content pending : list Z) (w : files) : files :=
  mkFiles (<[name := content]> (disk w)) (<[new_stream w := (name, pending)]> (streams w)) (system w).

Lemma fopen_write name r w :
  fopen name Write r w = Some (if opens r then (Some (new_stream w), opened name [] [] w) else (None, w)).
Proof. unfold fopen. by destruct (opens r). Qed.

Lemma fopen_read name r w content :
  opens r = true -> disk w !! name = Some content -> fopen name Read r w = Some (Some (new_stream w), opened name content [] w).
Proof. intros Ho Hd. unfold fopen. by rewrite Ho, Hd. Qed.

Lemma fwrite_opened buf esize ecount name content r w :
  esize * ecount <= len buf ->
  let out := take (takes r) (take (Z.to_nat (esize * ecount)) buf) in
  fwrite buf esize ecount (new_stream w) r (opened name content [] w) =
  Some (if esize =? 0 then 0 else len out / esize, opened name content out w).
Proof.
  intros Hl. unfold fwrite, opened. cbn. rewrite lookup_insert_eq. cbn. rewrite (proj2 (Z.ltb_ge _ _) Hl).
  by rewrite insert_insert_eq.
Qed.

Lemma fclose_opened name content pending r w :
  fclose (new_stream w) r (opened name content pending w) =
  Some (bool_decide (length pending <= flushes r)%nat,
        mkFiles (<[name := content ++ take (flushes r) pending]> (disk w)) (streams w) (system w)).
Proof.
  unfold fclose, opened. cbn. rewrite lookup_insert_eq. cbn. rewrite lookup_insert_eq, insert_insert_eq. cbn.
  by rewrite delete_insert_id by apply new_stream_fresh.
Qed.

(** [fread] of a whole file that was just opened. *)
Lemma file_size_opened name content pending w :
  file_size (new_stream w) (opened name content pending w) = Some (len content, opened name content pending w).
Proof. unfold file_size, opened. cbn. rewrite lookup_insert_eq. cbn. by rewrite lookup_insert_eq. Qed.

Lemma len_take_div (buf : list Z) (t : nat) size :
  0 < size -> len buf = size -> len (take t buf) / size = if (length buf <=? t)%nat then 1 else 0.
Proof.
  intros Hs Hl. unfold len in *. destruct (Nat.leb_spec (length buf) t) as [Ht|Ht].
  - rewrite take_ge by done. rewrite Hl. by apply Z.div_same; lia.
  - rewrite length_take. apply Z.div_small. lia.
Qed.

(** The file that is written, in every case; a failing write keeps the stream. *)
Lemma write_bytes_by_name_spec buf name r w :
  lm_write_bytes_to_file_by_name buf (len buf) name r w =
  Some (if negb (opens r) then (io_errno r, w)
        else if (0 <? len buf) && (length buf <=? takes r)%nat
             then (0, mkFiles (<[name := take (flushes r) buf]> (disk w)) (streams w) (system w))
             else (io_errno r, opened name [] (take (takes r) buf) w)).
Proof.
  unfold lm_write_bytes_to_file_by_name. pose proof (fopen_write name r w) as E. destruct (opens r); F_step E; cbn [negb]; [|done].
  F_step (fwrite_opened buf (len buf) 1 name [] r w ltac:(lia)). rewrite Z.mul_1_r. rewrite take_len.
  destruct (Z.ltb_spec 0 (len buf)) as [Hp|Hz]; cbn [andb].
  - replace (len buf =? 0) with false by lia. rewrite len_take_div by done. destruct (Nat.leb_spec (length buf) (takes r)); [|done].
    cbn. F_step (fclose_opened name [] (take (takes r) buf) r w). rewrite (take_ge buf (takes r)) by done. done.
  - pose proof (len_nonneg buf). by replace (len buf =? 0) with true by lia.
Qed.

(** [SdbWriteBufferToFile] says what the stream took, not what the file got. *)
Lemma SdbWriteBufferToFile_spec buf esize ecount name r w :
  0 < esize -> 0 <= ecount -> len buf = esize * ecount ->
  SdbWriteBufferToFile buf esize ecount name r w =
  Some (if opens r
        then (len (take (takes r) buf) / esize =? ecount,
              mkFiles (<[name := take (flushes r) (take (takes r) buf)]> (disk w)) (streams w) (system w))
        else (false, w)).
Proof.
  intros He Hc Hl. unfold SdbWriteBufferToFile. pose proof (fopen_write name r w) as E. destruct (opens r); F_step E; [|done].
  F_step (fwrite_opened buf esize ecount name [] r w ltac:(lia)). rewrite <- Hl. rewrite take_len.
  replace (esize =? 0) with false by lia. F_step (fclose_opened name [] (take (takes r) buf) r w). done.
Qed.

Lemma on_system_Some {A} (c : P A) w a o : c (system w) = Some (a, o) -> on_system c w = Some (a, mkFiles (disk w) (streams w) o).
Proof. intros H. unfold on_system. by rewrite H. Qed.

(** A file that is read changes the memory alone. *)
Lemma fclose_read name content r w o :
  disk w !! name = Some content ->
  fclose (new_stream w) r (mkFiles (disk (opened name content [] w)) (streams (opened name content [] w)) o) =
  Some (true, mkFiles (disk w) (streams w) o).
Proof.
  intros Hd. pose proof (fclose_opened name content [] r (mkFiles (disk w) (streams w) o)) as H.
  unfold opened in H. cbn [disk streams system] in H. unfold opened. cbn [disk streams].
  change (new_stream (mkFiles (disk w) (streams w) o)) with (new_stream w) in H. rewrite H.
  cbn [length]. rewrite bool_decide_eq_true_2 by lia. rewrite take_nil, app_nil_r, insert_id by done. done.
Qed.

Lemma fread_opened name content r w o dst size o' got :
  got = take (takes r) (take (Z.to_nat size) content) ->
  lift (copy_in dst got (len got)) o = Some (tt, o') ->
  fread dst size (new_stream w) r (mkFiles (disk (opened name content [] w)) (streams (opened name content [] w)) o) =
  Some (if (0 <? size) && (len got =? size) then 1 else 0,
        mkFiles (disk (opened name content [] w)) (streams (opened name content [] w)) o').
Proof.
  intros -> H. unfold fread, opened. cbn [disk streams system]. rewrite lookup_insert_eq. cbn [mbind option_bind].
  rewrite lookup_insert_eq. cbn [mbind option_bind]. by rewrite H.
Qed.

Lemma lift_same {A} (c : M A) o x : c (os_mem o) = Some (x, os_mem o) -> lift c o = Some (x, o).
Proof. intros H. rewrite (lift_Some _ _ _ _ H). by destruct o. Qed.

Lemma scratch_begin_at m p a : arena_at m p a -> ua_scratch_begin p m = Some (mkUAScratch p (ua_cur a), m).
Proof.
  intros (Hp & _ & _ & Hcur & _). unfold ua_scratch_begin. rewrite (proj2 (Z.eqb_neq _ _) Hp). by M_load Hcur.
Qed.

Lemma scratch_release_at m p a c :
  arena_at m p a -> 0 <= c <= ua_cap a ->
  exists m', ua_scratch_release (mkUAScratch p c) m = Some (tt, m') /\ agree_outside (p_cur p) 8 m m' /\ arena_at m' p (with_cur a c).
Proof.
  intros Ha Hc. destruct (ua_seek_spec m p a c Ha Hc) as (m' & S & A & W). exists m'. split; [|by split].
  unfold ua_scratch_release. cbn [uas_ua uas_f5]. by M_step S.
Qed.

(** What the loading of [content] on the arena may write: its block and the cursor. *)
Definition load_footprint (p : Z) (a : UArena) (content : list Z) (x : Z) : Prop :=
  p_cur p <= x < p_cur p + 8 \/ ua_mem a + ua_cur a <= x < ua_mem a + ua_cur a + len content.

Section LoadSpec.
Context (place : os -> block_kind -> Z -> option Z) (junk : Z -> Z).

(** On an arena with room the file is behind what the arena holds, or the arena
    is as before. *)
Lemma lm_load_on_arena name content r w p a :
  opens r = true -> seeks r = true -> disk w !! name = Some content -> 0 < len content ->
  arena_at (os_mem (system w)) p a -> wf_arena (os_mem (system w)) p a -> ua_cap a < 2 ^ 63 ->
  ua_cur a + len content <= ua_cap a ->
  let whole := (length content <=? takes r)%nat in
  exists m', lm_load_file_into_memory place junk name r p w =
    Some (if whole then Some (ua_mem a + ua_cur a, len content) else None,
          mkFiles (disk w) (streams w) (mkOs m' (os_blocks (system w)))) /\
    let a' := with_cur a (if whole then ua_cur a + len content else ua_cur a) in
    arena_at m' p a' /\ wf_arena m' p a' /\ frame (load_footprint p a content) (os_mem (system w)) m' /\
    (whole = true -> read_bytes m' (ua_mem a + ua_cur a) (length content) = Some content).
Proof.
  intros Ho Hs Hd Hlen Ha Hwf Hcap Hfit whole. pose proof Hwf as [Hcur Hbuf Hmapped Hapart]. pose proof Ha as (Hp & _ & _ & Hwcur & _).
  unfold lm_load_file_into_memory. F_step (fopen_read name r w content Ho Hd). rewrite Hs. cbn [negb].
  F_step (file_size_opened name content [] w). set (w1 := opened name content [] w).
  F_step (on_system_Some _ w1 _ _ (lift_same _ _ _ (scratch_begin_at _ _ _ Ha))). rewrite (proj2 (Z.eqb_neq _ _) Hp).
  destruct (ua_alloc_fits (os_mem (system w)) p a (len content) Ha) as (m1 & S1 & A1 & W1); [rewrite u64_small; lia|].
  rewrite !u64_small in * by lia.
  F_step (on_system_Some _ (mkFiles (disk w1) (streams w1) (system w)) _ _ (lift_Some _ _ _ _ S1)).
  replace (ua_mem a + ua_cur a =? NULL) with false by (unfold NULL; lia). cbn [system disk streams].
  set (got := take (takes r) (take (Z.to_nat (len content)) content)). assert (Hgot : got = take (takes r) content) by (unfold got; by rewrite take_len).
  assert (Hle : len got <= len content) by (rewrite Hgot; unfold len; rewrite length_take; lia).
  assert (Hblock : mapped m1 (ua_mem a + ua_cur a) (len content)).
  { apply (agree_outside_mapped _ _ _ _ _ _ A1). eapply mapped_sub; [exact Hmapped|lia..]. }
  destruct (copy_in_spec m1 (ua_mem a + ua_cur a) got (len got)) as (m2 & S2 & A2 & R2);
    [eapply mapped_sub; [exact Hblock|lia..]|unfold len; lia|].
  F_step (fread_opened name content r w (mkOs m1 (os_blocks (system w))) (ua_mem a + ua_cur a) (len content) _ got eq_refl (lift_Some _ _ _ _ S2)).
  pose proof (fun o => fclose_read name content r w o Hd) as Hclose.
  assert (Hwhole : (0 <? len content) && (len got =? len content) = whole).
  { rewrite (proj2 (Z.ltb_lt _ _) Hlen). unfold whole. rewrite Hgot. unfold len in *. rewrite length_take. cbn [andb].
    destruct (Nat.leb_spec (length content) (takes r)); [apply Z.eqb_eq|apply Z.eqb_neq]; lia. }
  rewrite Hwhole.
  assert (Hf1 : frame (load_footprint p a content) (os_mem (system w)) m1) by (eapply agree_outside_frame; [exact A1|by left]).
  assert (Hf2 : frame (load_footprint p a content) m1 m2) by (eapply agree_outside_frame; [exact A2|right; lia]).
  assert (Hf12 : frame (load_footprint p a content) (os_mem (system w)) m2) by (etrans; [exact Hf1|exact Hf2]).
  assert (Hsub : forall x, load_footprint p a content x -> arena_footprint p a x) by (unfold load_footprint, arena_footprint; lia).
  assert (Hcells : forall x, p <= x < p + sizeof_UArena -> ~ (ua_mem a + ua_cur a <= x < ua_mem a + ua_cur a + len got)) by lia.
  assert (W2 : arena_at m2 p (with_cur a (ua_cur a + len content))).
  { eapply (arena_at_frame (fun x => ua_mem a + ua_cur a <= x < ua_mem a + ua_cur a + len got)); [|exact Hcells|exact W1].
    by eapply agree_outside_frame. }
  destruct whole eqn:Ew; cbn [Z.eqb Pos.eqb negb].
  - F_step (Hclose (mkOs m2 (os_blocks (system w)))). exists m2. split; [done|]. cbn zeta. split_and!; try done.
    + eapply wf_with_cur; [exact Hwf|eapply frame_mono; [exact Hf12|exact Hsub]|lia].
    + intros _. apply Nat.leb_le in Ew. assert (got = content) as Hg by (rewrite Hgot; by apply take_ge).
      rewrite Hg in R2. unfold len in R2. rewrite Nat2Z.id, firstn_all in R2. exact R2.
  - F_step (Hclose (mkOs m2 (os_blocks (system w)))).
    destruct (scratch_release_at m2 p _ (ua_cur a) W2) as (m3 & S3 & A3 & W3); [cbn; lia|].
    set (o2 := mkOs m2 (os_blocks (system w))).
    F_step (on_system_Some (lift (ua_scratch_release (mkUAScratch p (ua_cur a)))) (mkFiles (disk w) (streams w) o2) _ _
              (lift_Some _ o2 _ _ S3)).
    assert (Hf3 : frame (load_footprint p a content) m2 m3) by (eapply agree_outside_frame; [exact A3|by left]).
    exists m3. split; [done|]. cbn zeta. split_and!; try done.
    + eapply wf_with_cur; [exact Hwf|eapply frame_mono; [etrans; [exact Hf12|exact Hf3]|exact Hsub]|lia].
    + etrans; [exact Hf12|exact Hf3].
Qed.

(** C24: what is written is read back.  A buffer that
    [lm_write_bytes_to_file_by_name] reports as written is loaded onto an arena
    with room as the bytes that the stream still wrote when it was closed, which
    the function does not look at: all of them, when nothing was lost.  What
    the arena held is as it was, no stream stays open, and no block is taken. *)
Theorem write_load buf name r1 r2 w w1 p a :
  lm_write_bytes_to_file_by_name buf (len buf) name r1 w = Some (0, w1) -> io_errno r1 <> 0 -> (0 < flushes r1)%nat ->
  opens r2 = true -> seeks r2 = true -> (length buf <= takes r2)%nat ->
  arena_at (os_mem (system w)) p a -> wf_arena (os_mem (system w)) p a -> ua_cap a < 2 ^ 63 ->
  ua_cur a + len buf <= ua_cap a ->
  let out := take (flushes r1) buf in
  exists m', lm_load_file_into_memory place junk name r2 p w1 =
    Some (Some (ua_mem a + ua_cur a, len out),
          mkFiles (<[name := out]> (disk w)) (streams w) (mkOs m' (os_blocks (system w)))) /\
    read_bytes m' (ua_mem a + ua_cur a) (length out) = Some out /\
    arena_at m' p (with_cur a (ua_cur a + len out)) /\
    frame (load_footprint p a out) (os_mem (system w)) m'.
Proof.
  intros Hw He Hf Ho Hs Ht Ha Hwf Hcap Hfit out. rewrite write_bytes_by_name_spec in Hw.
  destruct (opens r1); cbn [negb] in Hw; [|congruence].
  destruct (Z.ltb_spec 0 (len buf)) as [Hpos|]; cbn [andb] in Hw; [|congruence].
  destruct (_ <=? _)%nat; [|congruence]. injection Hw as <-. fold out.
  assert (Hout : 0 < len out <= len buf) by (unfold out, len in *; rewrite length_take; lia).
  set (w1 := mkFiles (<[name := out]> (disk w)) (streams w) (system w)).
  destruct (lm_load_on_arena name out r2 w1 p a Ho Hs) as (m' & S & W & _ & Fr & R);
    [apply lookup_insert_eq|lia|done|done|done|lia|].
  rewrite (proj2 (Nat.leb_le _ _)) in * by (unfold len in *; lia).
  exists m'. split; [exact S|]. split; [by apply R|]. by split.
Qed.
End LoadSpec.

(** A file of three bytes behind the sixteen that the arena of [Demo] holds. *)
Definition demo_files : files := mkFiles ∅ ∅ (mkOs Demo.m0 ∅).
Definition all_well : io := mkIo true true 10 10 5.

Lemma write_load_witness :
  exists w1 m', lm_write_bytes_to_file_by_name [1; 2; 3] 3 [97] all_well demo_files = Some (0, w1) /\
    lm_load_file_into_memory bump_place (fun _ => 0) [97] all_well 1000 w1 =
      Some (Some (2016, 3), mkFiles {[ [97] := [1; 2; 3] ]} ∅ (mkOs m' ∅)) /\
    read_bytes m' 2016 3 = Some [1; 2; 3].
Proof.
  eexists. assert (S := write_bytes_by_name_spec [1; 2; 3] [97] all_well demo_files). cbn in S.
  destruct (write_load bump_place (fun _ => 0) [1; 2; 3] [97] all_well all_well demo_files _ 1000 Demo.a0 S)
    as (m' & L & R & _); [done|cbn; lia|done|done|cbn; lia|exact Demo.at0|exact Demo.wf0|done|done|].
  exists m'. split; [exact S|]. split; [exact L|exact R].
Defined.

(** A write that fails leaves its stream open and the file empty. *)
Lemma write_bytes_by_name_leak buf name r w :
  opens r = true -> (takes r < length buf)%nat ->
  exists w', lm_write_bytes_to_file_by_name buf (len buf) name r w = Some (io_errno r, w') /\
    streams w' = <[new_stream w := (name, take (takes r) buf)]> (streams w) /\ disk w' !! name = Some [].
Proof.
  intros Ho Ht. rewrite write_bytes_by_name_spec, Ho. cbn [negb]. rewrite (proj2 (Nat.leb_gt _ _) Ht), andb_false_r.
  eexists. split; [reflexivity|]. split; [done|apply lookup_insert_eq].
Qed.

(** With nothing left on the disk the buffer of the stream takes the bytes, and
    the function says that they are in the file. *)
Lemma SdbWriteBufferToFile_lost buf name r w :
  opens r = true -> (length buf <= takes r)%nat -> flushes r = O ->
  exists w', SdbWriteBufferToFile buf 1 (len buf) name r w = Some (true, w') /\ disk w' !! name = Some [].
Proof.
  intros Ho Ht Hf. pose proof (len_nonneg buf). rewrite SdbWriteBufferToFile_spec, Ho by lia.
  rewrite take_ge by done. rewrite Z.div_1_r, Z.eqb_refl, Hf. eexists. split; [reflexivity|]. apply lookup_insert_eq.
Qed.

End Streams.

(** ** Traced memory *)

Module Trace.
Section Trace.
(** The allocator that the trace is around, with its state. *)
Context {heap : Type}.
Variable malloc : Z -> heap -> Z * heap.
Variable calloc : Z -> Z -> heap -> Z * heap.
Variable realloc : Z -> Z -> heap -> Z * heap.
Variable free : Z -> heap -> heap.

(** What a line of the trace has, besides the line and the function of the call. *)
Inductive entry :=
  | MALLOC (ptr size : Z)
  | CALLOC (ptr count size total : Z)
  | REALLOC (original ptr size : Z)
  | FREE (ptr : Z).

Definition traced : Type := heap * list entry.

Definition lm__malloc_trace__ (size : Z) (s : traced) : Z * traced :=
  let '(ptr, h) := malloc size s.1 in (ptr, (h, s.2 ++ [MALLOC ptr size])).

Definition lm__calloc_trace__ (count size : Z) (s : traced) : Z * traced :=
  let '(ptr, h) := calloc count size s.1 in (ptr, (h, s.2 ++ [CALLOC ptr count size (count *64 size)])).

Definition lm__realloc_trace__ (ptr size : Z) (s : traced) : Z * traced :=
  let '(reallocd, h) := if negb (ptr =? NULL) then realloc ptr size s.1 else (NULL, s.1) in
  (reallocd, (h, s.2 ++ [REALLOC ptr reallocd size])).

Definition lm__free_trace__ (ptr : Z) (s : traced) : traced :=
  let l := s.2 ++ [FREE ptr] in
  (if negb (ptr =? NULL) then free ptr s.1 else s.1, l).

(** The same four functions in [Sdb.h]. *)
Definition Sdb__MallocTrace__ := lm__malloc_trace__.
Definition Sdb__CallocTrace__ := lm__calloc_trace__.
Definition Sdb__ReallocTrace__ := lm__realloc_trace__.
Definition Sdb__FreeTrace__ := lm__free_trace__.

(** The program runs as without the trace, but for [realloc(NULL, size)], which
    takes no memory. *)
Lemma trace_transparent :
  (forall size s, (lm__malloc_trace__ size s).1 = (malloc size s.1).1 /\ (lm__malloc_trace__ size s).2.1 = (malloc size s.1).2) /\
  (forall count size s, (lm__calloc_trace__ count size s).1 = (calloc count size s.1).1 /\
                        (lm__calloc_trace__ count size s).2.1 = (calloc count size s.1).2) /\
  (forall ptr size s, ptr <> NULL -> (lm__realloc_trace__ ptr size s).1 = (realloc ptr size s.1).1 /\
                      (lm__realloc_trace__ ptr size s).2.1 = (realloc ptr size s.1).2) /\
  (forall ptr s, ptr <> NULL -> (lm__free_trace__ ptr s).1 = free ptr s.1) /\
  (forall size s, (lm__realloc_trace__ NULL size s).1 = NULL /\ (lm__realloc_trace__ NULL size s).2.1 = s.1).
Proof.
  unfold lm__malloc_trace__, lm__calloc_trace__, lm__realloc_trace__, lm__free_trace__. split_and!.
  - intros size s. by destruct (malloc size s.1).
  - intros count size s. by destruct (calloc count size s.1).
  - intros ptr size s Hp. rewrite (proj2 (Z.eqb_neq _ _) Hp). cbn. by destruct (realloc ptr size s.1).
  - intros ptr s Hp. by rewrite (proj2 (Z.eqb_neq _ _) Hp).
  - done.
Qed.
End Trace.
End Trace.
