(* ===== verification/Pipe.v ===== *)
(** * The sensor data pipe: [src/src/sdhs/Common/SensorDataPipe.c]

    One writer thread and one reader thread share a ring of buffers, two atomic
    indices, a count and two [eventfd]s.  The two functions of the file that the
    threads call concurrently are programs over the effects of the C code
    ([prog]: one effect per access to shared state), and a step of the system
    executes one effect of one thread, so every interleaving of the two
    functions is a sequence of steps.

    The eventfds are created without [EFD_SEMAPHORE] and without
    [EFD_NONBLOCK]: a read blocks while the counter is 0, and otherwise returns
    the whole counter and resets it to 0.  Interrupted or failed system calls
    are covered by the functional lemmas on the programs, not by the
    interleaving semantics.

    The threads are the loops of [MbPipeThroughputTest] (fill the current
    buffer, get the next one) and [PgRun] (get a buffer, use it).  A buffer is
    represented by its contents; [ArenaFree] empties it. *)

From S2P Require Import Prelude.
#[local] Open Scope Z_scope.

(** ** The functions of the file *)

Inductive fd := ReadEventFd | WriteEventFd.
Inductive idx := WriteBufIdx | ReadBufIdx.

(** The accesses to shared state. *)
Inductive eff :=
  | AtomicLoad (i : idx)
  | AtomicStore (i : idx) (v : Z)
  | FetchAddFull
  | FetchSubFull
  | EvRead (f : fd)               (* the value read, -1 on failure *)
  | EvWrite (f : fd) (v : Z)      (* -1 on failure *)
  | ArenaFree (b : Z)             (* ArenaFree(Pipe->Buffers[b]) *)
  | ArenaPos (b : Z).             (* ArenaPos(Pipe->Buffers[b]) *)

Inductive prog (A : Type) :=
  | Ret (a : A)
  | Eff (e : eff) (k : Z -> prog A).
Arguments Ret {A} a.
Arguments Eff {A} e k.

Fixpoint prog_bind {A B} (p : prog A) (f : A -> prog B) : prog B :=
  match p with
  | Ret a => f a
  | Eff e k => Eff e (fun r => prog_bind (k r) f)
  end.

Notation "r '<~' e ';' k" := (Eff e (fun r => k)) (at level 100, e at next level, right associativity).

Section Functions.
(** [Pipe->BufCount] *)
Variable BufCount : Z.

(** The index of the buffer returned, [None] for NULL. *)
Definition SdPipeGetWriteBuffer : prog (option Z) :=
  CurWriteBuf <~ AtomicLoad WriteBufIdx;
  let NextWriteBuf := u32 (CurWriteBuf + 1) mod u32 BufCount in
  Val <~ EvRead WriteEventFd;
  if Val =? -1 then Ret None
  else
    _ <~ AtomicStore WriteBufIdx NextWriteBuf;
    _ <~ FetchAddFull;
    w <~ EvWrite ReadEventFd 1;
    if w =? -1 then Ret None
    else
      _ <~ ArenaFree NextWriteBuf;
      Ret (Some NextWriteBuf).

Definition SdPipeGetReadBuffer : prog (option Z) :=
  Val <~ EvRead ReadEventFd;
  if Val =? -1 then Ret None
  else
    CurReadBuffer <~ AtomicLoad ReadBufIdx;
    _ <~ AtomicStore ReadBufIdx (u32 (CurReadBuffer + 1) mod u32 BufCount);
    _ <~ FetchSubFull;
    w <~ EvWrite WriteEventFd 1;
    if w =? -1 then Ret None else Ret (Some CurReadBuffer).

Definition SdPipeFlush : prog unit :=
  Cur <~ AtomicLoad WriteBufIdx;
  Pos <~ ArenaPos Cur;
  if 0 <? Pos then
    CurWriteBuf <~ AtomicLoad WriteBufIdx;
    let NextWriteBuf := u32 (CurWriteBuf + 1) mod u32 BufCount in
    Val <~ EvRead WriteEventFd;
    if Val =? -1 then Ret tt
    else
      _ <~ AtomicStore WriteBufIdx NextWriteBuf;
      _ <~ FetchAddFull;
      w <~ EvWrite ReadEventFd 1;
      if w =? -1 then Ret tt
      else
        _ <~ ArenaFree NextWriteBuf;
        Ret tt
  else Ret tt.
End Functions.

(** ** The shared state and the effects on it *)

Record pipe := mkPipe {
  write_idx : Z;              (* WriteBufIdx *)
  read_idx : Z;               (* ReadBufIdx *)
  full_count : Z;             (* FullBuffersCount *)
  read_event : Z;             (* counter of ReadEventFd *)
  write_event : Z;            (* counter of WriteEventFd *)
  buffers : list (list Z);    (* contents of Buffers[0 .. BufCount-1] *)
}.

(** The state that [SdpCreate] leaves. *)
Definition pipe_created (BufCount : Z) : pipe :=
  mkPipe 0 0 0 0 (u64 (BufCount - 1)) (replicate (Z.to_nat BufCount) []).

Definition set_buffer (b : Z) (l : list Z) (s : pipe) : pipe :=
  mkPipe (write_idx s) (read_idx s) (full_count s) (read_event s) (write_event s)
    (<[Z.to_nat b := l]> (buffers s)).

Definition buffer (s : pipe) (b : Z) : list Z := default [] (buffers s !! Z.to_nat b).

(** One effect: its response and the new state, [None] when it blocks. *)
Definition exec (e : eff) (s : pipe) : option (Z * pipe) :=
  match e with
  | AtomicLoad WriteBufIdx => Some (write_idx s, s)
  | AtomicLoad ReadBufIdx => Some (read_idx s, s)
  | AtomicStore WriteBufIdx v =>
      Some (0, mkPipe v (read_idx s) (full_count s) (read_event s) (write_event s) (buffers s))
  | AtomicStore ReadBufIdx v =>
      Some (0, mkPipe (write_idx s) v (full_count s) (read_event s) (write_event s) (buffers s))
  | FetchAddFull =>
      Some (0, mkPipe (write_idx s) (read_idx s) (u32 (full_count s + 1)) (read_event s) (write_event s) (buffers s))
  | FetchSubFull =>
      Some (0, mkPipe (write_idx s) (read_idx s) (u32 (full_count s - 1)) (read_event s) (write_event s) (buffers s))
  | EvRead ReadEventFd =>
      if read_event s =? 0 then None
      else Some (read_event s, mkPipe (write_idx s) (read_idx s) (full_count s) 0 (write_event s) (buffers s))
  | EvRead WriteEventFd =>
      if write_event s =? 0 then None
      else Some (write_event s, mkPipe (write_idx s) (read_idx s) (full_count s) (read_event s) 0 (buffers s))
  | EvWrite ReadEventFd v =>
      Some (8, mkPipe (write_idx s) (read_idx s) (full_count s) (read_event s + v) (write_event s) (buffers s))
  | EvWrite WriteEventFd v =>
      Some (8, mkPipe (write_idx s) (read_idx s) (full_count s) (read_event s) (write_event s + v) (buffers s))
  | ArenaFree b => Some (0, set_buffer b [] s)
  | ArenaPos b => Some (Z.of_nat (length (buffer s b)), s)
  end.

(** A program run alone: its result, [None] when it blocks for ever. *)
Fixpoint run_alone {A} (p : prog A) (s : pipe) : option (A * pipe) :=
  match p with
  | Ret a => Some (a, s)
  | Eff e k => match exec e s with
               | Some (r, s') => run_alone (k r) s'
               | None => None
               end
  end.

(** ** The two threads *)

Inductive wthread := WHold (b : Z) | WCall (p : prog (option Z)).
Inductive rthread := RHold (b : Z) | RCall (p : prog (option Z)).

(** [published]: the contents of each buffer when the writer asked for the next
    one; [consumed]: the contents of each buffer when the reader was done with
    it. *)
Record sys := mkSys {
  shared : pipe;
  writer : wthread;
  reader : rthread;
  published : list (list Z);
  consumed : list (list Z);
}.

Definition sys_init (BufCount : Z) : sys :=
  mkSys (pipe_created BufCount) (WHold 0) (RCall (SdPipeGetReadBuffer BufCount)) [] [].

Inductive step (BufCount : Z) : sys -> sys -> Prop :=
  (* the writer appends to the buffer it holds *)
  | step_fill s b d r P C :
      step BufCount (mkSys s (WHold b) r P C) (mkSys (set_buffer b (buffer s b ++ d) s) (WHold b) r P C)
  | step_wcall s b r P C :
      step BufCount (mkSys s (WHold b) r P C)
        (mkSys s (WCall (SdPipeGetWriteBuffer BufCount)) r (P ++ [buffer s b]) C)
  | step_wexec s e k v s' r P C :
      exec e s = Some (v, s') ->
      step BufCount (mkSys s (WCall (Eff e k)) r P C) (mkSys s' (WCall (k v)) r P C)
  | step_wret s b r P C :
      step BufCount (mkSys s (WCall (Ret (Some b))) r P C) (mkSys s (WHold b) r P C)
  (* the reader is done with the buffer it holds *)
  | step_rcall s b w P C :
      step BufCount (mkSys s w (RHold b) P C)
        (mkSys s w (RCall (SdPipeGetReadBuffer BufCount)) P (C ++ [buffer s b]))
  | step_rexec s e k v s' w P C :
      exec e s = Some (v, s') ->
      step BufCount (mkSys s w (RCall (Eff e k)) P C) (mkSys s' w (RCall (k v)) P C)
  | step_rret s b w P C :
      step BufCount (mkSys s w (RCall (Ret (Some b))) P C) (mkSys s w (RHold b) P C).

Inductive reachable (BufCount : Z) : sys -> Prop :=
  | reach_init : reachable BufCount (sys_init BufCount)
  | reach_step y y' : reachable BufCount y -> step BufCount y y' -> reachable BufCount y'.

(** ** The token invariant

    Once the writer has taken the initial count, exactly one credit circulates:
    it is with the writer (between its two event accesses), in [ReadEventFd],
    with the reader, or in [WriteEventFd].  [slot k] is the buffer of the k-th
    request of either thread. *)

Section Invariant.
Context (BufCount : Z).

Definition slot (k : nat) : Z := Z.of_nat k mod BufCount.

(** The rest of the two programs from each of their accesses on. *)
Definition gw_free (nx : Z) : prog (option Z) := _ <~ ArenaFree nx; Ret (Some nx).
Definition gw_signal (nx : Z) : prog (option Z) :=
  w <~ EvWrite ReadEventFd 1; if w =? -1 then Ret None else gw_free nx.
Definition gw_count (nx : Z) : prog (option Z) := _ <~ FetchAddFull; gw_signal nx.
Definition gw_store (nx : Z) : prog (option Z) := _ <~ AtomicStore WriteBufIdx nx; gw_count nx.
Definition gw_take (nx : Z) : prog (option Z) :=
  v <~ EvRead WriteEventFd; if v =? -1 then Ret None else gw_store nx.

Definition gr_signal (c : Z) : prog (option Z) :=
  w <~ EvWrite WriteEventFd 1; if w =? -1 then Ret None else Ret (Some c).
Definition gr_count (c : Z) : prog (option Z) := _ <~ FetchSubFull; gr_signal c.
Definition gr_store (c nx : Z) : prog (option Z) := _ <~ AtomicStore ReadBufIdx nx; gr_count c.
Definition gr_load : prog (option Z) :=
  c <~ AtomicLoad ReadBufIdx; gr_store c (u32 (c + 1) mod u32 BufCount).

Lemma GetWriteBuffer_eq :
  SdPipeGetWriteBuffer BufCount =
  (c <~ AtomicLoad WriteBufIdx; gw_take (u32 (c + 1) mod u32 BufCount)).
Proof. done. Qed.

Lemma GetReadBuffer_eq :
  SdPipeGetReadBuffer BufCount = (v <~ EvRead ReadEventFd; if v =? -1 then Ret None else gr_load).
Proof. done. Qed.

(** The writer works on its [i]-th buffer: [p] buffers have been published. *)
Inductive writer_work (i : nat) : wthread -> nat -> Prop :=
  | ww_free : writer_work i (WCall (gw_free (slot i))) i
  | ww_ret : writer_work i (WCall (Ret (Some (slot i)))) i
  | ww_hold : writer_work i (WHold (slot i)) i
  | ww_load : writer_work i (WCall (SdPipeGetWriteBuffer BufCount)) (S i)
  | ww_take : writer_work i (WCall (gw_take (slot (S i)))) (S i).

(** The reader has been handed [k] buffers and is done with [c] of them. *)
Inductive reader_lag (k : nat) : rthread -> nat -> Prop :=
  | rl_take : reader_lag k (RCall (SdPipeGetReadBuffer BufCount)) k
  | rl_ret j : k = S j -> reader_lag k (RCall (Ret (Some (slot j)))) j
  | rl_hold j : k = S j -> reader_lag k (RHold (slot j)) j.

Inductive token : pipe -> wthread -> rthread -> nat -> nat -> Prop :=
  (* with the writer *)
  | tok_w_store k r c B :
      reader_lag k r c ->
      token (mkPipe (slot k) (slot k) 0 0 0 B) (WCall (gw_store (slot (S k)))) r (S k) c
  | tok_w_count k r c B :
      reader_lag k r c ->
      token (mkPipe (slot (S k)) (slot k) 0 0 0 B) (WCall (gw_count (slot (S k)))) r (S k) c
  | tok_w_signal k r c B :
      reader_lag k r c ->
      token (mkPipe (slot (S k)) (slot k) 1 0 0 B) (WCall (gw_signal (slot (S k)))) r (S k) c
  (* in ReadEventFd *)
  | tok_read k w p r c B :
      writer_work (S k) w p -> reader_lag k r c ->
      token (mkPipe (slot (S k)) (slot k) 1 1 0 B) w r p c
  (* with the reader *)
  | tok_r_load k w p B :
      writer_work (S k) w p ->
      token (mkPipe (slot (S k)) (slot k) 1 0 0 B) w (RCall gr_load) p k
  | tok_r_store k w p B :
      writer_work (S k) w p ->
      token (mkPipe (slot (S k)) (slot k) 1 0 0 B) w (RCall (gr_store (slot k) (slot (S k)))) p k
  | tok_r_count k w p B :
      writer_work (S k) w p ->
      token (mkPipe (slot (S k)) (slot (S k)) 1 0 0 B) w (RCall (gr_count (slot k))) p k
  | tok_r_signal k w p B :
      writer_work (S k) w p ->
      token (mkPipe (slot (S k)) (slot (S k)) 0 0 0 B) w (RCall (gr_signal (slot k))) p k
  (* in WriteEventFd, initially with the count BufCount - 1 *)
  | tok_write k w p r c e B :
      1 <= e -> writer_work k w p -> reader_lag k r c ->
      token (mkPipe (slot k) (slot k) 0 0 e B) w r p c.

(** What the reader still has to see is in the buffers. *)
Definition contents_ok (y : sys) : Prop :=
  consumed y = take (length (consumed y)) (published y) /\
  forall q, (length (consumed y) <= q < length (published y))%nat ->
    published y !! q = Some (buffer (shared y) (slot q)).

Definition ring_ok (y : sys) : Prop := length (buffers (shared y)) = Z.to_nat BufCount.

Definition token_ok (y : sys) : Prop :=
  token (shared y) (writer y) (reader y) (length (published y)) (length (consumed y)).

Context (Hn : 2 <= BufCount < 2 ^ 32).

Lemma slot_range k : 0 <= slot k < BufCount.
Proof. apply Z.mod_pos_bound. lia. Qed.

Lemma next_slot k : u32 (slot k + 1) mod u32 BufCount = slot (S k).
Proof.
  pose proof (slot_range k). rewrite !u32_small by lia. unfold slot.
  rewrite Z.add_mod_idemp_l by lia. f_equal. lia.
Qed.

Lemma slot_differ q i : (q < i)%nat -> Z.of_nat i - Z.of_nat q < BufCount -> slot q <> slot i.
Proof.
  unfold slot. intros Hlt Hd E.
  pose proof (Z.div_mod (Z.of_nat q) BufCount ltac:(lia)).
  pose proof (Z.div_mod (Z.of_nat i) BufCount ltac:(lia)).
  assert (BufCount * (Z.of_nat i / BufCount - Z.of_nat q / BufCount) = Z.of_nat i - Z.of_nat q) by lia.
  assert (0 < Z.of_nat i / BufCount - Z.of_nat q / BufCount) by nia. nia.
Qed.

(** The reader is at most two buffers behind the one the writer works on. *)
Lemma token_distance s w r p c i :
  token s w r p c -> writer_work i w p -> (c <= i <= c + 2)%nat.
Proof.
  intros Ht Hw.
  destruct Ht; inversion Hw; subst;
    repeat match goal with
    | H : writer_work _ _ _ |- _ => inversion H; subst; clear H
    | H : reader_lag _ _ _ |- _ => inversion H; subst; clear H
    end; lia.
Qed.

Lemma token_init : token_ok (sys_init BufCount).
Proof.
  unfold token_ok, sys_init, pipe_created; cbn.
  assert (E : slot 0 = 0) by (unfold slot; by rewrite Z.mod_0_l by lia).
  rewrite <- E at 1 2. rewrite u64_small by lia.
  apply tok_write; [lia| |constructor]. rewrite <- E at 1. constructor.
Qed.

(** The state after an access is again one of the invariant's. *)
Ltac next_phase :=
  rewrite ?next_slot; unfold set_buffer; cbn; econstructor; eauto; try lia; econstructor; eauto.

Ltac thread_code :=
  repeat match goal with H : _ = Eff _ _ |- _ => injection H as <- <- end.

Lemma token_wexec s q e k v s' r p c :
  token s (WCall q) r p c -> q = Eff e k -> exec e s = Some (v, s') -> token s' (WCall (k v)) r p c.
Proof.
  intros Ht Hq He.
  inversion Ht; subst;
    try match goal with H : writer_work _ (WCall _) _ |- _ => inversion H; subst; clear H end;
    try discriminate; clear Ht; thread_code; cbn in He; try (simplify_eq; fail).
  all: try (simplify_eq; next_phase; fail).
  destruct (Z.eqb_spec e0 0); [lia|]. simplify_eq.
  rewrite (proj2 (Z.eqb_neq _ _)) by lia. next_phase.
Qed.

Lemma token_rexec s q e k v s' w p c :
  token s w (RCall q) p c -> q = Eff e k -> exec e s = Some (v, s') -> token s' w (RCall (k v)) p c.
Proof.
  intros Ht Hq He.
  inversion Ht; subst;
    try match goal with H : reader_lag _ (RCall _) _ |- _ => inversion H; subst; clear H end;
    try discriminate; clear Ht; thread_code; cbn in He; try (simplify_eq; fail).
  all: simplify_eq; next_phase.
Qed.

Lemma token_step y y' : token_ok y -> step BufCount y y' -> token_ok y'.
Proof.
  unfold token_ok. intros Ht Hs.
  destruct Hs; cbn [shared writer reader published consumed] in *;
    rewrite ?length_app; cbn [length]; rewrite ?Nat.add_1_r;
    eauto using token_wexec, token_rexec.
  all: inversion Ht; subst;
    repeat match goal with
    | H : writer_work _ (WHold _) _ |- _ => inversion H; subst; clear H
    | H : writer_work _ (WCall (Ret _)) _ |- _ => inversion H; subst; clear H
    | H : reader_lag _ (RHold _) _ |- _ => inversion H; subst; clear H
    | H : reader_lag _ (RCall (Ret _)) _ |- _ => inversion H; subst; clear H
    end; try discriminate; next_phase.
Qed.

Lemma token_reachable y : reachable BufCount y -> token_ok y.
Proof. induction 1; eauto using token_init, token_step. Qed.

(** ** Buffers and their contents *)

Ltac invert_all :=
  repeat match goal with
  | H : writer_work _ _ _ |- _ => inversion H; subst; clear H
  | H : reader_lag _ _ _ |- _ => inversion H; subst; clear H
  end.

Lemma token_whold s b r p c :
  token s (WHold b) r p c -> b = slot p /\ (c <= p <= c + 2)%nat.
Proof. intros Ht. inversion Ht; subst; invert_all; split; (done || lia). Qed.

Lemma token_rhold s w b p c : token s w (RHold b) p c -> b = slot c /\ (c < p)%nat.
Proof. intros Ht. inversion Ht; subst; invert_all; split; (done || lia). Qed.

Lemma token_wfree s b k r p c :
  token s (WCall (Eff (ArenaFree b) k)) r p c -> b = slot p /\ (c <= p <= c + 2)%nat.
Proof.
  intros Ht. inversion Ht; subst;
    try match goal with H : writer_work _ (WCall _) _ |- _ => inversion H; subst; clear H end;
    try discriminate; invert_all; thread_code; simplify_eq; split; (done || lia).
Qed.

Lemma token_rfree s b k w p c : ~ token s w (RCall (Eff (ArenaFree b) k)) p c.
Proof.
  intros Ht. inversion Ht; subst;
    try match goal with H : reader_lag _ (RCall _) _ |- _ => inversion H; subst; clear H end;
    try discriminate.
Qed.

Lemma exec_buffers e s v s' :
  exec e s = Some (v, s') -> (forall b, e <> ArenaFree b) -> buffers s' = buffers s.
Proof.
  intros He Hne. destruct e as [[]|[] v0| | |[]|[] v0|b|b]; cbn in He;
    repeat match type of He with context [if ?c then _ else _] => destruct c end; simplify_eq; try done.
  by destruct (Hne b).
Qed.

Lemma buffer_set_ne s b b' l :
  b <> b' -> 0 <= b -> 0 <= b' -> buffer (set_buffer b l s) b' = buffer s b'.
Proof. intros. unfold buffer. cbn. rewrite list_lookup_insert_ne; [done|lia]. Qed.

Lemma contents_buffers y s' w r :
  contents_ok y -> buffers s' = buffers (shared y) ->
  contents_ok (mkSys s' w r (published y) (consumed y)).
Proof.
  intros [H1 H2] E. split; [done|]. cbn. intros q Hq. rewrite (H2 q Hq). unfold buffer. by rewrite E.
Qed.

Lemma token_bounds s w r p c :
  token s w r p c -> 0 <= full_count s <= 1 /\ 0 <= read_event s <= 1 /\ (p <= c + 3)%nat.
Proof. intros Ht. inversion Ht; subst; invert_all; cbn; split_and!; lia. Qed.

(** An access blocks only on a counter that is 0; the two threads are never
    both at such an access. *)
Lemma token_not_stuck s e k e' k' p c :
  token s (WCall (Eff e k)) (RCall (Eff e' k')) p c -> exec e s = None -> exec e' s = None -> False.
Proof.
  intros Ht He He'. inversion Ht; subst;
    repeat match goal with
    | H : writer_work _ (WCall _) _ |- _ => inversion H; subst; clear H
    | H : reader_lag _ (RCall _) _ |- _ => inversion H; subst; clear H
    end; try discriminate; thread_code; cbn in *; simplify_eq.
  destruct (Z.eqb_spec e0 0); [lia|done].
Qed.

Context (H3 : 3 <= BufCount).

(** Writing the buffer the writer works on spares what the reader still needs. *)
Lemma contents_write y w r l :
  contents_ok y -> (length (consumed y) <= length (published y) <= length (consumed y) + 2)%nat ->
  contents_ok (mkSys (set_buffer (slot (length (published y))) l (shared y)) w r (published y) (consumed y)).
Proof.
  intros [H1 H2] Hd. split; [done|]. cbn. intros q Hq. rewrite (H2 q Hq). f_equal. symmetry.
  pose proof (slot_range q). pose proof (slot_range (length (published y))).
  apply buffer_set_ne; [|lia|lia]. intros E. symmetry in E. revert E. apply slot_differ; lia.
Qed.

Lemma contents_step y y' :
  token_ok y -> contents_ok y -> step BufCount y y' -> contents_ok y'.
Proof.
  intros Ht Hc Hs. unfold token_ok in Ht.
  destruct Hs as [s b d r P C|s b r P C|s e k v s' r P C He|s b r P C|s b w P C|s e k v s' w P C He|s b w P C];
    cbn [shared writer reader published consumed] in *.
  - destruct (token_whold _ _ _ _ _ Ht) as [-> Hd]. by apply (contents_write (mkSys s (WHold (slot (length P))) r P C)).
  - destruct (token_whold _ _ _ _ _ Ht) as [-> Hd]. destruct Hc as [H1 H2]. cbn in H1, H2. split; cbn.
    + rewrite take_app_le by lia. done.
    + rewrite length_app; cbn. intros q Hq. destruct (decide (q = length P)) as [->|].
      * rewrite lookup_app_r by lia. by rewrite Nat.sub_diag.
      * rewrite lookup_app_l by lia. apply H2. lia.
  - assert ((exists b, e = ArenaFree b) \/ forall b, e <> ArenaFree b) as [[b ->]|Hne]
      by (destruct e; eauto).
    + destruct (token_wfree _ _ _ _ _ _ Ht) as [-> Hd]. cbn in He. simplify_eq.
      by apply (contents_write (mkSys s (WCall (Eff (ArenaFree (slot (length P))) k)) r P C)).
    + apply (contents_buffers (mkSys s (WCall (Eff e k)) r P C)); [done|]. by eapply exec_buffers.
  - done.
  - destruct (token_rhold _ _ _ _ _ Ht) as [-> Hd]. destruct Hc as [H1 H2]. cbn in H1, H2.
    assert (Hl : P !! length C = Some (buffer s (slot (length C)))) by (apply H2; lia).
    split; cbn; rewrite ?length_app; cbn.
    + rewrite Nat.add_1_r, (take_S_r _ _ _ Hl). by rewrite <- H1.
    + intros q Hq. apply H2. lia.
  - apply (contents_buffers (mkSys s w (RCall (Eff e k)) P C)); [done|]. eapply exec_buffers; [done|].
    intros b ->. by eapply token_rfree.
  - done.
Qed.

Lemma contents_reachable y : reachable BufCount y -> contents_ok y.
Proof.
  induction 1 as [|y y' Hr IH Hs].
  - split; [done|]. cbn. lia.
  - eapply contents_step; [by apply token_reachable|done|done].
Qed.
End Invariant.

(** ** Executing a schedule *)

Inductive choice := Fill (d : list Z) | Writer | Reader.

(** The one step of the thread chosen, [None] when it is blocked or has
    returned NULL. *)
Definition advance (BufCount : Z) (c : choice) (y : sys) : option sys :=
  let '(mkSys s w r P C) := y in
  match c with
  | Fill d => match w with
              | WHold b => Some (mkSys (set_buffer b (buffer s b ++ d) s) w r P C)
              | _ => None
              end
  | Writer => match w with
              | WHold b => Some (mkSys s (WCall (SdPipeGetWriteBuffer BufCount)) r (P ++ [buffer s b]) C)
              | WCall (Eff e k) => '(v, s') ← exec e s; Some (mkSys s' (WCall (k v)) r P C)
              | WCall (Ret (Some b)) => Some (mkSys s (WHold b) r P C)
              | WCall (Ret None) => None
              end
  | Reader => match r with
              | RHold b => Some (mkSys s w (RCall (SdPipeGetReadBuffer BufCount)) P (C ++ [buffer s b]))
              | RCall (Eff e k) => '(v, s') ← exec e s; Some (mkSys s' w (RCall (k v)) P C)
              | RCall (Ret (Some b)) => Some (mkSys s w (RHold b) P C)
              | RCall (Ret None) => None
              end
  end.

Fixpoint schedule (BufCount : Z) (cs : list choice) (y : sys) : option sys :=
  match cs with
  | [] => Some y
  | c :: cs => y ← advance BufCount c y; schedule BufCount cs y
  end.

Lemma advance_step BufCount c y y' : advance BufCount c y = Some y' -> step BufCount y y'.
Proof.
  destruct y as [s w r P C]. destruct c; cbn.
  - destruct w; [|done]. intros [= <-]. constructor.
  - destruct w as [b|[[b|]|e k]]; intros H; simplify_eq; try constructor.
    destruct (exec e s) as [[v s']|] eqn:He; cbn in H; simplify_eq. by constructor.
  - destruct r as [b|[[b|]|e k]]; intros H; simplify_eq; try constructor.
    destruct (exec e s) as [[v s']|] eqn:He; cbn in H; simplify_eq. by constructor.
Qed.

Lemma schedule_reachable BufCount cs y y' :
  reachable BufCount y -> schedule BufCount cs y = Some y' -> reachable BufCount y'.
Proof.
  revert y. induction cs as [|c cs IH]; intros y Hr; cbn.
  - by intros [= <-].
  - destruct (advance BufCount c y) as [y1|] eqn:Ha; [|done]. cbn. apply IH.
    eapply reach_step; [done|]. by eapply advance_step.
Qed.

(** A thread waits when it is at an access that blocks. *)
Definition writer_waits (y : sys) : Prop :=
  exists e k, writer y = WCall (Eff e k) /\ exec e (shared y) = None.
Definition reader_waits (y : sys) : Prop :=
  exists e k, reader y = RCall (Eff e k) /\ exec e (shared y) = None.

(** Where a whole call ends when it is not interleaved with the other thread. *)
Definition after_acquire (nx : Z) (s : pipe) : pipe :=
  set_buffer nx [] (mkPipe nx (read_idx s) (u32 (full_count s + 1)) (read_event s + 1) 0 (buffers s)).

(** ** Properties *)

(** C5: Delivery.  With three buffers or more, under every interleaving of the
    writer and the reader: the two threads never hold the same buffer, and what
    the reader has consumed is a prefix of what the writer has published --
    every buffer is delivered once, in order, with the contents it was published
    with. *)
Theorem pipe_delivery (BufCount : Z) (y : sys) :
  3 <= BufCount < 2 ^ 32 -> reachable BufCount y ->
  consumed y `prefix_of` published y /\
  (forall b b', writer y = WHold b -> reader y = RHold b' -> b <> b') /\
  (forall b, reader y = RHold b ->
     published y !! length (consumed y) = Some (buffer (shared y) b)).
Proof.
  intros Hn Hr. assert (Hn2 : 2 <= BufCount < 2 ^ 32) by lia.
  pose proof (token_reachable BufCount Hn2 y Hr) as Ht. unfold token_ok in Ht.
  destruct (contents_reachable BufCount Hn2 ltac:(lia) y Hr) as [H1 H2]. split_and!.
  - exists (drop (length (consumed y)) (published y)). rewrite H1 at 1. symmetry. apply take_drop.
  - intros b b' Hw Hrd. rewrite Hw, Hrd in Ht.
    destruct (token_whold _ _ _ _ _ _ Ht) as [-> Hd]. destruct (token_rhold _ _ _ _ _ _ Ht) as [-> Hlt].
    intros E. symmetry in E. revert E. apply slot_differ; lia.
  - intros b Hrd. rewrite Hrd in Ht. destruct (token_rhold _ _ _ _ _ _ Ht) as [-> Hlt]. apply H2. lia.
Qed.

(** A run in which the writer publishes [10; 11], the reader takes it, and the
    writer gets its third buffer while the reader still holds the first. *)
Definition overtaking : list choice :=
  Fill [10; 11] :: replicate 8 Writer ++ replicate 6 Reader ++ replicate 8 Writer.

(** What a schedule leads to, for evaluation. *)
Definition outcome (y : option sys) : option (option Z * option Z * list (list Z) * list (list Z)) :=
  y ← y;
  Some (match writer y with WHold b => Some b | _ => None end,
        match reader y with RHold b => Some b | _ => None end, published y, consumed y).

Lemma outcome_Some BufCount cs w r P C :
  outcome (schedule BufCount cs (sys_init BufCount)) = Some (Some w, r, P, C) ->
  exists y, schedule BufCount cs (sys_init BufCount) = Some y /\ reachable BufCount y /\
            writer y = WHold w /\ (forall b, r = Some b -> reader y = RHold b) /\
            published y = P /\ consumed y = C.
Proof.
  destruct (schedule _ _ _) as [y|] eqn:E; [|done]. intros H. exists y.
  split; [done|]. split; [by eapply schedule_reachable; [apply reach_init|]|].
  unfold outcome in H. cbn in H.
  destruct (writer y) as [b|p], (reader y) as [b'|p']; naive_solver.
Qed.

Lemma pipe_delivery_witness :
  exists y, schedule 3 overtaking (sys_init 3) = Some y /\
            writer y = WHold 2 /\ reader y = RHold 0 /\ consumed y `prefix_of` published y.
Proof.
  destruct (outcome_Some 3 overtaking 2 (Some 0) [[10; 11]; []] []) as (y & E & Hr & Hw & Hrd & _);
    [vm_compute; reflexivity|].
  destruct (pipe_delivery 3 y) as [H _]; [lia|exact Hr|].
  exists y. split; [exact E|]. split; [exact Hw|]. split; [exact (Hrd 0 eq_refl)|exact H].
Defined.

(** With two buffers, the smallest count that does not block at once and the
    one the shipped configuration uses, the exclusion fails: the reader gives
    its credit back before it uses the buffer, so the writer can be handed the
    very buffer the reader holds, and what the reader then sees is not what was
    published. *)
Theorem pipe_race_two_buffers :
  exists y y', reachable 2 y /\ writer y = WHold 0 /\ reader y = RHold 0 /\
               reachable 2 y' /\ ~ consumed y' `prefix_of` published y'.
Proof.
  destruct (outcome_Some 2 overtaking 0 (Some 0) [[10; 11]; []] []) as (y & _ & Hr & Hw & Hrd & _);
    [vm_compute; reflexivity|].
  destruct (outcome_Some 2 (overtaking ++ [Fill [99]; Reader]) 0 None [[10; 11]; []] [[99]])
    as (y' & _ & Hr' & _ & _ & HP & HC); [vm_compute; reflexivity|].
  exists y, y'. split_and!; auto. rewrite HP, HC. intros [k Hk]. discriminate Hk.
Qed.

(** One credit.  [SdpCreate] writes [BufCount - 1] credits, but the first
    read of the eventfd takes them all: however many buffers there are, at most
    one is ever full, and the reader is never more than one acquisition behind
    the buffer the writer works on. *)
Theorem pipe_one_credit (BufCount : Z) (y : sys) :
  2 <= BufCount < 2 ^ 32 -> reachable BufCount y ->
  0 <= full_count (shared y) <= 1 /\ 0 <= read_event (shared y) <= 1 /\
  (length (published y) <= length (consumed y) + 3)%nat.
Proof.
  intros Hn Hr. exact (token_bounds _ _ _ _ _ _ (token_reachable BufCount Hn y Hr)).
Qed.

Lemma pipe_one_credit_witness :
  exists y, schedule 8 overtaking (sys_init 8) = Some y /\ full_count (shared y) <= 1.
Proof.
  destruct (outcome_Some 8 overtaking 2 (Some 0) [[10; 11]; []] []) as (y & E & Hr & _);
    [vm_compute; reflexivity|].
  destruct (pipe_one_credit 8 y) as [[_ H] _]; [lia|exact Hr|].
  exists y. split; [exact E|exact H].
Defined.

(** Progress.  With two buffers or more the threads never wait for each
    other at the same time; with a single buffer the pipe is created without a
    credit, and after the writer's first request both wait for ever. *)
Theorem pipe_progress (BufCount : Z) :
  1 <= BufCount < 2 ^ 32 ->
  (2 <= BufCount -> forall y, reachable BufCount y -> ~ (writer_waits y /\ reader_waits y)) /\
  (BufCount = 1 -> exists y, reachable BufCount y /\ (forall y', ~ step BufCount y y')).
Proof.
  intros Hn. split.
  - intros H2 y Hr [(e & k & Hw & He) (e' & k' & Hrd & He')].
    pose proof (token_reachable BufCount ltac:(lia) y Hr) as Ht. unfold token_ok in Ht.
    rewrite Hw, Hrd in Ht. by eapply token_not_stuck.
  - intros ->. eexists. split.
    + eapply (schedule_reachable 1 [Writer; Writer]); [apply reach_init|]. cbn. reflexivity.
    + intros y' Hs. inversion Hs; subst; cbn in *; discriminate.
Qed.

Lemma pipe_progress_witness :
  exists y, reachable 1 y /\ (forall y', ~ step 1 y y').
Proof. destruct (pipe_progress 1) as [_ H]; [lia|]. exact (H eq_refl). Defined.

(** [SdPipeFlush] run alone.  An empty current buffer is left as it is; a
    non-empty one is handed over exactly as [SdPipeGetWriteBuffer] would -- same
    final state, when a credit is available -- but its caller is not told which
    buffer is current now; and without a credit it blocks. *)
Theorem SdPipeFlush_spec (BufCount : Z) (s : pipe) :
  0 <= write_event s ->
  let cur := write_idx s in
  let nx := u32 (cur + 1) mod u32 BufCount in
  run_alone (SdPipeFlush BufCount) s =
    (if (length (buffer s cur) =? 0)%nat then Some (tt, s)
     else if write_event s =? 0 then None
     else Some (tt, after_acquire nx s)) /\
  run_alone (SdPipeGetWriteBuffer BufCount) s =
    (if write_event s =? 0 then None else Some (Some nx, after_acquire nx s)).
Proof.
  intros He. cbv zeta. split.
  - cbn. destruct (Nat.eqb_spec (length (buffer s (write_idx s))) 0) as [->|Hl]; [done|].
    rewrite (proj2 (Z.ltb_lt _ _)) by lia. cbn.
    destruct (Z.eqb_spec (write_event s) 0); [done|]. cbn.
    rewrite (proj2 (Z.eqb_neq _ _)) by lia. done.
  - cbn. destruct (Z.eqb_spec (write_event s) 0); [done|]. cbn.
    rewrite (proj2 (Z.eqb_neq _ _)) by lia. done.
Qed.

Lemma SdPipeFlush_spec_witness :
  run_alone (SdPipeFlush 3) (mkPipe 2 1 0 0 1 [[]; []; [5]]) = Some (tt, mkPipe 0 1 1 1 0 [[]; []; [5]]).
Proof.
  destruct (SdPipeFlush_spec 3 (mkPipe 2 1 0 0 1 [[]; []; [5]])) as [H _]; [cbn; lia|]. exact H.
Defined.
