(* ===== verification/PipeCreate.v ===== *)
(** * Creating a pipe: [src/src/sdhs/Common/SensorDataPipe.c]

    [SdpCreate] and [SdpDestroy], over the arenas of [UArena] (the macros of
    [sdhs_arena.h] with the arena of the build), the allocator of [Os] and the
    event counters of the kernel.  [Pipe] has what is done with the pipe after
    its creation. *)

From S2P Require Import Prelude.
From S2P Require Import Memory.
From S2P Require Import Os.
From S2P Require Import UArena.
#[local] Open Scope Z_scope.

(** ** The process with its event descriptors *)

Record sys := mkSys {
  sys_os : os;
  sys_events : gmap Z Z;        (* the counter behind each open [eventfd] *)
}.

(** [None] is a fault, as in [M] and [P]. *)
Definition Y (A : Type) : Type := sys -> option (A * sys).
#[export] Instance Y_ret : MRet Y := fun A a y => Some (a, y).
#[export] Instance Y_bind : MBind Y := fun A B f c y =>
  match c y with
  | Some (a, y) => f a y
  | None => None
  end.

Definition in_process {A} (c : P A) : Y A := fun y =>
  match c (sys_os y) with
  | Some (a, o) => Some (a, mkSys o (sys_events y))
  | None => None
  end.

Definition in_memory {A} (c : M A) : Y A := in_process (lift c).

Definition load32 (a : Z) : M Z := fun m =>
  l ← read_bytes m a 4; Some (le_decode l, m).
Definition store32 (a v : Z) : M unit := fun m =>
  m' ← write_bytes m a (le_encode 4 v); Some (tt, m').

(** ** The struct *)

Definition sizeof_sensor_data_pipe : Z := 64.
Definition p_WriteBufIdx (p : Z) : Z := p + 24.
Definition p_ReadBufIdx (p : Z) : Z := p + 28.
Definition p_FullBuffersCount (p : Z) : Z := p + 32.
Definition p_ReadEventFd (p : Z) : Z := p + 36.
Definition p_WriteEventFd (p : Z) : Z := p + 40.
Definition p_BufCount (p : Z) : Z := p + 48.
Definition p_Buffers (p : Z) : Z := p + 56.

Section Functions.
Variable place : os -> block_kind -> Z -> option Z.
Variable junk : Z -> Z.
Variable cacheln_sz : Z.
(** The descriptor the kernel gives to a new [eventfd], [None] on failure. *)
Variable new_fd : gmap Z Z -> option Z.
(** The address of the local variable [Arena] of [SdpCreate]. *)
Variable Arena_cell : Z.

Definition eventfd (initval : Z) : Y Z := fun y =>
  match new_fd (sys_events y) with
  | Some fd => Some (fd, mkSys (sys_os y) (<[fd := initval]> (sys_events y)))
  | None => Some (-1, y)
  end.

(** [write(fd, &v, 8)]: adds to the counter; 2^64-1 is refused, and a counter
    that would pass 2^64-2 blocks the caller (no result). *)
Definition eventfd_write (fd v : Z) : Y Z := fun y =>
  match sys_events y !! fd with
  | None => Some (-1, y)
  | Some c =>
      if v =? 2 ^ 64 - 1 then Some (-1, y)
      else if c + v <=? 2 ^ 64 - 2 then Some (8, mkSys (sys_os y) (<[fd := c + v]> (sys_events y)))
      else None
  end.

Definition close (fd : Z) : Y unit := fun y => Some (tt, mkSys (sys_os y) (delete fd (sys_events y))).

(** The loop from index [b] on, [n] iterations. *)
Fixpoint make_buffers (Arena Pipe BufSize b : Z) (n : nat) : M unit :=
  match n with
  | O => mret tt
  | S n =>
      Buffer ← ua_bootstrap Arena NULL BufSize;
      Buffers ← load64 (p_Buffers Pipe);
      store64 (Buffers +64 (8 *64 b)) Buffer;;
      make_buffers Arena Pipe BufSize (b + 1) n
  end.

Definition SdpPipeSize (BufCount BufSize : Z) : Z :=
  let SdpSz := sizeof_sensor_data_pipe in
  let ArenaPsSz := BufCount *64 8 in
  let ArenasSz := BufCount *64 sizeof_UArena in
  let BufsSz := BufCount *64 BufSize in
  SdpSz +64 ArenaPsSz +64 ArenasSz +64 BufsSz.

(** The pipe and its buffers on the arena, before the descriptors. *)
Definition lay_out (Arena BufCount BufSize : Z) : M Z :=
  Pipe ← ua_alloc Arena (sizeof_sensor_data_pipe *64 1);
  Buffers ← ua_alloc Arena (8 *64 BufCount);
  store64 (p_Buffers Pipe) Buffers;;
  make_buffers Arena Pipe BufSize 0 (Z.to_nat BufCount);;
  mret Pipe.

(** The body once [Arena] is known. *)
Definition SdpCreate_on (UsingArena : bool) (Arena BufCount BufSize : Z) : Y Z :=
  ArenaF5 ← in_memory (ua_pos Arena);
  Pipe ← in_memory (lay_out Arena BufCount BufSize);
  ReadEventFd ← eventfd 0;
  in_memory (store32 (p_ReadEventFd Pipe) ReadEventFd);;
  WriteEventFd ← eventfd 0;
  in_memory (store32 (p_WriteEventFd Pipe) WriteEventFd);;
  if (ReadEventFd =? -1) || (WriteEventFd =? -1) then
    (if UsingArena then in_memory (ua_seek Arena ArenaF5);; mret tt
     else in_memory (store64 Arena_cell Arena);; in_process (ua_destroy cacheln_sz Arena_cell));;
    mret NULL
  else
    in_memory (store32 (p_WriteBufIdx Pipe) 0;;
               store32 (p_ReadBufIdx Pipe) 0;;
               store32 (p_FullBuffersCount Pipe) 0;;
               store64 (p_BufCount Pipe) BufCount);;
    eventfd_write WriteEventFd (BufCount -64 1);;
    mret Pipe.

Definition SdpCreate (BufCount BufSize Arena_ : Z) : Y Z :=
  let UsingArena := negb (Arena_ =? NULL) in
  Arena ← (if UsingArena then mret Arena_
           else in_process (ua_create place junk cacheln_sz (SdpPipeSize BufCount BufSize) true false));
  SdpCreate_on UsingArena Arena BufCount BufSize.

Definition SdpDestroy (Pipe : Z) (AllocatedWithArena : bool) : Y unit :=
  r ← in_memory (load32 (p_ReadEventFd Pipe)); close (s32 r);;
  w ← in_memory (load32 (p_WriteEventFd Pipe)); close (s32 w);;
  if negb AllocatedWithArena then in_process (free Pipe) else mret tt.
End Functions.

(** ** Lemmas: 32-bit fields *)

Definition half_at (m : mem) (a v : Z) : Prop := read_bytes m a 4 = Some (le_encode 4 v).

Lemma store32_half m a v :
  mapped m a 4 ->
  exists m', store32 a v m = Some (tt, m') /\ agree_outside a 4 m m' /\ half_at m' a v.
Proof.
  intros Hm. destruct (write_bytes_is_Some m a (le_encode 4 v)) as [m' Hw]; [done|].
  exists m'. unfold store32. rewrite Hw. split_and!; [done| |].
  - exact (write_bytes_agree _ _ _ _ Hw).
  - exact (read_write_same _ _ _ _ Hw).
Qed.

Lemma half_at_frame W m m' a v :
  frame W m m' -> (forall x, a <= x < a + 4 -> ~ W x) -> half_at m a v -> half_at m' a v.
Proof. intros Hf Hd. unfold half_at. by rewrite (read_bytes_frame _ _ _ _ _ Hf) by done. Qed.

Lemma load32_half m a v : half_at m a v -> load32 a m = Some (le_decode (le_encode 4 v), m).
Proof. unfold half_at, load32. by intros ->. Qed.

(** ** Lemmas: the buffers *)

(** Buffer [i] of a run that starts where the arena [a] stands. *)
Definition buffer_addr (a : UArena) (BufSize i : Z) : Z :=
  ua_mem a + ua_cur a + i * (sizeof_UArena + BufSize).

Definition buffer_arena (a : UArena) (BufSize i : Z) : UArena :=
  mkUArena (flag_bits false false true) BufSize 0 (buffer_addr a BufSize i + sizeof_UArena).

Lemma buffer_addr_next a BufSize c i :
  c = ua_cur a + sizeof_UArena + BufSize ->
  buffer_addr (with_cur a c) BufSize i = buffer_addr a BufSize (i + 1).
Proof. intros ->. unfold buffer_addr. cbn. lia. Qed.

Definition buffers_made (a : UArena) (bufs BufSize b : Z) (n : nat) (m : mem) : Prop :=
  forall i, 0 <= i < Z.of_nat n ->
    word_at m (bufs + 8 * (b + i)) (buffer_addr a BufSize i) /\
    arena_at m (buffer_addr a BufSize i) (buffer_arena a BufSize i) /\
    wf_arena m (buffer_addr a BufSize i) (buffer_arena a BufSize i).

(** What the run may write: the arena's cursor, its part of the pointer array
    and the blocks of the buffers. *)
Definition made_footprint (p : Z) (a : UArena) (bufs BufSize b : Z) (n : nat) (x : Z) : Prop :=
  p_cur p <= x < p_cur p + 8 \/
  bufs + 8 * b <= x < bufs + 8 * (b + Z.of_nat n) \/
  ua_mem a + ua_cur a <= x < buffer_addr a BufSize (Z.of_nat n).

Lemma make_buffers_spec p Pipe bufs BufSize n :
  forall b m a,
  arena_at m p a -> wf_arena m p a -> 0 <= BufSize -> 0 <= b ->
  ua_cur a + Z.of_nat n * (sizeof_UArena + BufSize) <= ua_cap a ->
  word_at m (p_Buffers Pipe) bufs ->
  ua_mem a <= Pipe -> Pipe + sizeof_sensor_data_pipe <= bufs ->
  bufs + 8 * (b + Z.of_nat n) <= ua_mem a + ua_cur a ->
  exists m', make_buffers p Pipe BufSize b n m = Some (tt, m') /\
    arena_at m' p (with_cur a (ua_cur a + Z.of_nat n * (sizeof_UArena + BufSize))) /\
    buffers_made a bufs BufSize b n m' /\
    frame (made_footprint p a bufs BufSize b n) m m'.
Proof.
  induction n as [|n IH]; intros b m a Ha Hwf HB Hb Hfit Hw Hlo Hpb Harr.
  { exists m. split_and!; [done| |intros i Hi; lia|done].
    replace (ua_cur a + _) with (ua_cur a) by lia. by destruct a. }
  pose proof Hwf as [Hc Hbuf Hm Hap]. unfold sizeof_sensor_data_pipe, p_Buffers in *.
  pose proof (arena_at_ranges _ _ _ Ha) as (_ & ? & ? & ?).
  assert (Hn : 0 <= Z.of_nat n * (sizeof_UArena + BufSize)) by (unfold sizeof_UArena; nia).
  assert (Hsucc : Z.of_nat (S n) * (sizeof_UArena + BufSize)
                  = sizeof_UArena + BufSize + Z.of_nat n * (sizeof_UArena + BufSize)) by lia.
  rewrite Hsucc in *.
  destruct (ua_bootstrap_fits m p a BufSize) as (m1 & S1 & A1 & W1 & P1 & F1);
    [done..|unfold sizeof_UArena in *; lia|].
  set (c1 := ua_cur a + sizeof_UArena + BufSize) in *.
  cbn [make_buffers]. M_step S1.
  assert (Hw1 : word_at m1 (Pipe + 56) bufs).
  { eapply word_at_frame; [exact F1| |exact Hw]. unfold in_block, p_cur, sizeof_UArena in *.
    intros x Hx. lia. }
  M_load Hw1. rewrite !u64_small by (rewrite ?u64_small; lia).
  destruct (store64_word m1 (bufs + 8 * b) (ua_mem a + ua_cur a)) as (m2 & S2 & G2 & W2).
  { eapply frame_mapped; [exact F1|]. eapply mapped_sub; [exact Hm|lia..]. }
  { lia. }
  M_step S2.
  assert (F2 : frame (fun x => bufs + 8 * b <= x < bufs + 8 * b + 8) m1 m2)
    by (by eapply agree_outside_frame; [exact G2|]).
  assert (Hwf2 : wf_arena m2 p (with_cur a c1)).
  { split; cbn; [unfold c1, sizeof_UArena in *; lia|done| |done].
    eapply frame_mapped; [exact F2|]. by eapply frame_mapped. }
  destruct (IH (b + 1) m2 (with_cur a c1)) as (m' & S & A & B & F);
    [eapply arena_at_frame; [exact F2|unfold sizeof_UArena in *; lia|exact P1]|done|done|lia
    |cbn; unfold c1; lia|eapply word_at_frame; [exact F2|unfold p_Buffers; lia|exact Hw1]|done|done
    |cbn; unfold c1, sizeof_UArena; lia|].
  exists m'. split; [exact S|]. cbn [with_cur ua_cur ua_mem ua_cap ua_flags] in A.
  assert (Hout : forall x, ua_mem a + ua_cur a <= x < ua_mem a + c1 \/ bufs + 8 * b <= x < bufs + 8 * b + 8 ->
            ~ made_footprint p (with_cur a c1) bufs BufSize (b + 1) n x).
  { intros x Hx. unfold made_footprint. cbn [with_cur ua_cur ua_mem].
    unfold c1, p_cur, sizeof_UArena in *. lia. }
  split_and!.
  - replace (ua_cur a + _) with (c1 + Z.of_nat n * (sizeof_UArena + BufSize))
      by (unfold c1; lia). exact A.
  - intros i Hi. destruct (Z.eq_dec i 0) as [->|Hi0].
    + assert (E0 : buffer_addr a BufSize 0 = ua_mem a + ua_cur a) by (unfold buffer_addr; lia).
      unfold buffer_arena. rewrite E0. rewrite Z.add_0_r.
      assert (Hkeep : forall x, ua_mem a + ua_cur a <= x < ua_mem a + c1 -> ~ (bufs + 8 * b <= x < bufs + 8 * b + 8))
        by (unfold sizeof_UArena in *; lia).
      split_and!.
      * eapply word_at_frame; [exact F| |exact W2]. intros x Hx. apply Hout. lia.
      * eapply arena_at_frame; [exact F| |]; [intros x Hx; apply Hout; unfold c1, sizeof_UArena in *; lia|].
        eapply arena_at_frame; [exact F2| |exact A1]. unfold c1, sizeof_UArena in *. lia.
      * destruct W1 as [K1 K2 K3 K4]. split; [done..| |done].
        eapply frame_mapped; [exact F|]. by eapply frame_mapped.
    + destruct (B (i - 1)) as (B1 & B2 & B3); [lia|].
      rewrite (buffer_addr_next a BufSize c1 (i - 1) eq_refl) in B1, B2, B3.
      unfold buffer_arena in *. rewrite (buffer_addr_next a BufSize c1 (i - 1) eq_refl) in B2, B3.
      replace (i - 1 + 1) with i in * by lia. replace (b + 1 + (i - 1)) with (b + i) in B1 by lia. done.
  - trans m1; [eapply frame_mono; [exact F1|]|trans m2; [eapply frame_mono; [exact F2|]|eapply frame_mono; [exact F|]]];
      intros x Hx; unfold made_footprint, in_block, buffer_addr in *; cbn [with_cur ua_cur ua_mem] in *;
      unfold c1, sizeof_UArena in *; lia.
Qed.

(** Where the arena stands when the struct and the pointer array are on it, and
    when the whole pipe is. *)
Definition after_array (a : UArena) (BufCount : Z) : UArena :=
  with_cur a (ua_cur a + sizeof_sensor_data_pipe + 8 * BufCount).

Definition pipe_end (a : UArena) (BufCount BufSize : Z) : Z :=
  ua_cur a + sizeof_sensor_data_pipe + 8 * BufCount + BufCount * (sizeof_UArena + BufSize).

Definition laid_out (a : UArena) (BufCount BufSize : Z) (m : mem) : Prop :=
  let Pipe := ua_mem a + ua_cur a in
  let bufs := Pipe + sizeof_sensor_data_pipe in
  word_at m (p_Buffers Pipe) bufs /\
  buffers_made (after_array a BufCount) bufs BufSize 0 (Z.to_nat BufCount) m.

Definition pipe_footprint (p : Z) (a : UArena) (BufCount BufSize x : Z) : Prop :=
  p_cur p <= x < p_cur p + 8 \/ ua_mem a + ua_cur a <= x < ua_mem a + pipe_end a BufCount BufSize.

Lemma lay_out_spec m p a BufCount BufSize :
  arena_at m p a -> wf_arena m p a -> 0 <= BufCount -> 0 <= BufSize ->
  pipe_end a BufCount BufSize <= ua_cap a ->
  exists m', lay_out p BufCount BufSize m = Some (ua_mem a + ua_cur a, m') /\
    arena_at m' p (with_cur a (pipe_end a BufCount BufSize)) /\
    laid_out a BufCount BufSize m' /\
    frame (pipe_footprint p a BufCount BufSize) m m'.
Proof.
  intros Ha Hwf Hn HB Hfit. pose proof Hwf as [Hc Hb Hm Hap].
  pose proof (arena_at_ranges _ _ _ Ha) as (_ & ? & ? & ?).
  assert (Hmul : 0 <= BufCount * (sizeof_UArena + BufSize)) by (unfold sizeof_UArena; nia).
  unfold lay_out, laid_out, pipe_end, pipe_footprint, after_array, sizeof_sensor_data_pipe, p_Buffers in *.
  rewrite (u64_small (64 * 1)), (u64_small (8 * BufCount)) by lia.
  destruct (ua_alloc_fits m p a 64 Ha) as (m1 & S1 & G1 & A1); [rewrite u64_small; lia|].
  rewrite !u64_small in * by lia. M_step S1.
  destruct (ua_alloc_fits m1 p _ (8 * BufCount) A1) as (m2 & S2 & G2 & A2); cbn [with_cur ua_cur ua_cap ua_mem ua_flags] in *;
    [rewrite u64_small; lia|].
  rewrite !u64_small in * by lia. M_step S2.
  assert (F : frame (fun x => p_cur p <= x < p_cur p + 8) m m2).
  { trans m1; [by eapply agree_outside_frame; [exact G1|]|by eapply agree_outside_frame; [exact G2|]]. }
  destruct (store64_word m2 (ua_mem a + ua_cur a + 56) (ua_mem a + (ua_cur a + 64))) as (m3 & S3 & G3 & W3);
    [eapply frame_mapped; [exact F|]; eapply mapped_sub; [exact Hm|lia..]|lia|].
  M_step S3.
  assert (F3 : frame (fun x => ua_mem a + ua_cur a + 56 <= x < ua_mem a + ua_cur a + 56 + 8) m2 m3)
    by (by eapply agree_outside_frame; [exact G3|]).
  set (a0 := mkUArena (ua_flags a) (ua_cap a) (ua_cur a + 64 + 8 * BufCount) (ua_mem a)) in *.
  destruct (make_buffers_spec p (ua_mem a + ua_cur a) (ua_mem a + (ua_cur a + 64)) BufSize
              (Z.to_nat BufCount) 0 m3 a0) as (m' & S & A & B & F');
    [eapply arena_at_frame; [exact F3|unfold sizeof_UArena in *; lia|exact A2]| |done|done
    |cbn; rewrite Z2Nat.id by lia; lia|exact W3|cbn; lia|unfold sizeof_sensor_data_pipe; lia|cbn; lia|].
  { split; cbn; [lia|done| |done]. eapply frame_mapped; [exact F3|]. by eapply frame_mapped. }
  rewrite Z2Nat.id in A by lia. unfold with_cur, buffers_made in *. cbn [ua_cur ua_cap ua_mem ua_flags a0] in *.
  replace (ua_mem a + ua_cur a + 64) with (ua_mem a + (ua_cur a + 64)) by lia.
  exists m'. split_and!.
  - M_step S. done.
  - exact A.
  - eapply word_at_frame; [exact F'| |exact W3]. intros x Hx. unfold made_footprint, p_cur, sizeof_UArena in *.
    cbn [a0 ua_cur ua_mem]. lia.
  - exact B.
  - trans m2; [eapply frame_mono; [exact F|]|trans m3; [eapply frame_mono; [exact F3|]|eapply frame_mono; [exact F'|]]];
      intros x Hx; cbv beta in *; unfold made_footprint, pipe_end, sizeof_sensor_data_pipe, buffer_addr in *; cbn [a0 ua_cur ua_mem] in *;
      rewrite ?Z2Nat.id in Hx by lia; lia.
Qed.

(** ** Lemmas: the descriptors *)

Lemma Y_bind_Some {A B} (c : Y A) (f : A -> Y B) y a y' :
  c y = Some (a, y') -> (c ≫= f) y = f a y'.
Proof. unfold mbind, Y_bind. by intros ->. Qed.

Lemma in_memory_Some {A} (c : M A) o ev a m' :
  c (os_mem o) = Some (a, m') ->
  in_memory c (mkSys o ev) = Some (a, mkSys (mkOs m' (os_blocks o)) ev).
Proof. intros H. unfold in_memory, in_process, lift. cbn. by rewrite H. Qed.

Ltac Y_step H := rewrite (Y_bind_Some _ _ _ _ _ H).
Ltac Y_mem H :=
  match goal with
  | |- mbind _ _ (mkSys ?o ?ev) = _ =>
      rewrite (Y_bind_Some _ _ _ _ _ (in_memory_Some _ o ev _ _ H)); cbn [os_mem os_blocks]
  end.

(** A 32-bit field of the struct, which lies in the part of the buffer that the
    arena has given out. *)
Lemma store_pipe_field m Pipe k v :
  mapped m Pipe sizeof_sensor_data_pipe -> 24 <= k -> k + 4 <= 44 ->
  exists m', store32 (Pipe + k) v m = Some (tt, m') /\ half_at m' (Pipe + k) v /\
             frame (fun x => Pipe + k <= x < Pipe + k + 4) m m'.
Proof.
  intros Hm Hk Hk'. destruct (store32_half m (Pipe + k) v) as (m' & S & G & W).
  { eapply mapped_sub; [exact Hm|unfold sizeof_sensor_data_pipe; lia..]. }
  exists m'. split_and!; [done|done|]. by eapply agree_outside_frame; [exact G|].
Qed.

(** The scalar fields that [SdpCreate] fills. *)
Record pipe_fields (m : mem) (Pipe rfd wfd BufCount : Z) : Prop := {
  pf_read_fd : half_at m (p_ReadEventFd Pipe) rfd;
  pf_write_fd : half_at m (p_WriteEventFd Pipe) wfd;
  pf_write_idx : half_at m (p_WriteBufIdx Pipe) 0;
  pf_read_idx : half_at m (p_ReadBufIdx Pipe) 0;
  pf_full : half_at m (p_FullBuffersCount Pipe) 0;
  pf_count : word_at m (p_BufCount Pipe) BufCount;
}.

(** The fields between [WriteBufIdx] and [BufCount]. *)
Definition scalars (Pipe x : Z) : Prop := Pipe + 24 <= x < Pipe + 56.

Lemma fill_fields m Pipe rfd wfd BufCount :
  mapped m Pipe sizeof_sensor_data_pipe -> 0 <= BufCount < 2 ^ 64 ->
  exists m1 m2 m3,
    store32 (p_ReadEventFd Pipe) rfd m = Some (tt, m1) /\
    store32 (p_WriteEventFd Pipe) wfd m1 = Some (tt, m2) /\
    (store32 (p_WriteBufIdx Pipe) 0;; store32 (p_ReadBufIdx Pipe) 0;;
     store32 (p_FullBuffersCount Pipe) 0;; store64 (p_BufCount Pipe) BufCount) m2 = Some (tt, m3) /\
    pipe_fields m3 Pipe rfd wfd BufCount /\ frame (scalars Pipe) m m2 /\ frame (scalars Pipe) m m3.
Proof.
  intros Hm Hn.
  unfold p_ReadEventFd, p_WriteEventFd, p_WriteBufIdx, p_ReadBufIdx, p_FullBuffersCount, p_BufCount.
  assert (Hk : forall m', frame (scalars Pipe) m m' -> mapped m' Pipe sizeof_sensor_data_pipe)
    by (intros; by eapply frame_mapped).
  assert (Hsub : forall k m1 m2, 24 <= k -> k + 4 <= 44 ->
            frame (fun x => Pipe + k <= x < Pipe + k + 4) m1 m2 -> frame (scalars Pipe) m1 m2).
  { intros k m1 m2 ? ? F. eapply frame_mono; [exact F|]. unfold scalars. lia. }
  destruct (store_pipe_field m Pipe 36 rfd Hm) as (m1 & S1 & W1 & F1); [lia..|].
  pose proof (Hsub 36 _ _ ltac:(lia) ltac:(lia) F1) as G1.
  destruct (store_pipe_field m1 Pipe 40 wfd (Hk _ G1)) as (m2 & S2 & W2 & F2); [lia..|].
  assert (G2 : frame (scalars Pipe) m m2) by (etrans; [exact G1|by apply (Hsub 40)]).
  destruct (store_pipe_field m2 Pipe 24 0 (Hk _ G2)) as (m3 & S3 & W3 & F3); [lia..|].
  assert (G3 : frame (scalars Pipe) m m3) by (etrans; [exact G2|by apply (Hsub 24)]).
  destruct (store_pipe_field m3 Pipe 28 0 (Hk _ G3)) as (m4 & S4 & W4 & F4); [lia..|].
  assert (G4 : frame (scalars Pipe) m m4) by (etrans; [exact G3|by apply (Hsub 28)]).
  destruct (store_pipe_field m4 Pipe 32 0 (Hk _ G4)) as (m5 & S5 & W5 & F5); [lia..|].
  assert (G5 : frame (scalars Pipe) m m5) by (etrans; [exact G4|by apply (Hsub 32)]).
  destruct (store64_word m5 (Pipe + 48) BufCount) as (m6 & S6 & A6 & W6); [|done|].
  { eapply mapped_sub; [exact (Hk _ G5)|unfold sizeof_sensor_data_pipe; lia..]. }
  assert (F6 : frame (fun x => Pipe + 48 <= x < Pipe + 48 + 8) m5 m6)
    by (by eapply agree_outside_frame; [exact A6|]).
  exists m1, m2, m6. split_and!; [done|done| | |done|].
  - M_step S3. M_step S4. M_step S5. exact S6.
  - constructor; [..|exact W6].
    all: unfold p_ReadEventFd, p_WriteEventFd, p_WriteBufIdx, p_ReadBufIdx, p_FullBuffersCount.
    all: clear G1 G2 G3 G4 G5; repeat (eapply half_at_frame; [eassumption|cbv beta; lia|]); eassumption.
  - etrans; [exact G5|]. eapply frame_mono; [exact F6|]. unfold scalars. lia.
Qed.

Section Spec.
Context (place : os -> block_kind -> Z -> option Z) (junk : Z -> Z) (cacheln_sz : Z).
Context (new_fd : gmap Z Z -> option Z) (Arena_cell : Z).

#[local] Abbreviation create_on := (SdpCreate_on cacheln_sz new_fd Arena_cell).
#[local] Abbreviation create := (SdpCreate place junk cacheln_sz new_fd Arena_cell).

Lemma pipe_mapped m p a BufCount BufSize :
  wf_arena m p a -> 0 <= BufCount -> 0 <= BufSize -> pipe_end a BufCount BufSize <= ua_cap a ->
  0 <= BufCount * (sizeof_UArena + BufSize) /\ mapped m (ua_mem a + ua_cur a) sizeof_sensor_data_pipe.
Proof.
  intros [Hc Hb Hm _] Hn HB Hfit.
  assert (0 <= BufCount * (sizeof_UArena + BufSize)) by (unfold sizeof_UArena; nia).
  split; [done|]. unfold pipe_end, sizeof_sensor_data_pipe in *. eapply mapped_sub; [exact Hm|lia..].
Qed.

(** The scalar fields are apart from everything that [laid_out] describes. *)
Lemma laid_out_frame a BufCount BufSize m m' :
  0 <= BufCount -> 0 <= BufSize ->
  frame (scalars (ua_mem a + ua_cur a)) m m' ->
  laid_out a BufCount BufSize m -> laid_out a BufCount BufSize m'.
Proof.
  intros Hn HB F [Hw Hb]. unfold laid_out, buffers_made, p_Buffers, sizeof_sensor_data_pipe in *. split.
  - eapply word_at_frame; [exact F|unfold scalars; lia|exact Hw].
  - intros i Hi. destruct (Hb i Hi) as (B1 & B2 & B3).
    assert (Hat : ua_mem a + ua_cur a + 64 <= buffer_addr (after_array a BufCount) BufSize i).
    { unfold buffer_addr, after_array, sizeof_sensor_data_pipe, sizeof_UArena. cbn. nia. }
    split_and!.
    + eapply word_at_frame; [exact F|unfold scalars; lia|exact B1].
    + eapply arena_at_frame; [exact F|unfold scalars; lia|exact B2].
    + destruct B3. split; [done..| |done]. by eapply frame_mapped.
Qed.

Lemma arena_scalars m m' p a c :
  wf_arena m p a -> 0 <= c -> ua_cur a + 64 <= ua_cap a ->
  frame (scalars (ua_mem a + ua_cur a)) m m' ->
  arena_at m p (with_cur a c) -> arena_at m' p (with_cur a c).
Proof.
  intros [Hc _ _ Hap] ? ? F A. eapply arena_at_frame; [exact F| |exact A]. unfold scalars. lia.
Qed.

Lemma eventfd_granted initval o ev fd :
  new_fd ev = Some fd -> eventfd new_fd initval (mkSys o ev) = Some (fd, mkSys o (<[fd := initval]> ev)).
Proof. intros H. unfold eventfd. cbn. by rewrite H. Qed.

Lemma eventfd_write_fresh fd v o ev :
  0 <= v <= 2 ^ 64 - 2 ->
  eventfd_write fd v (mkSys o (<[fd := 0]> ev)) = Some (8, mkSys o (<[fd := v]> ev)).
Proof.
  intros Hv. unfold eventfd_write. cbn. rewrite lookup_insert_eq.
  rewrite (proj2 (Z.eqb_neq _ _)), (proj2 (Z.leb_le _ _)) by lia. by rewrite insert_insert_eq.
Qed.

(** On any arena with room, with both descriptors granted. *)
Lemma SdpCreate_on_ok used p a o ev BufCount BufSize rfd wfd :
  arena_at (os_mem o) p a -> wf_arena (os_mem o) p a -> 0 < BufCount -> 0 <= BufSize ->
  pipe_end a BufCount BufSize <= ua_cap a ->
  new_fd ev = Some rfd -> new_fd (<[rfd := 0]> ev) = Some wfd -> rfd <> -1 -> wfd <> -1 ->
  let Pipe := ua_mem a + ua_cur a in
  exists m', create_on used p BufCount BufSize (mkSys o ev) =
      Some (Pipe, mkSys (mkOs m' (os_blocks o)) (<[wfd := BufCount - 1]> (<[rfd := 0]> ev))) /\
    arena_at m' p (with_cur a (pipe_end a BufCount BufSize)) /\
    laid_out a BufCount BufSize m' /\ pipe_fields m' Pipe rfd wfd BufCount /\
    frame (pipe_footprint p a BufCount BufSize) (os_mem o) m'.
Proof.
  intros Ha Hwf Hn HB Hfit Hr Hw Hr1 Hw1 Pipe.
  destruct o as [m0 bs]. cbn [os_mem os_blocks] in *.
  pose proof (arena_at_ranges _ _ _ Ha) as (_ & ? & ? & ?).
  destruct (pipe_mapped _ _ _ BufCount BufSize Hwf) as [Hmul Hpm]; [lia..|].
  destruct (lay_out_spec _ _ _ BufCount BufSize Ha Hwf) as (m1 & S1 & A1 & L1 & F1); [lia..|].
  destruct (fill_fields m1 Pipe rfd wfd BufCount) as (m2 & m3 & m4 & S2 & S3 & S4 & P4 & _ & F4);
    [by eapply frame_mapped|unfold pipe_end, sizeof_sensor_data_pipe in *; lia|].
  exists m4. split_and!.
  - unfold SdpCreate_on. Y_mem (ua_pos_spec _ _ _ Ha). Y_mem S1.
    Y_step (eventfd_granted 0 (mkOs m1 bs) ev rfd Hr). Y_mem S2.
    Y_step (eventfd_granted 0 (mkOs m2 bs) _ wfd Hw). Y_mem S3.
    rewrite (proj2 (Z.eqb_neq _ _) Hr1), (proj2 (Z.eqb_neq _ _) Hw1). cbn [orb].
    Y_mem S4. rewrite u64_small by (unfold pipe_end, sizeof_sensor_data_pipe in *; lia).
    Y_step (eventfd_write_fresh wfd (BufCount - 1) (mkOs m4 bs) (<[rfd := 0]> ev)
              ltac:(unfold pipe_end, sizeof_sensor_data_pipe in *; lia)). done.
  - eapply arena_at_frame; [exact F4| |exact A1]. destruct Hwf as [Hc _ _ Hap].
    unfold scalars, Pipe, pipe_end, sizeof_sensor_data_pipe in *. lia.
  - eapply laid_out_frame; [lia|done|exact F4|exact L1].
  - exact P4.
  - etrans; [exact F1|]. eapply frame_mono; [exact F4|].
    unfold scalars, pipe_footprint, Pipe, pipe_end, sizeof_sensor_data_pipe in *. lia.
Qed.

(** The size that [SdpCreate] asks of its own arena is the size of the pipe. *)
Lemma SdpPipeSize_end flags cap mem BufCount BufSize :
  0 <= BufCount -> 0 <= BufSize -> 64 + BufCount * (40 + BufSize) < 2 ^ 64 ->
  SdpPipeSize BufCount BufSize = 64 + BufCount * (40 + BufSize) /\
  pipe_end (mkUArena flags cap 0 mem) BufCount BufSize = SdpPipeSize BufCount BufSize.
Proof.
  intros Hn HB Hov.
  assert (0 <= BufCount * BufSize) by nia.
  assert (E : SdpPipeSize BufCount BufSize = 64 + BufCount * (40 + BufSize)).
  { unfold SdpPipeSize, sizeof_sensor_data_pipe, sizeof_UArena. rewrite (u64_small (BufCount * 8)) by lia.
    rewrite (u64_small (BufCount * 32)), (u64_small (BufCount * BufSize)) by lia.
    rewrite (u64_small (64 + BufCount * 8)), (u64_small (64 + BufCount * 8 + BufCount * 32)) by lia.
    rewrite u64_small; lia. }
  split; [exact E|]. rewrite E. unfold pipe_end, sizeof_sensor_data_pipe, sizeof_UArena. cbn. lia.
Qed.
End Spec.

(** ** Lemmas: destroying *)

Lemma fd_decode fd : 0 <= fd < 2 ^ 31 -> s32 (le_decode (le_encode 4 fd)) = fd.
Proof.
  intros H. rewrite le_decode_encode. change (256 ^ Z.of_nat 4) with (2 ^ 32).
  rewrite Z.mod_small by lia. unfold s32. rewrite Z.mod_small; lia.
Qed.

Lemma SdpDestroy_eq Pipe rfd wfd n m bs ev arena :
  pipe_fields m Pipe rfd wfd n -> 0 <= rfd < 2 ^ 31 -> 0 <= wfd < 2 ^ 31 ->
  SdpDestroy Pipe arena (mkSys (mkOs m bs) ev) =
  (if negb arena then in_process (free Pipe) else mret tt) (mkSys (mkOs m bs) (delete wfd (delete rfd ev))).
Proof.
  intros F Hr Hw. unfold SdpDestroy.
  rewrite (Y_bind_Some _ _ _ _ _ (in_memory_Some _ (mkOs m bs) ev _ _ (load32_half _ _ _ (pf_read_fd _ _ _ _ _ F)))).
  rewrite (fd_decode rfd Hr). cbn [os_mem os_blocks].
  rewrite (Y_bind_Some (close rfd) _ _ tt (mkSys (mkOs m bs) (delete rfd ev))) by done.
  rewrite (Y_bind_Some _ _ _ _ _ (in_memory_Some _ (mkOs m bs) _ _ _ (load32_half _ _ _ (pf_write_fd _ _ _ _ _ F)))).
  rewrite (fd_decode wfd Hw). cbn [os_mem os_blocks].
  by rewrite (Y_bind_Some (close wfd) _ _ tt (mkSys (mkOs m bs) (delete wfd (delete rfd ev)))).
Qed.

(** Descriptors are not reused while open. *)
Definition fds_fresh (new_fd : gmap Z Z -> option Z) : Prop :=
  forall ev fd, new_fd ev = Some fd -> ev !! fd = None /\ 0 <= fd < 2 ^ 31.

(** Every block of the process is mapped. *)
Definition blocks_mapped (o : os) : Prop :=
  forall b k n, os_blocks o !! b = Some (k, n) -> is_Some (os_mem o !! b).

(** ** Properties *)

(** The size is computed with the wrap-around of [size_t]: a configuration whose
    pipe would need 2^64 bytes or more gets an arena that is too small. *)
Lemma SdpPipeSize_wraps BufCount BufSize :
  SdpPipeSize BufCount BufSize = u64 (64 + BufCount * (40 + BufSize)) /\
  (0 <= BufCount -> 0 <= BufSize -> 2 ^ 64 <= 64 + BufCount * (40 + BufSize) ->
   SdpPipeSize BufCount BufSize < 64 + BufCount * (40 + BufSize)).
Proof.
  assert (E : SdpPipeSize BufCount BufSize = u64 (64 + BufCount * (40 + BufSize))).
  { replace (64 + BufCount * (40 + BufSize)) with (64 + BufCount * 8 + BufCount * 32 + BufCount * BufSize) by ring.
    unfold SdpPipeSize, sizeof_sensor_data_pipe, sizeof_UArena. generalize (BufCount * BufSize). intros x. word_lia. }
  split; [exact E|]. intros _ _ Hw. rewrite E. pose proof (u64_range (64 + BufCount * (40 + BufSize))). lia.
Qed.

(** C32: Of its own accord [SdpCreate] asks for one arena; the pipe fits it to the
    last byte.  At least one buffer, and counts and sizes for which the pipe
    with the header of its arena is smaller than 2^64 bytes (the program does not
    check the configuration for it: see [SdpPipeSize_wraps]).  With the arena and
    the two descriptors granted, the result is a
    pipe at the start of the arena's buffer: its scalar fields set, its pointer
    array naming [BufCount] empty arenas of [BufSize] bytes, one after the other
    with nothing between or after them; the counter of the writers starts at
    [BufCount - 1], that of the readers at 0. *)
Theorem SdpCreate_layout (place : os -> block_kind -> Z -> option Z) (junk : Z -> Z) (cacheln_sz : Z)
    (new_fd : gmap Z Z -> option Z) (cell : Z) (o : os) (ev : gmap Z Z)
    (BufCount BufSize ua mem rfd wfd : Z) :
  place_fresh place -> 0 < cacheln_sz < 2 ^ 32 -> 0 < BufCount -> 0 <= BufSize ->
  arena_cache_aligned_sz cacheln_sz + (64 + BufCount * (40 + BufSize)) < 2 ^ 64 ->
  granted place junk cacheln_sz o (SdpPipeSize BufCount BufSize) true false ua mem ->
  new_fd ev = Some rfd -> new_fd (<[rfd := 0]> ev) = Some wfd -> rfd <> -1 -> wfd <> -1 ->
  let a := mkUArena (flag_bits true false false) (SdpPipeSize BufCount BufSize) 0 mem in
  exists o', SdpCreate place junk cacheln_sz new_fd cell BufCount BufSize NULL (mkSys o ev)
      = Some (mem, mkSys o' (<[wfd := BufCount - 1]> (<[rfd := 0]> ev))) /\
    arena_at (os_mem o') ua (with_cur a (ua_cap a)) /\
    laid_out a BufCount BufSize (os_mem o') /\
    pipe_fields (os_mem o') mem rfd wfd BufCount.
Proof.
  intros Hpl Hline Hn HB Hov Hg Hr Hw Hr1 Hw1 a.
  pose proof (arena_cache_aligned_sz_bounds _ Hline) as Hsz. unfold sizeof_UArena in Hsz.
  destruct (SdpPipeSize_end (flag_bits true false false) (SdpPipeSize BufCount BufSize) mem BufCount BufSize)
    as [Esz Eend]; [lia..|]. fold a in Eend.
  assert (0 <= BufCount * BufSize) by nia.
  destruct (ua_create_granted place junk cacheln_sz Hpl Hline o (SdpPipeSize BufCount BufSize) true false ua mem)
    as (o1 & S & A & W & _); [lia..|exact Hg|].
  destruct (SdpCreate_on_ok cacheln_sz new_fd cell false ua a o1 ev BufCount BufSize rfd wfd)
    as (m' & S' & A' & L & F & _);
    [exact A|exact W|lia|lia|by rewrite Eend|done..|].
  cbn [ua_mem ua_cur a] in S'. rewrite Z.add_0_r in S'. rewrite Eend in A'.
  exists (mkOs m' (os_blocks o1)). split_and!.
  - unfold SdpCreate. cbn [negb Z.eqb NULL].
    assert (E : in_process (ua_create place junk cacheln_sz (SdpPipeSize BufCount BufSize) true false) (mkSys o ev)
                = Some (ua, mkSys o1 ev)) by (unfold in_process; cbn [sys_os sys_events]; by rewrite S).
    Y_step E. exact S'.
  - exact A'.
  - exact L.
  - cbn [ua_mem ua_cur a] in F. by rewrite Z.add_0_r in F.
Qed.

(** The number after the highest in use, 3 at least. *)
Definition demo_fd (ev : gmap Z Z) : option Z :=
  let fd := Z.max 3 (map_fold (fun x _ t => Z.max x t) 0 ev + 1) in
  if fd <? 2 ^ 31 then Some fd else None.

Lemma demo_fd_fresh : fds_fresh demo_fd.
Proof.
  intros ev fd. unfold demo_fd. destruct (map_fold_max_bound ev) as [H0 Hb].
  destruct (Z.ltb_spec (Z.max 3 (map_fold (fun x _ t => Z.max x t) 0 ev + 1)) (2 ^ 31)); [|done].
  intros [= <-]. split; [|lia]. destruct (ev !! _) eqn:E; [|done]. pose proof (Hb _ _ E). lia.
Qed.

Lemma SdpCreate_layout_witness :
  exists o', SdpCreate bump_place (fun _ => 0) 64 demo_fd 0 2 16 NULL (mkSys (mkOs ∅ ∅) ∅)
      = Some (65, mkSys o' {[3 := 0; 4 := 1]}) /\
    arena_at (os_mem o') 1 (mkUArena 1 176 176 65) /\ pipe_fields (os_mem o') 65 3 4 2.
Proof.
  destruct (SdpCreate_layout bump_place (fun _ => 0) 64 demo_fd 0 (mkOs ∅ ∅) ∅ 2 16 1 65 3 4 bump_place_fresh)
    as (o' & S & A & _ & F); [lia|lia|lia|by vm_compute|split; by vm_compute|by vm_compute|by vm_compute|lia|lia|].
  exists o'. split; [|split; [exact A|exact F]].
  rewrite S. assert (E : <[4 := 2 - 1]> (<[3 := 0]> (∅ : gmap Z Z)) = {[3 := 0; 4 := 1]}) by (vm_compute; reflexivity).
  by rewrite E.
Defined.

(** When a descriptor is refused [SdpCreate] returns NULL and gives the memory
    back to the caller's arena.  It does not close the other descriptor: with
    the second refused the first stays open for good. *)
Theorem SdpCreate_refused (place : os -> block_kind -> Z -> option Z) (junk : Z -> Z) (cacheln_sz : Z)
    (new_fd : gmap Z Z -> option Z) (cell p : Z) (a : UArena) (o : os) (ev : gmap Z Z) (BufCount BufSize : Z) :
  arena_at (os_mem o) p a -> wf_arena (os_mem o) p a -> 0 < BufCount -> 0 <= BufSize ->
  pipe_end a BufCount BufSize <= ua_cap a ->
  (forall fd, new_fd ev = Some fd -> new_fd (<[fd := 0]> ev) = None /\ fd <> -1) ->
  exists o', SdpCreate place junk cacheln_sz new_fd cell BufCount BufSize p (mkSys o ev)
      = Some (NULL, mkSys o' (if new_fd ev is Some fd then <[fd := 0]> ev else ev)) /\
    arena_at (os_mem o') p a /\ os_blocks o' = os_blocks o /\
    frame (pipe_footprint p a BufCount BufSize) (os_mem o) (os_mem o').
Proof.
  destruct o as [m0 bs]. cbn [os_mem os_blocks]. intros Ha Hwf Hn HB Hfit Hfd.
  pose proof (arena_at_ranges _ _ _ Ha) as (_ & ? & ? & ?). pose proof Ha as [Hp _]. pose proof Hwf as [Hc _ _ Hap].
  destruct (pipe_mapped _ _ _ BufCount BufSize Hwf) as [Hmul Hpm]; [lia..|].
  destruct (lay_out_spec _ _ _ BufCount BufSize Ha Hwf) as (m1 & S1 & A1 & L1 & F1); [lia..|].
  set (Pipe := ua_mem a + ua_cur a) in *. set (rfd := default (-1) (new_fd ev)).
  destruct (fill_fields m1 Pipe rfd (-1) BufCount) as (m2 & m3 & _ & S2 & S3 & _ & _ & F3 & _);
    [by eapply frame_mapped|unfold pipe_end, sizeof_sensor_data_pipe in *; lia|].
  assert (A3 : arena_at m3 p (with_cur a (pipe_end a BufCount BufSize))).
  { eapply arena_at_frame; [exact F3| |exact A1]. unfold scalars, Pipe, pipe_end, sizeof_sensor_data_pipe in *. lia. }
  destruct (ua_seek_spec m3 p _ (ua_cur a) A3) as (m4 & S4 & G4 & A4); [cbn; lia|].
  exists (mkOs m4 bs). split_and!; [| |done|].
  - unfold SdpCreate. rewrite (proj2 (Z.eqb_neq _ _) Hp). cbn [negb].
    rewrite (Y_bind_Some _ _ _ p (mkSys (mkOs m0 bs) ev)) by done.
    unfold SdpCreate_on. Y_mem (ua_pos_spec _ _ _ Ha). Y_mem S1.
    set (ev' := if new_fd ev is Some fd then <[fd := 0]> ev else ev).
    assert (E1 : eventfd new_fd 0 (mkSys (mkOs m1 bs) ev) = Some (rfd, mkSys (mkOs m1 bs) ev')).
    { unfold eventfd, ev', rfd. cbn. by destruct (new_fd ev). }
    assert (E2 : eventfd new_fd 0 (mkSys (mkOs m2 bs) ev') = Some (-1, mkSys (mkOs m2 bs) ev')).
    { unfold eventfd, ev'. cbn. destruct (new_fd ev) as [fd|] eqn:E; [|by rewrite E].
      by rewrite (proj1 (Hfd fd eq_refl)). }
    Y_step E1. Y_mem S2. Y_step E2. Y_mem S3.
    rewrite orb_true_r. rewrite (Y_bind_Some _ _ _ tt (mkSys (mkOs m4 bs) ev')); [done|].
    Y_mem S4. done.
  - cbn. unfold with_cur in A4. cbn in A4. by destruct a.
  - cbn. etrans; [exact F1|]. etrans; [eapply frame_mono; [exact F3|]|eapply agree_outside_frame; [exact G4|]];
      unfold scalars, pipe_footprint, Pipe, pipe_end, sizeof_sensor_data_pipe in *; lia.
Qed.

(** A process with an arena of 200 bytes, its struct at 1 and its buffer at 65. *)
Definition demo_os : os :=
  match ua_create bump_place (fun _ => 0) 64 200 true false (mkOs ∅ ∅) with
  | Some (_, o) => o
  | None => mkOs ∅ ∅
  end.

#[local] Opaque demo_os.

Lemma demo_os_arena :
  let a := mkUArena 1 200 0 65 in arena_at (os_mem demo_os) 1 a /\ wf_arena (os_mem demo_os) 1 a.
Proof.
  split.
  - split; [done|]. split_and!; (split; [vm_compute; reflexivity|cbn; lia]).
  - constructor; cbn; [lia|lia| |unfold sizeof_UArena; lia].
    apply mapped_check. vm_compute. eauto.
Qed.

(** Room for one descriptor. *)
Definition one_fd (ev : gmap Z Z) : option Z := if decide (ev = ∅) then Some 3 else None.

Lemma SdpCreate_refused_witness :
  exists o', SdpCreate bump_place (fun _ => 0) 64 one_fd 0 2 16 1 (mkSys demo_os ∅)
      = Some (NULL, mkSys o' {[3 := 0]}) /\
    arena_at (os_mem o') 1 (mkUArena 1 200 0 65).
Proof.
  destruct (SdpCreate_refused bump_place (fun _ => 0) 64 one_fd 0 1 (mkUArena 1 200 0 65) demo_os ∅ 2 16)
    as (o' & S & A & _);
    [apply demo_os_arena|apply demo_os_arena|lia|lia|by vm_compute|by intros fd [= <-]|].
  exists o'. split; [exact S|exact A].
Defined.

(** [SdpDestroy] on a pipe that [SdpCreate] made of its own accord: it closes
    both descriptors, then frees an address inside the arena's mapping, which
    the allocator does not know.  A pipe on the caller's arena is undone without
    a fault. *)
Theorem SdpDestroy_own_arena (place : os -> block_kind -> Z -> option Z) (junk : Z -> Z) (cacheln_sz : Z)
    (new_fd : gmap Z Z -> option Z) (cell : Z) (o : os) (ev : gmap Z Z)
    (BufCount BufSize ua mem rfd wfd Pipe : Z) (y : sys) :
  place_fresh place -> fds_fresh new_fd -> blocks_mapped o -> 0 < cacheln_sz < 2 ^ 32 ->
  0 < BufCount -> 0 <= BufSize ->
  arena_cache_aligned_sz cacheln_sz + (64 + BufCount * (40 + BufSize)) < 2 ^ 64 ->
  granted place junk cacheln_sz o (SdpPipeSize BufCount BufSize) true false ua mem ->
  new_fd ev = Some rfd -> new_fd (<[rfd := 0]> ev) = Some wfd ->
  SdpCreate place junk cacheln_sz new_fd cell BufCount BufSize NULL (mkSys o ev) = Some (Pipe, y) ->
  SdpDestroy Pipe false y = None /\
  SdpDestroy Pipe true y = Some (tt, mkSys (sys_os y) ev).
Proof.
  intros Hpl Hfds Hbl Hline Hn HB Hov Hg Hr Hw.
  destruct (Hfds _ _ Hr) as [Nr Rr]. destruct (Hfds _ _ Hw) as [Nw Rw].
  pose proof (arena_cache_aligned_sz_bounds _ Hline) as Hsz. unfold sizeof_UArena in Hsz.
  assert (0 <= BufCount * BufSize) by nia.
  destruct (SdpPipeSize_end (flag_bits true false false) (SdpPipeSize BufCount BufSize) mem BufCount BufSize)
    as [Esz Eend]; [lia..|].
  set (a := mkUArena (flag_bits true false false) (SdpPipeSize BufCount BufSize) 0 mem) in *.
  destruct (ua_create_granted place junk cacheln_sz Hpl Hline o (SdpPipeSize BufCount BufSize) true false ua mem)
    as (o1 & S & A & W & _ & Fresh & _ & Blk); [lia..|exact Hg|].
  destruct (SdpCreate_on_ok cacheln_sz new_fd cell false ua a o1 ev BufCount BufSize rfd wfd)
    as (m' & S' & _ & _ & F & _);
    [exact A|exact W|lia|lia|by rewrite Eend|done|done|lia|lia|].
  cbn [ua_mem ua_cur a] in S', F. rewrite Z.add_0_r in S', F.
  unfold SdpCreate. cbn [negb Z.eqb NULL].
  assert (E : in_process (ua_create place junk cacheln_sz (SdpPipeSize BufCount BufSize) true false) (mkSys o ev)
              = Some (ua, mkSys o1 ev)) by (unfold in_process; cbn [sys_os sys_events]; by rewrite S).
  Y_step E. rewrite S'. intros [= <- <-]. rewrite !(SdpDestroy_eq mem rfd wfd BufCount) by done.
  assert (Hev : delete wfd (delete rfd (<[wfd := BufCount - 1]> (<[rfd := 0]> ev))) = ev).
  { assert (wfd <> rfd) by (intros ->; by rewrite lookup_insert_eq in Nw).
    rewrite lookup_insert_ne in Nw by done.
    rewrite delete_insert_ne by done. rewrite (delete_insert_id ev) by done. by apply delete_insert_id. }
  rewrite Hev. cbn [negb]. split; [|done].
  destruct Hg as [Hg1 Hg2]. rewrite u64_small in Hg1 by lia.
  destruct (Hpl _ _ _ _ Hg1) as (Hua & _ & Hfree & _).
  unfold in_process, free. cbn [sys_os os_blocks]. rewrite (proj2 (Z.eqb_neq _ _)) by (unfold NULL; lia).
  assert (Hnone : os_blocks o1 !! mem = None); [|by rewrite Hnone].
  change (delete ua (os_blocks o1) = os_blocks o) in Blk.
  assert (Hmem : os_blocks o !! mem = None).
  { destruct (os_blocks o !! mem) as [[k n]|] eqn:Eb; [|done].
    apply Hbl in Eb as [b Eb]. by rewrite Hfree in Eb by lia. }
  rewrite <- Blk, lookup_delete_ne in Hmem by lia. done.
Qed.

Lemma SdpDestroy_own_arena_witness :
  exists y, SdpCreate bump_place (fun _ => 0) 64 demo_fd 0 2 16 NULL (mkSys (mkOs ∅ ∅) ∅) = Some (65, y) /\
    SdpDestroy 65 false y = None.
Proof.
  destruct (SdpCreate bump_place (fun _ => 0) 64 demo_fd 0 2 16 NULL (mkSys (mkOs ∅ ∅) ∅)) as [[p y]|] eqn:E.
  - assert (Hp : p = 65).
    { assert (E' : option_map fst (SdpCreate bump_place (fun _ => 0) 64 demo_fd 0 2 16 NULL (mkSys (mkOs ∅ ∅) ∅))
                   = Some 65) by (vm_compute; reflexivity). rewrite E in E'. by injection E'. }
    subst p. exists y. split; [done|].
    apply (SdpDestroy_own_arena bump_place (fun _ => 0) 64 demo_fd 0 (mkOs ∅ ∅) ∅ 2 16 1 65 3 4 65 y
             bump_place_fresh demo_fd_fresh); [done|lia|lia|lia|by vm_compute|split; by vm_compute
             |by vm_compute|by vm_compute|exact E].
  - exfalso. assert (E' : option_map fst (SdpCreate bump_place (fun _ => 0) 64 demo_fd 0 2 16 NULL (mkSys (mkOs ∅ ∅) ∅))
                   = Some 65) by (vm_compute; reflexivity). by rewrite E in E'.
Defined.
