(* ===== verification/SdbMemory.v ===== *)
(** * Memory of the data handler: [src/src/sdhs/Sdb.h]

    The section MEMORY of the header (byte loops, [sdb_arena], its bootstrap,
    thread arenas and scratch arenas, [SdbArrayShift]), the C string helpers,
    the random number generator and the tokenizer.

    [sdb_arena] is the third arena of the repository: a struct of three words
    without flags.  It is another implementation of the interface of
    [ArenaIface]. *)

From S2P Require Import Prelude.
From S2P Require Import Memory.
From S2P Require Import Os.
From S2P Require Import UArena.
From S2P Require Import ThreadArenas.
From S2P Require Import KArenaModule.
From S2P Require Import ArenaIface.
From S2P Require Import KArena.
#[local] Open Scope Z_scope.

(** ** The byte loops *)

(** [for(i = 0; i < Len; ++i)] of each function, from index [i] on. *)
Fixpoint SdbMemcpy_from (To From i : Z) (n : nat) : M unit :=
  match n with
  | O => mret tt
  | S n => b ← load8 (From + i); store8 (To + i) b;; SdbMemcpy_from To From (i + 1) n
  end.

Definition SdbMemcpy (To From Len : Z) : M Z :=
  SdbMemcpy_from To From 0 (Z.to_nat Len);; mret To.

Fixpoint SdbMemset_from (Data SetTo i : Z) (n : nat) : M unit :=
  match n with
  | O => mret tt
  | S n => store8 (Data + i) (u8 SetTo);; SdbMemset_from Data SetTo (i + 1) n
  end.

Definition SdbMemset (Data SetTo Len : Z) : M Z :=
  SdbMemset_from Data SetTo 0 (Z.to_nat Len);; mret Data.

Fixpoint SdbMemcmp_from (Lhs Rhs i : Z) (n : nat) : M bool :=
  match n with
  | O => mret true
  | S n =>
      a ← load8 (Lhs + i); b ← load8 (Rhs + i);
      if negb (a =? b) then mret false else SdbMemcmp_from Lhs Rhs (i + 1) n
  end.

Definition SdbMemcmp (Lhs Rhs Len : Z) : M bool := SdbMemcmp_from Lhs Rhs 0 (Z.to_nat Len).

Definition SdbMemZero (Mem Size : Z) : M unit := SdbMemset Mem 0 Size;; mret tt.

(** The call goes to the C library's [memset]. *)
Definition SdbMemZeroSecure (Mem Size : Z) : M unit := bzero Mem Size.

(** ** [sdb_arena] *)

Record sdb_arena := mkSdbArena { Cur : Z; Cap : Z; Mem : Z }.

Definition sizeof_sdb_arena : Z := 24.
Definition a_cur (p : Z) : Z := p.
Definition a_cap (p : Z) : Z := p + 8.
Definition a_mem (p : Z) : Z := p + 16.

Definition SdbArenaInit (Arena Mem Size : Z) : M unit :=
  store64 (a_cur Arena) 0;;
  store64 (a_cap Arena) Size;;
  store64 (a_mem Arena) Mem.

Definition SdbArenaPush (Arena Size : Z) : M Z :=
  cur ← load64 (a_cur Arena);
  cap ← load64 (a_cap Arena);
  if cur +64 Size <=? cap then
    mem ← load64 (a_mem Arena);
    store64 (a_cur Arena) (cur +64 Size);;
    mret (mem +64 cur)
  else mret NULL.

Definition SdbArenaPushZero (Arena Size : Z) : M Z :=
  cur ← load64 (a_cur Arena);
  cap ← load64 (a_cap Arena);
  if cur +64 Size <=? cap then
    mem ← load64 (a_mem Arena);
    store64 (a_cur Arena) (cur +64 Size);;
    SdbMemZero (mem +64 cur) Size;;
    mret (mem +64 cur)
  else mret NULL.

Definition SdbArenaRemaining (Arena : Z) : M Z :=
  cap ← load64 (a_cap Arena);
  cur ← load64 (a_cur Arena);
  mret (cap -64 cur).

Definition SdbArenaPop (Arena Size : Z) : M Z :=
  cur ← load64 (a_cur Arena);
  if Size <=? cur then
    store64 (a_cur Arena) (cur -64 Size);;
    mem ← load64 (a_mem Arena);
    mret (mem +64 (cur -64 Size))
  else mret NULL.

Definition SdbArenaGetPos (Arena : Z) : M Z := load64 (a_cur Arena).

Definition SdbArenaSeek (Arena Pos : Z) : M Z :=
  cap ← load64 (a_cap Arena);
  if Pos <=? cap then
    store64 (a_cur Arena) Pos;;
    mem ← load64 (a_mem Arena);
    mret (mem +64 Pos)
  else mret NULL.

Definition SdbArenaReserve (Arena Size : Z) : M Z :=
  cur ← load64 (a_cur Arena);
  cap ← load64 (a_cap Arena);
  if cur +64 Size <=? cap then
    store64 (a_cur Arena) (cur +64 Size);;
    mret Size
  else SdbArenaRemaining Arena.

Definition SdbArenaClear (Arena : Z) : M unit := store64 (a_cur Arena) 0.

Definition SdbArenaClearZero (Arena : Z) : M unit :=
  mem ← load64 (a_mem Arena);
  cap ← load64 (a_cap Arena);
  SdbMemZero mem cap;;
  store64 (a_cur Arena) 0.

Definition SdbPushStruct (Arena sizeof : Z) : M Z := SdbArenaPush Arena (sizeof *64 1).
Definition SdbPushArray (Arena sizeof count : Z) : M Z := SdbArenaPush Arena (sizeof *64 count).

Definition SdbArenaBootstrap (Arena NewArena_ Size : Z) : M Z :=
  NewArena ← (if NewArena_ =? NULL then SdbPushStruct Arena sizeof_sdb_arena else mret NewArena_);
  NewArenaMem ← SdbPushArray Arena 1 Size;
  if (NULL =? NewArena) || (NULL =? NewArenaMem) then mret NULL
  else SdbArenaInit NewArena NewArenaMem Size;; mret NewArena.

(** *** Thread and scratch arenas *)

Definition Sdb__ThreadArenasInit__ := thread_arenas_init.

Definition Sdb__ThreadArenasAdd__ (Arena : Z) (TAs : thread_arenas) : option (Z * thread_arenas) :=
  '(r, TAs) ← thread_arenas_add Arena TAs; Some (if r =? 0 then 0 else -1, TAs).

Record sdb_scratch_arena := mkScratch { Scratch_Arena : Z; F5 : Z }.

Definition SdbScratchBegin (Arena : Z) : M sdb_scratch_arena :=
  pos ← SdbArenaGetPos Arena; mret (mkScratch Arena pos).

Definition Sdb__ScratchGet__ (Conflicts : list Z) (TAs : thread_arenas) : M sdb_scratch_arena :=
  match scratch_select Conflicts TAs with
  | None => fault
  | Some Arena => if Arena =? NULL then mret (mkScratch NULL 0) else SdbScratchBegin Arena
  end.

Definition Sdb__ScratchRelease__ (Scratch : sdb_scratch_arena) : M unit :=
  SdbArenaSeek (Scratch_Arena Scratch) (F5 Scratch);; mret tt.

(** [memmove]: the source is read before the destination is written. *)
Definition memmove := memcpy.

Definition SdbArrayShift (Mem From To Count ElementSize : Z) : M unit :=
  if negb (From =? To) then
    let Src := Mem +64 (From *64 ElementSize) in
    let Dst := Mem +64 (To *64 ElementSize) in
    let NumElements := if From <? Count then Count -64 From else 0 in
    if 0 <? NumElements then memmove Dst Src (NumElements *64 ElementSize)
    else mret tt
  else mret tt.

(** ** C strings *)

(** The loop of [SdbStrlen], [fuel] bytes at most. *)
Fixpoint SdbStrlen (fuel : nat) (String : Z) : M Z :=
  match fuel with
  | O => fault
  | S fuel =>
      c ← load8 String;
      if negb (c =? 0) then n ← SdbStrlen fuel (String + 1); mret (n + 1) else mret 0
  end.

(** The condition reads the character before it looks at the count. *)
Fixpoint SdbStrnlen_from (n : nat) (String Count : Z) : M Z :=
  c ← load8 String;
  if negb (c =? 0) then
    match n with
    | O => mret Count
    | S n => SdbStrnlen_from n (String + 1) (Count + 1)
    end
  else mret Count.

Definition SdbStrnlen (String Max : Z) : M Z := SdbStrnlen_from (Z.to_nat Max) String 0.

(** [ArenaPushArray] is that of [u_arena.c]; its NULL is not checked. *)
Definition SdbStrdup (fuel : nat) (String Arena : Z) : M Z :=
  StringLength ← SdbStrlen fuel String;
  NewString ← ua_alloc Arena (1 *64 (StringLength +64 1));
  SdbMemcpy NewString String StringLength;;
  store8 (NewString + StringLength) 0;;
  mret NewString.

(** ** Random numbers *)

Definition SdbRandPCG (State : Z) : Z * Z :=
  let Word := u32 (Z.lxor (Z.shiftr State (u32 (Z.shiftr State 28 + 4))) State * 277803737) in
  (Z.lxor (Z.shiftr Word 22) Word, u32 (u32 (State * 747796405) + 2891336453)).

Definition SdbSeedRandPCG (Seed : Z) : Z := u32 Seed.

(** ** The tokenizer *)

Record sdb_token := mkToken { Start : Z; Len : Z }.

Fixpoint skip_to_tab (fuel : nat) (Cursor : Z) : M Z :=
  match fuel with
  | O => fault
  | S fuel => c ← load8 Cursor; if negb (c =? 9) then skip_to_tab fuel (Cursor + 1) else mret Cursor
  end.

Fixpoint skip_to_newline (fuel : nat) (Cursor Len : Z) : M (Z * Z) :=
  match fuel with
  | O => fault
  | S fuel =>
      c ← load8 Cursor;
      if negb (c =? 10) && negb (c =? 13) then skip_to_newline fuel (Cursor + 1) (Len + 1)
      else mret (Cursor, Len)
  end.

(** The token and the cursor after it; neither loop stops at the end of the
    string. *)
Definition SdbGetNextToken (fuel : nat) (Cursor : Z) : M (sdb_token * Z) :=
  Cursor ← skip_to_tab fuel Cursor;
  let Start := Cursor + 1 in
  '(Cursor, Len) ← skip_to_newline fuel Start 0;
  c ← load8 Cursor;
  (if negb (c =? 0) then store8 Cursor 0 else mret tt);;
  mret (mkToken Start Len, Cursor).

(** ** Lemmas: the byte loops *)

Lemma write_bytes_cons m a b l : write_bytes m a (b :: l) = (m1 ← write_bytes m a [b]; write_bytes m1 (a + 1) l).
Proof. cbn [write_bytes]. by destruct (m !! a). Qed.

Lemma SdbMemset_from_eq Data SetTo i n m :
  SdbMemset_from Data SetTo i n m =
  (m' ← write_bytes m (Data + i) (replicate n (u8 SetTo)); Some (tt, m')).
Proof.
  revert i m. induction n as [|n IH]; intros i m; [done|].
  cbn [SdbMemset_from replicate]. rewrite write_bytes_cons. unfold mbind at 1, M_bind, store8.
  assert (E : u8 SetTo mod 256 = u8 SetTo) by (unfold u8; by rewrite Z.mod_mod).
  rewrite E. destruct (write_bytes m (Data + i) [u8 SetTo]) as [m1|]; [|done].
  cbn [mbind option_bind]. rewrite IH. by replace (Data + i + 1) with (Data + (i + 1)) by lia.
Qed.

(** [SdbMemZero] is the clearing that the C library does. *)
Lemma SdbMemZero_bzero Mem Size m : SdbMemZero Mem Size m = bzero Mem Size m.
Proof.
  unfold SdbMemZero, SdbMemset, mbind, M_bind. rewrite SdbMemset_from_eq, Z.add_0_r.
  change (u8 0) with 0. unfold bzero. by destruct (write_bytes m Mem _).
Qed.

Lemma read_bytes_cons m a n :
  read_bytes m a (S n) = (b ← m !! a; l ← read_bytes m (a + 1) n; Some (b :: l)).
Proof. done. Qed.

Lemma SdbMemcpy_from_eq To From i n m l :
  read_bytes m (From + i) n = Some l -> Forall (fun b => 0 <= b < 256) l ->
  To + i + Z.of_nat n <= From + i \/ From + i + Z.of_nat n <= To + i ->
  SdbMemcpy_from To From i n m = (m' ← write_bytes m (To + i) l; Some (tt, m')).
Proof.
  revert i m l. induction n as [|n IH]; intros i m l Hr Hb Hd; cbn [read_bytes] in Hr.
  - by simplify_eq.
  - destruct (m !! (From + i)) as [b|] eqn:Eb; cbn in Hr; [|done].
    destruct (read_bytes m (From + i + 1) n) as [l'|] eqn:Er; cbn in Hr; simplify_eq.
    apply Forall_cons in Hb as [Hb Hl]. cbn [SdbMemcpy_from]. rewrite write_bytes_cons.
    assert (EL : load8 (From + i) m = Some (b, m)) by (unfold load8; by rewrite Eb).
    M_step EL.
    destruct (write_bytes m (To + i) [b]) as [m1|] eqn:Ew; cbn [mbind option_bind];
      [|unfold mbind, M_bind, store8; by rewrite (Z.mod_small b), Ew by done].
    assert (ES : store8 (To + i) b m = Some (tt, m1)) by (unfold store8; by rewrite (Z.mod_small b), Ew by done).
    M_step ES.
    replace (To + i + 1) with (To + (i + 1)) by lia. apply IH; [|done|lia].
    replace (From + (i + 1)) with (From + i + 1) by lia. rewrite <- Er.
    pose proof (write_bytes_agree _ _ _ _ Ew) as Hag. cbn in Hag.
    eapply read_bytes_agree; [exact Hag|lia].
Qed.

(** The byte loop is [memcpy] on separate regions, which its [restrict] asks
    for. *)
Lemma SdbMemcpy_eq To From Len m l :
  0 <= Len -> read_bytes m From (Z.to_nat Len) = Some l -> Forall (fun b => 0 <= b < 256) l ->
  To + Len <= From \/ From + Len <= To ->
  SdbMemcpy To From Len m = (memcpy To From Len;; mret To) m.
Proof.
  intros HL Hr Hb Hd. unfold SdbMemcpy. unfold mbind, M_bind.
  rewrite (SdbMemcpy_from_eq To From 0 _ m l); rewrite ?Z.add_0_r; [|done..|lia].
  unfold memcpy. rewrite Hr. cbn [mbind option_bind]. by destruct (write_bytes m To l).
Qed.

Lemma SdbMemcmp_from_eq Lhs Rhs i n m l l' :
  read_bytes m (Lhs + i) n = Some l -> read_bytes m (Rhs + i) n = Some l' ->
  SdbMemcmp_from Lhs Rhs i n m = Some (bool_decide (l = l'), m).
Proof.
  revert i l l'. induction n as [|n IH]; intros i l l' Hl Hr; cbn [read_bytes] in Hl, Hr.
  - by simplify_eq.
  - destruct (m !! (Lhs + i)) as [a|] eqn:Ea; cbn in Hl; [|done].
    destruct (read_bytes m (Lhs + i + 1) n) as [la|] eqn:El; cbn in Hl; [|done].
    destruct (m !! (Rhs + i)) as [b|] eqn:Eb; cbn in Hr; [|done].
    destruct (read_bytes m (Rhs + i + 1) n) as [lb|] eqn:Er; cbn in Hr; simplify_eq.
    cbn [SdbMemcmp_from].
    assert (E1 : load8 (Lhs + i) m = Some (a, m)) by (unfold load8; by rewrite Ea).
    assert (E2 : load8 (Rhs + i) m = Some (b, m)) by (unfold load8; by rewrite Eb).
    M_step E1. M_step E2.
    destruct (Z.eqb_spec a b) as [->|Hne]; cbn [negb].
    + rewrite (IH (i + 1) la lb); [|by rewrite Z.add_assoc..].
      do 2 f_equal. apply bool_decide_ext. split; [by intros ->|by intros [= ->]].
    + rewrite bool_decide_eq_false_2; [done|congruence].
Qed.

(** ** Lemmas: [sdb_arena] *)

Record sdb_arena_at (m : mem) (p : Z) (a : sdb_arena) : Prop := {
  sa_p : p <> NULL;
  sa_cur : word_at m (a_cur p) (Cur a);
  sa_cap : word_at m (a_cap p) (Cap a);
  sa_mem : word_at m (a_mem p) (Mem a);
}.

Record sdb_view (m : mem) (p : Z) (v : view) : Prop := {
  sv_at : sdb_arena_at m p (mkSdbArena (v_cur v) (v_cap v) (v_base v));
  sv_cur : 0 <= v_cur v <= v_cap v /\ v_cap v < 2 ^ 63;
  sv_base : 0 < v_base v /\ v_base v + v_cap v < 2 ^ 64;
  sv_mapped : mapped m (v_base v) (v_cap v);
  sv_apart : p + sizeof_sdb_arena <= v_base v \/ v_base v + v_cap v <= p;
}.

Lemma sdb_store_cur m p v c :
  sdb_view m p v -> 0 <= c <= v_cap v ->
  exists m', store64 (a_cur p) c m = Some (tt, m') /\ sdb_view m' p (view_at v c).
Proof.
  intros [[Hp Hcur Hcap Hmem] Hc Hb Hm Ha] Hr. cbn in *.
  destruct (store64_word m (a_cur p) c) as (m' & Hs & Hag & Hw);
    [by eapply word_at_mapped|lia|].
  exists m'. split; [done|]. unfold a_cur, a_cap, a_mem, sizeof_sdb_arena in *.
  constructor; cbn; try done; [|lia|by eapply agree_outside_mapped].
  constructor; cbn; try done; (eapply word_at_agree; [exact Hag|unfold a_cap, a_mem; lia|done]).
Qed.

(** Clearing inside the buffer. *)
Lemma sdb_view_cleared m p v off n :
  sdb_view m p v -> 0 <= off -> 0 <= n -> off + n <= v_cap v ->
  exists m', SdbMemZero (v_base v + off) n m = Some (tt, m') /\ sdb_view m' p v.
Proof.
  intros [[Hp Hcur Hcap Hmem] Hc Hb Hm Ha] Ho Hn Hfit. cbn in *. rewrite SdbMemZero_bzero.
  destruct (bzero_spec m (v_base v + off) n) as (m' & E & Hag & _);
    [eapply mapped_sub; [exact Hm|lia..]|].
  exists m'. split; [done|]. unfold a_cur, a_cap, a_mem, sizeof_sdb_arena in *.
  constructor; cbn; try done; [|by eapply agree_outside_mapped].
  constructor; cbn; try done; (eapply word_at_agree; [exact Hag|unfold a_cur, a_cap, a_mem; lia|done]).
Qed.

Definition sdb_do (p : Z) (o : Bump.op) : M Z :=
  match o with
  | Bump.Alloc n => SdbArenaPush p n
  | Bump.Zalloc n => SdbArenaPushZero p n
  | Bump.Free => SdbArenaClear p;; mret 0
  | Bump.Pop n => SdbArenaPop p n;; mret 0
  | Bump.Pos => SdbArenaGetPos p
  | Bump.Seek pos => SdbArenaSeek p pos
  | Bump.Reserve n => SdbArenaReserve p n
  end.

Lemma sdb_do_spec m p v o :
  sdb_view m p v -> in_contract v o ->
  exists m', sdb_do p o m = Some (view_result v o, m') /\ sdb_view m' p (view_step v o).
Proof.
  intros Hv [Hop Hin]. pose proof Hv as [[Hp Lcur Lcap Lmem] Hc Hb _ _]. cbn in Lcur, Lcap, Lmem.
  assert (Hid : view_at v (v_cur v) = v) by by destruct v.
  unfold op_ok in Hop. unfold view_result, view_step.
  destruct o as [n|n| |n| |pos|n]; cbn [sdb_do Bump.arg Bump.step] in *.
  - unfold SdbArenaPush. M_load Lcur. M_load Lcap. rewrite u64_small by lia.
    destruct (Z.leb_spec (v_cur v + n) (v_cap v)); cbn [fst snd concrete].
    + M_load Lmem. destruct (sdb_store_cur m p v (v_cur v + n) Hv) as (m1 & S & Hv1); [lia|]. M_step S.
      rewrite u64_small by lia. by exists m1.
    + exists m. by rewrite Hid.
  - unfold SdbArenaPushZero. M_load Lcur. M_load Lcap. rewrite u64_small by lia.
    rewrite (proj2 (Z.leb_le _ _)) by lia. cbn [fst snd concrete].
    M_load Lmem. destruct (sdb_store_cur m p v (v_cur v + n) Hv) as (m1 & S & Hv1); [lia|]. M_step S.
    rewrite u64_small by lia.
    destruct (sdb_view_cleared m1 p _ (v_cur v) n Hv1) as (m2 & S2 & Hv2); cbn; [lia..|].
    cbn in S2. M_step S2. by exists m2.
  - unfold SdbArenaClear. destruct (sdb_store_cur m p v 0 Hv) as (m1 & S & Hv1); [lia|]. M_step S.
    by exists m1.
  - unfold SdbArenaPop. unfold mbind at 1, M_bind at 1.
    destruct (Z.leb_spec n (v_cur v)); cbn [fst snd concrete].
    + destruct (sdb_store_cur m p v (v_cur v - n) Hv) as (m1 & S & Hv1); [lia|].
      M_load Lcur. rewrite (proj2 (Z.leb_le _ _)) by lia. rewrite u64_small by lia. M_step S.
      pose proof (sa_mem _ _ _ (sv_at _ _ _ Hv1)) as L1. M_load L1. by exists m1.
    + M_load Lcur. rewrite (proj2 (Z.leb_gt _ _)) by lia. exists m. by rewrite Hid.
  - unfold SdbArenaGetPos. rewrite (load64_word_at _ _ _ Lcur). cbn [fst snd concrete]. exists m. by rewrite Hid.
  - unfold SdbArenaSeek. M_load Lcap. rewrite (proj2 (Z.leb_le _ _)) by lia. cbn [fst snd concrete].
    destruct (sdb_store_cur m p v pos Hv) as (m1 & S & Hv1); [lia|]. M_step S.
    pose proof (sa_mem _ _ _ (sv_at _ _ _ Hv1)) as L1. cbn in L1. M_load L1.
    rewrite u64_small by lia. by exists m1.
  - unfold SdbArenaReserve, SdbArenaRemaining. M_load Lcur. M_load Lcap. rewrite u64_small by lia.
    destruct (Z.leb_spec (v_cur v + n) (v_cap v)); cbn [fst snd concrete].
    + destruct (sdb_store_cur m p v (v_cur v + n) Hv) as (m1 & S & Hv1); [lia|]. M_step S.
      exists m1. by rewrite Z.min_l by lia.
    + M_load Lcap. M_load Lcur. exists m. rewrite Hid, u64_small, Z.min_r by lia. done.
Qed.

Lemma sdb_view_bounds m p v : sdb_view m p v -> 0 <= v_cur v <= v_cap v /\ v_cap v < 2 ^ 63.
Proof. by intros []. Qed.

(** The third implementation of the interface. *)
Definition SdbArena_impl : ArenaImpl mem := {|
  arena_do := sdb_do;
  arena_view := sdb_view;
  arena_view_cur := sdb_view_bounds;
  arena_do_spec := sdb_do_spec;
|}.

(** ** Lemmas: the generator *)

Lemma shiftr_fix d k : 0 <= d -> 0 < k -> Z.shiftr d k = d -> d = 0.
Proof.
  intros Hd Hk E. rewrite Z.shiftr_div_pow2 in E by lia.
  destruct (Z.eq_dec d 0); [done|]. exfalso.
  assert (2 <= 2 ^ k) by (change 2 with (2 ^ 1) at 1; apply Z.pow_le_mono_r; lia).
  pose proof (Z.div_lt d (2 ^ k) ltac:(lia) ltac:(lia)). lia.
Qed.

(** [x ^ (x >> k)] determines [x]. *)
Lemma xorshift_inj k x y :
  0 < k -> 0 <= x -> 0 <= y -> Z.lxor (Z.shiftr x k) x = Z.lxor (Z.shiftr y k) y -> x = y.
Proof.
  intros Hk Hx Hy E. apply Z.lxor_eq.
  apply (shiftr_fix _ k); [by apply Z.lxor_nonneg|done|].
  rewrite Z.shiftr_lxor.
  apply (f_equal (fun z => Z.lxor (Z.lxor z x) (Z.shiftr y k))) in E.
  rewrite (Z.lxor_assoc (Z.shiftr x k) x x), Z.lxor_nilpotent, Z.lxor_0_r in E.
  rewrite E. rewrite (Z.lxor_comm (Z.shiftr y k) y), (Z.lxor_assoc y), (Z.lxor_comm (Z.shiftr y k) x).
  rewrite Z.lxor_assoc, (Z.lxor_assoc x), Z.lxor_nilpotent, Z.lxor_0_r. apply Z.lxor_comm.
Qed.

Lemma shiftr_u32 x k : 0 <= x < 2 ^ 32 -> 0 <= k -> 0 <= Z.shiftr x k < 2 ^ 32.
Proof.
  intros Hx Hk. rewrite Z.shiftr_div_pow2 by done.
  assert (1 <= 2 ^ k) by (change 1 with (2 ^ 0) at 1; apply Z.pow_le_mono_r; lia).
  split; [apply Z.div_pos; lia|]. eapply Z.le_lt_trans; [|apply Hx].
  apply Z.div_le_upper_bound; nia.
Qed.

Lemma lxor_u32 x y : 0 <= x < 2 ^ 32 -> 0 <= y < 2 ^ 32 -> 0 <= Z.lxor x y < 2 ^ 32.
Proof.
  intros Hx Hy. split; [by apply Z.lxor_nonneg; split; intros; lia|].
  assert (E : Z.shiftr (Z.lxor x y) 32 = 0).
  { rewrite Z.shiftr_lxor, !Z.shiftr_div_pow2, !Z.div_small by lia. done. }
  rewrite Z.shiftr_div_pow2 in E by lia.
  apply Z.div_small_iff in E; [|lia]. destruct E as [E|E]; [lia|].
  assert (0 <= Z.lxor x y) by (apply Z.lxor_nonneg; split; intros; lia). lia.
Qed.

(** Multiplication by an odd constant with inverse [b]. *)
Lemma mul_u32_inj a b x y :
  (a * b) mod 2 ^ 32 = 1 -> 0 <= x < 2 ^ 32 -> 0 <= y < 2 ^ 32 -> u32 (x * a) = u32 (y * a) -> x = y.
Proof.
  unfold u32. intros Hab Hx Hy E.
  assert (H : forall z, 0 <= z < 2 ^ 32 -> ((z * a) mod 2 ^ 32 * b) mod 2 ^ 32 = z).
  { intros z Hz. rewrite Z.mul_mod_idemp_l, <- Z.mul_assoc, <- Z.mul_mod_idemp_r, Hab, Z.mul_1_r by lia.
    by apply Z.mod_small. }
  rewrite <- (H x Hx), <- (H y Hy), E. done.
Qed.

Lemma add_u32_inj c x y : 0 <= x < 2 ^ 32 -> 0 <= y < 2 ^ 32 -> u32 (x + c) = u32 (y + c) -> x = y.
Proof. intros Hx Hy E. unfold u32 in E. Z.div_mod_to_equations. lia. Qed.

(** The variable shift keeps the four bits that choose it. *)
Lemma pcg_mix_inj s t :
  0 <= s < 2 ^ 32 -> 0 <= t < 2 ^ 32 ->
  let f x := Z.lxor (Z.shiftr x (u32 (Z.shiftr x 28 + 4))) x in
  f s = f t -> s = t.
Proof.
  intros Hs Ht f E. unfold f in E.
  assert (H28 : forall x, 0 <= x < 2 ^ 32 -> 0 <= Z.shiftr x 28 < 16).
  { intros x Hx. rewrite Z.shiftr_div_pow2 by lia. change (2 ^ 28) with 268435456.
    Z.div_mod_to_equations. lia. }
  assert (Htop : forall x, 0 <= x < 2 ^ 32 ->
    Z.shiftr (Z.lxor (Z.shiftr x (u32 (Z.shiftr x 28 + 4))) x) 28 = Z.shiftr x 28).
  { intros x Hx. pose proof (H28 x Hx). rewrite (u32_small (Z.shiftr x 28 + 4)) by lia.
    rewrite Z.shiftr_lxor, Z.shiftr_shiftr by lia.
    assert (E0 : Z.shiftr x (Z.shiftr x 28 + 4 + 28) = 0); [|by rewrite E0, Z.lxor_0_l].
    rewrite Z.shiftr_div_pow2 by lia. apply Z.div_small. split; [lia|].
    eapply Z.lt_le_trans; [apply Hx|]. apply Z.pow_le_mono_r; lia. }
  assert (E28 : Z.shiftr s 28 = Z.shiftr t 28) by (rewrite <- (Htop s Hs), <- (Htop t Ht); by rewrite E).
  rewrite E28 in E. pose proof (H28 t Ht). rewrite u32_small in E by lia.
  apply (xorshift_inj (Z.shiftr t 28 + 4)); [lia..|done].
Qed.

(** ** Properties *)

(** The generator is a permutation.  Over the 2^32 states, no two give the
    same output and no two the same next state: a value recurs only when the
    state does. *)
Theorem SdbRandPCG_permutation (s t : Z) :
  0 <= s < 2 ^ 32 -> 0 <= t < 2 ^ 32 ->
  ((SdbRandPCG s).1 = (SdbRandPCG t).1 -> s = t) /\
  ((SdbRandPCG s).2 = (SdbRandPCG t).2 -> s = t) /\
  0 <= (SdbRandPCG s).1 < 2 ^ 32 /\ 0 <= (SdbRandPCG s).2 < 2 ^ 32.
Proof.
  intros Hs Ht.
  assert (Hmix : forall x, 0 <= x < 2 ^ 32 ->
            0 <= Z.lxor (Z.shiftr x (u32 (Z.shiftr x 28 + 4))) x < 2 ^ 32).
  { intros x Hx. apply lxor_u32; [|done]. apply shiftr_u32; [done|apply u32_range]. }
  unfold SdbRandPCG. cbn [fst snd]. split_and!.
  - intros E. apply xorshift_inj in E; [|lia|apply u32_range|apply u32_range].
    apply (mul_u32_inj 277803737 2897767785) in E; [|reflexivity|by apply Hmix..].
    by apply pcg_mix_inj in E.
  - intros E. apply add_u32_inj in E; [|apply u32_range..].
    by apply (mul_u32_inj 747796405 3425435293) in E.
  - apply lxor_u32; [|apply u32_range]. apply shiftr_u32; [apply u32_range|lia].
  - apply lxor_u32; [|apply u32_range]. apply shiftr_u32; [apply u32_range|lia].
  - apply u32_range.
  - apply u32_range.
Qed.

Lemma SdbRandPCG_permutation_witness :
  SdbRandPCG 0 = (0, 2891336453) /\ (SdbRandPCG 1).1 <> (SdbRandPCG 2).1.
Proof.
  split; [vm_compute; reflexivity|].
  intros E. destruct (SdbRandPCG_permutation 1 2) as [H _]; [lia|lia|]. apply H in E. lia.
Defined.

(** Two memories, one with a [UArena] and one with an [sdb_arena], and a process
    with a kernel arena, all showing the view of [demo_client]. *)
Definition demo_view : view := mkView 65536 4096 40.
Definition demo_buffer : mem := map_bytes ∅ 65536 4096 (fun _ => 9).

Definition demo_words (p : Z) (ws : list Z) : mem :=
  default demo_buffer
    (write_bytes (map_bytes demo_buffer p (8 * length ws) (fun _ => 0)) p
       (concat (map (le_encode 8) ws))).

Definition demo_sdb : mem := demo_words 1000 [40; 4096; 65536].
Definition demo_ua : mem := demo_words 2000 [0; 4096; 40; 65536].

#[local] Opaque demo_words.

Lemma demo_sdb_view : sdb_view demo_sdb 1000 demo_view.
Proof.
  constructor; cbn; [|lia|lia| |unfold sizeof_sdb_arena; lia].
  - constructor; [done|..]; (split; [vm_compute; reflexivity|cbn; lia]).
  - apply mapped_check. vm_compute. eauto.
Qed.

Lemma demo_ua_view : ua_view demo_ua 2000 demo_view.
Proof.
  exists 0. split; [|split; [|reflexivity]].
  - split; [done|]. split_and!; (split; [vm_compute; reflexivity|cbn; lia]).
  - constructor; cbn; [lia|lia| |unfold sizeof_UArena; lia].
    apply mapped_check. vm_compute. eauto.
Qed.

(** C4: The three arenas agree.  A [UArena], an [sdb_arena] and an arena of the
    kernel driver with the same buffer, capacity and position give the same
    answers to any sequence of calls inside the contract, and end in the same
    position. *)
Theorem arenas_agree (vplace : kstate -> Z -> option Z) (pid : Z) (m m' : mem) (p p' : Z)
    (c : kclient) (h : Z) (v : view) (ops : list Bump.op) :
  ua_view m p v -> sdb_view m' p' v -> ka_view c h v -> all_in_contract v ops ->
  exists m1 m1' c1 rs v1,
    @arena_run _ UArena_impl p ops m = Some (rs, m1) /\
    @arena_run _ SdbArena_impl p' ops m' = Some (rs, m1') /\
    @arena_run _ (KArena_impl vplace pid) h ops c = Some (rs, c1) /\
    ua_view m1 p v1 /\ sdb_view m1' p' v1 /\ ka_view c1 h v1.
Proof.
  intros Hu Hs Hk Hc.
  destruct (@arena_run_refines _ UArena_impl m p v ops Hu Hc) as (m1 & E1 & V1).
  destruct (@arena_run_refines _ SdbArena_impl m' p' v ops Hs Hc) as (m1' & E2 & V2).
  destruct (@arena_run_refines _ (KArena_impl vplace pid) c h v ops Hk Hc) as (c1 & E3 & V3).
  by exists m1, m1', c1, (view_run v ops).2, (view_run v ops).1.
Qed.

Lemma arenas_agree_witness :
  exists m1 m1' c1,
    let ops := [Bump.Alloc 100; Bump.Pop 20; Bump.Reserve 4000; Bump.Pos; Bump.Free] in
    @arena_run _ UArena_impl 2000 ops demo_ua = Some ([65576; 0; 3976; 120; 0], m1) /\
    @arena_run _ SdbArena_impl 1000 ops demo_sdb = Some ([65576; 0; 3976; 120; 0], m1') /\
    @arena_run _ (KArena_impl bump_vplace 7) 0 ops (demo_client 0) = Some ([65576; 0; 3976; 120; 0], c1).
Proof.
  set (ops := [Bump.Alloc 100; Bump.Pop 20; Bump.Reserve 4000; Bump.Pos; Bump.Free]).
  assert (Hc : all_in_contract demo_view ops)
    by (repeat split; unfold op_ok; cbn; try lia; by vm_compute).
  destruct (arenas_agree bump_vplace 7 demo_ua demo_sdb 2000 1000 (demo_client 0) 0 demo_view ops
              demo_ua_view demo_sdb_view demo_client_view Hc)
    as (m1 & m1' & c1 & rs & v1 & E1 & E2 & E3 & _).
  assert (Hrs : rs = [65576; 0; 3976; 120; 0]).
  { destruct (@arena_run_refines _ UArena_impl demo_ua 2000 demo_view ops demo_ua_view Hc) as (m2 & E & _).
    rewrite E in E1. injection E1 as <- _. reflexivity. }
  subst rs. exists m1, m1', c1. split; [exact E1|split; [exact E2|exact E3]].
Defined.

(** Scratch arenas.  [SdbScratchBegin], any sequence of calls inside the
    contract, [Sdb__ScratchRelease__]: the arena is back where it was. *)
Theorem SdbScratch_transparent (m : mem) (p : Z) (v : view) (ops : list Bump.op) :
  sdb_view m p v -> all_in_contract v ops ->
  exists m2 m3,
    SdbScratchBegin p m = Some (mkScratch p (v_cur v), m) /\
    @arena_run _ SdbArena_impl p ops m = Some ((view_run v ops).2, m2) /\
    Sdb__ScratchRelease__ (mkScratch p (v_cur v)) m2 = Some (tt, m3) /\ sdb_view m3 p v.
Proof.
  intros Hv Hc. pose proof (sv_at _ _ _ Hv) as Ha.
  destruct (@arena_run_refines _ SdbArena_impl m p v ops Hv Hc) as (m2 & E2 & V2).
  destruct (view_run_base v ops) as [Eb Ec]. set (v2 := (view_run v ops).1) in *.
  pose proof (sdb_view_bounds _ _ _ Hv).
  destruct (sdb_do_spec m2 p v2 (Bump.Seek (v_cur v)) V2) as (m3 & E3 & V3).
  { split; [unfold op_ok; cbn; lia|lia]. }
  exists m2, m3. split_and!.
  - unfold SdbScratchBegin, SdbArenaGetPos.
    M_step (load64_word_at _ _ _ (sa_cur _ _ _ Ha)). done.
  - exact E2.
  - unfold Sdb__ScratchRelease__. cbn [Scratch_Arena F5]. M_step E3. done.
  - unfold view_step, view_at in V3. cbn [Bump.step] in V3.
    rewrite (proj2 (Z.leb_le _ _)) in V3 by lia. cbn [fst] in V3. rewrite Eb, Ec in V3. by destruct v.
Qed.

Lemma SdbScratch_transparent_witness :
  exists m2 m3, SdbScratchBegin 1000 demo_sdb = Some (mkScratch 1000 40, demo_sdb) /\
    @arena_run _ SdbArena_impl 1000 [Bump.Zalloc 50; Bump.Free] demo_sdb = Some ([65576; 0], m2) /\
    Sdb__ScratchRelease__ (mkScratch 1000 40) m2 = Some (tt, m3) /\ sdb_view m3 1000 demo_view.
Proof.
  apply (SdbScratch_transparent demo_sdb 1000 demo_view [Bump.Zalloc 50; Bump.Free] demo_sdb_view).
  repeat split; unfold op_ok; cbn; try lia; by vm_compute.
Defined.
