(* ===== verification/Pool.v ===== *)
(** * The pool allocator of [src/src/sdhs/Sdb.h]

    [SDB_POOL_ALLOCATOR_DEFINE] defines, for a type with a field [Next], a pool:
    instances that are released are kept in a list through [Next] and handed out
    again before the arena is asked for more.  The type is given by its size and
    the offset of [Next].  The abstract pool has the contents of each instance
    that is in use ([spec_step]); [pool_refines] relates the two. *)

From S2P Require Import Prelude.
From S2P Require Import Memory.
From S2P Require Import Os.
From S2P Require Import UArena.
From S2P Require Import ArenaIface.
From S2P Require Import SdbMemory.
#[local] Open Scope Z_scope.

Section Pool.
(** [sizeof(type_name)] and [offsetof(type_name, Next)] *)
Variables sizeof next : Z.

(** [struct type_name##_pool] *)
Definition p_arena (Pool : Z) : Z := Pool.
Definition p_first_free (Pool : Z) : Z := Pool + 8.
Definition sizeof_pool : Z := 16.

Definition PoolAlloc (Pool : Z) : M Z :=
  Result ← load64 (p_first_free Pool);
  if negb (Result =? NULL) then
    first ← load64 (p_first_free Pool);
    n ← load64 (first + next);
    store64 (p_first_free Pool) n;;
    SdbMemZero Result sizeof;;
    mret Result
  else
    Arena ← load64 (p_arena Pool);
    SdbArenaPushZero Arena (sizeof *64 1).

Definition PoolRelease (Pool Instance : Z) : M unit :=
  first ← load64 (p_first_free Pool);
  store64 (Instance + next) first;;
  store64 (p_first_free Pool) Instance.

(** ** The abstract pool *)

Record pool := mkPool {
  free : list Z;              (* released, the last one first *)
  live : gmap Z (list Z);     (* in use, with the bytes of each *)
  arena : view;
}.

(** What a user of the pool does; it writes to an instance that it has. *)
Inductive action := Alloc | Release (p : Z) | Fill (p : Z) (l : list Z).

Definition spec_step (a : action) (s : pool) : Z * pool :=
  match a with
  | Alloc =>
      match free s with
      | x :: f => (x, mkPool f (<[x := replicate (Z.to_nat sizeof) 0]> (live s)) (arena s))
      | [] =>
          let cur := v_cur (arena s) in
          if cur + sizeof <=? v_cap (arena s) then
            let x := v_base (arena s) + cur in
            (x, mkPool [] (<[x := replicate (Z.to_nat sizeof) 0]> (live s)) (view_at (arena s) (cur + sizeof)))
          else (NULL, s)
      end
  | Release p => (0, mkPool (p :: free s) (delete p (live s)) (arena s))
  | Fill p l => (0, mkPool (free s) (alter (fun c => l ++ drop (length l) c) p (live s)) (arena s))
  end.

Definition legal (a : action) (s : pool) : Prop :=
  match a with
  | Alloc => True
  | Release p => is_Some (live s !! p)
  | Fill p l => is_Some (live s !! p) /\ Z.of_nat (length l) <= sizeof
  end.

Fixpoint spec_run (acts : list action) (s : pool) : list Z * pool :=
  match acts with
  | [] => ([], s)
  | a :: acts => let '(r, s) := spec_step a s in let '(rs, s) := spec_run acts s in (r :: rs, s)
  end.

Fixpoint all_legal (acts : list action) (s : pool) : Prop :=
  match acts with
  | [] => True
  | a :: acts => legal a s /\ all_legal acts (spec_step a s).2
  end.

(** The same actions on the code. *)
Definition pool_do (Pool : Z) (a : action) : M Z :=
  match a with
  | Alloc => PoolAlloc Pool
  | Release p => PoolRelease Pool p;; mret 0
  | Fill p l => fun m => m ← write_bytes m p l; Some (0, m)
  end.

Fixpoint pool_run (Pool : Z) (acts : list action) : M (list Z) :=
  match acts with
  | [] => mret []
  | a :: acts => r ← pool_do Pool a; rs ← pool_run Pool acts; mret (r :: rs)
  end.

(** ** The pool in memory *)

(** The list that starts at [first]. *)
Fixpoint chained (m : mem) (first : Z) (l : list Z) : Prop :=
  match l with
  | [] => first = NULL
  | x :: l => first = x /\ exists y, word_at m (x + next) y /\ chained m y l
  end.

Definition apart (x y : Z) : Prop := x + sizeof <= y \/ y + sizeof <= x.

Record pool_ok (Pool Arena start : Z) (m : mem) (s : pool) : Prop := {
  po_arena : sdb_view m Arena (arena s);
  po_base : v_base (arena s) + v_cap (arena s) < 2 ^ 63;
  po_ptr : word_at m (p_arena Pool) Arena;
  po_first : exists first, word_at m (p_first_free Pool) first /\ chained m first (free s);
  po_inside : forall x, x ∈ free s \/ is_Some (live s !! x) -> start <= x /\ x + sizeof <= v_base (arena s) + v_cur (arena s);
  po_start : v_base (arena s) <= start <= v_base (arena s) + v_cur (arena s);
  po_nodup : NoDup (free s);
  po_free : forall x, x ∈ free s -> live s !! x = None;
  po_apart : forall x y, x ∈ free s \/ is_Some (live s !! x) -> y ∈ free s \/ is_Some (live s !! y) -> x <> y -> apart x y;
  po_bytes : forall x c, live s !! x = Some c -> read_bytes m x (Z.to_nat sizeof) = Some c;
  po_struct : Pool + sizeof_pool <= v_base (arena s) \/ v_base (arena s) + v_cap (arena s) <= Pool;
  po_structs : Pool + sizeof_pool <= Arena \/ Arena + sizeof_sdb_arena <= Pool;
}.
End Pool.

(** ** Lemmas *)

Section Refinement.
Context (sizeof next : Z) (Hnext : 0 <= next /\ next + 8 <= sizeof < 2 ^ 62).
Context (Pool Arena start : Z).

#[local] Abbreviation pool_ok := (pool_ok sizeof next Pool Arena start).
#[local] Abbreviation chained := (chained next).

Definition owned (s : pool) (x : Z) : Prop := x ∈ free s \/ is_Some (live s !! x).
Definition block (x a : Z) : Prop := x <= a < x + sizeof.
Definition first_word (a : Z) : Prop := p_first_free Pool <= a < p_first_free Pool + 8.

Lemma chained_frame W m m' l : forall first, frame W m m' ->
  (forall x a, x ∈ l -> x + next <= a < x + next + 8 -> ~ W a) -> chained m first l -> chained m' first l.
Proof.
  induction l as [|x l IH]; intros first Hf Hw; [done|]. intros (-> & y & Hy & Hc). split; [done|]. exists y. split.
  - eapply word_at_frame; [exact Hf| |done]. intros a Ha. apply (Hw x); [left|done].
  - apply IH; [done| |done]. intros z a Hz. apply Hw. by right.
Qed.

Lemma sdb_view_frame W m m' v :
  frame W m m' -> (forall a, Arena <= a < Arena + sizeof_sdb_arena -> ~ W a) -> sdb_view m Arena v -> sdb_view m' Arena v.
Proof.
  unfold sizeof_sdb_arena. intros Hf Hw [[Hp H1 H2 H3] Hc Hb Hm Ha]. unfold a_cur, a_cap, a_mem in *.
  split; try done; [|by eapply frame_mapped].
  split; unfold a_cur, a_cap, a_mem; try done; (eapply word_at_frame; [exact Hf| |done]); intros a Hx; apply Hw; lia.
Qed.

Section State.
Context (m : mem) (s : pool) (Hok : pool_ok m s).

(** An instance lies in the buffer, away from the two structs. *)
Lemma owned_inside x a : owned s x -> block x a ->
  v_base (arena s) <= a < v_base (arena s) + v_cur (arena s) /\ ~ (Pool <= a < Pool + 16) /\ ~ (Arena <= a < Arena + 24).
Proof.
  intros Hx Ha. destruct (po_inside _ _ _ _ _ _ _ Hok x Hx) as [H1 H2]. pose proof (po_start _ _ _ _ _ _ _ Hok).
  pose proof (po_struct _ _ _ _ _ _ _ Hok) as Hs. pose proof (po_arena _ _ _ _ _ _ _ Hok) as Hv.
  pose proof (sv_cur _ _ _ Hv). pose proof (sv_apart _ _ _ Hv) as Hap. unfold sizeof_pool, sizeof_sdb_arena, block in *. lia.
Qed.

Lemma owned_pos x : owned s x -> 0 < x < 2 ^ 63.
Proof.
  intros Hx. destruct (po_inside _ _ _ _ _ _ _ Hok x Hx) as [H1 H2]. pose proof (po_start _ _ _ _ _ _ _ Hok).
  pose proof (po_arena _ _ _ _ _ _ _ Hok) as Hv. pose proof (sv_base _ _ _ Hv). pose proof (sv_cur _ _ _ Hv).
  pose proof (po_base _ _ _ _ _ _ _ Hok). lia.
Qed.

Lemma owned_apart x y a : owned s x -> owned s y -> x <> y -> block x a -> block y a -> False.
Proof. intros Hx Hy Hne H1 H2. pose proof (po_apart _ _ _ _ _ _ _ Hok x y Hx Hy Hne) as H. unfold apart, block in *. lia. Qed.

(** Writing to one instance. *)
Lemma frame_block m' x : owned s x -> frame (block x) m m' ->
  sdb_view m' Arena (arena s) /\ word_at m' (p_arena Pool) Arena /\
  (forall v, word_at m (p_first_free Pool) v -> word_at m' (p_first_free Pool) v) /\
  (forall l first, (forall y, y ∈ l -> owned s y /\ y <> x) -> chained m first l -> chained m' first l) /\
  (forall y n, owned s y -> y <> x -> Z.of_nat n <= sizeof -> read_bytes m' y n = read_bytes m y n).
Proof.
  intros Hx Hf. split_and!.
  - eapply sdb_view_frame; [exact Hf| |apply Hok]. intros a Ha Hw. by destruct (owned_inside x a Hx Hw) as (_ & _ & ?).
  - eapply word_at_frame; [exact Hf| |apply Hok]. unfold p_arena. intros a Ha Hw. destruct (owned_inside x a Hx Hw) as (_ & H & _). lia.
  - intros v. eapply word_at_frame; [exact Hf|]. unfold p_first_free. intros a Ha Hw. destruct (owned_inside x a Hx Hw) as (_ & H & _). lia.
  - intros l first Hl. eapply chained_frame; [exact Hf|]. intros y a Hy Ha Hw. destruct (Hl y Hy) as [Ho Hne].
    apply (owned_apart y x a Ho Hx Hne); [|done]. unfold block. lia.
  - intros y n Hy Hne Hn. eapply read_bytes_frame; [exact Hf|]. intros a Ha Hw. apply (owned_apart y x a Hy Hx Hne); [|done].
    unfold block. lia.
Qed.

(** Writing the pool's list pointer. *)
Lemma store_first v : 0 <= v < 2 ^ 64 -> exists m', store64 (p_first_free Pool) v m = Some (tt, m') /\ frame first_word m m' /\
  word_at m' (p_first_free Pool) v /\ sdb_view m' Arena (arena s) /\ word_at m' (p_arena Pool) Arena /\
  (forall l first, (forall y, y ∈ l -> owned s y) -> chained m first l -> chained m' first l) /\
  (forall y n, owned s y -> Z.of_nat n <= sizeof -> read_bytes m' y n = read_bytes m y n).
Proof.
  intros Hv. destruct (po_first _ _ _ _ _ _ _ Hok) as (first & Hw & _).
  destruct (store64_word m (p_first_free Pool) v) as (m' & E & Hag & Hw'); [by eapply word_at_mapped|done|].
  assert (Hf : frame first_word m m') by (eapply agree_outside_frame; [exact Hag|done]).
  pose proof (po_structs _ _ _ _ _ _ _ Hok) as Hss. unfold sizeof_pool, sizeof_sdb_arena in Hss.
  exists m'. split; [done|]. split; [done|]. split; [done|]. unfold first_word, p_first_free, p_arena in *. split_and!.
  - eapply sdb_view_frame; [exact Hf| |apply Hok]. unfold sizeof_sdb_arena. intros a Ha Hx. cbn in Hx. lia.
  - eapply word_at_frame; [exact Hf| |apply Hok]. unfold p_arena. intros a Ha Hx. cbn in Hx. lia.
  - intros l f Hl. eapply chained_frame; [exact Hf|]. intros y a Hy Ha Hx. cbn in Hx.
    destruct (owned_inside y a (Hl y Hy)) as (_ & H & _); [unfold block; lia|lia].
  - intros y n Hy Hn. eapply read_bytes_frame; [exact Hf|]. intros a Ha Hx. cbn in Hx.
    destruct (owned_inside y a Hy) as (_ & H & _); [unfold block; lia|lia].
Qed.
End State.

(** An instance in use has other bytes. *)
Lemma write_block m s x c c' m' :
  pool_ok m s -> live s !! x = Some c -> frame (block x) m m' -> read_bytes m' x (Z.to_nat sizeof) = Some c' ->
  pool_ok m' (mkPool (free s) (<[x := c']> (live s)) (arena s)).
Proof.
  intros Hok Hx Hf Hr. assert (Ho : owned s x) by (right; by rewrite Hx).
  destruct (frame_block m s Hok m' x Ho Hf) as (Ha & Hp & Hw & Hc & Hb).
  assert (Hown : forall y, y ∈ free s \/ is_Some (<[x:=c']> (live s) !! y) -> owned s y).
  { intros y [?|Hy]; [by left|]. right. rewrite lookup_insert_is_Some in Hy. destruct Hy as [<-|[_ ?]]; [by rewrite Hx|done]. }
  destruct Hok as [_ Hbase _ (first & Hfirst & Hch) Hin Hst Hnd Hfree Hap Hby Hs1 Hs2]. split; cbn; try done.
  - exists first. split; [by apply Hw|]. apply Hc; [|done]. intros y Hy. split; [by left|]. intros ->. by rewrite (Hfree x Hy) in Hx.
  - intros y Hy. apply Hin, Hown, Hy.
  - intros y Hy. rewrite lookup_insert_ne; [by apply Hfree|]. intros ->. by rewrite (Hfree y Hy) in Hx.
  - intros y z Hy Hz. apply Hap; by apply Hown.
  - intros y d. rewrite lookup_insert_Some. intros [[<- <-]|[Hne Hy]]; [done|].
    rewrite Hb; [by apply Hby|right; by rewrite Hy|done|lia].
Qed.

(** The first of the list is taken, as it is. *)
Lemma take_first m s x f :
  pool_ok m s -> free s = x :: f ->
  exists y m' c, word_at m (p_first_free Pool) x /\ word_at m (x + next) y /\ store64 (p_first_free Pool) y m = Some (tt, m') /\
    pool_ok m' (mkPool f (<[x := c]> (live s)) (arena s)).
Proof.
  intros Hok Hfree. destruct (po_first _ _ _ _ _ _ _ Hok) as (first & Hw & Hch). rewrite Hfree in Hch. destruct Hch as (-> & y & Hy & Hch).
  destruct (store_first m s Hok y) as (m' & E & Hf & Hw' & Ha & Hp & Hc & Hb); [apply Hy|].
  assert (Ho : owned s x) by (left; rewrite Hfree; left).
  assert (Hmap : mapped m x (Z.of_nat (Z.to_nat sizeof))).
  { eapply mapped_sub; [exact (sv_mapped _ _ _ (po_arena _ _ _ _ _ _ _ Hok))| |];
      destruct (po_inside _ _ _ _ _ _ _ Hok x Ho); pose proof (po_start _ _ _ _ _ _ _ Hok); pose proof (sv_cur _ _ _ (po_arena _ _ _ _ _ _ _ Hok)); lia. }
  destruct (read_bytes_is_Some m x _ Hmap) as [c Hrc]. exists y, m', c. split; [done|]. split; [done|]. split; [done|].
  assert (Hown : forall z, z ∈ f \/ is_Some (<[x:=c]> (live s) !! z) -> owned s z).
  { intros z [?|Hz]; [left; rewrite Hfree; by right|]. rewrite lookup_insert_is_Some in Hz. destruct Hz as [<-|[_ ?]]; [done|by right]. }
  destruct Hok as [_ Hbase _ _ Hin Hst Hnd Hfr Hap Hby Hs1 Hs2]. rewrite Hfree in Hnd. apply NoDup_cons in Hnd as [Hnx Hnd]. split; cbn; try done.
  - exists y. split; [done|]. apply Hc; [|done]. intros z Hz. apply Hown. by left.
  - intros z Hz. apply Hin, Hown, Hz.
  - intros z Hz. rewrite lookup_insert_ne by congruence. apply Hfr. rewrite Hfree. by right.
  - intros z w Hz Hw1. apply Hap; by apply Hown.
  - intros z d. rewrite lookup_insert_Some. intros [[<- <-]|[Hne Hz]].
    + rewrite Hb; [done|done|lia].
    + rewrite Hb; [by apply Hby|right; by rewrite Hz|lia].
Qed.

(** An instance goes to the front of the list. *)
Lemma put_first m s p c first :
  pool_ok m s -> live s !! p = Some c -> word_at m (p_first_free Pool) first -> word_at m (p + next) first ->
  exists m', store64 (p_first_free Pool) p m = Some (tt, m') /\ pool_ok m' (mkPool (p :: free s) (delete p (live s)) (arena s)).
Proof.
  intros Hok Hp Hw1 Hwn. assert (Ho : owned s p) by (right; by rewrite Hp). pose proof (owned_pos m s Hok p Ho) as Hpos.
  destruct (store_first m s Hok p) as (m' & E & Hf & Hw' & Ha & Hptr & Hc & Hb); [lia|]. exists m'. split; [done|].
  assert (Hown : forall z, z ∈ p :: free s \/ is_Some (delete p (live s) !! z) -> owned s z).
  { intros z [Hz|Hz]; [apply elem_of_cons in Hz as [->|?]; [done|by left]|]. rewrite lookup_delete_is_Some in Hz. right. tauto. }
  destruct Hok as [Hv Hbase _ (first' & Hfirst & Hch) Hin Hst Hnd Hfr Hap Hby Hs1 Hs2].
  assert (first' = first) as ->. { apply (load64_word_at) in Hfirst, Hw1. rewrite Hfirst in Hw1. congruence. }
  split; cbn; try done.
  - exists p. split; [done|]. split; [done|]. exists first. split.
    + eapply (word_at_frame first_word); [exact Hf| |done]. unfold first_word, p_first_free. intros a Ha2 Hx. unfold sizeof_pool in Hs1.
      destruct (Hin p Ho). pose proof (sv_cur _ _ _ Hv). lia.
    + apply Hc; [|done]. intros z Hz. by left.
  - intros z Hz. apply Hin, Hown, Hz.
  - apply NoDup_cons. split; [|done]. intros Hx. by rewrite (Hfr p Hx) in Hp.
  - intros z Hz. apply elem_of_cons in Hz as [->|Hz]; [by rewrite lookup_delete_eq|].
    destruct (decide (z = p)) as [->|Hne]; [by rewrite lookup_delete_eq|rewrite lookup_delete_ne by done; by apply Hfr].
  - intros z w Hz Hwz. apply Hap; by apply Hown.
  - intros z d. rewrite lookup_delete_Some. intros [Hne Hz]. rewrite Hb; [by apply Hby|right; by rewrite Hz|lia].
Qed.
End Refinement.

Section Steps.
Context (sizeof next : Z) (Hnext : 0 <= next /\ next + 8 <= sizeof < 2 ^ 62).
Context (Pool Arena start : Z).

#[local] Abbreviation pool_ok := (pool_ok sizeof next Pool Arena start).
#[local] Abbreviation block := (block sizeof).

(** The arena gives another instance. *)
Lemma grow m s :
  pool_ok m s -> let cur := v_cur (arena s) in let x := v_base (arena s) + cur in cur + sizeof <= v_cap (arena s) ->
  exists m' c, store64 (a_cur Arena) (cur + sizeof) m = Some (tt, m') /\
    pool_ok m' (mkPool (free s) (<[x := c]> (live s)) (view_at (arena s) (cur + sizeof))).
Proof.
  intros Hok cur x Hfit. pose proof Hok as [Hv Hbase Hptr (first & Hfirst & Hch) Hin Hst Hnd Hfr Hap Hby Hs1 Hs2].
  pose proof (sv_cur _ _ _ Hv) as Hcur. pose proof (sv_base _ _ _ Hv) as Hb0. pose proof (sv_apart _ _ _ Hv) as Hva.
  destruct (sdb_store_cur m Arena (arena s) (cur + sizeof) Hv ltac:(lia)) as (m' & E & Hv').
  destruct (store64_word m (a_cur Arena) (cur + sizeof)) as (m1 & E1 & Hag & _);
    [by eapply word_at_mapped, (sa_cur _ _ _ (sv_at _ _ _ Hv))|lia|]. rewrite E in E1. injection E1 as <-.
  unfold a_cur, p_arena, p_first_free, sizeof_pool, sizeof_sdb_arena in *.
  assert (Hsame : forall y n, owned s y -> Z.of_nat n <= sizeof -> read_bytes m' y n = read_bytes m y n).
  { intros y n Hy Hn. eapply read_bytes_agree; [exact Hag|]. destruct (Hin y Hy). lia. }
  destruct (read_bytes_is_Some m' x (Z.to_nat sizeof)) as [c Hc].
  { eapply mapped_sub; [exact (sv_mapped _ _ _ Hv')|cbn; lia..]. }
  assert (Hnew : forall y, owned s y -> y <> x /\ apart sizeof x y /\ apart sizeof y x) by (intros y Hy; destruct (Hin y Hy); unfold apart; lia).
  assert (Hown : forall y, y ∈ free s \/ is_Some (<[x:=c]> (live s) !! y) -> y = x \/ owned s y).
  { intros y [?|Hy]; [by right; left|]. rewrite lookup_insert_is_Some in Hy. destruct Hy as [<-|[_ ?]]; [by left|by right; right]. }
  exists m', c. split; [done|]. split; cbn; try done.
  - eapply word_at_agree; [exact Hag|unfold p_arena; lia|done].
  - exists first. split; [eapply word_at_agree; [exact Hag|unfold p_first_free; lia|done]|].
    eapply (chained_frame next (fun a => Arena <= a < Arena + 8)); [by eapply agree_outside_frame| |exact Hch].
    intros y a Hy Ha Hw. destruct (Hin y (or_introl Hy)). lia.
  - intros y Hy. destruct (Hown y Hy) as [->|Ho]; [lia|]. destruct (Hin y Ho). lia.
  - lia.
  - intros y Hy. rewrite lookup_insert_ne; [by apply Hfr|]. intros <-. by destruct (Hnew x (or_introl Hy)).
  - intros y z Hy Hz Hne. destruct (Hown y Hy) as [->|Hoy], (Hown z Hz) as [->|Hoz]; [done|by apply Hnew|by apply Hnew|by apply Hap].
  - intros y d. rewrite lookup_insert_Some. intros [[<- <-]|[Hne Hy]]; [done|]. rewrite Hsame; [by apply Hby|right; by rewrite Hy|lia].
Qed.

(** Clearing an instance in use. *)
Lemma clear_block m s x c :
  pool_ok m s -> live s !! x = Some c ->
  exists m', SdbMemZero x sizeof m = Some (tt, m') /\
    pool_ok m' (mkPool (free s) (<[x := replicate (Z.to_nat sizeof) 0]> (live s)) (arena s)).
Proof.
  intros Hok Hx. assert (Ho : owned s x) by (right; by rewrite Hx). rewrite SdbMemZero_bzero.
  destruct (bzero_spec m x sizeof) as (m' & E & Hag & Hz).
  { pose proof (po_bytes _ _ _ _ _ _ _ Hok _ _ Hx) as Hr. apply read_bytes_mapped in Hr. intros a Ha. apply Hr. lia. }
  exists m'. split; [done|]. eapply (write_block sizeof next Hnext Pool Arena start m s x c); [done..| |].
  - eapply agree_outside_frame; [exact Hag|]. unfold block. lia.
  - apply read_bytes_Some. split; [by rewrite length_replicate|]. intros i b Hi. apply lookup_replicate in Hi as [-> Hi]. apply Hz. lia.
Qed.

Lemma alloc_step m s : pool_ok m s ->
  exists m', PoolAlloc sizeof next Pool m = Some ((spec_step sizeof Alloc s).1, m') /\ pool_ok m' (spec_step sizeof Alloc s).2.
Proof.
  intros Hok. unfold PoolAlloc. cbn [spec_step]. destruct (free s) as [|x f] eqn:Hfree.
  - destruct (po_first _ _ _ _ _ _ _ Hok) as (first & Hw & Hch). rewrite Hfree in Hch. cbn in Hch. subst first. M_load Hw.
    change (negb (NULL =? NULL)) with false. cbn iota. pose proof (po_ptr _ _ _ _ _ _ _ Hok) as Hp. M_load Hp.
    pose proof (po_arena _ _ _ _ _ _ _ Hok) as Hv. pose proof (sv_cur _ _ _ Hv). pose proof (sv_base _ _ _ Hv).
    pose proof (sv_at _ _ _ Hv) as [_ Lcur Lcap Lmem]. cbn in Lcur, Lcap, Lmem. unfold SdbArenaPushZero. M_load Lcur. M_load Lcap.
    rewrite Z.mul_1_r, (u64_small sizeof), u64_small by lia. destruct (Z.leb_spec (v_cur (arena s) + sizeof) (v_cap (arena s))) as [Hfit|Hfit].
    + M_load Lmem. destruct (grow m s Hok Hfit) as (m1 & c & E1 & Hok1). M_step E1. rewrite u64_small by lia.
      destruct (clear_block _ _ (v_base (arena s) + v_cur (arena s)) c Hok1) as (m2 & E2 & Hok2); [cbn; by rewrite lookup_insert_eq|].
      M_step E2. exists m2. split; [done|]. cbn in Hok2. by rewrite Hfree, insert_insert_eq in Hok2.
    + by exists m.
  - destruct (take_first sizeof next Hnext Pool Arena start m s x f Hok Hfree) as (y & m1 & c & Hw & Hy & E1 & Hok1).
    assert (x <> NULL). { pose proof (owned_pos sizeof next Hnext Pool Arena start m s Hok x) as H. unfold NULL. 
      assert (0 < x < 2 ^ 63) by (apply H; left; rewrite Hfree; left). lia. }
    M_load Hw. rewrite (proj2 (Z.eqb_neq x NULL)) by done. cbn [negb]. M_load Hw. M_load Hy. M_step E1.
    destruct (clear_block _ _ x c Hok1) as (m2 & E2 & Hok2); [cbn; by rewrite lookup_insert_eq|]. M_step E2.
    exists m2. split; [done|]. cbn in Hok2. by rewrite insert_insert_eq in Hok2.
Qed.

Lemma fill_step m s p l c : pool_ok m s -> live s !! p = Some c -> Z.of_nat (length l) <= sizeof ->
  exists m', write_bytes m p l = Some m' /\ pool_ok m' (spec_step sizeof (Fill p l) s).2.
Proof.
  intros Hok Hp Hl. pose proof (po_bytes _ _ _ _ _ _ _ Hok _ _ Hp) as Hr. pose proof (read_bytes_mapped _ _ _ _ Hr) as Hm.
  destruct (write_bytes_is_Some m p l) as [m' Hw]; [intros a Ha; apply Hm; lia|]. exists m'. split; [done|]. cbn [spec_step snd].
  pose proof (write_bytes_agree _ _ _ _ Hw) as Hag.
  rewrite (alter_alt_Some _ _ _ _ Hp).
  eapply (write_block sizeof next Hnext Pool Arena start m s p c); [done..| |].
  - eapply agree_outside_frame; [exact Hag|]. unfold block. lia.
  - apply read_bytes_Some. pose proof (proj1 (read_bytes_Some _ _ _ _) Hr) as [Hlen Hb].
    split; [rewrite length_app, length_drop; lia|]. intros i b Hi. rewrite (write_bytes_lookup _ _ _ _ _ Hw).
    destruct (decide (i < length l)%nat) as [Hlt|Hge].
    + rewrite lookup_app_l in Hi by lia. rewrite decide_True by lia. by replace (Z.to_nat (p + Z.of_nat i - p)) with i by lia.
    + rewrite lookup_app_r, lookup_drop in Hi by lia. rewrite decide_False by lia. apply Hb. rewrite <- Hi. f_equal. lia.
Qed.

Lemma release_step m s p c : pool_ok m s -> live s !! p = Some c ->
  exists m', PoolRelease next Pool p m = Some (tt, m') /\ pool_ok m' (spec_step sizeof (Release p) s).2.
Proof.
  intros Hok Hp. destruct (po_first _ _ _ _ _ _ _ Hok) as (first & Hw & _). unfold PoolRelease. M_load Hw.
  pose proof (po_bytes _ _ _ _ _ _ _ Hok _ _ Hp) as Hr. pose proof (read_bytes_mapped _ _ _ _ Hr) as Hm.
  assert (Ho : owned s p) by (right; by rewrite Hp).
  destruct (store64_word m (p + next) first) as (m1 & E1 & Hag & Hw1); [intros a Ha; apply Hm; lia|apply Hw|]. M_step E1.
  assert (Hf : frame (block p) m m1) by (eapply agree_outside_frame; [exact Hag|unfold block; lia]).
  destruct (read_bytes_is_Some m1 p (Z.to_nat sizeof)) as [c1 Hc1]; [by eapply frame_mapped|].
  pose proof (write_block sizeof next Hnext Pool Arena start m s p c c1 m1 Hok Hp Hf Hc1) as Hok1.
  destruct (frame_block sizeof next Hnext Pool Arena start m s Hok m1 p Ho Hf) as (_ & _ & Hkeep & _).
  destruct (put_first sizeof next Hnext Pool Arena start m1 _ p c1 first Hok1) as (m2 & E2 & Hok2);
    [cbn; by rewrite lookup_insert_eq|by apply Hkeep|done|].
  exists m2. split; [done|]. cbn in Hok2 |- *. by rewrite delete_insert_eq in Hok2.
Qed.

Lemma do_step m s a : pool_ok m s -> legal sizeof a s ->
  exists m', pool_do sizeof next Pool a m = Some ((spec_step sizeof a s).1, m') /\ pool_ok m' (spec_step sizeof a s).2.
Proof.
  intros Hok Hl. destruct a as [|p|p l]; cbn [pool_do legal] in *.
  - by apply alloc_step.
  - destruct Hl as [c Hc]. destruct (release_step m s p c Hok Hc) as (m' & E & Hok'). M_step E. by exists m'.
  - destruct Hl as [[c Hc] Hl]. destruct (fill_step m s p l c Hok Hc Hl) as (m' & E & Hok'). exists m'. by rewrite E.
Qed.
Lemma spec_same a s : v_base (arena (spec_step sizeof a s).2) = v_base (arena s) /\ v_cap (arena (spec_step sizeof a s).2) = v_cap (arena s).
Proof. destruct a; cbn; [|done..]. destruct (free s); [|done]. by destruct (_ <=? _). Qed.

Lemma run_refines acts : forall m s, pool_ok m s -> all_legal sizeof acts s ->
  exists m', pool_run sizeof next Pool acts m = Some ((spec_run sizeof acts s).1, m') /\ pool_ok m' (spec_run sizeof acts s).2 /\
    v_base (arena (spec_run sizeof acts s).2) = v_base (arena s) /\ v_cap (arena (spec_run sizeof acts s).2) = v_cap (arena s).
Proof.
  induction acts as [|a acts IH]; intros m s Hok Hl; cbn [pool_run spec_run all_legal] in *; [by exists m|].
  destruct Hl as [Ha Hl]. destruct (do_step m s a Hok Ha) as (m1 & E1 & Hok1). M_step E1. pose proof (spec_same a s) as [S1 S2].
  destruct (spec_step sizeof a s) as [r s1]. cbn [fst snd] in *. destruct (IH m1 s1 Hok1 Hl) as (m2 & E2 & Hok2 & T1 & T2).
  destruct (spec_run sizeof acts s1) as [rs s2]. cbn [fst snd] in *. M_step E2. exists m2. split_and!; [done|done|congruence..].
Qed.
End Steps.

(** A pool over an arena, before its first call. *)
Definition empty_pool (v : view) : pool := mkPool [] ∅ v.

(** C37: The pool implements its specification.  On a pool over an arena whose structs
    lie apart and outside of the buffer, every sequence of allocations, releases
    of instances in use and writes to instances in use runs without a fault and
    has the results of the abstract pool: instances start out zeroed, hold what
    was written to them until they are released, overlap no other and lie in the
    arena; the one that was released last is handed out first, and NULL comes
    only when none is left and the arena is full. *)
Theorem pool_refines (sizeof next Pool Arena : Z) (m : mem) (v : view) (acts : list action) :
  0 <= next /\ next + 8 <= sizeof < 2 ^ 62 ->
  sdb_view m Arena v -> v_base v + v_cap v < 2 ^ 63 -> word_at m (p_arena Pool) Arena -> word_at m (p_first_free Pool) NULL ->
  Pool + sizeof_pool <= v_base v \/ v_base v + v_cap v <= Pool ->
  Pool + sizeof_pool <= Arena \/ Arena + sizeof_sdb_arena <= Pool ->
  all_legal sizeof acts (empty_pool v) ->
  exists m', pool_run sizeof next Pool acts m = Some ((spec_run sizeof acts (empty_pool v)).1, m') /\
    let s := (spec_run sizeof acts (empty_pool v)).2 in
    (forall x c, live s !! x = Some c ->
       read_bytes m' x (Z.to_nat sizeof) = Some c /\ v_base v + v_cur v <= x /\ x + sizeof <= v_base v + v_cap v) /\
    (forall x y, is_Some (live s !! x) -> is_Some (live s !! y) -> x <> y -> apart sizeof x y).
Proof.
  intros Hnext Hv Hb Hp Hf Hs1 Hs2 Hl. pose proof (sv_cur _ _ _ Hv) as Hcur.
  assert (Hok : pool_ok sizeof next Pool Arena (v_base v + v_cur v) m (empty_pool v)).
  { split; cbn; try done; try (intros x Hx; destruct Hx as [Hx|Hx]; [by apply not_elem_of_nil in Hx|by rewrite lookup_empty in Hx; destruct Hx]).
    - by exists NULL.
    - lia.
    - constructor.
    - intros x y [Hx|Hx]; [by apply not_elem_of_nil in Hx|]. rewrite lookup_empty in Hx. by destruct Hx. }
  destruct (run_refines sizeof next Hnext Pool Arena _ acts m _ Hok Hl) as (m' & E & Hok' & Eb & Ec). cbn in Eb, Ec. exists m'. split; [exact E|]. cbv zeta.
  destruct Hok' as [Hv' _ _ _ Hin _ _ _ Hap Hby _ _]. pose proof (sv_cur _ _ _ Hv'). split.
  - intros x c Hx. split; [by apply Hby|]. destruct (Hin x); [right; by rewrite Hx|]. lia.
  - intros x y Hx Hy. apply Hap; by right.
Qed.

(** ** A concrete pool *)

Module DemoPool.
(** The structs of the pool and of its arena, and a buffer of 100 bytes. *)
Definition words (p : Z) (ws : list Z) (m : mem) : mem :=
  foldr (fun '(i, b) m => <[p + Z.of_nat i := b]> m) m (imap pair (List.concat (map (le_encode 8) ws))).
Definition start : mem := words 2000 [1000; 0] (words 1000 [0; 100; 65536] (map_bytes ∅ 65536 100 (fun _ => 9))).
Definition a_view : view := mkView 65536 100 0.

Lemma start_view : sdb_view start 1000 a_view.
Proof.
  constructor; cbn; [|lia|lia| |unfold sizeof_sdb_arena; lia].
  - constructor; [done|..]; (split; [vm_compute; reflexivity|cbn; lia]).
  - apply mapped_check. vm_compute. eauto.
Qed.

Lemma start_words : word_at start (p_arena 2000) 1000 /\ word_at start (p_first_free 2000) NULL.
Proof. split; (split; [vm_compute; reflexivity|unfold NULL; lia]). Qed.

(** Two instances of 24 bytes, one of them released and handed out again. *)
Definition session : list action := [Alloc; Alloc; Fill 65536 [1; 2; 3]; Release 65536; Alloc; Alloc; Alloc; Alloc].

Lemma session_legal : all_legal 24 session (empty_pool a_view).
Proof. cbn. repeat split; try (eexists; reflexivity); lia. Qed.

(** Releasing an instance twice makes the list a cycle: the pool hands it out
    twice. *)
Lemma release_twice :
  (fun r => r.1) <$> pool_run 24 16 2000 [Alloc; Release 65536; Release 65536; Alloc; Alloc] start
  = Some [65536; 0; 0; 65536; 65536].
Proof. vm_compute. reflexivity. Qed.
End DemoPool.

Lemma pool_refines_witness :
  exists m', pool_run 24 16 2000 DemoPool.session DemoPool.start = Some ([65536; 65560; 0; 0; 65536; 65584; 65608; 0], m').
Proof.
  destruct (pool_refines 24 16 2000 1000 DemoPool.start DemoPool.a_view DemoPool.session ltac:(lia) DemoPool.start_view
    ltac:(cbn; lia) (proj1 DemoPool.start_words) (proj2 DemoPool.start_words) ltac:(cbn; unfold sizeof_pool; lia)
    ltac:(unfold sizeof_pool, sizeof_sdb_arena; lia) DemoPool.session_legal) as (m' & E & _).
  exists m'. exact E.
Defined.
