(* ===== verification/Time.v ===== *)
(** * Time: [src/src/sdhs/Common/Time.c]

    Differences of time are nanoseconds in 64 bits, converted to seconds and
    microseconds through doubles.  The doubles that occur are integers, or the
    quotient of one by a power of ten that is cut at once; so a double is the
    integer it holds, rounded to 53 significant bits, ties to even. *)

From S2P Require Import Prelude.
#[local] Open Scope Z_scope.

(** ** Doubles *)

(** The integer nearest to [num / den], ties to even. *)
Definition round_div (num den : Z) : Z :=
  let q := num / den in
  let r := num mod den in
  if 2 * r <? den then q
  else if den <? 2 * r then q + 1
  else if Z.even q then q else q + 1.

(** The double nearest to the integer [n]. *)
Definition double_of_nonneg (n : Z) : Z :=
  if n <? 2 ^ 53 then n
  else let ulp := 2 ^ (Z.log2 n - 52) in round_div n ulp * ulp.

Definition to_double (n : Z) : Z :=
  if n <? 0 then - double_of_nonneg (- n) else double_of_nonneg n.

(** [(u64)(d / k)]: the quotient of the doubles [d >= 0] and [k > 0], rounded to
    53 significant bits, then cut.  [s] binary places make the quotient a
    53-bit integer. *)
Definition quotient_places (d k : Z) : Z :=
  let s := 52 - (Z.log2 d - Z.log2 k) in
  if d * 2 ^ Z.max s 0 <? k * 2 ^ Z.max (- s) 0 * 2 ^ 52 then s + 1 else s.

Definition div_trunc (d k : Z) : Z :=
  if d =? 0 then 0 else
  let s := quotient_places d k in
  let m := round_div (d * 2 ^ Z.max s 0) (k * 2 ^ Z.max (- s) 0) in
  m * 2 ^ Z.max (- s) 0 / 2 ^ Z.max s 0.

(** [(u64)d]: out of range it is undefined. *)
Definition double_to_u64 (d : Z) : option Z := if (0 <=? d) && (d <? 2 ^ 64) then Some d else None.

(** ** The functions *)

Record timespec := mkTimespec { tv_sec : Z; tv_nsec : Z }.

Definition SDB_TIME_S (s : Z) : Z := to_double (to_double s * 10 ^ 9).
Definition SDB_TIME_MS (ms : Z) : Z := to_double (to_double ms * 10 ^ 6).
Definition SDB_TIME_US (us : Z) : Z := to_double (to_double us * 10 ^ 3).

Definition SDB_TIME_TO_S (ns : Z) : Z := div_trunc (to_double ns) (10 ^ 9).
Definition SDB_TIME_TO_MS (ns : Z) : Z := div_trunc (to_double ns) (10 ^ 6).
Definition SDB_TIME_TO_US (ns : Z) : Z := div_trunc (to_double ns) (10 ^ 3).
Definition SDB_TIME_TO_NS (ns : Z) : option Z := double_to_u64 (to_double ns).

Definition SdbTimeNow (clock_gettime errno : Z) : Z := if negb (clock_gettime =? 0) then - errno else 0.
Definition SdbTimeMonotonic (clock_gettime : Z) : Z := if negb (clock_gettime =? 0) then -1 else 0.

Definition SdbTimeAdd (Timespec : timespec) (Delta : Z) : option timespec :=
  let sec := s64 (tv_sec Timespec + SDB_TIME_TO_S (to_double Delta)) in
  ns ← SDB_TIME_TO_NS Delta;
  let nsec := s64 (tv_nsec Timespec + ns mod 10 ^ 9) in
  Some (if 10 ^ 9 <=? to_double nsec then mkTimespec (s64 (sec + 1)) (Z.rem nsec (10 ^ 9))
        else mkTimespec sec nsec).

(** [Now]: what [clock_gettime] stores. *)
Definition SdbTimespecAbsolute (clock_gettime errno : Z) (Now : timespec) (Delta : Z) : option (Z * timespec) :=
  let Ret := SdbTimeNow clock_gettime errno in
  if negb (Ret =? 0) then Some (Ret, Now)
  else Timespec ← SdbTimeAdd Now Delta; Some (Ret, Timespec).

(** The difference, copied to [Diff] or printed. *)
Definition SdbTimePrintSpecDiffWT (StartTime EndTime : timespec) : timespec :=
  if tv_nsec EndTime <? tv_nsec StartTime then
    mkTimespec (s64 (s64 (tv_sec EndTime - tv_sec StartTime) - 1))
               (s64 (s64 (1000000000 + tv_nsec EndTime) - tv_nsec StartTime))
  else mkTimespec (s64 (tv_sec EndTime - tv_sec StartTime)) (s64 (tv_nsec EndTime - tv_nsec StartTime)).

Definition SdbTimespec (Delta : Z) : option timespec :=
  ns ← SDB_TIME_TO_NS Delta;
  Some (mkTimespec (SDB_TIME_TO_S Delta) (ns mod 10 ^ 9)).

(** Seconds and microseconds. *)
Definition SdbTimeval (Delta : Z) : Z * Z :=
  (SDB_TIME_TO_S Delta, Z.land (SDB_TIME_TO_US Delta) (10 ^ 6)).

(** The double that each side of the comparison is computed as. *)
Definition total_double (t : timespec) : Z :=
  to_double (to_double (to_double (tv_sec t) * 10 ^ 9) + to_double (tv_nsec t)).

Definition SdbTimeoutExpired (Timeout Now : timespec) : bool :=
  let TimeoutNs := total_double Timeout in
  let NowNs := total_double Now in
  TimeoutNs <? NowNs.

(** With the result of [nanosleep] on the request. *)
Definition SdbSleep (nanosleep : timespec -> Z) (errno Delta : Z) : option Z :=
  Timespec ← SdbTimespec Delta;
  let Ret := nanosleep Timespec in
  Some (if negb (Ret =? 0) then - errno else Ret).

(** The instant, in nanoseconds. *)
Definition total (t : timespec) : Z := tv_sec t * 10 ^ 9 + tv_nsec t.
Definition normalised (t : timespec) : Prop := 0 <= tv_nsec t < 10 ^ 9.

(** ** Lemmas: rounding *)

Lemma round_div_bounds num den :
  0 < den -> 2 * (den * round_div num den) <= 2 * num + den /\ 2 * num - den <= 2 * (den * round_div num den).
Proof.
  intros Hd. unfold round_div. pose proof (Z.div_mod num den ltac:(lia)). pose proof (Z.mod_pos_bound num den Hd).
  set (q := num / den) in *. set (r := num mod den) in *.
  destruct (Z.ltb_spec (2 * r) den); [nia|]. destruct (Z.ltb_spec den (2 * r)); [nia|].
  destruct (Z.even q); nia.
Qed.

Lemma round_div_exact num den q : 0 < den -> num = q * den -> round_div num den = q.
Proof.
  intros Hd ->. unfold round_div. rewrite Z.div_mul, Z.mod_mul by lia.
  by rewrite (proj2 (Z.ltb_lt _ _)) by lia.
Qed.

Lemma round_div_mono x y den : 0 < den -> x <= y -> round_div x den <= round_div y den.
Proof.
  intros Hd Hxy. unfold round_div.
  pose proof (Z.div_mod x den ltac:(lia)). pose proof (Z.mod_pos_bound x den Hd).
  pose proof (Z.div_mod y den ltac:(lia)). pose proof (Z.mod_pos_bound y den Hd).
  pose proof (Z.div_le_mono x y den Hd Hxy).
  set (q := x / den) in *. set (r := x mod den) in *. set (q' := y / den) in *. set (r' := y mod den) in *.
  destruct (Z.eq_dec q q') as [E|E].
  - rewrite <- E in *. assert (r <= r') by nia. case_cmp; destruct (Z.even q); lia.
  - case_cmp; destruct (Z.even q), (Z.even q'); lia.
Qed.

(** An integer cannot be overtaken. *)
Lemma round_div_ge num den q : 0 < den -> q * den <= num -> q <= round_div num den.
Proof.
  intros Hd H. rewrite <- (round_div_exact (q * den) den q Hd eq_refl). by apply round_div_mono.
Qed.

Lemma round_div_le num den q : 0 < den -> num <= q * den -> round_div num den <= q.
Proof.
  intros Hd H. rewrite <- (round_div_exact (q * den) den q Hd eq_refl). by apply round_div_mono.
Qed.

Lemma round_div_lt num den q : 0 < den -> 2 * num < 2 * (q * den) - den -> round_div num den < q.
Proof. intros Hd H. pose proof (proj1 (round_div_bounds num den Hd)). nia. Qed.

Lemma log2_bounds n : 2 ^ 53 <= n ->
  2 ^ 53 * 2 ^ (Z.log2 n - 53) <= n < 2 ^ 53 * (2 * 2 ^ (Z.log2 n - 53)) /\ 53 <= Z.log2 n.
Proof.
  intros Hn. pose proof (Z.log2_spec n ltac:(lia)).
  assert (53 <= Z.log2 n) by (apply Z.log2_le_pow2; lia).
  rewrite <- (Z.pow_succ_r 2 (Z.log2 n - 53)), <- !Z.pow_add_r by lia.
  replace (53 + (Z.log2 n - 53)) with (Z.log2 n) by lia.
  by replace (53 + Z.succ (Z.log2 n - 53)) with (Z.succ (Z.log2 n)) by lia.
Qed.

Lemma to_double_small n : 0 <= n < 2 ^ 53 -> to_double n = n.
Proof.
  intros Hn. unfold to_double, double_of_nonneg.
  rewrite (proj2 (Z.ltb_ge n 0)) by lia. by rewrite (proj2 (Z.ltb_lt _ _)) by lia.
Qed.

(** The large integers, by their unit in the last place. *)
Definition ulp (n : Z) : Z := 2 ^ (Z.log2 n - 52).

Lemma to_double_large n :
  2 ^ 53 <= n -> to_double n = round_div n (ulp n) * ulp n /\ 2 ^ 52 * ulp n <= n < 2 ^ 53 * ulp n /\ 0 < ulp n.
Proof.
  intros Hn. destruct (log2_bounds n Hn) as [Hb Hl].
  assert (E : ulp n = 2 * 2 ^ (Z.log2 n - 53)).
  { unfold ulp. rewrite <- Z.pow_succ_r by lia. f_equal. lia. }
  assert (0 < 2 ^ (Z.log2 n - 53)) by (apply Z.pow_pos_nonneg; lia).
  split; [|lia]. unfold to_double, double_of_nonneg.
  rewrite (proj2 (Z.ltb_ge n 0)) by lia. by rewrite (proj2 (Z.ltb_ge n (2 ^ 53))) by lia.
Qed.

Lemma to_double_mono x y : 0 <= x -> x <= y -> to_double x <= to_double y.
Proof.
  intros Hx Hxy. destruct (Z.lt_ge_cases y (2 ^ 53)).
  { by rewrite !to_double_small by lia. }
  destruct (to_double_large y ltac:(done)) as (-> & Hy & Py).
  assert (Hlow : 2 ^ 52 * ulp y <= round_div y (ulp y) * ulp y).
  { apply Z.mul_le_mono_nonneg_r; [lia|]. apply round_div_ge; lia. }
  destruct (Z.lt_ge_cases x (2 ^ 53)).
  { rewrite to_double_small by lia.
    assert (2 <= ulp y) by (unfold ulp; destruct (log2_bounds y ltac:(done)); change 2 with (2 ^ 1) at 1; apply Z.pow_le_mono_r; lia).
    lia. }
  destruct (to_double_large x ltac:(done)) as (-> & Hx' & Px).
  pose proof (Z.log2_le_mono x y Hxy). destruct (Z.eq_dec (Z.log2 x) (Z.log2 y)) as [E|E].
  - assert (Eu : ulp x = ulp y) by (unfold ulp; by rewrite E). rewrite Eu in *.
    apply Z.mul_le_mono_nonneg_r; [lia|]. by apply round_div_mono.
  - trans (2 ^ 53 * ulp x).
    + apply Z.mul_le_mono_nonneg_r; [lia|]. apply round_div_le; lia.
    + etrans; [|exact Hlow]. destruct (log2_bounds x ltac:(done)).
      assert (2 * ulp x <= ulp y); [|lia]. unfold ulp. rewrite <- Z.pow_succ_r by lia.
      apply Z.pow_le_mono_r; lia.
Qed.

(** The error is at most half a unit. *)
Lemma to_double_error n b : 0 <= n < 2 ^ b -> 53 <= b -> - 2 ^ (b - 54) <= to_double n - n <= 2 ^ (b - 54).
Proof.
  intros Hn Hb. assert (0 < 2 ^ (b - 54) \/ b = 53) as [Hp| ->]
    by (destruct (Z.eq_dec b 53); [by right|left; apply Z.pow_pos_nonneg; lia]).
  2:{ rewrite to_double_small by lia. cbn. lia. }
  destruct (Z.lt_ge_cases n (2 ^ 53)); [rewrite to_double_small; lia|].
  destruct (to_double_large n ltac:(done)) as (-> & Hr & Hu).
  destruct (log2_bounds n ltac:(done)) as [_ Hl].
  assert (Hlog : Z.log2 n < b) by (apply Z.log2_lt_pow2; lia).
  pose proof (round_div_bounds n (ulp n) Hu).
  assert (ulp n <= 2 * 2 ^ (b - 54)); [|lia].
  unfold ulp. destruct (Z.le_gt_cases 54 b).
  - rewrite <- Z.pow_succ_r by lia. apply Z.pow_le_mono_r; lia.
  - lia.
Qed.

Lemma to_double_multiple n t :
  0 <= t -> 0 <= n < 2 ^ (53 + t) -> (2 ^ t | n) -> to_double n = n.
Proof.
  intros Ht Hn [q Hq]. destruct (Z.lt_ge_cases n (2 ^ 53)); [apply to_double_small; lia|].
  destruct (to_double_large n ltac:(done)) as (-> & _ & Hu). destruct (log2_bounds n ltac:(done)) as [_ Hl].
  assert (Z.log2 n < 53 + t) by (apply Z.log2_lt_pow2; lia).
  assert (E : n = q * 2 ^ (t - (Z.log2 n - 52)) * ulp n).
  { unfold ulp. rewrite <- Z.mul_assoc, <- Z.pow_add_r by lia.
    by replace (t - (Z.log2 n - 52) + (Z.log2 n - 52)) with t by lia. }
  by rewrite (round_div_exact n (ulp n) _ Hu E).
Qed.

(** Doubles below 2^62 come in multiples of their unit, 512 at most. *)
Lemma to_double_idem n : 0 <= n < 2 ^ 62 -> 
  exists t, 0 <= t <= 9 /\ (2 ^ t | to_double n) /\ 0 <= to_double n < 2 ^ 53 * 2 ^ t + 1.
Proof.
  intros Hn. destruct (Z.lt_ge_cases n (2 ^ 53)).
  { exists 0. rewrite to_double_small by lia. change (2 ^ 0) with 1. split_and!; [lia|lia|by exists n; lia|lia|lia]. }
  destruct (to_double_large n ltac:(done)) as (-> & Hr & Hu). destruct (log2_bounds n ltac:(done)) as [_ Hl].
  assert (Z.log2 n < 62) by (apply Z.log2_lt_pow2; lia).
  exists (Z.log2 n - 52). fold (ulp n). split_and!; [lia|lia|by exists (round_div n (ulp n))| |].
  - apply Z.mul_nonneg_nonneg; [|lia]. apply round_div_ge; lia.
  - assert (round_div n (ulp n) <= 2 ^ 53) by (apply round_div_le; lia). nia.
Qed.

(** ** Lemmas: the quotients *)

Lemma quotient_places_spec d k :
  0 < d -> 0 < k -> d < k * 2 ^ 53 ->
  0 <= quotient_places d k /\ k * 2 ^ 52 <= d * 2 ^ quotient_places d k.
Proof.
  intros Hd Hk Hq. unfold quotient_places.
  pose proof (Z.log2_spec d Hd). pose proof (Z.log2_spec k Hk). pose proof (Z.log2_nonneg k). pose proof (Z.log2_nonneg d).
  set (s := 52 - (Z.log2 d - Z.log2 k)).
  assert (Hs : -1 <= s).
  { assert (Z.log2 d < Z.succ (Z.log2 k) + 53); [|lia].
    apply Z.log2_lt_pow2; [done|]. rewrite Z.pow_add_r by lia. nia. }
  assert (Hlk : k * 2 ^ 52 < 2 ^ (53 + Z.log2 k)).
  { replace (53 + Z.log2 k) with (Z.succ (Z.log2 k) + 52) by lia. rewrite Z.pow_add_r by lia. nia. }
  destruct (Z.eq_dec s (-1)) as [E|E].
  - rewrite E. change (Z.max (-1) 0) with 0. change (Z.max (- -1) 0) with 1.
    rewrite (proj2 (Z.ltb_lt _ _)) by lia. split; [lia|]. change (2 ^ (-1 + 1)) with 1.
    replace (53 + Z.log2 k) with (Z.log2 d) in Hlk by lia. lia.
  - rewrite (Z.max_l s 0), (Z.max_r (- s) 0) by lia.
    destruct (Z.ltb_spec (d * 2 ^ s) (k * 2 ^ 0 * 2 ^ 52)); [|lia]. split; [lia|].
    etrans; [apply Z.lt_le_incl, Hlk|].
    replace (53 + Z.log2 k) with (Z.log2 d + (s + 1)) by lia. rewrite Z.pow_add_r by lia.
    apply Z.mul_le_mono_nonneg_r; [apply Z.pow_nonneg; lia|lia].
Qed.

(** Cutting the rounded quotient is the integer quotient, when the next
    multiple of [k] is far enough. *)
Lemma div_trunc_exact d k :
  0 <= d -> 0 < k -> d < (k - d mod k) * 2 ^ 53 -> div_trunc d k = d / k.
Proof.
  intros Hd Hk Hgap. unfold div_trunc. destruct (Z.eqb_spec d 0) as [->|Hd0]; [by rewrite Z.div_0_l by lia|].
  pose proof (Z.mod_pos_bound d k Hk). pose proof (Z.div_mod d k ltac:(lia)).
  destruct (quotient_places_spec d k) as [Hs Hq]; [lia..|].
  set (s := quotient_places d k) in *. rewrite (Z.max_l s 0), (Z.max_r (- s) 0) by lia.
  change (2 ^ 0) with 1. rewrite !Z.mul_1_r.
  assert (Hp : 0 < 2 ^ s) by (apply Z.pow_pos_nonneg; lia).
  set (j := d / k) in *. set (r := d mod k) in *.
  assert (j * 2 ^ s <= round_div (d * 2 ^ s) k).
  { apply round_div_ge; [done|]. nia. }
  assert (round_div (d * 2 ^ s) k < (j + 1) * 2 ^ s).
  { apply round_div_lt; [done|].
    assert (k < 2 * (k - r) * 2 ^ s); [|nia].
    apply (Z.mul_lt_mono_pos_r (2 ^ 52)); [lia|]. nia. }
  symmetry. apply (Z.div_unique _ _ j (round_div (d * 2 ^ s) k - 2 ^ s * j)); lia.
Qed.

Lemma gap_multiple d k g : 0 < k -> (g | d) -> (g | k) -> g <= k - d mod k.
Proof.
  intros Hk Hd Hg. pose proof (Z.mod_pos_bound d k Hk).
  apply Z.divide_pos_le; [lia|]. rewrite Z.mod_eq by lia.
  apply Z.divide_sub_r; [done|]. apply Z.divide_sub_r; [done|]. by apply Z.divide_mul_l.
Qed.

(** The doubles of [SdbTimeAdd]: seconds of a difference below 2^62. *)
Lemma div_trunc_seconds n : 0 <= n < 2 ^ 62 -> div_trunc (to_double n) (10 ^ 9) = to_double n / 10 ^ 9.
Proof.
  intros Hn. destruct (to_double_idem n Hn) as (t & Ht & Hdiv & Hd). set (d := to_double n) in *.
  apply div_trunc_exact; [lia|lia|].
  assert (Hg : 2 ^ t <= 10 ^ 9 - d mod 10 ^ 9).
  { apply gap_multiple; [lia|done|]. exists (1953125 * 2 ^ (9 - t)).
    rewrite <- Z.mul_assoc, <- Z.pow_add_r by lia. by replace (9 - t + t) with 9 by lia. }
  destruct (Z.eq_dec d (2 ^ 53 * 2 ^ t)) as [E|E]; [|lia].
  rewrite E. assert (Ht' : t = 0 \/ t = 1 \/ t = 2 \/ t = 3 \/ t = 4 \/ t = 5 \/ t = 6 \/ t = 7 \/ t = 8 \/ t = 9) by lia.
  clear -Ht'. by repeat (destruct Ht' as [->|Ht']; [by vm_compute|]); subst; vm_compute.
Qed.

Lemma to_double_twice n : 0 <= n < 2 ^ 62 -> to_double (to_double n) = to_double n.
Proof.
  intros Hn. destruct (to_double_idem n Hn) as (t & Ht & Hdiv & Hd).
  assert (Hp : 0 < 2 ^ t) by (apply Z.pow_pos_nonneg; lia).
  destruct (Z.eq_dec (to_double n) (2 ^ 53 * 2 ^ t)) as [E|E].
  - apply (to_double_multiple _ (53 + t)); [lia| |].
    + rewrite E, <- Z.pow_add_r by lia. split; [apply Z.pow_nonneg; lia|apply Z.pow_lt_mono_r; lia].
    + rewrite E, <- Z.pow_add_r by lia. apply Z.divide_refl.
  - apply (to_double_multiple _ t); [lia| |done]. rewrite Z.pow_add_r by lia. lia.
Qed.

Lemma to_double_62 n : 0 <= n < 2 ^ 62 -> 0 <= to_double n <= 2 ^ 62.
Proof.
  intros Hn. split.
  - change 0 with (to_double 0) at 1. apply to_double_mono; lia.
  - trans (to_double (2 ^ 62)); [apply to_double_mono; lia|]. by vm_compute.
Qed.

Lemma SDB_TIME_TO_S_eq n : 0 <= n < 2 ^ 62 -> SDB_TIME_TO_S n = to_double n / 10 ^ 9.
Proof. apply div_trunc_seconds. Qed.

Lemma SDB_TIME_TO_NS_eq n : 0 <= n < 2 ^ 62 -> SDB_TIME_TO_NS n = Some (to_double n).
Proof.
  intros Hn. pose proof (to_double_62 n Hn). unfold SDB_TIME_TO_NS, double_to_u64.
  by rewrite (proj2 (Z.leb_le _ _)), (proj2 (Z.ltb_lt _ _)) by lia.
Qed.

Lemma SdbTimespec_eq D :
  0 <= D < 2 ^ 62 -> SdbTimespec D = Some (mkTimespec (to_double D / 10 ^ 9) (to_double D mod 10 ^ 9)).
Proof. intros HD. unfold SdbTimespec. by rewrite SDB_TIME_TO_NS_eq, SDB_TIME_TO_S_eq. Qed.

Lemma SdbTimeAdd_eq t D :
  0 <= D < 2 ^ 62 -> 0 <= tv_sec t < 2 ^ 62 -> normalised t ->
  exists t', SdbTimeAdd t D = Some t' /\ normalised t' /\ 0 <= tv_sec t' < 2 ^ 63 /\
             total t' = total t + to_double D.
Proof.
  intros HD Hs Hn. pose proof (to_double_62 D HD). unfold normalised, total in *.
  unfold SdbTimeAdd. rewrite SDB_TIME_TO_NS_eq by done. cbn [mbind option_bind].
  assert (E : SDB_TIME_TO_S (to_double D) = to_double D / 10 ^ 9).
  { unfold SDB_TIME_TO_S. rewrite to_double_twice by done. by apply div_trunc_seconds. }
  rewrite E. set (d := to_double D) in *.
  pose proof (Z.div_mod d (10 ^ 9) ltac:(lia)). pose proof (Z.mod_pos_bound d (10 ^ 9) ltac:(lia)).
  assert (0 <= d / 10 ^ 9 <= 2 ^ 33) by (split; [apply Z.div_pos; lia|apply Z.div_le_upper_bound; lia]).
  rewrite (s64_small (tv_sec t + _)), (s64_small (tv_nsec t + _)) by lia.
  rewrite to_double_small by lia. eexists. split; [reflexivity|].
  destruct (Z.leb_spec (10 ^ 9) (tv_nsec t + d mod 10 ^ 9)); cbn [tv_sec tv_nsec]; [|lia].
  rewrite s64_small by lia.
  assert (Er : Z.rem (tv_nsec t + d mod 10 ^ 9) (10 ^ 9) = tv_nsec t + d mod 10 ^ 9 - 10 ^ 9).
  { rewrite Z.rem_mod_nonneg by lia. symmetry. apply (Z.mod_unique _ _ 1); lia. }
  rewrite Er. lia.
Qed.

Lemma SdbTimePrintSpecDiffWT_eq t t' :
  0 <= tv_sec t -> tv_sec t' < 2 ^ 63 -> normalised t -> normalised t' -> total t <= total t' ->
  let d := SdbTimePrintSpecDiffWT t t' in normalised d /\ 0 <= tv_sec d /\ total d = total t' - total t.
Proof.
  unfold normalised, total, SdbTimePrintSpecDiffWT. intros Hs Hs' Hn Hn' Hle.
  destruct (Z.ltb_spec (tv_nsec t') (tv_nsec t)); cbn [tv_sec tv_nsec].
  - rewrite (s64_small (tv_sec t' - tv_sec t)), (s64_small (1000000000 + _)) by lia.
    rewrite !s64_small by lia. lia.
  - rewrite !s64_small by lia. lia.
Qed.

(** A normalised instant is determined by its nanoseconds. *)
Lemma normalised_inj t t' : normalised t -> normalised t' -> total t = total t' -> t = t'.
Proof.
  unfold normalised, total. destruct t as [s n], t' as [s' n']; cbn. intros ? ? ?.
  assert (s = s') by lia. f_equal; lia.
Qed.

(** The wall clock before the year 2106: the double is the instant, rounded
    once. *)
Lemma total_double_eq t : 0 <= tv_sec t < 2 ^ 32 -> normalised t -> total_double t = to_double (total t).
Proof.
  intros Hs Hn. unfold total_double, total, normalised in *.
  rewrite (to_double_small (tv_sec t)), (to_double_small (tv_nsec t)) by lia.
  rewrite (to_double_multiple (tv_sec t * 10 ^ 9) 9); [done|lia|lia|].
  exists (tv_sec t * 1953125). lia.
Qed.

(** ** Properties *)

(** Adding a difference of time moves the instant by that difference -- as a
    double, so exactly below 2^53 nanoseconds (104 days) -- and keeps the
    nanoseconds below a second: the seconds cut from a rounded quotient and the
    nanoseconds from the remainder fit together. *)
Theorem SdbTimeAdd_adds (t : timespec) (Delta : Z) :
  0 <= Delta < 2 ^ 62 -> 0 <= tv_sec t < 2 ^ 62 -> normalised t ->
  exists t', SdbTimeAdd t Delta = Some t' /\ normalised t' /\
    total t' = total t + to_double Delta /\
    - 256 <= to_double Delta - Delta <= 256 /\
    (Delta < 2 ^ 53 -> total t' = total t + Delta).
Proof.
  intros HD Hs Hn. destruct (SdbTimeAdd_eq t Delta HD Hs Hn) as (t' & E & Hn' & _ & Ht).
  exists t'. split_and!; [done|done|done| | |].
  1,2: pose proof (to_double_error Delta 62 HD ltac:(lia)); change (2 ^ (62 - 54)) with 256 in *; lia.
  intros. by rewrite Ht, to_double_small by lia.
Qed.

Lemma SdbTimeAdd_adds_witness :
  exists t', SdbTimeAdd (mkTimespec 100 999999999) 1500000001 = Some t' /\ t' = mkTimespec 102 500000000.
Proof.
  destruct (SdbTimeAdd_adds (mkTimespec 100 999999999) 1500000001) as (t' & E & Hn & _ & _ & Ht);
    [lia|cbn; lia|split; cbn; lia|].
  exists t'. split; [exact E|]. apply normalised_inj; [exact Hn|split; cbn; lia|].
  rewrite (Ht ltac:(lia)). reflexivity.
Defined.

(** Taking the difference of two instants undoes the addition: the result is
    the difference that [SdbTimespec] makes. *)
Theorem SdbTimePrintSpecDiffWT_undoes (t t' : timespec) (Delta : Z) :
  0 <= Delta < 2 ^ 62 -> 0 <= tv_sec t < 2 ^ 62 -> normalised t ->
  SdbTimeAdd t Delta = Some t' -> Some (SdbTimePrintSpecDiffWT t t') = SdbTimespec Delta.
Proof.
  intros HD Hs Hn E. destruct (SdbTimeAdd_eq t Delta HD Hs Hn) as (t1 & E1 & Hn' & Hs' & Ht).
  rewrite E in E1. injection E1 as <-. pose proof (to_double_62 Delta HD).
  destruct (SdbTimePrintSpecDiffWT_eq t t') as (Hd & _ & Htd); [lia|lia|done|done|lia|].
  rewrite SdbTimespec_eq by done. f_equal. apply normalised_inj; [done| |].
  - unfold normalised. cbn [tv_nsec]. apply Z.mod_pos_bound. lia.
  - rewrite Htd, Ht. pose proof (Z.div_mod (to_double Delta) (10 ^ 9) ltac:(lia)).
    unfold total. cbn [tv_sec tv_nsec]. lia.
Qed.

Lemma SdbTimePrintSpecDiffWT_undoes_witness :
  Some (SdbTimePrintSpecDiffWT (mkTimespec 100 999999999) (mkTimespec 102 500000000)) = SdbTimespec 1500000001.
Proof.
  apply (SdbTimePrintSpecDiffWT_undoes (mkTimespec 100 999999999));
    [lia|cbn; lia|split; cbn; lia|vm_compute; reflexivity].
Defined.

(** The timeout test goes through doubles of the whole instant, 256 nanoseconds
    apart today.  It is never early; and it is late by at most 512
    nanoseconds. *)
Theorem SdbTimeoutExpired_bounds (Timeout Now : timespec) :
  0 <= tv_sec Timeout < 2 ^ 32 -> 0 <= tv_sec Now < 2 ^ 32 -> normalised Timeout -> normalised Now ->
  (SdbTimeoutExpired Timeout Now = true -> total Timeout < total Now) /\
  (total Timeout + 512 < total Now -> SdbTimeoutExpired Timeout Now = true).
Proof.
  intros HT HN nT nN. unfold SdbTimeoutExpired. rewrite !total_double_eq by done.
  assert (HbT : 0 <= total Timeout < 2 ^ 62) by (unfold total, normalised in *; lia).
  assert (HbN : 0 <= total Now < 2 ^ 62) by (unfold total, normalised in *; lia).
  split; intros H.
  - apply Z.ltb_lt in H. apply Z.nle_gt. intros Hle.
    pose proof (to_double_mono (total Now) (total Timeout) ltac:(lia) Hle). lia.
  - apply Z.ltb_lt.
    pose proof (to_double_error _ 62 HbT ltac:(lia)). pose proof (to_double_error _ 62 HbN ltac:(lia)).
    change (2 ^ (62 - 54)) with 256 in *. lia.
Qed.

Lemma SdbTimeoutExpired_bounds_witness :
  SdbTimeoutExpired (mkTimespec 1700000000 0) (mkTimespec 1700000000 2000) = true /\
  SdbTimeoutExpired (mkTimespec 1700000000 0) (mkTimespec 1700000000 100) = false.
Proof.
  split; [|vm_compute; reflexivity].
  apply (SdbTimeoutExpired_bounds (mkTimespec 1700000000 0) (mkTimespec 1700000000 2000));
    unfold normalised, total; cbn; lia.
Defined.

(** [SdbTimeval] masks the microseconds with the constant a million instead of
    reducing them by it: a second and half a millisecond becomes a second and
    999424 microseconds. *)
Lemma SdbTimeval_masks : SdbTimeval 1000500000 = (1, 999424).
Proof. vm_compute. reflexivity. Qed.
