(* ===== verification/Json.v ===== *)
(** * Reading JSON: [src/src/cJSON/cJSON.c]

    The configuration of the program is read with this copy of cJSON: the
    parser, the deletion of a value and the accessors the program calls.  The
    parser works on the bytes of the text by position, as the code does; a
    result of [None] is a read or write outside of a buffer, or too little fuel.
    The blocks taken from and given back to the hooks are counted.

    A value is a tree here.  The heap of linked items that the functions that
    build and edit values work on is [JsonTree]. *)

From S2P Require Import Prelude.
From Stdlib Require Import SpecFloat.
From Stdlib Require Import Strings.String.
#[local] Open Scope Z_scope.
#[local] Abbreviation length := List.length.

(** ** Data *)

(** An item by its [type] and the fields that go with it; the links between
    siblings are the order of a list, and the name of a member ([string]) is
    kept with the member.  [JInvalid] is a new item, all zero. *)
Inductive json :=
  | JInvalid
  | JNull
  | JBool (b : bool)
  | JNumber (valuedouble : spec_float) (valueint : Z)
  | JString (valuestring : list Z)
  | JArray (items : list json)
  | JObject (members : list (list Z * json)).

(** The type lists are nested in, for proofs by induction. *)
Section json_nested_ind.
Variable P : json -> Prop.
Hypothesis HInvalid : P JInvalid.
Hypothesis HNull : P JNull.
Hypothesis HBool : forall b, P (JBool b).
Hypothesis HNumber : forall d i, P (JNumber d i).
Hypothesis HString : forall s, P (JString s).
Hypothesis HArray : forall l, Forall P l -> P (JArray l).
Hypothesis HObject : forall l, Forall (fun m => P (snd m)) l -> P (JObject l).

Fixpoint json_nested_ind (j : json) : P j :=
  match j with
  | JInvalid => HInvalid
  | JNull => HNull
  | JBool b => HBool b
  | JNumber d i => HNumber d i
  | JString s => HString s
  | JArray l =>
      HArray l ((fix go (l : list json) : Forall P l :=
                   match l with
                   | [] => Forall_nil_2 _
                   | x :: l => Forall_cons_2 _ _ _ (json_nested_ind x) (go l)
                   end) l)
  | JObject l =>
      HObject l ((fix go (l : list (list Z * json)) : Forall (fun m => P (snd m)) l :=
                    match l with
                    | [] => Forall_nil_2 _
                    | m :: l => Forall_cons_2 (fun m => P (snd m)) m l (json_nested_ind (snd m)) (go l)
                    end) l)
  end.
End json_nested_ind.

Definition INT_MAX : Z := 2 ^ 31 - 1.
Definition INT_MIN : Z := - 2 ^ 31.

(** The integer part of a finite double, as a conversion truncates it. *)
Definition truncate (d : spec_float) : option Z :=
  match d with
  | S754_zero _ => Some 0
  | S754_infinity _ | S754_nan => None
  | S754_finite s m e =>
      let a := if 0 <=? e then Zpos m * 2 ^ e else Zpos m / 2 ^ (- e) in
      Some (if s then - a else a)
  end.

(** The value of [valueint] for a number: it saturates.  A double in range is
    compared with the bounds by its integer part. *)
Definition saturated (d : spec_float) : option Z :=
  match d with
  | S754_infinity false => Some INT_MAX
  | S754_infinity true => Some INT_MIN
  | _ => i ← truncate d;
         Some (if INT_MAX <=? i then INT_MAX else if i <=? INT_MIN then INT_MIN else i)
  end.

(** ** Accessors; [None] is the NULL pointer *)

Definition cJSON_IsObject (j : option json) : bool :=
  match j with Some (JObject _) => true | _ => false end.
Definition cJSON_IsArray (j : option json) : bool :=
  match j with Some (JArray _) => true | _ => false end.
Definition cJSON_IsString (j : option json) : bool :=
  match j with Some (JString _) => true | _ => false end.
Definition cJSON_IsNumber (j : option json) : bool :=
  match j with Some (JNumber _ _) => true | _ => false end.
Definition cJSON_IsBool (j : option json) : bool :=
  match j with Some (JBool _) => true | _ => false end.
Definition cJSON_IsTrue (j : option json) : bool :=
  match j with Some (JBool b) => b | _ => false end.
Definition cJSON_IsFalse (j : option json) : bool :=
  match j with Some (JBool b) => negb b | _ => false end.

(** The C string at the start of the bytes of a text: an escape can put a NUL
    into one. *)
Fixpoint c_str (l : list Z) : list Z :=
  match l with
  | [] => []
  | c :: l => if c =? 0 then [] else c :: c_str l
  end.

(** [item->valuestring], read without a look at the type: NULL, here empty,
    when the item is not a string. *)
Definition valuestring (j : option json) : list Z :=
  match j with Some (JString s) => c_str s | _ => [] end.

Definition cJSON_GetStringValue (j : option json) : option (list Z) :=
  match j with Some (JString s) => Some (c_str s) | _ => None end.

Definition cJSON_GetNumberValue (j : option json) : spec_float :=
  match j with Some (JNumber d _) => d | _ => S754_nan end.

Definition tolower (c : Z) : Z := if (65 <=? c) && (c <=? 90) then c + 32 else c.

(** [case_insensitive_strcmp(a, b) == 0] *)
Definition same_name (a b : list Z) : bool :=
  bool_decide (map tolower (c_str a) = map tolower (c_str b)).

(** The children of an array or object, each with its name if it has one. *)
Definition children (j : option json) : list (option (list Z) * json) :=
  match j with
  | Some (JArray items) => map (fun i => (None, i)) items
  | Some (JObject members) => map (fun '(k, i) => (Some k, i)) members
  | _ => []
  end.

(** [get_object_item] without regard to case: the walk over the children ends
    at the first one of that name; a child without a name is not one. *)
Fixpoint find_child (name : list Z) (l : list (option (list Z) * json)) : option json :=
  match l with
  | [] => None
  | (Some k, i) :: l => if same_name name k then Some i else find_child name l
  | (None, _) :: l => find_child name l
  end.

Definition cJSON_GetObjectItem (object : option json) (string : list Z) : option json :=
  find_child string (children object).

Definition cJSON_HasObjectItem (object : option json) (string : list Z) : bool :=
  match cJSON_GetObjectItem object string with Some _ => true | None => false end.

(** [(int)size] *)
Definition cJSON_GetArraySize (j : option json) : Z :=
  s32 (u32 (Z.of_nat (length (children j)))).

Definition get_array_item (j : option json) (index : nat) : option json :=
  snd <$> children j !! index.

Definition cJSON_GetArrayItem (j : option json) (index : Z) : option json :=
  if index <? 0 then None else get_array_item j (Z.to_nat index).

(** The blocks of an item: its structure, its text, and those of its children
    with their names.  [cJSON_Delete] gives them all back. *)
Fixpoint blocks (j : json) : nat :=
  match j with
  | JString _ => 2
  | JArray items => S (list_sum (map blocks items))
  | JObject members => S (list_sum (map (fun '(_, i) => S (blocks i)) members))
  | _ => 1
  end%nat.

(** ** The parser *)

Definition CJSON_NESTING_LIMIT : nat := Z.to_nat 1000.

(** [parse_buffer], with the calls of the allocation hook so far and the blocks
    that are live.  The offset is a [nat]: it never passes the length of an
    object in memory, and the code steps back only after a step forward. *)
Record pbuf := mkPB { offset : nat; depth : nat; calls : nat; live : nat }.

Definition set_offset (o : nat) (b : pbuf) : pbuf := mkPB o (depth b) (calls b) (live b).
Definition set_depth (d : nat) (b : pbuf) : pbuf := mkPB (offset b) d (calls b) (live b).
Definition forward (n : nat) (b : pbuf) : pbuf := set_offset (offset b + n) b.
Definition back (b : pbuf) : pbuf := set_offset (offset b - 1) b.
Definition deallocate (n : nat) (b : pbuf) : pbuf :=
  mkPB (offset b) (depth b) (calls b) (live b - n).

(** [cJSON_Delete] of a list of items with their names; the item parsed last may
    have no name yet. *)
Definition item_blocks (i : option (list Z) * json) : nat :=
  match fst i with Some _ => S (blocks (snd i)) | None => blocks (snd i) end.

Definition cJSON_Delete (items : list (option (list Z) * json)) (b : pbuf) : pbuf :=
  deallocate (list_sum (map item_blocks items)) b.

Definition quote : Z := 34.
Definition backslash : Z := 92.

(** *** UTF-16 escapes *)

Definition hex_digit (c : Z) : option Z :=
  if (48 <=? c) && (c <=? 57) then Some (c - 48)
  else if (65 <=? c) && (c <=? 70) then Some (10 + c - 65)
  else if (97 <=? c) && (c <=? 102) then Some (10 + c - 97)
  else None.

(** The loop of [parse_hex4], [n] digits left; 0 for a character that is not a
    digit.  [None]: a read past the end. *)
Fixpoint hex_loop (n : nat) (h : Z) (input : list Z) : option Z :=
  match n with
  | O => Some h
  | S n =>
      match input with
      | [] => None
      | c :: input =>
          match hex_digit c with
          | Some v => hex_loop n (let h := u32 (h + v) in if (n =? 0)%nat then h else u32 (Z.shiftl h 4)) input
          | None => Some 0
          end
      end
  end.

Definition parse_hex4 (input : list Z) : option Z := hex_loop 4 0 input.

(** The bytes after the first of an encoding of [n + 1] bytes, and what is left
    of the code point. *)
Fixpoint encode_tail (n : nat) (codepoint : Z) : Z * list Z :=
  match n with
  | O => (codepoint, [])
  | S n =>
      let byte := Z.land (Z.lor codepoint 128) 191 in
      let '(codepoint, tail) := encode_tail n (Z.shiftr codepoint 6) in
      (codepoint, tail ++ [byte])
  end.

(** The length of the encoding and the mark of its first byte. *)
Definition utf8_shape (codepoint : Z) : option (nat * Z) :=
  if codepoint <? 128 then Some (1%nat, 0)
  else if codepoint <? 2048 then Some (2%nat, 192)
  else if codepoint <? 65536 then Some (3%nat, 224)
  else if codepoint <=? 1114111 then Some (4%nat, 240)
  else None.

Definition encode_utf8 (codepoint : Z) : option (list Z) :=
  '(utf8_length, first_byte_mark) ← utf8_shape codepoint;
  let '(rest, tail) := encode_tail (utf8_length - 1) codepoint in
  Some ((if (1 <? utf8_length)%nat then Z.land (Z.lor rest first_byte_mark) 255
         else Z.land rest 127) :: tail).

(** [input]: the bytes from the backslash to the end of the string literal.  The
    result is the length of the sequence, 0 for a failure, and the bytes
    written. *)
Definition utf16_literal_to_utf8 (input : list Z) : option (nat * list Z) :=
  if (length input <? 6)%nat then Some (0%nat, [])
  else
    first_code ← parse_hex4 (drop 2 input);
    if (56320 <=? first_code) && (first_code <=? 57343) then Some (0%nat, [])
    else
      let encode (sequence_length : nat) (codepoint : Z) :=
        match encode_utf8 codepoint with
        | Some out => Some (sequence_length, out)
        | None => Some (0%nat, [])
        end in
      if (55296 <=? first_code) && (first_code <=? 56319) then
        let second_sequence := drop 6 input in
        if (length second_sequence <? 6)%nat then Some (0%nat, [])
        else if negb (bool_decide (take 2 second_sequence = [backslash; 117])) then Some (0%nat, [])
        else
          second_code ← parse_hex4 (drop 2 second_sequence);
          if (second_code <? 56320) || (57343 <? second_code) then Some (0%nat, [])
          else
            encode 12%nat
              (65536 + Z.lor (Z.shiftl (Z.land first_code 1023) 10) (Z.land second_code 1023))
      else encode 6%nat first_code.

(** *** String literals *)

(** The first loop of [parse_string], from the byte after the opening quote: the
    distance to the closing quote and the escapes passed; [None] when the text
    ends first. *)
Fixpoint scan_literal (l : list Z) : option (nat * nat) :=
  match l with
  | [] => None
  | c :: l =>
      if c =? quote then Some (0, 0)%nat
      else if c =? backslash then
        match l with
        | [] => None
        | _ :: l => '(n, skipped) ← scan_literal l; Some (S (S n), S skipped)
        end
      else '(n, skipped) ← scan_literal l; Some (S n, skipped)
  end.

(** The byte an escape of one character stands for. *)
Definition simple_escape (e : Z) : option Z :=
  if e =? 98 then Some 8            (* \b *)
  else if e =? 102 then Some 12     (* \f *)
  else if e =? 110 then Some 10     (* \n *)
  else if e =? 114 then Some 13     (* \r *)
  else if e =? 116 then Some 9      (* \t *)
  else if (e =? quote) || (e =? backslash) || (e =? 47) then Some e
  else None.

(** The second loop: [l] is the text from [input_pointer] on, [n] how far
    [input_end] is, [room] the bytes left in the output.  The result is the
    output, or [inr] and how far the loop came. *)
Fixpoint unescape (fuel : nat) (l : list Z) (n pos room : nat) : option (list Z + nat) :=
  match fuel with
  | O => None
  | S fuel =>
      let emit (out : list Z) (step : nat) :=
        if (room <? length out)%nat then None
        else
          r ← unescape fuel (drop step l) (n - step) (pos + step) (room - length out);
          Some (match r with inl rest => inl (out ++ rest) | inr p => inr p end) in
      if (n =? 0)%nat then if (room =? 0)%nat then None else Some (inl [])
      else
        match l with
        | [] => None
        | c :: l' =>
            if negb (c =? backslash) then emit [c] 1%nat
            else
              match l' with
              | [] => None
              | e :: _ =>
                  if e =? 117 then
                    '(sequence_length, out) ← utf16_literal_to_utf8 (take n l);
                    if (sequence_length =? 0)%nat then Some (inr pos) else emit out sequence_length
                  else
                    match simple_escape e with
                    | Some byte => emit [byte] 2%nat
                    | None => Some (inr pos)
                    end
              end
        end
  end.

Section Parser.
(** The text with the length given to the parser, whether a call of the
    allocation hook succeeds, and [strtod]: the number and the bytes it took. *)
Variable content : list Z.
Variable grant : nat -> bool.
Variable strtod : list Z -> spec_float * nat.

Definition allocate (b : pbuf) : bool * pbuf :=
  if grant (calls b) then (true, mkPB (offset b) (depth b) (S (calls b)) (S (live b)))
  else (false, mkPB (offset b) (depth b) (S (calls b)) (live b)).

Definition can_read (b : pbuf) (size : nat) : bool := (offset b + size <=? length content)%nat.
Definition can_access_at_index (b : pbuf) (i : nat) : bool := (offset b + i <? length content)%nat.

(** [can_access_at_index(b, 0) && buffer_at_offset(b)[0] == c] *)
Definition at_char (b : pbuf) (c : Z) : bool :=
  bool_decide (content !! offset b = Some c).

(** [can_read(b, strlen(s)) && strncmp(buffer_at_offset(b), s, strlen(s)) == 0] *)
Definition at_literal (b : pbuf) (s : list Z) : bool :=
  can_read b (length s) && bool_decide (take (length s) (drop (offset b) content) = s).

Fixpoint skip_from (l : list Z) : nat :=
  match l with
  | c :: l => if c <=? 32 then S (skip_from l) else O
  | [] => O
  end.

Definition buffer_skip_whitespace (b : pbuf) : pbuf :=
  if negb (can_access_at_index b 0) then b
  else
    let b := forward (skip_from (drop (offset b) content)) b in
    if (offset b =? length content)%nat then back b else b.

Definition skip_utf8_bom (b : pbuf) : pbuf :=
  if can_access_at_index b 4 && bool_decide (take 3 (drop (offset b) content) = [239; 187; 191])
  then forward 3 b else b.

Definition is_number_char (c : Z) : bool :=
  (48 <=? c) && (c <=? 57) || (c =? 43) || (c =? 45) || (c =? 101) || (c =? 69) || (c =? 46).

(** What goes to the buffer of 64 bytes. *)
Fixpoint number_chars (room : nat) (l : list Z) : list Z :=
  match room, l with
  | S room, c :: l => if is_number_char c then c :: number_chars room l else []
  | _, _ => []
  end.

Definition parse_number (b : pbuf) : option (option json * pbuf) :=
  let '(number, taken) := strtod (number_chars 63 (drop (offset b) content)) in
  if (taken =? 0)%nat then Some (None, b)
  else valueint ← saturated number; Some (Some (JNumber number valueint), forward taken b).

Definition parse_string (b : pbuf) : option (option (list Z) * pbuf) :=
  c ← content !! offset b;
  if negb (c =? quote) then Some (None, forward 1 b)
  else
    let l := drop (S (offset b)) content in
    match scan_literal l with
    | None => Some (None, forward 1 b)
    | Some (n, skipped) =>
        let allocation_length := (S n - skipped)%nat in
        let '(ok, b) := allocate b in
        if negb ok then Some (None, forward 1 b)
        else
          r ← unescape (S n) l n 0 (S allocation_length);
          match r with
          | inr pos => Some (None, forward (1 + pos) (deallocate 1 b))
          | inl out => Some (Some out, forward (1 + n + 1) b)
          end
    end.

Definition fail_with (items : list (option (list Z) * json)) (b : pbuf)
    : option (option json * pbuf) :=
  Some (None, cJSON_Delete items b).

(** The children parsed so far are [items], each with its name in an object. *)
Fixpoint parse_value (fuel : nat) (b : pbuf) {struct fuel} : option (option json * pbuf) :=
  match fuel with
  | O => None
  | S fuel =>
      if at_literal b (bytes "null") then Some (Some JNull, forward 4 b)
      else if at_literal b (bytes "false") then Some (Some (JBool false), forward 5 b)
      else if at_literal b (bytes "true") then Some (Some (JBool true), forward 4 b)
      else
        match content !! offset b with
        | None => Some (None, b)
        | Some c =>
            if c =? quote then
              '(r, b) ← parse_string b; Some (option_map JString r, b)
            else if (c =? 45) || (48 <=? c) && (c <=? 57) then parse_number b
            else if c =? 91 then parse_array fuel b
            else if c =? 123 then parse_object fuel b
            else Some (None, b)
        end
  end
with parse_array (fuel : nat) (b : pbuf) {struct fuel} : option (option json * pbuf) :=
  match fuel with
  | O => None
  | S fuel =>
      if (CJSON_NESTING_LIMIT <=? depth b)%nat then Some (None, b)
      else
        let b := set_depth (S (depth b)) b in
        c ← content !! offset b;
        if negb (c =? 91) then fail_with [] b
        else
          let b := buffer_skip_whitespace (forward 1 b) in
          if at_char b 93 then Some (Some (JArray []), forward 1 (set_depth (depth b - 1) b))
          else if negb (can_access_at_index b 0) then fail_with [] (back b)
          else parse_elements fuel [] (back b)
  end
with parse_elements (fuel : nat) (items : list json) (b : pbuf) {struct fuel}
    : option (option json * pbuf) :=
  match fuel with
  | O => None
  | S fuel =>
      let unnamed := map (fun i => (None, i)) in
      let '(ok, b) := allocate b in
      if negb ok then fail_with (unnamed items) b
      else
        let b := buffer_skip_whitespace (forward 1 b) in
        '(r, b) ← parse_value fuel b;
        match r with
        | None => fail_with (unnamed (items ++ [JInvalid])) b
        | Some i =>
            let items := items ++ [i] in
            let b := buffer_skip_whitespace b in
            if at_char b 44 then parse_elements fuel items b
            else if negb (at_char b 93) then fail_with (unnamed items) b
            else Some (Some (JArray items), forward 1 (set_depth (depth b - 1) b))
        end
  end
with parse_object (fuel : nat) (b : pbuf) {struct fuel} : option (option json * pbuf) :=
  match fuel with
  | O => None
  | S fuel =>
      if (CJSON_NESTING_LIMIT <=? depth b)%nat then Some (None, b)
      else
        let b := set_depth (S (depth b)) b in
        if negb (at_char b 123) then fail_with [] b
        else
          let b := buffer_skip_whitespace (forward 1 b) in
          if at_char b 125 then Some (Some (JObject []), forward 1 (set_depth (depth b - 1) b))
          else if negb (can_access_at_index b 0) then fail_with [] (back b)
          else parse_members fuel [] (back b)
  end
with parse_members (fuel : nat) (members : list (list Z * json)) (b : pbuf) {struct fuel}
    : option (option json * pbuf) :=
  match fuel with
  | O => None
  | S fuel =>
      let named := map (fun '(k, i) => (Some k, i)) in
      let '(ok, b) := allocate b in
      if negb ok then fail_with (named members) b
      else if negb (can_access_at_index b 1) then fail_with (named members ++ [(None, JInvalid)]) b
      else
        let b := buffer_skip_whitespace (forward 1 b) in
        '(r, b) ← parse_string b;
        match r with
        | None => fail_with (named members ++ [(None, JInvalid)]) b
        | Some name =>
            let b := buffer_skip_whitespace b in
            if negb (at_char b 58) then fail_with (named (members ++ [(name, JInvalid)])) b
            else
              let b := buffer_skip_whitespace (forward 1 b) in
              '(r, b) ← parse_value fuel b;
              match r with
              | None => fail_with (named (members ++ [(name, JInvalid)])) b
              | Some i =>
                  let members := members ++ [(name, i)] in
                  let b := buffer_skip_whitespace b in
                  if at_char b 44 then parse_members fuel members b
                  else if negb (at_char b 125) then fail_with (named members) b
                  else Some (Some (JObject members), forward 1 (set_depth (depth b - 1) b))
              end
        end
  end.

(** What [cJSON_ParseWithLengthOpts] leaves: the value, the position in
    [return_parse_end], and the position in [global_error] if there is one. *)
Record parsed := mkParsed { item : option json; parse_end : nat; error : option nat; after : pbuf }.

Definition parse_failed (b : pbuf) : parsed :=
  let position := if (offset b <? length content)%nat then offset b
                  else (length content - 1)%nat in
  mkParsed None position (Some position) b.

(** Three units of fuel for a byte are enough, see [parse_total]. *)
Definition parse_fuel : nat := (3 * length content + 3)%nat.

Definition cJSON_ParseWithLengthOpts (require_null_terminated : bool) (b : pbuf) : option parsed :=
  let b := mkPB 0 0 (calls b) (live b) in
  if (length content =? 0)%nat then Some (parse_failed b)
  else
    let '(ok, b) := allocate b in
    if negb ok then Some (parse_failed b)
    else
      '(r, b) ← parse_value parse_fuel (buffer_skip_whitespace (skip_utf8_bom b));
      match r with
      | None => Some (parse_failed (cJSON_Delete [(None, JInvalid)] b))
      | Some j =>
          let b := if require_null_terminated then buffer_skip_whitespace b else b in
          if require_null_terminated && negb (at_char b 0)
          then Some (parse_failed (cJSON_Delete [(None, j)] b))
          else Some (mkParsed (Some j) (offset b) None b)
      end.
End Parser.

(** [value]: the bytes from a pointer on, of which the C string is parsed. *)
Definition cJSON_Parse (value : list Z) (grant : nat -> bool) (strtod : list Z -> spec_float * nat)
    (b : pbuf) : option parsed :=
  cJSON_ParseWithLengthOpts (c_str value ++ [0]) grant strtod false b.

(** ** Lemmas on string literals *)

Lemma hex_digit_range c v : hex_digit c = Some v -> 0 <= v < 16.
Proof. unfold hex_digit. case_cmp; cbn; intros [= <-]; lia. Qed.

Lemma hex_step h v :
  0 <= h < 2 ^ 16 -> 0 <= v < 16 -> u32 (Z.shiftl (u32 (h + v)) 4) = 16 * (h + v).
Proof. intros. rewrite (u32_small (h + v)), Z.shiftl_mul_pow2, u32_small by lia. lia. Qed.

Lemma parse_hex4_digits a b c d rest va vb vc vd :
  hex_digit a = Some va -> hex_digit b = Some vb -> hex_digit c = Some vc -> hex_digit d = Some vd ->
  parse_hex4 (a :: b :: c :: d :: rest) = Some (4096 * va + 256 * vb + 16 * vc + vd).
Proof.
  intros Ha Hb Hc Hd. pose proof (hex_digit_range _ _ Ha). pose proof (hex_digit_range _ _ Hb).
  pose proof (hex_digit_range _ _ Hc). pose proof (hex_digit_range _ _ Hd).
  unfold parse_hex4. cbn [hex_loop Nat.eqb]. rewrite Ha, Hb, Hc, Hd.
  rewrite (hex_step 0 va), (hex_step _ vb), (hex_step _ vc), u32_small by lia. f_equal. lia.
Qed.

Lemma parse_hex4_total input :
  (4 <= length input)%nat -> exists v, parse_hex4 input = Some v /\ 0 <= v < 65536.
Proof.
  destruct input as [|a [|b [|c [|d rest]]]]; cbn [length]; try lia. intros _.
  destruct (hex_digit a) as [va|] eqn:Ha.
  2: { exists 0. unfold parse_hex4. cbn [hex_loop]. rewrite Ha. split; [done|lia]. }
  destruct (hex_digit b) as [vb|] eqn:Hb.
  2: { exists 0. unfold parse_hex4. cbn [hex_loop]. rewrite Ha, Hb. split; [done|lia]. }
  destruct (hex_digit c) as [vc|] eqn:Hc.
  2: { exists 0. unfold parse_hex4. cbn [hex_loop]. rewrite Ha, Hb, Hc. split; [done|lia]. }
  destruct (hex_digit d) as [vd|] eqn:Hd.
  2: { exists 0. unfold parse_hex4. cbn [hex_loop]. rewrite Ha, Hb, Hc, Hd. split; [done|lia]. }
  eexists. split; [by apply parse_hex4_digits|].
  pose proof (hex_digit_range _ _ Ha). pose proof (hex_digit_range _ _ Hb).
  pose proof (hex_digit_range _ _ Hc). pose proof (hex_digit_range _ _ Hd). lia.
Qed.

Lemma encode_tail_length n cp : length (encode_tail n cp).2 = n.
Proof.
  revert cp. induction n as [|n IH]; intros cp; cbn; [done|].
  specialize (IH (Z.shiftr cp 6)). destruct (encode_tail n (Z.shiftr cp 6)) as [r t]. cbn in *.
  rewrite length_app. cbn. lia.
Qed.

Lemma encode_utf8_length cp :
  cp <= 1114111 -> exists out, encode_utf8 cp = Some out /\
    (length out <= if (cp <? 65536)%Z then 3 else 4)%nat.
Proof.
  intros H. unfold encode_utf8, utf8_shape.
  destruct (Z.ltb_spec cp 128), (Z.ltb_spec cp 2048), (Z.ltb_spec cp 65536); try lia;
    rewrite ?(proj2 (Z.leb_le cp 1114111)) by lia; cbn [mbind option_bind];
    match goal with |- context [encode_tail ?n cp] =>
      pose proof (encode_tail_length n cp) as Hl; destruct (encode_tail n cp) as [r t] end;
    eexists; (split; [reflexivity|]); cbn in *; lia.
Qed.

(** A literal escape takes six or twelve bytes that are there, and gives at most
    half as many. *)
Lemma utf16_literal_total input :
  exists sl out, utf16_literal_to_utf8 input = Some (sl, out) /\
    (sl <> 0 -> (sl = 6 \/ sl = 12) /\ sl <= length input /\ 2 * length out <= sl)%nat.
Proof.
  unfold utf16_literal_to_utf8.
  destruct (Nat.ltb_spec (length input) 6) as [|H6]; [by exists 0%nat, []|].
  destruct (parse_hex4_total (drop 2 input)) as (v & -> & Hv); [rewrite length_drop; lia|].
  cbn [mbind option_bind]. destruct ((56320 <=? v) && (v <=? 57343)); [by exists 0%nat, []|].
  destruct ((55296 <=? v) && (v <=? 56319)).
  - destruct (Nat.ltb_spec (length (drop 6 input)) 6) as [|H12]; [by exists 0%nat, []|].
    rewrite length_drop in H12. destruct (negb _); [by exists 0%nat, []|].
    destruct (parse_hex4_total (drop 2 (drop 6 input))) as (w & -> & Hw); [rewrite !length_drop; lia|].
    cbn [mbind option_bind]. destruct ((w <? 56320) || (57343 <? w)); [by exists 0%nat, []|].
    set (cp := 65536 + _).
    assert (Hcp : cp <= 1114111).
    { unfold cp. change 1023 with (Z.ones 10). rewrite !Z.land_ones, Z.shiftl_mul_pow2 by lia.
      pose proof (Z.add_lor_land (v mod 2 ^ 10 * 2 ^ 10) (w mod 2 ^ 10)).
      assert (0 <= Z.land (v mod 2 ^ 10 * 2 ^ 10) (w mod 2 ^ 10))
        by (apply Z.land_nonneg; Z.div_mod_to_equations; lia).
      Z.div_mod_to_equations. lia. }
    destruct (encode_utf8_length cp Hcp) as (out & -> & Hl). exists 12%nat, out. split; [done|].
    intros _. split; [by right|]. split; [lia|]. destruct (cp <? 65536); lia.
  - destruct (encode_utf8_length v) as (out & -> & Hl); [lia|]. exists 6%nat, out. split; [done|].
    intros _. split; [by left|]. split; [lia|]. rewrite (proj2 (Z.ltb_lt _ _)) in Hl by lia. lia.
Qed.

(** Where the second loop is in the text of a literal, as the first loop saw it:
    between two characters, or ([inside]) between a backslash and the character
    it escapes, which the second loop can reach after a malformed escape; [n]
    bytes to the closing quote, and [phi] bytes of output set apart for them. *)
Definition literal_at (inside : bool) (l : list Z) (n phi : nat) : Prop :=
  if inside then
    exists x l' n' k, l = x :: l' /\ scan_literal l' = Some (n', k) /\ n = S n' /\ (phi + k = n)%nat
  else exists k, scan_literal l = Some (n, k) /\ (phi + k = n)%nat.

(** The first loop in one equation for each kind of character. *)
Lemma scan_literal_cons c l n k :
  scan_literal (c :: l) = Some (n, k) ->
  c = quote /\ n = O /\ k = O \/
  c <> quote /\ c <> backslash /\ (exists n', n = S n' /\ scan_literal l = Some (n', k)) \/
  c = backslash /\ exists e l' n' k', l = e :: l' /\ n = S (S n') /\ k = S k' /\
                                      scan_literal l' = Some (n', k').
Proof.
  cbn [scan_literal]. destruct (Z.eqb_spec c quote) as [->|Hq].
  { intros [= <- <-]. by left. }
  destruct (Z.eqb_spec c backslash) as [->|Hb].
  - destruct l as [|e l]; [done|]. destruct (scan_literal l) as [[n' k']|] eqn:E; [|done].
    intros [= <- <-]. right. right. split; [done|]. by exists e, l, n', k'.
  - destruct (scan_literal l) as [[n' k']|] eqn:E; [|done].
    intros [= <- <-]. right. left. split; [done|]. split; [done|]. by exists n'.
Qed.

Lemma scan_literal_spec l n k :
  scan_literal l = Some (n, k) -> l !! n = Some quote /\ (2 * k <= n)%nat.
Proof.
  revert l k. induction n as [n IH] using lt_wf_ind. intros [|c l] k E; [done|].
  destruct (scan_literal_cons _ _ _ _ E)
    as [(-> & -> & ->)|[(_ & _ & n' & -> & E')|(-> & e & l' & n' & k' & -> & -> & -> & E')]].
  - done.
  - destruct (IH n' ltac:(lia) _ _ E') as [H1 H2]. split; [exact H1|lia].
  - destruct (IH n' ltac:(lia) _ _ E') as [H1 H2]. split; [exact H1|lia].
Qed.

Lemma literal_at_bound i l n phi : literal_at i l n phi -> (n < length l)%nat.
Proof.
  destruct i; cbn.
  - intros (x & l' & n' & k & -> & E & -> & _). apply scan_literal_spec in E as [E _].
    apply lookup_lt_Some in E. cbn. lia.
  - intros (k & E & _). apply scan_literal_spec in E as [E _]. by apply lookup_lt_Some in E.
Qed.

Lemma literal_at_phi i l n phi : literal_at i l n phi -> (n <= 2 * phi)%nat.
Proof.
  destruct i; cbn.
  - intros (x & l' & n' & k & -> & E & -> & Hp). apply scan_literal_spec in E as [_ Hk]. lia.
  - intros (k & E & Hp). apply scan_literal_spec in E as [_ Hk]. lia.
Qed.

(** One character. *)
Lemma literal_at_step i l n phi :
  literal_at i l (S n) phi ->
  if i then literal_at false (drop 1 l) n (phi - 1) /\ (1 <= phi)%nat
  else match l with
       | c :: l' => if c =? backslash then literal_at true l' n phi
                    else literal_at false l' n (phi - 1) /\ (1 <= phi)%nat
       | [] => False
       end.
Proof.
  destruct i; cbn [literal_at].
  - intros (x & l' & n' & k & -> & E & [= ->] & Hp). apply scan_literal_spec in E as Hk.
    cbn [drop]. split; [|lia]. exists k. split; [done|lia].
  - intros (k & E & Hp). destruct l as [|c l]; [done|].
    destruct (scan_literal_cons _ _ _ _ E)
      as [(-> & ? & ->)|[(_ & Hb & n' & [= ->] & E')|(-> & e & l' & n' & k' & -> & [= ->] & -> & E')]];
      [done| |].
    + rewrite (proj2 (Z.eqb_neq _ _) Hb). apply scan_literal_spec in E' as Hk.
      split; [|lia]. exists k. split; [done|lia].
    + cbn [Z.eqb]. rewrite Z.eqb_refl. exists e, l', n', k'. split; [done|]. split; [done|]. lia.
Qed.

(** Several characters: every two take at least one byte of [phi]. *)
Lemma literal_at_drop j i l n phi :
  literal_at i l n phi -> (j <= n)%nat ->
  exists i' phi', literal_at i' (drop j l) (n - j) phi' /\
    (2 * phi' + Nat.b2n i + j <= 2 * phi + Nat.b2n i')%nat.
Proof.
  revert i l n phi. induction j as [|j IH]; intros i l n phi H Hj.
  { exists i, phi. rewrite Nat.sub_0_r. split; [exact H|lia]. }
  destruct n as [|n]; [lia|]. apply literal_at_step in H. destruct i.
  - destruct H as [H Hp]. destruct (IH _ _ _ _ H ltac:(lia)) as (i' & phi' & H' & Hw).
    rewrite drop_drop in H'. exists i', phi'. split; [exact H'|]. cbn in *. lia.
  - destruct l as [|c l]; [done|]. cbn [drop]. destruct (c =? backslash).
    + destruct (IH _ _ _ _ H ltac:(lia)) as (i' & phi' & H' & Hw). exists i', phi'.
      split; [exact H'|]. cbn in *. lia.
    + destruct H as [H Hp]. destruct (IH _ _ _ _ H ltac:(lia)) as (i' & phi' & H' & Hw).
      exists i', phi'. split; [exact H'|]. cbn in *. lia.
Qed.

(** The second loop stays inside the text and inside the output. *)
Lemma unescape_total fuel : forall i l n phi pos room,
  literal_at i l n phi -> (n < fuel)%nat -> (phi < room)%nat ->
  exists r, unescape fuel l n pos room = Some r /\
            match r with inl out => (length out < room)%nat | inr p => (p <= pos + n)%nat end.
Proof.
  induction fuel as [|fuel IH]; intros i l n phi pos room H Hf Hr; [lia|]. cbn [unescape].
  destruct (Nat.eqb_spec n 0) as [->|Hn].
  { rewrite (proj2 (Nat.eqb_neq room 0)) by lia. exists (inl []). split; [done|cbn; lia]. }
  (* writing [out] for [step] characters *)
  assert (Hemit : forall out step,
    ((step <= n)%nat -> exists i' phi', literal_at i' (drop step l) (n - step) phi' /\
                                 (phi' + length out <= phi)%nat) ->
    (length out <= phi)%nat -> (0 < step)%nat ->
    exists r, (if (room <? length out)%nat then None
               else r ← unescape fuel (drop step l) (n - step) (pos + step) (room - length out);
                    Some (match r with inl rest => inl (out ++ rest) | inr p => inr p end)) = Some r /\
              match r with inl o => (length o < room)%nat | inr p => (p <= pos + n)%nat end).
  { intros out step Hd Ho Hs. destruct (Nat.ltb_spec room (length out)); [lia|].
    destruct (Nat.le_gt_cases step n) as [Hle|Hgt].
    - destruct (Hd Hle) as (i' & phi' & H' & Hp).
      destruct (IH i' (drop step l) (n - step)%nat phi' (pos + step)%nat (room - length out)%nat)
        as (r & -> & Hb); [done|lia|lia|]. cbn [mbind option_bind]. eexists. split; [reflexivity|].
      destruct r; [rewrite length_app; lia|lia].
    - destruct fuel as [|fuel]; [lia|]. cbn [unescape]. replace (n - step)%nat with O by lia.
      cbn [Nat.eqb]. rewrite (proj2 (Nat.eqb_neq _ 0)) by lia. cbn [mbind option_bind].
      eexists. split; [reflexivity|]. rewrite app_nil_r. lia. }
  pose proof (literal_at_bound _ _ _ _ H) as Hlen.
  pose proof (literal_at_phi _ _ _ _ H) as Hphi.
  destruct l as [|c l']; [cbn in Hlen; lia|].
  destruct (Z.eqb_spec c backslash) as [->|Hc]; cbn [negb].
  - destruct l' as [|e l']; [cbn in Hlen; lia|]. destruct (e =? 117).
    + destruct (utf16_literal_total (take n (backslash :: e :: l'))) as (sl & out & -> & Hsl).
      cbn [mbind option_bind]. destruct (Nat.eqb_spec sl 0) as [|H0].
      { exists (inr pos). split; [done|lia]. }
      destruct (Hsl H0) as (_ & Hl & Ho). rewrite length_take in Hl. apply Hemit; [|lia|lia].
      intros Hle. destruct (literal_at_drop _ _ _ _ _ H Hle) as (i' & phi' & H' & Hw).
      exists i', phi'. split; [exact H'|]. destruct i, i'; cbn in Hw; lia.
    + destruct (simple_escape e) as [byte|].
      2: { exists (inr pos). split; [done|lia]. }
      apply Hemit; cbn [length]; [|lia|lia].
      intros Hle. destruct (literal_at_drop _ _ _ _ _ H Hle) as (i' & phi' & H' & Hw).
      exists i', phi'. split; [exact H'|]. destruct i, i'; cbn in Hw; lia.
  - apply Hemit; cbn [length]; [|lia|lia]. intros Hle. destruct n as [|n]; [lia|].
    apply literal_at_step in H. replace (S n - 1)%nat with n by lia. destruct i.
    + destruct H as [H Hp]. exists false, (phi - 1)%nat. split; [exact H|lia].
    + rewrite (proj2 (Z.eqb_neq _ _) Hc) in H. destruct H as [H Hp].
      exists false, (phi - 1)%nat. split; [exact H|lia].
Qed.

(** ** The parser returns, inside its buffers and without losing a block *)

(** How deep arrays and objects are nested. *)
Fixpoint nesting (j : json) : nat :=
  match j with
  | JArray items => S (list_max (map nesting items))
  | JObject members => S (list_max (map (fun '(_, i) => nesting i) members))
  | _ => 0
  end%nat.

(** What [strtod] promises: it takes a prefix of its argument, and the
    characters of a number alone do not spell a NaN. *)
Record strtod_ok (strtod : list Z -> spec_float * nat) : Prop := {
  strtod_prefix : forall s, ((strtod s).2 <= length s)%nat;
  strtod_number : forall s, Forall (fun c => is_number_char c = true) s -> (strtod s).1 <> S754_nan;
}.

Section Total.
Variable content : list Z.
Variable grant : nat -> bool.
Variable strtod : list Z -> spec_float * nat.
Hypothesis Hstrtod : strtod_ok strtod.

#[local] Abbreviation size := (length content).
#[local] Abbreviation skip := (buffer_skip_whitespace content).

Lemma skip_from_le l : (skip_from l <= length l)%nat.
Proof. induction l as [|c l IH]; cbn; [lia|]. destruct (c <=? 32); cbn; lia. Qed.

Lemma skip_spec b :
  (offset b <= size)%nat ->
  (offset b <= offset (skip b) <= size)%nat /\ depth (skip b) = depth b /\ live (skip b) = live b /\
  ((offset b < size)%nat -> (offset (skip b) < size)%nat).
Proof.
  intros Hb. unfold buffer_skip_whitespace, can_access_at_index.
  destruct (Nat.ltb_spec (offset b + 0) size) as [Hlt|]; cbn [negb]; [|repeat split; lia].
  pose proof (skip_from_le (drop (offset b) content)) as Hs. rewrite length_drop in Hs.
  set (k := skip_from _) in *. cbn [forward set_offset offset].
  destruct (Nat.eqb_spec (offset b + k) size); cbn; repeat split; lia.
Qed.

Lemma saturated_total d : d <> S754_nan -> exists i, saturated d = Some i /\ INT_MIN <= i <= INT_MAX.
Proof.
  intros Hd. unfold saturated.
  destruct d as [s|[]| |s m e]; try done; cbn [truncate mbind option_bind]; eexists;
    (split; [reflexivity|]); unfold INT_MAX, INT_MIN; case_cmp; lia.
Qed.

Lemma number_chars_spec n l :
  (length (number_chars n l) <= length l)%nat /\
  Forall (fun c => is_number_char c = true) (number_chars n l).
Proof.
  revert n. induction l as [|c l IH]; intros [|n]; cbn [number_chars]; try (split; [cbn; lia|done]).
  destruct (is_number_char c) eqn:Hc; [|split; [cbn; lia|done]].
  destruct (IH n) as [H1 H2]. split; [cbn; lia|by constructor].
Qed.

Lemma parse_number_total b :
  (offset b <= size)%nat ->
  exists r b', parse_number content strtod b = Some (r, b') /\
    (offset b <= offset b' <= size)%nat /\ depth b' = depth b /\ live b' = live b /\
    match r with Some j => exists d i, j = JNumber d i /\ INT_MIN <= i <= INT_MAX | None => True end.
Proof.
  intros Hb. unfold parse_number.
  destruct (number_chars_spec 63 (drop (offset b) content)) as [Hl Hf]. rewrite length_drop in Hl.
  pose proof (strtod_prefix _ Hstrtod (number_chars 63 (drop (offset b) content))) as Hp.
  pose proof (strtod_number _ Hstrtod _ Hf) as Hn.
  destruct (strtod _) as [d taken]. cbn [fst snd] in *. destruct (taken =? 0)%nat.
  - exists None, b. repeat split; lia.
  - destruct (saturated_total d Hn) as (i & -> & Hi). cbn [mbind option_bind]. do 2 eexists.
    split; [reflexivity|]. cbn. repeat split; try lia. by exists d, i.
Qed.

Lemma parse_string_total b :
  (offset b < size)%nat ->
  exists r b', parse_string content grant b = Some (r, b') /\
    (offset b < offset b' <= size)%nat /\ depth b' = depth b /\
    live b' = (live b + match r with Some _ => 1 | None => 0 end)%nat.
Proof.
  intros Hb. unfold parse_string. destruct (lookup_lt_is_Some_2 content (offset b) Hb) as [c ->].
  cbn [mbind option_bind]. destruct (c =? quote); cbn [negb].
  2: { do 2 eexists. split; [reflexivity|]. cbn. lia. }
  destruct (scan_literal (drop (S (offset b)) content)) as [[n k]|] eqn:E.
  2: { do 2 eexists. split; [reflexivity|]. cbn. lia. }
  apply scan_literal_spec in E as Hn. destruct Hn as [Hn Hk].
  apply lookup_lt_Some in Hn. rewrite length_drop in Hn.
  unfold allocate. destruct (grant (calls b)); cbn [negb].
  2: { do 2 eexists. split; [reflexivity|]. cbn. lia. }
  destruct (unescape_total (S n) false (drop (S (offset b)) content) n (n - k) 0 (S (S n - k)))
    as (r & -> & Hr); [exists k; split; [exact E|lia]|lia|lia|].
  cbn [mbind option_bind]. destruct r as [out|p]; do 2 eexists; (split; [reflexivity|]); cbn; lia.
Qed.

(** What a call leaves: it was made at offset [lo] and depth [d], with [base]
    live blocks besides those that hang on the item. *)
Definition leaves (lo base d : nat) (r : option json) (b : pbuf) : Prop :=
  (lo <= offset b <= size)%nat /\
  match r with
  | Some j => (live b + 1 = base + blocks j)%nat /\ depth b = d /\ (d + nesting j <= CJSON_NESTING_LIMIT)%nat
  | None => live b = base
  end.

Definition returns (lo base d : nat) (c : option (option json * pbuf)) : Prop :=
  exists r b, c = Some (r, b) /\ leaves lo base d r b.

Lemma returns_le lo lo' base d c : (lo' <= lo)%nat -> returns lo base d c -> returns lo' base d c.
Proof. intros Hle (r & b & E & [H1 H2]). exists r, b. split; [done|]. split; [lia|done]. Qed.

Lemma sum_unnamed items :
  list_sum (map item_blocks (map (fun i => (None, i)) items)) = list_sum (map blocks items).
Proof. rewrite map_map. done. Qed.

Lemma sum_named members :
  list_sum (map item_blocks (map (fun '(k, i) => (Some k, i)) members))
  = list_sum (map (fun '(_, i) => S (blocks i)) members).
Proof. rewrite map_map. f_equal. apply map_ext. by intros [k i]. Qed.

Lemma fail_with_returns lo base d items b :
  (lo <= offset b <= size)%nat -> live b = (base + list_sum (map item_blocks items))%nat ->
  returns lo base d (fail_with items b).
Proof. intros Ho Hl. do 2 eexists. split; [reflexivity|]. split; [exact Ho|]. cbn. lia. Qed.

Lemma at_char_lt b c : at_char content b c = true -> (offset b < size)%nat.
Proof. unfold at_char. intros H%bool_decide_eq_true. by apply lookup_lt_Some in H. Qed.

Lemma at_literal_le b s : at_literal content b s = true -> (offset b + length s <= size)%nat.
Proof. unfold at_literal, can_read. intros [H _]%andb_true_iff. by apply Nat.leb_le in H. Qed.

(** The step over the bracket that closes an array or object. *)
Lemma closing_returns lo base d j b c :
  at_char content b c = true -> (lo <= offset b)%nat -> depth b = S d ->
  (live b + 1 = base + blocks j)%nat -> (d + nesting j <= CJSON_NESTING_LIMIT)%nat ->
  returns lo base d (Some (Some j, forward 1 (set_depth (depth b - 1) b))).
Proof.
  intros Hc Ho Hd Hl Hn. apply at_char_lt in Hc. do 2 eexists. split; [reflexivity|].
  split; cbn; [lia|]. split; [lia|]. split; [lia|done].
Qed.

(** The calls with fuel [n]. *)
Record total (n : nat) : Prop := {
  value_total : forall b, (offset b <= size)%nat -> (3 * (size - offset b) + 3 <= n)%nat ->
    (depth b <= CJSON_NESTING_LIMIT)%nat ->
    returns (offset b) (live b) (depth b) (parse_value content grant strtod n b);
  array_total : forall b, (offset b < size)%nat -> (3 * (size - offset b) + 2 <= n)%nat ->
    returns (offset b) (live b) (depth b) (parse_array content grant strtod n b);
  elements_total : forall items b base d, (offset b < size)%nat -> (3 * (size - offset b) + 1 <= n)%nat ->
    live b = (base + list_sum (map blocks items))%nat -> depth b = S d ->
    (S d <= CJSON_NESTING_LIMIT)%nat -> (S d + list_max (map nesting items) <= CJSON_NESTING_LIMIT)%nat ->
    returns (offset b) base d (parse_elements content grant strtod n items b);
  object_total : forall b, (offset b < size)%nat -> (3 * (size - offset b) + 2 <= n)%nat ->
    returns (offset b) (live b) (depth b) (parse_object content grant strtod n b);
  members_total : forall members b base d, (offset b < size)%nat -> (3 * (size - offset b) + 1 <= n)%nat ->
    live b = (base + list_sum (map (fun '(_, i) => S (blocks i)) members))%nat -> depth b = S d ->
    (S d <= CJSON_NESTING_LIMIT)%nat ->
    (S d + list_max (map (fun '(_, i) => nesting i) members) <= CJSON_NESTING_LIMIT)%nat ->
    returns (offset b) base d (parse_members content grant strtod n members b);
}.

Lemma scalar_returns b j n :
  (offset b + n <= size)%nat -> blocks j = 1%nat -> nesting j = O -> (depth b <= CJSON_NESTING_LIMIT)%nat ->
  returns (offset b) (live b) (depth b) (Some (Some j, forward n b)).
Proof.
  intros Ho Hb Hn Hd. do 2 eexists. split; [reflexivity|]. split; cbn; [lia|]. rewrite Hb, Hn. lia.
Qed.

Lemma value_total_step n : total n ->
  forall b, (offset b <= size)%nat -> (3 * (size - offset b) + 3 <= S n)%nat ->
    (depth b <= CJSON_NESTING_LIMIT)%nat ->
    returns (offset b) (live b) (depth b) (parse_value content grant strtod (S n) b).
Proof.
  intros IH b Hb Hn Hd. cbn [parse_value].
  destruct (at_literal content b (bytes "null")) eqn:E1; [apply at_literal_le in E1; by apply scalar_returns|].
  destruct (at_literal content b (bytes "false")) eqn:E2; [apply at_literal_le in E2; by apply scalar_returns|].
  destruct (at_literal content b (bytes "true")) eqn:E3; [apply at_literal_le in E3; by apply scalar_returns|].
  destruct (content !! offset b) as [c|] eqn:Ec.
  2: { exists None, b. split; [done|]. split; [lia|done]. }
  apply lookup_lt_Some in Ec. destruct (c =? quote).
  { destruct (parse_string_total b Ec) as (r & b' & -> & Ho & Hd' & Hl). cbn [mbind option_bind].
    do 2 eexists. split; [reflexivity|]. split; [lia|]. destruct r; cbn; lia. }
  destruct ((c =? 45) || (48 <=? c) && (c <=? 57)).
  { destruct (parse_number_total b Hb) as (r & b' & -> & Ho & Hd' & Hl & Hj).
    do 2 eexists. split; [reflexivity|]. split; [lia|]. destruct r as [j|]; [|lia].
    destruct Hj as (d & i & -> & _). cbn. lia. }
  destruct (c =? 91); [apply (array_total _ IH); [done|lia]|].
  destruct (c =? 123); [apply (object_total _ IH); [done|lia]|].
  exists None, b. split; [done|]. split; [lia|done].
Qed.

Lemma array_total_step n : total n ->
  forall b, (offset b < size)%nat -> (3 * (size - offset b) + 2 <= S n)%nat ->
    returns (offset b) (live b) (depth b) (parse_array content grant strtod (S n) b).
Proof.
  intros IH b Hb Hn. cbn [parse_array].
  destruct (Nat.leb_spec CJSON_NESTING_LIMIT (depth b)) as [|Hd].
  { exists None, b. split; [done|]. split; [lia|done]. }
  cbn [set_depth offset]. destruct (lookup_lt_is_Some_2 content (offset b) Hb) as [c ->].
  cbn [mbind option_bind]. set (b1 := set_depth (S (depth b)) b).
  destruct (negb (c =? 91)); [apply fail_with_returns; cbn; lia|].
  destruct (skip_spec (forward 1 b1)) as (Ho & Hd1 & Hl1 & _); [cbn; lia|]. cbn in Ho, Hd1, Hl1.
  set (b2 := buffer_skip_whitespace content (forward 1 b1)) in *.
  destruct (at_char content b2 93) eqn:Ec.
  { eapply closing_returns; [exact Ec|lia|exact Hd1|cbn; lia|cbn; lia]. }
  unfold can_access_at_index. destruct (Nat.ltb_spec (offset b2 + 0) size); cbn [negb].
  2: { apply fail_with_returns; cbn; lia. }
  eapply returns_le; [|apply (elements_total _ IH [] (back b2) (live b) (depth b))]; cbn; lia.
Qed.

Lemma object_total_step n : total n ->
  forall b, (offset b < size)%nat -> (3 * (size - offset b) + 2 <= S n)%nat ->
    returns (offset b) (live b) (depth b) (parse_object content grant strtod (S n) b).
Proof.
  intros IH b Hb Hn. cbn [parse_object].
  destruct (Nat.leb_spec CJSON_NESTING_LIMIT (depth b)) as [|Hd].
  { exists None, b. split; [done|]. split; [lia|done]. }
  set (b1 := set_depth (S (depth b)) b).
  destruct (negb (at_char content b1 123)); [apply fail_with_returns; cbn; lia|].
  destruct (skip_spec (forward 1 b1)) as (Ho & Hd1 & Hl1 & _); [cbn; lia|]. cbn in Ho, Hd1, Hl1.
  set (b2 := buffer_skip_whitespace content (forward 1 b1)) in *.
  destruct (at_char content b2 125) eqn:Ec.
  { eapply closing_returns; [exact Ec|lia|exact Hd1|cbn; lia|cbn; lia]. }
  unfold can_access_at_index. destruct (Nat.ltb_spec (offset b2 + 0) size); cbn [negb].
  2: { apply fail_with_returns; cbn; lia. }
  eapply returns_le; [|apply (members_total _ IH [] (back b2) (live b) (depth b))]; cbn; lia.
Qed.

Lemma list_max_snoc l x : list_max (l ++ [x]) = Nat.max (list_max l) x.
Proof. rewrite list_max_app. cbn. lia. Qed.

Lemma list_sum_snoc l x : list_sum (l ++ [x]) = (list_sum l + x)%nat.
Proof. rewrite list_sum_app. cbn. lia. Qed.

Lemma allocate_spec b :
  exists ok b', allocate grant b = (ok, b') /\ offset b' = offset b /\ depth b' = depth b /\
                live b' = (live b + Nat.b2n ok)%nat.
Proof.
  unfold allocate. destruct (grant (calls b)); do 2 eexists; (split; [reflexivity|]); cbn; lia.
Qed.

(** The functions of the parser by their names, after one of them is unfolded. *)
Ltac refold :=
  fold (parse_value content grant strtod); fold (parse_elements content grant strtod);
  fold (parse_members content grant strtod).

(** Past a separator and the white space after it. *)
Lemma skip_forward b :
  (offset b < size)%nat ->
  (offset b < offset (skip (forward 1 b)) <= size)%nat /\ depth (skip (forward 1 b)) = depth b /\
  live (skip (forward 1 b)) = live b.
Proof.
  intros Hb. destruct (skip_spec (forward 1 b)) as (Ho & Hd & Hl & _); [cbn; lia|].
  cbn in Ho, Hd, Hl. split; [lia|done].
Qed.

Lemma elements_total_step n : total n ->
  forall items b base d, (offset b < size)%nat -> (3 * (size - offset b) + 1 <= S n)%nat ->
    live b = (base + list_sum (map blocks items))%nat -> depth b = S d ->
    (S d <= CJSON_NESTING_LIMIT)%nat -> (S d + list_max (map nesting items) <= CJSON_NESTING_LIMIT)%nat ->
    returns (offset b) base d (parse_elements content grant strtod (S n) items b).
Proof.
  intros IH items b base d Hb Hn Hl Hd HL Hm. cbn [parse_elements]. refold.
  destruct (allocate_spec b) as (ok & b1 & -> & Ho1 & Hd1 & Hl1). destruct ok; cbn [negb Nat.b2n] in *.
  2: { apply fail_with_returns; rewrite ?sum_unnamed; lia. }
  destruct (skip_forward b1) as (Ho2 & Hd2 & Hl2); [lia|].
  set (b2 := buffer_skip_whitespace content (forward 1 b1)) in *.
  destruct (value_total _ IH b2) as (r & b3 & -> & Ho3 & Hr); [lia|lia|lia|].
  cbn [mbind option_bind]. destruct r as [i|].
  2: { apply fail_with_returns; [lia|]. rewrite sum_unnamed, map_app, list_sum_app. cbn. lia. }
  destruct Hr as (Hl3 & Hd3 & Hn3). destruct (skip_spec b3) as (Ho4 & Hd4 & Hl4 & _); [lia|].
  set (b4 := buffer_skip_whitespace content b3) in *.
  assert (Hsum : list_sum (map blocks (items ++ [i])) = (list_sum (map blocks items) + blocks i)%nat)
    by (rewrite map_app; apply list_sum_snoc).
  assert (Hmax : list_max (map nesting (items ++ [i])) = Nat.max (list_max (map nesting items)) (nesting i))
    by (rewrite map_app; apply list_max_snoc).
  destruct (at_char content b4 44) eqn:Ec.
  { apply at_char_lt in Ec. eapply returns_le; [|apply (elements_total _ IH)]; lia. }
  destruct (at_char content b4 93) eqn:Ec2; cbn [negb].
  - eapply closing_returns; [exact Ec2|lia|lia|cbn [blocks]; lia|cbn [nesting]; lia].
  - apply fail_with_returns; rewrite ?sum_unnamed; lia.
Qed.

Lemma members_total_step n : total n ->
  forall members b base d, (offset b < size)%nat -> (3 * (size - offset b) + 1 <= S n)%nat ->
    live b = (base + list_sum (map (fun '(_, i) => S (blocks i)) members))%nat -> depth b = S d ->
    (S d <= CJSON_NESTING_LIMIT)%nat ->
    (S d + list_max (map (fun '(_, i) => nesting i) members) <= CJSON_NESTING_LIMIT)%nat ->
    returns (offset b) base d (parse_members content grant strtod (S n) members b).
Proof.
  intros IH members b base d Hb Hn Hl Hd HL Hm. cbn [parse_members]. refold.
  destruct (allocate_spec b) as (ok & b1 & -> & Ho1 & Hd1 & Hl1). destruct ok; cbn [negb Nat.b2n] in *.
  2: { apply fail_with_returns; rewrite ?sum_named; lia. }
  unfold can_access_at_index. destruct (Nat.ltb_spec (offset b1 + 1) size); cbn [negb].
  2: { apply fail_with_returns; [lia|]. rewrite map_app, list_sum_app, sum_named. cbn. lia. }
  destruct (skip_spec (forward 1 b1)) as (Ho2 & Hd2 & Hl2 & Hlt2); [cbn; lia|].
  cbn in Ho2, Hd2, Hl2, Hlt2. set (b2 := buffer_skip_whitespace content (forward 1 b1)) in *.
  destruct (parse_string_total b2) as (r & b3 & -> & Ho3 & Hd3 & Hl3); [lia|].
  cbn [mbind option_bind]. destruct r as [name|].
  2: { apply fail_with_returns; [lia|]. rewrite map_app, list_sum_app, sum_named. cbn. lia. }
  destruct (skip_spec b3) as (Ho4 & Hd4 & Hl4 & _); [lia|].
  set (b4 := buffer_skip_whitespace content b3) in *.
  assert (Hsum : forall i, list_sum (map (fun '(_, i) => S (blocks i)) (members ++ [(name, i)]))
                 = (list_sum (map (fun '(_, i) => S (blocks i)) members) + S (blocks i))%nat)
    by (intros i; rewrite map_app; apply list_sum_snoc).
  destruct (at_char content b4 58) eqn:Ecol; cbn [negb].
  2: { apply fail_with_returns; [lia|]. rewrite sum_named, Hsum. cbn. lia. }
  apply at_char_lt in Ecol. destruct (skip_forward b4) as (Ho5 & Hd5 & Hl5); [lia|].
  set (b5 := buffer_skip_whitespace content (forward 1 b4)) in *.
  destruct (value_total _ IH b5) as (r & b6 & -> & Ho6 & Hr); [lia|lia|lia|].
  cbn [mbind option_bind]. destruct r as [i|].
  2: { apply fail_with_returns; [lia|]. rewrite sum_named, Hsum. cbn. lia. }
  destruct Hr as (Hl6 & Hd6 & Hn6). destruct (skip_spec b6) as (Ho7 & Hd7 & Hl7 & _); [lia|].
  set (b7 := buffer_skip_whitespace content b6) in *. specialize (Hsum i).
  assert (Hmax : list_max (map (fun '(_, i) => nesting i) (members ++ [(name, i)]))
                 = Nat.max (list_max (map (fun '(_, i) => nesting i) members)) (nesting i))
    by (rewrite map_app; apply list_max_snoc).
  destruct (at_char content b7 44) eqn:Ec.
  { apply at_char_lt in Ec. eapply returns_le; [|apply (members_total _ IH)]; lia. }
  destruct (at_char content b7 125) eqn:Ec2; cbn [negb].
  - eapply closing_returns; [exact Ec2|lia|lia|cbn [blocks]; lia|cbn [nesting]; lia].
  - apply fail_with_returns; rewrite ?sum_named; lia.
Qed.

(** Every call with enough fuel returns. *)
Lemma parse_total n : total n.
Proof.
  induction n as [|n IH]; [split; intros; lia|].
  split; [exact (value_total_step n IH)|exact (array_total_step n IH)|exact (elements_total_step n IH)
         |exact (object_total_step n IH)|exact (members_total_step n IH)].
Qed.
End Total.

(** A result of the parser, called with [live b] blocks live: a value nested
    within the limit that holds all the blocks since, or a position inside the
    text and no block more than before. *)
Definition accounted (content : list Z) (b : pbuf) (p : parsed) : Prop :=
  (parse_end p <= length content)%nat /\
  match item p with
  | Some j => live (after p) = (live b + blocks j)%nat /\ (nesting j <= CJSON_NESTING_LIMIT)%nat /\
              error p = None
  | None => live (after p) = live b /\ error p = Some (parse_end p) /\
            (content <> [] -> parse_end p < length content)%nat
  end.

Lemma parse_failed_accounted content b b' :
  live b' = live b ->
  exists p, Some (parse_failed content b') = Some p /\ accounted content b p.
Proof.
  intros Hl. eexists. split; [reflexivity|]. unfold accounted, parse_failed.
  cbn [parse_end item after error].
  assert (Hne : (content <> [] -> 0 < length content)%nat) by (destruct content; [done|intros _; cbn; lia]).
  destruct (Nat.ltb_spec (offset b') (length content)); (split; [lia|]); (split; [done|]);
    (split; [done|]); intros Hc; specialize (Hne Hc); lia.
Qed.

Lemma parse_accounted (content : list Z) (grant : nat -> bool) (strtod : list Z -> spec_float * nat)
    (require_null_terminated : bool) (b : pbuf) :
  strtod_ok strtod ->
  exists p, cJSON_ParseWithLengthOpts content grant strtod require_null_terminated b = Some p /\
            accounted content b p.
Proof.
  intros Hst. unfold cJSON_ParseWithLengthOpts.
  pose proof (parse_failed_accounted content b) as Hfail.
  destruct (Nat.eqb_spec (length content) 0); [by apply Hfail|].
  destruct (allocate_spec grant (mkPB 0 0 (calls b) (live b))) as (ok & b1 & -> & Ho1 & Hd1 & Hl1).
  destruct ok; cbn [negb Nat.b2n offset depth live] in *; [|apply Hfail; lia].
  assert (Hbom : (offset (skip_utf8_bom content b1) <= length content)%nat /\
                 depth (skip_utf8_bom content b1) = O /\ live (skip_utf8_bom content b1) = S (live b)).
  { unfold skip_utf8_bom, can_access_at_index. destruct (Nat.ltb_spec (offset b1 + 4) (length content)); cbn.
    - destruct (bool_decide _); cbn; lia.
    - lia. }
  destruct Hbom as (Ho2 & Hd2 & Hl2). destruct (skip_spec content _ Ho2) as (Ho3 & Hd3 & Hl3 & _).
  set (b3 := buffer_skip_whitespace content (skip_utf8_bom content b1)) in *.
  destruct (value_total _ _ _ _ (parse_total content grant strtod Hst (parse_fuel content)) b3)
    as (r & b4 & -> & Ho4 & Hr); [lia|unfold parse_fuel; lia|lia|].
  cbn [mbind option_bind]. destruct r as [j|]; [|apply Hfail; cbn; lia].
  destruct Hr as (Hl4 & Hd4 & Hn4).
  destruct (skip_spec content b4) as (Ho5 & _ & Hl5 & _); [lia|].
  destruct require_null_terminated; cbn [andb].
  - destruct (negb _); [apply Hfail; cbn in *; unfold item_blocks in *; cbn in *; lia|].
    eexists. split; [reflexivity|]. unfold accounted. cbn. split_and!; done || lia.
  - eexists. split; [reflexivity|]. unfold accounted. cbn. split_and!; done || lia.
Qed.

(** C9: The parser is safe and loses nothing.  On any bytes, whatever
    allocations fail, it returns without reading or writing outside of its
    buffers; a value it returns is nested at most 1000 deep and holds exactly the
    blocks allocated and not given back, and a failure gives them all back and
    reports a position inside the text. *)
Theorem parse_safe (content : list Z) (grant : nat -> bool) (strtod : list Z -> spec_float * nat)
    (require_null_terminated : bool) (b : pbuf) :
  strtod_ok strtod ->
  exists p, cJSON_ParseWithLengthOpts content grant strtod require_null_terminated b = Some p /\
            accounted content b p.
Proof. apply parse_accounted. Qed.

(** A number for the witnesses: the decimal digits at the start. *)
Module DemoNumber.
Fixpoint digits (acc : Z) (l : list Z) : Z * nat :=
  match l with
  | c :: l => if (48 <=? c) && (c <=? 57) then let '(v, n) := digits (10 * acc + (c - 48)) l in (v, S n)
              else (acc, O)
  | [] => (acc, O)
  end.

Definition strtod (l : list Z) : spec_float * nat :=
  let '(v, n) := digits 0 l in
  (match v with Zpos p => S754_finite false p 0 | _ => S754_zero false end, n).

Lemma digits_le acc l : ((digits acc l).2 <= length l)%nat.
Proof.
  revert acc. induction l as [|c l IH]; intros acc; cbn; [lia|].
  destruct ((48 <=? c) && (c <=? 57)); [|cbn; lia].
  specialize (IH (10 * acc + (c - 48))). destruct (digits _ l). cbn in *. lia.
Qed.

Lemma strtod_is_ok : strtod_ok strtod.
Proof.
  split; intros s; [|intros _]; unfold strtod; pose proof (digits_le 0 s); destruct (digits 0 s) as [v n];
    cbn in *; [lia|by destruct v].
Qed.
End DemoNumber.

(** A literal with a malformed escape that is accepted, then a misspelt one. *)
Lemma parse_safe_witness :
  let text := bytes "[1, " ++ [quote] ++ bytes "\uabc\\" ++ [quote] ++ bytes ", tru]" in
  exists p, cJSON_ParseWithLengthOpts text (fun n => n <? 9)%nat DemoNumber.strtod false (mkPB 0 0 0 5)
              = Some p /\ item p = None /\ live (after p) = 5%nat /\ parse_end p = 15%nat.
Proof.
  intros text. destruct (parse_safe text (fun n => n <? 9)%nat DemoNumber.strtod false
              (mkPB 0 0 0 5) DemoNumber.strtod_is_ok) as (p & E & H1 & H2).
  exists p. split; [exact E|]. vm_compute in E. injection E as <-. by vm_compute.
Defined.

(** ** The language of the parser *)

(** The UTF-8 encoding of a code point, by arithmetic. *)
Definition utf8 (cp : Z) : list Z :=
  if cp <? 128 then [cp]
  else if cp <? 2048 then [192 + cp / 64; 128 + cp mod 64]
  else if cp <? 65536 then [224 + cp / 4096; 128 + cp / 64 mod 64; 128 + cp mod 64]
  else [240 + cp / 262144; 128 + cp / 4096 mod 64; 128 + cp / 64 mod 64; 128 + cp mod 64].

(** Four hexadecimal digits and their value. *)
Definition hex4 (t : list Z) (v : Z) : Prop :=
  exists a b c d va vb vc vd, t = [a; b; c; d] /\
    hex_digit a = Some va /\ hex_digit b = Some vb /\ hex_digit c = Some vc /\ hex_digit d = Some vd /\
    v = 4096 * va + 256 * vb + 16 * vc + vd.

(** The text between the quotes, and the bytes it stands for. *)
Inductive string_text : list Z -> list Z -> Prop :=
  | St_nil : string_text [] []
  | St_plain c t s : c <> quote -> c <> backslash -> string_text t s -> string_text (c :: t) (c :: s)
  | St_escape e byte t s :
      simple_escape e = Some byte -> string_text t s -> string_text (backslash :: e :: t) (byte :: s)
  | St_unicode x v t s :
      hex4 x v -> ~ 55296 <= v <= 57343 -> string_text t s ->
      string_text ([backslash; 117] ++ x ++ t) (utf8 v ++ s)
  | St_pair x hi y lo t s :
      hex4 x hi -> 55296 <= hi <= 56319 -> hex4 y lo -> 56320 <= lo <= 57343 -> string_text t s ->
      string_text ([backslash; 117] ++ x ++ [backslash; 117] ++ y ++ t)
        (utf8 (65536 + (hi - 55296) * 1024 + (lo - 56320)) ++ s).

Definition white (w : list Z) : Prop := Forall (fun c => c <= 32) w.

(** The text of a value nested at most [d] deep. *)
Inductive value_text (strtod : list Z -> spec_float * nat) : nat -> json -> list Z -> Prop :=
  | T_null d : value_text strtod d JNull (bytes "null")
  | T_false d : value_text strtod d (JBool false) (bytes "false")
  | T_true d : value_text strtod d (JBool true) (bytes "true")
  | T_number d t number i :
      Forall (fun c => is_number_char c = true) t -> (length t <= 63)%nat ->
      (exists c t', t = c :: t' /\ (c = 45 \/ 48 <= c <= 57)) ->
      strtod t = (number, length t) -> saturated number = Some i ->
      value_text strtod d (JNumber number i) t
  | T_string d t s : string_text t s -> value_text strtod d (JString s) ([quote] ++ t ++ [quote])
  | T_empty_array d w : white w -> value_text strtod (S d) (JArray []) ([91] ++ w ++ [93])
  | T_array d items t : elements_text strtod d items t -> value_text strtod (S d) (JArray items) ([91] ++ t ++ [93])
  | T_empty_object d w : white w -> value_text strtod (S d) (JObject []) ([123] ++ w ++ [125])
  | T_object d members t :
      members_text strtod d members t -> value_text strtod (S d) (JObject members) ([123] ++ t ++ [125])
with elements_text (strtod : list Z -> spec_float * nat) : nat -> list json -> list Z -> Prop :=
  | E_last d w1 i t w2 :
      white w1 -> value_text strtod d i t -> white w2 -> elements_text strtod d [i] (w1 ++ t ++ w2)
  | E_next d w1 i t w2 items t' :
      white w1 -> value_text strtod d i t -> white w2 -> elements_text strtod d items t' ->
      elements_text strtod d (i :: items) (w1 ++ t ++ w2 ++ [44] ++ t')
with members_text (strtod : list Z -> spec_float * nat) : nat -> list (list Z * json) -> list Z -> Prop :=
  | M_last d w1 k name w2 w3 i t w4 :
      white w1 -> string_text k name -> white w2 -> white w3 -> value_text strtod d i t -> white w4 ->
      members_text strtod d [(name, i)]
        (w1 ++ ([quote] ++ k ++ [quote]) ++ w2 ++ [58] ++ w3 ++ t ++ w4)
  | M_next d w1 k name w2 w3 i t w4 members t' :
      white w1 -> string_text k name -> white w2 -> white w3 -> value_text strtod d i t -> white w4 ->
      members_text strtod d members t' ->
      members_text strtod d ((name, i) :: members)
        (w1 ++ ([quote] ++ k ++ [quote]) ++ w2 ++ [58] ++ w3 ++ t ++ w4 ++ [44] ++ t').

Scheme value_text_mut := Induction for value_text Sort Prop
  with elements_text_mut := Induction for elements_text Sort Prop
  with members_text_mut := Induction for members_text Sort Prop.

(** *** String literals *)

(** A property of bytes, by looking at all of them. *)
Lemma all_bytes (P : Z -> bool) :
  forallb P (map Z.of_nat (seq 0 256)) = true -> forall b, 0 <= b < 256 -> P b = true.
Proof.
  intros H b Hb. rewrite forallb_forall in H. apply H. apply in_map_iff. exists (Z.to_nat b).
  split; [lia|]. apply in_seq. lia.
Qed.

Lemma continuation_byte x : Z.land (Z.lor x 128) 191 = 128 + x mod 64.
Proof.
  assert (E : Z.land (Z.lor x 128) 191 = Z.land (Z.lor (x mod 256) 128) 191).
  { change 191 with (Z.land (Z.ones 8) 191). rewrite !Z.land_assoc, !Z.land_ones by lia.
    rewrite <- !Z.land_ones, !Z.land_lor_distr_l by lia. f_equal. f_equal.
    rewrite !Z.land_ones by lia. by rewrite Z.mod_mod by lia. }
  rewrite E. replace (x mod 64) with (x mod 256 mod 64) by (Z.div_mod_to_equations; lia).
  apply Z.eqb_eq, (all_bytes (fun b => Z.land (Z.lor b 128) 191 =? 128 + b mod 64)); [by vm_compute|].
  apply Z.mod_pos_bound. lia.
Qed.

Lemma lead_byte y :
  (0 <= y < 32 -> Z.land (Z.lor y 192) 255 = 192 + y) /\
  (0 <= y < 16 -> Z.land (Z.lor y 224) 255 = 224 + y) /\
  (0 <= y < 8 -> Z.land (Z.lor y 240) 255 = 240 + y).
Proof.
  pose proof (all_bytes (fun y =>
    (negb (y <? 32) || (Z.land (Z.lor y 192) 255 =? 192 + y)) &&
    (negb (y <? 16) || (Z.land (Z.lor y 224) 255 =? 224 + y)) &&
    (negb (y <? 8) || (Z.land (Z.lor y 240) 255 =? 240 + y))) ltac:(by vm_compute) y) as H.
  split_and!; intros Hy; specialize (H ltac:(lia));
    rewrite !andb_true_iff, !orb_true_iff, !negb_true_iff, !Z.ltb_ge, !Z.eqb_eq in H; lia.
Qed.

Lemma encode_utf8_eq cp : 0 <= cp <= 1114111 -> encode_utf8 cp = Some (utf8 cp).
Proof.
  intros H. unfold encode_utf8, utf8_shape, utf8.
  case_cmp; try lia; cbn [mbind option_bind encode_tail Nat.ltb Nat.leb app Nat.sub];
    rewrite ?continuation_byte, ?Z.shiftr_div_pow2 by lia; change (2 ^ 6) with 64;
    rewrite ?Z.div_div by lia; cbn [Z.mul Pos.mul].
  - change 127 with (Z.ones 7). by rewrite Z.land_ones, Z.mod_small by lia.
  - rewrite (proj1 (lead_byte _)); [done|]. split; [apply Z.div_pos; lia|apply Z.div_lt_upper_bound; lia].
  - rewrite (proj1 (proj2 (lead_byte _))); [done|].
    split; [apply Z.div_pos; lia|apply Z.div_lt_upper_bound; lia].
  - rewrite (proj2 (proj2 (lead_byte _))); [done|].
    split; [apply Z.div_pos; lia|apply Z.div_lt_upper_bound; lia].
Qed.

(** The first loop finds the closing quote of a literal. *)
Lemma scan_cons_plain c l n k :
  c <> quote -> c <> backslash -> scan_literal l = Some (n, k) ->
  scan_literal (c :: l) = Some (S n, k).
Proof.
  intros Hq Hb E. cbn [scan_literal]. by rewrite (proj2 (Z.eqb_neq _ _) Hq), (proj2 (Z.eqb_neq _ _) Hb), E.
Qed.

Lemma scan_cons_escape e l n k :
  scan_literal l = Some (n, k) -> scan_literal (backslash :: e :: l) = Some (S (S n), S k).
Proof. intros E. cbn [scan_literal]. cbn [Z.eqb Pos.eqb backslash quote]. by rewrite E. Qed.

Lemma hex_digit_plain c v : hex_digit c = Some v -> c <> quote /\ c <> backslash.
Proof. unfold hex_digit, quote, backslash. case_cmp; cbn; intros [= <-]; lia. Qed.

Lemma scan_hex4 x v l n k :
  hex4 x v -> scan_literal l = Some (n, k) -> scan_literal (x ++ l) = Some (4 + n, k)%nat.
Proof.
  intros (a & b & c & d & va & vb & vc & vd & -> & Ha & Hb & Hc & Hd & _) E. cbn [app].
  by repeat (apply scan_cons_plain; [by eapply hex_digit_plain..|]).
Qed.

Lemma scan_string_text t s rest :
  string_text t s -> exists k, scan_literal (t ++ quote :: rest) = Some (length t, k).
Proof.
  induction 1 as [|c t s Hq Hb _ [k E]|e byte t s He _ [k E]|x v t s Hx _ _ [k E]
                 |x hi y lo t s Hx _ Hy _ _ [k E]].
  - exists O. cbn. done.
  - exists k. by apply scan_cons_plain.
  - exists (S k). by apply scan_cons_escape.
  - exists (S k). pose proof Hx as (a & b & c & d & _ & _ & _ & _ & Ex & _).
    rewrite <- !app_assoc. cbn [app]. erewrite scan_cons_escape by (by eapply scan_hex4).
    do 2 f_equal. cbn [app length]. rewrite length_app, Ex. cbn. lia.
  - exists (S (S k)). pose proof Hx as (a & b & c & d & _ & _ & _ & _ & Ex & _).
    pose proof Hy as (a' & b' & c' & d' & _ & _ & _ & _ & Ey & _).
    rewrite <- !app_assoc. cbn [app].
    erewrite scan_cons_escape by (eapply scan_hex4; [exact Hx|]; apply scan_cons_escape; by eapply scan_hex4).
    do 2 f_equal. cbn [app length]. rewrite !length_app, Ex. cbn [length]. rewrite length_app, Ey. cbn. lia.
Qed.

(** The escapes of a code point. *)
Lemma hex4_parse x v rest : hex4 x v -> parse_hex4 (x ++ rest) = Some v /\ length x = 4%nat /\ 0 <= v < 65536.
Proof.
  intros (a & b & c & d & va & vb & vc & vd & -> & Ha & Hb & Hc & Hd & ->).
  pose proof (hex_digit_range _ _ Ha). pose proof (hex_digit_range _ _ Hb).
  pose proof (hex_digit_range _ _ Hc). pose proof (hex_digit_range _ _ Hd).
  split; [by apply parse_hex4_digits|]. split; [done|lia].
Qed.

Lemma utf16_single x v rest :
  hex4 x v -> ~ 55296 <= v <= 57343 ->
  utf16_literal_to_utf8 ([backslash; 117] ++ x ++ rest) = Some (6%nat, utf8 v).
Proof.
  intros Hx Hv. destruct (hex4_parse x v rest Hx) as (Ep & Hl & Hr).
  unfold utf16_literal_to_utf8. rewrite !length_app. cbn [length].
  destruct (Nat.ltb_spec (2 + (length x + length rest)) 6); [lia|].
  change (drop 2 ([backslash; 117] ++ x ++ rest)) with (x ++ rest). rewrite Ep.
  cbn [mbind option_bind].
  assert (E1 : (56320 <=? v) && (v <=? 57343) = false) by (case_cmp; cbn; lia).
  assert (E2 : (55296 <=? v) && (v <=? 56319) = false) by (case_cmp; cbn; lia).
  rewrite E1, E2, encode_utf8_eq by lia. done.
Qed.

Lemma utf16_pair x hi y lo rest :
  hex4 x hi -> 55296 <= hi <= 56319 -> hex4 y lo -> 56320 <= lo <= 57343 ->
  utf16_literal_to_utf8 ([backslash; 117] ++ x ++ [backslash; 117] ++ y ++ rest)
    = Some (12%nat, utf8 (65536 + (hi - 55296) * 1024 + (lo - 56320))).
Proof.
  intros Hx Hhi Hy Hlo. pose proof Hx as (a & b & c & d & _ & _ & _ & _ & Ex & _).
  destruct (hex4_parse x hi ([backslash; 117] ++ y ++ rest) Hx) as (Ep & Hl & Hr).
  destruct (hex4_parse y lo rest Hy) as (Ep' & Hl' & Hr').
  assert (E6 : drop 6 ([backslash; 117] ++ x ++ [backslash; 117] ++ y ++ rest) = [backslash; 117] ++ y ++ rest)
    by (by rewrite Ex).
  unfold utf16_literal_to_utf8. rewrite E6. rewrite !length_app. cbn [length].
  destruct (Nat.ltb_spec (2 + (length x + (2 + (length y + length rest)))) 6); [lia|].
  destruct (Nat.ltb_spec (2 + (length y + length rest)) 6); [lia|].
  change (drop 2 ([backslash; 117] ++ x ++ [backslash; 117] ++ y ++ rest)) with (x ++ [backslash; 117] ++ y ++ rest).
  change (drop 2 ([backslash; 117] ++ y ++ rest)) with (y ++ rest).
  rewrite Ep, Ep'. cbn [mbind option_bind].
  assert (E1 : (56320 <=? hi) && (hi <=? 57343) = false) by (case_cmp; cbn; lia).
  assert (E2 : (55296 <=? hi) && (hi <=? 56319) = true) by (case_cmp; cbn; lia).
  assert (E3 : (lo <? 56320) || (57343 <? lo) = false) by (case_cmp; cbn; lia).
  rewrite E1, E2, E3. rewrite bool_decide_eq_true_2 by done. cbn [negb].
  assert (Ecp : 65536 + Z.lor (Z.shiftl (Z.land hi 1023) 10) (Z.land lo 1023)
                = 65536 + (hi - 55296) * 1024 + (lo - 56320)).
  { change 1023 with (Z.ones 10). rewrite !Z.land_ones by lia.
    replace (hi mod 2 ^ 10) with (hi - 55296) by (Z.div_mod_to_equations; lia).
    replace (lo mod 2 ^ 10) with (lo - 56320) by (Z.div_mod_to_equations; lia).
    rewrite lor_shiftl by lia. lia. }
  rewrite Ecp, encode_utf8_eq by lia. done.
Qed.

(** One turn of the second loop at a UTF-16 escape. *)
Lemma unescape_u fuel l n pos room sl out r :
  n <> O -> utf16_literal_to_utf8 (take n (backslash :: 117 :: l)) = Some (sl, out) -> sl <> O ->
  unescape (S fuel) (backslash :: 117 :: l) n pos room = Some r ->
  exists r', unescape fuel (drop sl (backslash :: 117 :: l)) (n - sl) (pos + sl) (room - length out) = Some r' /\
             r = match r' with inl rest => inl (out ++ rest) | inr p => inr p end.
Proof.
  intros Hn E Hsl. cbn [unescape]. rewrite (proj2 (Nat.eqb_neq _ _) Hn). cbn [negb Z.eqb backslash].
  change (92 =? 92) with true. change (117 =? 117) with true. cbn [negb]. fold backslash. rewrite E.
  cbn [mbind option_bind]. rewrite (proj2 (Nat.eqb_neq _ _) Hsl).
  destruct (room <? length out)%nat; [done|].
  destruct (unescape fuel (drop sl _) _ _ _) as [r'|]; [|done]. intros [= <-]. by exists r'.
Qed.

(** The second loop, where it does not fault, decodes the text. *)
Lemma unescape_string_text t s rest :
  string_text t s -> forall fuel pos room r,
  (length t < fuel)%nat -> unescape fuel (t ++ quote :: rest) (length t) pos room = Some r -> r = inl s.
Proof.
  induction 1 as [|c t s Hq Hb _ IH|e byte t s He _ IH|x v t s Hx Hv _ IH|x hi y lo t s Hx Hhi Hy Hlo _ IH];
    intros [|fuel] pos room r Hf; try (cbn in Hf; lia).
  - cbn. by destruct (room =? 0)%nat; [|intros [= <-]].
  - cbn [unescape app length Nat.eqb]. rewrite (proj2 (Z.eqb_neq _ _) Hb). cbn [negb drop].
    destruct (room <? _)%nat; [done|]. replace (S (length t) - 1)%nat with (length t) by lia.
    destruct (unescape fuel _ _ _ _) as [r'|] eqn:E; [|done].
    apply IH in E as ->; [|cbn in Hf; lia]. by intros [= <-].
  - cbn [unescape app length Nat.eqb]. rewrite Z.eqb_refl. cbn [negb].
    assert (Hu : e <> 117) by (intros ->; by vm_compute in He).
    rewrite (proj2 (Z.eqb_neq _ _) Hu), He. destruct (room <? _)%nat; [done|].
    cbn [drop]. replace (S (S (length t)) - 2)%nat with (length t) by lia.
    destruct (unescape fuel _ _ _ _) as [r'|] eqn:E; [|done].
    apply IH in E as ->; [|cbn in Hf; lia]. by intros [= <-].
  - pose proof Hx as (a & b & c & d & _ & _ & _ & _ & Ex & _). set (l := [backslash; 117] ++ x ++ t) in *.
    assert (El : l ++ quote :: rest = backslash :: 117 :: x ++ t ++ quote :: rest)
      by (unfold l; by rewrite <- !app_assoc).
    assert (Hlen : length l = (6 + length t)%nat) by (unfold l; rewrite Ex; cbn; lia).
    rewrite El. intros H. eapply (unescape_u _ _ _ _ _ 6 (utf8 v)) in H as (r' & E & ->); [|lia| |done].
    2: { rewrite <- El, take_app_length. by apply utf16_single. }
    rewrite Ex, Hlen in E. replace (6 + length t - 6)%nat with (length t) in E by lia.
    apply (IH fuel) in E as ->; [done|lia].
  - pose proof Hx as (a & b & c & d & _ & _ & _ & _ & Ex & _).
    pose proof Hy as (a' & b' & c' & d' & _ & _ & _ & _ & Ey & _).
    set (l := [backslash; 117] ++ x ++ [backslash; 117] ++ y ++ t) in *.
    assert (El : l ++ quote :: rest = backslash :: 117 :: x ++ [backslash; 117] ++ y ++ t ++ quote :: rest)
      by (unfold l; by rewrite <- !app_assoc).
    assert (Hlen : length l = (12 + length t)%nat) by (unfold l; rewrite Ex, Ey; cbn; lia).
    rewrite El. intros H.
    eapply (unescape_u _ _ _ _ _ 12 (utf8 (65536 + (hi - 55296) * 1024 + (lo - 56320)))) in H
      as (r' & E & ->); [|lia| |done].
    2: { rewrite <- El, take_app_length. by apply utf16_pair. }
    rewrite Ex, Ey, Hlen in E. replace (12 + length t - 12)%nat with (length t) in E by lia.
    apply (IH fuel) in E as ->; [done|lia].
Qed.

(** *** The parser on the language *)

Section Complete.
Variable content : list Z.
Variable strtod : list Z -> spec_float * nat.
#[local] Abbreviation yes := (fun _ : nat => true).
#[local] Abbreviation skip := (buffer_skip_whitespace content).

(** What is left of the text. *)
Definition left_at (b : pbuf) : list Z := drop (offset b) content.

(** [b] moved over [n] bytes, up to the counts. *)
Definition moved (n : nat) (b b' : pbuf) : Prop :=
  offset b' = (offset b + n)%nat /\ depth b' = depth b.

Lemma moved_left b b' t rest :
  moved (length t) b b' -> left_at b = t ++ rest -> left_at b' = rest.
Proof.
  intros [Ho _] E. unfold left_at in *. by rewrite Ho, <- drop_drop, E, drop_app_length.
Qed.

Lemma left_lookup b c rest : left_at b = c :: rest -> content !! offset b = Some c.
Proof.
  unfold left_at. intros E. rewrite <- (Nat.add_0_r (offset b)), <- lookup_drop, E. done.
Qed.

Lemma left_size b l : left_at b = l -> l <> [] -> (offset b + length l = length content)%nat.
Proof.
  unfold left_at. intros <- Hl. rewrite length_drop. destruct (Nat.le_gt_cases (length content) (offset b)).
  - by rewrite drop_ge in Hl.
  - lia.
Qed.

(** White space in front of something else. *)
Lemma skip_white b w c rest :
  left_at b = w ++ c :: rest -> white w -> 32 < c -> moved (length w) b (skip b).
Proof.
  intros E Hw Hc. pose proof (left_size _ _ E ltac:(by destruct w)) as Hs. rewrite length_app in Hs. cbn in Hs.
  unfold buffer_skip_whitespace, can_access_at_index.
  rewrite (proj2 (Nat.ltb_lt _ _)) by lia. cbn [negb]. change (drop (offset b) content) with (left_at b). rewrite E.
  assert (Hk : skip_from (w ++ c :: rest) = length w).
  { clear -Hw Hc. induction Hw as [|x w Hx Hw IH]; cbn.
    - by rewrite (proj2 (Z.leb_gt _ _)).
    - by rewrite (proj2 (Z.leb_le _ _)), IH. }
  rewrite Hk. cbn [forward set_offset offset]. rewrite (proj2 (Nat.eqb_neq _ _)) by lia. by split.
Qed.

Lemma parse_string_text b t s rest :
  left_at b = ([quote] ++ t ++ [quote]) ++ rest -> string_text t s ->
  exists b', parse_string content yes b = Some (Some s, b') /\ moved (length ([quote] ++ t ++ [quote])) b b'.
Proof.
  intros E Ht. rewrite <- !app_assoc in E. cbn [app] in E. pose proof (left_lookup _ _ _ E) as Ec.
  unfold parse_string. rewrite Ec. cbn [mbind option_bind]. rewrite Z.eqb_refl. cbn [negb].
  assert (E' : drop (S (offset b)) content = t ++ quote :: rest).
  { replace (S (offset b)) with (offset b + 1)%nat by lia. rewrite <- drop_drop. unfold left_at in E.
    by rewrite E. }
  rewrite E'. destruct (scan_string_text t s rest Ht) as [k Hk]. rewrite Hk.
  unfold allocate. cbn [negb]. pose proof (scan_literal_spec _ _ _ Hk) as [_ Hk2].
  destruct (unescape_total (S (length t)) false (t ++ quote :: rest) (length t) (length t - k) 0
              (S (S (length t) - k))) as (r & Er & _); [exists k; split; [done|lia]|lia|lia|].
  rewrite Er. apply (unescape_string_text _ _ _ Ht) in Er as ->; [|lia]. cbn [mbind option_bind].
  eexists. split; [reflexivity|]. split; [|done]. cbn. rewrite length_app. cbn. lia.
Qed.

Lemma number_chars_text t rest n :
  Forall (fun c => is_number_char c = true) t -> (length t <= n)%nat ->
  match rest with c :: _ => is_number_char c = false | [] => True end ->
  number_chars n (t ++ rest) = t.
Proof.
  intros Ht. revert n. induction Ht as [|c t Hc Ht IH]; intros n Hn Hr; cbn [app].
  - destruct n; [done|]. destruct rest as [|c rest]; [done|]. cbn. by rewrite Hr.
  - destruct n as [|n]; [cbn in Hn; lia|]. cbn [number_chars]. rewrite Hc. f_equal.
    apply IH; [cbn in Hn; lia|done].
Qed.

Lemma at_literal_here b s rest : left_at b = s ++ rest -> s <> [] -> at_literal content b s = true.
Proof.
  intros E Hs. pose proof (left_size _ _ E ltac:(by destruct s)) as Hl. rewrite length_app in Hl.
  unfold at_literal, can_read. rewrite (proj2 (Nat.leb_le _ _)) by lia.
  change (drop (offset b) content) with (left_at b). rewrite E, take_app_length. by apply bool_decide_eq_true_2.
Qed.

Lemma at_literal_not b c l x s : left_at b = c :: l -> x <> c -> at_literal content b (x :: s) = false.
Proof.
  intros E Hx. unfold at_literal. change (drop (offset b) content) with (left_at b). rewrite E.
  rewrite andb_false_iff. right. apply bool_decide_eq_false_2. cbn [length take]. congruence.
Qed.

Lemma at_char_here b c rest : left_at b = c :: rest -> forall x, at_char content b x = (c =? x).
Proof.
  intros E x. unfold at_char. rewrite (left_lookup _ _ _ E). destruct (Z.eqb_spec c x) as [->|Hx].
  - by apply bool_decide_eq_true_2.
  - apply bool_decide_eq_false_2. congruence.
Qed.

(** What follows a value: something that is not part of a number. *)
Definition ends_number (rest : list Z) : Prop :=
  match rest with c :: _ => is_number_char c = false | [] => False end.

Definition value_parsed (d : nat) (j : json) (t : list Z) : Prop :=
  (exists c t', t = c :: t' /\ 32 < c < 128 /\ c <> 93) /\
  forall b rest n, left_at b = t ++ rest -> ends_number rest ->
    (depth b + d <= CJSON_NESTING_LIMIT)%nat -> (3 * length (left_at b) + 3 <= n)%nat ->
    exists b', parse_value content yes strtod n b = Some (Some j, b') /\ moved (length t) b b'.

(** [b] is one byte before the elements: at the bracket or at a comma. *)
Definition elements_parsed (d : nat) (items : list json) (t : list Z) : Prop :=
  forall before b x rest n, left_at b = x :: t ++ 93 :: rest -> (1 <= depth b)%nat ->
    (depth b + d <= CJSON_NESTING_LIMIT)%nat -> (3 * length (left_at b) + 1 <= n)%nat ->
    exists b', parse_elements content yes strtod n before b = Some (Some (JArray (before ++ items)), b') /\
               offset b' = (offset b + length t + 2)%nat /\ depth b' = (depth b - 1)%nat.

Definition members_parsed (d : nat) (members : list (list Z * json)) (t : list Z) : Prop :=
  forall before b x rest n, left_at b = x :: t ++ 125 :: rest -> (1 <= depth b)%nat ->
    (depth b + d <= CJSON_NESTING_LIMIT)%nat -> (3 * length (left_at b) + 1 <= n)%nat ->
    exists b', parse_members content yes strtod n before b = Some (Some (JObject (before ++ members)), b') /\
               offset b' = (offset b + length t + 2)%nat /\ depth b' = (depth b - 1)%nat.

Lemma white_ends_number w c rest : white w -> is_number_char c = false -> ends_number (w ++ c :: rest).
Proof.
  intros Hw Hc. destruct Hw as [|x w Hx Hw]; [exact Hc|]. cbn. unfold is_number_char.
  case_cmp; cbn; lia || done.
Qed.

Lemma moved_trans m n b b1 b2 : moved m b b1 -> moved n b1 b2 -> moved (m + n) b b2.
Proof. intros [H1 H2] [H3 H4]. split; [lia|congruence]. Qed.

Lemma skip_to b w c rest :
  left_at b = w ++ c :: rest -> white w -> 32 < c ->
  moved (length w) b (skip b) /\ left_at (skip b) = c :: rest.
Proof.
  intros E Hw Hc. pose proof (skip_white _ _ _ _ E Hw Hc) as Hm. split; [exact Hm|].
  by eapply moved_left.
Qed.

(** A value in white space, one byte ahead, and what comes after it. *)
Lemma padded_value d j t b x w1 w2 c rest n :
  value_parsed d j t -> left_at b = x :: w1 ++ t ++ w2 ++ c :: rest -> white w1 -> white w2 ->
  32 < c -> is_number_char c = false ->
  (depth b + d <= CJSON_NESTING_LIMIT)%nat -> (3 * length (left_at b) <= n)%nat ->
  exists b', parse_value content yes strtod n (skip (forward 1 b)) = Some (Some j, b') /\
             moved (1 + length w1 + length t + length w2) b (skip b') /\ left_at (skip b') = c :: rest.
Proof.
  intros [(c0 & t' & Et & Hc0 & _) Hp] E Hw1 Hw2 Hc Hn Hd Hf.
  assert (M1 : moved 1 b (forward 1 b)) by done.
  assert (E1 : left_at (forward 1 b) = w1 ++ c0 :: t' ++ w2 ++ c :: rest).
  { rewrite Et in E. exact (moved_left _ _ [x] _ M1 E). }
  destruct (skip_to _ _ _ _ E1 Hw1 ltac:(lia)) as [M2 E2].
  destruct (Hp (skip (forward 1 b)) (w2 ++ c :: rest) n) as (b' & Ep & M3).
  - by rewrite E2, Et.
  - by apply white_ends_number.
  - destruct M2 as [_ ->]. exact Hd.
  - rewrite E2. rewrite E, Et in Hf. cbn [length app] in *. rewrite !length_app in Hf. cbn [length] in *.
    rewrite !length_app in *. cbn [length] in *. lia.
  - exists b'. split; [exact Ep|].
    assert (E3 : left_at b' = w2 ++ c :: rest) by (eapply moved_left; [exact M3|by rewrite E2, Et]).
    destruct (skip_to _ _ _ _ E3 Hw2 Hc) as [M4 E4]. split; [|exact E4].
    exact (moved_trans _ _ _ _ _ (moved_trans _ _ _ _ _ (moved_trans _ _ _ _ _ M1 M2) M3) M4).
Qed.

(** *** One lemma for each form *)

Ltac lengths := repeat (progress (rewrite ?length_app in *; cbn [length app] in * )); lia.

Ltac refold :=
  fold (parse_value content yes strtod); fold (parse_elements content yes strtod);
  fold (parse_members content yes strtod).

Lemma literal_parsed d j s b rest n :
  (s = bytes "null" /\ j = JNull) \/ (s = bytes "false" /\ j = JBool false) \/ (s = bytes "true" /\ j = JBool true) ->
  left_at b = s ++ rest -> (0 < n)%nat ->
  (depth b + d <= CJSON_NESTING_LIMIT)%nat ->
  exists b', parse_value content yes strtod n b = Some (Some j, b') /\ moved (length s) b b'.
Proof.
  intros Hs E Hn _. destruct n as [|n]; [lia|]. cbn [parse_value].
  destruct Hs as [[-> ->]|[[-> ->]|[-> ->]]].
  - rewrite (at_literal_here _ _ _ E) by done. by eexists.
  - assert (E1 : at_literal content b (bytes "null") = false) by (eapply at_literal_not; [exact E|done]).
    rewrite E1, (at_literal_here _ _ _ E) by done. by eexists.
  - assert (E1 : at_literal content b (bytes "null") = false) by (eapply at_literal_not; [exact E|done]).
    assert (E2 : at_literal content b (bytes "false") = false) by (eapply at_literal_not; [exact E|done]).
    rewrite E1, E2, (at_literal_here _ _ _ E) by done. by eexists.
Qed.

(** None of the literals. *)
Lemma no_literal b c l :
  left_at b = c :: l -> c <> 110 -> c <> 102 -> c <> 116 ->
  at_literal content b (bytes "null") = false /\ at_literal content b (bytes "false") = false /\
  at_literal content b (bytes "true") = false.
Proof. intros E H1 H2 H3. split_and!; eapply at_literal_not; (exact E || done). Qed.

Lemma number_parsed d t number i :
  Forall (fun c => is_number_char c = true) t -> (length t <= 63)%nat ->
  (exists c t', t = c :: t' /\ (c = 45 \/ 48 <= c <= 57)) ->
  strtod t = (number, length t) -> saturated number = Some i -> value_parsed d (JNumber number i) t.
Proof.
  intros Hc Hl (c & t' & Et & Hc0) Hst Hsat. split; [exists c, t'; split; [done|lia]|].
  intros b rest [|n] E Hr Hd Hn; [lia|]. cbn [parse_value].
  assert (Ec : left_at b = c :: t' ++ rest) by (by rewrite E, Et).
  destruct (no_literal _ _ _ Ec) as (-> & -> & ->); [lia..|]. rewrite (left_lookup _ _ _ Ec).
  unfold quote. rewrite (proj2 (Z.eqb_neq c 34)) by lia.
  assert (Hb : (c =? 45) || (48 <=? c) && (c <=? 57) = true) by (case_cmp; cbn; lia). rewrite Hb.
  unfold parse_number. change (drop (offset b) content) with (left_at b).
  rewrite E, number_chars_text, Hst by (done || (by destruct rest)).
  destruct (Nat.eqb_spec (length t) 0) as [H0|]; [by rewrite Et in H0|]. rewrite Hsat. cbn [mbind option_bind].
  eexists. split; [reflexivity|done].
Qed.

Lemma string_parsed d t s : string_text t s -> value_parsed d (JString s) ([quote] ++ t ++ [quote]).
Proof.
  intros Ht. split; [by eexists _, _|]. intros b rest [|n] E Hr Hd Hn; [lia|]. cbn [parse_value].
  assert (Ec : left_at b = quote :: (t ++ [quote]) ++ rest) by (by rewrite E).
  destruct (no_literal _ _ _ Ec) as (-> & -> & ->); [done..|]. rewrite (left_lookup _ _ _ Ec), Z.eqb_refl.
  destruct (parse_string_text _ _ _ _ E Ht) as (b' & -> & M). cbn [mbind option_bind option_map].
  by exists b'.
Qed.

Lemma elements_last d w1 i t w2 :
  white w1 -> value_parsed d i t -> white w2 -> elements_parsed d [i] (w1 ++ t ++ w2).
Proof.
  intros Hw1 Hi Hw2 before b x rest [|n] E Hd1 Hd Hn; [lia|]. cbn [parse_elements]. refold.
  unfold allocate. cbn [negb]. set (b1 := mkPB (offset b) (depth b) (S (calls b)) (S (live b))).
  rewrite <- !app_assoc in E.
  destruct (padded_value d i t b1 x w1 w2 93 rest n Hi E Hw1 Hw2) as (b' & -> & [Mo Md] & E'); [done|done|exact Hd| |].
  { change (left_at b1) with (left_at b). lia. }
  cbn [mbind option_bind]. rewrite !(at_char_here _ _ _ E'). cbn [Z.eqb Pos.eqb negb].
  eexists. split; [reflexivity|]. cbn [offset depth forward set_depth set_offset b1] in *. lengths.
Qed.

Lemma elements_next d w1 i t w2 items t' :
  white w1 -> value_parsed d i t -> white w2 -> elements_parsed d items t' ->
  elements_parsed d (i :: items) (w1 ++ t ++ w2 ++ [44] ++ t').
Proof.
  intros Hw1 Hi Hw2 Hrest before b x rest [|n] E Hd1 Hd Hn; [lia|]. cbn [parse_elements]. refold.
  unfold allocate. cbn [negb]. set (b1 := mkPB (offset b) (depth b) (S (calls b)) (S (live b))).
  rewrite <- !app_assoc in E. cbn [app] in E.
  destruct (padded_value d i t b1 x w1 w2 44 (t' ++ 93 :: rest) n Hi E Hw1 Hw2)
    as (b' & -> & [Mo Md] & E'); [done|done|exact Hd| |].
  { change (left_at b1) with (left_at b). lia. }
  cbn [mbind option_bind]. rewrite !(at_char_here _ _ _ E'). cbn [Z.eqb Pos.eqb].
  destruct (Hrest (before ++ [i]) _ _ _ n E') as (b'' & -> & Ho & Hd').
  - rewrite Md. exact Hd1.
  - rewrite Md. exact Hd.
  - rewrite E'. rewrite E in Hn. lengths.
  - exists b''. rewrite <- app_assoc. split; [done|]. cbn [offset depth b1] in *. lengths.
Qed.

(** The name of a member in white space, one byte ahead, up to the colon. *)
Lemma padded_name b x w1 k name w2 rest :
  left_at b = x :: w1 ++ ([quote] ++ k ++ [quote]) ++ w2 ++ 58 :: rest ->
  white w1 -> string_text k name -> white w2 ->
  can_access_at_index content b 1 = true /\
  exists b', parse_string content yes (skip (forward 1 b)) = Some (Some name, b') /\
             moved (1 + length w1 + length ([quote] ++ k ++ [quote]) + length w2) b (skip b') /\
             left_at (skip b') = 58 :: rest.
Proof.
  intros E Hw1 Hk Hw2. split.
  { unfold can_access_at_index. apply Nat.ltb_lt.
    pose proof (left_size _ _ E ltac:(done)) as Hs. clear -Hs. lengths. }
  assert (M1 : moved 1 b (forward 1 b)) by done.
  pose proof (moved_left _ _ [x] _ M1 E) as E1.
  destruct (skip_to _ w1 quote ((k ++ [quote]) ++ w2 ++ 58 :: rest) E1 Hw1 ltac:(done)) as [M2 E2].
  destruct (parse_string_text _ k name (w2 ++ 58 :: rest) E2 Hk) as (b' & Ep & M3).
  exists b'. split; [exact Ep|]. assert (E3 : left_at b' = w2 ++ 58 :: rest) by (by eapply moved_left).
  destruct (skip_to _ _ _ _ E3 Hw2 ltac:(done)) as [M4 E4]. split; [|exact E4].
  exact (moved_trans _ _ _ _ _ (moved_trans _ _ _ _ _ (moved_trans _ _ _ _ _ M1 M2) M3) M4).
Qed.

Lemma members_last d w1 k name w2 w3 i t w4 :
  white w1 -> string_text k name -> white w2 -> white w3 -> value_parsed d i t -> white w4 ->
  members_parsed d [(name, i)] (w1 ++ ([quote] ++ k ++ [quote]) ++ w2 ++ [58] ++ w3 ++ t ++ w4).
Proof.
  intros Hw1 Hk Hw2 Hw3 Hi Hw4 before b x rest [|n] E Hd1 Hd Hn; [lia|]. cbn [parse_members]. refold.
  unfold allocate at 1. cbn [negb]. set (b1 := mkPB (offset b) (depth b) (S (calls b)) (S (live b))).
  set (q := [quote] ++ k ++ [quote]) in *. rewrite <- !app_assoc in E.
  destruct (padded_name b1 x w1 k name w2 _ E Hw1 Hk Hw2) as (Hacc & b2 & Ep & [Mo Md] & E2).
  rewrite Hacc. cbn [negb]. rewrite Ep. cbn [mbind option_bind]. rewrite (at_char_here _ _ _ E2).
  cbn [Z.eqb Pos.eqb negb].
  destruct (padded_value d i t _ 58 w3 w4 125 rest n Hi E2 Hw3 Hw4) as (b3 & Ep3 & [Mo3 Md3] & E3);
    [done|done|rewrite Md; exact Hd| |].
  { rewrite E2. rewrite E in Hn. unfold q in Hn. clear -Hn. lengths. }
  rewrite Ep3. cbn [mbind option_bind]. rewrite !(at_char_here _ _ _ E3). cbn [Z.eqb Pos.eqb negb].
  eexists. split; [reflexivity|]. cbn [offset depth forward set_depth set_offset b1] in *.
  rewrite Mo3, Md3, Mo, Md. unfold q. clear. lengths.
Qed.

Lemma members_next d w1 k name w2 w3 i t w4 members t' :
  white w1 -> string_text k name -> white w2 -> white w3 -> value_parsed d i t -> white w4 ->
  members_parsed d members t' ->
  members_parsed d ((name, i) :: members)
    (w1 ++ ([quote] ++ k ++ [quote]) ++ w2 ++ [58] ++ w3 ++ t ++ w4 ++ [44] ++ t').
Proof.
  intros Hw1 Hk Hw2 Hw3 Hi Hw4 Hrest before b x rest [|n] E Hd1 Hd Hn; [lia|]. cbn [parse_members]. refold.
  unfold allocate at 1. cbn [negb]. set (b1 := mkPB (offset b) (depth b) (S (calls b)) (S (live b))).
  set (q := [quote] ++ k ++ [quote]) in *. rewrite <- !app_assoc in E.
  destruct (padded_name b1 x w1 k name w2 _ E Hw1 Hk Hw2) as (Hacc & b2 & Ep & [Mo Md] & E2).
  rewrite Hacc. cbn [negb]. rewrite Ep. cbn [mbind option_bind]. rewrite (at_char_here _ _ _ E2).
  cbn [Z.eqb Pos.eqb negb].
  destruct (padded_value d i t _ 58 w3 w4 44 (t' ++ 125 :: rest) n Hi E2 Hw3 Hw4) as (b3 & Ep3 & [Mo3 Md3] & E3);
    [done|done|rewrite Md; exact Hd| |].
  { rewrite E2. rewrite E in Hn. unfold q in Hn. clear -Hn. lengths. }
  rewrite Ep3. cbn [mbind option_bind]. rewrite !(at_char_here _ _ _ E3). cbn [Z.eqb Pos.eqb].
  destruct (Hrest (before ++ [(name, i)]) _ _ _ n E3) as (b4 & -> & Ho & Hd').
  - rewrite Md3, Md. exact Hd1.
  - rewrite Md3, Md. exact Hd.
  - rewrite E3. rewrite E in Hn. unfold q in Hn. clear -Hn. lengths.
  - exists b4. rewrite <- app_assoc. split; [done|].
    cbn [offset depth b1] in *. rewrite Ho, Hd', Mo3, Md3, Mo, Md. unfold q. clear. lengths.
Qed.

Lemma left_back b l :
  left_at b = l -> l <> [] -> (0 < offset b)%nat ->
  exists x, left_at (back b) = x :: l /\ offset (back b) = (offset b - 1)%nat /\ depth (back b) = depth b.
Proof.
  intros E Hl Ho. pose proof (left_size _ _ E Hl) as Hs. destruct l as [|c l]; [done|].
  destruct (lookup_lt_is_Some_2 content (offset b - 1)%nat) as [x Hx]; [cbn in Hs; lia|].
  exists x. split; [|done]. unfold left_at in *. cbn [back set_offset offset]. rewrite (drop_S _ _ _ Hx).
  replace (S (offset b - 1)) with (offset b) by lia. by rewrite E.
Qed.

(** A list of elements or members after the bracket, where the white space in
    front of it was skipped already. *)
Definition behind_white (P : list Z -> Prop) (close : Z) (t : list Z) : Prop :=
  exists w c l, t = w ++ c :: l /\ white w /\ 32 < c /\ c <> close /\ P (c :: l).

Lemma opening b c rest d :
  left_at b = c :: rest -> (depth b + S d <= CJSON_NESTING_LIMIT)%nat -> 
  let b1 := set_depth (S (depth b)) b in
  (CJSON_NESTING_LIMIT <=? depth b)%nat = false /\ content !! offset b1 = Some c /\
  at_char content b1 c = true /\ left_at (forward 1 b1) = rest.
Proof.
  intros E Hd b1. split; [apply Nat.leb_gt; lia|].
  assert (E1 : left_at b1 = c :: rest) by exact E.
  split; [by apply (left_lookup _ _ _ E1)|]. split; [rewrite (at_char_here _ _ _ E1); apply Z.eqb_refl|].
  exact (moved_left b1 (forward 1 b1) [c] rest (conj eq_refl eq_refl) E1).
Qed.

Lemma array_parsed d items t :
  (white t /\ items = []) \/ behind_white (elements_parsed d items) 93 t ->
  value_parsed (S d) (JArray items) ([91] ++ t ++ [93]).
Proof.
  intros Ht. split; [by eexists _, _|]. intros b rest [|[|n]] E Hr Hd Hn; [lia|lia|].
  rewrite <- !app_assoc in E. cbn [app] in E.
  destruct (no_literal _ _ _ E) as (E1 & E2 & E3); [done..|].
  cbn [parse_value]. rewrite E1, E2, E3, (left_lookup _ _ _ E). cbn [Z.eqb Pos.eqb quote orb].
  cbn [Z.leb Z.compare Pos.compare Pos.compare_cont andb]. cbn [parse_array]. refold.
  destruct (opening b 91 _ d E Hd) as (-> & Ec & _ & E4). set (b1 := set_depth (S (depth b)) b) in *.
  rewrite Ec. cbn [mbind option_bind Z.eqb Pos.eqb negb].
  destruct Ht as [[Hw ->]|(w & c & l & -> & Hw & Hc & Hc93 & Hel)].
  - destruct (skip_to _ t 93 rest E4 Hw ltac:(done)) as [[Mo Md] E5].
    rewrite (at_char_here _ _ _ E5). cbn [Z.eqb Pos.eqb]. eexists. split; [reflexivity|].
    split; cbn in *; lengths.
  - rewrite <- app_assoc in E4. cbn [app] in E4.
    destruct (skip_to _ w c _ E4 Hw Hc) as [[Mo Md] E5]. set (b2 := skip (forward 1 b1)) in *.
    rewrite (at_char_here _ _ _ E5), (proj2 (Z.eqb_neq c 93) Hc93).
    pose proof (left_size _ _ E5 ltac:(done)) as Hs. unfold can_access_at_index.
    destruct (Nat.ltb_spec (offset b2 + 0) (length content)); [|cbn in Hs; lia]. cbn [negb].
    cbn [forward set_offset offset depth set_depth b1] in Mo, Md.
    destruct (left_back b2 _ E5 ltac:(done)) as (x & E6 & Ho6 & Hd6); [lia|].
    destruct (Hel [] (back b2) x rest n) as (b3 & -> & Ho & Hd3); [exact E6|rewrite Hd6, Md; lia|rewrite Hd6, Md; lia| |].
    { rewrite E6. rewrite E in Hn. clear -Hn. lengths. }
    exists b3. split; [done|]. split; [|rewrite Hd3, Hd6, Md; lia].
    rewrite Ho, Ho6, Mo. clear. lengths.
Qed.

Lemma object_parsed d members t :
  (white t /\ members = []) \/ behind_white (members_parsed d members) 125 t ->
  value_parsed (S d) (JObject members) ([123] ++ t ++ [125]).
Proof.
  intros Ht. split; [by eexists _, _|]. intros b rest [|[|n]] E Hr Hd Hn; [lia|lia|].
  rewrite <- !app_assoc in E. cbn [app] in E.
  destruct (no_literal _ _ _ E) as (E1 & E2 & E3); [done..|].
  cbn [parse_value]. rewrite E1, E2, E3, (left_lookup _ _ _ E). cbn [Z.eqb Pos.eqb quote orb].
  cbn [Z.leb Z.compare Pos.compare Pos.compare_cont andb]. cbn [parse_object]. refold.
  destruct (opening b 123 _ d E Hd) as (-> & _ & Ec & E4). set (b1 := set_depth (S (depth b)) b) in *.
  rewrite Ec. cbn [negb].
  destruct Ht as [[Hw ->]|(w & c & l & -> & Hw & Hc & Hc93 & Hel)].
  - destruct (skip_to _ t 125 rest E4 Hw ltac:(done)) as [[Mo Md] E5].
    rewrite (at_char_here _ _ _ E5). cbn [Z.eqb Pos.eqb]. eexists. split; [reflexivity|].
    split; cbn in *; lengths.
  - rewrite <- app_assoc in E4. cbn [app] in E4.
    destruct (skip_to _ w c _ E4 Hw Hc) as [[Mo Md] E5]. set (b2 := skip (forward 1 b1)) in *.
    rewrite (at_char_here _ _ _ E5), (proj2 (Z.eqb_neq c 125) Hc93).
    pose proof (left_size _ _ E5 ltac:(done)) as Hs. unfold can_access_at_index at 1.
    destruct (Nat.ltb_spec (offset b2 + 0) (length content)); [|cbn in Hs; lia]. cbn [negb].
    cbn [forward set_offset offset depth set_depth b1] in Mo, Md.
    destruct (left_back b2 _ E5 ltac:(done)) as (x & E6 & Ho6 & Hd6); [lia|].
    destruct (Hel [] (back b2) x rest n) as (b3 & -> & Ho & Hd3); [exact E6|rewrite Hd6, Md; lia|rewrite Hd6, Md; lia| |].
    { rewrite E6. rewrite E in Hn. clear -Hn. lengths. }
    exists b3. split; [done|]. split; [|rewrite Hd3, Hd6, Md; lia].
    rewrite Ho, Ho6, Mo. clear. lengths.
Qed.

(** Every text of the language. *)
Lemma value_text_parsed d j t : value_text strtod d j t -> value_parsed d j t.
Proof.
  apply (value_text_mut strtod (fun d j t _ => value_parsed d j t)
    (fun d items t _ => elements_parsed d items t /\ behind_white (elements_parsed d items) 93 t)
    (fun d members t _ => members_parsed d members t /\ behind_white (members_parsed d members) 125 t));
    clear d j t.
  1-3: intros d; split; [by eexists _, _|]; intros b rest n E Hr Hd Hn;
    eapply literal_parsed; [|exact E|lia|exact Hd]; by auto.
  - intros d t number i H1 H2 H3 H4 H5. by apply number_parsed.
  - intros d t s Ht. by apply string_parsed.
  - intros d w Hw. apply array_parsed. by left.
  - intros d items t _ [_ Ht]. apply array_parsed. by right.
  - intros d w Hw. apply object_parsed. by left.
  - intros d members t _ [_ Ht]. apply object_parsed. by right.
  - intros d w1 i t w2 Hw1 _ Hi Hw2. split; [by apply elements_last|].
    destruct Hi as [(c & t' & -> & Hc & Hc93) Hp]. exists w1, c, (t' ++ w2). repeat split; try done; [lia|].
    apply (elements_last d [] i (c :: t') w2); [by constructor| |done]. split; [by eexists _, _|exact Hp].
  - intros d w1 i t w2 items t' Hw1 _ Hi Hw2 _ [Ht' _]. split; [by apply elements_next|].
    destruct Hi as [(c & l & -> & Hc & Hc93) Hp]. exists w1, c, (l ++ w2 ++ [44] ++ t'). repeat split; try done; [lia|].
    apply (elements_next d [] i (c :: l) w2 items t'); [by constructor| |done|done]. split; [by eexists _, _|exact Hp].
  - intros d w1 k name w2 w3 i t w4 Hw1 Hk Hw2 Hw3 _ Hi Hw4. split; [by apply members_last|].
    exists w1, quote, ((k ++ [quote]) ++ w2 ++ [58] ++ w3 ++ t ++ w4). repeat split; try done.
    by apply (members_last d [] k name w2 w3 i t w4); [constructor|..].
  - intros d w1 k name w2 w3 i t w4 members t' Hw1 Hk Hw2 Hw3 _ Hi Hw4 _ [Ht' _].
    split; [by apply members_next|].
    exists w1, quote, ((k ++ [quote]) ++ w2 ++ [58] ++ w3 ++ t ++ w4 ++ [44] ++ t'). repeat split; try done.
    by apply (members_next d [] k name w2 w3 i t w4 members t'); [constructor|..].
Qed.
End Complete.

Lemma c_str_id l : Forall (fun c => c <> 0) l -> c_str l = l.
Proof. induction 1 as [|c l Hc Hl IH]; cbn; [done|]. by rewrite (proj2 (Z.eqb_neq _ _) Hc), IH. Qed.

(** The byte order mark is skipped and nothing else is taken for one. *)
Lemma skip_bom_spec bom l c b :
  bom = [] \/ bom = [239; 187; 191] -> match l with x :: _ => x < 128 | [] => False end -> offset b = O ->
  moved (length bom) b (skip_utf8_bom (bom ++ l ++ [c]) b).
Proof.
  intros Hbom Hl Hb. unfold skip_utf8_bom, can_access_at_index. rewrite Hb, drop_0.
  destruct l as [|x l]; [done|]. destruct Hbom as [->| ->]; cbn [app].
  - rewrite bool_decide_eq_false_2; [by rewrite andb_false_r|].
    cbn [take]. intros [= E _]. lia.
  - rewrite (proj2 (Nat.ltb_lt _ _)) by (cbn [length]; rewrite length_app; cbn [length]; lia).
    rewrite bool_decide_eq_true_2 by done. cbn [andb]. by split.
Qed.

Lemma parse_text (strtod : list Z -> spec_float * nat) (d : nat) (j : json)
    (bom w1 t w2 : list Z) (b : pbuf) :
  value_text strtod d j t -> (d <= CJSON_NESTING_LIMIT)%nat -> white w1 -> white w2 ->
  bom = [] \/ bom = [239; 187; 191] -> Forall (fun c => c <> 0) (bom ++ w1 ++ t ++ w2) ->
  exists p, cJSON_Parse (bom ++ w1 ++ t ++ w2) (fun _ => true) strtod b = Some p /\
            item p = Some j /\ error p = None /\ parse_end p = length (bom ++ w1 ++ t).
Proof.
  intros Ht Hd Hw1 Hw2 Hbom Hnul. unfold cJSON_Parse. rewrite c_str_id by done.
  set (content := (bom ++ w1 ++ t ++ w2) ++ [0]).
  destruct (value_text_parsed content strtod d j t Ht) as [(c & t' & Et & Hc & _) Hp].
  assert (Hcont : content = bom ++ (w1 ++ t ++ w2) ++ [0]) by (unfold content; by rewrite <- !app_assoc).
  unfold cJSON_ParseWithLengthOpts.
  destruct (Nat.eqb_spec (length content) 0) as [H0|_].
  { unfold content in H0. rewrite length_app in H0. cbn in H0. lia. }
  unfold allocate. cbn [negb calls live offset depth]. set (b1 := mkPB 0 0 _ _).
  assert (M1 : moved (length bom) b1 (skip_utf8_bom content b1)).
  { rewrite Hcont. apply skip_bom_spec; [done| |done]. rewrite Et. destruct Hw1; cbn; lia. }
  set (b2 := skip_utf8_bom content b1) in *.
  assert (E2 : left_at content b2 = w1 ++ c :: t' ++ w2 ++ [0]).
  { apply (moved_left content b1 b2 bom _ M1). unfold left_at. cbn [offset b1].
    rewrite drop_0, Hcont, Et, <- !app_assoc. done. }
  destruct (skip_to content b2 w1 c _ E2 Hw1 ltac:(lia)) as [M3 E3].
  set (b3 := buffer_skip_whitespace content b2) in *.
  assert (E3' : left_at content b3 = t ++ w2 ++ [0]) by (by rewrite E3, Et).
  destruct (Hp b3 (w2 ++ [0]) (parse_fuel content) E3') as (b4 & -> & M4).
  - by apply (white_ends_number w2 0 []).
  - destruct M3 as [_ ->], M1 as [_ ->]. cbn. lia.
  - pose proof (left_size content _ _ E3' ltac:(by rewrite Et)) as Hs. rewrite E3'. unfold parse_fuel. lia.
  - cbn [mbind option_bind andb]. eexists. split; [reflexivity|]. cbn [item error parse_end].
    split; [done|]. split; [done|]. destruct M4 as [-> _], M3 as [-> _], M1 as [-> _]. cbn [offset b1].
    rewrite !length_app. lia.
Qed.

(** A number is copied to a buffer of 64 bytes before it is converted: of a longer
    one the first 63 characters are read. *)
Lemma parse_number_cut content strtod b t rest :
  drop (offset b) content = t ++ rest -> Forall (fun c => is_number_char c = true) t -> (63 <= length t)%nat ->
  parse_number content strtod b =
    (let '(number, taken) := strtod (take 63 t) in
     if (taken =? 0)%nat then Some (None, b)
     else valueint ← saturated number; Some (Some (JNumber number valueint), forward taken b)).
Proof.
  intros E Hc Hl. unfold parse_number. rewrite E. replace (number_chars 63 (t ++ rest)) with (take 63 t); [done|].
  clear E. revert Hl. generalize 63%nat as n. intros n. revert n. induction Hc as [|c t Hc _ IH]; intros [|n] Hl; cbn in *; try done; try lia.
  rewrite Hc. f_equal. apply IH. lia.
Qed.

(** So an array of one number of 64 digits is not parsed. *)
Example long_number_refused :
  let text := [91; 49] ++ replicate 63 48 ++ [93] in
  option_map item (cJSON_Parse text (fun _ => true) DemoNumber.strtod (mkPB 0 0 0 0)) = Some None.
Proof. vm_compute. reflexivity. Qed.

(** C10: The parser reads every text of the language, the numbers of which have at
    most 63 characters (a longer one is cut there: see [parse_number_cut]).  A
    value written in JSON -- literals, numbers of at most 63 characters that
    [strtod] takes in full, strings with every escape and
    surrogate pair, arrays and objects with any white space, nested at most 1000
    deep -- with white space around it and a byte order mark or not, is parsed to
    that value, when allocations succeed. *)
Theorem cJSON_Parse_complete (strtod : list Z -> spec_float * nat) (d : nat) (j : json)
    (bom w1 t w2 : list Z) (b : pbuf) :
  value_text strtod d j t -> (d <= CJSON_NESTING_LIMIT)%nat -> white w1 -> white w2 ->
  bom = [] \/ bom = [239; 187; 191] -> Forall (fun c => c <> 0) (bom ++ w1 ++ t ++ w2) ->
  exists p, cJSON_Parse (bom ++ w1 ++ t ++ w2) (fun _ => true) strtod b = Some p /\
            item p = Some j /\ error p = None /\ parse_end p = length (bom ++ w1 ++ t).
Proof. apply parse_text. Qed.

(** The text [{ "a":[1, true ]}], of an escape in place of the name. *)
Lemma cJSON_Parse_complete_witness :
  let q := [quote] in
  let text := bytes "{ " ++ (q ++ bytes "\u0061" ++ q) ++ bytes ":[1, true ]}" in
  exists p, cJSON_Parse ([] ++ bytes " " ++ text ++ []) (fun _ => true) DemoNumber.strtod (mkPB 0 0 0 0) = Some p /\
            item p = Some (JObject [([97], JArray [JNumber (S754_finite false 1 0) 1; JBool true])]).
Proof.
  intros q text.
  destruct (cJSON_Parse_complete DemoNumber.strtod 2
    (JObject [([97], JArray [JNumber (S754_finite false 1 0) 1; JBool true])]) [] (bytes " ") text []
    (mkPB 0 0 0 0)) as (p & E & Ei & _).
  - apply (T_object _ 1 _ (bytes " " ++ (q ++ bytes "\u0061" ++ q) ++ [] ++ [58] ++ [] ++ bytes "[1, true ]" ++ [])).
    apply M_last; try (by repeat constructor).
    + apply (St_unicode [48; 48; 54; 49] 97 [] []); [|lia|constructor].
      by exists 48, 48, 54, 49, 0, 0, 6, 1.
    + apply (T_array _ 0 _ ([] ++ bytes "1" ++ [] ++ [44] ++ bytes " true ")).
      apply E_next; try (by repeat constructor).
      * apply T_number; try done; [by repeat constructor|cbn; lia|]. exists 49, []. split; [done|lia].
      * apply (E_last _ 0 [32] (JBool true) (bytes "true") [32]); try (by repeat constructor).
  - by vm_compute; lia.
  - by repeat constructor.
  - constructor.
  - by left.
  - by repeat constructor.
  - exists p. split; [exact E|exact Ei].
Defined.

(** The look-up of a member gives the first one of that name. *)
Lemma cJSON_GetObjectItem_first members string i :
  cJSON_GetObjectItem (Some (JObject members)) string = Some i <->
  exists n k, members !! n = Some (k, i) /\ same_name string k = true /\
    forall m k' i', (m < n)%nat -> members !! m = Some (k', i') -> same_name string k' = false.
Proof.
  unfold cJSON_GetObjectItem. cbn [children]. induction members as [|[k j] members IH]; cbn [map find_child].
  - split; [done|]. intros (n & k & H & _). by rewrite lookup_nil in H.
  - destruct (same_name string k) eqn:Hk; [|rewrite IH]; split.
    + intros [= <-]. exists O, k. split; [done|]. split; [done|]. intros m k' i' Hm. lia.
    + intros ([|n] & k' & H & Hs & Hfirst); [by injection H as -> ->|].
      specialize (Hfirst O k j ltac:(lia) eq_refl). congruence.
    + intros (n & k' & H & Hs & Hfirst). exists (S n), k'. split; [exact H|]. split; [exact Hs|].
      intros [|m] k'' i' Hm H'; [by injection H' as <- <-|]. eapply (Hfirst m); [lia|exact H'].
    + intros ([|n] & k' & H & Hs & Hfirst); [injection H as -> ->; congruence|].
      exists n, k'. split; [exact H|]. split; [exact Hs|].
      intros m k'' i' Hm H'. apply (Hfirst (S m) k'' i' ltac:(lia) H').
Qed.
