(* ===== verification/ThreadControl.v ===== *)
(** * Threads: [src/src/sdhs/Common/Thread.c]

    The wrappers of the POSIX primitives (semaphore, mutex, condition variable,
    barrier) and the stop handshake built on them, [sdb_thread_control]: one
    side asks a thread to stop and waits until it has, the other waits to be
    asked and says when it has stopped, over two flags, two hints that somebody
    waits, one mutex and one condition variable.

    The functions of the handshake are programs over the accesses to the
    control; any number of threads run any sequences of them, interleaved by a
    step relation with the semantics of POSIX: a lock blocks while the mutex is
    held, a wait releases the mutex and sleeps until a broadcast -- or
    spuriously -- and takes the mutex again before it returns. *)

From S2P Require Import Prelude.
#[local] Open Scope Z_scope.

(** ** The wrappers

    Each takes the results of the POSIX calls it may make; a call that fails
    returns an error number, or -1 with [errno] for semaphores. *)

Definition SDB_TIMEOUT_NONE : Z := 0.
Definition SDB_TIMEOUT_MAX : Z := 2 ^ 64 - 1.

Section Wrappers.
Variable errno : Z.
(** [SdbTimespecAbsolute] *)
Variable CreateTimeout : Z -> Z.

Definition SdbSemInit (sem_init : Z) : Z := if negb (sem_init =? 0) then - errno else 0.
Definition SdbSemDeinit : Z := 0.

Definition SdbSemWait (Timeout sem_trywait sem_wait sem_timedwait : Z) : Z :=
  if Timeout =? SDB_TIMEOUT_NONE then if negb (sem_trywait =? 0) then - errno else 0
  else if Timeout =? SDB_TIMEOUT_MAX then if negb (sem_wait =? 0) then - errno else 0
  else
    let Ret := CreateTimeout Timeout in
    if negb (Ret =? 0) then Ret
    else if negb (sem_timedwait =? 0) then - errno else 0.

Definition SdbSemPost (sem_post : Z) : Z := if negb (sem_post =? 0) then - errno else 0.

Definition SdbMutexInit (pthread_mutex_init : Z) : Z := - pthread_mutex_init.
Definition SdbMutexDeinit (pthread_mutex_destroy : Z) : Z := - pthread_mutex_destroy.

Definition SdbMutexLock (Timeout trylock lock timedlock : Z) : Z :=
  if Timeout =? SDB_TIMEOUT_NONE then - trylock
  else if Timeout =? SDB_TIMEOUT_MAX then - lock
  else
    let Ret := CreateTimeout Timeout in
    if negb (Ret =? 0) then Ret else - timedlock.

Definition SdbMutexUnlock (pthread_mutex_unlock : Z) : Z := - pthread_mutex_unlock.
Definition SdbCondInit (pthread_cond_init : Z) : Z := - pthread_cond_init.
Definition SdbCondDeinit (pthread_cond_destroy : Z) : Z := - pthread_cond_destroy.

Definition SdbCondWait (Timeout wait timedwait : Z) : Z :=
  if Timeout =? SDB_TIMEOUT_NONE then - EINVAL
  else if Timeout =? SDB_TIMEOUT_MAX then - wait
  else
    let Ret := CreateTimeout Timeout in
    if negb (Ret =? 0) then Ret else - timedwait.

Definition SdbCondSignal (pthread_cond_signal : Z) : Z := - pthread_cond_signal.
Definition SdbCondBroadcast (pthread_cond_broadcast : Z) : Z := - pthread_cond_broadcast.

Definition SdbBarrierInit (ThreadCount pthread_barrier_init : Z) : Z :=
  if ThreadCount =? 0 then - EINVAL else - pthread_barrier_init.
Definition SdbBarrierDeinit (pthread_barrier_destroy : Z) : Z := - pthread_barrier_destroy.
Definition SdbBarrierWait (pthread_barrier_wait : Z) : Z := - pthread_barrier_wait.
End Wrappers.

(** ** The control *)

Inductive flag := ShouldStop | HasStopped | WaitingForSignalStop | WaitingForMarkStopped.
#[export] Instance flag_eq_dec : EqDecision flag.
Proof. solve_decision. Defined.

(** The statements of the functions; [WhileNot f body] is
    [while(!f) { body }]. *)
Inductive stmt :=
  | Lock | Unlock
  | Set_ (f : flag) (v : bool)
  | If_ (f : flag) (body : list stmt)
  | WhileNot (f : flag) (body : list stmt)
  | CondWait | CondBroadcast
  | Read (f : flag).

Definition SdbTCtlShouldStop : list stmt := [Lock; Read ShouldStop; Unlock].

Definition SdbTCtlSignalStop : list stmt :=
  [Lock; Set_ ShouldStop true; If_ WaitingForSignalStop [CondBroadcast]; Unlock].

Definition SdbTCtlWaitForSignal : list stmt :=
  [Lock; WhileNot ShouldStop [Set_ WaitingForSignalStop true; CondWait]; Unlock].

Definition SdbTCtlMarkStopped : list stmt :=
  [Lock; Set_ HasStopped true; If_ WaitingForMarkStopped [CondBroadcast]; Unlock].

Definition SdbTCtlWaitForStop : list stmt :=
  [Lock; WhileNot HasStopped [Set_ WaitingForMarkStopped true; CondWait]; Unlock].

(** [SdbTCtlInit], by the results of the two initialisations; the flags are
    those of the memory, of which one is left as it is. *)
Definition SdbTCtlInit (mutex_init cond_init : Z) (flags : flag -> bool) : Z * (flag -> bool) :=
  let flags := fun f => match f with WaitingForMarkStopped => flags f | _ => false end in
  if negb (SdbMutexInit mutex_init =? 0) then (SdbMutexInit mutex_init, flags)
  else if negb (SdbCondInit cond_init =? 0) then (SdbCondInit cond_init, flags)
  else (0, flags).

Definition SdbTCtlDeinit (mutex_destroy cond_destroy : Z) : Z :=
  let CondRet := SdbCondDeinit cond_destroy in
  let MutRet := SdbMutexDeinit mutex_destroy in
  if negb (CondRet =? 0) then CondRet else MutRet.

Definition set_flag (f : flag) (v : bool) (fs : flag -> bool) : flag -> bool :=
  fun g => if decide (g = f) then v else fs g.

(** A thread: what it has still to do, and whether it sleeps in a wait. *)
Record thread := mkT { todo : list stmt; asleep : bool }.

Record tsys := mkTsys {
  flags : flag -> bool;
  owner : option nat;             (* the holder of the mutex *)
  threads : list thread;
}.

Definition awake (code : list stmt) : thread := mkT code false.
Definition set_thread (t : nat) (c : thread) (y : tsys) : tsys :=
  mkTsys (flags y) (owner y) (<[t := c]> (threads y)).
Definition set_owner (o : option nat) (y : tsys) : tsys := mkTsys (flags y) o (threads y).
Definition wake_all (y : tsys) : tsys :=
  mkTsys (flags y) (owner y) (map (fun c => awake (todo c)) (threads y)).

(** A sleeping thread keeps [CondWait] at the head of its code until it is woken
    and has the mutex again: [Lock] stands for that. *)
Inductive step : tsys -> tsys -> Prop :=
  | step_lock y t k :
      threads y !! t = Some (awake (Lock :: k)) -> owner y = None ->
      step y (set_thread t (awake k) (set_owner (Some t) y))
  | step_unlock y t k :
      threads y !! t = Some (awake (Unlock :: k)) -> owner y = Some t ->
      step y (set_thread t (awake k) (set_owner None y))
  | step_set y t f v k :
      threads y !! t = Some (awake (Set_ f v :: k)) ->
      step y (set_thread t (awake k) (mkTsys (set_flag f v (flags y)) (owner y) (threads y)))
  | step_read y t f k :
      threads y !! t = Some (awake (Read f :: k)) -> step y (set_thread t (awake k) y)
  | step_if y t f body k :
      threads y !! t = Some (awake (If_ f body :: k)) ->
      step y (set_thread t (awake (if flags y f then body ++ k else k)) y)
  | step_while y t f body k :
      threads y !! t = Some (awake (WhileNot f body :: k)) ->
      step y (set_thread t (awake (if flags y f then k else body ++ WhileNot f body :: k)) y)
  | step_wait y t k :
      threads y !! t = Some (awake (CondWait :: k)) -> owner y = Some t ->
      step y (set_thread t (mkT (Lock :: k) true) (set_owner None y))
  | step_broadcast y t k :
      threads y !! t = Some (awake (CondBroadcast :: k)) ->
      step y (wake_all (set_thread t (awake k) y)).

(** A wake-up that nobody asked for. *)
Inductive spurious : tsys -> tsys -> Prop :=
  | spurious_wake y t k :
      threads y !! t = Some (mkT k true) -> spurious y (set_thread t (awake k) y).

(** The calls of the interface. *)
Inductive call := CallShouldStop | CallSignalStop | CallWaitForSignal | CallMarkStopped | CallWaitForStop.

Definition body_of (c : call) : list stmt :=
  match c with
  | CallShouldStop => SdbTCtlShouldStop
  | CallSignalStop => SdbTCtlSignalStop
  | CallWaitForSignal => SdbTCtlWaitForSignal
  | CallMarkStopped => SdbTCtlMarkStopped
  | CallWaitForStop => SdbTCtlWaitForStop
  end.

Definition calls (cs : list call) : list stmt := concat (map body_of cs).

(** Threads about to make sequences of calls on a control with the given flags. *)
Definition tsys_start (fs : flag -> bool) (programs : list (list call)) : tsys :=
  mkTsys fs None (map (fun cs => awake (calls cs)) programs).

Inductive treachable (fs : flag -> bool) (programs : list (list call)) : tsys -> Prop :=
  | tr_start : treachable fs programs (tsys_start fs programs)
  | tr_step y y' : treachable fs programs y -> step y y' -> treachable fs programs y'
  | tr_spurious y y' : treachable fs programs y -> spurious y y' -> treachable fs programs y'.

(** ** Where a thread can be *)

(** The two handshakes: the flag, and the hint that somebody waits for it. *)
Inductive shake := Asking | Stopping.
#[export] Instance shake_eq_dec : EqDecision shake.
Proof. solve_decision. Defined.
Definition shake_flag (h : shake) : flag :=
  match h with Asking => ShouldStop | Stopping => HasStopped end.
Definition shake_hint (h : shake) : flag :=
  match h with Asking => WaitingForSignalStop | Stopping => WaitingForMarkStopped end.

Definition wait_loop (h : shake) : stmt :=
  WhileNot (shake_flag h) [Set_ (shake_hint h) true; CondWait].

Inductive point :=
  | Idle (cs : list call)
  | Reading (cs : list call)
  | Raise (h : shake) (cs : list call)        (* about to set the flag *)
  | Raised (h : shake) (cs : list call)       (* about to look at the hint *)
  | Notify (h : shake) (cs : list call)       (* about to broadcast *)
  | Leave (cs : list call)                    (* about to unlock *)
  | Test (h : shake) (cs : list call)         (* about to test the flag *)
  | Hint (h : shake) (cs : list call)         (* about to set the hint *)
  | Enter (h : shake) (cs : list call)        (* about to wait *)
  | Waiting (h : shake) (cs : list call) (sleeping : bool).

Definition thread_of (p : point) : thread :=
  match p with
  | Idle cs => awake (calls cs)
  | Reading cs => awake ([Read ShouldStop; Unlock] ++ calls cs)
  | Raise h cs =>
      awake ([Set_ (shake_flag h) true; If_ (shake_hint h) [CondBroadcast]; Unlock] ++ calls cs)
  | Raised h cs => awake ([If_ (shake_hint h) [CondBroadcast]; Unlock] ++ calls cs)
  | Notify h cs => awake ([CondBroadcast; Unlock] ++ calls cs)
  | Leave cs => awake ([Unlock] ++ calls cs)
  | Test h cs => awake ([wait_loop h; Unlock] ++ calls cs)
  | Hint h cs => awake ([Set_ (shake_hint h) true; CondWait; wait_loop h; Unlock] ++ calls cs)
  | Enter h cs => awake ([CondWait; wait_loop h; Unlock] ++ calls cs)
  | Waiting h cs sl => mkT ([Lock; wait_loop h; Unlock] ++ calls cs) sl
  end.

(** Whether the thread holds the mutex there. *)
Definition inside (p : point) : bool :=
  match p with Idle _ | Waiting _ _ _ => false | _ => true end.

(** What the thread knows there, holding the mutex. *)
Definition knows (fs : flag -> bool) (p : point) : Prop :=
  match p with
  | Raised h _ | Notify h _ => fs (shake_flag h) = true
  | Hint h _ => fs (shake_flag h) = false
  | Enter h _ => fs (shake_flag h) = false /\ fs (shake_hint h) = true
  | _ => True
  end.

Definition will_notify (h : shake) (p : point) : Prop :=
  exists cs, p = Raised h cs \/ p = Notify h cs.

Record tinv (pts : list point) (y : tsys) : Prop := {
  ti_threads : threads y = map thread_of pts;
  ti_owner : forall t p, pts !! t = Some p -> (inside p = true <-> owner y = Some t);
  ti_range : forall t, owner y = Some t -> (t < length pts)%nat;
  ti_knows : forall t p, pts !! t = Some p -> knows (flags y) p;
  ti_sleep : forall t h cs, pts !! t = Some (Waiting h cs true) ->
    flags y (shake_hint h) = true /\
    (flags y (shake_flag h) = false \/
     exists t' p, owner y = Some t' /\ pts !! t' = Some p /\ will_notify h p);
}.

Lemma tinv_threads pts y t c :
  tinv pts y -> threads y !! t = Some c -> exists p, pts !! t = Some p /\ c = thread_of p.
Proof.
  intros Hi. rewrite (ti_threads _ _ Hi), list_lookup_fmap.
  destruct (pts !! t) as [p|]; cbn; [|done]. intros [= <-]. by exists p.
Qed.

(** At most one thread is inside. *)
Lemma inside_alone pts y t p t2 p2 :
  tinv pts y -> owner y = None \/ owner y = Some t -> pts !! t = Some p ->
  t2 <> t -> pts !! t2 = Some p2 -> inside p2 = false.
Proof.
  intros Hi Ho Hp Hne Hp2. destruct (inside p2) eqn:E; [|done].
  apply (ti_owner _ _ Hi _ _ Hp2) in E. destruct Ho as [Ho|Ho]; congruence.
Qed.

Definition sleepers (h : shake) (pts : list point) : Prop :=
  exists t cs, pts !! t = Some (Waiting h cs true).

(** A thread moves from [p] to [p'], nobody else being inside. *)
Lemma tinv_move pts y t p p' fs' o' :
  tinv pts y -> pts !! t = Some p -> owner y = None \/ owner y = Some t ->
  o' = (if inside p' then Some t else None) ->
  knows fs' p' -> (forall f, flags y f = true -> fs' f = true) ->
  (forall h, sleepers h pts -> flags y (shake_hint h) = true -> fs' (shake_flag h) = true ->
     flags y (shake_flag h) = false \/ will_notify h p -> will_notify h p' /\ inside p' = true) ->
  (forall h cs, p' = Waiting h cs true -> fs' (shake_hint h) = true /\ fs' (shake_flag h) = false) ->
  tinv (<[t := p']> pts) (mkTsys fs' o' (<[t := thread_of p']> (threads y))).
Proof.
  intros Hi Hp Ho Ho' Hkn Hmono Hnot Hself.
  assert (Hlt : (t < length pts)%nat) by by eapply lookup_lt_Some.
  assert (Hlk : forall t2 p2, <[t := p']> pts !! t2 = Some p2 ->
            (t2 = t /\ p2 = p') \/ (t2 <> t /\ pts !! t2 = Some p2)).
  { intros t2 p2. destruct (decide (t2 = t)) as [->|Hne].
    - rewrite list_lookup_insert_eq by done. intros [= <-]. by left.
    - rewrite list_lookup_insert_ne by done. by right. }
  constructor; cbn.
  - rewrite (ti_threads _ _ Hi), list_fmap_insert. done.
  - intros t2 p2 [[-> ->]|[Hne Hp2]]%Hlk; subst o'.
    + destruct (inside p'); split; congruence.
    + rewrite (inside_alone pts y t p t2 p2) by done. destruct (inside p'); split; congruence.
  - intros t2. rewrite length_insert. subst o'. destruct (inside p'); [by intros [= <-]|done].
  - intros t2 p2 [[-> ->]|[Hne Hp2]]%Hlk; [done|].
    pose proof (inside_alone pts y t p t2 p2 Hi Ho Hp Hne Hp2) as Hout. by destruct p2.
  - intros t2 h cs [[-> E]|[Hne Hp2]]%Hlk.
    + destruct (Hself h cs) as [H1 H2]; [done|]. split; [done|by left].
    + destruct (ti_sleep _ _ Hi _ _ _ Hp2) as [Hh Hor]. split; [by apply Hmono|].
      destruct (fs' (shake_flag h)) eqn:Ef; [|by left]. right.
      destruct (Hnot h) as [Hw Hin]; [by exists t2, cs|done|done| |].
      * destruct Hor as [Hor|(t' & q & Hot & Hq & Hw)]; [by left|right].
        assert (t' = t) as -> by (destruct Ho as [Ho|Ho]; congruence). by simplify_eq.
      * exists t, p'. subst o'. rewrite Hin, list_lookup_insert_eq by done. done.
Qed.

(** A sleeping thread wakes on its own. *)
Lemma tinv_wake pts y t h cs :
  tinv pts y -> pts !! t = Some (Waiting h cs true) ->
  tinv (<[t := Waiting h cs false]> pts) (set_thread t (thread_of (Waiting h cs false)) y).
Proof.
  intros Hi Hp. assert (Hlt : (t < length pts)%nat) by by eapply lookup_lt_Some.
  assert (Hlk : forall t2 p2, <[t := Waiting h cs false]> pts !! t2 = Some p2 ->
            (t2 = t /\ p2 = Waiting h cs false) \/ (t2 <> t /\ pts !! t2 = Some p2)).
  { intros t2 p2. destruct (decide (t2 = t)) as [->|Hne].
    - rewrite list_lookup_insert_eq by done. intros [= <-]. by left.
    - rewrite list_lookup_insert_ne by done. by right. }
  constructor; cbn.
  - rewrite (ti_threads _ _ Hi), list_fmap_insert. done.
  - intros t2 p2 [[-> ->]|[Hne Hp2]]%Hlk; [exact (ti_owner _ _ Hi _ _ Hp)|exact (ti_owner _ _ Hi _ _ Hp2)].
  - intros t2. rewrite length_insert. apply (ti_range _ _ Hi).
  - intros t2 p2 [[-> ->]|[Hne Hp2]]%Hlk; [done|exact (ti_knows _ _ Hi _ _ Hp2)].
  - intros t2 h2 cs2 [[-> E]|[Hne Hp2]]%Hlk; [done|].
    destruct (ti_sleep _ _ Hi _ _ _ Hp2) as [Hh [Hor|(t' & q & Hot & Hq & Hw)]]; split; try done; [by left|].
    right. exists t', q. split_and!; [done| |done]. rewrite list_lookup_insert_ne; [done|].
    intros <-. rewrite Hp in Hq. simplify_eq. destruct Hw as (? & [?|?]); done.
Qed.

Definition wake (p : point) : point :=
  match p with Waiting h cs _ => Waiting h cs false | _ => p end.

(** A broadcast wakes every sleeper. *)
Lemma tinv_broadcast pts y :
  tinv pts y -> tinv (map wake pts) (wake_all y).
Proof.
  intros Hi. constructor; cbn.
  - rewrite (ti_threads _ _ Hi), !map_map. apply map_ext. by intros [].
  - intros t p. rewrite list_lookup_fmap. destruct (pts !! t) as [q|] eqn:Eq; [|done].
    intros [= <-]. rewrite <- (ti_owner _ _ Hi _ _ Eq). by destruct q.
  - intros t. rewrite length_map. apply (ti_range _ _ Hi).
  - intros t p. rewrite list_lookup_fmap. destruct (pts !! t) as [q|] eqn:Eq; [|done].
    intros [= <-]. pose proof (ti_knows _ _ Hi _ _ Eq). by destruct q.
  - intros t h cs. rewrite list_lookup_fmap. destruct (pts !! t) as [[]|]; done.
Qed.

Lemma set_flag_mono f fs g : fs g = true -> set_flag f true fs g = true.
Proof. unfold set_flag. by case_decide. Qed.

Lemma set_flag_eq f v fs : set_flag f v fs f = v.
Proof. unfold set_flag. by rewrite decide_True. Qed.

(** Which point a thread is at, from the head of its code. *)
Ltac at_point Hi Ht p Hp :=
  let E := fresh "E" in
  destruct (tinv_threads _ _ _ _ Hi Ht) as (p & Hp & E);
  destruct p as [[|[] cs]|cs|h cs|h cs|h cs|cs|h cs|h cs|h cs|h cs sl]; cbn in E;
  unfold wait_loop, awake in E; simplify_eq.

Lemma tinv_set_thread pts y t p p' c :
  tinv pts y -> pts !! t = Some p -> c = thread_of p' ->
  (inside p = true \/ owner y = Some t) -> inside p' = true -> knows (flags y) p' ->
  (forall h, sleepers h pts -> flags y (shake_hint h) = true -> flags y (shake_flag h) = true ->
     flags y (shake_flag h) = false \/ will_notify h p -> will_notify h p') ->
  (forall h cs, p' <> Waiting h cs true) ->
  tinv (<[t := p']> pts) (set_thread t c y).
Proof.
  intros Hi Hp -> Hin Hin' Hkn Hnot Hw. unfold set_thread.
  assert (Ho : owner y = Some t) by (destruct Hin as [Hin|]; [by apply (ti_owner _ _ Hi _ _ Hp)|done]).
  rewrite Ho. replace (Some t) with (if inside p' then Some t else None) by by rewrite Hin'.
  apply (tinv_move pts y t p p' (flags y)); try done; [by right| |].
  - intros h H0 H1 H2 H3. split; [by apply Hnot|done].
  - intros h cs E. by destruct (Hw h cs).
Qed.

Lemma tinv_step pts y y' : tinv pts y -> step y y' -> exists pts', tinv pts' y'.
Proof.
  intros Hi Hstep. destruct Hstep as
    [y t k Ht Ho|y t k Ht Ho|y t f v k Ht|y t f k Ht|y t f body k Ht|y t f body k Ht|y t k Ht Ho|y t k Ht].
  - (* Lock *)
    at_point Hi Ht p Hp; unfold set_thread, set_owner; cbn [flags owner threads].
    + exists (<[t := Reading cs]> pts). apply (tinv_move _ _ _ _ (Reading cs) _ _ Hi Hp); try done; [by left|].
      intros h _ _ Hf [Hf'|(? & [?|?])]; congruence.
    + exists (<[t := Raise Asking cs]> pts). apply (tinv_move _ _ _ _ (Raise Asking cs) _ _ Hi Hp); try done; [by left|].
      intros h _ _ Hf [Hf'|(? & [?|?])]; congruence.
    + exists (<[t := Test Asking cs]> pts). apply (tinv_move _ _ _ _ (Test Asking cs) _ _ Hi Hp); try done; [by left|].
      intros h _ _ Hf [Hf'|(? & [?|?])]; congruence.
    + exists (<[t := Raise Stopping cs]> pts). apply (tinv_move _ _ _ _ (Raise Stopping cs) _ _ Hi Hp); try done; [by left|].
      intros h _ _ Hf [Hf'|(? & [?|?])]; congruence.
    + exists (<[t := Test Stopping cs]> pts). apply (tinv_move _ _ _ _ (Test Stopping cs) _ _ Hi Hp); try done; [by left|].
      intros h _ _ Hf [Hf'|(? & [?|?])]; congruence.
    + exists (<[t := Test h cs]> pts). apply (tinv_move _ _ _ _ (Test h cs) _ _ Hi Hp); try done; [by left|].
      intros h' _ _ Hf [Hf'|(? & [?|?])]; congruence.
  - (* Unlock *)
    at_point Hi Ht p Hp; unfold set_thread, set_owner; cbn [flags owner threads].
    exists (<[t := Idle cs]> pts). apply (tinv_move _ _ _ _ (Idle cs) _ _ Hi Hp); try done; [by right|].
    intros h _ _ Hf [Hf'|(? & [?|?])]; congruence.
  - (* Set *)
    at_point Hi Ht p Hp; unfold set_thread; cbn [flags owner threads].
    + assert (Ho : owner y = Some t) by by apply (ti_owner _ _ Hi _ _ Hp).
      exists (<[t := Raised h cs]> pts). rewrite Ho.
      apply (tinv_move _ _ _ _ (Raised h cs) _ _ Hi Hp); try done; [by right|apply set_flag_eq| |].
      * intros f. apply set_flag_mono.
      * intros h' _ _ Hf [Hf'|(? & [?|?])]; [|done..]. split; [|done].
        destruct (decide (h' = h)) as [->|Hne]; [by exists cs; left|]. exfalso.
        unfold set_flag in Hf. case_decide as E; [|congruence]. by destruct h, h'.
    + assert (Ho : owner y = Some t) by by apply (ti_owner _ _ Hi _ _ Hp).
      pose proof (ti_knows _ _ Hi _ _ Hp) as Hkn. cbn in Hkn.
      assert (Hsame : forall h', set_flag (shake_hint h) true (flags y) (shake_flag h') = flags y (shake_flag h'))
        by (intros h'; unfold set_flag; by destruct h, h').
      exists (<[t := Enter h cs]> pts). rewrite Ho.
      apply (tinv_move _ _ _ _ (Enter h cs) _ _ Hi Hp); try done; [by right| | |].
      * cbn. by rewrite Hsame, set_flag_eq.
      * intros f. apply set_flag_mono.
      * intros h' _ _. rewrite Hsame. intros Hf [Hf'|(? & [?|?])]; congruence.
  - (* Read *)
    at_point Hi Ht p Hp. exists (<[t := Leave cs]> pts).
    apply (tinv_set_thread pts y t (Reading cs)); try done; [by left|].
    intros h _ _ Hf [Hf'|(? & [?|?])]; congruence.
  - (* If *)
    at_point Hi Ht p Hp. pose proof (ti_knows _ _ Hi _ _ Hp) as Hkn. cbn in Hkn.
    destruct (flags y (shake_hint h)) eqn:Eh.
    + exists (<[t := Notify h cs]> pts).
      apply (tinv_set_thread pts y t (Raised h cs)); try done; [by left|].
      intros h' _ _ Hf [Hf'|(cs' & [E'|E'])]; [congruence| |done]. simplify_eq. by exists cs'; right.
    + exists (<[t := Leave cs]> pts).
      apply (tinv_set_thread pts y t (Raised h cs)); try done; [by left|].
      intros h' _ Hh Hf [Hf'|(? & [?|?])]; congruence.
  - (* While *)
    at_point Hi Ht p Hp. destruct (flags y (shake_flag h)) eqn:Ef.
    + exists (<[t := Leave cs]> pts).
      apply (tinv_set_thread pts y t (Test h cs)); try done; [by left|].
      intros h' _ _ Hf [Hf'|(? & [?|?])]; congruence.
    + exists (<[t := Hint h cs]> pts).
      apply (tinv_set_thread pts y t (Test h cs)); try done; [by left|].
      intros h' _ _ Hf [Hf'|(? & [?|?])]; congruence.
  - (* CondWait *)
    at_point Hi Ht p Hp; unfold set_thread, set_owner; cbn [flags owner threads].
    pose proof (ti_knows _ _ Hi _ _ Hp) as [Hf Hh].
    exists (<[t := Waiting h cs true]> pts).
    apply (tinv_move _ _ _ _ (Waiting h cs true) _ _ Hi Hp); try done; [by right| |].
    + intros h' _ _ Hf1 [Hf'|(? & [?|?])]; congruence.
    + intros h' cs' [= <- <-]. done.
  - (* CondBroadcast *)
    at_point Hi Ht p Hp. assert (Ho : owner y = Some t) by by apply (ti_owner _ _ Hi _ _ Hp).
    exists (map wake (<[t := Leave cs]> pts)).
    (* the sleepers are woken together with the move of the thread *)
    assert (Hi' : tinv (map wake pts) (wake_all y)) by by apply tinv_broadcast.
    assert (Hp' : map wake pts !! t = Some (Notify h cs)) by by rewrite list_lookup_fmap, Hp.
    replace (map wake (<[t:=Leave cs]> pts)) with (<[t := Leave cs]> (map wake pts))
      by by rewrite list_fmap_insert.
    replace (wake_all (set_thread t (awake (Unlock :: calls cs)) y))
      with (set_thread t (awake (Unlock :: calls cs)) (wake_all y))
      by (unfold wake_all, set_thread; cbn; by rewrite list_fmap_insert).
    apply (tinv_set_thread _ _ t (Notify h cs)); try done; [by left|].
    intros h' (t2 & cs2 & Hs) _ _ _. rewrite list_lookup_fmap in Hs.
    by destruct (pts !! t2) as [[]|].
Qed.

Lemma tinv_spurious pts y y' : tinv pts y -> spurious y y' -> exists pts', tinv pts' y'.
Proof.
  intros Hi Hstep. destruct Hstep as [y t k Ht]. at_point Hi Ht p Hp.
  eexists. by eapply tinv_wake.
Qed.

Lemma tinv_start fs programs : tinv (map Idle programs) (tsys_start fs programs).
Proof.
  constructor; cbn.
  - rewrite map_map. by apply map_ext.
  - intros t p. rewrite list_lookup_fmap. destruct (programs !! t); cbn; [|done]. by intros [= <-].
  - done.
  - intros t p. rewrite list_lookup_fmap. destruct (programs !! t); cbn; [|done]. by intros [= <-].
  - intros t h cs. rewrite list_lookup_fmap. by destruct (programs !! t).
Qed.

Lemma tinv_reachable fs programs y : treachable fs programs y -> exists pts, tinv pts y.
Proof.
  induction 1 as [|y y' _ [pts Hi] Hs|y y' _ [pts Hi] Hs].
  - eexists. apply tinv_start.
  - by eapply tinv_step.
  - by eapply tinv_spurious.
Qed.

(** The thread inside can always go on. *)
Lemma inside_steps pts y t p :
  tinv pts y -> pts !! t = Some p -> inside p = true -> exists y', step y y'.
Proof.
  intros Hi Hp Hin. assert (Ho : owner y = Some t) by by apply (ti_owner _ _ Hi _ _ Hp).
  assert (Ht : threads y !! t = Some (thread_of p))
    by by rewrite (ti_threads _ _ Hi), list_lookup_fmap, Hp.
  destruct p; cbn in Hin, Ht; try done; eexists.
  - by eapply step_read.
  - by eapply step_set.
  - by eapply step_if.
  - by eapply step_broadcast.
  - by eapply step_unlock.
  - by eapply step_while.
  - by eapply step_set.
  - by eapply step_wait.
Qed.

(** A waiter of the handshake [h]. *)
Definition waits_for (h : shake) (c : thread) : Prop :=
  asleep c = true /\ exists k, todo c = Lock :: wait_loop h :: k.

(** *** Runs *)

(** The step of thread [t], when it has one. *)
Definition advance (t : nat) (y : tsys) : option tsys :=
  c ← threads y !! t;
  if asleep c then None
  else match todo c with
       | [] => None
       | Lock :: k =>
           match owner y with None => Some (set_thread t (awake k) (set_owner (Some t) y)) | _ => None end
       | Unlock :: k =>
           if decide (owner y = Some t) then Some (set_thread t (awake k) (set_owner None y)) else None
       | Set_ f v :: k =>
           Some (set_thread t (awake k) (mkTsys (set_flag f v (flags y)) (owner y) (threads y)))
       | Read f :: k => Some (set_thread t (awake k) y)
       | If_ f body :: k => Some (set_thread t (awake (if flags y f then body ++ k else k)) y)
       | WhileNot f body :: k =>
           Some (set_thread t (awake (if flags y f then k else body ++ WhileNot f body :: k)) y)
       | CondWait :: k =>
           if decide (owner y = Some t) then Some (set_thread t (mkT (Lock :: k) true) (set_owner None y))
           else None
       | CondBroadcast :: k => Some (wake_all (set_thread t (awake k) y))
       end.

Fixpoint run (ts : list nat) (y : tsys) : option tsys :=
  match ts with
  | [] => Some y
  | t :: ts => y ← advance t y; run ts y
  end.

Lemma tctl_advance_step t y y' : advance t y = Some y' -> step y y'.
Proof.
  unfold advance. destruct (threads y !! t) as [[code sl]|] eqn:Et; cbn; [|done].
  destruct sl; [done|]. intros E. destruct code as [|[] k]; cbn in E; [done|..];
    try (injection E as <-;
         first [by eapply step_set|by eapply step_read|by eapply step_if|by eapply step_while
               |by eapply step_broadcast]);
    repeat case_match; simplify_eq; first [by eapply step_lock|by eapply step_unlock|by eapply step_wait].
Qed.

Lemma run_reachable fs programs ts y y' :
  treachable fs programs y -> run ts y = Some y' -> treachable fs programs y'.
Proof.
  revert y. induction ts as [|t ts IH]; intros y Hr E; cbn in E; [by simplify_eq|].
  destruct (advance t y) as [y1|] eqn:E1; cbn in E; [|done].
  apply (IH y1); [|done]. eapply tr_step; [done|]. by eapply tctl_advance_step.
Qed.

Lemma no_step y :
  Forall (fun c => asleep c = true \/ todo c = []) (threads y) -> forall y', ~ step y y'.
Proof.
  intros Hf y' Hs.
  assert (H : forall t s k, threads y !! t <> Some (awake (s :: k))).
  { intros t s0 k E. by destruct (Forall_lookup_1 _ _ _ _ Hf E). }
  destruct Hs; by eapply H.
Qed.

(** ** Properties *)

(** C17: No lost wake-up.  Any number of threads make any calls on one control,
    in any interleaving, with any spurious wake-ups and from any initial flags:
    the mutex has one holder, and a thread that sleeps in [SdbTCtlWaitForSignal]
    or [SdbTCtlWaitForStop] although the flag it waits for is set has a thread
    holding the mutex that is about to broadcast. *)
Theorem tctl_no_lost_wakeup (fs : flag -> bool) (programs : list (list call)) (y : tsys)
    (t : nat) (c : thread) (h : shake) :
  treachable fs programs y -> threads y !! t = Some c -> waits_for h c ->
  flags y (shake_flag h) = true ->
  exists t' cs, owner y = Some t' /\ t' <> t /\
    (threads y !! t' = Some (awake ([If_ (shake_hint h) [CondBroadcast]; Unlock] ++ calls cs)) /\
       flags y (shake_hint h) = true \/
     threads y !! t' = Some (awake ([CondBroadcast; Unlock] ++ calls cs))).
Proof.
  intros Hr Ht [Hs [k Hk]] Hf. destruct (tinv_reachable _ _ _ Hr) as [pts Hi].
  destruct (tinv_threads _ _ _ _ Hi Ht) as (p & Hp & ->).
  destruct p as [cs|cs|h0 cs|h0 cs|h0 cs|cs|h0 cs|h0 cs|h0 cs|h0 cs sl]; cbn in Hs, Hk; try done.
  subst sl. unfold wait_loop in Hk. injection Hk as E1 E2 E3.
  assert (h0 = h) as -> by (by destruct h0, h).
  destruct (ti_sleep _ _ Hi _ _ _ Hp) as [Hh [Hor|(t' & q & Ho & Hq & cs' & Hw)]]; [congruence|].
  exists t', cs'. split; [done|]. rewrite (ti_threads _ _ Hi), list_lookup_fmap, Hq.
  split; [intros ->; rewrite Hp in Hq; by destruct Hw; simplify_eq|].
  destruct Hw as [E|E]; subst q; [by left|by right].
Qed.

Lemma tctl_no_lost_wakeup_witness :
  exists y, run [0; 0; 0; 0; 1; 1]%nat (tsys_start (fun _ => false) [[CallWaitForStop]; [CallMarkStopped]])
              = Some y /\ exists t', owner y = Some t' /\ t' <> 0%nat.
Proof.
  set (y0 := tsys_start _ _).
  destruct (run [0; 0; 0; 0; 1; 1]%nat y0) as [y|] eqn:E; [|by vm_compute in E].
  exists y. split; [done|].
  destruct (tctl_no_lost_wakeup (fun _ => false) [[CallWaitForStop]; [CallMarkStopped]] y 0
              (mkT [Lock; wait_loop Stopping; Unlock] true) Stopping) as (t' & _ & Ho & Hne & _).
  - eapply run_reachable; [apply tr_start|exact E].
  - vm_compute in E. injection E as <-. reflexivity.
  - split; [done|by exists [Unlock]].
  - vm_compute in E. injection E as <-. reflexivity.
  - by exists t'.
Defined.

(** C18: No deadlock.  Whenever no thread can take a step, every thread has
    finished its calls or sleeps in a wait for a flag that has not been set:
    once [SdbTCtlSignalStop] or [SdbTCtlMarkStopped] has been called, every
    waiter for it gets through. *)
Theorem tctl_progress (fs : flag -> bool) (programs : list (list call)) (y : tsys) :
  treachable fs programs y -> (forall y', ~ step y y') ->
  forall t c, threads y !! t = Some c ->
    todo c = [] \/ exists h, waits_for h c /\ flags y (shake_flag h) = false.
Proof.
  intros Hr Hno t c Ht. destruct (tinv_reachable _ _ _ Hr) as [pts Hi].
  assert (Hout : forall t p, pts !! t = Some p -> inside p = false).
  { intros t' p' Hp'. destruct (inside p') eqn:E; [|done].
    destruct (inside_steps _ _ _ _ Hi Hp' E) as [y' Hy]. by destruct (Hno y'). }
  assert (Ho : owner y = None).
  { destruct (owner y) as [o|] eqn:Eo; [|done]. exfalso.
    destruct (lookup_lt_is_Some_2 pts o (ti_range _ _ Hi _ Eo)) as [q Hq].
    apply (ti_owner _ _ Hi _ _ Hq) in Eo. by rewrite (Hout _ _ Hq) in Eo. }
  destruct (tinv_threads _ _ _ _ Hi Ht) as (p & Hp & ->). pose proof (Hout _ _ Hp) as Hin.
  destruct p as [[|[] cs]|cs|h cs|h cs|h cs|cs|h cs|h cs|h cs|h cs [|]]; try done;
    try (exfalso; eapply Hno, step_lock; [exact Ht|done]).
  - by left.
  - right. exists h. split; [split; [done|by eexists]|].
    destruct (ti_sleep _ _ Hi _ _ _ Hp) as [_ [Hf|(t' & q & Ho' & _)]]; [done|congruence].
Qed.

Lemma tctl_progress_witness :
  exists y, run [0; 0; 0; 0]%nat (tsys_start (fun _ => false) [[CallWaitForStop]]) = Some y /\
    forall c, threads y !! 0%nat = Some c ->
      todo c = [] \/ exists h, waits_for h c /\ flags y (shake_flag h) = false.
Proof.
  set (y0 := tsys_start _ _).
  destruct (run [0; 0; 0; 0]%nat y0) as [y|] eqn:E; [|by vm_compute in E].
  exists y. split; [done|]. apply (tctl_progress (fun _ => false) [[CallWaitForStop]] y).
  - eapply run_reachable; [apply tr_start|exact E].
  - apply no_step. vm_compute in E. injection E as <-. repeat constructor.
Defined.
