(* ===== verification/ThreadGroup.v ===== *)
(** * Thread groups: [src/src/sdhs/Common/ThreadGroup.c]

    A manager starts groups of threads, each with a monitor that joins the
    threads, runs the group's cleanup and reports to the manager; the main
    thread waits for the reports or for a shutdown request, then frees the
    manager ([SdhsMain] of [Sdhs.c]).

    [TgCreateGroup] and [TgCreateManager] are functions on the arena's position.
    The rest is concurrent: one function per C function gives the next step of
    the thread that runs it, and [world_step] interleaves them with the threads
    of the groups and with the shutdown request. *)

From S2P Require Import Prelude.
From S2P Require Import UArena.
#[local] Open Scope Z_scope.

(** ** Creation *)

Definition sizeof_tg_group : Z := 64.
Definition sizeof_tg_manager : Z := 112.
Definition sizeof_pointer : Z := 8.       (* also [pthread_t] *)

(** What is asked of the allocator: a push on the caller's arena, by its
    capacity and position, or [malloc] and whether it succeeds. *)
Inductive allocator := OnArena (cap cur : Z) | Malloced (granted : bool).

Definition push (n : Z) (A : allocator) : bool * allocator :=
  match A with
  | OnArena cap cur =>
      match Bump.step cap cur (Bump.Alloc (u64 n)) with
      | (cur', Bump.Off _) => (true, OnArena cap cur')
      | _ => (false, A)
      end
  | Malloced granted => (granted, A)
  end.

(** Function pointers are their addresses, NULL when absent. *)
Record group_desc := mkGroupDesc {
  GroupId : Z;
  ThreadCount : Z;
  SharedData : Z;
  Cleanup : Z;
  Tasks : list Z;
}.

(** [Init_result]: what [Init] returns when it is called. *)
Definition TgCreateGroup (GroupId ThreadCount SharedData Init Init_result : Z) (Tasks : list Z) (Cleanup : Z)
    (A : allocator) : option group_desc * allocator :=
  let filled A :=
    let SharedData := if (SharedData =? NULL) && negb (Init =? NULL) then Init_result else SharedData in
    (Some (mkGroupDesc GroupId ThreadCount SharedData Cleanup (take (Z.to_nat ThreadCount) Tasks)), A) in
  match A with
  | OnArena _ _ =>
      let '(ok, A) := push (sizeof_tg_group * 1) A in
      if negb ok then (None, A) else
      let '(ok, A) := push (sizeof_pointer * ThreadCount) A in
      if negb ok then (None, A) else
      let '(ok, A) := push (sizeof_pointer * ThreadCount) A in
      if negb ok then (None, A) else filled A
  | Malloced _ =>
      let '(ok, A) := push (sizeof_tg_group + ThreadCount * sizeof_pointer + ThreadCount * sizeof_pointer) A in
      if negb ok then (None, A) else filled A
  end.

Record manager_desc := mkManagerDesc { GroupCount : Z; CompletedCount : Z; Groups : list Z }.

(** [None] is a fault: the arena branch writes [Manager->Groups] before it looks
    at [Manager]. *)
Definition TgCreateManager (Groups : list Z) (GroupCount : Z) (A : allocator) :
    option (option manager_desc * allocator) :=
  let filled A := Some (Some (mkManagerDesc GroupCount 0 (take (Z.to_nat GroupCount) Groups)), A) in
  match A with
  | OnArena _ _ =>
      let '(have_manager, A) := push (sizeof_tg_manager * 1) A in
      let '(have_groups, A) := push (sizeof_pointer * GroupCount) A in
      if negb have_manager then None
      else if negb have_groups then Some (None, A) else filled A
  | Malloced _ =>
      let '(ok, A) := push (sizeof_tg_manager + GroupCount * sizeof_pointer) A in
      if negb ok then Some (None, A) else filled A
  end.

(** ** The running system *)

Inductive tstate := NotStarted | Running | Finished.
#[export] Instance tstate_eq_dec : EqDecision tstate.
Proof. solve_decision. Defined.

(** Where the monitor of a group is in [TgMonitor]. *)
Inductive monitor :=
  | MNone                 (* not created *)
  | MJoin (t : nat)       (* joining thread [t] *)
  | MCleanup | MLock | MMark | MCount | MSignal | MUnlock
  | MEnd.

Record tg_group := mkGroup {
  Threads : list tstate;
  HasCleanup : bool;
  Monitor : monitor;
  Completed : bool;
  cleanups : nat;         (* calls of [Cleanup] so far *)
}.

(** Where the main thread is. *)
Inductive mainpc :=
  (* TgManagerStartAll *)
  | SLock | SNext (g : nat) | SUnlock (failed : bool)
  (* TgStartGroup of group [g] *)
  | SThread (g i : nat) | SJoin (g i j : nat) | SClean (g : nat) | SMonitor (g : nat)
  (* TgManagerWaitForAll *)
  | WLock | WTest | WSleep | WWake | WScan (i : nat) | WShut | WUnlock
  (* SdhsMain: TgDestroyManager, and the exits *)
  | DFree | Done | Exit.

#[export] Instance mainpc_eq_dec : EqDecision mainpc.
Proof. solve_decision. Defined.

Inductive owner := Main | Mon (g : nat).

Record world := mkWorld {
  groups : list tg_group;
  listed : list bool;            (* [Manager->Groups[i] != NULL] *)
  completed_count : nat;
  mutex : option owner;
  shutdown : bool;               (* [SdbShouldShutdown()] *)
  freed : bool;                  (* the manager *)
  pc : mainpc;
}.

Definition set_pc (p : mainpc) (y : world) : world :=
  mkWorld (groups y) (listed y) (completed_count y) (mutex y) (shutdown y) (freed y) p.
Definition set_mutex (o : option owner) (y : world) : world :=
  mkWorld (groups y) (listed y) (completed_count y) o (shutdown y) (freed y) (pc y).
Definition set_count (n : nat) (y : world) : world :=
  mkWorld (groups y) (listed y) n (mutex y) (shutdown y) (freed y) (pc y).
Definition set_listed (l : list bool) (y : world) : world :=
  mkWorld (groups y) l (completed_count y) (mutex y) (shutdown y) (freed y) (pc y).
Definition set_freed (y : world) : world :=
  mkWorld (groups y) (listed y) (completed_count y) (mutex y) (shutdown y) true (pc y).
Definition set_shutdown (y : world) : world :=
  mkWorld (groups y) (listed y) (completed_count y) (mutex y) true (freed y) (pc y).
Definition on_group (g : nat) (f : tg_group -> tg_group) (y : world) : world :=
  mkWorld (alter f g (groups y)) (listed y) (completed_count y) (mutex y) (shutdown y) (freed y) (pc y).

Definition set_thread (t : nat) (s : tstate) (G : tg_group) : tg_group :=
  mkGroup (<[t := s]> (Threads G)) (HasCleanup G) (Monitor G) (Completed G) (cleanups G).
Definition set_monitor (m : monitor) (G : tg_group) : tg_group :=
  mkGroup (Threads G) (HasCleanup G) m (Completed G) (cleanups G).
Definition set_completed (G : tg_group) : tg_group :=
  mkGroup (Threads G) (HasCleanup G) (Monitor G) true (cleanups G).
(** [if(Group->Cleanup) { Group->Cleanup(Group->SharedData); }] *)
Definition call_cleanup (G : tg_group) : tg_group :=
  mkGroup (Threads G) (HasCleanup G) (Monitor G) (Completed G)
          (if HasCleanup G then S (cleanups G) else cleanups G).

(** [pthread_join] on thread [t] of [G] returns. *)
Definition joinable (t : nat) (G : tg_group) : bool := bool_decide (Threads G !! t = Some Finished).

(** The next step of the monitor of group [g]; [None] when it is blocked or is
    not there. *)
Definition TgMonitor (g : nat) (y : world) : option world :=
  G ← groups y !! g;
  let goto m y := on_group g (set_monitor m) y in
  match Monitor G with
  | MNone | MEnd => None
  | MJoin t =>
      if (t <? length (Threads G))%nat then
        if joinable t G then Some (goto (MJoin (S t)) y) else None
      else Some (goto MCleanup y)
  | MCleanup => Some (goto MLock (on_group g call_cleanup y))
  | MLock => if mutex y is None then Some (goto MMark (set_mutex (Some (Mon g)) y)) else None
  | MMark => Some (goto MCount (on_group g set_completed y))
  | MCount => Some (goto MSignal (set_count (S (completed_count y)) y))
  | MSignal => Some (goto MUnlock y)       (* a waiter may wake at any time, see [WSleep] *)
  | MUnlock => Some (goto MEnd (set_mutex None y))
  end.

(** The next step of [TgStartGroup]; [ok]: whether a [pthread_create] made in it
    succeeds. *)
Definition TgStartGroup (ok : bool) (y : world) : option world :=
  match pc y with
  | SThread g i =>
      G ← groups y !! g;
      if (i <? length (Threads G))%nat then
        if ok then Some (set_pc (SThread g (S i)) (on_group g (set_thread i Running) y))
        else Some (set_pc (SJoin g i 0) y)
      else Some (set_pc (SMonitor g) y)
  | SJoin g i j =>
      G ← groups y !! g;
      if (j <? i)%nat then
        if joinable j G then Some (set_pc (SJoin g i (S j)) y) else None
      else Some (set_pc (SClean g) y)
  | SClean g => Some (set_pc (SUnlock true) (on_group g call_cleanup y))
  | SMonitor g =>
      if ok then Some (set_pc (SNext (S g)) (on_group g (set_monitor (MJoin 0)) y))
      else Some (set_pc (SUnlock true) y)
  | _ => None
  end.

Definition TgManagerStartAll (ok : bool) (y : world) : option world :=
  match pc y with
  | SLock => if mutex y is None then Some (set_pc (SNext 0) (set_mutex (Some Main) y)) else None
  | SNext g => Some (set_pc (if (g <? length (groups y))%nat then SThread g 0 else SUnlock false) y)
  | SUnlock failed => Some (set_pc (if failed then Exit else WLock) (set_mutex None y))
  | _ => TgStartGroup ok y
  end.

(** A wait ends with a signal or after its second, so the sleeper may wake in any
    state, once the mutex is free. *)
Definition TgManagerWaitForAll (y : world) : option world :=
  match pc y with
  | WLock => if mutex y is None then Some (set_pc WTest (set_mutex (Some Main) y)) else None
  | WTest =>
      if (completed_count y <? length (groups y))%nat && negb (shutdown y)
      then Some (set_pc WSleep (set_mutex None y)) else Some (set_pc WShut y)
  | WSleep => Some (set_pc WWake y)
  | WWake => if mutex y is None then Some (set_pc (WScan 0) (set_mutex (Some Main) y)) else None
  | WScan i =>
      if (i <? length (groups y))%nat then
        G ← groups y !! i;
        L ← listed y !! i;
        Some (set_pc (WScan (S i)) (if L && Completed G then set_listed (<[i := false]> (listed y)) y else y))
      else Some (set_pc WTest y)
  | WShut => Some (set_pc WUnlock (if shutdown y then set_count (length (groups y)) y else y))
  | WUnlock => Some (set_pc DFree (set_mutex None y))
  | _ => None
  end.

(** [free(M)] *)
Definition TgDestroyManager (y : world) : world := set_pc Done (set_freed y).

(** The main thread: start, exit on failure, wait, destroy. *)
Definition SdhsMain (ok : bool) (y : world) : option world :=
  match pc y with
  | SLock | SNext _ | SUnlock _ | SThread _ _ | SJoin _ _ _ | SClean _ | SMonitor _ => TgManagerStartAll ok y
  | WLock | WTest | WSleep | WWake | WScan _ | WShut | WUnlock => TgManagerWaitForAll y
  | DFree => Some (TgDestroyManager y)
  | Done | Exit => None
  end.

Inductive move := MainMove (ok : bool) | MonitorMove (g : nat) | Finish (g t : nat) | RequestShutdown.

Definition world_step (m : move) (y : world) : option world :=
  match m with
  | MainMove ok => SdhsMain ok y
  | MonitorMove g => TgMonitor g y
  | Finish g t =>
      G ← groups y !! g;
      if decide (Threads G !! t = Some Running) then Some (on_group g (set_thread t Finished) y) else None
  | RequestShutdown => Some (set_shutdown y)
  end.

Fixpoint world_run (ms : list move) (y : world) : option world :=
  match ms with
  | [] => Some y
  | m :: ms => y ← world_step m y; world_run ms y
  end.

(** The groups of [cfg]: how many threads, and whether there is a cleanup. *)
Definition world_start (cfg : list (nat * bool)) : world :=
  mkWorld (map (fun '(n, c) => mkGroup (replicate n NotStarted) c MNone false 0) cfg)
          (map (fun _ => true) cfg) 0 None false false SLock.

Definition world_reachable (cfg : list (nat * bool)) (y : world) : Prop :=
  exists ms, world_run ms (world_start cfg) = Some y.

(** ** The invariant *)

Definition stage (m : monitor) : nat :=
  match m with
  | MNone => 0 | MJoin _ => 1 | MCleanup => 2 | MLock => 3
  | MMark => 4 | MCount => 5 | MSignal => 6 | MUnlock => 7 | MEnd => 8
  end%nat.

Definition at_stage (G : tg_group) : nat := stage (Monitor G).

(** The monitor has added its group to the count. *)
Definition counted (G : tg_group) : bool := (6 <=? at_stage G)%nat.
(** A quantity summed over the groups. *)
Fixpoint sum_of (w : tg_group -> nat) (gs : list tg_group) : nat :=
  match gs with
  | [] => 0
  | G :: gs => w G + sum_of w gs
  end%nat.

Definition count_of : list tg_group -> nat := sum_of (fun G => Nat.b2n (counted G)).

Definition all_finished (G : tg_group) : Prop :=
  forall t, (t < length (Threads G))%nat -> Threads G !! t = Some Finished.

(** One group, [o] being who holds the mutex. *)
Record group_inv (o : option owner) (g : nat) (G : tg_group) : Prop := {
  gi_joined : forall t i, Monitor G = MJoin t -> (i < t)%nat -> (i < length (Threads G))%nat ->
                Threads G !! i = Some Finished;
  gi_finished : (2 <= at_stage G)%nat -> all_finished G;
  gi_cleanups : (1 <= at_stage G)%nat -> cleanups G = if (3 <=? at_stage G)%nat then Nat.b2n (HasCleanup G) else 0%nat;
  gi_completed : Completed G = (5 <=? at_stage G)%nat;
  gi_mutex : o = Some (Mon g) <-> (4 <= at_stage G <= 7)%nat;
}.

(** The main thread is between its lock and its unlock. *)
Definition main_holds (p : mainpc) : bool :=
  match p with
  | SLock | WLock | WSleep | WWake | DFree | Done | Exit => false
  | _ => true
  end.

(** The loop of [TgManagerWaitForAll] has ended. *)
Definition waited (p : mainpc) : bool :=
  match p with WShut | WUnlock | DFree | Done => true | _ => false end.

(** The first group not started yet, while and after starting them. *)
Definition next_group (n : nat) (p : mainpc) : option nat :=
  match p with
  | SLock => Some 0%nat
  | SNext g | SThread g _ | SJoin g _ _ | SClean g | SMonitor g => Some g
  | SUnlock true | Exit => None
  | _ => Some n
  end.

(** The group that [TgStartGroup] works on. *)
Definition current (p : mainpc) : option nat :=
  match p with SThread g _ | SJoin g _ _ | SClean g | SMonitor g => Some g | _ => None end.

Record world_inv (y : world) : Prop := {
  wi_groups : forall g G, groups y !! g = Some G -> group_inv (mutex y) g G;
  wi_owner : forall g, mutex y = Some (Mon g) -> is_Some (groups y !! g);
  wi_main : mutex y = Some Main <-> main_holds (pc y) = true;
  wi_started : forall k, next_group (length (groups y)) (pc y) = Some k -> (k <= length (groups y))%nat /\
                 forall g G, groups y !! g = Some G ->
                   if (g <? k)%nat then (1 <= at_stage G)%nat else at_stage G = 0%nat /\ cleanups G = 0%nat;
  wi_count : shutdown y = false \/ waited (pc y) = false -> completed_count y = count_of (groups y);
  wi_waited : waited (pc y) = true -> shutdown y = false -> forall g G, groups y !! g = Some G -> at_stage G = 8%nat;
  wi_freed : freed y = true -> pc y = Done;
  wi_listed : length (listed y) = length (groups y);
  wi_current : forall g, current (pc y) = Some g -> (g < length (groups y))%nat;
}.

Lemma alter_alter (f h : tg_group -> tg_group) (g : nat) (gs : list tg_group) : alter f g (alter h g gs) = alter (f ∘ h) g gs.
Proof.
  apply list_eq. intros i. destruct (decide (i = g)) as [->|].
  - rewrite !list_lookup_alter_eq. by destruct (gs !! g).
  - by rewrite !list_lookup_alter_ne.
Qed.

Lemma sum_of_alter w gs g f G :
  gs !! g = Some G -> (sum_of w (alter f g gs) + w G = sum_of w gs + w (f G))%nat.
Proof.
  revert g. induction gs as [|H gs IH]; intros [|g] Hg; [done..| |].
  - injection Hg as ->. change (alter f 0%nat (G :: gs)) with (f G :: gs). cbn [sum_of]. lia.
  - specialize (IH g Hg). change (alter f (S g) (H :: gs)) with (H :: alter f g gs). cbn [sum_of]. lia.
Qed.

Lemma sum_of_positive w gs : (0 < sum_of w gs)%nat -> exists g G, gs !! g = Some G /\ (0 < w G)%nat.
Proof.
  induction gs as [|G gs IH]; cbn [sum_of]; [lia|]. intros Hs. destruct (decide (w G = 0)%nat).
  - destruct IH as (g & G' & Hg & Hw); [lia|]. by exists (S g), G'.
  - exists 0%nat, G. split; [done|lia].
Qed.

Lemma count_of_alter gs g f G :
  gs !! g = Some G ->
  (count_of (alter f g gs) + Nat.b2n (counted G) = count_of gs + Nat.b2n (counted (f G)))%nat.
Proof. intros Hg. exact (sum_of_alter (fun G => Nat.b2n (counted G)) gs g f G Hg). Qed.

Lemma count_of_le gs : (count_of gs <= length gs)%nat.
Proof.
  unfold count_of. induction gs as [|G gs IH]; cbn [sum_of length]; [lia|].
  destruct (counted G); cbn [Nat.b2n]; lia.
Qed.

Lemma count_of_full gs : count_of gs = length gs -> forall g G, gs !! g = Some G -> counted G = true.
Proof.
  unfold count_of. induction gs as [|H gs IH]; intros Hc [|g] G Hg; [done..| |];
    cbn [sum_of length] in Hc; pose proof (count_of_le gs); unfold count_of in *.
  - injection Hg as ->. destruct (counted G); [done|cbn [Nat.b2n] in Hc; lia].
  - apply (IH ltac:(destruct (counted H); cbn [Nat.b2n] in Hc; lia) g G Hg).
Qed.

Lemma count_of_none gs : (forall g G, gs !! g = Some G -> counted G = false) -> count_of gs = 0%nat.
Proof.
  unfold count_of. induction gs as [|H gs IH]; intros Hc; [done|]. cbn [sum_of].
  rewrite (Hc 0%nat H eq_refl), IH; [done|]. intros g G HG. apply (Hc (S g) G HG).
Qed.

(** A move of the main thread that leaves the groups alone; it may take or
    release the mutex. *)
Lemma inv_main y p o :
  world_inv y ->
  (o = mutex y \/ (forall g, mutex y <> Some (Mon g)) /\ (forall g, o <> Some (Mon g))) ->
  (o = Some Main <-> main_holds p = true) ->
  (forall k, next_group (length (groups y)) p = Some k -> next_group (length (groups y)) (pc y) = Some k) ->
  (waited (pc y) = true -> waited p = true) ->
  (waited p = true -> waited (pc y) = true \/
     (shutdown y = false -> forall g G, groups y !! g = Some G -> at_stage G = 8%nat)) ->
  (freed y = true -> p = Done) ->
  (forall g, current p = Some g -> (g < length (groups y))%nat) ->
  world_inv (set_pc p (set_mutex o y)).
Proof.
  intros [Hg Ho Hm Hst Hc Hw Hf Hl Hcu] Hmu Hp Hn Hwp Hwp' Hfp Hcp. constructor; cbn.
  - intros g G HG. destruct (Hg g G HG) as [H1 H2 H3 H4 H5]. split; [done..|].
    destruct Hmu as [->|[Hy Hno]]; [done|]. rewrite <- H5. split; intros E; [by destruct (Hno g)|by destruct (Hy g)].
  - intros g E. destruct Hmu as [->|[_ Hno]]; [by apply Ho|by destruct (Hno g)].
  - done.
  - intros k Hk. by apply Hst, Hn.
  - intros [E|E]; [by apply Hc; left|]. apply Hc. right. destruct (waited (pc y)) eqn:Ew; [|done].
    by rewrite Hwp in E.
  - intros Ew Es. destruct (Hwp' Ew) as [E|E]; [by apply Hw|by apply E].
  - done.
  - done.
  - done.
Qed.

(** The same without the mutex. *)
Lemma inv_set_pc y p :
  world_inv y -> main_holds p = main_holds (pc y) ->
  (forall k, next_group (length (groups y)) p = Some k -> next_group (length (groups y)) (pc y) = Some k) ->
  (waited (pc y) = true -> waited p = true) ->
  (waited p = true -> waited (pc y) = true \/
     (shutdown y = false -> forall g G, groups y !! g = Some G -> at_stage G = 8%nat)) ->
  (freed y = true -> p = Done) ->
  (forall g, current p = Some g -> (g < length (groups y))%nat) ->
  world_inv (set_pc p y).
Proof.
  intros Hi Hp Hn Hwp Hwp' Hfp Hcp.
  assert (E : set_pc p y = set_pc p (set_mutex (mutex y) y)) by by destruct y.
  rewrite E. apply inv_main; try done; [by left|]. rewrite Hp. apply (wi_main _ Hi).
Qed.

(** A move of one group that does not start its monitor. *)
Lemma inv_group y g G f o n :
  world_inv y -> groups y !! g = Some G -> group_inv o g (f G) ->
  (o = mutex y \/ mutex y = None /\ o = Some (Mon g) \/ mutex y = Some (Mon g) /\ o = None) ->
  (at_stage G <= at_stage (f G))%nat ->
  next_group (length (groups y)) (pc y) = None \/
    (at_stage G = 0%nat -> at_stage (f G) = 0%nat /\ cleanups (f G) = cleanups G) ->
  (n + Nat.b2n (counted G) = completed_count y + Nat.b2n (counted (f G)))%nat ->
  world_inv (mkWorld (alter f g (groups y)) (listed y) n o (shutdown y) (freed y) (pc y)).
Proof.
  intros [Hg Ho Hm Hst Hc Hw Hf Hl Hcu] HG Hfg Hmu Hmono Hns Hn.
  assert (Hlt : (g < length (groups y))%nat) by by eapply lookup_lt_Some.
  assert (Hlk : forall g2 G2, alter f g (groups y) !! g2 = Some G2 ->
            g2 = g /\ G2 = f G \/ g2 <> g /\ groups y !! g2 = Some G2).
  { intros g2 G2. destruct (decide (g2 = g)) as [->|Hne].
    - rewrite list_lookup_alter_eq, HG. intros [= <-]. by left.
    - rewrite list_lookup_alter_ne by done. by right. }
  constructor; cbn [groups listed completed_count mutex shutdown freed pc]; rewrite ?length_alter.
  - intros g2 G2 [[-> ->]|[Hne H2]]%Hlk; [done|]. destruct (Hg g2 G2 H2) as [H3 H4 H5 H6 H7]. split; [done..|].
    rewrite <- H7. destruct Hmu as [->|[[-> ->]|[-> ->]]]; [done|split; congruence..].
  - intros g2 E. apply lookup_lt_is_Some. rewrite length_alter. apply lookup_lt_is_Some.
    destruct Hmu as [->|[[_ ->]|[_ ->]]]; [by apply Ho|by simplify_eq; eexists|done].
  - rewrite <- Hm. destruct Hmu as [->|[[-> ->]|[-> ->]]]; done.
  - intros k Hk. destruct (Hst k Hk) as [Hk1 Hk2]. split; [done|].
    intros g2 G2 [[-> ->]|[Hne H2]]%Hlk; [|by apply Hk2]. specialize (Hk2 g G HG).
    revert Hk2. destruct (g <? k)%nat; intros Hk2; [lia|]. destruct Hns as [Hns|Hns]; [congruence|].
    destruct Hk2 as [E1 E2]. destruct (Hns E1) as [E3 E4]. by rewrite E4.
  - intros Hor. specialize (Hc Hor). pose proof (count_of_alter _ _ f _ HG). lia.
  - intros Ew Es g2 G2 [[-> ->]|[Hne H2]]%Hlk; [|by eapply Hw].
    pose proof (Hw Ew Es g G HG). unfold at_stage in *. destruct (Monitor (f G)); cbn in *; lia.
  - done.
  - done.
  - done.
Qed.

(** Moves of the monitors keep the invariant: what the group becomes, who holds
    the mutex then, and the count. *)
Ltac monitor_move f o n :=
  lazymatch goal with
  | Hi : world_inv ?y, HG : groups ?y !! ?g = Some ?G, EM : Monitor ?G = _ |- _ =>
      apply (inv_group y g G f o n Hi HG); unfold counted, at_stage, compose in *;
        cbn [Monitor set_monitor call_cleanup set_completed] in *; rewrite ?EM in *; cbn [stage] in *;
        [|try by left|lia|right; lia|cbn; lia]
  end.

Ltac group_goals H2 H3 H4 H5 :=
  split; unfold at_stage; cbn;
    [try (intros ? ? [=]; done)|try (intros _; apply H2; lia); try (intros; lia)
    |try (intros _; apply H3; lia)|try done; try exact H4|try exact H5; try (rewrite H5; lia)].

Lemma inv_monitor g y y' : world_inv y -> TgMonitor g y = Some y' -> world_inv y'.
Proof.
  intros Hi. unfold TgMonitor. destruct (groups y !! g) as [G|] eqn:HG; [|done]. cbn [mbind option_bind].
  destruct (wi_groups _ Hi g G HG) as [H1 H2 H3 H4 H5]. unfold at_stage in *.
  destruct (Monitor G) as [|t| | | | | | |] eqn:EM; cbn [stage] in *; try done;
    cbv zeta; unfold on_group; cbn [groups set_mutex set_count].
  - destruct (Nat.ltb_spec t (length (Threads G))) as [Hlt|Hge].
    + destruct (joinable t G) eqn:Ej; [|done]. apply bool_decide_eq_true in Ej. intros [= <-].
      monitor_move (set_monitor (MJoin (S t))) (mutex y) (completed_count y).
      group_goals H2 H3 H4 H5.
      intros t' i [= <-] Hi' Hl. destruct (Nat.eq_dec i t) as [->|]; [done|]. apply (H1 t); [done|lia|done].
    + intros [= <-]. monitor_move (set_monitor MCleanup) (mutex y) (completed_count y).
      group_goals H2 H3 H4 H5. intros _ i Hl. apply (H1 t); [done| |done]. cbn in Hl. lia.
  - intros [= <-]. rewrite alter_alter. monitor_move (set_monitor MLock ∘ call_cleanup) (mutex y) (completed_count y).
    group_goals H2 H3 H4 H5. intros _. rewrite H3 by lia. by destruct (HasCleanup G).
  - destruct (mutex y) as [o|] eqn:Eo; [done|]. intros [= <-].
    monitor_move (set_monitor MMark) (Some (Mon g)) (completed_count y); [|by right; left].
    group_goals H2 H3 H4 H5. split; [lia|done].
  - intros [= <-]. rewrite alter_alter. monitor_move (set_monitor MCount ∘ set_completed) (mutex y) (completed_count y).
    group_goals H2 H3 H4 H5.
  - intros [= <-]. monitor_move (set_monitor MSignal) (mutex y) (S (completed_count y)).
    group_goals H2 H3 H4 H5.
  - intros [= <-]. monitor_move (set_monitor MUnlock) (mutex y) (completed_count y).
    group_goals H2 H3 H4 H5.
  - intros [= <-]. assert (Ho : mutex y = Some (Mon g)) by (apply H5; lia).
    monitor_move (set_monitor MEnd) (None : option owner) (completed_count y); [|by right; right].
    group_goals H2 H3 H4 H5. split; [done|lia].
Qed.

(** A thread starts or ends. *)
Lemma inv_thread g y G i s :
  world_inv y -> groups y !! g = Some G ->
  (s = Finished \/ at_stage G = 0%nat) -> world_inv (on_group g (set_thread i s) y).
Proof.
  intros Hi HG Hs. destruct (wi_groups _ Hi g G HG) as [H1 H2 H3 H4 H5].
  assert (Hk : forall j, Threads G !! j = Some Finished -> s = Finished -> <[i:=s]> (Threads G) !! j = Some Finished).
  { intros j Hj ->. destruct (decide (j = i)) as [->|]; [|by rewrite list_lookup_insert_ne].
    apply list_lookup_insert_eq. by eapply lookup_lt_Some. }
  apply (inv_group y g G (set_thread i s) (mutex y) (completed_count y) Hi HG);
    [|by left|done|by right|done].
  split; [| |exact H3|exact H4|exact H5]; cbn [Monitor Threads set_thread].
  - intros t j Et Ht Hl. rewrite length_insert in Hl. destruct Hs as [Hs|Hs]; [|unfold at_stage in Hs; by rewrite Et in Hs].
    apply Hk; [by eapply H1|done].
  - intros Hst j Hl. cbn in Hl. rewrite length_insert in Hl.
    destruct Hs as [Hs|Hs]; [|unfold at_stage in *; cbn in Hst; lia]. apply Hk; [by apply H2|done].
Qed.

(** The monitor of the next group starts. *)
Lemma inv_start g y :
  world_inv y -> pc y = SMonitor g -> (g < length (groups y))%nat ->
  world_inv (set_pc (SNext (S g)) (on_group g (set_monitor (MJoin 0)) y)).
Proof.
  intros [Hg Ho Hm Hst Hc Hw Hf Hl _] Hp Hlt. rewrite Hp in *. cbn [next_group main_holds waited] in *.
  destruct (Hst g eq_refl) as [_ Hst0].
  destruct (lookup_lt_is_Some_2 _ _ Hlt) as [G HG]. pose proof (Hst0 g G HG) as Hz. rewrite Nat.ltb_irrefl in Hz.
  assert (Hlk : forall g2 G2, alter (set_monitor (MJoin 0)) g (groups y) !! g2 = Some G2 ->
            g2 = g /\ G2 = set_monitor (MJoin 0) G \/ g2 <> g /\ groups y !! g2 = Some G2).
  { intros g2 G2. destruct (decide (g2 = g)) as [->|Hne].
    - rewrite list_lookup_alter_eq, HG. intros [= <-]. by left.
    - rewrite list_lookup_alter_ne by done. by right. }
  destruct Hz as [Hz1 Hz2].
  constructor; cbn [groups listed completed_count mutex shutdown freed pc set_pc on_group]; rewrite ?length_alter.
  - intros g2 G2 [[-> ->]|[Hne H2]]%Hlk; [|by apply Hg].
    destruct (Hg g G HG) as [H1 H2 H3 H4 H5]. rewrite Hz1 in *. split; unfold at_stage; cbn.
    + intros t i [= <-]. lia.
    + lia.
    + done.
    + done.
    + rewrite H5. lia.
  - intros g2 E. apply lookup_lt_is_Some. rewrite length_alter. apply lookup_lt_is_Some. by apply Ho.
  - done.
  - intros k [= <-]. split; [lia|]. intros g2 G2 [[-> ->]|[Hne H2]]%Hlk.
    + by rewrite (proj2 (Nat.ltb_lt _ _)) by lia.
    + specialize (Hst0 g2 G2 H2). revert Hst0.
      destruct (Nat.ltb_spec g2 g), (Nat.ltb_spec g2 (S g)); try done; lia.
  - intros _. rewrite (Hc (or_intror eq_refl)).
    pose proof (count_of_alter _ _ (set_monitor (MJoin 0)) _ HG) as E. unfold counted in E. rewrite Hz1 in E. cbn in E. lia.
  - done.
  - intros E. by specialize (Hf E).
  - done.
  - done.
Qed.

(** Outside a failed start the cleanup of a group runs in its monitor only; in
    one, [TgStartGroup] runs it on the way out. *)
Lemma inv_clean g y :
  world_inv y -> pc y = SClean g -> world_inv (set_pc (SUnlock true) (on_group g call_cleanup y)).
Proof.
  intros Hi Hp. assert (Hi' : world_inv (set_pc (SUnlock true) y)).
  { apply inv_set_pc; rewrite ?Hp; try done. intros E. apply (wi_freed _ Hi) in E. congruence. }
  change (world_inv (on_group g call_cleanup (set_pc (SUnlock true) y))). unfold on_group.
  destruct (groups y !! g) as [G|] eqn:HG.
  - destruct (wi_groups _ Hi' g G HG) as [H1 H2 H3 H4 H5]. pose proof (wi_started _ Hi g) as Hs.
    rewrite Hp in Hs. destruct (Hs eq_refl) as [_ Hs']. specialize (Hs' g G HG). rewrite Nat.ltb_irrefl in Hs'.
    destruct Hs' as [Hs' _].
    apply (inv_group _ g G call_cleanup (mutex y) (completed_count y) Hi' HG); [|by left|done|by left|done].
    split; [exact H1|exact H2| |exact H4|exact H5]. unfold at_stage in *. cbn. lia.
  - assert (E : alter call_cleanup g (groups y) = groups y).
    { apply list_eq. intros i. destruct (decide (i = g)) as [->|].
      - by rewrite list_lookup_alter_eq, HG.
      - by rewrite list_lookup_alter_ne. }
    cbn. rewrite E. exact Hi'.
Qed.

(** The side conditions of the moves of the main thread that are plain from where
    it is. *)
Ltac main_side Hi :=
  first [done | (intros E; apply (wi_freed _ Hi) in E; congruence) | (by left) | (intros ? [=]; done)].

Lemma inv_start_all ok y y' :
  world_inv y -> TgManagerStartAll ok y = Some y' -> world_inv y'.
Proof.
  intros Hi. unfold TgManagerStartAll, TgStartGroup.
  pose proof (wi_current _ Hi) as Hcu. pose proof (wi_started _ Hi) as Hst.
  destruct (pc y) as [|g|failed|g i|g i j|g|g| | | | |i| | | | |] eqn:Hp; try done; cbn [current next_group] in Hcu, Hst.
  - destruct (mutex y) eqn:Eo; [done|]. intros [= <-].
    apply inv_main; rewrite ?Hp; try main_side Hi. right. by rewrite Eo.
  - intros [= <-]. destruct (Hst g eq_refl) as [Hle _]. destruct (Nat.ltb_spec g (length (groups y))).
    + apply inv_set_pc; rewrite ?Hp; try main_side Hi. by intros g' [= <-].
    + apply inv_set_pc; rewrite ?Hp; try main_side Hi. cbn. intros k [= <-]. f_equal. lia.
  - intros [= <-]. assert (Hm : mutex y = Some Main) by (apply (wi_main _ Hi); by rewrite Hp).
    destruct failed; apply inv_main; rewrite ?Hp; try main_side Hi; right; by rewrite Hm.
  - destruct (groups y !! g) as [G|] eqn:HG; [|done]. cbn [mbind option_bind].
    destruct (Nat.ltb_spec i (length (Threads G))); [destruct ok|]; intros [= <-].
    + change (world_inv (on_group g (set_thread i Running) (set_pc (SThread g (S i)) y))).
      apply (inv_thread g _ G); [|done|right].
      * apply inv_set_pc; rewrite ?Hp; main_side Hi.
      * destruct (Hst g eq_refl) as [_ Hs]. specialize (Hs g G HG). rewrite Nat.ltb_irrefl in Hs. apply Hs.
    + apply inv_set_pc; rewrite ?Hp; main_side Hi.
    + apply inv_set_pc; rewrite ?Hp; main_side Hi.
  - destruct (groups y !! g) as [G|] eqn:HG; [|done]. cbn [mbind option_bind].
    destruct (j <? i)%nat; [destruct (joinable j G); [|done]|]; intros [= <-];
      apply inv_set_pc; rewrite ?Hp; main_side Hi.
  - intros [= <-]. by apply inv_clean.
  - destruct ok; intros [= <-]; [apply inv_start; auto|].
    apply inv_set_pc; rewrite ?Hp; main_side Hi.
Qed.

(** Leaving the loop with everything counted: every monitor has ended, since the
    main thread holds the mutex. *)
Lemma all_counted_ended y :
  world_inv y -> mutex y = Some Main -> completed_count y = count_of (groups y) ->
  (length (groups y) <= completed_count y)%nat ->
  forall g G, groups y !! g = Some G -> at_stage G = 8%nat.
Proof.
  intros Hi Hm Hc Hl g G HG. pose proof (count_of_le (groups y)).
  pose proof (count_of_full (groups y) ltac:(lia) g G HG) as Hcount. apply Nat.leb_le in Hcount.
  destruct (wi_groups _ Hi g G HG) as [_ _ _ _ H5]. rewrite Hm in H5.
  destruct (decide (at_stage G <= 7)%nat) as [H7|H7].
  - assert (E : Some Main = Some (Mon g)) by (apply H5; lia). done.
  - unfold at_stage in *. destruct (Monitor G); cbn in *; lia.
Qed.

Lemma inv_listed y l : world_inv y -> length l = length (listed y) -> world_inv (set_listed l y).
Proof. intros [] E. constructor; cbn; try done. by rewrite E. Qed.

Lemma inv_count_shutdown y n :
  world_inv y -> shutdown y = true -> waited (pc y) = true -> world_inv (set_count n y).
Proof. intros [] E1 E2. constructor; cbn; try done. rewrite E1, E2. by intros [?|?]. Qed.

Lemma inv_wait_for_all y y' : world_inv y -> TgManagerWaitForAll y = Some y' -> world_inv y'.
Proof.
  intros Hi. unfold TgManagerWaitForAll. pose proof (wi_main _ Hi) as Hmain.
  destruct (pc y) as [| | | | | | | | | | |i| | | | |] eqn:Hp; try done; cbn [main_holds] in Hmain.
  - destruct (mutex y) eqn:Eo; [done|]. intros [= <-].
    apply inv_main; rewrite ?Hp; try main_side Hi. right. by rewrite Eo.
  - assert (Hm : mutex y = Some Main) by by apply Hmain.
    destruct (Nat.ltb_spec (completed_count y) (length (groups y))); [destruct (shutdown y) eqn:Es|];
      cbn [andb negb]; intros [= <-].
    + apply inv_set_pc; rewrite ?Hp; try main_side Hi. intros _. right. congruence.
    + apply inv_main; rewrite ?Hp; try main_side Hi. right. by rewrite Hm.
    + apply inv_set_pc; rewrite ?Hp; try main_side Hi. intros _. right. intros Es.
      apply (all_counted_ended y Hi Hm); [|done]. apply (wi_count _ Hi). by left.
  - intros [= <-]. apply inv_set_pc; rewrite ?Hp; main_side Hi.
  - destruct (mutex y) eqn:Eo; [done|]. intros [= <-].
    apply inv_main; rewrite ?Hp; try main_side Hi. right. by rewrite Eo.
  - destruct (Nat.ltb_spec i (length (groups y))).
    + destruct (groups y !! i) as [G|]; [|done]. destruct (listed y !! i) as [L|]; [|done].
      cbn [mbind option_bind]. intros [= <-].
      assert (Hi' : world_inv (set_pc (WScan (S i)) y)) by (apply inv_set_pc; rewrite ?Hp; main_side Hi).
      destruct (L && Completed G); [|done].
      change (world_inv (set_listed (<[i:=false]> (listed y)) (set_pc (WScan (S i)) y))).
      apply inv_listed; [done|]. by rewrite length_insert.
    + intros [= <-]. apply inv_set_pc; rewrite ?Hp; main_side Hi.
  - intros [= <-]. assert (Hi' : world_inv (set_pc WUnlock y)) by (apply inv_set_pc; rewrite ?Hp; main_side Hi).
    destruct (shutdown y) eqn:Es; [|done].
    change (world_inv (set_count (length (groups y)) (set_pc WUnlock y))). by apply inv_count_shutdown.
  - intros [= <-]. assert (Hm : mutex y = Some Main) by by apply Hmain.
    apply inv_main; rewrite ?Hp; try main_side Hi. right. by rewrite Hm.
Qed.

Lemma inv_step m y y' : world_inv y -> world_step m y = Some y' -> world_inv y'.
Proof.
  intros Hi. destruct m as [ok|g|g t|]; cbn [world_step].
  - unfold SdhsMain. destruct (pc y) eqn:Hp;
      try (intros E; exact (inv_start_all ok y y' Hi E));
      try (intros E; exact (inv_wait_for_all y y' Hi E)); try done.
    intros [= <-]. unfold TgDestroyManager.
    assert (Hi' : world_inv (set_pc Done y)) by (apply inv_set_pc; rewrite ?Hp; main_side Hi).
    destruct Hi'. constructor; cbn in *; done.
  - by apply inv_monitor.
  - destruct (groups y !! g) as [G|] eqn:HG; [|done]. cbn [mbind option_bind].
    destruct (decide _) as [Ht|]; [|done]. intros [= <-]. by apply (inv_thread g y G); [| |left].
  - intros [= <-]. destruct Hi as [? ? ? ? Hc ? ? ? ?]. constructor; cbn; try done.
    intros [|E]; [done|]. apply Hc. by right.
Qed.

Lemma inv_world_start cfg : world_inv (world_start cfg).
Proof.
  assert (Hlk : forall g G, groups (world_start cfg) !! g = Some G ->
            exists n c, G = mkGroup (replicate n NotStarted) c MNone false 0).
  { intros g G. cbn. rewrite list_lookup_fmap. destruct (cfg !! g) as [[n c]|]; [|done].
    cbn. intros [= <-]. by exists n, c. }
  constructor; cbn [listed completed_count mutex shutdown freed pc world_start]; try done.
  - intros g G (n & c & ->)%Hlk. split; unfold at_stage; cbn; try done; try (intros; lia); split; [done|lia].
  - intros k [= <-]. split; [lia|]. by intros g G (n & c & ->)%Hlk.
  - intros _. symmetry. apply count_of_none. by intros g G (n & c & ->)%Hlk.
  - cbn. by rewrite !length_map.
Qed.

Lemma inv_reachable cfg y : world_reachable cfg y -> world_inv y.
Proof.
  intros [ms Hr]. revert Hr. generalize (inv_world_start cfg). generalize (world_start cfg).
  induction ms as [|m ms IH]; intros y0 Hi; cbn [world_run]; [by intros [= <-]|].
  destruct (world_step m y0) as [y1|] eqn:E; [|done]. cbn [mbind option_bind].
  apply IH. by eapply inv_step.
Qed.

(** ** Progress *)

(** The threads of group [g] below this index have been created. *)
Definition created_below (p : mainpc) (g : nat) (G : tg_group) : nat :=
  if (1 <=? at_stage G)%nat then length (Threads G)
  else match p with
       | SThread g' i | SJoin g' i _ => if (g' =? g)%nat then i else 0
       | SMonitor g' => if (g' =? g)%nat then length (Threads G) else 0
       | _ => 0
       end%nat.

Definition created_inv (y : world) : Prop :=
  forall g G t, groups y !! g = Some G -> (t < created_below (pc y) g G)%nat -> Threads G !! t <> Some NotStarted.

Lemma created_same y y' :
  created_inv y -> groups y' = groups y ->
  (forall g G, groups y !! g = Some G -> (created_below (pc y') g G <= created_below (pc y) g G)%nat) ->
  created_inv y'.
Proof.
  intros Hi Eg Hb g G t HG Ht. rewrite Eg in HG. specialize (Hb g G HG). apply (Hi g G t HG). lia.
Qed.

Lemma created_alter y y' g G f :
  created_inv y -> groups y !! g = Some G -> groups y' = alter f g (groups y) ->
  (forall t, (t < created_below (pc y') g (f G))%nat -> Threads (f G) !! t <> Some NotStarted) ->
  (forall g2 G2, g2 <> g -> (created_below (pc y') g2 G2 <= created_below (pc y) g2 G2)%nat) ->
  created_inv y'.
Proof.
  intros Hi HG Eg Hf Ho g2 G2 t. rewrite Eg. destruct (decide (g2 = g)) as [->|Hne].
  - rewrite list_lookup_alter_eq, HG. intros [= <-]. apply Hf.
  - rewrite list_lookup_alter_ne by done. intros H2 Ht. specialize (Ho g2 G2 Hne). apply (Hi g2 G2 t H2). lia.
Qed.

Lemma created_monitor g y y' : created_inv y -> TgMonitor g y = Some y' -> created_inv y'.
Proof.
  intros Hi. unfold TgMonitor. destruct (groups y !! g) as [G|] eqn:HG; [|done]. cbn [mbind option_bind].
  assert (Hthreads : (1 <= at_stage G)%nat -> forall t, (t < length (Threads G))%nat -> Threads G !! t <> Some NotStarted).
  { intros H1 t Ht. apply (Hi g G t HG). unfold created_below. by rewrite (proj2 (Nat.leb_le _ _) H1). }
  assert (Hgo : forall f y1, groups y1 = alter f g (groups y) -> pc y1 = pc y -> Threads (f G) = Threads G ->
            (1 <= at_stage G)%nat -> (1 <= at_stage (f G))%nat -> created_inv y1).
  { intros f y1 E1 E2 E3 H1 H2. apply (created_alter y y1 g G f Hi HG E1); [|by rewrite E2].
    unfold created_below. rewrite (proj2 (Nat.leb_le _ _) H2), E3. by apply Hthreads. }
  unfold at_stage in *. destruct (Monitor G) as [|t| | | | | | |] eqn:EM; try done.
  - destruct (t <? length (Threads G))%nat; [destruct (joinable t G); [|done]|]; intros [= <-];
      eapply Hgo; try reflexivity; cbn; lia.
  - intros [= <-]. apply (Hgo (set_monitor MLock ∘ call_cleanup)); try reflexivity; [|cbn; lia..].
    cbn. apply alter_alter.
  - destruct (mutex y); [done|]. intros [= <-]. eapply Hgo; try reflexivity; cbn; lia.
  - intros [= <-]. apply (Hgo (set_monitor MCount ∘ set_completed)); try reflexivity; [|cbn; lia..].
    cbn. apply alter_alter.
  - intros [= <-]. eapply Hgo; try reflexivity; cbn; lia.
  - intros [= <-]. eapply Hgo; try reflexivity; cbn; lia.
  - intros [= <-]. eapply Hgo; try reflexivity; cbn; lia.
Qed.

Lemma created_start_group ok y y' : created_inv y -> TgStartGroup ok y = Some y' -> created_inv y'.
Proof.
  intros Hi. unfold TgStartGroup. destruct (pc y) as [| | |g i|g i j|g|g| | | | | | | | | |] eqn:Hp; try done.
  - destruct (groups y !! g) as [G|] eqn:HG; [|done]. cbn [mbind option_bind].
    destruct (Nat.ltb_spec i (length (Threads G))); [destruct ok|]; intros [= <-].
    + apply (created_alter y _ g G (set_thread i Running) Hi HG); [done| |].
      * cbn [Threads set_thread]. intros t Ht. destruct (decide (t = i)) as [->|Hne].
        { by rewrite list_lookup_insert_eq. }
        rewrite list_lookup_insert_ne by done. apply (Hi g G t HG). rewrite Hp.
        unfold created_below in *. cbn [pc set_pc] in Ht. unfold at_stage in *. cbn [Monitor Threads set_thread] in Ht.
        rewrite length_insert in Ht. rewrite Nat.eqb_refl in *. destruct (1 <=? stage (Monitor G))%nat; lia.
      * intros g2 G2 Hne. rewrite Hp. unfold created_below. cbn [pc set_pc].
        rewrite (proj2 (Nat.eqb_neq g g2)) by congruence. done.
    + apply (created_same y); [done..|]. intros g2 G2 H2. rewrite Hp. done.
    + apply (created_same y); [done..|]. intros g2 G2 H2. rewrite Hp. unfold created_below. cbn [pc set_pc].
      destruct (Nat.eqb_spec g g2) as [->|]; [|done]. simplify_eq. case_match; lia.
  - destruct (groups y !! g) as [G|] eqn:HG; [|done]. cbn [mbind option_bind].
    destruct (j <? i)%nat; [destruct (joinable j G); [|done]|]; intros [= <-];
      apply (created_same y); try done; intros g2 G2 H2; rewrite Hp; unfold created_below; cbn [pc set_pc];
      repeat case_match; lia.
  - intros [= <-]. destruct (groups y !! g) as [G|] eqn:HG.
    + apply (created_alter y _ g G call_cleanup Hi HG); [done| |].
      * intros t Ht. apply (Hi g G t HG). by rewrite Hp.
      * intros g2 G2 _. by rewrite Hp.
    + intros g2 G2 t. cbn [groups set_pc on_group]. destruct (decide (g2 = g)) as [->|].
      * by rewrite list_lookup_alter_eq, HG.
      * rewrite list_lookup_alter_ne by done. intros H2 Ht. apply (Hi g2 G2 t H2). by rewrite Hp.
  - destruct ok; intros [= <-].
    + destruct (groups y !! g) as [G|] eqn:HG.
      * apply (created_alter y _ g G (set_monitor (MJoin 0)) Hi HG); [done| |].
        { intros t Ht. apply (Hi g G t HG). rewrite Hp. unfold created_below in *. cbn in Ht.
          rewrite Nat.eqb_refl. destruct (1 <=? at_stage G)%nat; done. }
        { intros g2 G2 Hne. rewrite Hp. unfold created_below. cbn [pc set_pc].
          rewrite (proj2 (Nat.eqb_neq g g2)) by congruence. done. }
      * intros g2 G2 t. cbn [groups set_pc on_group]. destruct (decide (g2 = g)) as [->|].
        { by rewrite list_lookup_alter_eq, HG. }
        rewrite list_lookup_alter_ne by done. intros H2 Ht. apply (Hi g2 G2 t H2). rewrite Hp.
        unfold created_below in *. cbn [pc set_pc] in Ht. destruct (1 <=? at_stage G2)%nat; [done|lia].
    + apply (created_same y); [done..|]. intros g2 G2 H2. rewrite Hp. unfold created_below. cbn [pc set_pc].
      destruct (1 <=? at_stage G2)%nat; lia.
Qed.

Lemma created_step m y y' : created_inv y -> world_step m y = Some y' -> created_inv y'.
Proof.
  intros Hi. destruct m as [ok|g|g t|]; cbn [world_step].
  - unfold SdhsMain, TgManagerStartAll, TgManagerWaitForAll, TgDestroyManager.
    destruct (pc y) eqn:Hp; intros E;
      try (eapply created_start_group; [exact Hi|exact E]); try done;
      repeat case_match; simplify_option_eq; repeat case_match;
      (apply (created_same y); [done|done|]); intros g2 G2 _; rewrite Hp; unfold created_below;
      cbn [pc set_pc set_mutex set_count set_listed set_freed]; repeat case_match; lia.
  - by apply created_monitor.
  - destruct (groups y !! g) as [G|] eqn:HG; [|done]. cbn [mbind option_bind].
    destruct (decide _) as [Ht|]; [|done]. intros [= <-].
    apply (created_alter y _ g G (set_thread t Finished) Hi HG); [done| |done].
    cbn [Threads set_thread]. intros t' Ht'. destruct (decide (t' = t)) as [->|Hne].
    + rewrite list_lookup_insert_eq; [done|]. by eapply lookup_lt_Some.
    + rewrite list_lookup_insert_ne by done. apply (Hi g G t' HG).
      unfold created_below, at_stage in *. cbn [Monitor Threads set_thread pc on_group] in Ht'.
      by rewrite length_insert in Ht'.
  - intros [= <-]. exact Hi.
Qed.

Lemma created_reachable cfg y : world_reachable cfg y -> created_inv y.
Proof.
  intros [ms Hr]. revert Hr. assert (H0 : created_inv (world_start cfg)).
  { intros g G t HG Ht. cbn in HG. rewrite list_lookup_fmap in HG. destruct (cfg !! g) as [[n c]|]; [|done].
    cbn in HG. simplify_eq. cbn in Ht. lia. }
  revert H0. generalize (world_start cfg).
  induction ms as [|m ms IH]; intros y0 Hi; cbn [world_run]; [by intros [= <-]|].
  destruct (world_step m y0) as [y1|] eqn:E; [|done]. cbn [mbind option_bind].
  apply IH. by eapply created_step.
Qed.

(** *** The work that is left *)

Definition thread_work (s : tstate) : nat := match s with NotStarted => 2 | Running => 1 | Finished => 0 end.
Fixpoint threads_work (l : list tstate) : nat :=
  match l with [] => 0 | s :: l => thread_work s + threads_work l end%nat.

Definition monitor_work (G : tg_group) : nat :=
  match Monitor G with
  | MNone => 9 + length (Threads G)
  | MJoin t => 8 + (length (Threads G) - t)
  | m => 8 - stage m
  end%nat.

Definition group_work (G : tg_group) : nat := (threads_work (Threads G) + monitor_work G)%nat.
Definition work (y : world) : nat := sum_of group_work (groups y).

Lemma threads_work_insert l t s s' :
  l !! t = Some s -> (threads_work (<[t := s']> l) + thread_work s = threads_work l + thread_work s')%nat.
Proof.
  revert t. induction l as [|x l IH]; intros [|t] Hl; [done..| |].
  - injection Hl as ->. change (<[0%nat:=s']> (s :: l)) with (s' :: l). cbn [threads_work]. lia.
  - specialize (IH t Hl). change (<[S t:=s']> (x :: l)) with (x :: <[t:=s']> l). cbn [threads_work]. lia.
Qed.

Lemma threads_work_zero l t s : threads_work l = 0%nat -> l !! t = Some s -> s = Finished.
Proof.
  revert t. induction l as [|x l IH]; intros [|t] Hw Hl; [done..| |]; cbn [threads_work] in Hw.
  - injection Hl as ->. destruct s; cbn in Hw; [lia|lia|done].
  - apply (IH t); [lia|done].
Qed.

Lemma threads_work_positive l : (0 < threads_work l)%nat -> exists t s, l !! t = Some s /\ s <> Finished.
Proof.
  induction l as [|x l IH]; cbn [threads_work]; [lia|]. intros Hw.
  destruct (decide (x = Finished)) as [->|Hne].
  - destruct (IH Hw) as (t & s & Hl & Hs). by exists (S t), s.
  - by exists 0%nat, x.
Qed.

(** The main thread is in [TgManagerWaitForAll] or after it. *)
Definition waiting (p : mainpc) : bool :=
  match p with
  | WLock | WTest | WSleep | WWake | WScan _ | WShut | WUnlock | DFree | Done => true
  | _ => false
  end.

(** How far the main thread is from its end; asleep, it waits for the work of
    the others unless there is none left. *)
Definition rank (y : world) : nat :=
  let n := length (groups y) in
  match pc y with
  | WLock => 22
  | WSleep => if (work y =? 0)%nat then 32 + n else 20
  | WWake => 31 + n | WScan i => 22 + (n - i) | WTest => 21
  | WShut => 15 | WUnlock => 14 | DFree => 13
  | _ => 0
  end%nat.

Definition lower (y' y : world) : Prop :=
  (work y' < work y)%nat \/ work y' = work y /\ (rank y' < rank y)%nat.

(** A move in which no thread fails to be created and nobody asks to stop. *)
Definition friendly (m : move) : Prop := m <> RequestShutdown /\ m <> MainMove false.

Definition can_lower (y : world) : Prop := exists m y', friendly m /\ world_step m y = Some y' /\ lower y' y.

Lemma work_alter y y' g G f :
  groups y !! g = Some G -> groups y' = alter f g (groups y) -> (group_work (f G) < group_work G)%nat ->
  (work y' < work y)%nat.
Proof. intros HG E Hw. unfold work. rewrite E. pose proof (sum_of_alter group_work _ _ f _ HG). lia. Qed.

(** A running thread may end. *)
Lemma finish_lowers y g G t :
  groups y !! g = Some G -> Threads G !! t = Some Running -> can_lower y.
Proof.
  intros HG Ht. exists (Finish g t), (on_group g (set_thread t Finished) y). split; [done|]. split.
  - cbn [world_step]. rewrite HG. cbn [mbind option_bind]. by rewrite decide_True.
  - left. apply (work_alter y _ g G (set_thread t Finished) HG); [done|]. unfold group_work, monitor_work.
    cbn [Threads Monitor set_thread]. rewrite length_insert. pose proof (threads_work_insert _ _ _ Finished Ht).
    cbn [thread_work] in *. lia.
Qed.

(** A monitor that is not at its end moves, or waits for a running thread. *)
Lemma monitor_lowers y g G :
  world_inv y -> created_inv y -> groups y !! g = Some G -> (1 <= at_stage G <= 7)%nat ->
  mutex y = None \/ mutex y = Some (Mon g) -> can_lower y.
Proof.
  intros Hi Hc HG Hst Hmu. destruct (wi_groups _ Hi g G HG) as [_ _ _ _ H5].
  assert (Hgo : forall y1 f, TgMonitor g y = Some y1 -> groups y1 = alter f g (groups y) ->
            Threads (f G) = Threads G -> (monitor_work (f G) < monitor_work G)%nat -> can_lower y).
  { intros y1 f E1 E2 E3 E4. exists (MonitorMove g), y1. split; [done|]. split; [exact E1|]. left.
    apply (work_alter y y1 g G f HG E2). unfold group_work. rewrite E3. lia. }
  unfold TgMonitor in Hgo. rewrite HG in Hgo. cbn [mbind option_bind] in Hgo.
  unfold monitor_work, at_stage in *. 
  destruct (Monitor G) as [|t| | | | | | |] eqn:EM; cbn [stage] in *; try lia.
  - destruct (Nat.ltb_spec t (length (Threads G))) as [Hlt|Hge].
    + destruct (joinable t G) eqn:Ej.
      * eapply (Hgo _ (set_monitor (MJoin (S t)))); try reflexivity. cbn. lia.
      * destruct (lookup_lt_is_Some_2 _ _ Hlt) as [s Hs].
        assert (Hn : Threads G !! t <> Some NotStarted).
        { apply (Hc g G t HG). unfold created_below, at_stage. rewrite EM. done. }
        destruct s; [done|by eapply finish_lowers|].
        apply bool_decide_eq_false in Ej. done.
    + eapply (Hgo _ (set_monitor MCleanup)); try reflexivity. cbn. lia.
  - eapply (Hgo _ (set_monitor MLock ∘ call_cleanup)); try reflexivity; [|cbn; lia]. cbn. apply alter_alter.
  - destruct Hmu as [Hmu|Hmu]; [|apply H5 in Hmu; lia]. rewrite Hmu in Hgo.
    eapply (Hgo _ (set_monitor MMark)); try reflexivity. cbn. lia.
  - eapply (Hgo _ (set_monitor MCount ∘ set_completed)); try reflexivity; [|cbn; lia]. cbn. apply alter_alter.
  - eapply (Hgo _ (set_monitor MSignal)); try reflexivity. cbn. lia.
  - eapply (Hgo _ (set_monitor MUnlock)); try reflexivity. cbn. lia.
  - eapply (Hgo _ (set_monitor MEnd)); try reflexivity. cbn. lia.
Qed.

Lemma main_lowers y y' :
  SdhsMain true y = Some y' -> groups y' = groups y -> (rank y' < rank y)%nat -> can_lower y.
Proof.
  intros E Eg Hr. exists (MainMove true), y'. split; [done|]. split; [exact E|]. right.
  split; [|done]. unfold work. by rewrite Eg.
Qed.

(** No work left: every monitor is at its end, and the count is complete. *)
Lemma no_work y :
  world_inv y -> waiting (pc y) = true -> work y = 0%nat ->
  forall g G, groups y !! g = Some G -> at_stage G = 8%nat.
Proof.
  intros Hi Hp Hw g G HG. assert (Hz : group_work G = 0%nat).
  { unfold work in Hw. pose proof (sum_of_alter group_work _ _ (fun G => G) _ HG) as E.
    revert Hw HG. clear. generalize (groups y). intros gs. revert g.
    induction gs as [|H gs IH]; intros [|g] Hw Hl; [done..| |]; cbn [sum_of] in Hw.
    - injection Hl as ->. lia.
    - apply (IH g); [lia|done]. }
  unfold group_work, monitor_work, at_stage in *. destruct (Monitor G); cbn in *; lia.
Qed.

Lemma some_work y :
  world_inv y -> created_inv y -> waiting (pc y) = true -> mutex y = None -> (0 < work y)%nat -> can_lower y.
Proof.
  intros Hi Hc Hp Hmu Hw. apply sum_of_positive in Hw as (g & G & HG & Hw).
  destruct (wi_started _ Hi (length (groups y))) as [_ Hst]; [by destruct (pc y)|].
  specialize (Hst g G HG). rewrite (proj2 (Nat.ltb_lt _ _)) in Hst by (by eapply lookup_lt_Some).
  destruct (decide (at_stage G <= 7)%nat) as [H7|H7]; [by eapply (monitor_lowers y g G); auto|].
  assert (Hf : all_finished G) by (apply (wi_groups _ Hi g G HG); lia).
  assert (Hm : monitor_work G = 0%nat) by (unfold monitor_work, at_stage in *; destruct (Monitor G); cbn in *; lia).
  unfold group_work in Hw. rewrite Hm in Hw.
  destruct (threads_work_positive (Threads G)) as (t & s & Ht & Hs); [lia|].
  specialize (Hf t ltac:(by eapply lookup_lt_Some)). congruence.
Qed.

Lemma count_of_ended gs : (forall g G, gs !! g = Some G -> at_stage G = 8%nat) -> count_of gs = length gs.
Proof.
  unfold count_of. induction gs as [|H gs IH]; intros Hs; [done|]. cbn [sum_of length].
  rewrite IH by (intros g G HG; exact (Hs (S g) G HG)). unfold counted. by rewrite (Hs 0%nat H eq_refl).
Qed.

Lemma waiting_lowers y :
  world_inv y -> created_inv y -> waiting (pc y) = true -> pc y <> Done -> can_lower y.
Proof.
  intros Hi Hc Hp Hd. pose proof (wi_main _ Hi) as Hh. pose proof (no_work y Hi Hp) as Hno.
  pose proof (some_work y Hi Hc Hp) as Hsome.
  assert (Hgo : forall y1, SdhsMain true y = Some y1 -> groups y1 = groups y -> (rank y1 < rank y)%nat -> can_lower y)
    by (intros; by eapply main_lowers).
  destruct (mutex y) as [[|g]|] eqn:Hmu.
  - assert (H1 : main_holds (pc y) = true) by by apply Hh.
    unfold SdhsMain, TgManagerWaitForAll, rank in *. destruct (pc y) as [| | | | | | | | | | |i| | | | |]; try done.
    + destruct (Nat.ltb_spec (completed_count y) (length (groups y))) as [Hlt|]; [destruct (shutdown y) eqn:Es|];
        cbn [andb negb] in Hgo; (eapply Hgo; [reflexivity..|]); cbn [pc set_pc]; try lia.
      change (work (set_pc WSleep (set_mutex None y))) with (work y).
      destruct (Nat.eqb_spec (work y) 0) as [E|]; [|lia].
      rewrite (wi_count _ Hi (or_introl Es)), (count_of_ended _ (Hno E)) in Hlt. lia.
    + destruct (Nat.ltb_spec i (length (groups y))) as [Hlt|]; [|eapply Hgo; [reflexivity..|]; cbn [pc set_pc]; lia].
      destruct (lookup_lt_is_Some_2 _ _ Hlt) as [G HG]. rewrite <- (wi_listed _ Hi) in Hlt.
      destruct (lookup_lt_is_Some_2 _ _ Hlt) as [L HL]. rewrite HG, HL in Hgo. cbn [mbind option_bind] in Hgo.
      rewrite (wi_listed _ Hi) in Hlt.
      eapply Hgo; [reflexivity|by destruct (L && Completed G)|]. cbn [pc set_pc].
      destruct (L && Completed G); cbn [groups set_pc set_listed]; lia.
    + eapply Hgo; [reflexivity|by destruct (shutdown y)|]. cbn [pc set_pc]. lia.
    + eapply Hgo; [reflexivity..|]. cbn [pc set_pc]. lia.
  - destruct (wi_owner _ Hi g Hmu) as [G HG]. destruct (wi_groups _ Hi g G HG) as [_ _ _ _ H5].
    apply (monitor_lowers y g G Hi Hc HG); [apply H5 in Hmu; lia|by right].
  - assert (H1 : main_holds (pc y) = false) by (destruct (main_holds (pc y)); [by destruct Hh as [_ Hh]; discriminate Hh|done]).
    unfold SdhsMain, TgManagerWaitForAll, rank in *. rewrite ?Hmu in Hgo.
    destruct (pc y) as [| | | | | | | | | | |i| | | | |]; try done;
      try (eapply Hgo; [reflexivity..|]; cbn [pc set_pc set_freed groups set_mutex TgDestroyManager]; lia).
    destruct (Nat.eqb_spec (work y) 0) as [E|E]; [|apply Hsome; [done|lia]].
    eapply Hgo; [reflexivity..|]. cbn [pc set_pc groups]. lia.
Qed.

Lemma waiting_step m y y' : waiting (pc y) = true -> world_step m y = Some y' -> waiting (pc y') = true.
Proof.
  intros Hp. destruct m as [ok|g|g t|]; cbn [world_step].
  - unfold SdhsMain, TgManagerWaitForAll, TgDestroyManager. destruct (pc y); try done; intros E;
      repeat case_match; simplify_option_eq; done.
  - unfold TgMonitor. destruct (groups y !! g) as [G|]; [|done]. cbn [mbind option_bind]. intros E.
    repeat case_match; simplify_option_eq; done.
  - destruct (groups y !! g) as [G|]; [|done]. cbn [mbind option_bind]. destruct (decide _); [|done]. by intros [= <-].
  - by intros [= <-].
Qed.

Lemma reachable_step cfg m y y' : world_reachable cfg y -> world_step m y = Some y' -> world_reachable cfg y'.
Proof.
  intros [ms Hr] E. exists (ms ++ [m]). revert Hr. generalize (world_start cfg).
  induction ms as [|m0 ms IH]; intros y0; cbn [world_run app].
  - intros [= ->]. rewrite E. done.
  - destruct (world_step m0 y0) as [y1|]; [|done]. cbn [mbind option_bind]. apply IH.
Qed.

(** ** Properties *)

(** C15: The wait is complete.  When [TgManagerWaitForAll] has returned and nobody has
    asked to stop, every thread of every group has ended, every cleanup has run
    exactly once and no monitor will touch the manager, which is about to be
    freed, or has been. *)
Theorem tg_wait_complete (cfg : list (nat * bool)) (y : world) (g : nat) (G : tg_group) :
  world_reachable cfg y -> pc y = DFree \/ pc y = Done -> shutdown y = false -> groups y !! g = Some G ->
  all_finished G /\ Completed G = true /\ cleanups G = Nat.b2n (HasCleanup G) /\ Monitor G = MEnd.
Proof.
  intros Hr Hp Hs HG. pose proof (inv_reachable cfg y Hr) as Hi.
  assert (H8 : at_stage G = 8%nat).
  { apply (wi_waited _ Hi) with g; [by destruct Hp as [-> | ->]|done|done]. }
  destruct (wi_groups _ Hi g G HG) as [_ H2 H3 H4 _]. rewrite H8 in *.
  split_and!; [apply H2; lia|exact H4|apply H3; lia|].
  unfold at_stage in H8. by destruct (Monitor G).
Qed.

(** One group of one thread, from the start to the end. *)
Definition demo_moves : list move :=
  replicate 10 (MainMove true) ++ [Finish 0 0] ++ replicate 8 (MonitorMove 0) ++ replicate 7 (MainMove true).

Definition demo_end : world :=
  mkWorld [mkGroup [Finished] true MEnd true 1] [false] 1 None false true Done.

Lemma tg_wait_complete_witness :
  world_reachable [(1%nat, true)] demo_end /\ all_finished (mkGroup [Finished] true MEnd true 1).
Proof.
  assert (Hr : world_reachable [(1%nat, true)] demo_end) by (exists demo_moves; vm_compute; reflexivity).
  split; [exact Hr|].
  apply (tg_wait_complete [(1%nat, true)] demo_end 0 (mkGroup [Finished] true MEnd true 1) Hr); [by right|done|done].
Defined.

(** After a shutdown request the wait ends at once, and the manager is freed under
    the monitors: with one group of one thread, some run frees the manager while
    the group's monitor has yet to lock its mutex -- and the lock, the count and
    the signal are what the monitor does next. *)
Theorem tg_shutdown_use_after_free (cleanup : bool) :
  exists y y', world_reachable [(1%nat, cleanup)] y /\ freed y = true /\
    Monitor <$> groups y !! 0%nat = Some MLock /\
    world_run (replicate 5 (MonitorMove 0)) y = Some y' /\ completed_count y' = S (completed_count y).
Proof.
  set (y := mkWorld [mkGroup [Finished] cleanup MLock false (Nat.b2n cleanup)] [true] 1 None true true Done).
  exists y, (mkWorld [mkGroup [Finished] cleanup MEnd true (Nat.b2n cleanup)] [true] 2 None true true Done).
  split_and!; try reflexivity.
  exists (replicate 7 (MainMove true) ++ [Finish 0 0] ++ replicate 3 (MonitorMove 0) ++ [RequestShutdown]
          ++ replicate 5 (MainMove true)).
  by destruct cleanup.
Qed.

(** C16: Waiting comes to an end.  From every reachable state in which the groups have
    been started, moves of the threads, the monitors and the main thread -- no
    shutdown request among them -- lead to the end of the main thread: nothing is
    locked out or lost on the way. *)
Theorem tg_wait_terminates (cfg : list (nat * bool)) (y : world) :
  world_reachable cfg y -> waiting (pc y) = true ->
  exists ms y', Forall friendly ms /\ world_run ms y = Some y' /\ pc y' = Done.
Proof.
  remember (work y) as w eqn:Ew. revert y Ew.
  induction (lt_wf w) as [w _ IHw]. intros y Ew. remember (rank y) as r eqn:Er. revert y Ew Er.
  induction (lt_wf r) as [r _ IHr]. intros y -> -> Hr Hp.
  destruct (decide (pc y = Done)) as [Hd|Hd]; [by exists [], y|].
  destruct (waiting_lowers y (inv_reachable _ _ Hr) (created_reachable _ _ Hr) Hp Hd) as (m & y1 & Hm & E & Hl).
  assert (H1 : exists ms y', Forall friendly ms /\ world_run ms y1 = Some y' /\ pc y' = Done).
  { pose proof (reachable_step _ _ _ _ Hr E) as Hr1. pose proof (waiting_step _ _ _ Hp E) as Hp1.
    destruct Hl as [Hw|[Hw Hrk]]; [by eapply (IHw (work y1))|by eapply (IHr (rank y1))]. }
  destruct H1 as (ms & y' & Hms & Hrun & Hend). exists (m :: ms), y'. split_and!; [by constructor| |done].
  cbn [world_run]. by rewrite E.
Qed.

(** From the state in which the only group has just been started. *)
Lemma tg_wait_terminates_witness :
  exists y ms y', world_run (replicate 7 (MainMove true)) (world_start [(1%nat, true)]) = Some y /\
    pc y = WLock /\ Forall friendly ms /\ world_run ms y = Some y' /\ pc y' = Done.
Proof.
  set (y := mkWorld [mkGroup [Running] true (MJoin 0) false 0] [true] 0 None false false WLock).
  assert (Hy : world_run (replicate 7 (MainMove true)) (world_start [(1%nat, true)]) = Some y) by (vm_compute; reflexivity).
  destruct (tg_wait_terminates [(1%nat, true)] y) as (ms & y' & H1 & H2 & H3);
    [by exists (replicate 7 (MainMove true))|reflexivity|].
  exists y, ms, y'. split; [exact Hy|]. split; [reflexivity|]. split; [exact H1|]. split; [exact H2|exact H3].
Defined.

(** [TgCreateManager] on an arena, by what fits: a manager; NULL with the
    manager's bytes left on the arena; a fault. *)
Lemma TgCreateManager_arena (Groups : list Z) (n cap cur : Z) :
  0 <= cur <= cap -> cap < 2 ^ 63 -> 0 <= n < 2 ^ 59 ->
  TgCreateManager Groups n (OnArena cap cur) =
    if cur + 112 <=? cap then
      if cur + 112 + 8 * n <=? cap
      then Some (Some (mkManagerDesc n 0 (take (Z.to_nat n) Groups)), OnArena cap (cur + 112 + 8 * n))
      else Some (None, OnArena cap (cur + 112))
    else None.
Proof.
  intros Hc Hcap Hn. unfold TgCreateManager, push, sizeof_tg_manager, sizeof_pointer, Bump.step.
  rewrite !u64_small by lia. change (112 * 1) with 112.
  destruct (cur + 112 <=? cap) eqn:E1.
  - cbn [negb]. destruct (cur + 112 + 8 * n <=? cap) eqn:E2; done.
  - destruct (cur + 8 * n <=? cap); done.
Qed.
