(* ===== verification/Modbus.v ===== *)
(** * Modbus TCP: frames, reception and the Modbus thread's loop

    - [src/src/sdhs/CommProtocols/Modbus.c]: [MbReceiveTcpFrame] and
      [MbParseTcpFrame];
    - [src/src/sdhs/Common/Socket.c]: [SocketRecvWithTimeout];
    - [src/src/sdhs/DevUtils/ModbusTestServer.c]: the frames the test server
      builds and sends;
    - [src/src/sdhs/DataHandlers/ModbusWithPostgres/Modbus.c]: one round of the
      loop of [MbRun], its [reconnect] exit and the loop of
      [MbPipeThroughputTest].

    The network is the list of what the socket still has to deliver: chunks of
    bytes in arrival order, a timeout of [select], the end of the stream, an
    error.  [recv] returns at most one chunk, as TCP allows. *)

From S2P Require Import Prelude.
From S2P Require Import Pipe.
#[local] Open Scope Z_scope.

Definition MODBUS_TCP_HEADER_LEN : Z := 7.
Definition MODBUS_PDU_MAX_SIZE : Z := 253.
Definition MODBUS_TCP_FRAME_MAX_SIZE : Z := 260.

Definition byte (l : list Z) (i : nat) : Z := default 0 (l !! i).

(** ** The socket *)

Inductive net_event := Chunk (l : list Z) | TimedOut | Eof | NetError.
Definition net := list net_event.

(** [recv(fd, buf, n, 0)]: the result and the bytes stored. *)
Definition recv (n : Z) (w : net) : Z * list Z * net :=
  match w with
  | Chunk l :: w' =>
      if len l <=? n then (len l, l, w')
      else (n, take (Z.to_nat n) l, Chunk (drop (Z.to_nat n) l) :: w')
  | TimedOut :: w' | NetError :: w' => (-1, [], w')
  | Eof :: _ | [] => (0, [], w)
  end.

(** -2 when [select] times out. *)
Definition SocketRecvWithTimeout (Length : Z) (w : net) : Z * list Z * net :=
  match w with
  | TimedOut :: w' => (-2, [], w')
  | _ => recv Length w
  end.

(** ** Frames *)

(** [(u16)(hi << 8) | lo] *)
Definition be16 (hi lo : Z) : Z := Z.lor (u16 (Z.shiftl hi 8)) lo.

(** [Some (UnitId, DataLength, data)] where [data] is the suffix of the frame
    that the returned pointer designates; [None] for NULL. *)
Definition MbParseTcpFrame (Frame : list Z) : option (Z * Z * list Z) :=
  let Length := be16 (byte Frame 4) (byte Frame 5) in
  let UnitId := byte Frame 6 in
  let DataLength := byte Frame 8 in
  if negb (Length =? DataLength + 3) then None
  else Some (UnitId, DataLength, drop 9 Frame).

(** The loop [while(TotalBytesRead < Total)] over [recv]: [inl] is the early
    return.  Every turn stores at least one byte, so [fuel] = the bytes missing
    is enough. *)
Fixpoint recv_until (fuel : nat) (Total : Z) (Frame : list Z) (w : net) : (Z + list Z) * net :=
  if Total <=? len Frame then (inr Frame, w)
  else match fuel with
       | O => (inl 0, w)
       | S fuel =>
           let '(BytesRead, l, w) := recv (Total - len Frame) w in
           if BytesRead <=? 0 then (inl BytesRead, w)
           else recv_until fuel Total (Frame ++ l) w
       end.

Definition MbReceiveTcpFrame (BufferSize : Z) (w : net) : Z * list Z * net :=
  match recv_until 7 MODBUS_TCP_HEADER_LEN [] w with
  | (inl r, w) => (r, [], w)
  | (inr Frame, w) =>
      let Length := be16 (byte Frame 4) (byte Frame 5) in
      let TotalFrameSize := MODBUS_TCP_HEADER_LEN + Length in
      if BufferSize <? TotalFrameSize then (-1, Frame, w)
      else match recv_until (Z.to_nat Length) TotalFrameSize Frame w with
           | (inl r, w) => (r, Frame, w)
           | (inr Frame, w) => (len Frame, Frame, w)
           end
  end.

(** *** The test server *)

Definition GenerateModbusTcpFrame (TransactionId ProtocolId Length UnitId FunctionCode : Z)
    (Data : list Z) (DataLength : Z) : list Z :=
  [ Z.land (u8 (Z.shiftr TransactionId 8)) 255; Z.land (u8 TransactionId) 255;
    Z.land (u8 (Z.shiftr ProtocolId 8)) 255; Z.land (u8 ProtocolId) 255;
    Z.land (u8 (Z.shiftr Length 8)) 255; Z.land (u8 Length) 255;
    UnitId; u8 FunctionCode; u8 DataLength ] ++ take (Z.to_nat DataLength) Data.

(** [sizeof(shaft_power_data)]: six packed 8-byte fields. *)
Definition sizeof_shaft_power_data : Z := 48.

(** The bytes [SendModbusData] passes to [send], [None] when a size check
    fails; [SpData] is the packet. *)
Definition SendModbusData (SpData : list Z) : option (list Z) :=
  let DataLength := u16 sizeof_shaft_power_data in
  let Length := u16 (DataLength + 3) in
  if MODBUS_TCP_FRAME_MAX_SIZE - MODBUS_TCP_HEADER_LEN <? Length then None
  else if MODBUS_TCP_FRAME_MAX_SIZE <? 9 + DataLength then None
  else
    let ModbusFrame :=
      [0; 1; 0; 0; Z.land (u8 (Z.shiftr Length 8)) 255; Z.land (u8 Length) 255; 1; 16; u8 DataLength]
        ++ take (Z.to_nat DataLength) SpData in
    let padded := ModbusFrame ++ replicate (260 - length ModbusFrame) 0 in
    Some (take (Z.to_nat (MODBUS_TCP_HEADER_LEN + Length)) padded).

(** ** One round of [MbRun] *)

Inductive mb_outcome := MbContinue | MbReconnect | MbPacket (Data : list Z).

(** From the reception of the header to the checks on the parsed frame. *)
Definition MbRun_receive (PacketSize : Z) (w : net) : mb_outcome * net :=
  let '(HeaderResult, Header, w) := SocketRecvWithTimeout MODBUS_TCP_HEADER_LEN w in
  if HeaderResult =? -2 then (MbContinue, w)
  else if HeaderResult <=? 0 then (MbReconnect, w)
  else if negb (HeaderResult =? MODBUS_TCP_HEADER_LEN) then (MbReconnect, w)
  else
    let Length := be16 (byte Header 4) (byte Header 5) in
    if MODBUS_TCP_FRAME_MAX_SIZE - MODBUS_TCP_HEADER_LEN <? Length then (MbReconnect, w)
    else
      let '(DataResult, Rest, w) := SocketRecvWithTimeout Length w in
      if negb (DataResult =? Length) then (MbReconnect, w)
      else
        let Frame := Header ++ Rest ++ replicate (253 - length Rest) 0 in
        match MbParseTcpFrame Frame with
        | None => (MbReconnect, w)
        | Some (_, DataLength, Data) =>
            if negb (DataLength =? PacketSize) then (MbReconnect, w)
            else (MbPacket (take (Z.to_nat DataLength) Data), w)
        end.

Section MbRun.
(** Of the pipe: the number of buffers, the capacity of each, and the two sizes
    that the database thread fills in. *)
Variables BufCount BufCap BufferMaxFill PacketSize : Z.

(** [ArenaAlloc(CurBuf, n)] and the copy into it; a full arena returns NULL,
    which is not checked. *)
Definition buffer_store (CurBuf : Z) (Data : list Z) (s : pipe) : option pipe :=
  if len (buffer s CurBuf) + len Data <=? BufCap
  then Some (set_buffer CurBuf (buffer s CurBuf ++ Data) s) else None.

(** A round of the inner loop: what it decided, [CurBuf], the pipe and the
    network.  [None]: blocked in the pipe for ever, or a fault. *)
Definition MbRun_round (CurBuf : Z) (s : pipe) (w : net) : option (mb_outcome * Z * pipe * net) :=
  '(CurBuf, s) ←
    (if len (buffer s CurBuf) =? BufferMaxFill then
       '(b, s) ← run_alone (SdPipeGetWriteBuffer BufCount) s; b ← b; Some (b, s)
     else Some (CurBuf, s));
  match MbRun_receive PacketSize w with
  | (MbPacket Data, w) => s ← buffer_store CurBuf Data s; Some (MbPacket Data, CurBuf, s, w)
  | (o, w) => Some (o, CurBuf, s, w)
  end.

(** The code after [reconnect]: the pipe is flushed; [CurBuf] is not set. *)
Definition MbRun_reconnect (CurBuf : Z) (s : pipe) : option (Z * pipe) :=
  '(_, s) ← run_alone (SdPipeFlush BufCount) s; Some (CurBuf, s).

(** The loop of [MbPipeThroughputTest] on the rest of the test data: each turn
    fills the current buffer and asks for the next.  [fuel] turns at most. *)
Fixpoint MbPipeThroughputTest_loop (fuel : nat) (CurBuf : Z) (Data : list Z) (s : pipe)
    : option (Z * pipe) :=
  if 0 <? len Data then
    match fuel with
    | O => None
    | S fuel =>
        let Size := if len Data <? BufferMaxFill then len Data else BufferMaxFill in
        s ← buffer_store CurBuf (take (Z.to_nat Size) Data) s;
        '(b, s) ← run_alone (SdPipeGetWriteBuffer BufCount) s; b ← b;
        MbPipeThroughputTest_loop fuel b (drop (Z.to_nat BufferMaxFill) Data) s
    end
  else Some (CurBuf, s).
End MbRun.

(** ** Lemmas *)

Lemma be16_bytes hi lo : 0 <= hi < 256 -> 0 <= lo < 256 -> be16 hi lo = 256 * hi + lo.
Proof.
  intros Hhi Hlo. unfold be16. rewrite u16_small by (rewrite Z.shiftl_mul_pow2; lia).
  rewrite lor_shiftl by lia. lia.
Qed.

Lemma be16_of_u16 n :
  0 <= n < 2 ^ 16 -> be16 (Z.land (u8 (Z.shiftr n 8)) 255) (Z.land (u8 n) 255) = n.
Proof.
  intros Hn. change 255 with (Z.ones 8). rewrite !Z.land_ones by lia.
  rewrite Z.shiftr_div_pow2 by lia. unfold u8. rewrite !Z.mod_mod by lia.
  rewrite be16_bytes by (apply Z.mod_pos_bound; lia).
  change (2 ^ 8) with 256. rewrite (Z.mod_small (n / 256)) by (Z.div_mod_to_equations; lia).
  pose proof (Z.div_mod n 256 ltac:(lia)). lia.
Qed.

(** What the socket still holds when it is only data. *)
Definition stream (w : net) : list Z :=
  concat (map (fun e => match e with Chunk l => l | _ => [] end) w).

Definition flowing (w : net) : Prop := Forall (fun e => exists b l, e = Chunk (b :: l)) w.

Lemma recv_flowing n w :
  flowing w -> 0 < n <= len (stream w) ->
  exists l w', recv n w = (len l, l, w') /\ 0 < len l <= n /\ stream w = l ++ stream w' /\ flowing w'.
Proof.
  intros Hf Hn. destruct w as [|e w]; [unfold stream, len in Hn; cbn in Hn; lia|].
  apply Forall_cons in Hf as [(b & l & ->) Hf]. cbn [recv].
  destruct (Z.leb_spec (len (b :: l)) n).
  - exists (b :: l), w. by split_and!.
  - exists (take (Z.to_nat n) (b :: l)), (Chunk (drop (Z.to_nat n) (b :: l)) :: w).
    assert (Hl : len (take (Z.to_nat n) (b :: l)) = n) by (unfold len in *; rewrite length_take; lia).
    rewrite Hl. split_and!; [done|lia|lia| |].
    + unfold stream. cbn [map concat]. rewrite app_assoc. by rewrite take_drop.
    + constructor; [|done]. destruct (drop (Z.to_nat n) (b :: l)) as [|c l'] eqn:E; [|by eauto].
      apply (f_equal length) in E. rewrite length_drop in E. unfold len in *. cbn in *. lia.
Qed.

Lemma recv_until_flowing fuel Total Frame w :
  flowing w -> len Frame <= Total -> Total - len Frame <= len (stream w) ->
  (Z.to_nat (Total - len Frame) <= fuel)%nat ->
  exists l w', recv_until fuel Total Frame w = (inr (Frame ++ l), w') /\ len (Frame ++ l) = Total /\
               stream w = l ++ stream w' /\ flowing w'.
Proof.
  revert Frame w. induction fuel as [|fuel IH]; intros Frame w Hf Hle Hav Hfuel; cbn [recv_until].
  - rewrite (proj2 (Z.leb_le _ _)) by lia. exists [], w. rewrite app_nil_r. split_and!; (done || lia).
  - destruct (Z.leb_spec Total (len Frame)).
    + exists [], w. rewrite app_nil_r. split_and!; (done || lia).
    + destruct (recv_flowing (Total - len Frame) w Hf) as (l & w' & -> & Hl & Hst & Hf'); [lia|].
      rewrite (proj2 (Z.leb_gt _ _)) by lia. rewrite Hst, len_app in Hav.
      destruct (IH (Frame ++ l) w' Hf') as (l' & w'' & -> & HT & Hst' & Hf'');
        rewrite ?len_app; [lia|lia|lia|].
      exists (l ++ l'), w''. rewrite app_assoc. split_and!; [done|done| |done].
      by rewrite Hst, Hst', app_assoc.
Qed.

Lemma byte_app l l' i : (i < length l)%nat -> byte (l ++ l') i = byte l i.
Proof. intros. unfold byte. by rewrite lookup_app_l. Qed.

Lemma MbReceiveTcpFrame_flowing (BufferSize : Z) (w : net) (frame rest : list Z) :
  flowing w -> stream w = frame ++ rest ->
  7 <= len frame -> len frame = 7 + be16 (byte frame 4) (byte frame 5) -> len frame <= BufferSize ->
  exists w', MbReceiveTcpFrame BufferSize w = (len frame, frame, w') /\ stream w' = rest /\ flowing w'.
Proof.
  intros Hf Hst H7 Hlen Hbuf. unfold MbReceiveTcpFrame, MODBUS_TCP_HEADER_LEN.
  destruct (recv_until_flowing 7 7 [] w Hf) as (h & w1 & -> & Hh & Hst1 & Hf1);
    rewrite ?len_nil; [lia|rewrite Hst, len_app; pose proof (len_nonneg rest); lia|lia|].
  cbn [app] in *. rewrite Hst in Hst1.
  assert (E : exists t, frame = h ++ t /\ t ++ rest = stream w1).
  { exists (drop (length h) frame).
    assert (Eh : h = take (length h) frame).
    { apply (f_equal (take (length h))) in Hst1. rewrite take_app_length in Hst1.
      rewrite take_app_le in Hst1; [done|]. unfold len in *. lia. }
    split; [rewrite Eh at 1; symmetry; apply take_drop|].
    apply (f_equal (drop (length h))) in Hst1. rewrite drop_app_length in Hst1.
    rewrite <- Hst1. symmetry. apply drop_app_le. unfold len in *. lia. }
  destruct E as (t & -> & Ht). rewrite !byte_app in Hlen by (unfold len in Hh; lia).
  set (L := be16 (byte h 4) (byte h 5)) in *. rewrite Hlen in Hbuf.
  rewrite (proj2 (Z.ltb_ge _ _)) by lia. rewrite len_app in Hlen.
  destruct (recv_until_flowing (Z.to_nat L) (7 + L) h w1 Hf1) as (t' & w2 & -> & HT & Hst2 & Hf2);
    [pose proof (len_nonneg t); lia|rewrite <- Ht, len_app; pose proof (len_nonneg rest); lia|lia|].
  rewrite <- Ht in Hst2. rewrite len_app in HT.
  apply app_inj_1 in Hst2 as [<- ->]; [|unfold len in *; lia].
  exists w2. done.
Qed.

(** [recv] stores what it says. *)
Lemma recv_len n w r l w' : 0 <= n -> recv n w = (r, l, w') -> 0 <= r -> len l = r.
Proof.
  intros Hn H Hr. destruct w as [|[c| | |] w]; cbn in H; simplify_eq; try done; try lia.
  destruct (Z.leb_spec (len c) n); simplify_eq; [done|].
  unfold len in *. rewrite length_take. lia.
Qed.

Lemma SocketRecv_len n w r l w' :
  0 <= n -> SocketRecvWithTimeout n w = (r, l, w') -> 0 <= r -> len l = r.
Proof.
  intros Hn H Hr. unfold SocketRecvWithTimeout in H.
  destruct w as [|[c| | |] w]; try (eapply recv_len; [|eassumption|]; eassumption); simplify_eq; lia.
Qed.

(** A packet that the round accepts has the size that the pipe expects. *)
Lemma MbRun_receive_packet PacketSize w Data w' :
  0 < PacketSize -> MbRun_receive PacketSize w = (MbPacket Data, w') -> len Data = PacketSize.
Proof.
  intros HP H. unfold MbRun_receive, MODBUS_TCP_HEADER_LEN, MODBUS_TCP_FRAME_MAX_SIZE in H.
  destruct (SocketRecvWithTimeout 7 w) as [[hr h] w1] eqn:Eh.
  destruct (Z.eqb_spec hr (-2)); [done|]. destruct (Z.leb_spec hr 0); [done|].
  destruct (Z.eqb_spec hr 7) as [->|]; [cbn [negb] in H|done].
  apply SocketRecv_len in Eh; [|lia|lia].
  set (L := be16 (byte h 4) (byte h 5)) in *.
  destruct (Z.ltb_spec (260 - 7) L); [done|].
  destruct (SocketRecvWithTimeout L w1) as [[dr r] w2] eqn:Er.
  destruct (Z.eqb_spec dr L) as [->|]; [cbn [negb] in H|done].
  set (F := h ++ r ++ _) in H. unfold MbParseTcpFrame in H.
  replace (be16 (byte F 4) (byte F 5)) with L in H
    by (unfold L, F; rewrite !byte_app by (unfold len in Eh; lia); done).
  destruct (Z.eqb_spec L (byte F 8 + 3)); [cbn [negb] in H|done].
  destruct (Z.eqb_spec (byte F 8) PacketSize); [cbn [negb] in H|done]. simplify_eq.
  apply SocketRecv_len in Er; [|lia|lia].
  unfold len. rewrite length_take, length_drop. subst F. rewrite !length_app, length_replicate.
  unfold len in *. lia.
Qed.

(** ** Properties *)

(** Round trip of a frame.  What [GenerateModbusTcpFrame] builds is parsed
    back, unit, length and data, exactly when the length field it was given is
    the data length plus 3, as the frame's documentation demands; any other
    length field makes the parser return NULL. *)
Theorem modbus_frame_roundtrip (tid pid Length unit fc : Z) (Data : list Z) :
  0 <= Length < 2 ^ 16 -> len Data < 256 ->
  MbParseTcpFrame (GenerateModbusTcpFrame tid pid Length unit fc Data (len Data)) =
  if Length =? len Data + 3 then Some (unit, len Data, Data) else None.
Proof.
  intros HL Hd. pose proof (len_nonneg Data). unfold GenerateModbusTcpFrame. rewrite take_len.
  unfold MbParseTcpFrame. rewrite !byte_app by (cbn; lia).
  unfold byte. cbn -[Z.land u8 be16 Z.shiftr]. rewrite be16_of_u16 by done. rewrite u8_small by lia.
  by destruct (Length =? len Data + 3).
Qed.

Lemma modbus_frame_roundtrip_witness :
  MbParseTcpFrame (GenerateModbusTcpFrame 1 0 5 17 3 [7; 8] (len [7; 8])) = Some (17, 2, [7; 8]).
Proof. rewrite (modbus_frame_roundtrip 1 0 5 17 3 [7; 8]); [reflexivity|lia|reflexivity]. Defined.

(** Reassembly.  However the network cuts a stream into chunks, and whatever
    follows in it, [MbReceiveTcpFrame] returns precisely the frame its header
    announces and leaves the rest of the stream; it terminates within one turn
    of its loops per byte. *)
Theorem MbReceiveTcpFrame_reassembles (BufferSize : Z) (w : net) (frame rest : list Z) :
  flowing w -> stream w = frame ++ rest ->
  7 <= len frame -> len frame = 7 + be16 (byte frame 4) (byte frame 5) -> len frame <= BufferSize ->
  exists w', MbReceiveTcpFrame BufferSize w = (len frame, frame, w') /\ stream w' = rest /\ flowing w'.
Proof. apply MbReceiveTcpFrame_flowing. Qed.

Lemma MbReceiveTcpFrame_reassembles_witness :
  exists w', MbReceiveTcpFrame 260 [Chunk [0; 1; 0; 0]; Chunk [0; 2; 1; 3]; Chunk [9; 0; 2]] =
               (9, [0; 1; 0; 0; 0; 2; 1; 3; 9], w') /\ stream w' = [0; 2].
Proof.
  destruct (MbReceiveTcpFrame_reassembles 260 [Chunk [0; 1; 0; 0]; Chunk [0; 2; 1; 3]; Chunk [9; 0; 2]]
              [0; 1; 0; 0; 0; 2; 1; 3; 9] [0; 2]) as (w' & S & H & _).
  - repeat constructor; eauto.
  - reflexivity.
  - by vm_compute.
  - reflexivity.
  - by vm_compute.
  - exists w'. split; [exact S|exact H].
Defined.

(** The frame of the test server, for a packet [SpData]. *)
Definition server_frame (SpData : list Z) : list Z :=
  [0; 1; 0; 0; 0; 51; 1; 16; 48] ++ SpData ++ [0].

Lemma SendModbusData_frame SpData :
  len SpData = 48 -> SendModbusData SpData = Some (server_frame SpData).
Proof.
  intros Hl. assert (Hn : length SpData = 48%nat) by (unfold len in Hl; lia).
  unfold SendModbusData, sizeof_shaft_power_data. change (u16 48) with 48. change (u16 (48 + 3)) with 51.
  cbn [Z.ltb Z.sub]. change (Z.to_nat 48) with 48%nat. rewrite (take_ge SpData) by lia.
  set (F := [0; 1; 0; 0; _; _; 1; 16; u8 48] ++ SpData).
  assert (HF : length F = 57%nat) by (unfold F; rewrite length_app, Hn; done).
  rewrite HF. change (replicate (260 - 57) 0) with ([0] ++ replicate 202 0). rewrite app_assoc.
  change (F ++ [0]) with (server_frame SpData).
  apply (f_equal Some), take_app_length'. unfold server_frame. rewrite !length_app, Hn. done.
Qed.

Lemma server_frame_len SpData : len SpData = 48 -> len (server_frame SpData) = 58.
Proof. intros H. unfold server_frame. rewrite !len_app, H. done. Qed.

Lemma byte_take l n i : (i < n)%nat -> byte (take n l) i = byte l i.
Proof. intros. unfold byte. by rewrite lookup_take_lt. Qed.

(** Header and body received in full: the packet is accepted. *)
Lemma MbRun_receive_whole SpData w w1 w' :
  len SpData = 48 ->
  SocketRecvWithTimeout 7 w = (7, take 7 (server_frame SpData), w1) ->
  SocketRecvWithTimeout 51 w1 = (51, drop 7 (server_frame SpData), w') ->
  MbRun_receive 48 w = (MbPacket SpData, w').
Proof.
  intros Hl H1 H2. assert (Hn : length SpData = 48%nat) by (unfold len in Hl; lia).
  unfold MbRun_receive. change MODBUS_TCP_HEADER_LEN with 7. rewrite H1.
  set (L := be16 (byte (take 7 _) 4) _). change L with 51. clear L.
  change (MODBUS_TCP_FRAME_MAX_SIZE - 7 <? 51) with false. cbv beta iota delta [negb Z.eqb Z.leb Z.compare].
  cbn [Pos.eqb]. rewrite H2. cbn [Pos.eqb].
  rewrite app_assoc, take_drop.
  assert (Hd : length (drop 7 (server_frame SpData)) = 51%nat)
    by (rewrite length_drop; unfold server_frame; rewrite !length_app, Hn; done).
  rewrite Hd. unfold server_frame. rewrite <- app_assoc. unfold MbParseTcpFrame.
  rewrite !byte_app by (cbn; lia).
  change (be16 (byte _ 4) _) with 51. change (byte _ 8) with 48. change (byte _ 6) with 1.
  change (negb (51 =? 48 + 3)) with false. change (negb (48 =? 48)) with false. cbv iota.
  do 2 f_equal. rewrite drop_app_length'; [|done]. rewrite <- app_assoc.
  by apply take_app_length'.
Qed.

(** The early exits of a round on a short read. *)
Lemma MbRun_receive_short_header n r h w w1 :
  SocketRecvWithTimeout 7 w = (r, h, w1) -> 0 < r < 7 -> MbRun_receive n w = (MbReconnect, w1).
Proof.
  intros H Hr. unfold MbRun_receive. change MODBUS_TCP_HEADER_LEN with 7. rewrite H.
  rewrite (proj2 (Z.eqb_neq r (-2))), (proj2 (Z.leb_gt _ _)), (proj2 (Z.eqb_neq r 7)) by lia. done.
Qed.

Lemma MbRun_receive_short_body n r h l w w1 w2 :
  SocketRecvWithTimeout 7 w = (7, h, w1) -> be16 (byte h 4) (byte h 5) <= 253 ->
  SocketRecvWithTimeout (be16 (byte h 4) (byte h 5)) w1 = (r, l, w2) ->
  r < be16 (byte h 4) (byte h 5) -> MbRun_receive n w = (MbReconnect, w2).
Proof.
  intros H1 HL H2 Hr. unfold MbRun_receive. change MODBUS_TCP_HEADER_LEN with 7. rewrite H1.
  set (L := be16 (byte h 4) _) in *. change (MODBUS_TCP_FRAME_MAX_SIZE - 7) with 253.
  rewrite (proj2 (Z.ltb_ge _ _)) by lia. rewrite H2.
  rewrite (proj2 (Z.eqb_neq r L)) by lia. done.
Qed.

(** The server's packets.  The frame that [SendModbusData] sends arrives cut
    in two by TCP.  Cut between header and body, [MbRun] accepts it and stores
    exactly the packet; cut anywhere else it gives up the connection, although
    [MbReceiveTcpFrame] of the protocol library reassembles the frame from the
    same network. *)
Theorem MbRun_receive_sent (SpData p1 p2 : list Z) (w : net) :
  len SpData = 48 -> SendModbusData SpData = Some (p1 ++ p2) -> 0 < len p1 < 58 -> flowing w ->
  let w0 := Chunk p1 :: Chunk p2 :: w in
  (if len p1 =? 7 then MbRun_receive 48 w0 = (MbPacket SpData, w)
   else exists w', MbRun_receive 48 w0 = (MbReconnect, w')) /\
  exists w', MbReceiveTcpFrame 260 w0 = (58, p1 ++ p2, w') /\ stream w' = stream w.
Proof.
  intros Hl Hs Hp Hf w0. rewrite SendModbusData_frame in Hs by done. simplify_eq.
  pose proof (server_frame_len SpData Hl) as Hlen. rewrite Hs, len_app in Hlen.
  assert (H2 : len p2 = 58 - len p1) by lia. split.
  - assert (Hb : (7 <= length p1)%nat -> be16 (byte p1 4) (byte p1 5) = 51).
    { intros H7. rewrite <- !(byte_app p1 p2) by lia. by rewrite <- Hs. }
    unfold w0. destruct (Z.eqb_spec (len p1) 7) as [E|E]; [|destruct (Z.lt_ge_cases (len p1) 7)].
    + apply (MbRun_receive_whole _ _ (Chunk p2 :: w)); [done| |]; rewrite Hs; cbn.
      * rewrite E. cbn. rewrite (take_app_length' p1) by (unfold len in E; lia). done.
      * rewrite H2, E. cbn. rewrite (drop_app_length' p1) by (unfold len in E; lia). done.
    + eexists. apply (MbRun_receive_short_header _ (len p1) p1); [|lia].
      cbn. rewrite (proj2 (Z.leb_le _ _)) by lia. done.
    + assert (Ht : be16 (byte (take 7 p1) 4) (byte (take 7 p1) 5) = 51)
        by (rewrite !byte_take by lia; apply Hb; unfold len in *; lia).
      eexists. apply (MbRun_receive_short_body 48 (len p1 - 7) (take 7 p1) (drop 7 p1) _
                        (Chunk (drop 7 p1) :: Chunk p2 :: w) (Chunk p2 :: w)); rewrite ?Ht; [|lia| |lia].
      * unfold SocketRecvWithTimeout, recv. by rewrite (proj2 (Z.leb_gt _ _)) by lia.
      * assert (Hd : len (drop 7 p1) = len p1 - 7) by (unfold len in *; rewrite length_drop; lia).
        unfold SocketRecvWithTimeout, recv. rewrite Hd. by rewrite (proj2 (Z.leb_le _ _)) by lia.
  - assert (E58 : len (p1 ++ p2) = 58) by (rewrite len_app; lia).
    destruct (MbReceiveTcpFrame_flowing 260 w0 (p1 ++ p2) (stream w)) as (w' & -> & Hst & _).
    + destruct p1, p2; unfold len in *; cbn in *; try lia. repeat constructor; eauto.
    + unfold stream, w0. cbn. by rewrite app_assoc.
    + lia.
    + rewrite E58, <- Hs. done.
    + lia.
    + rewrite E58. by exists w'.
Qed.

Lemma MbRun_receive_sent_witness :
  MbRun_receive 48 [Chunk [0; 1; 0; 0; 0; 51; 1]; Chunk ([16; 48] ++ replicate 48 5 ++ [0])] =
    (MbPacket (replicate 48 5), []).
Proof.
  destruct (MbRun_receive_sent (replicate 48 5) [0; 1; 0; 0; 0; 51; 1] ([16; 48] ++ replicate 48 5 ++ [0]) [])
    as [H _].
  - reflexivity.
  - vm_compute; reflexivity.
  - vm_compute; split; reflexivity.
  - constructor.
  - exact H.
Defined.

(** *** The pipe as the loop uses it *)

Record writer_ok (BufCount BufferMaxFill PacketSize CurBuf : Z) (s : pipe) : Prop := {
  wk_cur : CurBuf = write_idx s;
  wk_range : 0 <= CurBuf < BufCount;
  wk_buffers : length (buffers s) = Z.to_nat BufCount;
  wk_packets : (PacketSize | len (buffer s CurBuf));
  wk_fill : len (buffer s CurBuf) <= BufferMaxFill;
  wk_credit : 0 <= write_event s;
}.

Lemma buffer_set_eq (b : Z) (l : list Z) (s : pipe) :
  (Z.to_nat b < length (buffers s))%nat -> buffer (set_buffer b l s) b = l.
Proof. intros H. unfold buffer, set_buffer. cbn. by rewrite list_lookup_insert_eq. Qed.

Lemma run_GetWriteBuffer BufCount s :
  0 <= write_event s ->
  run_alone (SdPipeGetWriteBuffer BufCount) s =
  if write_event s =? 0 then None
  else let nx := u32 (write_idx s + 1) mod u32 BufCount in Some (Some nx, after_acquire nx s).
Proof.
  intros He. cbn. destruct (Z.eqb_spec (write_event s) 0); [done|]. cbn.
  by rewrite (proj2 (Z.eqb_neq _ _)) by lia.
Qed.

Lemma writer_ok_acquire BufCount BufferMaxFill PacketSize CurBuf s :
  0 < BufCount < 2 ^ 32 -> 0 <= BufferMaxFill ->
  writer_ok BufCount BufferMaxFill PacketSize CurBuf s ->
  let nx := u32 (write_idx s + 1) mod u32 BufCount in
  writer_ok BufCount BufferMaxFill PacketSize nx (after_acquire nx s) /\
  buffer (after_acquire nx s) nx = [].
Proof.
  intros HB HM [-> Hr Hb _ _ _] nx.
  assert (Hnx : 0 <= nx < BufCount).
  { unfold nx. rewrite (u32_small BufCount) by lia. apply Z.mod_pos_bound. lia. }
  assert (E : buffer (after_acquire nx s) nx = [])
    by (unfold after_acquire; apply buffer_set_eq; cbn; lia).
  split; [|done]. constructor; rewrite ?E, ?len_nil; cbn; try done; try lia.
  - by rewrite length_insert.
  - apply Z.divide_0_r.
Qed.

Lemma writer_ok_store BufCount BufCap BufferMaxFill PacketSize CurBuf s Data :
  0 < PacketSize -> (PacketSize | BufferMaxFill) -> BufferMaxFill <= BufCap ->
  writer_ok BufCount BufferMaxFill PacketSize CurBuf s ->
  len (buffer s CurBuf) <> BufferMaxFill -> len Data = PacketSize ->
  exists s', buffer_store BufCap CurBuf Data s = Some s' /\
             writer_ok BufCount BufferMaxFill PacketSize CurBuf s' /\
             buffer s' CurBuf = buffer s CurBuf ++ Data.
Proof.
  intros HP [m Hm] HC [-> Hr Hb [k Hk] Hf He] Hne Hd. unfold buffer_store.
  assert (k < m) by nia.
  rewrite (proj2 (Z.leb_le _ _)) by nia.
  set (s' := set_buffer _ _ _).
  assert (E : buffer s' (write_idx s) = buffer s (write_idx s) ++ Data)
    by (apply buffer_set_eq; lia).
  exists s'. split_and!; try done. constructor; rewrite ?E, ?len_app; cbn; try done; try lia.
  - by rewrite length_insert.
  - exists (k + 1). lia.
  - nia.
Qed.

(** A round of the loop of [MbRun].  It keeps the invariant that the current
    buffer is the one of the write index, holds whole packets only and never
    more than [BufferMaxFill]; it adds to that buffer (emptied first if it was
    full) one packet, or nothing; and it blocks only if the buffer is full and
    the reader has given no credit -- in particular the unchecked [ArenaAlloc]
    never returns NULL. *)
Theorem MbRun_round_invariant (BufCount BufCap BufferMaxFill PacketSize CurBuf : Z) (s : pipe) (w : net) :
  0 < BufCount < 2 ^ 32 -> 0 < PacketSize -> (PacketSize | BufferMaxFill) ->
  0 < BufferMaxFill <= BufCap -> writer_ok BufCount BufferMaxFill PacketSize CurBuf s ->
  let full := len (buffer s CurBuf) =? BufferMaxFill in
  match MbRun_round BufCount BufCap BufferMaxFill PacketSize CurBuf s w with
  | None => full = true /\ write_event s = 0
  | Some (o, CurBuf', s', _) =>
      writer_ok BufCount BufferMaxFill PacketSize CurBuf' s' /\
      buffer s' CurBuf' = (if full then [] else buffer s CurBuf) ++
                          match o with MbPacket Data => Data | _ => [] end /\
      match o with MbPacket Data => len Data = PacketSize | _ => True end
  end.
Proof.
  intros HB HP HD HC Hw full. unfold MbRun_round. fold full.
  assert (Hround : forall b s1, writer_ok BufCount BufferMaxFill PacketSize b s1 ->
    len (buffer s1 b) <> BufferMaxFill ->
    match (match MbRun_receive PacketSize w with
           | (MbPacket Data, w) => s' ← buffer_store BufCap b Data s1; Some (MbPacket Data, b, s', w)
           | (o, w) => Some (o, b, s1, w)
           end) with
    | None => False
    | Some (o, b', s', _) =>
        writer_ok BufCount BufferMaxFill PacketSize b' s' /\
        buffer s' b' = buffer s1 b ++ match o with MbPacket Data => Data | _ => [] end /\
        match o with MbPacket Data => len Data = PacketSize | _ => True end
    end).
  { intros b s1 Hw1 Hne. destruct (MbRun_receive PacketSize w) as [[| |Data] w'] eqn:E;
      rewrite ?app_nil_r; try done.
    apply MbRun_receive_packet in E; [|done].
    destruct (writer_ok_store BufCount BufCap BufferMaxFill PacketSize b s1 Data) as (s' & -> & ? & ?);
      try done. lia. }
  destruct full eqn:Ef; unfold full in Ef.
  - rewrite run_GetWriteBuffer by apply Hw. destruct (Z.eqb_spec (write_event s) 0); [done|].
    assert (Hle : 0 <= BufferMaxFill) by lia.
    destruct (writer_ok_acquire _ _ _ _ _ HB Hle Hw) as [Hw' E].
    cbn [mbind option_bind]. set (nx := _ mod _) in *.
    specialize (Hround nx (after_acquire nx s) Hw'). rewrite E in Hround. rewrite len_nil in Hround.
    specialize (Hround ltac:(lia)). cbv beta iota zeta.
    destruct (MbRun_receive PacketSize w) as [[| |Data] w']; try done;
      destruct (buffer_store _ _ _ _); done.
  - apply Z.eqb_neq in Ef. specialize (Hround CurBuf s Hw Ef). cbn [mbind option_bind].
    destruct (MbRun_receive PacketSize w) as [[| |Data] w']; try done;
      destruct (buffer_store _ _ _ _); done.
Qed.

Lemma MbRun_round_invariant_witness :
  exists s', MbRun_round 3 96 96 48 0 (pipe_created 3) [Chunk (server_frame (replicate 48 5))] =
               Some (MbPacket (replicate 48 5), 0, s', []) /\
             writer_ok 3 96 48 0 s'.
Proof.
  assert (W : writer_ok 3 96 48 0 (pipe_created 3)).
  { constructor; try (vm_compute; reflexivity); try (vm_compute; split; congruence).
    exists 0. reflexivity. vm_compute; congruence. vm_compute; congruence. }
  pose proof (MbRun_round_invariant 3 96 96 48 0 (pipe_created 3) [Chunk (server_frame (replicate 48 5))]
                ltac:(lia) ltac:(lia) ltac:(by exists 2) ltac:(lia) W) as H.
  eexists. split; [vm_compute; reflexivity|]. vm_compute in H. exact (proj1 H).
Defined.

Lemma buffer_set_other (b b' : Z) (l : list Z) (s : pipe) :
  0 <= b -> 0 <= b' -> b <> b' -> buffer (set_buffer b l s) b' = buffer s b'.
Proof. intros. unfold buffer, set_buffer. cbn. rewrite list_lookup_insert_ne by lia. done. Qed.

(** The stale current buffer after a reconnection.  When the connection is
    lost with packets in the current buffer, [SdPipeFlush] hands that buffer to
    the reader and moves the write index, but [CurBuf] still designates it: the
    next packet is appended to the buffer the reader now owns, and the new
    current buffer stays empty. *)
Theorem MbRun_reconnect_stale (BufCount BufCap BufferMaxFill PacketSize : Z) (s : pipe)
    (Data : list Z) (w w' : net) :
  2 <= BufCount < 2 ^ 32 -> writer_ok BufCount BufferMaxFill PacketSize (write_idx s) s ->
  0 < len (buffer s (write_idx s)) < BufferMaxFill -> 0 < write_event s ->
  MbRun_receive PacketSize w = (MbPacket Data, w') ->
  len (buffer s (write_idx s)) + len Data <= BufCap ->
  exists s1 s2,
    MbRun_reconnect BufCount (write_idx s) s = Some (write_idx s, s1) /\
    read_event s1 = read_event s + 1 /\ write_idx s1 <> write_idx s /\
    MbRun_round BufCount BufCap BufferMaxFill PacketSize (write_idx s) s1 w =
      Some (MbPacket Data, write_idx s, s2, w') /\
    buffer s2 (write_idx s) = buffer s (write_idx s) ++ Data /\ buffer s2 (write_idx s2) = [].
Proof.
  intros HB [_ Hr Hb _ _ _] Hl He Hrec HC. set (cur := write_idx s) in *.
  set (nx := u32 (cur + 1) mod u32 BufCount).
  assert (Hnx : 0 <= nx < BufCount /\ nx <> cur).
  { unfold nx. rewrite !u32_small by lia. destruct (Z.eq_dec (cur + 1) BufCount) as [E|].
    - rewrite E, Z.mod_same by lia. lia.
    - rewrite Z.mod_small by lia. lia. }
  assert (E1 : buffer (after_acquire nx s) cur = buffer s cur)
    by (unfold after_acquire; rewrite buffer_set_other by lia; done).
  assert (E2 : buffer (after_acquire nx s) nx = []) by (apply buffer_set_eq; cbn; lia).
  exists (after_acquire nx s), (set_buffer cur (buffer s cur ++ Data) (after_acquire nx s)).
  split_and!; try done; try lia.
  - unfold MbRun_reconnect. cbn. fold cur. rewrite (proj2 (Z.ltb_lt _ _)) by (unfold len in Hl; lia).
    cbn. rewrite (proj2 (Z.eqb_neq (write_event s) 0)) by lia. cbn.
    rewrite (proj2 (Z.eqb_neq (write_event s) (-1))) by lia. done.
  - apply Hnx.
  - unfold MbRun_round. rewrite E1, (proj2 (Z.eqb_neq _ _)) by lia. cbn [mbind option_bind].
    rewrite Hrec. unfold buffer_store. rewrite E1, (proj2 (Z.leb_le _ _)) by lia. done.
  - apply buffer_set_eq. cbn. rewrite length_insert. lia.
  - cbn [write_idx set_buffer after_acquire]. rewrite buffer_set_other by lia. done.
Qed.

Lemma MbRun_reconnect_stale_witness :
  exists s1 s2, MbRun_reconnect 3 0 (mkPipe 0 0 0 0 2 [replicate 48 1; []; []]) = Some (0, s1) /\
    MbRun_round 3 96 96 48 0 s1 [Chunk (server_frame (replicate 48 5))] =
      Some (MbPacket (replicate 48 5), 0, s2, []) /\
    buffer s2 0 = replicate 48 1 ++ replicate 48 5.
Proof.
  destruct (MbRun_reconnect_stale 3 96 96 48 (mkPipe 0 0 0 0 2 [replicate 48 1; []; []])
              (replicate 48 5) [Chunk (server_frame (replicate 48 5))] [])
    as (s1 & s2 & H1 & _ & _ & H2 & H3 & _).
  - lia.
  - constructor; [reflexivity|cbn; lia|reflexivity|by exists 1|by vm_compute|cbn; lia].
  - split; reflexivity.
  - reflexivity.
  - vm_compute; reflexivity.
  - by vm_compute.
  - exists s1, s2. split; [exact H1|split; [exact H2|exact H3]].
Defined.
