(* ===== verification/Postgres.v ===== *)
(** * PostgreSQL: tables, binary COPY and the database thread's loop

    - [src/src/sdhs/DatabaseSystems/Postgres.c]: the timestamp conversions,
      [GetTableMetadata], [PgPrepareCtx], [Write2/4/8], [WriteTimestamp] and
      [PgInsertData];
    - [src/src/sdhs/DataHandlers/ModbusWithPostgres/Postgres.c]: the main loop
      of [PgRun].

    libpq is the class [Libpq] of the calls the code makes; what it relies on of
    a PostgreSQL server is the class [PgServer], whose laws the transaction
    theorem uses and which [Demo.server] implements.  JSON values are those of
    [Json].  The buffer of the conversion is the list of
    the bytes written so far, with the number of bytes that the scratch arena
    still has behind it: a write beyond these is [None]. *)

From S2P Require Import Prelude.
From S2P Require Import Memory.
From S2P Require Import LmDefs.
From S2P Require Import Json.
From Stdlib Require Import Strings.String.
#[local] Open Scope Z_scope.
#[local] Abbreviation length := List.length.
#[local] Abbreviation concat := List.concat.

(** ** Timestamps *)

Definition POSTGRES_EPOCH_JDATE : Z := 2451545.
Definition UNIX_EPOCH_JDATE : Z := 2440588.
Definition USECS_PER_DAY : Z := 86400000000.
Definition USECS_PER_SECOND : Z := 1000000.
Definition NSECS_PER_USEC : Z := 1000.

(** 64-bit signed arithmetic, as two's complement. *)
Definition UnixToPgTimestamp (UnixTime : Z) : Z :=
  s64 (UnixTime * USECS_PER_SECOND + (UNIX_EPOCH_JDATE - POSTGRES_EPOCH_JDATE) * USECS_PER_DAY).

Definition TimevalToPgTimestamp (tv_sec tv_usec : Z) : Z :=
  s64 (tv_sec * USECS_PER_SECOND + tv_usec
       + (UNIX_EPOCH_JDATE - POSTGRES_EPOCH_JDATE) * USECS_PER_DAY).

Definition TimespecToPgTimestamp (tv_sec tv_nsec : Z) : Z :=
  s64 (tv_sec * USECS_PER_SECOND + Z.quot tv_nsec NSECS_PER_USEC
       + (UNIX_EPOCH_JDATE - POSTGRES_EPOCH_JDATE) * USECS_PER_DAY).

(** ** Network byte order *)

(** [htobe16], [htobe32], [htobe64] on a little-endian machine. *)
Definition htobe (n : nat) (v : Z) : Z := le_decode (rev (le_encode n v)).

(** [Write2], [Write4], [Write8]: the bytes stored at [To]; [None] when [From]
    has fewer than [n]. *)
Definition WriteN (n : nat) (From : list Z) : option (list Z) :=
  if (length From <? n)%nat then None
  else Some (le_encode n (htobe n (le_decode (take n From)))).

Definition Write2 := WriteN 2.
Definition Write4 := WriteN 4.
Definition Write8 := WriteN 8.

Definition WriteTimestamp (From : list Z) : option (list Z) :=
  if (length From <? 8)%nat then None
  else
    let UTime := s64 (le_decode (take 8 From)) in
    let Val := UnixToPgTimestamp UTime in
    Some (le_encode 8 (htobe 8 (u64 Val))).

(** ** Tables *)

Definition PG_INT8 : Z := 20.
Definition PG_INT2 : Z := 21.
Definition PG_INT4 : Z := 23.
Definition PG_FLOAT4 : Z := 700.
Definition PG_FLOAT8 : Z := 701.
Definition PG_TIMESTAMP : Z := 1114.

Record pg_col_metadata := mkCol {
  TypeOid : Z;
  TypeLength : Z;
  Offset : Z;
  TypeModifier : Z;
  ColumnName : list Z;
  IsPrimaryKey : bool;
  IsAutoIncrement : bool;
}.

Record pg_table_info := mkTable {
  ColCount : Z;
  ColCountNoAutoIncrements : Z;
  RowSize : Z;
  TableName : list Z;
  CopyCommand : list Z;
  ColMetadata : list pg_col_metadata;
}.

(** [sizeof(pg_col_metadata)] *)
Definition sizeof_pg_col_metadata : Z := 32.

(** [atoi]: blanks, a sign, digits; the value as an [int]. *)
Definition atoi (s : list Z) : Z :=
  match skip_space s with
  | 45 :: s => s32 (- (scan_digits 0 s).1)
  | 43 :: s => s32 (scan_digits 0 s).1
  | s => s32 (scan_digits 0 s).1
  end.

(** ** libpq *)

(** The statuses that the code tells apart. *)
Inductive ExecStatusType := PGRES_COMMAND_OK | PGRES_TUPLES_OK | PGRES_COPY_IN | PGRES_OTHER.
#[export] Instance ExecStatusType_eq_dec : EqDecision ExecStatusType.
Proof. solve_decision. Defined.

(** A result: its status and its rows of values ([PQgetvalue]). *)
Definition PGresult : Type := ExecStatusType * list (list (list Z)).

Class Libpq (conn : Type) := {
  PQexec : list Z -> conn -> PGresult * conn;
  PQputCopyData : list Z -> Z -> conn -> Z * conn;   (* the buffer, [int nbytes] *)
  PQputCopyEnd : option (list Z) -> conn -> Z * conn;
  PQgetResult : conn -> PGresult * conn;
}.


Definition value (row : list (list Z)) (i : nat) : list Z := default [] (row !! i).

(** [PQgetvalue(..)[0] == 't'] *)
Definition is_true (v : list Z) : bool := default 0 (head v) =? 116.

Section GetTableMetadata.
Context {conn : Type} `{Libpq conn}.

(** The loop over the rows of the result: the offset so far, the row size so
    far, the number of columns counted so far. *)
Fixpoint metadata_loop (rows : list (list (list Z))) (Off Size Count : Z)
    : list pg_col_metadata * Z * Z :=
  match rows with
  | [] => ([], Size, Count)
  | row :: rows =>
      let md off := mkCol (u32 (atoi (value row 1))) (atoi (value row 2)) off (atoi (value row 3))
                          (value row 0) (is_true (value row 4)) (is_true (value row 5)) in
      if is_true (value row 5) then
        let '(mds, Size, Count) := metadata_loop rows Off Size Count in
        (md (-1) :: mds, Size, Count)
      else
        let TypeLength := atoi (value row 2) in
        let '(mds, Size, Count) :=
          metadata_loop rows (s32 (Off + TypeLength)) (Size +64 u64 TypeLength) (s16 (Count + 1)) in
        (md Off :: mds, Size, Count)
  end.

Definition metadata_query (TableName : list Z) : list Z :=
  bytes "SELECT a.attname AS column_name, t.oid AS type_oid, t.typlen AS type_length, a.atttypmod AS type_modifier, EXISTS ( SELECT 1 FROM pg_constraint pc WHERE pc.conrelid = c.oid AND pc.contype = 'p' AND a.attnum = ANY(pc.conkey) ) AS is_primary_key, EXISTS ( SELECT 1 FROM pg_attrdef ad WHERE ad.adrelid = c.oid AND ad.adnum = a.attnum AND pg_get_expr(ad.adbin, ad.adrelid) LIKE 'nextval%' ) AS is_auto_increment FROM pg_catalog.pg_class c JOIN pg_catalog.pg_attribute a ON a.attrelid = c.oid JOIN pg_catalog.pg_type t ON a.atttypid = t.oid WHERE c.relname = '"
  ++ TableName ++ bytes "' AND a.attnum > 0 AND NOT a.attisdropped ORDER BY a.attnum".

(** [avail] is the room left in the arena; [RowSize0] what [*RowSize] holds.
    The result is the array ([None] for NULL), [*ColCount],
    [*ColCountNoAutoIncrements], [*RowSize] and the connection. *)
Definition GetTableMetadata (avail : Z) (TableName : list Z) (ColCount0 Count0 RowSize0 : Z) (c : conn)
    : option (list pg_col_metadata) * Z * Z * Z * conn :=
  let '((status, rows), c) := PQexec (metadata_query TableName) c in
  if decide (status = PGRES_TUPLES_OK) then
    let RowCount := Z.of_nat (length rows) in
    if avail <? sizeof_pg_col_metadata * RowCount then (None, s16 RowCount, Count0, RowSize0, c)
    else
      let '(mds, Size, Count) := metadata_loop rows 0 RowSize0 0 in
      (Some mds, s16 RowCount, Count, Size, c)
  else (None, ColCount0, Count0, RowSize0, c).
End GetTableMetadata.

(** ** Conversion to the COPY format *)

(** [memcpy(NtwrkConvBuf + ConvOffset, l, n)] and the increment of
    [ConvOffset]: the bytes written so far are [buf]. *)
Definition put (limit : Z) (buf l : list Z) : option (list Z) :=
  if len buf + len l <=? limit then Some (buf ++ l) else None.

(** [ColData]: the bytes from [Data + off] on. *)
Definition at_offset (Data : list Z) (off : Z) : option (list Z) :=
  if off <? 0 then None else Some (drop (Z.to_nat off) Data).

(** The [switch] on [TypeOid]. *)
Definition convert_field (limit : Z) (md : pg_col_metadata) (ColData buf : list Z) : option (list Z) :=
  if (TypeOid md =? PG_INT8) || (TypeOid md =? PG_FLOAT8) then l ← Write8 ColData; put limit buf l
  else if (TypeOid md =? PG_INT4) || (TypeOid md =? PG_FLOAT4) then l ← Write4 ColData; put limit buf l
  else if TypeOid md =? PG_INT2 then l ← Write2 ColData; put limit buf l
  else if TypeOid md =? PG_TIMESTAMP then l ← WriteTimestamp ColData; put limit buf l
  else Some buf.

(** The loop over the columns of one row. *)
Fixpoint convert_cols (limit : Z) (mds : list pg_col_metadata) (Data : list Z) (CurrRow : Z)
    (buf : list Z) : option (list Z) :=
  match mds with
  | [] => Some buf
  | md :: mds =>
      if IsAutoIncrement md then convert_cols limit mds Data CurrRow buf
      else
        buf ← put limit buf (le_encode 4 (htobe 4 (u32 (TypeLength md))));
        ColData ← at_offset Data (CurrRow + Offset md);
        buf ← convert_field limit md ColData buf;
        convert_cols limit mds Data CurrRow buf
  end.

(** The loop over the rows: [n] rows from row [i] on. *)
Fixpoint convert_rows (limit : Z) (Ti : pg_table_info) (Data : list Z) (n : nat) (i : Z)
    (buf : list Z) : option (list Z) :=
  match n with
  | O => Some buf
  | S n =>
      let CurrRow := i *64 RowSize Ti in
      buf ← put limit buf (le_encode 2 (htobe 2 (u16 (ColCountNoAutoIncrements Ti))));
      buf ← convert_cols limit (take (Z.to_nat (ColCount Ti)) (ColMetadata Ti)) Data CurrRow buf;
      convert_rows limit Ti Data n (i + 1) buf
  end.

Definition NtwrkConvBufSize (Ti : pg_table_info) (ItemCount : Z) : Z :=
  let PgHeaderSize := 2 +64 ItemCount *64 4 in
  PgHeaderSize +64 (ItemCount *64 RowSize Ti).

(** ["PGCOPY\n\377\r\n\0"], the flags and the length of the extension. *)
Definition CopyHeader : list Z :=
  [80; 71; 67; 79; 80; 89; 10; 255; 13; 10; 0] ++ le_encode 4 (htobe 4 0) ++ le_encode 4 (htobe 4 0).

Section PgInsertData.
Context {conn : Type} `{Libpq conn}.

(** From [cleanup] on. *)
Definition PgInsertData_cleanup (Ret : Z) (c : conn) : Z * conn :=
  let '(r, c) := PQputCopyEnd (if Ret =? 0 then None else Some (bytes "Error during copy")) c in
  let Ret := if negb (r =? 1) then - SDBE_PG_ERR else Ret in
  let '((status, _), c) := PQgetResult c in
  let Ret := if decide (status = PGRES_COMMAND_OK) then Ret else - SDBE_PG_ERR in
  let '((status, _), c) := PQexec (bytes (if Ret =? 0 then "COMMIT" else "ROLLBACK")) c in
  let Ret := if decide (status = PGRES_COMMAND_OK) then Ret else - SDBE_PG_ERR in
  (Ret, c).

(** [avail]: the bytes left in the scratch arena.  [None]: an access outside the
    scratch arena or outside [Data]. *)
Definition PgInsertData (avail : Z) (Ti : pg_table_info) (Data : list Z) (ItemCount : Z) (c : conn)
    : option (Z * conn) :=
  let '((status, _), c) := PQexec (bytes "BEGIN") c in
  if decide (status = PGRES_COMMAND_OK) then
    let '((status, _), c) := PQexec (CopyCommand Ti) c in
    if decide (status = PGRES_COPY_IN) then
      let '(r, c) := PQputCopyData CopyHeader 19 c in
      if negb (r =? 1) then Some (PgInsertData_cleanup (- SDBE_PG_ERR) c)
      else if avail <? NtwrkConvBufSize Ti ItemCount then Some (PgInsertData_cleanup 0 c)
      else
        buf ← convert_rows avail Ti Data (Z.to_nat ItemCount) 0 [];
        let '(r, c) := PQputCopyData buf (s32 (len buf)) c in
        if negb (r =? 1) then Some (PgInsertData_cleanup (- SDBE_PG_ERR) c)
        else Some (PgInsertData_cleanup 0 c)
    else
      let '(_, c) := PQexec (bytes "ROLLBACK") c in
      Some (- SDBE_PG_ERR, c)
  else Some (- SDBE_PG_ERR, c).
End PgInsertData.

(** ** [PgPrepareCtx] *)

(** The members of the object that [cJSON_ArrayForEach] walks here. *)
Definition attributes_of (j : option json) : list (list Z * json) :=
  match j with Some (JObject members) => members | _ => [] end.

(** [SdbStringBackspace(s, n)] *)
Definition backspace (n : nat) (s : list Z) : list Z := take (length s - n) s.

(** The inner [cJSON_ArrayForEach]: [None] when a member is not a string. *)
Fixpoint creation_columns (attributes : list (list Z * json)) (CreationQuery : list Z)
    : option (list Z) :=
  match attributes with
  | [] => Some CreationQuery
  | (name, j) :: attributes =>
      if negb (cJSON_IsString (Some j)) then None
      else creation_columns attributes
             (CreationQuery ++ c_str name ++ bytes " " ++ valuestring (Some j) ++ bytes "," ++ [10])
  end.

Definition creation_query (SensorName : list Z) (SensorData : option json) : option (list Z) :=
  q ← creation_columns (attributes_of SensorData)
        (bytes "CREATE TABLE IF NOT EXISTS " ++ SensorName ++ bytes "(" ++ [10]
         ++ bytes "id SERIAL PRIMARY KEY," ++ [10]);
  Some (backspace 2 q ++ bytes ");").

Fixpoint copy_columns (mds : list pg_col_metadata) (Command : list Z) : list Z :=
  match mds with
  | [] => Command
  | md :: mds =>
      copy_columns mds
        (if IsAutoIncrement md then Command else Command ++ ColumnName md ++ bytes ", ")
  end.

Definition copy_command (TableName : list Z) (mds : list pg_col_metadata) : list Z :=
  backspace 2 (copy_columns mds (bytes "COPY " ++ TableName ++ bytes "("))
  ++ bytes ") FROM STDIN WITH (FORMAT binary)".

(** [PacketSize], [ItemMaxCount] and [BufferMaxFill] of the pipe. *)
Record pipe_sizes := mkSizes { PacketSize : Z; ItemMaxCount : Z; BufferMaxFill : Z }.

(** [BufCap] is [ArenaCap(Pipe->Buffers[0])]; [None]: division by zero. *)
Definition set_pipe_sizes (BufCap RowSize : Z) : option pipe_sizes :=
  if RowSize =? 0 then None
  else
    let ItemMaxCount := BufCap / RowSize in
    Some (mkSizes RowSize ItemMaxCount (RowSize *64 ItemMaxCount)).

Section PgPrepareCtx.
Context {conn : Type} `{Libpq conn}.
(** The room in the arena when the metadata of a table is allocated, the
    capacity of the buffers of the pipe, and what the memory of the table's
    [RowSize] holds: [ArenaPushStruct] does not clear it. *)
Variables avail BufCap RowSize0 : Z.

(** The body of the loop over the sensors: an error, or the table and the sizes
    of the pipe.  [None]: a fault. *)
Definition prepare_sensor (SensorSchema : json) (c : conn)
    : option ((Z + pg_table_info * pipe_sizes) * conn) :=
  if negb (cJSON_IsObject (Some SensorSchema)) then Some (inl (- SDBE_JSON_ERR), c)
  else
    let SensorName := cJSON_GetObjectItem (Some SensorSchema) (bytes "name") in
    if negb (cJSON_IsString SensorName) then Some (inl (- SDBE_JSON_ERR), c)
    else
      let TableName := valuestring SensorName in
      let SensorData := cJSON_GetObjectItem (Some SensorSchema) (bytes "data") in
      if negb (cJSON_IsObject SensorData) then Some (inl (- SDBE_JSON_ERR), c)
      else
        match creation_query TableName SensorData with
        | None => Some (inl (- SDBE_JSON_ERR), c)
        | Some CreationQuery =>
            let '((status, _), c) := PQexec CreationQuery c in
            if decide (status = PGRES_COMMAND_OK) then
              match GetTableMetadata avail TableName 0 0 RowSize0 c with
              | (Some mds, ColCount, Count, RowSize, c) =>
                  if ColCount =? 0 then Some (inl (- SDBE_PG_ERR), c)
                  else
                    (* only [ColCount] columns, a 16-bit number, are looked at *)
                    let command := copy_command TableName (take (Z.to_nat ColCount) mds) in
                    sizes ← set_pipe_sizes BufCap RowSize;
                    Some (inr (mkTable ColCount Count RowSize TableName command mds, sizes), c)
              | (None, _, _, _, c) => Some (inl (- SDBE_PG_ERR), c)
              end
            else Some (inl (- SDBE_PG_ERR), c)
        end.

(** The loop: the tables so far and the sizes that the last one left. *)
Fixpoint prepare_sensors (schemas : list json) (tables : list pg_table_info)
    (sizes : option pipe_sizes) (c : conn)
    : option ((Z + list pg_table_info * option pipe_sizes) * conn) :=
  match schemas with
  | [] => Some (inr (tables, sizes), c)
  | schema :: schemas =>
      '(r, c) ← prepare_sensor schema c;
      match r with
      | inl e => Some (inl e, c)
      | inr (Ti, s) => prepare_sensors schemas (tables ++ [Ti]) (Some s) c
      end
  end.

(** [ConfFile] and [SchemaConf] are what loading the files gave;
    [PQconnectdb] the connection, [None] when its status is not
    [CONNECTION_OK].  The result is [inl] of the error for NULL. *)
Definition PgPrepareCtx (ConfFile : option (list Z)) (SchemaConf : option json)
    (PQconnectdb : list Z -> option conn)
    : option (Z + list pg_table_info * option pipe_sizes * conn) :=
  match ConfFile with
  | None => Some (inl 0)
  | Some ConnInfo =>
      if negb (cJSON_IsObject SchemaConf) then Some (inl (- SDBE_JSON_ERR))
      else
        match cJSON_GetObjectItem SchemaConf (bytes "sensors") with
        | Some (JArray SensorSchemaArray) =>
            match PQconnectdb ConnInfo with
            | None => Some (inl (- SDBE_PG_ERR))
            | Some c =>
                '(r, c) ← prepare_sensors SensorSchemaArray [] None c;
                match r with
                | inl e => Some (inl e)
                | inr (tables, sizes) => Some (inr (tables, sizes, c))
                end
            end
        | _ => Some (inl (- SDBE_JSON_ERR))
        end
  end.
End PgPrepareCtx.

(** ** The loop of [PgRun] *)

Definition break_on_count : Z := 10000.

(** One turn of [epoll_wait]: interrupted, failed, or returned; on a time-out
    [Events[0]] is not written, so its flags are whatever the stack holds. *)
Inductive epoll_result :=
  | EpollIntr
  | EpollError (errno : Z)
  | EpollTimeout (stale_err stale_in : bool)
  | EpollReady (err inp : bool).

(** What [SdPipeGetReadBuffer] and [PgInsertData] give in the inner loop: a
    buffer of [ItemCount] items and the result of its insertion, or NULL. *)
Inductive read_result :=
  | ReadBuffer (ItemCount InsertRet : Z)
  | ReadNull.

Record pgrun_state := mkRun {
  run_ret : Z;
  PgFailCounter : Z;
  TimeoutCounter : Z;
  TotalInsertedItems : Z;
}.

(** The inner loop; [None]: the reads are exhausted and the thread blocks in
    [SdPipeGetReadBuffer]. *)
Fixpoint drain_pipe (reads : list read_result) (s : pgrun_state)
    : option (pgrun_state * list read_result) :=
  match reads with
  | [] => None
  | ReadNull :: reads => Some (s, reads)
  | ReadBuffer ItemCount InsertRet :: reads =>
      let Total := TotalInsertedItems s +64 ItemCount in
      let s := mkRun (run_ret s) (PgFailCounter s) (TimeoutCounter s) Total in
      if break_on_count <=? Total then Some (s, reads)
      else if negb (InsertRet =? 0) then
        let Fails := PgFailCounter s +64 1 in
        if 5 <=? Fails then Some (mkRun (-1) Fails (TimeoutCounter s) Total, reads)
        else drain_pipe reads (mkRun (run_ret s) Fails (TimeoutCounter s) Total)
      else drain_pipe reads s
  end.

Inductive pgrun_outcome := PgExit (s : pgrun_state) | PgBlocked | PgRunning (s : pgrun_state).

(** The main loop on a sequence of turns; [PgRunning]: the loop goes on after
    the turns given. *)
Fixpoint PgRun_loop (turns : list epoll_result) (reads : list read_result) (s : pgrun_state)
    : pgrun_outcome :=
  if break_on_count <=? TotalInsertedItems s then PgExit s
  else
    let with_ret r s := mkRun r (PgFailCounter s) (TimeoutCounter s) (TotalInsertedItems s) in
    let handle (err inp : bool) turns s :=
      if err then PgExit (with_ret (- EIO) s)
      else if inp then
        match drain_pipe reads s with
        | None => PgBlocked
        | Some (s, reads) => PgRun_loop turns reads s
        end
      else PgRun_loop turns reads s in
    match turns with
    | [] => PgRunning s
    | EpollIntr :: turns => PgRun_loop turns reads s
    | EpollError errno :: turns => PgExit (with_ret (- errno) s)
    | EpollTimeout stale_err stale_in :: turns =>
        let Count := TimeoutCounter s +64 1 in
        let s := mkRun (run_ret s) (PgFailCounter s) Count (TotalInsertedItems s) in
        if 5 <=? Count then handle stale_err stale_in turns (with_ret (- ETIMEDOUT) s)
        else PgRun_loop turns reads s
    | EpollReady err inp :: turns => handle err inp turns s
    end.

(** ** What a server reads *)

(** The binary COPY format, as PostgreSQL documents it: the header (no flags, no
    extension), then per tuple a 16-bit field count and per field a 32-bit
    length (-1 for NULL) and as many bytes; the end of the data or a count of -1
    ends the tuples. *)
Definition be_decode (l : list Z) : Z := le_decode (rev l).

Fixpoint parse_fields (n : nat) (s : list Z) : option (list (option (list Z)) * list Z) :=
  match n with
  | O => Some ([], s)
  | S n =>
      if (length s <? 4)%nat then None
      else
        let l := be_decode (take 4 s) in
        let s := drop 4 s in
        if l =? 2 ^ 32 - 1 then
          '(fs, s) ← parse_fields n s; Some (None :: fs, s)
        else if len s <? l then None
        else
          '(fs, s') ← parse_fields n (drop (Z.to_nat l) s); Some (Some (take (Z.to_nat l) s) :: fs, s')
  end.

Fixpoint parse_tuples (fuel : nat) (cols : nat) (s : list Z) : option (list (list (option (list Z)))) :=
  match s, fuel with
  | [], _ => Some []
  | _, O => None
  | _, S fuel =>
      if (length s <? 2)%nat then None
      else
        let n := be_decode (take 2 s) in
        if n =? 2 ^ 16 - 1 then Some []
        else if negb (n =? Z.of_nat cols) then None
        else
          '(row, s) ← parse_fields cols (drop 2 s);
          rows ← parse_tuples fuel cols s;
          Some (row :: rows)
  end.

Definition copy_parse (cols : nat) (s : list Z) : option (list (list (option (list Z)))) :=
  if decide (take 19 s = CopyHeader) then parse_tuples (length s) cols (drop 19 s) else None.

(** ** What should be stored *)

(** The width of the types the conversion handles. *)
Definition type_width (oid : Z) : option nat :=
  if (oid =? PG_INT8) || (oid =? PG_FLOAT8) || (oid =? PG_TIMESTAMP) then Some 8%nat
  else if (oid =? PG_INT4) || (oid =? PG_FLOAT4) then Some 4%nat
  else if oid =? PG_INT2 then Some 2%nat
  else None.

Definition data_cols (mds : list pg_col_metadata) : list pg_col_metadata :=
  List.filter (fun md => negb (IsAutoIncrement md)) mds.

(** The field of a column from the bytes of a row: its little-endian value in
    big-endian order, a timestamp converted first. *)
Definition field_value (md : pg_col_metadata) (row : list Z) : list Z :=
  let v := take (Z.to_nat (TypeLength md)) (drop (Z.to_nat (Offset md)) row) in
  if TypeOid md =? PG_TIMESTAMP
  then rev (le_encode 8 (u64 (UnixToPgTimestamp (s64 (le_decode v)))))
  else rev v.

Definition row_values (mds : list pg_col_metadata) (row : list Z) : list (option (list Z)) :=
  map (fun md => Some (field_value md row)) (data_cols mds).

(** Row [i] of the data, and the [n] first rows. *)
Definition row_at (RowSize : Z) (Data : list Z) (i : nat) : list Z :=
  take (Z.to_nat RowSize) (drop (i * Z.to_nat RowSize) Data).

Definition table_rows (Ti : pg_table_info) (Data : list Z) (n : nat) : list (list (option (list Z))) :=
  map (fun i => row_values (ColMetadata Ti) (row_at (RowSize Ti) Data i)) (seq 0 n).

Record column_ok (RowSize : Z) (md : pg_col_metadata) : Prop := {
  co_type : exists w, type_width (TypeOid md) = Some w /\ TypeLength md = Z.of_nat w;
  co_offset : 0 <= Offset md /\ Offset md + TypeLength md <= RowSize;
}.

(** A table whose data columns have the types the conversion handles. *)
Record table_ok (Ti : pg_table_info) : Prop := {
  to_cols : ColCount Ti = Z.of_nat (length (ColMetadata Ti));
  to_count : ColCountNoAutoIncrements Ti = Z.of_nat (length (data_cols (ColMetadata Ti)));
  to_count_max : ColCountNoAutoIncrements Ti < 2 ^ 15;
  to_columns : Forall (column_ok (RowSize Ti)) (data_cols (ColMetadata Ti));
}.

(** The bytes that the conversion of one row, and of [n] rows, needs. *)
Definition row_bytes (Ti : pg_table_info) : Z :=
  2 + foldr (fun md n => 4 + TypeLength md + n) 0 (data_cols (ColMetadata Ti)).

(** ** Lemmas on byte order *)

Definition is_bytes (l : list Z) : Prop := Forall (fun b => 0 <= b < 256) l.

Lemma le_encode_decode l : is_bytes l -> le_encode (length l) (le_decode l) = l.
Proof.
  induction 1 as [|b l Hb _ IH]; [done|]. cbn [length le_encode le_decode].
  assert (E : (b + 256 * le_decode l) mod 256 = b /\ (b + 256 * le_decode l) / 256 = le_decode l)
    by (Z.div_mod_to_equations; lia).
  destruct E as [-> ->]. by rewrite IH.
Qed.

Lemma le_encode_is_bytes n v : is_bytes (le_encode n v).
Proof. apply Forall_forall. intros b Hb. by eapply le_encode_bytes. Qed.

Lemma is_bytes_rev l : is_bytes l -> is_bytes (rev l).
Proof. apply Forall_rev. Qed.

Lemma encode_htobe n v : le_encode n (htobe n v) = rev (le_encode n v).
Proof.
  unfold htobe. rewrite <- (le_encode_decode (rev (le_encode n v))) at 2.
  - by rewrite length_rev, length_le_encode.
  - apply is_bytes_rev, le_encode_is_bytes.
Qed.

Lemma be_decode_encode n v :
  0 <= v < 256 ^ Z.of_nat n -> be_decode (le_encode n (htobe n v)) = v.
Proof.
  intros Hv. unfold be_decode. rewrite encode_htobe, rev_involutive, le_decode_encode.
  by apply Z.mod_small.
Qed.

Lemma WriteN_ok n From :
  is_bytes From -> (n <= length From)%nat -> WriteN n From = Some (rev (take n From)).
Proof.
  intros Hb Hn. unfold WriteN. rewrite (proj2 (Nat.ltb_ge _ _)) by done.
  rewrite encode_htobe. do 2 f_equal.
  rewrite <- (le_encode_decode (take n From)) at 2; [|by apply Forall_take].
  by rewrite length_take, Nat.min_l.
Qed.

(** ** Lemmas on the conversion *)

(** The bytes of a row in the COPY format. *)
Definition encode_cols (mds : list pg_col_metadata) (row : list Z) : list Z :=
  concat (map (fun md => rev (le_encode 4 (TypeLength md)) ++ field_value md row) (data_cols mds)).

Definition encode_row (Ti : pg_table_info) (row : list Z) : list Z :=
  rev (le_encode 2 (ColCountNoAutoIncrements Ti)) ++ encode_cols (ColMetadata Ti) row.

Lemma put_nil limit buf : len buf <= limit -> put limit buf [] = Some buf.
Proof.
  intros. unfold put. rewrite len_nil, (proj2 (Z.leb_le _ _)) by lia. by rewrite app_nil_r.
Qed.

Lemma put_bind limit buf l (f : list Z -> option (list Z)) l' :
  (len (buf ++ l) <= limit -> f (buf ++ l) = put limit (buf ++ l) l') ->
  (b ← put limit buf l; f b) = put limit buf (l ++ l').
Proof.
  intros Hf. unfold put at 1. rewrite len_app in Hf. destruct (Z.leb_spec (len buf + len l) limit).
  - cbn. rewrite Hf by lia. unfold put. by rewrite !len_app, Z.add_assoc, app_assoc.
  - cbn. unfold put. rewrite len_app. pose proof (len_nonneg l').
    by rewrite (proj2 (Z.leb_gt _ _)) by lia.
Qed.

Lemma put_put limit buf l l' : (b ← put limit buf l; put limit b l') = put limit buf (l ++ l').
Proof. by apply put_bind. Qed.

Lemma len_field_value md row RowSize :
  column_ok RowSize md -> len row = RowSize -> len (field_value md row) = TypeLength md.
Proof.
  intros [(w & Hw & Hl) Ho] Hr. unfold field_value, len in *.
  destruct (Z.eqb_spec (TypeOid md) PG_TIMESTAMP) as [E|].
  - rewrite E in Hw. injection Hw as <-. rewrite length_rev, length_le_encode. lia.
  - rewrite length_rev, length_take, length_drop. lia.
Qed.

Lemma convert_field_ok limit md RowSize row rest buf :
  column_ok RowSize md -> len row = RowSize -> is_bytes row -> is_bytes rest ->
  convert_field limit md (drop (Z.to_nat (Offset md)) row ++ rest) buf =
  put limit buf (field_value md row).
Proof.
  intros [(w & Hw & Hl) Ho] Hr Hb Hb'.
  set (C := drop (Z.to_nat (Offset md)) row).
  assert (HC : (w <= length C)%nat) by (unfold C, len in *; rewrite length_drop; lia).
  assert (HCb : is_bytes (C ++ rest)) by (apply Forall_app; split; [by apply Forall_drop|done]).
  assert (HCr : (w <= length (C ++ rest))%nat) by (rewrite length_app; lia).
  assert (HT : take w (C ++ rest) = take w C) by (by apply take_app_le).
  unfold convert_field, field_value. fold C. rewrite Hl, Nat2Z.id.
  unfold type_width, PG_INT8, PG_FLOAT8, PG_TIMESTAMP, PG_INT4, PG_FLOAT4, PG_INT2 in *.
  assert (Hwr : forall n, n = w -> (l ← WriteN n (C ++ rest); put limit buf l) = put limit buf (rev (take w C))).
  { intros n ->. rewrite WriteN_ok by done. cbn. by rewrite HT. }
  unfold Write8, Write4, Write2, WriteTimestamp.
  destruct (Z.eqb_spec (TypeOid md) 20), (Z.eqb_spec (TypeOid md) 701),
    (Z.eqb_spec (TypeOid md) 1114), (Z.eqb_spec (TypeOid md) 23),
    (Z.eqb_spec (TypeOid md) 700), (Z.eqb_spec (TypeOid md) 21); cbn [orb] in *; simplify_eq;
    try congruence; try (by apply Hwr).
  rewrite (proj2 (Nat.ltb_ge _ _)) by done. cbn [mbind option_bind]. by rewrite HT, encode_htobe.
Qed.

Lemma at_offset_row Data i RowSize o :
  0 <= RowSize -> 0 <= o <= RowSize -> (Z.of_nat i + 1) * RowSize <= len Data ->
  at_offset Data (Z.of_nat i * RowSize + o) =
  Some (drop (Z.to_nat o) (row_at RowSize Data i) ++ drop (S i * Z.to_nat RowSize) Data).
Proof.
  intros HR Ho Hd. unfold at_offset. rewrite (proj2 (Z.ltb_ge _ _)) by lia. f_equal.
  replace (Z.to_nat (Z.of_nat i * RowSize + o)) with (i * Z.to_nat RowSize + Z.to_nat o)%nat by nia.
  replace (S i * Z.to_nat RowSize)%nat with (i * Z.to_nat RowSize + Z.to_nat RowSize)%nat by lia.
  rewrite <- !drop_drop. set (D := drop (i * Z.to_nat RowSize) Data).
  unfold row_at. fold D. rewrite <- (take_drop (Z.to_nat RowSize) D) at 1.
  apply drop_app_le. rewrite length_take. unfold D. rewrite length_drop. unfold len in Hd. nia.
Qed.

Lemma convert_cols_ok limit mds Data RowSize i buf :
  0 <= RowSize -> Forall (column_ok RowSize) (data_cols mds) -> is_bytes Data ->
  (Z.of_nat i + 1) * RowSize <= len Data -> len buf <= limit ->
  convert_cols limit mds Data (Z.of_nat i * RowSize) buf =
  put limit buf (encode_cols mds (row_at RowSize Data i)).
Proof.
  intros HR Hok Hb Hd. revert buf. induction mds as [|md mds IH]; intros buf Hl; cbn [convert_cols].
  - symmetry. by apply put_nil.
  - unfold encode_cols, data_cols in *. cbn [List.filter] in *.
    destruct (IsAutoIncrement md); cbn [negb] in *; [by apply IH|].
    apply Forall_cons in Hok as [Hmd Hok]. cbn [map concat].
    assert (Hw : 0 <= TypeLength md < 2 ^ 32).
    { destruct Hmd as [(w & Hw & ->) _]. unfold type_width in Hw. by repeat case_match; simplify_eq. }
    rewrite encode_htobe, u32_small by done. rewrite <- app_assoc.
    assert (Hrow : len (row_at RowSize Data i) = RowSize)
      by (unfold row_at, len in *; rewrite length_take, length_drop; nia).
    assert (Hrb : is_bytes (row_at RowSize Data i)) by (apply Forall_take, Forall_drop; done).
    apply put_bind. intros Hl1. rewrite at_offset_row; [|done|destruct Hmd; lia|done].
    cbn [mbind option_bind]. erewrite convert_field_ok; [|done..|by apply Forall_drop].
    apply put_bind. intros Hl2. by apply IH.
Qed.

Lemma len_encode_cols mds row RowSize :
  Forall (column_ok RowSize) (data_cols mds) -> len row = RowSize ->
  len (encode_cols mds row) = foldr (fun md n => 4 + TypeLength md + n) 0 (data_cols mds).
Proof.
  intros Hok Hr. unfold encode_cols. induction Hok as [|md mds' Hmd _ IH]; [done|].
  cbn [map concat foldr]. rewrite !len_app, IH, (len_field_value md row RowSize) by done.
  unfold len. rewrite length_rev, length_le_encode. lia.
Qed.

Lemma len_encode_row Ti row :
  table_ok Ti -> len row = RowSize Ti -> len (encode_row Ti row) = row_bytes Ti.
Proof.
  intros Hok Hr. unfold encode_row, row_bytes. rewrite len_app, (len_encode_cols _ _ _ (to_columns _ Hok) Hr).
  unfold len. rewrite length_rev, length_le_encode. lia.
Qed.

Lemma convert_rows_ok limit Ti Data n i buf :
  table_ok Ti -> 0 <= RowSize Ti -> is_bytes Data ->
  Z.of_nat (i + n) * RowSize Ti <= len Data < 2 ^ 64 -> len buf <= limit ->
  convert_rows limit Ti Data n (Z.of_nat i) buf =
  put limit buf (concat (map (fun i => encode_row Ti (row_at (RowSize Ti) Data i)) (seq i n))).
Proof.
  intros Hok HR Hb. revert i buf. induction n as [|n IH]; intros i buf Hd Hl; cbn [convert_rows].
  - symmetry. by apply put_nil.
  - cbn [seq map concat]. rewrite encode_htobe, u16_small;
      [|pose proof (to_count _ Hok); pose proof (to_count_max _ Hok); lia].
    unfold encode_row at 1. rewrite <- app_assoc. apply put_bind. intros Hl1.
    rewrite (to_cols _ Hok), Nat2Z.id, firstn_all.
    rewrite u64_small by nia.
    rewrite (convert_cols_ok limit _ Data (RowSize Ti) i) by (try done; try apply Hok; nia).
    apply put_bind. intros Hl2. replace (Z.of_nat i + 1) with (Z.of_nat (S i)) by lia.
    apply IH; [|done]. by replace (S i + n)%nat with (i + S n)%nat by lia.
Qed.

Lemma foldr_widths RowSize mds :
  Forall (column_ok RowSize) mds ->
  0 <= foldr (fun md s => TypeLength md + s) 0 mds /\
  foldr (fun md n => 4 + TypeLength md + n) 0 mds =
    4 * Z.of_nat (length mds) + foldr (fun md s => TypeLength md + s) 0 mds.
Proof. induction 1 as [|md mds [(w & _ & Hw) _] _ IH]; cbn [foldr length]; lia. Qed.

Lemma row_at_len Ti Data i n :
  0 <= RowSize Ti -> (i < n)%nat -> Z.of_nat n * RowSize Ti <= len Data ->
  len (row_at (RowSize Ti) Data i) = RowSize Ti.
Proof. intros. unfold row_at, len in *. rewrite length_take, length_drop. nia. Qed.

Lemma len_encode_rows Ti Data n :
  table_ok Ti -> 0 <= RowSize Ti -> Z.of_nat n * RowSize Ti <= len Data ->
  len (concat (map (fun i => encode_row Ti (row_at (RowSize Ti) Data i)) (seq 0 n))) =
  Z.of_nat n * row_bytes Ti.
Proof.
  intros Hok HR Hd.
  assert (H : forall l, Forall (fun i => (i < n)%nat) l ->
    len (concat (map (fun i => encode_row Ti (row_at (RowSize Ti) Data i)) l)) =
    Z.of_nat (length l) * row_bytes Ti).
  { induction 1 as [|i l Hi _ IH]; [done|]. cbn [map concat length].
    rewrite len_app, IH, len_encode_row; [lia|done|by eapply row_at_len]. }
  rewrite H, length_seq; [done|]. apply Forall_forall. intros i Hi. apply elem_of_seq in Hi. lia.
Qed.

(** ** Lemmas on the format *)

Lemma drop_app_len (l l' : list Z) n : length l = n -> drop n (l ++ l') = l'.
Proof. intros. by apply drop_app_length'. Qed.

Lemma parse_fields_cols mds row RowSize rest :
  Forall (column_ok RowSize) (data_cols mds) -> len row = RowSize ->
  parse_fields (length (data_cols mds)) (encode_cols mds row ++ rest) =
  Some (row_values mds row, rest).
Proof.
  intros Hok Hr. unfold encode_cols, row_values.
  induction Hok as [|md mds' Hmd _ IH]; [done|]. cbn [map concat length parse_fields].
  pose proof (len_field_value md row RowSize Hmd Hr) as Hlen.
  assert (Hw : 0 <= TypeLength md < 2 ^ 31).
  { destruct Hmd as [(w & Hw & ->) _]. unfold type_width in Hw. by repeat case_match; simplify_eq. }
  assert (H4 : length (rev (le_encode 4 (TypeLength md))) = 4%nat)
    by (by rewrite length_rev, length_le_encode).
  rewrite <- !app_assoc. rewrite (proj2 (Nat.ltb_ge _ _)) by (rewrite length_app, H4; lia).
  rewrite (take_app_length' _ _ 4) by done. rewrite (drop_app_len _ _ 4) by done.
  rewrite <- encode_htobe, be_decode_encode by (cbn; lia).
  rewrite (proj2 (Z.eqb_neq (TypeLength md) _)) by lia. set (tl := concat _ ++ rest) in *.
  rewrite (proj2 (Z.ltb_ge _ _)) by (rewrite len_app; pose proof (len_nonneg tl); lia).
  assert (Hf : length (field_value md row) = Z.to_nat (TypeLength md)) by (unfold len in Hlen; lia).
  rewrite (drop_app_len _ _ (Z.to_nat (TypeLength md))) by done.
  rewrite (take_app_length' _ _ (Z.to_nat (TypeLength md))) by done. by rewrite IH.
Qed.

Lemma parse_tuples_step fuel cols s :
  (2 <= length s)%nat -> be_decode (take 2 s) = Z.of_nat cols -> Z.of_nat cols < 2 ^ 15 ->
  parse_tuples (S fuel) cols s =
  ('(row, s) ← parse_fields cols (drop 2 s); rows ← parse_tuples fuel cols s; Some (row :: rows)).
Proof.
  intros Hl Hc Hm. destruct s as [|b s]; [cbn in Hl; lia|]. cbn [parse_tuples].
  rewrite (proj2 (Nat.ltb_ge _ _)) by done. rewrite Hc, (proj2 (Z.eqb_neq _ _)) by lia.
  by rewrite Z.eqb_refl.
Qed.

Lemma parse_tuples_rows fuel Ti rows :
  table_ok Ti -> Forall (fun row => len row = RowSize Ti) rows -> (length rows <= fuel)%nat ->
  parse_tuples fuel (length (data_cols (ColMetadata Ti))) (concat (map (encode_row Ti) rows)) =
  Some (map (row_values (ColMetadata Ti)) rows).
Proof.
  intros Hok Hrows. revert fuel. induction Hrows as [|row rows Hr _ IH]; intros fuel Hf; [by destruct fuel|].
  destruct fuel as [|fuel]; [cbn in Hf; lia|]. cbn [map concat]. unfold encode_row at 1.
  pose proof (to_count _ Hok) as Hc. pose proof (to_count_max _ Hok) as Hm.
  set (h := rev (le_encode 2 _)). assert (H2 : length h = 2%nat)
    by (unfold h; by rewrite length_rev, length_le_encode).
  assert (Hd : be_decode h = ColCountNoAutoIncrements Ti)
    by (unfold h; rewrite <- encode_htobe, be_decode_encode; [done|cbn; lia]).
  rewrite <- app_assoc. rewrite parse_tuples_step;
    [|rewrite length_app; lia|rewrite (take_app_length' _ _ 2) by done; lia|lia].
  rewrite (drop_app_len _ _ 2) by done.
  rewrite (parse_fields_cols _ _ (RowSize Ti)) by (try done; apply Hok).
  cbn [mbind option_bind]. rewrite IH by (cbn in Hf; lia). done.
Qed.

(** What the server reads from a conversion is the rows. *)
Lemma copy_parse_rows Ti Data n :
  table_ok Ti -> 0 <= RowSize Ti -> Z.of_nat n * RowSize Ti <= len Data ->
  copy_parse (length (data_cols (ColMetadata Ti)))
    (CopyHeader ++ concat (map (fun i => encode_row Ti (row_at (RowSize Ti) Data i)) (seq 0 n))) =
  Some (table_rows Ti Data n).
Proof.
  intros Hok HR Hd. unfold copy_parse.
  rewrite (take_app_length' CopyHeader _ 19), (drop_app_len CopyHeader _ 19) by done.
  rewrite decide_True by done.
  rewrite <- (map_map (row_at (RowSize Ti) Data) (encode_row Ti)).
  rewrite parse_tuples_rows; [| done | |].
  - unfold table_rows. by rewrite map_map.
  - apply Forall_map, Forall_forall. intros i Hi. apply elem_of_seq in Hi.
    apply (row_at_len _ _ _ n); [done|lia|done].
  - rewrite length_map, length_seq, length_app.
    pose proof (len_encode_rows Ti Data n Hok HR Hd) as Hlen. rewrite <- map_map in Hlen.
    assert (2 <= row_bytes Ti); [|unfold len in Hlen; nia].
    unfold row_bytes. destruct (foldr_widths _ _ (to_columns _ Hok)). lia.
Qed.

(** ** What the code relies on of the server *)

Definition db_row : Type := list (option (list Z)).

(** Of a connection to a server with a table of [cols] columns to be copied into
    by [CopyCmd]: the rows that are committed; those that the open transaction
    has added; the data of the COPY in progress; the data of the COPY that has
    been ended.  The laws are PostgreSQL's: only COMMIT changes the committed
    rows, by exactly the rows of the transaction (whose outcome the client does
    not know when COMMIT fails), and a COPY that is reported complete has added
    the tuples that its data encode. *)
Class PgServer (conn : Type) `{Libpq conn} (cols : nat) (CopyCmd : list Z) := {
  committed : conn -> list db_row;
  in_txn : conn -> option (list db_row);
  copy_data : conn -> option (list Z);
  copy_ended : conn -> option (list Z);
  srv_begin c c' r : PQexec (bytes "BEGIN") c = (r, c') ->
    committed c' = committed c /\ (r.1 = PGRES_COMMAND_OK -> in_txn c' = Some []);
  srv_copy c c' r : PQexec CopyCmd c = (r, c') ->
    committed c' = committed c /\
    (r.1 = PGRES_COPY_IN -> in_txn c' = in_txn c /\ copy_data c' = Some []);
  srv_put c c' d n r : PQputCopyData d n c = (r, c') ->
    committed c' = committed c /\
    (r = 1 -> 0 <= n <= len d -> in_txn c' = in_txn c /\ copy_data c' = (fun s => s ++ take (Z.to_nat n) d) <$> copy_data c);
  srv_end c c' e r : PQputCopyEnd e c = (r, c') ->
    committed c' = committed c /\
    (r = 1 -> e = None -> in_txn c' = in_txn c /\ copy_ended c' = copy_data c);
  srv_result c c' r : PQgetResult c = (r, c') ->
    committed c' = committed c /\
    (r.1 = PGRES_COMMAND_OK -> forall p s, in_txn c = Some p -> copy_ended c = Some s ->
       exists rows, copy_parse cols s = Some rows /\ in_txn c' = Some (p ++ rows));
  srv_commit c c' r p : PQexec (bytes "COMMIT") c = (r, c') -> in_txn c = Some p ->
    committed c' = committed c ++ p \/ r.1 <> PGRES_COMMAND_OK /\ committed c' = committed c;
  srv_rollback c c' r : PQexec (bytes "ROLLBACK") c = (r, c') -> committed c' = committed c;
}.

Section Server.
Context {conn : Type} `{PgServer conn cols CopyCmd}.

(** The end of an insertion whose data were all accepted. *)
Lemma cleanup_ok c s rows :
  in_txn c = Some [] -> copy_data c = Some s -> copy_parse cols s = Some rows ->
  let '(r, c') := PgInsertData_cleanup 0 c in
  (r = 0 -> committed c' = committed c ++ rows) /\
  (r <> 0 -> committed c' = committed c \/ committed c' = committed c ++ rows).
Proof.
  intros Ht Hd Hp. unfold PgInsertData_cleanup. cbn [Z.eqb].
  destruct (PQputCopyEnd None c) as [r1 c1] eqn:E1. apply srv_end in E1 as [C1 L1].
  destruct (PQgetResult c1) as [[st2 rr2] c2] eqn:E2. apply srv_result in E2 as [C2 L2].
  destruct (Z.eqb_spec r1 1) as [Hr1|Hr1]; cbn [negb].
  - destruct L1 as [T1 X1]; [done..|].
    destruct (decide (st2 = PGRES_COMMAND_OK)) as [->|].
    + destruct (L2 eq_refl [] s) as (rows' & Hp' & T2); [congruence..|]. simplify_eq.
      cbn [Z.eqb]. destruct (PQexec (bytes "COMMIT") c2) as [[st3 rr3] c3] eqn:E3.
      apply (srv_commit _ _ _ rows) in E3; [|done]. rewrite C2, C1 in E3. cbn in E3.
      destruct (decide (st3 = PGRES_COMMAND_OK)); split; try done; intuition congruence.
    + change (- SDBE_PG_ERR =? 0) with false; cbv iota. destruct (PQexec (bytes "ROLLBACK") c2) as [[st3 rr3] c3] eqn:E3.
      apply srv_rollback in E3. split; [by case_decide|left; congruence].
  - assert (HR : (if decide (st2 = PGRES_COMMAND_OK) then - SDBE_PG_ERR else - SDBE_PG_ERR) = - SDBE_PG_ERR)
      by by case_decide. rewrite HR. change (- SDBE_PG_ERR =? 0) with false; cbv iota.
    destruct (PQexec (bytes "ROLLBACK") c2) as [[st3 rr3] c3] eqn:E3.
    clear HR. apply srv_rollback in E3. split; [by case_decide|left; congruence].
Qed.

(** The end of an insertion that has failed. *)
Lemma cleanup_error c e :
  e <> 0 ->
  let '(r, c') := PgInsertData_cleanup e c in r <> 0 /\ committed c' = committed c.
Proof.
  intros He. unfold PgInsertData_cleanup.
  destruct (PQputCopyEnd _ c) as [r1 c1] eqn:E1. apply srv_end in E1 as [C1 _].
  destruct (PQgetResult c1) as [[st2 rr2] c2] eqn:E2. apply srv_result in E2 as [C2 _].
  set (e2 := if decide _ then _ else _).
  assert (He2 : e2 <> 0) by (unfold e2; by repeat case_match).
  rewrite (proj2 (Z.eqb_neq e2 0)) by done.
  destruct (PQexec (bytes "ROLLBACK") c2) as [[st3 rr3] c3] eqn:E3. apply srv_rollback in E3.
  split; [by case_decide|congruence].
Qed.

(** The insertion up to the conversion: what remains is to look at the case
    where BEGIN, COPY and the header are accepted. *)
Lemma PgInsertData_start avail Ti Data n c (P : Z -> conn -> Prop) :
  CopyCommand Ti = CopyCmd ->
  (forall r c', r <> 0 -> committed c' = committed c -> P r c') ->
  (forall c1, in_txn c1 = Some [] -> copy_data c1 = Some CopyHeader -> committed c1 = committed c ->
     exists r c',
       (if avail <? NtwrkConvBufSize Ti n then Some (PgInsertData_cleanup 0 c1)
        else
          buf ← convert_rows avail Ti Data (Z.to_nat n) 0 [];
          let '(r, c) := PQputCopyData buf (s32 (len buf)) c1 in
          if negb (r =? 1) then Some (PgInsertData_cleanup (- SDBE_PG_ERR) c)
          else Some (PgInsertData_cleanup 0 c)) = Some (r, c') /\ P r c') ->
  exists r c', PgInsertData avail Ti Data n c = Some (r, c') /\ P r c'.
Proof.
  intros Hcmd Herr Hok. unfold PgInsertData. rewrite Hcmd.
  destruct (PQexec (bytes "BEGIN") c) as [[st0 rr0] c0] eqn:E0. apply srv_begin in E0 as [C0 T0].
  destruct (decide (st0 = PGRES_COMMAND_OK)); [|do 2 eexists; split; [done|by apply Herr]].
  destruct (PQexec CopyCmd c0) as [[st1 rr1] c1] eqn:E1. apply srv_copy in E1 as [C1 T1].
  destruct (decide (st1 = PGRES_COPY_IN)).
  - destruct T1 as [T1 X1]; [done|]. rewrite T0 in T1 by done.
    destruct (PQputCopyData CopyHeader _ c1) as [r2 c2] eqn:E2. apply srv_put in E2 as [C2 T2].
    destruct (Z.eqb_spec r2 1); cbn [negb].
    + destruct T2 as [T2 X2]; [done|done|]. apply Hok; [congruence| |congruence]. by rewrite X2, X1.
    + pose proof (cleanup_error c2 (- SDBE_PG_ERR) ltac:(done)) as HE.
      destruct (PgInsertData_cleanup (- SDBE_PG_ERR) c2) as [r c']. destruct HE as [Hr Hc].
      exists r, c'. split; [done|]. apply Herr; [done|congruence].
  - destruct (PQexec (bytes "ROLLBACK") c1) as [[st2 rr2] c2] eqn:E2. apply srv_rollback in E2.
    exists (- SDBE_PG_ERR), c2. split; [done|]. apply Herr; [done|congruence].
Qed.
End Server.

(** ** A server that implements the laws *)
Module Demo.
Definition copy_cmd : list Z := bytes "COPY t(a, b) FROM STDIN WITH (FORMAT binary)".

Record server := mkServer {
  s_rows : list db_row;
  s_txn : option (list db_row);
  s_copy : option (list Z);
  s_done : option (list Z);
}.

Definition exec (q : list Z) (s : server) : PGresult * server :=
  if bytes_eqb q (bytes "BEGIN") then
    ((PGRES_COMMAND_OK, []), mkServer (s_rows s) (Some []) None None)
  else if bytes_eqb q copy_cmd then
    ((PGRES_COPY_IN, []), mkServer (s_rows s) (s_txn s) (Some []) None)
  else if bytes_eqb q (bytes "COMMIT") then
    ((PGRES_COMMAND_OK, []), mkServer (s_rows s ++ default [] (s_txn s)) None None None)
  else if bytes_eqb q (bytes "ROLLBACK") then
    ((PGRES_COMMAND_OK, []), mkServer (s_rows s) None None None)
  else ((PGRES_OTHER, []), s).

Definition result (s : server) : PGresult * server :=
  match s_txn s, d ← s_done s; copy_parse 2 d with
  | Some p, Some rows => ((PGRES_COMMAND_OK, []), mkServer (s_rows s) (Some (p ++ rows)) None None)
  | _, _ => ((PGRES_OTHER, []), mkServer (s_rows s) None None None)
  end.

#[global] Instance libpq : Libpq server := {
  PQexec := exec;
  PQputCopyData d n s := (1, mkServer (s_rows s) (s_txn s) ((fun x => x ++ take (Z.to_nat n) d) <$> s_copy s) None);
  PQputCopyEnd e s :=
    (1, mkServer (s_rows s) (s_txn s) None (match e with None => s_copy s | Some _ => None end));
  PQgetResult := result;
}.

#[global] Instance pg : PgServer server 2 copy_cmd.
Proof.
  refine {| committed := s_rows; in_txn := s_txn; copy_data := s_copy; copy_ended := s_done |}.
  - intros c c' r E. cbv in E. by simplify_eq.
  - intros c c' r E. cbv in E. by simplify_eq.
  - intros c c' d n r E. cbn in E. by simplify_eq.
  - intros c c' e r E. cbn in E. simplify_eq. split; [done|]. by intros _ ->.
  - intros c c' r E. cbn in E. unfold result in E. split; [by repeat case_match; simplify_eq|].
    intros Hr p s Hp Hs. rewrite Hp, Hs in E. cbn [mbind option_bind] in E.
    destruct (copy_parse 2 s) as [rows|]; simplify_eq; by exists rows.
  - intros c c' r p E Hp. left. destruct c as [R T X D]. cbn in Hp. subst T. cbv -[app] in E. by simplify_eq.
  - intros c c' r E. cbv in E. by simplify_eq.
Defined.

Definition cols : list pg_col_metadata :=
  [mkCol 23 4 (-1) (-1) (bytes "id") true true; mkCol 23 4 0 (-1) (bytes "a") false false;
   mkCol 21 2 4 (-1) (bytes "b") false false].
Definition table : pg_table_info := mkTable 3 2 6 (bytes "t") copy_cmd cols.
Definition data : list Z := [1; 0; 0; 0; 2; 0; 3; 0; 0; 0; 4; 1].
Definition start : server := mkServer [] None None None.

(** A server that answers every query with the catalogue of [table]. *)
Definition catalogue_rows : list (list (list Z)) :=
  [[bytes "id"; bytes "23"; bytes "4"; bytes "-1"; bytes "t"; bytes "t"];
   [bytes "a"; bytes "23"; bytes "4"; bytes "-1"; bytes "f"; bytes "f"];
   [bytes "b"; bytes "21"; bytes "2"; bytes "-1"; bytes "f"; bytes "f"]].

Definition catalogue : Libpq bool := {|
  PQexec := fun (q : list Z) (c : bool) =>
    ((if c then PGRES_TUPLES_OK else PGRES_COMMAND_OK, catalogue_rows), negb c);
  PQputCopyData := fun d n c => (-1, c);
  PQputCopyEnd := fun e c => (-1, c);
  PQgetResult := fun c => ((PGRES_OTHER, []), c);
|}.

Lemma table_is_ok : table_ok table.
Proof.
  constructor; [done..|]. cbn. repeat constructor; cbn; try lia.
  - by exists 4%nat.
  - by exists 2%nat.
Qed.
End Demo.

(** ** Properties *)

(** An insertion returns, and what its result says of the table. *)
Lemma PgInsertData_returns {conn : Type} `{PgServer conn cols CopyCmd} (avail : Z)
    (Ti : pg_table_info) (Data : list Z) (n : nat) (c : conn) :
  table_ok Ti -> CopyCommand Ti = CopyCmd -> cols = length (data_cols (ColMetadata Ti)) ->
  is_bytes Data -> 0 <= RowSize Ti -> Z.of_nat n * RowSize Ti <= len Data < 2 ^ 64 ->
  NtwrkConvBufSize Ti (Z.of_nat n) <= avail -> Z.of_nat n * row_bytes Ti <= avail -> Z.of_nat n * row_bytes Ti < 2 ^ 31 ->
  let rows := table_rows Ti Data n in
  exists r c', PgInsertData avail Ti Data (Z.of_nat n) c = Some (r, c') /\
    (r = 0 -> committed c' = committed c ++ rows) /\
    (r <> 0 -> committed c' = committed c \/ committed c' = committed c ++ rows).
Proof.
  intros Hok Hcmd -> Hb HR Hd Hav Hroom Hint rows.
  apply (PgInsertData_start avail Ti Data (Z.of_nat n) c
    (fun r c' => (r = 0 -> committed c' = committed c ++ rows) /\
                 (r <> 0 -> committed c' = committed c \/ committed c' = committed c ++ rows))); [done|by intros; split; [done|left]|].
  intros c1 Ht Hs Hc. rewrite (proj2 (Z.ltb_ge _ _)) by done. rewrite Nat2Z.id.
  assert (0 <= avail) by (unfold NtwrkConvBufSize in Hav; pose proof (u64_range (u64 (2 + Z.of_nat n *64 4) + Z.of_nat n *64 RowSize Ti)); lia).
  rewrite (convert_rows_ok avail Ti Data n 0) by (try done; rewrite ?len_nil; done).
  pose proof (len_encode_rows Ti Data n Hok HR ltac:(lia)) as HL. set (buf := concat _) in *. pose proof (len_nonneg buf).
  unfold put. rewrite len_nil, (proj2 (Z.leb_le _ _)) by lia.
  cbn [mbind option_bind app]. rewrite (s32_small (len buf)) by lia. destruct (PQputCopyData _ _ c1) as [r2 c2] eqn:E2.
  apply srv_put in E2 as [C2 T2]. destruct (Z.eqb_spec r2 1); cbn [negb].
  - destruct T2 as [T2 X2]; [done|lia|]. unfold len in X2. rewrite Nat2Z.id, firstn_all, Hs in X2. cbn in X2.
    pose proof (cleanup_ok c2 _ rows (eq_trans T2 Ht) X2
                  (copy_parse_rows Ti Data n Hok HR ltac:(lia))) as HC.
    destruct (PgInsertData_cleanup 0 c2) as [r c']. exists r, c'. split; [done|]. by rewrite <- Hc, <- C2.
  - pose proof (cleanup_error c2 (- SDBE_PG_ERR) ltac:(done)) as HE.
    destruct (PgInsertData_cleanup (- SDBE_PG_ERR) c2) as [r c']. destruct HE as [Hr HE].
    exists r, c'. split; [done|]. split; [done|]. left. congruence.
Qed.

(** C8: An insertion is atomic and stores the right rows.  For data whose rows in
    the COPY format are shorter than 2^31 bytes, the [int] that libpq takes, and a
    scratch arena with room for them and for the buffer that is asked for,
    [PgInsertData] always returns; if it returns 0 then precisely the
    rows of the data -- every field in network byte order, timestamps moved to
    the PostgreSQL epoch -- have been committed; if it returns an error then
    either nothing has been, or all of them (the outcome of a failed COMMIT is
    not known). *)
Theorem PgInsertData_atomic {conn : Type} `{PgServer conn cols CopyCmd} (avail : Z)
    (Ti : pg_table_info) (Data : list Z) (n : nat) (c : conn) :
  table_ok Ti -> CopyCommand Ti = CopyCmd -> cols = length (data_cols (ColMetadata Ti)) ->
  is_bytes Data -> 0 <= RowSize Ti -> Z.of_nat n * RowSize Ti <= len Data < 2 ^ 64 ->
  NtwrkConvBufSize Ti (Z.of_nat n) <= avail -> Z.of_nat n * row_bytes Ti <= avail -> Z.of_nat n * row_bytes Ti < 2 ^ 31 ->
  let rows := table_rows Ti Data n in
  exists r c', PgInsertData avail Ti Data (Z.of_nat n) c = Some (r, c') /\
    (r = 0 -> committed c' = committed c ++ rows) /\
    (r <> 0 -> committed c' = committed c \/ committed c' = committed c ++ rows).
Proof. exact (PgInsertData_returns avail Ti Data n c). Qed.

Lemma PgInsertData_atomic_witness :
  exists r c', PgInsertData 100 Demo.table Demo.data 2 Demo.start = Some (r, c') /\ r = 0 /\
    Demo.s_rows c' = [[Some [0; 0; 0; 1]; Some [0; 2]]; [Some [0; 0; 0; 3]; Some [1; 4]]].
Proof.
  destruct (PgInsertData_atomic (cols := 2) (CopyCmd := Demo.copy_cmd) 100 Demo.table Demo.data 2 Demo.start)
    as (r & c' & E & H0 & _); try done.
  - apply Demo.table_is_ok.
  - repeat constructor; lia.
  - exists r, c'. assert (Hr : r = 0) by (vm_compute in E; congruence).
    split; [exact E|split; [exact Hr|exact (H0 Hr)]].
Defined.

(** No buffer, no data, success.  When the scratch arena cannot hold the
    conversion buffer, [PgInsertData] goes to its cleanup with [Ret] still 0: it
    ends the COPY normally and commits.  Whatever it returns, no row has been
    inserted -- and the server of [Demo] makes it return 0 on two rows. *)
Theorem PgInsertData_no_buffer {conn : Type} `{PgServer conn cols CopyCmd} (avail : Z)
    (Ti : pg_table_info) (Data : list Z) (n : Z) (c : conn) :
  CopyCommand Ti = CopyCmd -> avail < NtwrkConvBufSize Ti n ->
  exists r c', PgInsertData avail Ti Data n c = Some (r, c') /\ committed c' = committed c.
Proof.
  intros Hcmd Hav. apply (PgInsertData_start avail Ti Data n c (fun _ c' => committed c' = committed c));
    [done|by intros|].
  intros c1 Ht Hs Hc. rewrite (proj2 (Z.ltb_lt _ _)) by done.
  pose proof (cleanup_ok c1 CopyHeader [] Ht Hs eq_refl) as HC.
  destruct (PgInsertData_cleanup 0 c1) as [r c']. exists r, c'. split; [done|].
  rewrite app_nil_r in HC. destruct HC as [HZ HN]. destruct (Z.eq_dec r 0) as [E|E].
  - by rewrite HZ.
  - destruct (HN E); congruence.
Qed.

Lemma PgInsertData_no_buffer_witness :
  exists c', PgInsertData 10 Demo.table Demo.data 2 Demo.start = Some (0, c') /\
             Demo.s_rows c' = Demo.s_rows Demo.start.
Proof.
  destruct (PgInsertData_no_buffer (cols := 2) (CopyCmd := Demo.copy_cmd) 10 Demo.table Demo.data 2 Demo.start)
    as (r & c' & E & Hc); [done..|].
  exists c'. split; [|exact Hc]. assert (Hr : r = 0) by (vm_compute in E; congruence). rewrite <- Hr. exact E.
Defined.

(** The length goes to libpq as an [int].  Rows whose conversion takes a multiple
    of 2^32 bytes are taken for none: whatever [PgInsertData] returns, no row has
    been inserted. *)
Lemma PgInsertData_length_wraps {conn : Type} `{PgServer conn cols CopyCmd} (avail k : Z)
    (Ti : pg_table_info) (Data : list Z) (n : nat) (c : conn) :
  table_ok Ti -> CopyCommand Ti = CopyCmd -> is_bytes Data -> 0 <= RowSize Ti -> Z.of_nat n * RowSize Ti <= len Data < 2 ^ 64 ->
  NtwrkConvBufSize Ti (Z.of_nat n) <= avail -> Z.of_nat n * row_bytes Ti <= avail -> Z.of_nat n * row_bytes Ti = k * 2 ^ 32 ->
  exists r c', PgInsertData avail Ti Data (Z.of_nat n) c = Some (r, c') /\ committed c' = committed c.
Proof.
  intros Hok Hcmd Hb HR Hd Hav Hroom Hk. apply (PgInsertData_start avail Ti Data (Z.of_nat n) c (fun _ c' => committed c' = committed c));
    [done|by intros|].
  intros c1 Ht Hs Hc. rewrite (proj2 (Z.ltb_ge _ _)) by done. rewrite Nat2Z.id.
  assert (0 <= avail) by (unfold NtwrkConvBufSize in Hav; pose proof (u64_range (u64 (2 + Z.of_nat n *64 4) + Z.of_nat n *64 RowSize Ti)); lia).
  rewrite (convert_rows_ok avail Ti Data n 0) by (try done; rewrite ?len_nil; done).
  pose proof (len_encode_rows Ti Data n Hok HR ltac:(lia)) as HL. set (buf := concat _) in *. pose proof (len_nonneg buf).
  unfold put. rewrite len_nil, (proj2 (Z.leb_le _ _)) by lia. cbn [mbind option_bind app].
  assert (E0 : s32 (len buf) = 0).
  { rewrite HL, Hk. unfold s32. rewrite Z.add_comm, Z.mod_add by lia. done. }
  rewrite E0. destruct (PQputCopyData _ _ c1) as [r2 c2] eqn:E2. apply srv_put in E2 as [C2 T2].
  destruct (Z.eqb_spec r2 1); cbn [negb].
  - destruct T2 as [T2 X2]; [done|lia|]. cbn [Z.to_nat take] in X2. rewrite Hs in X2. cbn in X2.
    pose proof (cleanup_ok c2 CopyHeader [] (eq_trans T2 Ht) X2 eq_refl) as HC.
    destruct (PgInsertData_cleanup 0 c2) as [r c']. exists r, c'. split; [done|]. rewrite app_nil_r in HC.
    destruct HC as [HZ HN]. destruct (Z.eq_dec r 0) as [E|E]; [by rewrite (HZ E), C2, Hc|destruct (HN E); congruence].
  - pose proof (cleanup_error c2 (- SDBE_PG_ERR) ltac:(done)) as HE.
    destruct (PgInsertData_cleanup (- SDBE_PG_ERR) c2) as [r c']. destruct HE as [Hr HE]. exists r, c'. split; [done|congruence].
Qed.

(** The conversion buffer is too small.  The size that [PgInsertData] asks
    for counts the 2 bytes of the field count once instead of once per row, and
    the 4 bytes of a field length once per row instead of once per field.  With
    two or more data columns the conversion of any number of rows overruns it;
    it stays inside the scratch arena only if that has room for the true size,
    and [convert_rows] never writes less than that. *)
Theorem PgInsertData_buffer_small (Ti : pg_table_info) (Data : list Z) (n : nat) :
  table_ok Ti -> RowSize Ti = foldr (fun md s => TypeLength md + s) 0 (data_cols (ColMetadata Ti)) ->
  is_bytes Data -> Z.of_nat n * RowSize Ti <= len Data < 2 ^ 62 ->
  (1 <= n)%nat -> Z.of_nat n < 2 ^ 60 -> 2 <= ColCountNoAutoIncrements Ti ->
  NtwrkConvBufSize Ti (Z.of_nat n)
    = Z.of_nat n * row_bytes Ti - (Z.of_nat n * (4 * ColCountNoAutoIncrements Ti - 2) - 2) /\
  NtwrkConvBufSize Ti (Z.of_nat n) < Z.of_nat n * row_bytes Ti /\
  forall avail, 0 <= avail ->
    (is_Some (convert_rows avail Ti Data n 0 []) <-> Z.of_nat n * row_bytes Ti <= avail).
Proof.
  intros Hok HR Hb Hd Hn Hn2 Hc.
  assert (Hpos : 0 <= RowSize Ti /\
                 row_bytes Ti = 2 + 4 * ColCountNoAutoIncrements Ti + RowSize Ti).
  { destruct (foldr_widths _ _ (to_columns _ Hok)) as [Hp He].
    unfold row_bytes. rewrite (to_count _ Hok). lia. }
  destruct Hpos as [H0 Hrow].
  assert (Hsz : NtwrkConvBufSize Ti (Z.of_nat n) = 2 + Z.of_nat n * 4 + Z.of_nat n * RowSize Ti).
  { unfold NtwrkConvBufSize. rewrite (u64_small (Z.of_nat n * 4)) by lia.
    rewrite (u64_small (Z.of_nat n * RowSize Ti)) by lia. rewrite (u64_small (2 + _)) by lia.
    apply u64_small. lia. }
  split; [rewrite Hsz, Hrow; ring|]. split; [rewrite Hsz, Hrow; nia|].
  intros avail Hav. rewrite (convert_rows_ok avail Ti Data n 0) by (try done; rewrite ?len_nil; lia).
  unfold put. rewrite len_encode_rows, len_nil by (done || lia).
  destruct (Z.leb_spec (0 + Z.of_nat n * row_bytes Ti) avail).
  - split; [lia|by eexists].
  - split; [intros [? [=]]|lia].
Qed.

Lemma PgInsertData_buffer_small_witness :
  NtwrkConvBufSize Demo.table 2 = 22 /\ 22 < 2 * row_bytes Demo.table /\
  ~ is_Some (convert_rows 22 Demo.table Demo.data 2 0 []).
Proof.
  destruct (PgInsertData_buffer_small Demo.table Demo.data 2) as (E & L & R);
    [exact Demo.table_is_ok|reflexivity|repeat constructor; lia|by vm_compute|lia|lia|by vm_compute|].
  split; [exact E|split; [exact L|]]. intros HS. apply R in HS; [|lia]. by vm_compute in HS.
Defined.

(** *** The layout of a table *)

Definition is_data (row : list (list Z)) : bool := negb (is_true (value row 5)).
Definition width (row : list (list Z)) : Z := atoi (value row 2).
Definition total_width (rows : list (list (list Z))) : Z :=
  foldr (fun row s => width row + s) 0 (List.filter is_data rows).

(** Consecutive offsets from [o] on. *)
Fixpoint packed (o : Z) (mds : list pg_col_metadata) : Prop :=
  match mds with
  | [] => True
  | md :: mds => Offset md = o /\ packed (o + TypeLength md) mds
  end.

Lemma total_width_nonneg rows :
  Forall (fun row => 0 < width row) (List.filter is_data rows) -> 0 <= total_width rows.
Proof. unfold total_width. induction 1; cbn [foldr]; lia. Qed.

Lemma metadata_loop_spec rows o S C :
  Forall (fun row => 0 < width row) (List.filter is_data rows) ->
  0 <= o -> o + total_width rows < 2 ^ 31 -> 0 <= S -> S + total_width rows < 2 ^ 64 ->
  0 <= C -> C + Z.of_nat (length rows) < 2 ^ 15 ->
  let '(mds, Size, Count) := metadata_loop rows o S C in
  Size = S + total_width rows /\ Count = C + Z.of_nat (length (data_cols mds)) /\
  length mds = length rows /\ packed o (data_cols mds) /\
  map ColumnName mds = map (fun row => value row 0) rows /\
  map (fun md => (TypeOid md, TypeLength md)) (data_cols mds) =
    map (fun row => (u32 (atoi (value row 1)), width row)) (List.filter is_data rows).
Proof.
  revert o S C. induction rows as [|row rows IH]; intros o S C Hw Ho Hot HS HSt HC HCt;
    cbn [metadata_loop].
  - unfold total_width. cbn. split_and!; (done || lia).
  - unfold total_width in *. cbn [List.filter length] in *. change (is_data row) with (negb (is_true (value row 5))) in *.
    destruct (is_true (value row 5)) eqn:E; cbn [negb foldr] in *.
    + specialize (IH o S C Hw Ho Hot HS HSt HC ltac:(lia)).
      destruct (metadata_loop rows o S C) as [[mds Size] Count].
      destruct IH as (H1 & H2 & H3 & H4 & H5 & H6). unfold data_cols in *. cbn [List.filter IsAutoIncrement].
      cbn [negb map length]. split_and!; try done; try lia. by rewrite H5.
    + apply Forall_cons in Hw as [Hrow Hw]. pose proof (total_width_nonneg rows Hw) as Hn.
      unfold total_width in Hn. fold (width row).
      rewrite (u64_small (width row)) by lia. rewrite u64_small by lia.
      replace (s32 (o + width row)) with (o + width row) by (symmetry; word_lia).
      replace (s16 (C + 1)) with (C + 1) by (symmetry; word_lia).
      specialize (IH (o + width row) (S + width row) (C + 1) Hw ltac:(lia) ltac:(lia) ltac:(lia)
                    ltac:(lia) ltac:(lia) ltac:(lia)).
      destruct (metadata_loop rows _ _ _) as [[mds Size] Count].
      destruct IH as (H1 & H2 & H3 & H4 & H5 & H6). unfold data_cols in *. cbn [List.filter IsAutoIncrement].
      cbn [negb map length packed Offset TypeLength ColumnName TypeOid].
      split_and!; try done; try lia; by f_equal.
Qed.

Lemma packed_columns rows : forall mds o R,
  packed o mds -> 0 <= o -> Forall (fun row => 0 < width row) rows ->
  map (fun md => (TypeOid md, TypeLength md)) mds =
    map (fun row => (u32 (atoi (value row 1)), width row)) rows ->
  Forall (fun row => exists w, type_width (u32 (atoi (value row 1))) = Some w /\ width row = Z.of_nat w) rows ->
  o + foldr (fun row s => width row + s) 0 rows <= R ->
  Forall (column_ok R) mds.
Proof.
  induction rows as [|row rows IH]; intros [|md mds] o R Hp Ho Hw Hm Ht HR; try done.
  cbn [packed map foldr] in *. destruct Hp as [Hoff Hp]. injection Hm as Hoid Hlen Hm.
  apply Forall_cons in Hw as [Hrow Hw]. apply Forall_cons in Ht as [(w & Hty & Hwd) Ht].
  assert (0 <= foldr (fun row s => width row + s) 0 rows).
  { clear -Hw. induction Hw; cbn [foldr]; lia. }
  constructor.
  - constructor; [exists w; split; [by rewrite Hoid|congruence]|lia].
  - apply (IH mds (o + TypeLength md)); try done; rewrite ?Hlen; lia.
Qed.

(** The layout of a table.  From the catalogue's rows -- positive type
    lengths, fewer than 2^15 columns, less than 2 GiB -- [GetTableMetadata]
    returns one column per row in order, the data columns packed from offset 0
    without gap or overlap, the row size their sum and the counts right; with
    types that the conversion handles, that is the table that the insertion
    needs. *)
Theorem GetTableMetadata_layout {conn : Type} `{Libpq conn} (avail : Z) (TableName : list Z)
    (CC0 C0 : Z) (rows : list (list (list Z))) (c c' : conn) :
  PQexec (metadata_query TableName) c = ((PGRES_TUPLES_OK, rows), c') ->
  sizeof_pg_col_metadata * Z.of_nat (length rows) <= avail ->
  Forall (fun row => 0 < width row) (List.filter is_data rows) ->
  total_width rows < 2 ^ 31 -> Z.of_nat (length rows) < 2 ^ 15 ->
  exists mds,
    GetTableMetadata avail TableName CC0 C0 0 c =
      (Some mds, Z.of_nat (length rows), Z.of_nat (length (data_cols mds)), total_width rows, c') /\
    packed 0 (data_cols mds) /\
    map ColumnName mds = map (fun row => value row 0) rows /\
    (Forall (fun row => exists w, type_width (u32 (atoi (value row 1))) = Some w /\ width row = Z.of_nat w)
       (List.filter is_data rows) ->
     forall cmd, table_ok (mkTable (Z.of_nat (length rows)) (Z.of_nat (length (data_cols mds)))
                             (total_width rows) TableName cmd mds)).
Proof.
  intros HQ Hav Hw Ht Hl. unfold GetTableMetadata. rewrite HQ, decide_True by done.
  rewrite (proj2 (Z.ltb_ge _ _)) by lia.
  pose proof (metadata_loop_spec rows 0 0 0 Hw ltac:(lia) ltac:(lia) ltac:(lia) ltac:(lia) ltac:(lia) ltac:(lia)) as HS.
  destruct (metadata_loop rows 0 0 0) as [[mds Size] Count]. cbn in HS.
  destruct HS as (-> & -> & Hlen & Hp & Hn & Hty). exists mds.
  replace (s16 (Z.of_nat (length rows))) with (Z.of_nat (length rows)) by (symmetry; word_lia).
  split_and!; try done. intros Hsup cmd. constructor; cbn.
  - by rewrite Hlen.
  - done.
  - assert (length (data_cols mds) <= length mds)%nat by apply List.filter_length_le. lia.
  - by apply (packed_columns (List.filter is_data rows) _ 0).
Qed.

Lemma GetTableMetadata_layout_witness :
  exists mds, @GetTableMetadata bool Demo.catalogue 96 (bytes "t") 0 0 0 true =
                (Some mds, 3, 2, 6, false) /\
    packed 0 (data_cols mds) /\ table_ok (mkTable 3 2 6 (bytes "t") Demo.copy_cmd mds).
Proof.
  destruct (@GetTableMetadata_layout bool Demo.catalogue 96 (bytes "t") 0 0 Demo.catalogue_rows true false)
    as (mds & E & Hp & _ & Hok).
  - reflexivity.
  - by vm_compute.
  - repeat constructor.
  - reflexivity.
  - reflexivity.
  - exists mds. assert (Hc : Z.of_nat (length (data_cols mds)) = 2)
      by (vm_compute in E; injection E as E1 E2; rewrite <- E1; reflexivity).
    rewrite Hc in E. split; [exact E|split; [exact Hp|]].
    rewrite Hc in Hok. apply (Hok ltac:(repeat constructor; by (exists 4%nat + exists 2%nat)) Demo.copy_cmd).
Defined.

(** *** The sizes of the pipe *)

Lemma set_pipe_sizes_ok BufCap RowSize sizes :
  0 <= BufCap < 2 ^ 64 -> 0 <= RowSize -> set_pipe_sizes BufCap RowSize = Some sizes ->
  PacketSize sizes = RowSize /\ (RowSize | BufferMaxFill sizes) /\
  BufferMaxFill sizes <= BufCap < BufferMaxFill sizes + RowSize.
Proof.
  intros HB HR. unfold set_pipe_sizes. destruct (Z.eqb_spec RowSize 0); [done|].
  intros [= <-]. cbn. pose proof (Z.mul_div_le BufCap RowSize ltac:(lia)).
  pose proof (Z.mul_succ_div_gt BufCap RowSize ltac:(lia)).
  pose proof (Z.div_pos BufCap RowSize ltac:(lia) ltac:(lia)).
  rewrite u64_small by nia. split_and!; [done|apply Z.divide_factor_l|done|nia].
Qed.

Lemma metadata_loop_size rows : forall o S C, 0 <= S < 2 ^ 64 ->
  0 <= (metadata_loop rows o S C).1.2 < 2 ^ 64.
Proof.
  induction rows as [|row rows IH]; intros o S C HS; cbn [metadata_loop]; [done|].
  destruct (is_true (value row 5)).
  - specialize (IH o S C HS). by destruct (metadata_loop rows o S C) as [[? ?] ?].
  - specialize (IH (s32 (o + atoi (value row 2))) (S +64 u64 (atoi (value row 2))) (s16 (C + 1))
                  (u64_range _)).
    by destruct (metadata_loop rows _ _ _) as [[? ?] ?].
Qed.

(** What the preparation of a sensor's table guarantees. *)
Definition prepared (schema : json) (Ti : pg_table_info) : Prop :=
  TableName Ti = valuestring (cJSON_GetObjectItem (Some schema) (bytes "name")) /\
  CopyCommand Ti = copy_command (TableName Ti) (take (Z.to_nat (ColCount Ti)) (ColMetadata Ti)).

Definition sizes_for (BufCap : Z) (tables : list pg_table_info) (sizes : option pipe_sizes) : Prop :=
  match last tables, sizes with
  | None, None => True
  | Some Ti, Some sz =>
      PacketSize sz = RowSize Ti /\ (PacketSize sz | BufferMaxFill sz) /\
      BufferMaxFill sz <= BufCap < BufferMaxFill sz + PacketSize sz
  | _, _ => False
  end.

Lemma prepare_sensor_ok {conn : Type} `{Libpq conn} avail BufCap RowSize0 schema (c : conn) Ti sz c' :
  0 <= BufCap < 2 ^ 64 -> 0 <= RowSize0 < 2 ^ 64 ->
  prepare_sensor avail BufCap RowSize0 schema c = Some (inr (Ti, sz), c') ->
  prepared schema Ti /\ sizes_for BufCap [Ti] (Some sz).
Proof.
  intros HB HR E. unfold prepare_sensor in E. repeat case_match; simplify_eq.
  all: unfold GetTableMetadata in *; repeat case_match; simplify_eq.
  all: match goal with Hs : (_ ← set_pipe_sizes _ ?r; _) = _ |- _ =>
         destruct (set_pipe_sizes BufCap r) as [sz'|] eqn:Es; cbn in Hs; simplify_eq end.
  all: match goal with Hm : metadata_loop ?rows ?o ?S ?C = _ |- _ =>
         pose proof (metadata_loop_size rows o S C HR) as Hsz; rewrite Hm in Hsz end.
  all: apply set_pipe_sizes_ok in Es; cbn in *; [|lia..]; destruct Es as (E1 & E2 & E3);
    unfold prepared, sizes_for; cbn; rewrite ?E1; repeat split; done || apply E3.
Qed.

Lemma prepare_sensors_ok {conn : Type} `{Libpq conn} avail BufCap RowSize0 schemas :
  0 <= BufCap < 2 ^ 64 -> 0 <= RowSize0 < 2 ^ 64 ->
  forall tables sizes (c : conn) tables' sizes' c', sizes_for BufCap tables sizes ->
  prepare_sensors avail BufCap RowSize0 schemas tables sizes c = Some (inr (tables', sizes'), c') ->
  sizes_for BufCap tables' sizes' /\ exists new, tables' = tables ++ new /\ Forall2 prepared schemas new.
Proof.
  intros HB HR. induction schemas as [|schema schemas IH]; intros tables sizes c tables' sizes' c' Hs E;
    cbn [prepare_sensors] in E.
  - simplify_eq. split; [done|]. exists []. by rewrite app_nil_r.
  - destruct (prepare_sensor avail BufCap RowSize0 schema c) as [[[e|[Ti sz]] c1]|] eqn:E1; cbn in E; try done.
    apply prepare_sensor_ok in E1 as [Hp Hsz]; [|done..].
    apply IH in E as (Hs' & new & -> & Hnew); [|unfold sizes_for in *; by rewrite last_snoc].
    split; [done|]. exists (Ti :: new). rewrite <- app_assoc. split; [done|by constructor].
Qed.

(** What a successful [PgPrepareCtx] has set up.  One table per sensor of the
    schema, in order, each with the COPY command of its data columns; and the
    pipe is dimensioned for the last of them: the fill limit of its buffers is
    the largest multiple of the packet size that a buffer can hold.  That is the
    assumption of [MbRun]'s loop. *)
Theorem PgPrepareCtx_sizes {conn : Type} `{Libpq conn} (avail BufCap RowSize0 : Z)
    (ConfFile : option (list Z)) (SchemaConf : option json) (PQconnectdb : list Z -> option conn)
    (tables : list pg_table_info) (sizes : option pipe_sizes) (c : conn) :
  0 <= BufCap < 2 ^ 64 -> 0 <= RowSize0 < 2 ^ 64 ->
  PgPrepareCtx avail BufCap RowSize0 ConfFile SchemaConf PQconnectdb = Some (inr (tables, sizes, c)) ->
  exists schemas, cJSON_GetObjectItem SchemaConf (bytes "sensors") = Some (JArray schemas) /\
    Forall2 prepared schemas tables /\ sizes_for BufCap tables sizes.
Proof.
  intros HB HR E. unfold PgPrepareCtx in E. destruct ConfFile as [ConnInfo|]; [|done].
  destruct (negb (cJSON_IsObject SchemaConf)); [done|].
  destruct (cJSON_GetObjectItem SchemaConf (bytes "sensors")) as [[| | | | |schemas|]|]; try done.
  destruct (PQconnectdb ConnInfo) as [c0|]; [|done].
  destruct (prepare_sensors avail BufCap RowSize0 schemas [] None c0) as [[[e|[tbl sz]] c1]|] eqn:E1;
    cbn in E; simplify_eq.
  apply prepare_sensors_ok in E1 as (Hs & new & -> & Hnew); [|done..].
  by exists schemas.
Qed.

Lemma PgPrepareCtx_sizes_witness :
  let schema := JObject [(bytes "Name", JString (bytes "t"));
                         (bytes "data", JObject [(bytes "a", JString (bytes "integer"));
                                                 (bytes "b", JString (bytes "smallint"))])] in
  exists tables sizes c,
    @PgPrepareCtx bool Demo.catalogue 96 100 0 (Some []) (Some (JObject [(bytes "sensors", JArray [schema])]))
      (fun _ => Some false) = Some (inr (tables, Some sizes, c)) /\
    map CopyCommand tables = [Demo.copy_cmd] /\ PacketSize sizes = 6 /\ BufferMaxFill sizes = 96 /\
    sizes_for 100 tables (Some sizes).
Proof.
  intros schema. eexists _, _, _. split; [vm_compute; reflexivity|].
  split; [reflexivity|]. split; [reflexivity|]. split; [reflexivity|].
  edestruct (@PgPrepareCtx_sizes bool Demo.catalogue 96 100 0 (Some [])
            (Some (JObject [(bytes "sensors", JArray [schema])])) (fun _ => Some false))
    as (schemas & _ & _ & H); [lia|lia|vm_compute; reflexivity|exact H].
Defined.

(** [PgRun] after [n] time-outs in a row. *)
Definition after_timeouts (n : Z) (s : pgrun_state) : pgrun_state :=
  mkRun (if 5 <=? n then - ETIMEDOUT else run_ret s) (PgFailCounter s) n (TotalInsertedItems s).

(** [m] failed insertions in a row, from the first to the fifth. *)
Lemma drain_pipe_fails m k e reads s :
  0 <= k < 1000 -> e <> 0 -> 0 <= TotalInsertedItems s ->
  TotalInsertedItems s + Z.of_nat m * k < break_on_count -> 0 <= PgFailCounter s ->
  (0 < m)%nat -> PgFailCounter s + Z.of_nat m = 5 ->
  drain_pipe (replicate m (ReadBuffer k e) ++ reads) s =
  Some (mkRun (-1) 5 (TimeoutCounter s) (TotalInsertedItems s + Z.of_nat m * k), reads).
Proof.
  intros Hk He. revert s. unfold break_on_count. induction m as [|m IH]; intros s HT HB HF Hm H5; [lia|].
  rewrite Nat2Z.inj_succ, Z.mul_succ_l in *. assert (0 <= Z.of_nat m * k) by nia.
  cbn [replicate app drain_pipe PgFailCounter TotalInsertedItems TimeoutCounter].
  rewrite !u64_small by lia. unfold break_on_count.
  rewrite (proj2 (Z.leb_gt _ _)) by lia. rewrite (proj2 (Z.eqb_neq e 0)) by done. cbn [negb].
  destruct (Z.leb_spec 5 (PgFailCounter s + 1)); cbn [PgFailCounter].
  - assert (m = 0%nat) as -> by lia. replace (PgFailCounter s + 1) with 5 by lia.
    cbn [replicate app Z.of_nat Z.mul Z.add]. by rewrite Z.add_0_l.
  - rewrite IH; cbn [PgFailCounter TotalInsertedItems TimeoutCounter]; try lia.
    do 3 f_equal. lia.
Qed.

(** The thresholds do not stop the loop.  After five time-outs (with nothing
    on the stack that looks like an event) and after five failed insertions, the
    code logs that it is stopping the main loop; it only sets [Ret], and the
    loop goes on with the remaining turns -- a later, successful run still
    returns the error. *)
Theorem PgRun_thresholds (n : nat) (turns : list epoll_result) (reads : list read_result)
    (s : pgrun_state) (k e : Z) :
  TimeoutCounter s = 0 -> PgFailCounter s = 0 -> 0 <= k < 1000 -> e <> 0 ->
  0 <= TotalInsertedItems s < 5000 -> (n < 1000)%nat ->
  PgRun_loop (replicate n (EpollTimeout false false) ++ turns) reads s =
    PgRun_loop turns reads (after_timeouts (Z.of_nat n) s) /\
  PgRun_loop (EpollReady false true :: turns) (replicate 5 (ReadBuffer k e) ++ reads) s =
    PgRun_loop turns reads (mkRun (-1) 5 0 (TotalInsertedItems s + 5 * k)).
Proof.
  intros Ht Hf Hk He Htot Hn. split.
  - assert (HG : forall m t, Z.of_nat n = Z.of_nat m + TimeoutCounter t -> 0 <= TimeoutCounter t ->
      0 <= TotalInsertedItems t < 5000 -> run_ret t = (if 5 <=? TimeoutCounter t then - ETIMEDOUT else run_ret s) ->
      PgFailCounter t = PgFailCounter s -> TotalInsertedItems t = TotalInsertedItems s ->
      PgRun_loop (replicate m (EpollTimeout false false) ++ turns) reads t =
      PgRun_loop turns reads (after_timeouts (Z.of_nat n) s)).
    { induction m as [|m IH]; intros t Hm H0 HT HR HF HE; cbn [replicate app].
      - f_equal. destruct t as [r f c T]. unfold after_timeouts. cbn in *.
        replace (Z.of_nat n) with c by lia. congruence.
      - cbn [PgRun_loop]. unfold break_on_count. rewrite (proj2 (Z.leb_gt _ _)) by lia.
        rewrite u64_small by lia.
        destruct (Z.leb_spec 5 (TimeoutCounter t + 1)) as [Hle|Hle]; apply IH; cbn; try lia; try done.
        + by rewrite (proj2 (Z.leb_le _ _)) by lia.
        + rewrite HR, !(proj2 (Z.leb_gt _ _)) by lia. done. }
    apply HG; rewrite ?Ht; try done; lia.
  - cbn [PgRun_loop]. unfold break_on_count. rewrite (proj2 (Z.leb_gt _ _)) by lia.
    rewrite (drain_pipe_fails 5 k e reads s) by (unfold break_on_count; rewrite ?Hf; lia || done).
    by rewrite Ht.
Qed.

Lemma PgRun_thresholds_witness :
  PgRun_loop (replicate 7 (EpollTimeout false false)) [] (mkRun 0 0 0 0) = PgRunning (mkRun (-110) 0 7 0) /\
  PgRun_loop [EpollReady false true; EpollReady false true] (replicate 5 (ReadBuffer 1 3) ++ [ReadNull])
    (mkRun 0 0 0 0) = PgRunning (mkRun (-1) 5 0 5).
Proof.
  split.
  - destruct (PgRun_thresholds 7 [] [] (mkRun 0 0 0 0) 1 3) as [H _]; [done|done|lia|lia|cbn; lia|lia|].
    exact H.
  - destruct (PgRun_thresholds 0 [EpollReady false true] [ReadNull] (mkRun 0 0 0 0) 1 3) as [_ H];
      [done|done|lia|lia|cbn; lia|lia|]. exact H.
Defined.
