(* ===== verification/SetUp.v ===== *)
(** * From the configuration to the running system

    [SetUpFromConf] and the start of [SdhsMain] ([src/src/sdhs/Sdhs.c]), the
    choice of the handler ([DataHandlers/DataHandlers.c]), the creation of a
    group ([DataHandlers/ModbusWithPostgres/ModbusWithPostgres.c]), the signal
    handlers ([Signals.c]), the loading of a file ([SdbLoadFileIntoMemory] of
    [Sdb.h]) and the preparation of the Modbus connection
    ([CommProtocols/Modbus.c]).

    The configuration is a value of [Json]; groups and their manager are those
    of [ThreadGroup].  The process is the list of the objects it holds, with an
    oracle for the requests for memory; [SdpCreate], of which [PipeCreate] has
    the details, is one of these requests here.  [None] is a fault or a failed
    assertion. *)

From S2P Require Import Prelude.
From S2P Require Import LmDefs.
From S2P Require Import Json.
From S2P Require Import ThreadGroup.
From Stdlib Require Import SpecFloat.
From Stdlib Require Import Strings.String.
#[local] Open Scope Z_scope.
#[local] Abbreviation length := List.length.

(** ** The process *)

(** An object of the heap, or an open stream; those of a group by its id. *)
Inductive object :=
  | Stream | FileData | GroupTable
  | Ctx (GroupId : Z) | PipeOf (GroupId : Z) | GroupOf (GroupId : Z) | Manager.

#[export] Instance object_eq_dec : EqDecision object.
Proof. solve_decision. Defined.

Record process := mkProcess {
  requests : nat;              (* requests for memory so far *)
  held : list object;          (* newest first *)
  hooks : pbuf;                (* the counts of cJSON's hooks *)
  signal_pipe : option Z;      (* GSignalContext.Pipe: the group it is of *)
}.

Definition SU (A : Type) : Type := process -> option (A * process).

#[export] Instance SU_ret : MRet SU := fun A a p => Some (a, p).
#[export] Instance SU_bind : MBind SU := fun A B f c p =>
  match c p with
  | Some (a, p) => f a p
  | None => None
  end.

Definition fault {A} : SU A := fun _ => None.
Definition get_held : SU (list object) := fun p => Some (held p, p).

(** Without the first [x]; a fault when there is none. *)
Fixpoint without (x : object) (l : list object) : option (list object) :=
  match l with
  | [] => None
  | y :: l => if decide (x = y) then Some l else l ← without x l; Some (y :: l)
  end.

Definition hold (x : object) : SU unit := fun p =>
  Some (tt, mkProcess (requests p) (x :: held p) (hooks p) (signal_pipe p)).
Definition drop_object (x : object) : SU unit := fun p =>
  l ← without x (held p); Some (tt, mkProcess (requests p) l (hooks p) (signal_pipe p)).
Definition set_hooks (b : pbuf) : SU unit := fun p =>
  Some (tt, mkProcess (requests p) (held p) b (signal_pipe p)).
Definition set_signal_pipe (GroupId : Z) : SU unit := fun p =>
  Some (tt, mkProcess (requests p) (held p) (hooks p) (Some GroupId)).

(** A file: missing, not seekable, or its bytes and how many of them a read
    gives. *)
Inductive file := NoFile | Unseekable | File (data : list Z) (readable : nat).

(** What [MbPgCreateTg] leaves in the context of a group. *)
Record mbpg_ctx := mkCtx {
  ModbusMemSize : Z; ModbusScratchSize : Z; PgMemSize : Z; PgScratchSize : Z;
  PipeBufCount : Z; PipeBufSize : Z;      (* the arguments of [SdpCreate] *)
}.

Record handler_group := mkHandler { hg_group : group_desc; hg_ctx : mbpg_ctx }.

Definition AvailableHandlers : list (list Z) := [bytes "modbus_with_postgres"].

Section SetUp.
(** Whether a request for memory is granted, here and by cJSON's hooks;
    [strtod]; the assertions of the build; the contents of fresh memory; the
    addresses of objects and functions. *)
Variable grant : nat -> bool.
Variable json_grant : nat -> bool.
Variable strtod : list Z -> spec_float * nat.
Variable SDB_ASSERT : bool.
Variable junk : Z.
Variable address : object -> Z.
Variables PgThread MbPgTestServer MbThread MbPgCleanup : Z.

Definition request (x : object) : SU bool := fun p =>
  let p' := mkProcess (S (requests p)) (held p) (hooks p) (signal_pipe p) in
  if grant (requests p) then
    Some (true, mkProcess (S (requests p)) (x :: held p) (hooks p) (signal_pipe p))
  else Some (false, p').

(** [SdbLoadFileIntoMemory(Filename, NULL)]: the bytes of [Data]; the byte after
    them is NUL, the block being from [calloc]. *)
Definition SdbLoadFileIntoMemory (f : file) : SU (option (list Z)) :=
  match f with
  | NoFile => mret None
  | Unseekable => hold Stream;; drop_object Stream;; mret None
  | File data readable =>
      hold Stream;;
      ok ← request FileData;
      if negb ok then drop_object Stream;; mret None
      else if (readable <? length data)%nat then
        drop_object Stream;; drop_object FileData;; mret None
      else drop_object Stream;; mret (Some data)
  end.

(** *** [DataHandlers.c] *)

(** The loop from index [i]; the name is not NULL. *)
Fixpoint handler_from (Name : list Z) (i : nat) (names : list (list Z)) : option nat :=
  match names with
  | [] => None
  | n :: names => if bool_decide (Name = n) then Some i else handler_from Name (S i) names
  end.

(** [inr tt]: -1, no such handler. *)
Definition GetHandlerIdFromName (Name : option (list Z)) : option (nat + unit) :=
  Name ← Name;
  Some (match handler_from Name 0 AvailableHandlers with Some i => inl i | None => inr tt end).

(** [*MemSize] and [*ScratchSize] after the call, [old] before it. *)
Definition DhsGetMemAndScratchSize (Conf : option json) (old : Z * Z) : SU (Z * Z) :=
  let MemSizeObj := cJSON_GetObjectItem Conf (bytes "mem") in
  let ScratchSizeObj := cJSON_GetObjectItem Conf (bytes "scratch_size") in
  if negb (cJSON_IsString MemSizeObj) || negb (cJSON_IsString ScratchSizeObj) then
    if SDB_ASSERT then fault else mret old
  else
    mret (SdbMemSizeFromString (cJSON_GetStringValue MemSizeObj),
          SdbMemSizeFromString (cJSON_GetStringValue ScratchSizeObj)).

(** *** [ModbusWithPostgres.c] *)

(** [(u64)d]; undefined outside of the range. *)
Definition u64_of_double (d : spec_float) : option Z :=
  i ← truncate d; if (0 <=? i) && (i <? 2 ^ 64) then Some i else None.

Definition MbPgTestTasks : list Z := [PgThread; MbPgTestServer; MbThread].

Definition MbPgCreateTg (Conf : option json) (GroupId : Z) : SU (option handler_group) :=
  let ModbusConf := cJSON_GetObjectItem Conf (bytes "modbus") in
  let PostgresConf := cJSON_GetObjectItem Conf (bytes "postgres") in
  let PipeConf := cJSON_GetObjectItem Conf (bytes "pipe") in
  let TestConf := cJSON_GetObjectItem Conf (bytes "testing") in
  ok ← request (Ctx GroupId);
  if negb ok then mret None
  else
    let PipeBufCountObj := cJSON_GetObjectItem PipeConf (bytes "buf_count") in
    let PipeBufSizeObj := cJSON_GetObjectItem PipeConf (bytes "buf_size") in
    mb ← DhsGetMemAndScratchSize ModbusConf (junk, junk);
    pg ← DhsGetMemAndScratchSize PostgresConf (junk, junk);
    match u64_of_double (cJSON_GetNumberValue PipeBufCountObj) with
    | None => fault
    | Some PipeBufCount =>
        let PipeBufSize := SdbMemSizeFromString (cJSON_GetStringValue PipeBufSizeObj) in
        ok ← request (PipeOf GroupId);
        if negb ok then drop_object (Ctx GroupId);; mret None
        else
          let TestingEnabled := cJSON_GetObjectItem TestConf (bytes "enabled") in
          if cJSON_IsTrue TestingEnabled then
            ok ← request (GroupOf GroupId);
            let '(Group, _) := TgCreateGroup GroupId 3 (address (Ctx GroupId)) NULL NULL MbPgTestTasks
                                 MbPgCleanup (Malloced ok) in
            set_signal_pipe GroupId;;
            mret ((fun g => mkHandler g (mkCtx mb.1 mb.2 pg.1 pg.2 PipeBufCount PipeBufSize)) <$> Group)
          else mret None
    end.

Definition DhsCreateTg (Conf : option json) (GroupId : Z) : SU (option handler_group) :=
  let Enabled := cJSON_GetObjectItem Conf (bytes "enabled") in
  if negb (cJSON_IsBool Enabled && cJSON_IsTrue Enabled) then mret None
  else
    let HandlerNameObj := cJSON_GetObjectItem Conf (bytes "name") in
    match GetHandlerIdFromName (cJSON_GetStringValue HandlerNameObj) with
    | None => fault
    | Some (inl O) => MbPgCreateTg Conf GroupId
    | Some _ => mret None
    end.

(** *** [Sdhs.c] *)

(** The loop over the handlers from number [tg], the groups so far in [Tgs]; the
    result is [Ret] and the groups. *)
Fixpoint create_groups (HandlerConfs : list json) (tg : Z) (Tgs : list handler_group)
    : SU (Z * list handler_group) :=
  match HandlerConfs with
  | [] => mret (0, Tgs)
  | HandlerConf :: HandlerConfs =>
      Group ← DhsCreateTg (Some HandlerConf) tg;
      match Group with
      | None => mret (-1, Tgs)
      | Some Group => create_groups HandlerConfs (tg + 1) (Tgs ++ [Group])
      end
  end.

(** [cJSON_Parse(ConfFile->Data)]; [None] of the result is NULL. *)
Definition parse_conf (Data : list Z) : SU (option json) := fun p =>
  r ← cJSON_Parse Data json_grant strtod (hooks p);
  Some (item r, mkProcess (requests p) (held p) (after r) (signal_pipe p)).

(** The code at [cleanup]. *)
Definition set_up_cleanup (Ret : Z) (M : option (manager_desc * list handler_group)) (HaveTgs : bool)
    (Conf : option json) : SU (Z * option (manager_desc * list handler_group)) := fun p =>
  ('(M, p) ← (if negb (Ret =? 0) then
                match M with
                | Some _ => (drop_object Manager;; mret M) p
                | None => Some (M, p)
                end
              else Some (M, p));
   ((if HaveTgs then drop_object GroupTable else mret tt);;
    drop_object FileData;;
    set_hooks (match Conf with
               | Some j => cJSON_Delete [(None, j)] (hooks p)
               | None => hooks p
               end);;
    mret (Ret, M)) p).

(** From the loop over the handlers on, with the table [Tgs] allocated. *)
Definition set_up_groups (HandlerConfs : list json) (HandlerCount : Z) (Conf : option json)
    : SU (Z * option (manager_desc * list handler_group)) :=
  '(Ret, Tgs) ← create_groups HandlerConfs 0 [];
  if negb (Ret =? 0) then set_up_cleanup Ret None true Conf
  else
    ok ← request Manager;
    match TgCreateManager (address ∘ GroupOf ∘ GroupId ∘ hg_group <$> Tgs) HandlerCount (Malloced ok) with
    | Some (Some M, _) => set_up_cleanup 0 (Some (M, Tgs)) true Conf
    | Some (None, _) => set_up_cleanup (-1) None true Conf
    | None => fault
    end.

(** The result is [Ret] and [*Manager], which is NULL before the call. *)
Definition SetUpFromConf (ConfFile : file) : SU (Z * option (manager_desc * list handler_group)) :=
  Data ← SdbLoadFileIntoMemory ConfFile;
  match Data with
  | None => mret (- ENOMEM, None)
  | Some Data =>
      Conf ← parse_conf Data;
      match Conf with
      | None => set_up_cleanup (- SDBE_JSON_ERR) None false Conf
      | Some _ =>
          let DataHandlersConfs := cJSON_GetObjectItem Conf (bytes "data_handlers") in
          if negb (cJSON_IsArray DataHandlersConfs) then set_up_cleanup (- SDBE_JSON_ERR) None false Conf
          else
            let HandlerCount := u64 (cJSON_GetArraySize DataHandlersConfs) in
            if HandlerCount <=? 0 then set_up_cleanup (- EINVAL) None false Conf
            else
              ok ← request GroupTable;
              if negb ok then set_up_cleanup (- ENOMEM) None false Conf
              else set_up_groups (snd <$> children DataHandlersConfs) HandlerCount Conf
      end
  end.
End SetUp.

(** ** What a configuration asks for *)

Definition member (j : option json) (name : string) : option json := cJSON_GetObjectItem j (bytes name).

Definition mem_sizes (Conf : option json) : option (Z * Z) :=
  mem ← cJSON_GetStringValue (member Conf "mem");
  scratch ← cJSON_GetStringValue (member Conf "scratch_size");
  Some (SdbMemSizeFromString (Some mem), SdbMemSizeFromString (Some scratch)).

(** The context that an entry of the list of handlers describes, if it is
    enabled, of the handler there is, for a test, and has the sizes. *)
Definition handler_ctx (Conf : json) : option mbpg_ctx :=
  let pipe := member (Some Conf) "pipe" in
  name ← cJSON_GetStringValue (member (Some Conf) "name");
  mb ← mem_sizes (member (Some Conf) "modbus");
  pg ← mem_sizes (member (Some Conf) "postgres");
  count ← u64_of_double (cJSON_GetNumberValue (member pipe "buf_count"));
  if cJSON_IsTrue (member (Some Conf) "enabled") && bool_decide (name = bytes "modbus_with_postgres")
     && cJSON_IsTrue (member (member (Some Conf) "testing") "enabled")
  then Some (mkCtx mb.1 mb.2 pg.1 pg.2 count
               (SdbMemSizeFromString (cJSON_GetStringValue (member pipe "buf_size"))))
  else None.

(** The objects of [n] groups from number [i] on, newest first. *)
Fixpoint groups_held (i : Z) (n : nat) : list object :=
  match n with
  | O => []
  | S n => groups_held (i + 1) n ++ [GroupOf i; PipeOf i; Ctx i]
  end.

(** ** Lemmas on the process *)

Lemma SU_bind_Some {A B} (c : SU A) (f : A -> SU B) p a p' :
  c p = Some (a, p') -> (c ≫= f) p = f a p'.
Proof. unfold mbind, SU_bind. by intros ->. Qed.

Lemma SU_bind_inv {A B} (c : SU A) (f : A -> SU B) p b p' :
  (c ≫= f) p = Some (b, p') -> exists a p1, c p = Some (a, p1) /\ f a p1 = Some (b, p').
Proof. unfold mbind, SU_bind. destruct (c p) as [[a p1]|]; [by exists a, p1|done]. Qed.

Lemma without_app x new old : x ∉ new -> without x (new ++ x :: old) = Some (new ++ old).
Proof.
  induction new as [|y new IH]; intros H; cbn.
  - by rewrite decide_True.
  - apply not_elem_of_cons in H as [Hy H]. rewrite decide_False by done. by rewrite (IH H).
Qed.

(** The objects of groups and of the manager. *)
Definition lasting (x : object) : Prop :=
  match x with Stream | FileData | GroupTable => False | _ => True end.

Lemma lasting_not_in x l : Forall lasting l -> ~ lasting x -> x ∉ l.
Proof. intros Hl Hx Hin. rewrite Forall_forall in Hl. by apply Hx, Hl. Qed.

(** [p'] holds [new] besides what [p] holds, and the hooks are as they were. *)
Definition grows (p : process) (new : list object) (p' : process) : Prop :=
  held p' = new ++ held p /\ Forall lasting new /\ hooks p' = hooks p.

Lemma grows_refl p : grows p [] p.
Proof. by split. Qed.

Lemma grows_trans p new p1 new' p2 : grows p new p1 -> grows p1 new' p2 -> grows p (new' ++ new) p2.
Proof.
  intros (H1 & F1 & K1) (H2 & F2 & K2). split_and!; [by rewrite H2, H1, app_assoc|by apply Forall_app_2|congruence].
Qed.

Section Facts.
Variable grant : nat -> bool.
Variable json_grant : nat -> bool.
Variable strtod : list Z -> spec_float * nat.
Variable SDB_ASSERT : bool.
Variable junk : Z.
Variable address : object -> Z.
Variables PgThread MbPgTestServer MbThread MbPgCleanup : Z.

#[local] Abbreviation request := (request grant).
#[local] Abbreviation DhsCreateTg :=
  (DhsCreateTg grant SDB_ASSERT junk address PgThread MbPgTestServer MbThread MbPgCleanup).
#[local] Abbreviation MbPgCreateTg :=
  (MbPgCreateTg grant SDB_ASSERT junk address PgThread MbPgTestServer MbThread MbPgCleanup).
#[local] Abbreviation create_groups :=
  (create_groups grant SDB_ASSERT junk address PgThread MbPgTestServer MbThread MbPgCleanup).
#[local] Abbreviation set_up_groups :=
  (set_up_groups grant SDB_ASSERT junk address PgThread MbPgTestServer MbThread MbPgCleanup).
#[local] Abbreviation SetUpFromConf :=
  (SetUpFromConf grant json_grant strtod SDB_ASSERT junk address PgThread MbPgTestServer MbThread MbPgCleanup).

Lemma request_grows x p :
  lasting x -> exists ok p', request x p = Some (ok, p') /\ grows p (if ok : bool then [x] else []) p'.
Proof.
  intros Hx. unfold request. destruct (grant (requests p)); do 2 eexists; (split; [reflexivity|]).
  - split; [done|]. split; [by constructor|done].
  - by split.
Qed.

Lemma get_sizes_grows Conf old p s p' :
  DhsGetMemAndScratchSize SDB_ASSERT Conf old p = Some (s, p') -> p' = p.
Proof.
  unfold DhsGetMemAndScratchSize. destruct (_ || _); [destruct SDB_ASSERT; [done|]|]; by intros [= <- <-].
Qed.

Lemma MbPgCreateTg_grows Conf i p r p' :
  MbPgCreateTg Conf i p = Some (r, p') -> exists new, grows p new p' /\ Manager ∉ new.
Proof.
  unfold MbPgCreateTg. intros H. apply SU_bind_inv in H as (ok & p1 & E1 & H).
  destruct (request_grows (Ctx i) p I) as (ok' & p1' & E1' & G1). rewrite E1 in E1'. simplify_eq.
  destruct ok'; cbn [negb] in H; [|injection H as <- <-; exists []; split; [done|set_solver]].
  apply SU_bind_inv in H as (mb & p2 & E2 & H). apply get_sizes_grows in E2 as ->.
  apply SU_bind_inv in H as (pg & p3 & E3 & H). apply get_sizes_grows in E3 as ->.
  destruct (u64_of_double _) as [n|]; [|done].
  apply SU_bind_inv in H as (ok & p4 & E4 & H).
  destruct (request_grows (PipeOf i) p1' I) as (ok' & p4' & E4' & G4). rewrite E4 in E4'. simplify_eq.
  destruct ok'; cbn [negb] in H.
  2: { apply SU_bind_inv in H as ([] & p5 & E5 & H). injection H as <- <-.
       unfold drop_object in E5. destruct G4 as (H4 & _ & K4), G1 as (H1 & _ & K1). cbn in H1, H4.
       rewrite H4, H1 in E5. cbn in E5. rewrite decide_True in E5 by done. injection E5 as <-.
       exists []. split; [|set_solver]. split; [done|]. split; [done|]. cbn. congruence. }
  pose proof (grows_trans _ _ _ _ _ G1 G4) as G. destruct (cJSON_IsTrue _).
  2: { injection H as <- <-. eexists. split; [exact G|]. set_solver. }
  apply SU_bind_inv in H as (ok & p5 & E5 & H).
  destruct (request_grows (GroupOf i) p4' I) as (ok' & p5' & E5' & G5). rewrite E5 in E5'. simplify_eq.
  pose proof (grows_trans _ _ _ _ _ G G5) as G'.
  destruct (TgCreateGroup _ _ _ _ _ _ _ _) as [Group A].
  apply SU_bind_inv in H as ([] & p6 & E6 & H). injection H as <- <-. injection E6 as <-.
  eexists. split; [exact G'|]. destruct ok'; set_solver.
Qed.

Lemma DhsCreateTg_grows Conf i p r p' :
  DhsCreateTg Conf i p = Some (r, p') -> exists new, grows p new p' /\ Manager ∉ new.
Proof.
  unfold DhsCreateTg. destruct (negb _).
  { intros [= <- <-]. exists []. split; [apply grows_refl|set_solver]. }
  destruct (GetHandlerIdFromName _) as [[[|n]|[]]|]; try done.
  - apply MbPgCreateTg_grows.
  - intros [= <- <-]. exists []. split; [apply grows_refl|set_solver].
  - intros [= <- <-]. exists []. split; [apply grows_refl|set_solver].
Qed.

Lemma create_groups_grows confs : forall i Tgs p Ret Tgs' p',
  create_groups confs i Tgs p = Some ((Ret, Tgs'), p') ->
  (Ret = 0 \/ Ret = -1) /\ exists new, grows p new p' /\ Manager ∉ new.
Proof.
  induction confs as [|c confs IH]; intros i Tgs p Ret Tgs' p'; cbn [create_groups].
  { intros [= <- <- <-]. split; [by left|]. exists []. split; [apply grows_refl|set_solver]. }
  intros H. apply SU_bind_inv in H as (G & p1 & E & H).
  apply DhsCreateTg_grows in E as (new & Hg & Hm). destruct G as [G|].
  - apply IH in H as (HR & new' & Hg' & Hm'). split; [exact HR|]. exists (new' ++ new).
    split; [by eapply grows_trans|]. set_solver.
  - injection H as <- <- <-. split; [by right|]. by exists new.
Qed.

Lemma load_file_spec f p :
  exists r p', SdbLoadFileIntoMemory grant f p = Some (r, p') /\ hooks p' = hooks p /\
    held p' = match r with Some _ => FileData :: held p | None => held p end.
Proof.
  unfold SdbLoadFileIntoMemory. destruct f as [| |data n]; [| |set (short := (n <? length data)%nat)].
  - by exists None, p.
  - do 2 eexists. split; [reflexivity|]. by split.
  - unfold mbind, SU_bind, hold, request. cbn [requests]. destruct (grant (requests p)); cbn [negb].
    + destruct short; do 2 eexists; (split; [reflexivity|]); by split.
    + do 2 eexists. split; [reflexivity|]. by split.
Qed.

(** The code at [cleanup] frees the file and the table, whatever was created
    since. *)
Lemma cleanup_spec Ret M HaveTgs Conf p new old :
  Ret = 0 \/ M = None ->
  held p = new ++ (if HaveTgs : bool then [GroupTable] else []) ++ FileData :: old -> Forall lasting new ->
  exists p', set_up_cleanup Ret M HaveTgs Conf p = Some ((Ret, M), p') /\ held p' = new ++ old /\
    hooks p' = match Conf with Some j => cJSON_Delete [(None, j)] (hooks p) | None => hooks p end /\
    signal_pipe p' = signal_pipe p.
Proof.
  intros HM Hh Hnew. unfold set_up_cleanup.
  pose proof (lasting_not_in GroupTable new Hnew (fun H => H)) as HT.
  pose proof (lasting_not_in FileData new Hnew (fun H => H)) as HF.
  assert (Hfirst : (if negb (Ret =? 0) then match M with
                      | Some _ => (drop_object Manager;; mret M) p
                      | None => Some (M, p) end else Some (M, p)) = Some (M, p)).
  { destruct HM as [->| ->]; [done|]. by destruct (negb _). }
  rewrite Hfirst. cbn [mbind option_bind]. destruct HaveTgs; cbn [app] in Hh.
  - unfold mbind, SU_bind, drop_object at 1. rewrite Hh, (without_app GroupTable) by done.
    cbn [mbind option_bind]. unfold drop_object. cbn [held]. rewrite without_app by done.
    by eexists.
  - unfold mbind, SU_bind, mret, SU_ret, drop_object. rewrite Hh, without_app by done.
    by eexists.
Qed.

(** What a set-up leaves. *)
Definition set_up_result (p : process) (r : Z * option (manager_desc * list handler_group)) (p' : process)
    : Prop :=
  live (hooks p') = live (hooks p) /\
  exists new, held p' = new ++ held p /\ Forall lasting new /\
    match r.2 with Some _ => r.1 = 0 /\ Manager ∈ new | None => r.1 <> 0 /\ Manager ∉ new end.

Lemma deleted_live j b b0 : live b = (live b0 + blocks j)%nat -> live (cJSON_Delete [(None, j)] b) = live b0.
Proof. intros H. unfold cJSON_Delete, deallocate. cbn. unfold item_blocks. cbn. lia. Qed.

(** The clean-up of a failure or of a success. *)
Lemma cleanup_result Ret M HaveTgs j b p new old p0 :
  held p0 = old -> live b = (live (hooks p0) + blocks j)%nat -> hooks p = b ->
  held p = new ++ (if HaveTgs : bool then [GroupTable] else []) ++ FileData :: old -> Forall lasting new ->
  match M with Some _ => Ret = 0 /\ Manager ∈ new | None => Ret <> 0 /\ Manager ∉ new end ->
  forall r p', set_up_cleanup Ret M HaveTgs (Some j) p = Some (r, p') -> set_up_result p0 r p'.
Proof.
  intros Hold Hl Hb Hh Hnew HM r p' E.
  destruct (cleanup_spec Ret M HaveTgs (Some j) p new old) as (p1 & E1 & Hh1 & Hk1 & _);
    [destruct M; [left; apply HM|by right]|by subst old|done|].
  rewrite E in E1. injection E1 as -> ->. split.
  - rewrite Hk1, Hb. by apply deleted_live.
  - exists new. subst old. by split.
Qed.

Lemma TgCreateManager_malloced addrs n ok :
  exists A, TgCreateManager addrs n (Malloced ok)
    = Some (if ok then Some (mkManagerDesc n 0 (take (Z.to_nat n) addrs)) else None, A).
Proof. unfold TgCreateManager, push. destruct ok; by eexists. Qed.

Lemma set_up_groups_result confs n j p p0 :
  held p = GroupTable :: FileData :: held p0 -> live (hooks p) = (live (hooks p0) + blocks j)%nat ->
  forall r p', set_up_groups confs n (Some j) p = Some (r, p') -> set_up_result p0 r p'.
Proof.
  intros Hh Hl r p' H. apply SU_bind_inv in H as ([Ret Tgs] & p4 & E4 & H).
  apply create_groups_grows in E4 as (HR & new & (H4 & F4 & K4) & Hm4). rewrite Hh in H4.
  destruct (Z.eqb_spec Ret 0) as [->|HR0]; cbn [negb] in H.
  2: { eapply (cleanup_result _ _ true j (hooks p) p4 new); [done|exact Hl|exact K4|exact H4|exact F4| |exact H].
       by split. }
  apply SU_bind_inv in H as (ok & p5 & E5 & H).
  destruct (TgCreateManager_malloced (address ∘ GroupOf ∘ GroupId ∘ hg_group <$> Tgs) n ok) as (A & EM).
  rewrite EM in H. unfold request in E5. destruct (grant (requests p4)); injection E5 as <- <-.
  - refine (cleanup_result _ _ true j (hooks p) _ (Manager :: new) _ p0 eq_refl Hl _ _ _ _ _ _ H).
    + exact K4.
    + cbn. by rewrite H4.
    + by constructor.
    + split; [done|set_solver].
  - by refine (cleanup_result _ _ true j (hooks p) _ new _ p0 eq_refl Hl _ _ F4 _ _ _ H).
Qed.

(** *** Handlers that are described well *)

Hypothesis Hgrant : forall n, grant n = true.

(** Group [i], with the three threads of a test. *)
Definition group_of (i : Z) (c : mbpg_ctx) : handler_group :=
  mkHandler (mkGroupDesc i 3 (address (Ctx i)) MbPgCleanup [PgThread; MbPgTestServer; MbThread]) c.

Fixpoint groups_of (i : Z) (ctxs : list mbpg_ctx) : list handler_group :=
  match ctxs with
  | [] => []
  | c :: ctxs => group_of i c :: groups_of (i + 1) ctxs
  end.

Lemma sizes_good Conf s old p : mem_sizes Conf = Some s ->
  DhsGetMemAndScratchSize SDB_ASSERT Conf old p = Some (s, p).
Proof.
  unfold mem_sizes, member, DhsGetMemAndScratchSize.
  destruct (cJSON_GetObjectItem Conf (bytes "mem")) as [[]|]; try done.
  destruct (cJSON_GetObjectItem Conf (bytes "scratch_size")) as [[]|]; try done. by intros [= <-].
Qed.

Lemma request_granted x p :
  request x p = Some (true, mkProcess (S (requests p)) (x :: held p) (hooks p) (signal_pipe p)).
Proof. unfold request. by rewrite Hgrant. Qed.

Lemma TgCreateGroup_malloced i n s r tasks c :
  TgCreateGroup i n s NULL r tasks c (Malloced true)
  = (Some (mkGroupDesc i n s c (take (Z.to_nat n) tasks)), Malloced true).
Proof. unfold TgCreateGroup, push. cbn [negb]. by rewrite Z.eqb_refl, andb_false_r. Qed.

Lemma DhsCreateTg_good Conf c i p : handler_ctx Conf = Some c ->
  DhsCreateTg (Some Conf) i p
  = Some (Some (group_of i c),
          mkProcess (3 + requests p) (GroupOf i :: PipeOf i :: Ctx i :: held p) (hooks p) (Some i)).
Proof.
  unfold handler_ctx, DhsCreateTg, MbPgCreateTg, member. intros H.
  destruct (cJSON_GetStringValue (cJSON_GetObjectItem (Some Conf) (bytes "name"))) as [name|]; [|done].
  destruct (mem_sizes (cJSON_GetObjectItem (Some Conf) (bytes "modbus"))) as [mb|] eqn:Emb; [|done].
  destruct (mem_sizes (cJSON_GetObjectItem (Some Conf) (bytes "postgres"))) as [pg|] eqn:Epg; [|done].
  cbn [mbind option_bind] in H. destruct (u64_of_double _) as [count|]; [|done].
  cbn [mbind option_bind] in H.
  destruct (cJSON_GetObjectItem (Some Conf) (bytes "enabled")) as [[| |[] | | | |]|]; try done.
  cbn [cJSON_IsTrue cJSON_IsBool negb andb] in *. case_bool_decide as Hn; [|done]. subst name.
  destruct (cJSON_IsTrue _); [|done]. injection H as <-.
  replace (GetHandlerIdFromName (Some (bytes "modbus_with_postgres"))) with (Some (@inl nat unit O)) by reflexivity.
  rewrite (SU_bind_Some _ _ _ _ _ (request_granted _ _)). cbn [negb].
  rewrite (SU_bind_Some _ _ _ _ _ (sizes_good _ _ _ _ Emb)), (SU_bind_Some _ _ _ _ _ (sizes_good _ _ _ _ Epg)).
  rewrite (SU_bind_Some _ _ _ _ _ (request_granted _ _)). cbn [negb].
  rewrite (SU_bind_Some _ _ _ _ _ (request_granted _ _)), TgCreateGroup_malloced. reflexivity.
Qed.

Lemma create_groups_good confs ctxs rest : Forall2 (fun j c => handler_ctx j = Some c) confs ctxs ->
  forall i Tgs p, exists p',
    create_groups (confs ++ rest) i Tgs p
    = create_groups rest (i + Z.of_nat (length confs)) (Tgs ++ groups_of i ctxs) p' /\
    held p' = groups_held i (length confs) ++ held p /\ hooks p' = hooks p /\
    signal_pipe p' = (if (length confs =? 0)%nat then signal_pipe p else Some (i + Z.of_nat (length confs) - 1)).
Proof.
  induction 1 as [|j c confs ctxs Hj _ IH]; intros i Tgs p; cbn [groups_of groups_held length app].
  { exists p. by rewrite app_nil_r, Z.add_0_r. }
  cbn [SetUp.create_groups]. rewrite (SU_bind_Some _ _ _ _ _ (DhsCreateTg_good _ _ _ _ Hj)).
  edestruct (IH (i + 1) (Tgs ++ [group_of i c])) as (p' & E & Hh & Hk & Hs). exists p'.
  rewrite E, Hh, Hk, Hs, <- !app_assoc. cbn [held hooks signal_pipe app Nat.eqb].
  split_and!; [by replace (i + 1 + Z.of_nat (length confs)) with (i + Z.of_nat (S (length confs))) by lia
              |done|done|].
  destruct (Nat.eqb_spec (length confs) 0) as [->|]; f_equal; lia.
Qed.

(** The file is read and parsed, and names [items] as its handlers. *)
Record conf_file (Data : list Z) (readable : nat) (p : process) (q : parsed) (Conf : json) (items : list json)
    : Prop := {
  conf_readable : (length Data <= readable)%nat;
  conf_parsed : cJSON_Parse Data json_grant strtod (hooks p) = Some q;
  conf_item : item q = Some Conf;
  conf_handlers : cJSON_GetObjectItem (Some Conf) (bytes "data_handlers") = Some (JArray items);
  conf_nonempty : items <> [];
  conf_count : (Z.of_nat (length items) < 2 ^ 31);
}.

Lemma SetUpFromConf_reaches Data readable p q Conf items :
  conf_file Data readable p q Conf items ->
  exists n, SetUpFromConf (File Data readable) p
  = set_up_groups items (Z.of_nat (length items)) (Some Conf)
      (mkProcess n (GroupTable :: FileData :: held p) (after q) (signal_pipe p)).
Proof.
  intros [Hread Hparse Hitem Hh Hne Hcount]. exists (2 + requests p)%nat.
  unfold SetUpFromConf. unfold SdbLoadFileIntoMemory.
  assert (E : (hold Stream;;
    ok ← request FileData;
    if negb ok then drop_object Stream;; mret None
    else if (readable <? length Data)%nat then drop_object Stream;; drop_object FileData;; mret None
    else drop_object Stream;; mret (Some Data)) p
    = Some (Some Data, mkProcess (S (requests p)) (FileData :: held p) (hooks p) (signal_pipe p))).
  { unfold mbind, SU_bind, hold. rewrite request_granted. cbn [negb].
    destruct (Nat.ltb_spec readable (length Data)); [lia|]. reflexivity. }
  rewrite (SU_bind_Some _ _ _ _ _ E). clear E.
  assert (E : parse_conf json_grant strtod Data
                (mkProcess (S (requests p)) (FileData :: held p) (hooks p) (signal_pipe p))
    = Some (Some Conf, mkProcess (S (requests p)) (FileData :: held p) (after q) (signal_pipe p))).
  { unfold parse_conf. cbn [hooks]. by rewrite Hparse, <- Hitem. }
  rewrite (SU_bind_Some _ _ _ _ _ E), Hh. clear E. cbn [cJSON_IsArray negb].
  assert (Hn : u64 (cJSON_GetArraySize (Some (JArray items))) = Z.of_nat (length items)).
  { unfold cJSON_GetArraySize. cbn [children]. rewrite length_map. word_lia. }
  rewrite Hn. destruct (Z.leb_spec (Z.of_nat (length items)) 0) as [H0|_].
  { destruct items; [done|cbn in H0; lia]. }
  rewrite (SU_bind_Some _ _ _ _ _ (request_granted _ _)). cbn [negb children]. f_equal.
  clear. induction items; cbn; [done|by f_equal].
Qed.

Lemma groups_held_lasting i n : Forall lasting (groups_held i n).
Proof. revert i. induction n as [|n IH]; intros i; cbn; [done|]. apply Forall_app_2; [apply IH|by repeat constructor]. Qed.

Lemma groups_of_length i ctxs : length (groups_of i ctxs) = length ctxs.
Proof. revert i. induction ctxs as [|c ctxs IH]; intros i; cbn; [done|by rewrite IH]. Qed.

Lemma DhsCreateTg_disabled Conf i p :
  cJSON_IsTrue (member (Some Conf) "enabled") = false -> DhsCreateTg (Some Conf) i p = Some (None, p).
Proof. unfold DhsCreateTg, member. intros ->. by rewrite andb_false_r. Qed.

(** An enabled handler without a name is compared through NULL. *)
Lemma DhsCreateTg_nameless Conf i p :
  member (Some Conf) "enabled" = Some (JBool true) -> cJSON_GetStringValue (member (Some Conf) "name") = None ->
  DhsCreateTg (Some Conf) i p = None.
Proof. unfold DhsCreateTg, member. intros -> ->. done. Qed.

(** A group that is not for a test is refused, and its context and pipe stay. *)
Lemma MbPgCreateTg_untested Conf mb pg count i p :
  mem_sizes (member (Some Conf) "modbus") = Some mb -> mem_sizes (member (Some Conf) "postgres") = Some pg ->
  u64_of_double (cJSON_GetNumberValue (member (member (Some Conf) "pipe") "buf_count")) = Some count ->
  cJSON_IsTrue (member (member (Some Conf) "testing") "enabled") = false ->
  MbPgCreateTg (Some Conf) i p
  = Some (None, mkProcess (2 + requests p) (PipeOf i :: Ctx i :: held p) (hooks p) (signal_pipe p)).
Proof.
  unfold member. intros Emb Epg En Et. unfold MbPgCreateTg.
  rewrite (SU_bind_Some _ _ _ _ _ (request_granted _ _)). cbn [negb].
  rewrite (SU_bind_Some _ _ _ _ _ (sizes_good _ _ _ _ Emb)), (SU_bind_Some _ _ _ _ _ (sizes_good _ _ _ _ Epg)), En.
  rewrite (SU_bind_Some _ _ _ _ _ (request_granted _ _)). cbn [negb]. by rewrite Et.
Qed.

(** The loop succeeds, and so does the set-up. *)
Lemma set_up_groups_good Conf items ctxs p old :
  Forall2 (fun j c => handler_ctx j = Some c) items ctxs -> items <> [] ->
  held p = GroupTable :: FileData :: old ->
  exists p', set_up_groups items (Z.of_nat (length items)) (Some Conf) p
    = Some ((0, Some (mkManagerDesc (Z.of_nat (length items)) 0
                        (address ∘ GroupOf ∘ GroupId ∘ hg_group <$> groups_of 0 ctxs), groups_of 0 ctxs)), p') /\
    held p' = Manager :: groups_held 0 (length items) ++ old /\
    signal_pipe p' = Some (Z.of_nat (length items) - 1).
Proof.
  intros Hctx Hne Hh. unfold set_up_groups.
  destruct (create_groups_good items ctxs [] Hctx 0 [] p) as (p1 & E & Hh1 & Hk1 & Hs1).
  rewrite app_nil_r in E. cbn [SetUp.create_groups app] in E. rewrite (SU_bind_Some _ _ _ _ _ E).
  cbn [Z.eqb negb]. rewrite (SU_bind_Some _ _ _ _ _ (request_granted _ _)).
  match goal with |- context [TgCreateManager ?l ?n _] =>
    destruct (TgCreateManager_malloced l n true) as (A & ->) end.
  rewrite take_ge; [|rewrite length_fmap, groups_of_length, <- (Forall2_length _ _ _ Hctx); lia].
  edestruct (cleanup_spec 0 (Some (mkManagerDesc (Z.of_nat (length items)) 0
       (address ∘ GroupOf ∘ GroupId ∘ hg_group <$> groups_of 0 ctxs), groups_of 0 ctxs)) true (Some Conf)
       (mkProcess (S (requests p1)) (Manager :: held p1) (hooks p1) (signal_pipe p1))
       (Manager :: groups_held 0 (length items)) old) as (p2 & E2 & Hh2 & _ & Hs2).
  - by left.
  - cbn [held]. by rewrite Hh1, Hh.
  - constructor; [done|apply groups_held_lasting].
  - exists p2. split; [exact E2|]. split; [exact Hh2|]. rewrite Hs2. cbn [signal_pipe]. rewrite Hs1.
    destruct items; [done|]. cbn [length Nat.eqb]. f_equal.
Qed.

(** The loop stops at a handler that is not enabled. *)
Lemma set_up_groups_disabled Conf good ctxs bad rest n p old :
  Forall2 (fun j c => handler_ctx j = Some c) good ctxs -> cJSON_IsTrue (member (Some bad) "enabled") = false ->
  held p = GroupTable :: FileData :: old ->
  exists p', set_up_groups (good ++ bad :: rest) n (Some Conf) p = Some ((-1, None), p') /\
    held p' = groups_held 0 (length good) ++ old.
Proof.
  intros Hctx Hbad Hh. unfold set_up_groups.
  destruct (create_groups_good good ctxs (bad :: rest) Hctx 0 [] p) as (p1 & E & Hh1 & _).
  cbn [SetUp.create_groups] in E. rewrite (SU_bind_Some _ _ _ _ _ (DhsCreateTg_disabled _ _ _ Hbad)) in E.
  rewrite (SU_bind_Some _ _ _ _ _ E). cbn [Z.eqb negb].
  destruct (cleanup_spec (-1) None true (Some Conf) p1 (groups_held 0 (length good)) old)
    as (p2 & E2 & Hh2 & _); [by right|by rewrite Hh1, Hh|apply groups_held_lasting|].
  by exists p2.
Qed.
End Facts.

(** C14: The set-up gives back what it needs only for itself.  Whatever the
    configuration and whatever requests fail, when [SetUpFromConf] returns, the
    stream, the file and the table of the groups are released and cJSON's blocks
    are all given back; a manager exists exactly when 0 is returned. *)
Theorem SetUpFromConf_releases (grant json_grant : nat -> bool) (strtod : list Z -> spec_float * nat)
    (SDB_ASSERT : bool) (junk : Z) (address : object -> Z) (PgThread MbPgTestServer MbThread MbPgCleanup : Z)
    (f : file) (p p' : process) (r : Z * option (manager_desc * list handler_group)) :
  strtod_ok strtod ->
  SetUpFromConf grant json_grant strtod SDB_ASSERT junk address PgThread MbPgTestServer MbThread MbPgCleanup f p
    = Some (r, p') ->
  set_up_result p r p'.
Proof.
  intros Hst H. unfold SetUpFromConf in H. apply SU_bind_inv in H as (Data & p1 & E1 & H).
  destruct (load_file_spec grant f p) as (r1 & p1' & E1' & K1 & H1). rewrite E1 in E1'. simplify_eq.
  destruct r1 as [Data|].
  2: { injection H as <- <-. split; [by rewrite K1|]. exists []. rewrite H1. split; [done|].
       split; [constructor|]. split; [done|set_solver]. }
  apply SU_bind_inv in H as (Conf & p2 & E2 & H). unfold parse_conf, cJSON_Parse in E2.
  destruct (parse_accounted (c_str Data ++ [0]) json_grant strtod false (hooks p1') Hst) as (q & Eq & _ & Hq).
  rewrite Eq in E2. injection E2 as <- <-. destruct (item q) as [j|].
  2: { destruct Hq as (Hl & _). destruct (cleanup_spec (- SDBE_JSON_ERR) None false None
         (mkProcess (requests p1') (held p1') (after q) (signal_pipe p1')) [] (held p))
         as (p3 & E3 & Hh3 & Hk3 & _); [by right|exact H1|constructor|].
       rewrite E3 in H. injection H as <- <-. split; [rewrite Hk3; cbn; congruence|].
       exists []. split; [exact Hh3|]. split; [constructor|]. split; [done|set_solver]. }
  destruct Hq as (Hl & _). rewrite K1 in Hl. set (p2 := mkProcess _ _ (after q) _) in H.
  assert (Hfail : forall Ret p3, held p3 = held p2 -> hooks p3 = after q -> Ret <> 0 ->
            forall r p', set_up_cleanup Ret None false (Some j) p3 = Some (r, p') -> set_up_result p r p').
  { intros Ret p3 H3 K3 HR. eapply cleanup_result; [done|exact Hl|exact K3| |constructor|split; [done|set_solver]].
    rewrite H3. exact H1. }
  destruct (negb _); [by refine (Hfail _ p2 eq_refl eq_refl _ _ _ H)|].
  destruct (_ <=? 0); [by refine (Hfail _ p2 eq_refl eq_refl _ _ _ H)|].
  apply SU_bind_inv in H as (ok & p3 & E3 & H). unfold request in E3.
  destruct (grant (requests p2)); injection E3 as <- <-; cbn [negb] in H; [|by refine (Hfail _ _ _ _ _ _ _ H)].
  eapply (set_up_groups_result _ _ _ _ _ _ _ _ _ _ j _ p) in H; [exact H|cbn; by rewrite H1|exact Hl].
Qed.

(** C13: The set-up builds what the configuration asks for.  When the file is
    read and parsed, memory suffices and each entry of the list of handlers is
    complete, [SetUpFromConf] returns 0 and a manager of one group per entry, in
    order and numbered from 0, each with its three threads and the sizes of its
    entry; the groups, their contexts and pipes and the manager are all that it
    leaves allocated. *)
Theorem SetUpFromConf_builds (grant json_grant : nat -> bool) (strtod : list Z -> spec_float * nat)
    (SDB_ASSERT : bool) (junk : Z) (address : object -> Z) (PgThread MbPgTestServer MbThread MbPgCleanup : Z)
    (Data : list Z) (readable : nat) (p : process) (q : parsed) (Conf : json) (items : list json)
    (ctxs : list mbpg_ctx) :
  (forall n, grant n = true) -> conf_file json_grant strtod Data readable p q Conf items ->
  Forall2 (fun j c => handler_ctx j = Some c) items ctxs ->
  let groups := groups_of address PgThread MbPgTestServer MbThread MbPgCleanup 0 ctxs in
  exists p',
    SetUpFromConf grant json_grant strtod SDB_ASSERT junk address PgThread MbPgTestServer MbThread MbPgCleanup
      (File Data readable) p
    = Some ((0, Some (mkManagerDesc (Z.of_nat (length items)) 0
                        (address ∘ GroupOf ∘ GroupId ∘ hg_group <$> groups), groups)), p') /\
    held p' = Manager :: groups_held 0 (length items) ++ held p /\
    signal_pipe p' = Some (Z.of_nat (length items) - 1).
Proof.
  intros Hgrant Hconf Hctx groups.
  destruct (SetUpFromConf_reaches grant json_grant strtod SDB_ASSERT junk address PgThread MbPgTestServer MbThread
              MbPgCleanup Hgrant Data readable p q Conf items Hconf) as (n & ->).
  apply set_up_groups_good; [done|done|by destruct Hconf|done].
Qed.

(** One disabled handler undoes the rest.  An entry whose [enabled] is not
    true makes [SetUpFromConf] fail with -1, without a manager, whatever the
    other entries are; the groups of the entries before it, their contexts and
    their pipes stay allocated, with nothing left that refers to them but the
    pipe of the signal handlers. *)
Theorem SetUpFromConf_disabled (grant json_grant : nat -> bool) (strtod : list Z -> spec_float * nat)
    (SDB_ASSERT : bool) (junk : Z) (address : object -> Z) (PgThread MbPgTestServer MbThread MbPgCleanup : Z)
    (Data : list Z) (readable : nat) (p : process) (q : parsed) (Conf : json) (good : list json) (bad : json)
    (rest : list json) (ctxs : list mbpg_ctx) :
  (forall n, grant n = true) -> conf_file json_grant strtod Data readable p q Conf (good ++ bad :: rest) ->
  Forall2 (fun j c => handler_ctx j = Some c) good ctxs -> cJSON_IsTrue (member (Some bad) "enabled") = false ->
  exists p',
    SetUpFromConf grant json_grant strtod SDB_ASSERT junk address PgThread MbPgTestServer MbThread MbPgCleanup
      (File Data readable) p = Some ((-1, None), p') /\
    held p' = groups_held 0 (length good) ++ held p.
Proof.
  intros Hgrant Hconf Hctx Hbad.
  destruct (SetUpFromConf_reaches grant json_grant strtod SDB_ASSERT junk address PgThread MbPgTestServer MbThread
              MbPgCleanup Hgrant Data readable p q Conf _ Hconf) as (n & ->).
  by eapply set_up_groups_disabled.
Qed.

(** ** The configuration that the repository ships *)

Module Shipped.
Definition quoted (text : list Z) : list Z := map (fun c => if c =? 39 then quote else c) text.

(** [configs/benchmark_config.json], with apostrophes for its quotes. *)
Definition benchmark_config : list Z := quoted (bytes "{
        'enabled': true,
        'debugger': false,
        'tests': [
               {
                        'name': 'arena',
                        'enabled': true,
                        'ctx': 
                        {
                                'arena_sz': '4gB',
                                'mallocd': false,
                                'contiguous': true,
                                'alloc_iterations': 1000,
                                'log_directory': './logs/arena/'
                        }
                },
                {
                        'name': 'malloc',
                        'enabled': true,
                        'ctx':
                        {
                                'alloc_iterations': 1000,
                                'log_directory': './logs/malloc/'
                        }
                },
                {
                        'name': 'sdhs',
                        'enabled': true,
                        'ctx':
                        {
                                'log_directory': './logs/sdhs/'
                        }
                }
        ],
        'data_handlers': [
                {
                        'name': 'modbus_with_postgres',
                        'enabled': true,
                        'modbus':
                        {
                                'mem': '8mB',
                                'scratch_size': '128kB'
                        },
                        'postgres':
                        {
                                'mem': '8mB',
                                'scratch_size': '128kB'
                        },
                        'pipe':
                        {
                                'buf_count': 2,
                                'buf_size': '32kB'
                        },
                        'testing':
                        {
                                'enabled': true
                        }
                }
        ]
}
").

Definition process0 : process := mkProcess 0 [] (mkPB 0 0 0 0) None.

Definition parse (text : list Z) : parsed :=
  default (mkParsed None 0 None (mkPB 0 0 0 0))
    (cJSON_Parse text (fun _ => true) DemoNumber.strtod (mkPB 0 0 0 0)).
Definition conf (text : list Z) : json := default JInvalid (item (parse text)).
Definition items (text : list Z) : list json :=
  snd <$> children (cJSON_GetObjectItem (Some (conf text)) (bytes "data_handlers")).

(** The address of an object: all that matters is that it is one. *)
Definition address (x : object) : Z := match x with Ctx i => 4096 + i | GroupOf i => 8192 + i | _ => 1 end.

(** Its only handler: two buffers of 32 kB. *)
Definition ctx : mbpg_ctx := mkCtx 8388608 131072 8388608 131072 2 32768.

Definition entry : list Z := bytes
  "{'enabled':true,'name':'modbus_with_postgres','modbus':{'mem':'8mB','scratch_size':'128kB'},
    'postgres':{'mem':'8mB','scratch_size':'128kB'},'pipe':{'buf_count':2,'buf_size':'32kB'},
    'testing':{'enabled':true}}".

(** Two entries and, between them, one that is switched off. *)
Definition switched_off : list Z :=
  quoted (bytes "{'data_handlers':[" ++ entry ++ bytes ",{'enabled':false}," ++ entry ++ bytes "]}").

Lemma conf_file_intro text readable :
  (length text <=? readable)%nat && (0 <? length (items text))%nat
    && (Z.of_nat (length (items text)) <? 2 ^ 31) = true ->
  cJSON_Parse text (fun _ => true) DemoNumber.strtod (hooks process0) = Some (parse text) ->
  item (parse text) = Some (conf text) ->
  cJSON_GetObjectItem (Some (conf text)) (bytes "data_handlers") = Some (JArray (items text)) ->
  conf_file (fun _ => true) DemoNumber.strtod text readable process0 (parse text) (conf text) (items text).
Proof.
  intros [[H1 H2]%andb_true_iff H3]%andb_true_iff. apply Nat.leb_le in H1. apply Nat.ltb_lt in H2.
  apply Z.ltb_lt in H3. intros. split; try done. intros Hnil. rewrite Hnil in H2. cbn in H2. lia.
Qed.
End Shipped.

(** The fourth request, for the pipe, is refused. *)
Lemma SetUpFromConf_releases_witness :
  exists r p', SetUpFromConf (fun n => negb (n =? 3)%nat) (fun _ => true) DemoNumber.strtod false 0 Shipped.address
      1 2 3 4 (File Shipped.benchmark_config 4096) Shipped.process0 = Some (r, p') /\
    r = (-1, None) /\ set_up_result Shipped.process0 r p'.
Proof.
  assert (E : exists p', SetUpFromConf (fun n => negb (n =? 3)%nat) (fun _ => true) DemoNumber.strtod false 0
      Shipped.address 1 2 3 4 (File Shipped.benchmark_config 4096) Shipped.process0 = Some ((-1, None), p')).
  { eexists. vm_compute. reflexivity. }
  destruct E as [p' E]. exists (-1, None), p'. split; [exact E|]. split; [done|].
  exact (SetUpFromConf_releases _ _ _ _ _ _ _ _ _ _ _ _ _ _ DemoNumber.strtod_is_ok E).
Defined.

Lemma SetUpFromConf_builds_witness :
  exists M groups p',
    SetUpFromConf (fun _ => true) (fun _ => true) DemoNumber.strtod false 0 Shipped.address 1 2 3 4
      (File Shipped.benchmark_config 4096) Shipped.process0 = Some ((0, Some (M, groups)), p') /\
    GroupCount M = 1 /\ hg_ctx <$> groups = [Shipped.ctx] /\
    held p' = [Manager; GroupOf 0; PipeOf 0; Ctx 0].
Proof.
  destruct (SetUpFromConf_builds (fun _ => true) (fun _ => true) DemoNumber.strtod false 0 Shipped.address 1 2 3 4
    Shipped.benchmark_config 4096 Shipped.process0 (Shipped.parse Shipped.benchmark_config)
    (Shipped.conf Shipped.benchmark_config) (Shipped.items Shipped.benchmark_config) [Shipped.ctx])
    as (p' & E & Hh & _).
  - done.
  - apply Shipped.conf_file_intro; by vm_compute.
  - assert (E : Shipped.items Shipped.benchmark_config = [List.nth 0 (Shipped.items Shipped.benchmark_config) JInvalid])
      by (vm_compute; reflexivity).
    rewrite E. constructor; [by vm_compute|constructor].
  - do 3 eexists. split; [exact E|]. split_and!; [by vm_compute|done|]. rewrite Hh. by vm_compute.
Defined.

Lemma SetUpFromConf_disabled_witness :
  exists p',
    SetUpFromConf (fun _ => true) (fun _ => true) DemoNumber.strtod false 0 Shipped.address 1 2 3 4
      (File Shipped.switched_off 4096) Shipped.process0 = Some ((-1, None), p') /\
    held p' = [GroupOf 0; PipeOf 0; Ctx 0].
Proof.
  set (l := Shipped.items Shipped.switched_off). set (nth i := List.nth i l JInvalid).
  assert (El : l = [nth 0%nat] ++ nth 1%nat :: [nth 2%nat]) by (vm_compute; reflexivity).
  destruct (SetUpFromConf_disabled (fun _ => true) (fun _ => true) DemoNumber.strtod false 0 Shipped.address 1 2 3 4
    Shipped.switched_off 4096 Shipped.process0 (Shipped.parse Shipped.switched_off)
    (Shipped.conf Shipped.switched_off) [nth 0%nat] (nth 1%nat) [nth 2%nat] [Shipped.ctx]) as (p' & E & Hh).
  - done.
  - rewrite <- El. apply Shipped.conf_file_intro; by vm_compute.
  - constructor; [by vm_compute|constructor].
  - by vm_compute.
  - exists p'. split; [exact E|]. rewrite Hh. by vm_compute.
Defined.
