(* ===== verification/Session.v ===== *)
(** * The threads of a group at work

    How the threads of [MbPgTestTasks] start, connect and stop: the shutdown
    flag and the signal handlers ([src/src/sdhs/Signals.c]), the barrier that the
    three of them meet at, the reading of the Modbus configuration and the
    connection ([MbPrepareCtx] of [CommProtocols/Modbus.c], [SocketCreate] of
    [Common/Socket.c]), the outer loop of [MbRun]
    ([DataHandlers/ModbusWithPostgres/Modbus.c]) around the rounds of [Modbus],
    and the test server ([DevUtils/ModbusTestServer.c]).

    The results of system calls are inputs; descriptors are those open.  [None]
    is a fault or the end of the process. *)

From S2P Require Import Prelude.
From S2P Require Import UArena.
From S2P Require Import LmDefs.
From S2P Require Import Json.
From S2P Require Import Pipe.
From S2P Require Import ThreadGroup.
From S2P Require Import Time.
From S2P Require Import Modbus.
From S2P Require Import SetUp.
From Stdlib Require Import Strings.String.
#[local] Open Scope Z_scope.
#[local] Abbreviation length := List.length.

(** ** Signals *)

Inductive signal := SIGINT | SIGTERM | SIGSEGV | SIGABRT | SIGFPE | SIGILL | SIGPIPE | SIGHUP.

#[export] Instance signal_eq_dec : EqDecision signal.
Proof. solve_decision. Defined.

Definition SignalsToHandle : list signal := [SIGINT; SIGTERM; SIGSEGV; SIGABRT; SIGFPE; SIGILL].

(** The loop over the signals: those installed, and whether all were. *)
Fixpoint install (sigaction : signal -> bool) (l : list signal) : list signal * bool :=
  match l with
  | [] => ([], true)
  | s :: l => if sigaction s then let '(h, ok) := install sigaction l in (s :: h, ok) else ([], false)
  end.

Definition SdbSetupSignalHandlers (sigaction : signal -> bool) : Z * list signal :=
  let '(h, ok) := install sigaction SignalsToHandle in (if ok : bool then 0 else -1, h).

(** [GShutdownRequested] *)
Definition InitiateGracefulShutdown (GShutdownRequested : Z) : Z := 1.
Definition SdbShouldShutdown (GShutdownRequested : Z) : bool := negb (GShutdownRequested =? 0).

(** The flag after the handler; [None] when it exits. *)
Definition SignalHandler (SignalNum : signal) (GShutdownRequested : Z) : option Z :=
  match SignalNum with
  | SIGINT | SIGTERM => Some (InitiateGracefulShutdown GShutdownRequested)
  | SIGSEGV | SIGABRT | SIGFPE | SIGILL => None
  | _ => Some GShutdownRequested
  end.

(** A signal arrives: to its handler, or to the default action, which for all
    of these ends the process. *)
Definition deliver (handled : list signal) (s : signal) (GShutdownRequested : Z) : option Z :=
  if decide (s ∈ handled) then SignalHandler s GShutdownRequested else None.

(** ** The barrier *)

(** A thread of the group: it prepares, waits at [Ctx->Barrier], goes on when
    as many as the barrier counts have come, and returns.  A thread whose
    preparation fails returns without having been at the barrier: [PgRun] when
    [PgPrepareCtx] or epoll fails, [RunModbusTestServer] when one of its calls
    does.  The start of [MbRun] has no failure exit. *)
Inductive member := Preparing | AtBarrier | Released | Returned.

#[export] Instance member_eq_dec : EqDecision member.
Proof. solve_decision. Defined.

Inductive group_move := Prepared (t : nat) (ok : bool) | Pass | Return (t : nat).

Definition release (m : member) : member := match m with AtBarrier => Released | _ => m end.

Definition waiting_members (ms : list member) : nat := length (filter (fun m => m = AtBarrier) ms).

(** [Barrier] is the count it was initialised with. *)
Definition group_step (Barrier : nat) (m : group_move) (ms : list member) : option (list member) :=
  match m with
  | Prepared t ok =>
      if decide (ms !! t = Some Preparing) then Some (<[t := if ok : bool then AtBarrier else Returned]> ms) else None
  | Pass => if decide (waiting_members ms = Barrier) then Some (map release ms) else None
  | Return t => if decide (ms !! t = Some Released) then Some (<[t := Returned]> ms) else None
  end.

(** The moves so far, newest first, and the members after them. *)
Inductive group_run (ThreadCount : nat) : list group_move -> list member -> Prop :=
  | run_start : group_run ThreadCount [] (replicate ThreadCount Preparing)
  | run_move m tr ms ms' :
      group_run ThreadCount tr ms -> group_step ThreadCount m ms = Some ms' ->
      group_run ThreadCount (m :: tr) ms'.

(** ** The Modbus configuration *)

(** [strtok] at [s]: the token, and where the next call goes on. *)
Fixpoint skip_char (d : Z) (s : list Z) : list Z :=
  match s with c :: s' => if c =? d then skip_char d s' else s | [] => [] end.
Fixpoint token (d : Z) (s : list Z) : list Z :=
  match s with c :: s' => if c =? d then [] else c :: token d s' | [] => [] end.

Definition strtok (d : Z) (s : list Z) : option (list Z * list Z) :=
  match skip_char d s with
  | [] => None
  | s => let t := token d s in Some (t, drop (S (length t)) s)
  end.

(** The tokens that a loop of [strtok] sees; the length of [s] is fuel enough. *)
Fixpoint tokens (fuel : nat) (d : Z) (s : list Z) : list (list Z) :=
  match fuel with
  | O => []
  | S fuel => match strtok d s with Some (t, s) => t :: tokens fuel d s | None => [] end
  end.

(** [strncmp(s, p, strlen(p)) == 0] *)
Definition starts_with (p s : list Z) : bool := bool_decide (take (length p) s = p).

(** [atoi]; undefined when the value is not an [int]. *)
Definition atoi (s : list Z) : option Z :=
  let s := skip_space s in
  let '(neg, digits) := match s with
                        | 43 :: s' => (false, s')
                        | 45 :: s' => (true, s')
                        | _ => (false, s)
                        end in
  let v := fst (scan_digits 0 digits) in
  let v := if neg : bool then - v else v in
  if (INT_MIN <=? v) && (v <=? INT_MAX) then Some v else None.

Definition ipv4Addr : list Z := bytes "ipv4Addr=".
Definition port : list Z := bytes "port=".

(** The body of the loop over the lines, on [IpAddr] and [Port]. *)
Definition scan_line (Line : list Z) (r : option (list Z) * Z) : option (option (list Z) * Z) :=
  if starts_with ipv4Addr Line then Some (Some (drop 9 Line), snd r)
  else if starts_with port Line then Port ← atoi (drop 5 Line); Some (fst r, Port)
  else Some r.

Fixpoint scan_lines (Lines : list (list Z)) (r : option (list Z) * Z) : option (option (list Z) * Z) :=
  match Lines with
  | [] => Some r
  | Line :: Lines => r ← scan_line Line r; scan_lines Lines r
  end.

(** The text at an address, up to its NUL, of the bytes mapped there. *)
Fixpoint text_at (l : list Z) : option (list Z) :=
  match l with
  | [] => None
  | c :: l => if c =? 0 then Some [] else t ← text_at l; Some (c :: t)
  end.

(** ** The connection *)

Definition sizeof_modbus_ctx : Z := 16.
Definition sizeof_mb_conn : Z := 16.
Definition sizeof_sdb_file_data : Z := 8.
Definition sizeof_sdb_string_header : Z := 24.

(** What an attempt meets: the file and the bytes mapped behind it in the arena,
    whether there is a scratch arena, and the results of [socket] and
    [connect]. *)
Record attempt := mkAttempt {
  conf_fs : file; above : list Z; scratch_free : bool; socket_ok : bool; connect_ok : bool;
}.

(** The only connection of [modbus_ctx]. *)
Record mb_conn := mkConn { SockFd : Z; Port : Z; Ip : option (list Z) }.

Section Connection.
(** The descriptor that the kernel gives out when these are open; whether
    [inet_pton] accepts an address. *)
Variable new_fd : gset Z -> Z.
Variable inet_pton : list Z -> bool.

(** [fopen(Filename, "rb")] and [fclose(File)], by their descriptor. *)
Definition fopen (f : file) (fds : gset Z) : option Z * gset Z :=
  match f with
  | NoFile => (None, fds)
  | _ => (Some (new_fd fds), fds ∪ {[new_fd fds]})
  end.

Definition fclose (fd : Z) (fds : gset Z) : gset Z := fds ∖ {[fd]}.

(** [SdbLoadFileIntoMemory(Filename, Arena)], with the open descriptors: the byte
    after [Data] is what the arena had there. *)
Definition load_on_arena (f : file) (A : allocator) (fds : gset Z) : option (list Z) * allocator * gset Z :=
  match fopen f fds with
  | (None, fds) => (None, A, fds)
  | (Some fd, fds) =>
      match f with
      | NoFile | Unseekable => (None, A, fclose fd fds)
      | File Data readable =>
          let FileDataSize := sizeof_sdb_file_data + Z.of_nat (length Data) + 1 in
          let '(ok, A) := push FileDataSize A in
          if negb ok then (None, A, fclose fd fds)
          else if (readable <? length Data)%nat then
            let fds := fclose fd fds in
            (None, match A with OnArena cap cur => OnArena cap (fst (Bump.step cap cur (Bump.Pop (u64 FileDataSize))))
                              | Malloced ok => Malloced ok end, fds)
          else (Some Data, A, fclose fd fds)
      end
  end.

(** [DbInitGetConfFromFile]: the file is loaded, parsed and given back; [above]
    is what is mapped behind its data. *)
Definition DbInitGetConfFromFile (f : file) (A : allocator) (above : list Z) (grant : nat -> bool)
    (strtod : list Z -> SpecFloat.spec_float * nat) (b : pbuf) (fds : gset Z)
    : option (option json * allocator * gset Z * pbuf) :=
  match load_on_arena f A fds with
  | (None, A, fds) => Some (None, A, fds, b)
  | (Some Data, _, fds) => Schema ← cJSON_Parse (Data ++ above) grant strtod b; Some (item Schema, A, fds, after Schema)
  end.

(** The result and the open descriptors. *)
Definition SocketCreate (IpAddress : option (list Z)) (socket_ok connect_ok : bool) (fds : gset Z)
    : option (Z * gset Z) :=
  if negb socket_ok then Some (-1, fds)
  else
    let SockFd := new_fd fds in
    let fds := fds ∪ {[SockFd]} in
    IpAddress ← IpAddress;
    if negb (inet_pton IpAddress) then Some (-1, fds ∖ {[SockFd]})
    else if negb connect_ok then Some (-1, fds ∖ {[SockFd]})
    else Some (SockFd, fds).

(** The context, NULL or its connection; the arena; the open descriptors. *)
Definition MbPrepareCtx (t : attempt) (MbArena : allocator) (fds : gset Z)
    : option (option mb_conn * allocator * gset Z) :=
  let '(MbCtx, A) := push sizeof_modbus_ctx MbArena in
  if negb MbCtx then None
  else
    let '(Conns, A) := push (sizeof_mb_conn * 1) A in
    if negb (scratch_free t) then Some (None, A, fds)
    else
      match load_on_arena (conf_fs t) A fds with
      | (None, A, fds) => Some (None, A, fds)
      | (Some Data, A, fds) =>
          Content ← text_at (Data ++ above t);
          '(IpAddr, Port) ← scan_lines (tokens (length Content) 10 Content) (None, -1);
          match IpAddr with
          | None => Some (None, A, fds)
          | Some IpAddr =>
              if Port =? -1 then Some (None, A, fds)
              else if negb Conns then None
              else
                let '(Ip, A) := push (sizeof_sdb_string_header + Z.of_nat (length IpAddr) + 1) A in
                let Ip := if Ip then Some IpAddr else None in
                '(SockFd, fds) ← SocketCreate Ip (socket_ok t) (connect_ok t) fds;
                if SockFd =? -1 then Some (None, A, fds) else Some (Some (mkConn SockFd Port Ip), A, fds)
          end
      end.

(** ** The loop of the Modbus thread *)

(** The state of [MbRun] at the head of one of its loops: of the inner one when
    there is a connection. [Attempts] counts the calls of [MbPrepareCtx]. *)
Record mbrun := mkMbRun {
  Conn : option mb_conn;
  MbArena : allocator;
  fds : gset Z;
  CurBuf : Z;
  SdPipe : pipe;
  network : net;            (* what is still to come on the connection *)
  Attempts : nat;
  finished : bool;
}.

(** A turn: the shutdown flag that the loop reads, what the attempt meets and
    what the new connection brings, and what the database thread has done to
    the pipe since. *)
Record turn := mkTurn { stop : bool; meets : attempt; brings : net; meanwhile : pipe -> pipe }.

Variables BufCount BufCap BufferMaxFill PacketSize : Z.

(** From [reconnect] on. *)
Definition MbRun_disconnect (c : mb_conn) (CurBuf : Z) (p : pipe) (s : mbrun) : option mbrun :=
  '(CurBuf, p) ← MbRun_reconnect BufCount CurBuf p;
  Some (mkMbRun None (MbArena s) (if SockFd c =? -1 then fds s else fds s ∖ {[SockFd c]})
          CurBuf p [] (Attempts s) false).

Definition MbRun (i : turn) (s : mbrun) : option mbrun :=
  let p := meanwhile i (SdPipe s) in
  match Conn s with
  | None =>
      if stop i then Some (mkMbRun None (MbArena s) (fds s) (CurBuf s) p (network s) (Attempts s) true)
      else
        '(c, A, fds) ← MbPrepareCtx (meets i) (MbArena s) (fds s);
        Some (mkMbRun c A fds (CurBuf s) p (brings i) (S (Attempts s)) false)
  | Some c =>
      if stop i then MbRun_disconnect c (CurBuf s) p s
      else
        '(o, CurBuf, p, w) ← MbRun_round BufCount BufCap BufferMaxFill PacketSize (CurBuf s) p (network s);
        match o with
        | MbReconnect => MbRun_disconnect c CurBuf p s
        | _ => Some (mkMbRun (Some c) (MbArena s) (fds s) CurBuf p w (Attempts s) false)
        end
  end.

Inductive mbrun_reachable (s0 : mbrun) : mbrun -> Prop :=
  | mbrun_start : mbrun_reachable s0 s0
  | mbrun_turn i s s' :
      mbrun_reachable s0 s -> finished s = false -> MbRun i s = Some s' -> mbrun_reachable s0 s'.
End Connection.

(** ** The test server *)

(** The results of the calls before the loop. *)
Record server_start := mkServerStart {
  ss_socket : bool; ss_reuseaddr : bool; ss_nodelay : bool; ss_bind : bool; ss_listen : bool;
}.

(** What [send] says: how many bytes were taken; no room; an error; the peer has
    closed, which is a SIGPIPE and, if that is survived, an error. *)
Inductive send_result := Taken (n : nat) | WouldBlock | SendFailed | PeerClosed.

Inductive server_pc :=
  | Accepting
  | Serving (NewFd : Z) (LastSend : timespec)
  | ServerDone.

(** [wire] is what the current client was sent, [sends] the times of the sends
    to it, newest first. *)
Record server := mkServer {
  spc : server_pc; SrvFd : Z; srv_fds : gset Z; wire : list Z; sends : list timespec;
}.

Record server_input := mkInput {
  si_stop : bool; si_accept : bool; si_now : timespec; si_data : list Z; si_send : send_result;
}.

(** [(Now.tv_sec - LastSend.tv_sec) * 1000000 + (Now.tv_nsec - LastSend.tv_nsec) / 1000] *)
Definition microseconds_since (Now LastSend : timespec) : Z :=
  (tv_sec Now - tv_sec LastSend) * 1000000 + Z.quot (tv_nsec Now - tv_nsec LastSend) 1000.

Section Server.
Variable new_fd : gset Z -> Z.
Variable handled : list signal.

(** Up to the barrier: the listening descriptor, or none. *)
Definition RunModbusTestServer_start (e : server_start) (fds : gset Z) : option Z * gset Z :=
  if negb (ss_socket e) then (None, fds)
  else
    let SockFd := new_fd fds in
    let fds := fds ∪ {[SockFd]} in
    if negb (ss_reuseaddr e) then (None, fds ∖ {[SockFd]})
    else if negb (ss_nodelay e) then (None, fds ∖ {[SockFd]})
    else if negb (ss_bind e) then (None, fds ∖ {[SockFd]})
    else if negb (ss_listen e) then (None, fds ∖ {[SockFd]})
    else (Some SockFd, fds).

(** A turn of either loop; the data of [SendModbusData] is [si_data].  [None]:
    the process ends, by the signal. *)
Definition RunModbusTestServer (i : server_input) (s : server) : option server :=
  match spc s with
  | Accepting =>
      if si_stop i then Some (mkServer ServerDone (SrvFd s) (srv_fds s ∖ {[SrvFd s]}) (wire s) (sends s))
      else if negb (si_accept i) then Some s
      else
        let NewFd := new_fd (srv_fds s) in
        Some (mkServer (Serving NewFd (si_now i)) (SrvFd s) (srv_fds s ∪ {[NewFd]}) [] [])
  | Serving NewFd LastSend =>
      let closed := mkServer Accepting (SrvFd s) (srv_fds s ∖ {[NewFd]}) (wire s) (sends s) in
      if si_stop i then Some (mkServer ServerDone (SrvFd s) (srv_fds s ∖ {[NewFd]} ∖ {[SrvFd s]}) (wire s) (sends s))
      else if microseconds_since (si_now i) LastSend <? 100 then Some s
      else
        frame ← SendModbusData (si_data i);
        match si_send i with
        | Taken n => Some (mkServer (Serving NewFd (si_now i)) (SrvFd s) (srv_fds s)
                             (wire s ++ take n frame) (si_now i :: sends s))
        | WouldBlock => Some s
        | SendFailed => Some closed
        | PeerClosed => if decide (SIGPIPE ∈ handled) then Some closed else None
        end
  | ServerDone => Some s
  end.

Inductive server_reachable (s0 : server) : server -> Prop :=
  | server_begin : server_reachable s0 s0
  | server_turn i s s' :
      server_reachable s0 s -> RunModbusTestServer i s = Some s' -> server_reachable s0 s'.
End Server.

(** ** The barrier: invariants *)

(** No one has been let through: a member is where its preparation put it. *)
Definition unmet (tr : list group_move) (ms : list member) : Prop :=
  forall t m, ms !! t = Some m ->
    match m with
    | Preparing => forall ok, Prepared t ok ∉ tr
    | AtBarrier => Prepared t false ∉ tr
    | Returned => (Prepared t true ∉ tr) /\ Prepared t false ∈ tr
    | Released => False
    end.

(** Everyone has been. *)
Definition met (tr : list group_move) (ms : list member) : Prop :=
  (forall t m, ms !! t = Some m -> m = Released \/ m = Returned) /\ forall t, Prepared t false ∉ tr.

Lemma waiting_all ms : waiting_members ms = length ms -> forall t m, ms !! t = Some m -> m = AtBarrier.
Proof.
  unfold waiting_members. induction ms as [|x ms IH]; intros H t m Hm; [done|].
  pose proof (length_filter (fun m => m = AtBarrier) ms) as Hle. rewrite filter_cons in H.
  destruct (decide (x = AtBarrier)); cbn [length] in H; [|lia].
  destruct t as [|t]; cbn in Hm; [congruence|]. apply (IH ltac:(lia) t m Hm).
Qed.

Lemma waiting_le ms : (waiting_members ms <= length ms)%nat.
Proof. apply length_filter. Qed.

Lemma unmet_insert tr ms t ok :
  unmet tr ms -> ms !! t = Some Preparing ->
  unmet (Prepared t ok :: tr) (<[t := if ok then AtBarrier else Returned]> ms).
Proof.
  intros H Ht t' m Hm. destruct (decide (t = t')) as [<-|Hne].
  - rewrite list_lookup_insert_eq in Hm by (by eapply lookup_lt_Some). injection Hm as <-.
    specialize (H t _ Ht) as Hp. destruct ok; rewrite ?not_elem_of_cons, ?elem_of_cons.
    + split; [done|apply Hp].
    + split; [split; [done|apply Hp]|by left].
  - rewrite list_lookup_insert_ne in Hm by done. specialize (H t' m Hm). destruct m; try done.
    + intros ok'. rewrite not_elem_of_cons. split; [congruence|apply H].
    + rewrite not_elem_of_cons. split; [congruence|done].
    + rewrite not_elem_of_cons, elem_of_cons. split; [split; [congruence|apply H]|right; apply H].
Qed.

Lemma unmet_pass tr ms : unmet tr ms -> waiting_members ms = length ms ->
  (forall t ok, Prepared t ok ∈ tr -> (t < length ms)%nat) -> met (Pass :: tr) (map release ms).
Proof.
  intros H Hw Hr. pose proof (waiting_all _ Hw) as Hall. split.
  - intros t m Hm. apply list_lookup_fmap_Some in Hm as (m0 & -> & Hm). rewrite (Hall t m0 Hm). by left.
  - intros t. rewrite not_elem_of_cons. split; [done|]. intros Ht. specialize (Hr t false Ht).
    apply lookup_lt_is_Some_2 in Hr as [m Hm]. specialize (H t m Hm). rewrite (Hall t m Hm) in H. by apply H.
Qed.

Record run_inv (n : nat) (tr : list group_move) (ms : list member) : Prop := {
  ri_length : length ms = n;
  ri_range : forall t ok, Prepared t ok ∈ tr -> (t < n)%nat;
  ri_state : unmet tr ms \/ met tr ms;
}.

Lemma run_inv_holds n tr ms : group_run n tr ms -> run_inv n tr ms.
Proof.
  induction 1 as [|m tr ms ms' Hrun [Hl Hr Hs] Hstep].
  { split; [apply length_replicate|intros t ok H; by apply elem_of_nil in H|left].
    intros t m [-> _]%lookup_replicate_1 ok. apply not_elem_of_nil. }
  destruct m as [t ok| |t]; cbn in Hstep; case_decide as Hd; try done; injection Hstep as <-.
  - split; [by rewrite length_insert| |left].
    + intros t' ok' [[= -> ->]|Ht]%elem_of_cons; [|by eapply Hr]. rewrite <- Hl. by eapply lookup_lt_Some.
    + destruct Hs as [Hs|[Hs _]]; [by apply unmet_insert|]. by destruct (Hs _ _ Hd).
  - split; [by rewrite length_map|intros t ok [?|Ht]%elem_of_cons; [done|by eapply Hr]|right].
    destruct Hs as [Hs|[Hs Hf]].
    + apply unmet_pass; [done|congruence|]. intros t ok Ht. rewrite Hl. by eapply Hr.
    + split.
      * intros t m Hm. apply list_lookup_fmap_Some in Hm as (m0 & -> & Hm).
        destruct (Hs t m0 Hm) as [-> | ->]; tauto.
      * intros t. rewrite not_elem_of_cons. by split.
  - split; [by rewrite length_insert|intros t' ok [?|Ht]%elem_of_cons; [done|by eapply Hr]|right].
    destruct Hs as [Hs|[Hs Hf]]; [by destruct (Hs _ _ Hd)|]. split.
    + intros t' m Hm. destruct (decide (t = t')) as [<-|Hne].
      * rewrite list_lookup_insert_eq in Hm by (by eapply lookup_lt_Some). injection Hm as <-. by right.
      * rewrite list_lookup_insert_ne in Hm by done. by eapply Hs.
    + intros t'. rewrite not_elem_of_cons. by split.
Qed.

(** How far a member has to go. *)
Definition way (m : member) : nat :=
  match m with Preparing => 3 | AtBarrier => 2 | Released => 1 | Returned => 0 end.
Fixpoint ways (ms : list member) : nat := match ms with [] => 0 | m :: ms => way m + ways ms end.

Lemma ways_insert ms t m m' : ms !! t = Some m -> (ways (<[t := m']> ms) + way m = ways ms + way m')%nat.
Proof.
  revert t. induction ms as [|x ms IH]; intros [|t] H; try done.
  - injection H as ->. cbn. lia.
  - specialize (IH t H). change (<[S t := m']> (x :: ms)) with (x :: <[t := m']> ms). cbn [ways]. lia.
Qed.

Lemma ways_release ms : (ways (map release ms) + waiting_members ms = ways ms)%nat.
Proof.
  unfold waiting_members. induction ms as [|x ms IH]; [done|]. rewrite filter_cons.
  cbn [map ways]. destruct x; cbn [release way]; case_decide; try done; cbn [length]; lia.
Qed.

Lemma ways_zero ms : ways ms = 0%nat -> ms = replicate (length ms) Returned.
Proof.
  induction ms as [|x ms IH]; cbn; [done|]. intros H. destruct x; cbn in H; try lia.
  f_equal. by apply IH.
Qed.

Lemma group_step_lowers n m ms ms' :
  (0 < n)%nat -> group_step n m ms = Some ms' -> (ways ms' < ways ms)%nat.
Proof.
  intros Hn. destruct m as [t ok| |t]; cbn; case_decide as Hd; try done; intros [= <-].
  - pose proof (ways_insert ms t _ (if ok then AtBarrier else Returned) Hd). destruct ok; cbn in *; lia.
  - pose proof (ways_release ms). lia.
  - pose proof (ways_insert ms t _ Returned Hd). cbn in *. lia.
Qed.

(** Unless all have returned, a member can move, and prepares if it must. *)
Lemma group_can_step n tr ms :
  (0 < n)%nat -> group_run n tr ms -> (forall t, Prepared t false ∉ tr) -> (0 < ways ms)%nat ->
  exists m ms', group_step n m ms = Some ms' /\ forall t, m <> Prepared t false.
Proof.
  intros Hn Hrun Hok Hw. destruct (run_inv_holds _ _ _ Hrun) as [Hl Hr Hs].
  destruct (decide (Preparing ∈ ms)) as [(t & Ht)%list_elem_of_lookup|Hp].
  { exists (Prepared t true). eexists. split; [cbn; by rewrite decide_True|done]. }
  destruct (decide (Released ∈ ms)) as [(t & Ht)%list_elem_of_lookup|Hrel].
  { exists (Return t). eexists. split; [cbn; by rewrite decide_True|done]. }
  exists Pass. eexists. split; [cbn; rewrite decide_True; [done|]|done].
  assert (Hall : forall t m, ms !! t = Some m -> m = AtBarrier).
  { intros t m Hm. pose proof (list_elem_of_lookup_2 _ _ _ Hm) as Hin. destruct Hs as [Hs|[Hs _]].
    - specialize (Hs t m Hm). destruct m; try done. by destruct (Hok t (proj2 Hs)).
    - exfalso. enough (ways ms = 0%nat) by lia. clear -Hs Hrel.
      induction ms as [|x ms IH]; [done|]. cbn.
      destruct (Hs O x eq_refl) as [-> | ->]; [by destruct Hrel; left|].
      apply IH; [intros t m; apply (Hs (S t))|]. intros H. by apply Hrel; right. }
  clear -Hall Hl. subst n. unfold waiting_members. induction ms as [|x ms IH]; [done|].
  rewrite filter_cons, (Hall O x eq_refl), decide_True by done. cbn. f_equal. apply IH.
  intros t m. apply (Hall (S t)).
Qed.

Lemma group_extends n tr ms :
  (0 < n)%nat -> group_run n tr ms -> (forall t, Prepared t false ∉ tr) ->
  exists tr', group_run n (tr' ++ tr) (replicate n Returned) /\ forall t, Prepared t false ∉ tr'.
Proof.
  intros Hn. remember (ways ms) as w eqn:Hw. revert tr ms Hw.
  induction w as [w IH] using lt_wf_ind. intros tr ms Hw Hrun Hok.
  destruct (decide (ways ms = 0%nat)) as [H0|H0].
  { exists []. split; [|intros t; apply not_elem_of_nil]. apply ways_zero in H0.
    by rewrite (ri_length _ _ _ (run_inv_holds _ _ _ Hrun)) in H0; subst ms. }
  destruct (group_can_step n tr ms Hn Hrun Hok) as (m & ms' & Hstep & Hm); [lia|].
  destruct (IH (ways ms')) with (tr := m :: tr) (ms := ms') as (tr' & Hrun' & Hok');
    [subst w; by eapply group_step_lowers|done|by eapply run_move| |].
  { intros t. rewrite not_elem_of_cons. split; [|apply Hok]. intros H. by apply (Hm t). }
  exists (tr' ++ [m]). rewrite <- app_assoc. split; [done|]. intros t Ht.
  apply elem_of_app in Ht as [Ht|Ht%list_elem_of_singleton]; [by apply (Hok' t)|by apply (Hm t)].
Qed.

Lemma group_run_bounded n tr ms : (0 < n)%nat -> group_run n tr ms -> (length tr + ways ms <= 3 * n)%nat.
Proof.
  intros Hn. induction 1 as [|m tr ms ms' Hrun IH Hstep].
  - cbn. clear. enough (ways (replicate n Preparing) = (3 * n)%nat) by lia. induction n; cbn; lia.
  - apply group_step_lowers in Hstep; [|done]. cbn. lia.
Qed.

(** A run is checked by replaying it. *)
Fixpoint replay (n : nat) (tr : list group_move) : option (list member) :=
  match tr with
  | [] => Some (replicate n Preparing)
  | m :: tr => ms ← replay n tr; group_step n m ms
  end.

Lemma replay_run n tr ms : replay n tr = Some ms -> group_run n tr ms.
Proof.
  revert ms. induction tr as [|m tr IH]; cbn; intros ms H; [injection H as <-; constructor|].
  destruct (replay n tr) as [ms0|]; [|done]. by eapply run_move; [apply IH|].
Qed.

(** A thread that fails to start strands the others.  As soon as one member
    of the group has returned without having been at the barrier, a member
    that came to it waits there, and so it does in every later state: it is
    never joined, and its group never completes. *)
Theorem group_stranded (n : nat) (tr later : list group_move) (ms : list member) (k t : nat) :
  group_run n (later ++ tr) ms -> Prepared k false ∈ tr -> Prepared t true ∈ tr -> ms !! t = Some AtBarrier.
Proof.
  intros Hrun Hk Ht. destruct (run_inv_holds _ _ _ Hrun) as [Hl Hr Hs].
  assert (Hk' : Prepared k false ∈ later ++ tr) by (apply elem_of_app; by right).
  assert (Ht' : Prepared t true ∈ later ++ tr) by (apply elem_of_app; by right).
  destruct Hs as [Hs|[_ Hs]]; [|by destruct (Hs k)].
  pose proof (Hr t true Ht') as Hin. rewrite <- Hl in Hin. apply lookup_lt_is_Some_2 in Hin as [m Hm].
  specialize (Hs t m Hm). destruct m; try done; [by destruct (Hs true)|by destruct Hs].
Qed.

(** The database thread (0) fails; the server (1) and the Modbus thread (2)
    come to the barrier. *)
Lemma group_stranded_witness :
  exists ms, group_run 3 ([Prepared 2 true] ++ [Prepared 1 true; Prepared 0 false]) ms /\
             ms !! 1%nat = Some AtBarrier.
Proof.
  assert (Hrun : group_run 3 ([Prepared 2 true] ++ [Prepared 1 true; Prepared 0 false])
                   [Returned; AtBarrier; AtBarrier]).
  { apply replay_run. by vm_compute. }
  eexists. split; [exact Hrun|].
  exact (group_stranded 3 [Prepared 1 true; Prepared 0 false] [Prepared 2 true] _ 0 1 Hrun
           ltac:(right; left) ltac:(left)).
Defined.

(** A group whose threads all start also ends.  In any order, while no
    preparation has failed, at most three moves per thread have been made and
    the run can go on to the return of every thread: there is no deadlock
    at the barrier. *)
Theorem group_returns (n : nat) (tr : list group_move) (ms : list member) :
  (0 < n)%nat -> group_run n tr ms -> (forall t, Prepared t false ∉ tr) ->
  (length tr <= 3 * n)%nat /\
  exists tr', group_run n (tr' ++ tr) (replicate n Returned) /\ forall t, Prepared t false ∉ tr'.
Proof.
  intros Hn Hrun Hok. split; [pose proof (group_run_bounded n tr ms Hn Hrun); lia|by eapply group_extends].
Qed.

Lemma group_returns_witness :
  exists tr', group_run 3 (tr' ++ [Return 1; Pass; Prepared 1 true; Prepared 0 true; Prepared 2 true])
                [Returned; Returned; Returned].
Proof.
  assert (Hrun : group_run 3 [Return 1; Pass; Prepared 1 true; Prepared 0 true; Prepared 2 true]
                   [Released; Returned; Released]).
  { apply replay_run. by vm_compute. }
  destruct (group_returns 3 _ _ ltac:(lia) Hrun) as (_ & tr' & H & _); [|by exists tr'].
  intros t. rewrite !not_elem_of_cons. split_and!; try done. apply not_elem_of_nil.
Defined.

(** ** The configuration: lemmas *)

Lemma skip_char_first d c s : c <> d -> skip_char d (c :: s) = c :: s.
Proof. intros H. cbn. by rewrite (proj2 (Z.eqb_neq _ _)). Qed.

Lemma token_line d l s : Forall (fun c => c <> d) l -> token d (l ++ d :: s) = l.
Proof.
  induction 1 as [|c l Hc _ IH]; cbn; [by rewrite Z.eqb_refl|]. by rewrite (proj2 (Z.eqb_neq _ _)), IH.
Qed.

Lemma token_last d l : Forall (fun c => c <> d) l -> token d l = l.
Proof. induction 1 as [|c l Hc _ IH]; cbn; [done|]. by rewrite (proj2 (Z.eqb_neq _ _)), IH. Qed.

(** A line of the file: not empty, without a newline or a NUL. *)
Definition is_line (l : list Z) : Prop := l <> [] /\ Forall (fun c => c <> 10 /\ c <> 0) l.

(** Lines, each ended by a newline, and one that need not be. *)
Definition join_lines (ls : list (list Z)) (last : list Z) : list Z := List.concat (map (fun l => l ++ [10]) ls) ++ last.

Lemma strtok_line l s : is_line l -> strtok 10 (l ++ 10 :: s) = Some (l, s).
Proof.
  intros [Hne Hl]. assert (Hn : Forall (fun c => c <> 10) l) by (eapply Forall_impl; [exact Hl|by intros c []]).
  unfold strtok. destruct l as [|c l]; [done|]. pose proof (Forall_inv Hn) as Hc. cbn [app].
  rewrite skip_char_first by done. rewrite app_comm_cons, token_line by done.
  f_equal. f_equal. rewrite drop_app_ge by lia. by replace (S _ - _)%nat with 1%nat by lia.
Qed.

Lemma strtok_last l : is_line l -> strtok 10 l = Some (l, []).
Proof.
  intros [Hne Hl]. assert (Hn : Forall (fun c => c <> 10) l) by (eapply Forall_impl; [exact Hl|by intros c []]).
  unfold strtok. destruct l as [|c l]; [done|]. pose proof (Forall_inv Hn) as Hc.
  rewrite skip_char_first by done. rewrite token_last by done. f_equal. f_equal. apply drop_ge. lia.
Qed.

Lemma tokens_lines ls last fuel :
  Forall is_line ls -> (last = [] \/ is_line last) -> (length (join_lines ls last) <= fuel)%nat ->
  tokens fuel 10 (join_lines ls last) = ls ++ (if decide (last = []) then [] else [last]).
Proof.
  unfold join_lines. intros Hls Hlast. revert fuel. induction Hls as [|l ls Hl _ IH]; intros fuel Hf; cbn [map List.concat app] in *.
  - destruct Hlast as [->|Hlast]; [by destruct fuel|]. rewrite decide_False by apply Hlast.
    destruct fuel as [|fuel]; [destruct Hlast as [Hne _]; destruct last; [done|cbn in Hf; lia]|].
    cbn [tokens]. rewrite strtok_last by done. by destruct fuel.
  - rewrite <- !app_assoc in *. cbn [app] in *. destruct fuel as [|fuel]; [rewrite length_app in Hf; cbn in Hf; lia|].
    cbn [tokens]. rewrite strtok_line by done. f_equal. apply IH. rewrite length_app in Hf. cbn in Hf. lia.
Qed.

Lemma text_at_nul l above : Forall (fun c => c <> 0) l -> text_at (l ++ 0 :: above) = Some l.
Proof.
  induction 1 as [|c l Hc _ IH]; cbn; [done|]. rewrite (proj2 (Z.eqb_neq _ _)) by done. by rewrite IH.
Qed.

Lemma join_lines_nonul ls last :
  Forall is_line ls -> (last = [] \/ is_line last) -> Forall (fun c => c <> 0) (join_lines ls last).
Proof.
  intros Hls Hlast. assert (Hline : forall l, is_line l -> Forall (fun c => c <> 0) l).
  { intros l [_ Hl]. eapply Forall_impl; [exact Hl|by intros c []]. }
  unfold join_lines. apply Forall_app_2; [|by destruct Hlast as [->|]; [constructor|apply Hline]].
  induction Hls as [|l ls Hl _ IH]; cbn; [done|]. apply Forall_app_2; [|done].
  apply Forall_app_2; [by apply Hline|by repeat constructor].
Qed.

(** The decimal digits of a number. *)
Fixpoint digits_value (acc : Z) (l : list Z) : Z :=
  match l with [] => acc | c :: l => digits_value (10 * acc + (c - 48)) l end.

Lemma scan_digits_all acc l : Forall (fun c => is_digit c = true) l -> scan_digits acc l = (digits_value acc l, []).
Proof. intros H. revert acc. induction H as [|c l Hc _ IH]; intros acc; cbn; [done|]. by rewrite Hc, IH. Qed.

(** [atoi] of a text that starts with a digit. *)
Lemma atoi_scan c l :
  is_digit c = true ->
  atoi (c :: l) = let v := fst (scan_digits 0 (c :: l)) in if (INT_MIN <=? v) && (v <=? INT_MAX) then Some v else None.
Proof.
  intros Hc. unfold atoi. pose proof Hc as H. unfold is_digit in H. apply andb_true_iff in H as [H1%Z.leb_le H2%Z.leb_le].
  assert (Hs : skip_space (c :: l) = c :: l).
  { cbn. unfold isspace. destruct ((c =? 32) || _) eqn:E; [lia|done]. }
  rewrite Hs. replace (match c :: l with 43 :: s => (false, s) | 45 :: s => (true, s) | _ => (false, c :: l) end)
    with (false, c :: l); [done|].
  assert (c <> 43 /\ c <> 45) by lia. destruct c as [|p|p]; try done.
  do 6 (destruct p as [p|p|]; try done; try lia).
Qed.

Lemma atoi_digits l :
  Forall (fun c => is_digit c = true) l -> 0 <= digits_value 0 l <= INT_MAX -> atoi l = Some (digits_value 0 l).
Proof.
  intros Hl Hv. destruct l as [|c l]; [done|]. rewrite (atoi_scan c l) by by inversion Hl.
  rewrite (scan_digits_all 0 _ Hl). cbn [fst]. unfold INT_MIN. cbv zeta.
  by rewrite (proj2 (Z.leb_le _ _)), (proj2 (Z.leb_le _ _)) by lia.
Qed.

(** [atoi] reads back what [%d] prints. *)
Lemma atoi_print n rest :
  0 <= n <= INT_MAX -> (forall c rest', rest = c :: rest' -> is_digit c = false) -> atoi (print_dec n ++ rest) = Some n.
Proof.
  intros Hn Hrest. unfold INT_MAX in Hn. pose proof (print_dec_digits n ltac:(lia)) as Hd.
  pose proof (print_dec_value n ltac:(lia)) as Hv. destruct (print_dec_nonempty n) as (c & l & Hp). rewrite Hp in *.
  cbn [app]. rewrite atoi_scan by by inversion Hd. rewrite app_comm_cons, scan_digits_app by done. cbn [fst]. rewrite Hv.
  unfold INT_MIN, INT_MAX. cbv zeta. by rewrite (proj2 (Z.leb_le _ _)), (proj2 (Z.leb_le _ _)) by lia.
Qed.

(** ** The connection: lemmas *)

Lemma push_arena n cap cur ok A :
  push n (OnArena cap cur) = (ok, A) -> 0 <= cur <= cap ->
  A = OnArena cap (if ok then cur + u64 n else cur) /\ (ok = true -> cur + u64 n <= cap).
Proof.
  unfold push. cbn [Bump.step]. destruct (Z.leb_spec (cur + u64 n) cap); by intros [= <- <-].
Qed.

Lemma push_room n cap cur :
  0 <= n < 2 ^ 64 -> cur + n <= cap -> push n (OnArena cap cur) = (true, OnArena cap (cur + n)).
Proof. intros Hn H. unfold push. rewrite u64_small by done. cbn [Bump.step]. by rewrite (proj2 (Z.leb_le _ _)). Qed.

Section ConnectionFacts.
Variable new_fd : gset Z -> Z.
Variable inet_pton : list Z -> bool.

(** A new descriptor is not one that is open, and not negative. *)
Definition fresh_descriptors : Prop := forall s, (new_fd s ∉ s) /\ 0 <= new_fd s.

Lemma close_new (fds : gset Z) fd : fd ∉ fds -> (fds ∪ {[fd]}) ∖ {[fd]} = fds.
Proof. set_solver. Qed.

Lemma SocketCreate_spec ip sok cok fds r fds' :
  fresh_descriptors -> SocketCreate new_fd inet_pton ip sok cok fds = Some (r, fds') ->
  (r = -1 /\ fds' = fds) \/ (r <> -1 /\ (r ∉ fds) /\ fds' = fds ∪ {[r]}).
Proof.
  intros Hf. unfold SocketCreate. destruct (Hf fds) as [Hn Hp].
  destruct sok; cbn [negb]; [|intros [= <- <-]; by left]. destruct ip as [ip|]; [|done]. cbn [mbind option_bind].
  destruct (inet_pton ip), cok; cbn [negb]; intros [= <- <-]; rewrite ?close_new by done;
    first [by left|right; split; [lia|done]].
Qed.

(** What loading a file leaves: the arena no shorter, and no descriptor. *)
Lemma load_on_arena_spec f cap cur fds r A fds' :
  fresh_descriptors -> load_on_arena new_fd f (OnArena cap cur) fds = (r, A, fds') -> 0 <= cur <= cap ->
  (exists cur', A = OnArena cap cur' /\ cur <= cur' <= cap) /\ fds' = fds.
Proof.
  unfold load_on_arena, fclose. intros Hf H Hc. destruct (Hf fds) as [Hn _].
  assert (Hsame : exists cur', OnArena cap cur = OnArena cap cur' /\ cur <= cur' <= cap) by (exists cur; split; [done|lia]).
  destruct f as [| |Data n]; cbn [fopen] in H; rewrite ?close_new in H by done; [by injection H as <- <- <-..|].
  destruct (push _ _) as [ok A'] eqn:E. apply push_arena in E as [-> Hok]; [|done].
  pose proof (u64_range (sizeof_sdb_file_data + Z.of_nat (length Data) + 1)) as Hu.
  destruct ok; cbn [negb] in H; [|by injection H as <- <- <-]. specialize (Hok eq_refl).
  destruct (n <? length Data)%nat; injection H as <- <- <-; (split; [|done]).
  - cbn [Bump.step fst]. eexists. split; [reflexivity|]. case_cmp; lia.
  - eexists. split; [reflexivity|]. lia.
Qed.

(** The arena and the descriptors are as before, whatever the file is and whether
    it parses. *)
Lemma DbInitGetConfFromFile_restores f cap cur above grant strtod b fds r A fds' b' :
  fresh_descriptors -> 0 <= cur <= cap ->
  DbInitGetConfFromFile new_fd f (OnArena cap cur) above grant strtod b fds = Some (r, A, fds', b') ->
  A = OnArena cap cur /\ fds' = fds.
Proof.
  intros Hf Hc. unfold DbInitGetConfFromFile.
  destruct (load_on_arena new_fd f (OnArena cap cur) fds) as [[o A'] fds1] eqn:E.
  pose proof (load_on_arena_spec _ _ _ _ _ _ _ Hf E Hc) as [_ ->]. destruct o as [Data|].
  - destruct (cJSON_Parse _ _ _ _); [|done]. by intros [= _ <- <- _].
  - intros [= _ <- <- _]. split; [|done]. unfold load_on_arena, fclose in E.
    destruct f as [| |Data n]; cbn [fopen] in E; [by injection E as <-..|].
    destruct (push _ _) as [ok A1] eqn:Ep. apply push_arena in Ep as [-> Hok]; [|done].
    pose proof (u64_range (sizeof_sdb_file_data + Z.of_nat (length Data) + 1)) as Hu.
    destruct ok; cbn [negb] in E; [|by injection E as <-]. specialize (Hok eq_refl).
    destruct (n <? length Data)%nat; [|discriminate E]. injection E as <-. f_equal.
    cbn [Bump.step fst]. case_cmp; lia.
Qed.

(** What an attempt leaves, whatever its outcome: the structure pushed first
    stays in the arena, and the only new descriptor is that of the
    connection. *)
Lemma MbPrepareCtx_spec t cap cur fds c A fds' :
  fresh_descriptors -> 0 <= cur <= cap ->
  MbPrepareCtx new_fd inet_pton t (OnArena cap cur) fds = Some (c, A, fds') ->
  (exists cur', A = OnArena cap cur' /\ cur + sizeof_modbus_ctx <= cur' <= cap) /\
  match c with
  | None => fds' = fds
  | Some c => SockFd c <> -1 /\ (SockFd c ∉ fds) /\ fds' = fds ∪ {[SockFd c]}
  end.
Proof.
  intros Hf Hc. unfold MbPrepareCtx.
  destruct (push sizeof_modbus_ctx _) as [ok A1] eqn:E1. apply push_arena in E1 as [-> H1]; [|done].
  destruct ok; cbn [negb]; [|done]. specialize (H1 eq_refl). change (u64 sizeof_modbus_ctx) with sizeof_modbus_ctx in *.
  assert (Hs : 0 <= cur + sizeof_modbus_ctx) by (unfold sizeof_modbus_ctx; lia).
  destruct (push (sizeof_mb_conn * 1) _) as [conns A2] eqn:E2. apply push_arena in E2 as [-> H2]; [|done].
  change (u64 (sizeof_mb_conn * 1)) with 16 in *. set (cur2 := if conns then _ else _).
  assert (Hc2 : cur + sizeof_modbus_ctx <= cur2 <= cap) by (destruct conns; unfold cur2; lia).
  destruct (scratch_free t); cbn [negb]; [|intros [= <- <- <-]; split; [by eexists|done]].
  destruct (load_on_arena _ _ _ _) as [[Data A3] fds3] eqn:E3. apply load_on_arena_spec in E3 as [(cur3 & -> & Hc3) ->]; [|done|lia].
  assert (Hkeep : exists cur', OnArena cap cur3 = OnArena cap cur' /\ cur + sizeof_modbus_ctx <= cur' <= cap).
  { exists cur3. split; [done|lia]. }
  destruct Data as [Data|]; [|by intros [= <- <- <-]].
  destruct (text_at _) as [Content|]; [|done]. cbn [mbind option_bind].
  destruct (scan_lines _ _) as [[[IpAddr|] Port]|]; [|by intros [= <- <- <-]|done].
  cbn [mbind option_bind]. destruct (Port =? -1); [by intros [= <- <- <-]|]. destruct conns; cbn [negb]; [|done].
  destruct (push _ (OnArena cap cur3)) as [made A4] eqn:E4. apply push_arena in E4 as [-> H4]; [|lia].
  pose proof (u64_range (sizeof_sdb_string_header + Z.of_nat (length IpAddr) + 1)) as Hu.
  assert (Hkeep4 : exists cur', OnArena cap (if made then cur3 + u64 (sizeof_sdb_string_header
            + Z.of_nat (length IpAddr) + 1) else cur3) = OnArena cap cur' /\ cur + sizeof_modbus_ctx <= cur' <= cap).
  { eexists. split; [reflexivity|]. destruct made; [specialize (H4 eq_refl)|]; lia. }
  destruct (SocketCreate _ _ _ _ _ _) as [[fd fds1]|] eqn:E5; [|done]. cbn [mbind option_bind].
  apply SocketCreate_spec in E5; [|done]. destruct (Z.eqb_spec fd (-1)) as [->|Hfd]; intros [= <- <- <-].
  - split; [done|]. by destruct E5 as [[_ ?]|[? _]].
  - split; [done|]. by destruct E5 as [[? _]|[_ ?]].
Qed.

(** *** The loop *)

Variables BufCount BufCap BufferMaxFill PacketSize : Z.

Definition descriptors_ok (fds0 : gset Z) (s : mbrun) : Prop :=
  match Conn s with
  | None => fds s = fds0
  | Some c => SockFd c <> -1 /\ (SockFd c ∉ fds0) /\ fds s = fds0 ∪ {[SockFd c]}
  end.

Record mbrun_inv (cap cur0 : Z) (fds0 : gset Z) (s : mbrun) : Prop := {
  mi_arena : exists cur, MbArena s = OnArena cap cur /\
               cur0 + sizeof_modbus_ctx * Z.of_nat (Attempts s) <= cur <= cap;
  mi_fds : descriptors_ok fds0 s;
}.

Lemma disconnect_inv cap cur0 fds0 c CurBuf p s s' :
  Conn s = Some c -> mbrun_inv cap cur0 fds0 s -> MbRun_disconnect BufCount c CurBuf p s = Some s' ->
  mbrun_inv cap cur0 fds0 s'.
Proof.
  intros Hc [Ha Hd] H. unfold MbRun_disconnect in H. destruct (MbRun_reconnect _ _ _) as [[b p']|]; [|done].
  injection H as <-. split; [done|]. unfold descriptors_ok in *. rewrite Hc in Hd. cbn.
  destruct Hd as (H1 & H2 & ->). rewrite (proj2 (Z.eqb_neq _ _)) by done. by apply close_new.
Qed.

Lemma MbRun_inv cap cur0 fds0 i s s' :
  fresh_descriptors -> 0 <= cur0 -> mbrun_inv cap cur0 fds0 s ->
  MbRun new_fd inet_pton BufCount BufCap BufferMaxFill PacketSize i s = Some s' -> mbrun_inv cap cur0 fds0 s'.
Proof.
  intros Hf H0 Hinv H. pose proof Hinv as [(cur & Ha & Hcur) Hd]. unfold MbRun in H.
  destruct (Conn s) as [c|] eqn:Hc.
  - destruct (stop i); [by eapply disconnect_inv|].
    destruct (MbRun_round _ _ _ _ _ _ _) as [[[[o b] p] w]|]; [|done]. cbn [mbind option_bind] in H.
    assert (Hkeep : mbrun_inv cap cur0 fds0 (mkMbRun (Some c) (MbArena s) (fds s) b p w (Attempts s) false)).
    { split; [by exists cur|]. unfold descriptors_ok in *. by rewrite Hc in Hd. }
    destruct o; [by injection H as <-|by eapply disconnect_inv|by injection H as <-].
  - unfold descriptors_ok in Hd. rewrite Hc in Hd. destruct (stop i).
    { injection H as <-. split; [by exists cur|done]. }
    rewrite Ha in H. destruct (MbPrepareCtx _ _ _ _ _) as [[[c A] fds']|] eqn:E; [|done].
    cbn [mbind option_bind] in H. injection H as <-.
    apply MbPrepareCtx_spec in E as [(cur' & -> & Hcur') Hc']; [|done|unfold sizeof_modbus_ctx in *; lia].
    split; [exists cur'; split; [done|cbn [Attempts]; lia]|]. unfold descriptors_ok. cbn. subst fds0. by destruct c.
Qed.

Definition connecting (A : allocator) (fds : gset Z) (CurBuf : Z) (p : pipe) : mbrun :=
  mkMbRun None A fds CurBuf p [] 0 false.

Lemma mbrun_reachable_inv cap cur0 fds0 CurBuf p s :
  fresh_descriptors -> 0 <= cur0 <= cap ->
  mbrun_reachable new_fd inet_pton BufCount BufCap BufferMaxFill PacketSize
    (connecting (OnArena cap cur0) fds0 CurBuf p) s ->
  mbrun_inv cap cur0 fds0 s.
Proof.
  intros Hf Hc. induction 1 as [|i s s' _ IH _ Hs]; [|eapply MbRun_inv; [done|lia|exact IH|exact Hs]].
  split; [exists cur0; split; [done|cbn; lia]|done].
Qed.

(** *** A connection that succeeds *)

(** The bytes of the arena that a connection takes. *)
Definition connection_size (Data ip : list Z) : Z :=
  sizeof_modbus_ctx + sizeof_mb_conn + (sizeof_sdb_file_data + Z.of_nat (length Data) + 1)
  + (sizeof_sdb_string_header + Z.of_nat (length ip) + 1).

Lemma MbPrepareCtx_runs Data Content ip Port n above sok cok cap cur fds :
  fresh_descriptors -> (length Data <= n)%nat -> text_at (Data ++ above) = Some Content ->
  scan_lines (tokens (length Content) 10 Content) (None, -1) = Some (Some ip, Port) -> Port <> -1 ->
  0 <= cur -> cur + connection_size Data ip <= cap -> cap < 2 ^ 64 ->
  MbPrepareCtx new_fd inet_pton (mkAttempt (File Data n) above true sok cok) (OnArena cap cur) fds
  = '(SockFd, fds) ← SocketCreate new_fd inet_pton (Some ip) sok cok fds;
    Some (if SockFd =? -1 then (None, OnArena cap (cur + connection_size Data ip), fds)
          else (Some (mkConn SockFd Port (Some ip)), OnArena cap (cur + connection_size Data ip), fds)).
Proof.
  unfold connection_size, sizeof_modbus_ctx, sizeof_mb_conn, sizeof_sdb_file_data, sizeof_sdb_string_header.
  intros Hf Hn Ht Hs HP H0 Hroom Hcap. unfold MbPrepareCtx, sizeof_modbus_ctx, sizeof_mb_conn. cbn [scratch_free conf_fs].
  rewrite push_room by lia. cbn [negb]. rewrite push_room by lia. cbn [negb].
  unfold load_on_arena, fclose, sizeof_sdb_file_data. cbn [fopen]. rewrite push_room by lia. cbn [negb].
  rewrite (proj2 (Nat.ltb_ge _ _)) by lia. rewrite close_new by apply Hf. cbn [Session.above]. rewrite Ht.
  cbn [mbind option_bind]. rewrite Hs. cbn [mbind option_bind]. rewrite (proj2 (Z.eqb_neq _ _)) by done.
  unfold sizeof_sdb_string_header. rewrite push_room by lia. cbn [socket_ok connect_ok].
  destruct (SocketCreate _ _ _ _ _ _) as [[fd fds']|]; [|done]. cbn [mbind option_bind].
  replace (cur + 16 + 16 * 1 + (8 + Z.of_nat (length Data) + 1) + (24 + Z.of_nat (length ip) + 1))
    with (cur + (16 + 16 + (8 + Z.of_nat (length Data) + 1) + (24 + Z.of_nat (length ip) + 1))) by lia.
  by destruct (fd =? -1).
Qed.
End ConnectionFacts.

Lemma scan_lines_app l1 l2 r : scan_lines (l1 ++ l2) r = (r ← scan_lines l1 r; scan_lines l2 r).
Proof.
  revert r. induction l1 as [|l l1 IH]; intros r; cbn; [done|].
  destruct (scan_line l r) as [r'|]; [|done]. cbn. apply IH.
Qed.

Lemma scan_lines_no_port ls r :
  Forall (fun l => starts_with port l = false) ls -> exists ip, scan_lines ls r = Some (ip, snd r).
Proof.
  intros H. revert r. induction H as [|l ls Hl _ IH]; intros [ip p]; cbn; [by exists ip|].
  unfold scan_line. rewrite Hl. destruct (starts_with ipv4Addr l); cbn; [apply (IH (Some (drop 9 l), p))|apply IH].
Qed.

Lemma starts_with_app p s : starts_with p (p ++ s) = true.
Proof. unfold starts_with. by rewrite take_app_length, bool_decide_true. Qed.

(** The address line and then the port line decide, whatever comes before. *)
Lemma scan_conf ls ip digits :
  Forall (fun l => starts_with port l = false) ls -> Forall (fun c => is_digit c = true) digits ->
  0 <= digits_value 0 digits <= INT_MAX ->
  scan_lines (ls ++ [ipv4Addr ++ ip; port ++ digits]) (None, -1) = Some (Some ip, digits_value 0 digits).
Proof.
  intros Hls Hd Hv. rewrite scan_lines_app. destruct (scan_lines_no_port ls (None, -1) Hls) as (ip' & ->).
  cbn [mbind option_bind scan_lines]. unfold scan_line at 1. rewrite starts_with_app. cbn [mbind option_bind snd].
  change (drop 9 (ipv4Addr ++ ip)) with ip. unfold scan_line.
  replace (starts_with ipv4Addr (port ++ digits)) with false.
  2: { unfold starts_with. symmetry. apply bool_decide_eq_false_2. cbn. by destruct digits. }
  rewrite starts_with_app. change (drop 5 (port ++ digits)) with digits.
  by rewrite (atoi_digits digits Hd Hv).
Qed.

(** The connection is that of the configuration.  A file of lines of which
    the last two are [ipv4Addr=...] and [port=...], followed by a NUL in the
    arena, gives the address and the number of the port: when there is room
    and the server answers, [MbPrepareCtx] returns a connection to them on a
    new descriptor, and has taken [connection_size] bytes of the arena. *)
Theorem MbPrepareCtx_connects (new_fd : gset Z -> Z) (inet_pton : list Z -> bool) (ls : list (list Z))
    (ip digits above : list Z) (n : nat) (cap cur : Z) (fds : gset Z) :
  fresh_descriptors new_fd ->
  Forall is_line ls -> Forall (fun l => starts_with port l = false) ls ->
  Forall (fun c => c <> 10 /\ c <> 0) ip -> inet_pton ip = true ->
  Forall (fun c => is_digit c = true) digits -> 0 <= digits_value 0 digits <= INT_MAX ->
  let Data := join_lines (ls ++ [ipv4Addr ++ ip]) (port ++ digits) in
  (length Data <= n)%nat -> 0 <= cur -> cur + connection_size Data ip <= cap -> cap < 2 ^ 64 ->
  MbPrepareCtx new_fd inet_pton (mkAttempt (File Data n) (0 :: above) true true true) (OnArena cap cur) fds
  = Some (Some (mkConn (new_fd fds) (digits_value 0 digits) (Some ip)),
          OnArena cap (cur + connection_size Data ip), fds ∪ {[new_fd fds]}).
Proof.
  intros Hfd Hls Hnp Hip Hpton Hd Hv Data Hn H0 Hroom Hcap.
  assert (Hdl : Forall (fun c => c <> 10 /\ c <> 0) digits).
  { eapply Forall_impl; [exact Hd|]. unfold is_digit. cbn. lia. }
  assert (Hl1 : Forall is_line (ls ++ [ipv4Addr ++ ip])).
  { apply Forall_app_2; [done|]. constructor; [|constructor]. split; [done|].
    apply Forall_app_2; [by repeat constructor|done]. }
  assert (Hl2 : is_line (port ++ digits)) by (split; [done|apply Forall_app_2; [by repeat constructor|done]]).
  destruct (Hfd fds) as [_ Hpos].
  rewrite (MbPrepareCtx_runs _ _ Data Data ip (digits_value 0 digits)); try done; try lia.
  - unfold SocketCreate. cbn [negb mbind option_bind]. rewrite Hpton. cbn [negb mbind option_bind].
    by rewrite (proj2 (Z.eqb_neq _ _)) by lia.
  - apply text_at_nul, join_lines_nonul; [done|by right].
  - unfold Data. rewrite tokens_lines; [|done|by right|lia]. rewrite decide_False by done.
    rewrite <- app_assoc. by apply scan_conf.
Qed.

(** ** The test server: lemmas *)

Definition nanoseconds (t : timespec) : Z := tv_sec t * 10 ^ 9 + tv_nsec t.

Lemma microseconds_since_ns now last :
  100 <= microseconds_since now last -> 99000 < nanoseconds now - nanoseconds last.
Proof.
  unfold microseconds_since, nanoseconds. intros H.
  pose proof (Z.quot_rem' (tv_nsec now - tv_nsec last) 1000).
  pose proof (Z.rem_bound_abs (tv_nsec now - tv_nsec last) 1000). lia.
Qed.

(** Each send is long enough after the one before it. *)
Fixpoint spaced (l : list timespec) : Prop :=
  match l with
  | a :: (b :: _) as l => 100 <= microseconds_since a b /\ spaced l
  | _ => True
  end.

Lemma spaced_lookup l i a b :
  spaced l -> l !! i = Some a -> l !! S i = Some b -> 100 <= microseconds_since a b.
Proof.
  revert i. induction l as [|x l IH]; intros i Hs Ha Hb; [done|]. destruct i as [|i].
  - injection Ha as <-. destruct l as [|y l]; [done|]. injection Hb as <-. apply Hs.
  - apply (IH i); [|exact Ha|exact Hb]. destruct l; [done|apply Hs].
Qed.

Section ServerFacts.
Variable new_fd : gset Z -> Z.
Variable handled : list signal.
Hypothesis Hfresh : fresh_descriptors new_fd.

Record server_inv (fds0 : gset Z) (s : server) : Prop := {
  si_srv : SrvFd s ∉ fds0;
  si_fds : match spc s with
           | Accepting => srv_fds s = fds0 ∪ {[SrvFd s]}
           | Serving fd _ => (fd ∉ fds0 ∪ {[SrvFd s]}) /\ srv_fds s = fds0 ∪ {[SrvFd s]} ∪ {[fd]}
           | ServerDone => srv_fds s = fds0
           end;
  si_last : match spc s with
            | Serving _ LastSend => sends s = [] \/ head (sends s) = Some LastSend
            | _ => True
            end;
  si_spaced : spaced (sends s);
}.

Lemma server_step_inv fds0 i s s' :
  server_inv fds0 s -> RunModbusTestServer new_fd handled i s = Some s' -> server_inv fds0 s'.
Proof.
  intros Hinv H. pose proof Hinv as [Hsrv Hfds Hlast Hsp]. unfold RunModbusTestServer in H.
  destruct (spc s) as [|fd last|] eqn:Hpc; [| |by injection H as <-].
  - destruct (si_stop i); [injection H as <-; split; cbn; [done| |done|done]; rewrite Hfds; by apply close_new|].
    destruct (si_accept i); cbn [negb] in H; injection H as <-; [|done].
    split; cbn; [done|split; [rewrite <- Hfds; apply Hfresh|by rewrite Hfds]|by left|done].
  - destruct Hfds as [Hfd Hfds].
    assert (Hclosed : srv_fds s ∖ {[fd]} = fds0 ∪ {[SrvFd s]}) by (rewrite Hfds; by apply close_new).
    assert (Hacc : server_inv fds0 (mkServer Accepting (SrvFd s) (srv_fds s ∖ {[fd]}) (wire s) (sends s))).
    { by split. }
    destruct (si_stop i); [injection H as <-; split; cbn; [done| |done|done]; rewrite Hclosed; by apply close_new|].
    destruct (Z.ltb_spec (microseconds_since (si_now i) last) 100) as [Hlt|Hge]; [by injection H as <-|].
    destruct (SendModbusData _) as [frame|]; [|done]. cbn [mbind option_bind] in H.
    destruct (si_send i); [|by injection H as <-|by injection H as <-|].
    + injection H as <-. split; cbn [SrvFd spc srv_fds sends]; [done|done|by right|].
      destruct Hlast as [-> | Hhead]; [done|]. destruct (sends s) as [|x l]; [done|].
      injection Hhead as ->. by split.
    + destruct (decide _); [by injection H as <-|done].
Qed.

Lemma server_reachable_inv fds0 s0 s :
  server_inv fds0 s0 -> server_reachable new_fd handled s0 s -> server_inv fds0 s.
Proof. intros H0. induction 1; [done|by eapply server_step_inv]. Qed.

(** The start of the server: it serves, or it has closed what it opened. *)
Lemma server_start_spec e fds :
  match RunModbusTestServer_start new_fd e fds with
  | (None, fds') => fds' = fds
  | (Some fd, fds') => server_inv fds (mkServer Accepting fd fds' [] [])
  end.
Proof.
  unfold RunModbusTestServer_start. destruct (Hfresh fds) as [Hn _].
  destruct (ss_socket e); cbn [negb]; [|done].
  destruct (ss_reuseaddr e); cbn [negb]; [|by apply close_new].
  destruct (ss_nodelay e); cbn [negb]; [|by apply close_new].
  destruct (ss_bind e); cbn [negb]; [|by apply close_new].
  destruct (ss_listen e); cbn [negb]; [|by apply close_new]. by split.
Qed.

(** Its descriptors are closed when it ends. *)
Lemma server_closes e fds fd fds' s :
  RunModbusTestServer_start new_fd e fds = (Some fd, fds') ->
  server_reachable new_fd handled (mkServer Accepting fd fds' [] []) s -> spc s = ServerDone -> srv_fds s = fds.
Proof.
  intros E Hs Hd. pose proof (server_start_spec e fds) as H0. rewrite E in H0.
  destruct (server_reachable_inv fds _ s H0 Hs) as [_ Hf _ _]. by rewrite Hd in Hf.
Qed.
End ServerFacts.

(** The handlers leave SIGPIPE to its default: a client that closes its end,
    as [MbRun] does at every reconnection, ends the process of the server. *)
Lemma SdbSetupSignalHandlers_sigpipe sigaction : SIGPIPE ∉ snd (SdbSetupSignalHandlers sigaction).
Proof.
  unfold SdbSetupSignalHandlers. enough (SIGPIPE ∉ fst (install sigaction SignalsToHandle)) as H.
  { by destruct (install _ _). }
  assert (Hl : SIGPIPE ∉ SignalsToHandle) by (apply (bool_decide_unpack _); by vm_compute).
  revert Hl. generalize SignalsToHandle. induction l as [|x l IH]; intros Hl; cbn; [apply not_elem_of_nil|].
  apply not_elem_of_cons in Hl as [Hx Hl]. destruct (sigaction x); [|apply not_elem_of_nil].
  specialize (IH Hl). destruct (install sigaction l). cbn in *. by apply not_elem_of_cons.
Qed.

Lemma server_killed new_fd sigaction s fd last now data :
  spc s = Serving fd last -> 100 <= microseconds_since now last ->
  RunModbusTestServer new_fd (snd (SdbSetupSignalHandlers sigaction))
    (mkInput false false now data PeerClosed) s = None.
Proof.
  intros Hpc Hm. unfold RunModbusTestServer. rewrite Hpc. cbn [si_stop si_now si_data si_send].
  rewrite (proj2 (Z.ltb_ge _ _)) by lia. destruct (SendModbusData data); [|done]. cbn [mbind option_bind].
  rewrite decide_False; [done|apply SdbSetupSignalHandlers_sigpipe].
Qed.

(** The server keeps its rate.  Whatever the clients and the clock do, two
    packets sent to a client one after the other are more than 99 microseconds
    apart on that clock: the difference in nanoseconds is cut to microseconds
    before it is compared with 100. *)
Theorem RunModbusTestServer_rate (new_fd : gset Z -> Z) (handled : list signal) (e : server_start)
    (fds fds' : gset Z) (fd : Z) (s : server) (i : nat) (later earlier : timespec) :
  fresh_descriptors new_fd -> RunModbusTestServer_start new_fd e fds = (Some fd, fds') ->
  server_reachable new_fd handled (mkServer Accepting fd fds' [] []) s ->
  sends s !! i = Some later -> sends s !! S i = Some earlier ->
  99000 < nanoseconds later - nanoseconds earlier.
Proof.
  intros Hf E Hs Hl He. pose proof (server_start_spec new_fd Hf e fds) as H0. rewrite E in H0.
  apply microseconds_since_ns. eapply spaced_lookup; [|exact Hl|exact He].
  by eapply (server_reachable_inv _ _ Hf fds), Hs.
Qed.

(** A kernel that gives out unused numbers. *)
Module DemoKernel.
Definition new_fd (s : gset Z) : Z := Z.of_nat (fresh (Z.to_nat <$> elements s)).

Lemma new_fd_fresh : fresh_descriptors new_fd.
Proof.
  intros s. split; [|unfold new_fd; lia]. intros H. apply elem_of_elements in H.
  apply (infinite_is_fresh (Z.to_nat <$> elements s)), list_elem_of_fmap.
  exists (new_fd s). split; [|done]. unfold new_fd at 1. by rewrite Nat2Z.id.
Qed.

Definition nowhere : attempt := mkAttempt NoFile [] true false false.
End DemoKernel.

(** [configs/modbus-conf] *)
Lemma MbPrepareCtx_connects_witness :
  let Data := bytes "ipv4Addr=127.0.0.1" ++ [10] ++ bytes "port=1312" in
  MbPrepareCtx DemoKernel.new_fd (fun _ => true) (mkAttempt (File Data 28) [0] true true true)
    (OnArena 8388608 262400) ∅
  = Some (Some (mkConn (DemoKernel.new_fd ∅) 1312 (Some (bytes "127.0.0.1"))), OnArena 8388608 262503,
          ∅ ∪ {[DemoKernel.new_fd ∅]}).
Proof.
  intros Data.
  refine (MbPrepareCtx_connects DemoKernel.new_fd (fun _ => true) [] (bytes "127.0.0.1") (bytes "1312") [] 28
    8388608 262400 ∅ DemoKernel.new_fd_fresh _ _ _ eq_refl _ _ _ _ _ _); try (by repeat constructor); vm_compute; try done; lia.
Defined.

(** With no room for [modbus_ctx] the count of connections is written through a
    NULL pointer. *)
Lemma MbPrepareCtx_full new_fd inet_pton t cap cur fds :
  cap < cur + sizeof_modbus_ctx -> MbPrepareCtx new_fd inet_pton t (OnArena cap cur) fds = None.
Proof.
  intros H. unfold MbPrepareCtx, push. change (u64 sizeof_modbus_ctx) with sizeof_modbus_ctx.
  cbn [Bump.step]. by rewrite (proj2 (Z.leb_gt _ _)).
Qed.

(** C35: The Modbus thread leaks no descriptor.  Whatever the configuration file --
    opened at every attempt, and missing, unreadable, too large or malformed as it
    may be -- the server and the database thread do, and whenever it is told to
    stop, at the
    head of either loop the descriptors that are open are those of before
    and, while there is a connection, its socket. *)
Theorem MbRun_descriptors (new_fd : gset Z -> Z) (inet_pton : list Z -> bool)
    (BufCount BufCap BufferMaxFill PacketSize cap cur CurBuf : Z) (fds0 : gset Z) (p : pipe) (s : mbrun) :
  fresh_descriptors new_fd -> 0 <= cur <= cap ->
  mbrun_reachable new_fd inet_pton BufCount BufCap BufferMaxFill PacketSize
    (connecting (OnArena cap cur) fds0 CurBuf p) s ->
  descriptors_ok fds0 s.
Proof. intros Hf Hc H. by apply mbrun_reachable_inv in H as []. Qed.

(** The Modbus thread survives a bounded number of connections.  Every
    attempt takes memory of the thread's arena, which is given back only when
    the thread ends: no run of [MbRun] has more attempts than a sixteenth of
    the arena in bytes; the next faults ([MbPrepareCtx_full]). *)
Theorem MbRun_attempts_bounded (new_fd : gset Z -> Z) (inet_pton : list Z -> bool)
    (BufCount BufCap BufferMaxFill PacketSize cap cur CurBuf : Z) (fds0 : gset Z) (p : pipe) (s : mbrun) :
  fresh_descriptors new_fd -> 0 <= cur <= cap ->
  mbrun_reachable new_fd inet_pton BufCount BufCap BufferMaxFill PacketSize
    (connecting (OnArena cap cur) fds0 CurBuf p) s ->
  16 * Z.of_nat (Attempts s) <= cap - cur.
Proof.
  intros Hf Hc H. apply mbrun_reachable_inv in H as [(cur' & _ & Hcur) _]; [|done|done].
  unfold sizeof_modbus_ctx in Hcur. lia.
Qed.

Lemma MbRun_descriptors_witness :
  exists s, descriptors_ok ∅ s /\ Attempts s = 1%nat.
Proof.
  set (i := mkTurn false DemoKernel.nowhere [] id).
  set (s0 := connecting (OnArena 64 0) ∅ 0 (pipe_created 2)).
  destruct (MbRun DemoKernel.new_fd (fun _ => true) 2 64 48 48 i s0) as [s|] eqn:E; [|by vm_compute in E].
  exists s. split; [|vm_compute in E; by injection E as <-].
  apply (MbRun_descriptors DemoKernel.new_fd (fun _ => true) 2 64 48 48 64 0 0 ∅ (pipe_created 2) s);
    [apply DemoKernel.new_fd_fresh|lia|].
  by eapply mbrun_turn; [apply mbrun_start| |exact E].
Defined.

(** An arena of 64 bytes, in which attempts without a configuration file take 32
    each. *)
Lemma MbRun_attempts_bounded_witness :
  exists s, Attempts s = 2%nat /\ 16 * Z.of_nat (Attempts s) <= 64 - 0 /\
    MbRun DemoKernel.new_fd (fun _ => true) 2 64 48 48 (mkTurn false DemoKernel.nowhere [] id) s = None.
Proof.
  set (i := mkTurn false DemoKernel.nowhere [] id).
  set (s0 := connecting (OnArena 64 0) ∅ 0 (pipe_created 2)).
  destruct (MbRun DemoKernel.new_fd (fun _ => true) 2 64 48 48 i s0) as [s1|] eqn:E1; [|by vm_compute in E1].
  destruct (MbRun DemoKernel.new_fd (fun _ => true) 2 64 48 48 i s1) as [s2|] eqn:E2;
    [|vm_compute in E1; injection E1 as <-; by vm_compute in E2].
  exists s2. split; [vm_compute in E1; injection E1 as <-; vm_compute in E2; by injection E2 as <-|]. split.
  - apply (MbRun_attempts_bounded DemoKernel.new_fd (fun _ => true) 2 64 48 48 64 0 0 ∅ (pipe_created 2) s2);
      [apply DemoKernel.new_fd_fresh|lia|].
    eapply mbrun_turn; [eapply mbrun_turn; [apply mbrun_start| |exact E1]| |exact E2]; [done|].
    vm_compute in E1. by injection E1 as <-.
  - vm_compute in E1. injection E1 as <-. vm_compute in E2. by injection E2 as <-.
Defined.

(** Two packets, a hundred microseconds apart to the nanosecond. *)
Lemma RunModbusTestServer_rate_witness :
  exists s, server_reachable DemoKernel.new_fd []
      (mkServer Accepting (DemoKernel.new_fd ∅) (∅ ∪ {[DemoKernel.new_fd ∅]}) [] []) s /\
    sends s = [mkTimespec 1 100999; mkTimespec 1 0] /\
    99000 < nanoseconds (mkTimespec 1 100999) - nanoseconds (mkTimespec 1 0).
Proof.
  set (s0 := mkServer Accepting (DemoKernel.new_fd ∅) (∅ ∪ {[DemoKernel.new_fd ∅]}) [] []).
  set (data := replicate 48 7).
  set (step := RunModbusTestServer DemoKernel.new_fd []).
  set (i now := mkInput false true now data (Taken 58)).
  destruct (step (i (mkTimespec 0 0)) s0) as [s1|] eqn:E1; [|by vm_compute in E1].
  destruct (step (i (mkTimespec 1 0)) s1) as [s2|] eqn:E2; [|vm_compute in E1; injection E1 as <-; by vm_compute in E2].
  destruct (step (i (mkTimespec 1 100999)) s2) as [s3|] eqn:E3;
    [|vm_compute in E1; injection E1 as <-; vm_compute in E2; injection E2 as <-; by vm_compute in E3].
  assert (Hs : sends s3 = [mkTimespec 1 100999; mkTimespec 1 0]).
  { vm_compute in E1. injection E1 as <-. vm_compute in E2. injection E2 as <-. vm_compute in E3. by injection E3 as <-. }
  assert (Hr : server_reachable DemoKernel.new_fd [] s0 s3).
  { eapply server_turn; [eapply server_turn; [eapply server_turn; [apply server_begin|exact E1]|exact E2]|exact E3]. }
  exists s3. split; [exact Hr|]. split; [exact Hs|].
  apply (RunModbusTestServer_rate DemoKernel.new_fd [] (mkServerStart true true true true true) ∅ _ _ s3 0
           _ _ DemoKernel.new_fd_fresh eq_refl Hr); by rewrite Hs.
Defined.
