(* ===== verification/Timing.v ===== *)
(** * Reporting of timings: [src/src/metrics/timing.c]

    The texts that the benchmarks print: a time in nanoseconds or in cycles in
    one of ten formats, averages, comparisons.  Doubles are those of
    [SpecFloat]; the frequency of the counter is a parameter.  [snprintf] is the
    text it makes, cut to its buffer.  Not modelled: the logging variants, which
    give the same texts to the log; the calibration is in [Benchmarks]. *)

From S2P Require Import Prelude.
From S2P Require Import LmDefs.
From S2P Require Import Json.
From Stdlib Require Import SpecFloat.
From Stdlib Require Import Strings.String.
#[local] Open Scope Z_scope.
#[local] Abbreviation length := List.length.

(** ** Conversions of [printf] *)

(** ["%lld"], ["%lu"] *)
Definition lld (n : Z) : list Z := if n <? 0 then 45 :: print_dec (- n) else print_dec n.

(** ["%0<w>lld"]: the sign counts for the width. *)
Definition lld_padded (w : nat) (n : Z) : list Z :=
  let sign := if n <? 0 then [45] else [] in
  let digits := print_dec (Z.abs n) in
  sign ++ replicate (w - length sign - length digits) 48 ++ digits.

Definition snprintf (size : nat) (text : list Z) : list Z := take (size - 1) text.

(** ** Formats *)

Module Fmt.
Inductive time_stamp_fmt := S_NS | S_MS | S_US | US_TRUNK | MS_TRUNK | S_TRUNK | NS | US | MS | S.

#[export] Instance eq_dec : EqDecision time_stamp_fmt.
Proof. solve_decision. Defined.
End Fmt.
#[export] Existing Instance Fmt.eq_dec.
Import Fmt(time_stamp_fmt, eq_dec).

Definition LmNsToS (s : Z) : Z := Z.quot s 1000000000.

(** The text of [format_timing] before it is cut; [/] and [%] round to zero. *)
Definition timing_text (timing : Z) (stamp_fmt : time_stamp_fmt) : list Z :=
  match stamp_fmt with
  | Fmt.S_NS => lld (LmNsToS timing) ++ bytes "." ++ lld_padded 9 (Z.rem timing 1000000000) ++ bytes " s"
  | Fmt.S_US =>
      lld (LmNsToS timing) ++ bytes "." ++ lld_padded 6 (Z.quot (Z.rem timing 1000000000) 1000) ++ bytes " s"
  | Fmt.S_MS =>
      lld (LmNsToS timing) ++ bytes "." ++ lld_padded 3 (Z.quot (Z.rem timing 1000000000) 1000000) ++ bytes " s"
  | Fmt.US_TRUNK => lld (Z.quot timing 1000) ++ bytes " us"
  | Fmt.MS_TRUNK => lld (Z.quot timing 1000000) ++ bytes " ms"
  | Fmt.S_TRUNK => lld (Z.quot timing 1000000000) ++ bytes " s"
  | Fmt.NS => lld timing ++ bytes " ns"
  | Fmt.US => lld (Z.quot timing 1000) ++ bytes "." ++ lld_padded 3 (Z.rem timing 1000) ++ bytes " us"
  | Fmt.MS => lld (Z.quot timing 1000000) ++ bytes "." ++ lld_padded 6 (Z.rem timing 1000000) ++ bytes " ms"
  | Fmt.S => lld (LmNsToS timing) ++ bytes "." ++ lld_padded 9 (Z.rem timing 1000000000) ++ bytes " s"
  end.

Definition format_timing (timing : Z) (stamp_fmt : time_stamp_fmt) : list Z :=
  snprintf 64 (timing_text timing stamp_fmt).

(** ** Doubles *)

Definition double : Type := spec_float.
Definition double_of (n : Z) : double := binary_normalize 53 1024 n 0 false.
Definition ddiv : double -> double -> double := SFdiv 53 1024.
Definition dmul : double -> double -> double := SFmul 53 1024.

(** [(long long)d], [(uint64_t)d]; undefined out of range. *)
Definition ll_of (d : double) : option Z :=
  i ← truncate d; if (- 2 ^ 63 <=? i) && (i <? 2 ^ 63) then Some i else None.
Definition u64_of (d : double) : option Z :=
  i ← truncate d; if (0 <=? i) && (i <? 2 ^ 64) then Some i else None.

(** ** Averages *)

(** The format for an average in nanoseconds; a comparison with NaN is false. *)
Definition adjusted_fmt (avg : double) (stamp_fmt : time_stamp_fmt) : time_stamp_fmt :=
  if SFltb avg (double_of 1000) && bool_decide (stamp_fmt <> Fmt.NS) then Fmt.NS
  else if SFltb avg (double_of 1000000) && bool_decide (stamp_fmt <> Fmt.NS) && bool_decide (stamp_fmt <> Fmt.US)
  then Fmt.US
  else stamp_fmt.

(** What is printed; [None] when the conversion of the average is undefined. *)
Definition lm_print_timing_avg (timing count : Z) (description : list Z) (stamp_fmt : time_stamp_fmt)
    : option (list Z) :=
  let avg := ddiv (double_of timing) (double_of count) in
  avg_ll ← ll_of avg;
  Some (description ++ bytes ": " ++ format_timing avg_ll (adjusted_fmt avg stamp_fmt)
        ++ bytes " (total: " ++ lld timing ++ bytes " ns, count: " ++ lld count ++ bytes ")").

Definition lm_print_timing (timing : Z) (description : list Z) (stamp_fmt : time_stamp_fmt) : list Z :=
  description ++ bytes ": " ++ format_timing timing stamp_fmt ++ [10].

(** The message of a log entry, here and below. *)
Definition lm_log_timing (timing : Z) (description : list Z) (stamp_fmt : time_stamp_fmt) : list Z :=
  description ++ bytes ": " ++ format_timing timing stamp_fmt.

Definition lm_log_timing_avg (timing count : Z) (description : list Z) (stamp_fmt : time_stamp_fmt)
    : option (list Z) :=
  let avg := ddiv (double_of timing) (double_of count) in
  avg_ll ← ll_of avg;
  Some (description ++ format_timing avg_ll (adjusted_fmt avg stamp_fmt)
        ++ bytes " (total: " ++ lld timing ++ bytes " ns, count: " ++ lld count ++ bytes ")").

(** [0]: equal; [1]: [t1] is less; [-1]: greater.  The percentage and the factor. *)
Definition lm_compare_timing (t1 t2 : Z) : Z * double * double :=
  let percent a := dmul (ddiv (double_of a) (double_of t2)) (double_of 100) in
  if t1 =? t2 then (0, double_of 0, double_of 1)
  else if t1 <? t2 then (1, percent (t2 - t1), ddiv (double_of t2) (double_of t1))
  else (-1, percent (t1 - t2), ddiv (double_of t1) (double_of t2)).

(** The same on [uint64_t], without the message. *)
Definition lm_compare_tsc_timing (t1 t2 : Z) : Z * double * double :=
  let percent a := dmul (ddiv (double_of a) (double_of t2)) (double_of 100) in
  if t1 =? t2 then (0, double_of 0, double_of 1)
  else if t1 <? t2 then (1, percent (t2 -64 t1), ddiv (double_of t2) (double_of t1))
  else (-1, percent (t1 -64 t2), ddiv (double_of t1) (double_of t2)).

(** The text of a comparison; [fixed2] prints a double with [%.2f]. *)
Definition timing_comp_text (fixed2 : double -> list Z) (percentage multiplier : double) (res : Z) : list Z :=
  if res =? 0 then bytes "Both timestamps are identical (0% difference, 1.00x)" ++ [10]
  else if 0 <? res then
    bytes "t1 is faster than t2 by " ++ fixed2 percentage ++ bytes "% (" ++ fixed2 multiplier ++ bytes "x faster)" ++ [10]
  else
    bytes "t1 is slower than t2 by " ++ fixed2 percentage ++ bytes "% (" ++ fixed2 multiplier ++ bytes "x slower)" ++ [10].

Section Tsc.
(** [get_tsc_freq()] *)
Variable tsc_freq : double.

Definition TscToNs (tsc : Z) : option Z := u64_of (ddiv (dmul (double_of tsc) (double_of 1000000000)) tsc_freq).
Definition TscToS (tsc : Z) : option Z := u64_of (ddiv (double_of tsc) tsc_freq).

Definition tsc_timing_text (tsc_timing : Z) (stamp_fmt : time_stamp_fmt) : option (list Z) :=
  timing_ns ← TscToNs tsc_timing;
  match stamp_fmt with
  | Fmt.S_NS | Fmt.S =>
      s ← TscToS tsc_timing;
      Some (lld s ++ bytes "." ++ lld_padded 9 (timing_ns mod 1000000000) ++ bytes " s")
  | Fmt.S_US =>
      s ← TscToS tsc_timing;
      Some (lld s ++ bytes "." ++ lld_padded 6 (timing_ns mod 1000000000 / 1000) ++ bytes " s")
  | Fmt.S_MS =>
      s ← TscToS tsc_timing;
      Some (lld s ++ bytes "." ++ lld_padded 3 (timing_ns mod 1000000000 / 1000000) ++ bytes " s")
  | Fmt.US_TRUNK => Some (lld (timing_ns / 1000) ++ bytes " us")
  | Fmt.MS_TRUNK => Some (lld (timing_ns / 1000000) ++ bytes " ms")
  | Fmt.S_TRUNK => Some (lld (timing_ns / 1000000000) ++ bytes " s")
  | Fmt.NS => Some (lld timing_ns ++ bytes " ns")
  | Fmt.US => Some (lld (timing_ns / 1000) ++ bytes "." ++ lld_padded 3 (timing_ns mod 1000) ++ bytes " us")
  | Fmt.MS => Some (lld (timing_ns / 1000000) ++ bytes "." ++ lld_padded 6 (timing_ns mod 1000000) ++ bytes " ms")
  end.

Definition format_tsc_timing (tsc_timing : Z) (stamp_fmt : time_stamp_fmt) : option (list Z) :=
  text ← tsc_timing_text tsc_timing stamp_fmt; Some (snprintf 64 text).

Definition lm_print_tsc_timing_avg (tsc_timing count : Z) (description : list Z) (stamp_fmt : time_stamp_fmt)
    : option (list Z) :=
  timing_ns ← TscToNs tsc_timing;
  let avg := ddiv (double_of timing_ns) (double_of count) in
  cycles ← u64_of (dmul avg (ddiv tsc_freq (double_of 1000000000)));
  timing_str ← format_tsc_timing cycles (adjusted_fmt avg stamp_fmt);
  Some (description ++ timing_str ++ [10] ++ bytes "(total: " ++ lld tsc_timing
        ++ bytes " cycles " ++ [226; 137; 136] ++ bytes " " ++ lld timing_ns ++ bytes " ns, count: " ++ lld count
        ++ bytes ")").

Definition lm_log_tsc_timing (tsc : Z) (description : list Z) (stamp_fmt : time_stamp_fmt) : option (list Z) :=
  timing_str ← format_tsc_timing tsc stamp_fmt; Some (description ++ bytes ": " ++ timing_str).

(** The average is converted once more, for nothing. *)
Definition lm_log_tsc_timing_avg (tsc_timing count : Z) (description : list Z) (stamp_fmt : time_stamp_fmt)
    : option (list Z) :=
  timing_ns ← TscToNs tsc_timing;
  let avg := ddiv (double_of timing_ns) (double_of count) in
  _ ← ll_of avg;
  lm_print_tsc_timing_avg tsc_timing count description stamp_fmt.
End Tsc.

(** ** Reading a timing back *)

(** Nanoseconds of a unit. *)
Definition unit_ns (u : list Z) : option Z :=
  if bool_decide (u = bytes "s") then Some 1000000000
  else if bool_decide (u = bytes "ms") then Some 1000000
  else if bool_decide (u = bytes "us") then Some 1000
  else if bool_decide (u = bytes "ns") then Some 1
  else None.

(** A whole number, a fraction if there is a point, a space and the unit. *)
Definition read_timing (text : list Z) : option Z :=
  let '(whole, rest) := scan_digits 0 text in
  let '(frac, k, rest) :=
    match rest with
    | 46 :: rest => let '(f, rest') := scan_digits 0 rest in (f, (length rest - length rest')%nat, rest')
    | _ => (0, O, rest)
    end in
  match rest with
  | 32 :: u => unit ← unit_ns u; Some (whole * unit + frac * (unit / 10 ^ Z.of_nat k))
  | _ => None
  end.

(** The nanoseconds that a format can tell apart. *)
Definition resolution (stamp_fmt : time_stamp_fmt) : Z :=
  match stamp_fmt with
  | Fmt.S_US | Fmt.US_TRUNK => 1000
  | Fmt.S_MS | Fmt.MS_TRUNK => 1000000
  | Fmt.S_TRUNK => 1000000000
  | _ => 1
  end.

(** ** Lemmas on decimals *)

Lemma digits_rev_length f n w : 0 <= n < 10 ^ Z.of_nat w -> (length (digits_rev f n) <= Nat.max w 1)%nat.
Proof.
  revert n w. induction f as [|f IH]; intros n w Hn; cbn [digits_rev length]; [lia|].
  destruct (Z.ltb_spec n 10); cbn [length]; [lia|].
  destruct w as [|w]; [rewrite Z.pow_0_r in Hn; lia|].
  rewrite Nat2Z.inj_succ, Z.pow_succ_r in Hn by lia.
  specialize (IH (n / 10) w). destruct w as [|w]; [rewrite Z.pow_0_r in Hn; lia|].
  assert (0 <= n / 10 < 10 ^ Z.of_nat (S w)) by (split; [apply Z.div_pos; lia|apply Z.div_lt_upper_bound; lia]). lia.
Qed.

Lemma print_dec_length n w : 0 <= n < 10 ^ Z.of_nat w -> (length (print_dec n) <= Nat.max w 1)%nat.
Proof. intros H. unfold print_dec. rewrite length_rev. by apply digits_rev_length. Qed.

Lemma digits_rev_fuel f n : (length (digits_rev f n) <= f)%nat.
Proof. revert n. induction f as [|f IH]; intros n; cbn; [lia|]. destruct (n <? 10); cbn; [lia|]. specialize (IH (n / 10)). lia. Qed.

Lemma lld_length n : (length (lld n) <= 21)%nat.
Proof.
  unfold lld, print_dec. destruct (n <? 0); cbn [length]; rewrite length_rev;
    [pose proof (digits_rev_fuel 20 (- n))|pose proof (digits_rev_fuel 20 n)]; lia.
Qed.

Lemma lld_padded_length w n : (length (lld_padded w n) <= Nat.max w 21)%nat.
Proof.
  unfold lld_padded, print_dec. pose proof (digits_rev_fuel 20 (Z.abs n)).
  rewrite !length_app, length_replicate, length_rev. destruct (n <? 0); cbn [length]; lia.
Qed.

(** The text goes on with something that is not a digit. *)
Definition ends_number (rest : list Z) : Prop := forall c rest', rest = c :: rest' -> is_digit c = false.

Lemma scan_lld n rest : 0 <= n < 2 ^ 64 -> ends_number rest -> scan_digits 0 (lld n ++ rest) = (n, rest).
Proof.
  intros Hn Hr. unfold lld. rewrite (proj2 (Z.ltb_ge _ _)) by lia.
  rewrite scan_digits_app; [by rewrite print_dec_value|apply print_dec_digits; lia|exact Hr].
Qed.

Lemma scan_zeros k l : scan_digits 0 (replicate k 48 ++ l) = scan_digits 0 l.
Proof. induction k as [|k IH]; cbn; done. Qed.

Lemma scan_padded w n rest :
  (0 < w)%nat -> 0 <= n < 2 ^ 64 -> n < 10 ^ Z.of_nat w -> ends_number rest ->
  scan_digits 0 (lld_padded w n ++ rest) = (n, rest) /\ length (lld_padded w n) = w.
Proof.
  intros Hw Hn Hlt Hr. unfold lld_padded. rewrite (proj2 (Z.ltb_ge _ _)), Z.abs_eq by lia. cbn [app length]. split.
  - rewrite <- app_assoc, scan_zeros. pose proof (scan_lld n rest Hn Hr) as H. unfold lld in H.
    by rewrite (proj2 (Z.ltb_ge _ _)) in H by lia.
  - rewrite length_app, length_replicate. pose proof (print_dec_length n w ltac:(lia)). lia.
Qed.

(** ** A format is read back *)

(** With a fraction of [w] digits. *)
Lemma read_point q f w u unit :
  0 <= q < 2 ^ 64 -> (0 < w)%nat -> 0 <= f < 2 ^ 64 -> f < 10 ^ Z.of_nat w -> unit_ns u = Some unit ->
  read_timing (lld q ++ bytes "." ++ lld_padded w f ++ 32 :: u) = Some (q * unit + f * (unit / 10 ^ Z.of_nat w)).
Proof.
  intros Hq Hw Hf Hlt Hu. unfold read_timing. change (bytes ".") with [46]. cbn [app].
  rewrite scan_lld; [|done|by intros c r [= <- _]].
  destruct (scan_padded w f (32 :: u) Hw Hf Hlt) as [-> Hl]; [by intros c r [= <- _]|].
  rewrite length_app, Hl. replace (w + length (32%Z :: u) - length (32%Z :: u))%nat with w by lia. by rewrite Hu.
Qed.

(** Without. *)
Lemma read_whole q u unit :
  0 <= q < 2 ^ 64 -> unit_ns u = Some unit -> read_timing (lld q ++ 32 :: u) = Some (q * unit).
Proof.
  intros Hq Hu. unfold read_timing. rewrite scan_lld; [|done|by intros c r [= <- _]]. rewrite Hu. cbn. f_equal. lia.
Qed.

Lemma timing_text_length t f : (length (timing_text t f) <= 63)%nat.
Proof.
  destruct f; cbn [timing_text]; rewrite !length_app; cbn [length bytes];
    repeat match goal with |- context [length (lld ?n)] =>
      lazymatch goal with H : (length (lld n) <= _)%nat |- _ => fail | _ => pose proof (lld_length n) end end;
    repeat match goal with |- context [length (lld_padded ?w ?n)] =>
      lazymatch goal with H : (length (lld_padded w n) <= _)%nat |- _ => fail
                        | _ => pose proof (lld_padded_length w n) end end; lia.
Qed.

Lemma format_timing_text t f : format_timing t f = timing_text t f.
Proof. unfold format_timing, snprintf. apply take_ge. pose proof (timing_text_length t f). lia. Qed.

(** A format with the unit [u], with a fraction or without. *)
Ltac read_in u :=
  first [etransitivity; [eapply (read_point _ _ _ (bytes u))|]; [word_lia|lia|word_lia|word_lia|reflexivity|]
        |etransitivity; [eapply (read_whole _ (bytes u))|]; [word_lia|reflexivity|]].

(** The weight of the last digit of a fraction. *)
Ltac weigh :=
  repeat match goal with |- context [?a / 10 ^ Z.of_nat ?k] =>
           let v := eval vm_compute in (a / 10 ^ Z.of_nat k) in change (a / 10 ^ Z.of_nat k) with v
         end.

(** ** Theorems *)

(** A printed time is the time.  For every format and every time that is not
    negative, the text is not cut by its buffer of 64 bytes, and read back --
    whole part, fraction, unit -- it is the time rounded down to what the format
    can tell apart. *)
Theorem format_timing_reads (timing : Z) (stamp_fmt : time_stamp_fmt) :
  0 <= timing < 2 ^ 63 ->
  (length (timing_text timing stamp_fmt) < 64)%nat /\
  read_timing (format_timing timing stamp_fmt) = Some (timing - timing mod resolution stamp_fmt).
Proof.
  intros Ht. split; [pose proof (timing_text_length timing stamp_fmt); lia|].
  rewrite format_timing_text. unfold timing_text, LmNsToS.
  rewrite !Z.quot_div_nonneg, !Z.rem_mod_nonneg by (try apply Z.rem_nonneg; lia).
  destruct stamp_fmt; cbn [resolution]; first [read_in "s"%string|read_in "ms"%string|read_in "us"%string|read_in "ns"%string];
    f_equal; weigh; Z.div_mod_to_equations; lia.
Qed.

Lemma format_timing_reads_witness :
  (length (timing_text 12345678901 Fmt.S_US) < 64)%nat /\
  read_timing (format_timing 12345678901 Fmt.S_US) = Some (12345678901 - 12345678901 mod 1000).
Proof. apply (format_timing_reads 12345678901 Fmt.S_US). lia. Defined.

(** A negative time: the sign takes a place of the fraction. *)
Example format_timing_negative : format_timing (-1) Fmt.S_NS = bytes "0.-00000001 s".
Proof. by vm_compute. Qed.

(** In the formats that do not count seconds apart, a time in cycles is printed
    as the nanoseconds it is. *)
Lemma format_tsc_timing_ns tsc_freq tsc ns f :
  TscToNs tsc_freq tsc = Some ns -> f <> Fmt.S_NS -> f <> Fmt.S_US -> f <> Fmt.S_MS -> f <> Fmt.S ->
  format_tsc_timing tsc_freq tsc f = Some (format_timing ns f).
Proof.
  intros Hns H1 H2 H3 H4. unfold format_tsc_timing, tsc_timing_text. rewrite Hns.
  assert (0 <= ns < 2 ^ 64).
  { unfold TscToNs, u64_of in Hns. destruct (truncate _) as [i|]; [|done]. cbn in Hns.
    destruct ((0 <=? i) && (i <? 2 ^ 64)) eqn:E; [|done]. injection Hns as <-. lia. }
  unfold format_timing, timing_text.
  by destruct f; cbn [mbind option_bind]; rewrite ?Z.quot_div_nonneg, ?Z.rem_mod_nonneg by lia.
Qed.

(** No timings: the average is not a number, and its conversion is undefined. *)
Lemma lm_print_timing_avg_none timing description f : lm_print_timing_avg timing 0 description f = None.
Proof.
  unfold lm_print_timing_avg, ll_of. change (double_of 0) with (S754_zero false).
  by destruct (double_of timing) as [[]|[]| |[]].
Qed.

(** The order that is reported is that of the times. *)
Lemma lm_compare_timing_order t1 t2 :
  (lm_compare_timing t1 t2).1.1 = match t1 ?= t2 with Eq => 0 | Lt => 1 | Gt => -1 end.
Proof.
  unfold lm_compare_timing. destruct (Z.compare_spec t1 t2).
  - by rewrite (proj2 (Z.eqb_eq _ _)).
  - by rewrite (proj2 (Z.eqb_neq _ _)), (proj2 (Z.ltb_lt _ _)) by lia.
  - by rewrite (proj2 (Z.eqb_neq _ _)), (proj2 (Z.ltb_ge _ _)) by lia.
Qed.

(** The two comparisons agree where a [long long] is one. *)
Lemma lm_compare_tsc_timing_agrees t1 t2 :
  0 <= t1 < 2 ^ 63 -> 0 <= t2 < 2 ^ 63 -> lm_compare_tsc_timing t1 t2 = lm_compare_timing t1 t2.
Proof.
  intros H1 H2. unfold lm_compare_tsc_timing, lm_compare_timing. destruct (Z.eqb_spec t1 t2); [done|].
  destruct (Z.ltb_spec t1 t2); by rewrite u64_small by lia.
Qed.

(** What the loops log is what would be printed. *)
Lemma lm_log_tsc_timing_avg_prints freq tsc count description stamp_fmt text :
  lm_log_tsc_timing_avg freq tsc count description stamp_fmt = Some text ->
  lm_print_tsc_timing_avg freq tsc count description stamp_fmt = Some text.
Proof.
  unfold lm_log_tsc_timing_avg. destruct (TscToNs freq tsc) as [ns|]; [|done]. cbn [mbind option_bind].
  by destruct (ll_of _).
Qed.
