(* ===== verification/JsonPrint.v ===== *)
(** * The printer of cJSON: [src/src/cJSON/cJSON.c]

    [print_value] and its parts write an item into a buffer that [ensure]
    enlarges; [cJSON_Print], [cJSON_PrintUnformatted], [cJSON_PrintBuffered] and
    [cJSON_PrintPreallocated] are the ways to call them.  The buffer is a block of
    bytes with an offset: a write or a read outside of it is [None], and so is a
    [strlen] that meets no NUL.  [render] is the text without the buffer.

    Items are the values of [Json].  The conversions of a double ([%.15g],
    [%.17g], [%lg]) are those of the C library and parameters; the comparisons
    around them are computed, on the doubles of [SpecFloat]. *)

From S2P Require Import Prelude.
From S2P Require Import LmDefs.
From S2P Require Import Json.
From S2P Require Import Timing.
From Stdlib Require Import SpecFloat.
From Stdlib Require Import Strings.String.
#[local] Open Scope Z_scope.
#[local] Abbreviation length := List.length.
#[local] Abbreviation concat := List.concat.

(** ** Hooks *)

(** [cJSON_InitHooks]: the functions to allocate, to free and to enlarge a block;
    the last one is NULL unless the others are those of the C library. *)
Definition cJSON_InitHooks {F : Type} `{EqDecision F} (malloc free realloc : F)
    (hooks : option (option F * option F)) : F * F * option F :=
  match hooks with
  | None => (malloc, free, Some realloc)
  | Some (malloc_fn, free_fn) =>
      let allocate := default malloc malloc_fn in
      let deallocate := default free free_fn in
      (allocate, deallocate,
       if bool_decide (allocate = malloc) && bool_decide (deallocate = free) then Some realloc else None)
  end.

(** ** Numbers *)

Definition dsub : double -> double -> double := SFsub 53 1024.
Definition DBL_EPSILON : double := S754_finite false (2 ^ 52) (-104).
Definition is_nan_or_inf (d : double) : bool :=
  match d with S754_nan | S754_infinity _ => true | _ => false end.

(** [lm_doubles_equal] of [lm.h]. *)
Definition lm_doubles_equal (a b epsilon : double) : bool := SFltb (SFabs (dsub a b)) epsilon.

Definition compare_double (a b : double) : bool :=
  let maxVal := if SFltb (SFabs b) (SFabs a) then SFabs a else SFabs b in
  SFleb (SFabs (dsub a b)) (dmul maxVal DBL_EPSILON).

(** The decimal point of the build, which has no locales. *)
Definition get_decimal_point : Z := 46.

(** ** Escapes *)

(** The letter of a two-character escape. *)
Definition escape_letter (c : Z) : option Z :=
  if c =? backslash then Some backslash
  else if c =? quote then Some quote
  else if c =? 8 then Some 98
  else if c =? 12 then Some 102
  else if c =? 10 then Some 110
  else if c =? 13 then Some 114
  else if c =? 9 then Some 116
  else None.

(** A character that is copied. *)
Definition is_copied (c : Z) : bool := (31 <? c) && negb (c =? quote) && negb (c =? backslash).

(** ["u%04x"] *)
Definition hex_letter (v : Z) : Z := if v <? 10 then 48 + v else 87 + v.
Definition u04x (c : Z) : list Z :=
  [117; hex_letter (c / 4096 mod 16); hex_letter (c / 256 mod 16); hex_letter (c / 16 mod 16); hex_letter (c mod 16)].

(** The characters that the first loop of [print_string_ptr] adds for one. *)
Definition escape_characters (c : Z) : nat :=
  match escape_letter c with
  | Some _ => 1%nat
  | None => if c <? 32 then 5%nat else 0%nat
  end.

(** ** The buffer *)

(** [printbuffer]: its [length] is the size of the block, 0 without one.  With it
    the calls of the hooks so far and the blocks that are held. *)
Record printbuffer := mkPrint {
  buffer : option (list Z); offset : nat; depth : nat; calls : nat; held : Z;
}.

Definition plength (p : printbuffer) : nat := length (default [] (buffer p)).

(** A step returns false, here [None], or goes on; the outer [None] is undefined. *)
Definition P (A : Type) : Type := printbuffer -> option (option A * printbuffer).

#[export] Instance P_ret : MRet P := fun _ a p => Some (Some a, p).
#[export] Instance P_bind : MBind P := fun _ _ k m p =>
  '(r, p) ← m p; match r with Some a => k a p | None => Some (None, p) end.

Definition fails : P unit := fun p => Some (None, p).
Definition advance (n : nat) : P unit := fun p =>
  Some (Some tt, mkPrint (buffer p) (offset p + n) (depth p) (calls p) (held p)).
Definition deeper : P unit := fun p =>
  Some (Some tt, mkPrint (buffer p) (offset p) (S (depth p)) (calls p) (held p)).
Definition shallower : P unit := fun p =>
  Some (Some tt, mkPrint (buffer p) (offset p) (depth p - 1) (calls p) (held p)).

(** Bytes from [k] after the offset on. *)
Definition put (k : nat) (t : list Z) : P unit := fun p =>
  old ← buffer p;
  let at_ := (offset p + k)%nat in
  if (at_ + length t <=? length old)%nat
  then Some (Some tt, mkPrint (Some (take at_ old ++ t ++ drop (at_ + length t) old))
                        (offset p) (depth p) (calls p) (held p))
  else None.

Fixpoint strlen (l : list Z) : option nat :=
  match l with
  | [] => None
  | c :: l => if c =? 0 then Some O else S <$> strlen l
  end.

Definition update_offset : P unit := fun p =>
  match buffer p with
  | None => Some (Some tt, p)
  | Some b => n ← strlen (drop (offset p) b); advance n p
  end.

Section Printer.
(** Whether a call of a hook succeeds, the bytes of a new block, whether there is
    a hook to enlarge one; the fields of [printbuffer] that stay. *)
Variable grant : nat -> bool.
Variable fresh : nat -> nat -> Z.
Variable reallocate noalloc format : bool.

Definition fresh_bytes (call from n : nat) : list Z := map (fresh call) (seq from n).

(** The rest of [ensure], from the choice of [newsize] on. *)
Definition enlarge (newsize : nat) (old : list Z) : P unit := fun p =>
  let call := calls p in
  if reallocate then
    if grant call then
      Some (Some tt, mkPrint (Some (take newsize old ++ fresh_bytes call (length old) (newsize - length old)))
                       (offset p) (depth p) (S call) (held p))
    else Some (None, mkPrint None (offset p) (depth p) (S call) (held p - 1))
  else if grant call then
    (* memcpy(newbuffer, p->buffer, p->offset + 1) *)
    if (offset p + 1 <=? length old)%nat then
      Some (Some tt, mkPrint (Some (take (offset p + 1) old ++ fresh_bytes call (offset p + 1) (newsize - (offset p + 1))))
                       (offset p) (depth p) (S call) (held p + 1 - 1))
    else None
  else Some (None, mkPrint None (offset p) (depth p) (S call) (held p - 1)).

Definition new_size (needed : nat) : option nat :=
  if INT_MAX / 2 <? Z.of_nat needed then
    if Z.of_nat needed <=? INT_MAX then Some (Z.to_nat INT_MAX) else None
  else Some (needed * 2)%nat.

Definition ensure (needed : nat) : P unit := fun p =>
  match buffer p with
  | None => fails p
  | Some old =>
      if (0 <? length old)%nat && (length old <=? offset p)%nat then fails p
      else if INT_MAX <? Z.of_nat needed then fails p
      else
        let needed := (needed + offset p + 1)%nat in
        if (needed <=? length old)%nat then Some (Some tt, p)
        else if noalloc then fails p
        else match new_size needed with
             | None => fails p
             | Some newsize => enlarge newsize old p
             end
  end.

(** [sprintf] and [sscanf]: the text of a double with a number of significant
    digits, the double of a text. *)
Variable fmt_g : Z -> double -> list Z.
Variable scan_lg : list Z -> option double.

Definition number_text (d : double) (valueint : Z) : list Z :=
  if is_nan_or_inf d then bytes "null"
  else if lm_doubles_equal d (double_of valueint) DBL_EPSILON then lld valueint
  else
    let short := fmt_g 15 d in
    match scan_lg short with
    | Some test => if compare_double test d then short else fmt_g 17 d
    | None => fmt_g 17 d
    end.

(** [sprintf] writes into an array of 26 bytes. *)
Definition print_number (d : double) (valueint : Z) : P unit := fun p =>
  let number_buffer := number_text d valueint in
  let n := length number_buffer in
  if (26 <=? n)%nat then None
  else
    (ensure (n + 1);;
     put 0 (map (fun c => if c =? get_decimal_point then 46 else c) number_buffer ++ [0]);;
     advance n) p.

(** The second loop of [print_string_ptr], from position [k] on; ["u%04x"] is
    written with its NUL. *)
Fixpoint put_escaped (k : nat) (input : list Z) : P unit :=
  match input with
  | [] => mret tt
  | c :: input =>
      if is_copied c then put k [c];; put_escaped (k + 1) input
      else
        put k [backslash];;
        match escape_letter c with
        | Some e => put (k + 1) [e];; put_escaped (k + 2) input
        | None => put (k + 1) (u04x c ++ [0]);; put_escaped (k + 6) input
        end
  end.

Definition print_string_ptr (input : option (list Z)) : P unit :=
  match input with
  | None => ensure 3;; put 0 [quote; quote; 0]
  | Some s =>
      let input := c_str s in
      let escapes := list_sum (map escape_characters input) in
      let output_length := (length input + escapes)%nat in
      ensure (output_length + 3);;
      if (escapes =? 0)%nat then put 0 [quote];; put 1 input;; put (output_length + 1) [quote; 0]
      else put 0 [quote];; put_escaped 1 input;; put (output_length + 1) [quote; 0]
  end.

(** A literal: [strcpy] with its NUL. *)
Definition print_literal (s : list Z) : P unit := ensure (length s + 1);; put 0 (s ++ [0]).

(** The loops over the children, given how a child is printed. *)
Section Children.
Variable print_value : json -> P unit.

Fixpoint print_elements (items : list json) : P unit :=
  match items with
  | [] => mret tt
  | i :: items =>
      print_value i;;
      update_offset;;
      (match items with
       | [] => mret tt
       | _ :: _ =>
           let length := if format then 2%nat else 1%nat in
           ensure (length + 1);;
           put 0 ([44] ++ (if format then [32] else []) ++ [0]);;
           advance length
       end);;
      print_elements items
  end.

Definition indent : P unit := fun p =>
  (ensure (depth p);; put 0 (replicate (depth p) 9);; advance (depth p)) p.

Fixpoint print_members (members : list (list Z * json)) : P unit :=
  match members with
  | [] => mret tt
  | (name, i) :: members =>
      (if format then indent else mret tt);;
      print_string_ptr (Some name);;
      update_offset;;
      (let length := if format then 2%nat else 1%nat in
       ensure length;;
       put 0 ([58] ++ (if format then [9] else []));;
       advance length);;
      print_value i;;
      update_offset;;
      (let comma := match members with [] => [] | _ :: _ => [44] end in
       let newline := if format then [10] else [] in
       ensure (length (comma ++ newline) + 1);;
       put 0 ((comma ++ newline) ++ [0]);;
       advance (length (comma ++ newline)));;
      print_members members
  end.
End Children.

Definition close_object : P unit := fun p =>
  (ensure (if format then depth p + 1 else 2)%nat;;
   put 0 ((if format then replicate (depth p - 1) 9 else []) ++ [125; 0])) p.

Fixpoint print_value (item : json) : P unit :=
  match item with
  | JNull => print_literal (bytes "null")
  | JBool false => print_literal (bytes "false")
  | JBool true => print_literal (bytes "true")
  | JNumber d valueint => print_number d valueint
  | JString s => print_string_ptr (Some s)
  | JArray items =>
      ensure 1;; put 0 [91];; advance 1;; deeper;;
      print_elements print_value items;;
      ensure 2;; put 0 [93; 0];; shallower
  | JObject members =>
      (let length := if format then 2%nat else 1%nat in
       ensure (length + 1);;
       put 0 [123];; deeper;;
       (if format then put 1 [10] else mret tt);;
       advance length);;
      print_members print_value members;;
      close_object;; shallower
  | JInvalid => fails
  end.

(** [print_value] of a pointer. *)
Definition print_item (item : option json) : P unit :=
  match item with None => fails | Some j => print_value j end.
End Printer.

(** ** The functions that print *)

Section Functions.
Variable grant : nat -> bool.
Variable fresh : nat -> nat -> Z.
Variable reallocate : bool.
Variable fmt_g : Z -> double -> list Z.
Variable scan_lg : list Z -> option double.

(** What a caller sees: the block returned, the calls of the hooks and the blocks
    that are held. *)
Record printed := mkPrinted { result : option (list Z); calls_after : nat; held_after : Z }.

(** The label [fail] of [print]. *)
Definition print_failed (p : printbuffer) : printed :=
  mkPrinted None (calls p) (held p - match buffer p with Some _ => 1 | None => 0 end).

Definition print (item : option json) (format : bool) (calls_ : nat) (held_ : Z) : option printed :=
  if negb (grant calls_) then Some (mkPrinted None (S calls_) held_)
  else
    let p := mkPrint (Some (fresh_bytes fresh calls_ 0 256)) 0 0 (S calls_) (held_ + 1) in
    '(r, p) ← (print_item grant fresh reallocate false format fmt_g scan_lg item;; update_offset) p;
    match r, buffer p with
    | Some _, Some b =>
        let n := (offset p + 1)%nat in
        if reallocate then
          if grant (calls p)
          then Some (mkPrinted (Some (take n b ++ fresh_bytes fresh (calls p) (length b) (n - length b))) (S (calls p)) (held p))
          else Some (print_failed (mkPrint (buffer p) (offset p) (depth p) (S (calls p)) (held p)))
        else if grant (calls p)
        then
          (* memcpy of cjson_min(length, offset + 1) bytes, printed[offset] = 0, deallocate *)
          let copied := Nat.min (length b) n in
          let new := take copied b ++ fresh_bytes fresh (calls p) copied (n - copied) in
          Some (mkPrinted (Some (<[offset p := 0]> new)) (S (calls p)) (held p + 1 - 1))
        else Some (print_failed (mkPrint (buffer p) (offset p) (depth p) (S (calls p)) (held p)))
    | _, _ => Some (print_failed p)
    end.

Definition cJSON_Print (item : option json) : nat -> Z -> option printed := print item true.
Definition cJSON_PrintUnformatted (item : option json) : nat -> Z -> option printed := print item false.

Definition cJSON_PrintBuffered (item : option json) (prebuffer : Z) (fmt : bool) (calls_ : nat) (held_ : Z)
    : option printed :=
  if prebuffer <? 0 then Some (mkPrinted None calls_ held_)
  else if negb (grant calls_) then Some (mkPrinted None (S calls_) held_)
  else
    let p := mkPrint (Some (fresh_bytes fresh calls_ 0 (Z.to_nat prebuffer))) 0 0 (S calls_) (held_ + 1) in
    '(r, p) ← print_item grant fresh reallocate false fmt fmt_g scan_lg item p;
    match r with
    | None => Some (print_failed p)
    | Some _ => Some (mkPrinted (buffer p) (calls p) (held p))
    end.

(** [buf]: the caller's block, of which [length] bytes are for the text; whether it
    succeeded, and these bytes after. *)
Definition cJSON_PrintPreallocated (item : option json) (buf : option (list Z)) (length : Z) (fmt : bool)
    : option (bool * option (list Z)) :=
  match buf with
  | None => Some (false, None)
  | Some b =>
      if length <? 0 then Some (false, buf)
      else if len b <? length then None
      else
        '(r, p) ← print_item grant fresh reallocate true fmt fmt_g scan_lg item
                    (mkPrint (Some (take (Z.to_nat length) b)) 0 0 0 0);
        Some (match r with Some _ => true | None => false end, buffer p)
  end.
End Functions.

(** ** The text, without the buffer *)

Definition escaped_char (c : Z) : list Z :=
  if is_copied c then [c]
  else match escape_letter c with
       | Some e => [backslash; e]
       | None => backslash :: u04x c
       end.

Definition string_out (s : list Z) : list Z :=
  [quote] ++ concat (map escaped_char (c_str s)) ++ [quote].

(** No item in it is one that was never given a type. *)
Fixpoint valid (j : json) : bool :=
  match j with
  | JInvalid => false
  | JArray items => forallb valid items
  | JObject members => forallb (fun '(_, i) => valid i) members
  | _ => true
  end.

Section Render.
Variable format : bool.
Variable fmt_g : Z -> double -> list Z.
Variable scan_lg : list Z -> option double.

Section Children.
Variable render : json -> list Z.

Fixpoint render_elements (items : list json) : list Z :=
  match items with
  | [] => []
  | i :: items =>
      render i ++ match items with [] => [] | _ :: _ => [44] ++ (if format then [32] else []) end
      ++ render_elements items
  end.

Fixpoint render_members (lv : nat) (members : list (list Z * json)) : list Z :=
  match members with
  | [] => []
  | (name, i) :: members =>
      (if format then replicate lv 9 else []) ++ string_out name ++ [58] ++ (if format then [9] else [])
      ++ render i ++ match members with [] => [] | _ :: _ => [44] end ++ (if format then [10] else [])
      ++ render_members lv members
  end.
End Children.

(** The text of an item inside [lv] arrays and objects. *)
Fixpoint render (lv : nat) (j : json) : list Z :=
  match j with
  | JInvalid => []
  | JNull => bytes "null"
  | JBool b => if b then bytes "true" else bytes "false"
  | JNumber d valueint => number_text fmt_g scan_lg d valueint
  | JString s => string_out s
  | JArray items => [91] ++ render_elements (render (S lv)) items ++ [93]
  | JObject members =>
      [123] ++ (if format then [10] else []) ++ render_members (render (S lv)) (S lv) members
      ++ (if format then replicate lv 9 else []) ++ [125]
  end.
End Render.

(** ** Steps that write into the buffer *)

(** What the formats of a double promise; the longest text they give is
    ["-1.2345678901234567e-308"]. *)
Record fmt_g_ok (fmt_g : Z -> double -> list Z) : Prop := {
  fmt_g_length : forall precision d, (length (fmt_g precision d) <= 24)%nat;
  fmt_g_nonzero : forall precision d, Forall (fun c => c <> 0) (fmt_g precision d);
}.

Section Correct.
Context (grant : nat -> bool) (fresh : nat -> nat -> Z) (reallocate noalloc format : bool).
Context (fmt_g : Z -> double -> list Z) (scan_lg : list Z -> option double).
Context (Hfmt : fmt_g_ok fmt_g).
(** The blocks that are held besides the buffer. *)
Context (base : Z).

#[local] Abbreviation ensure := (ensure grant fresh reallocate noalloc).
#[local] Abbreviation print_value := (print_value grant fresh reallocate noalloc format fmt_g scan_lg).

(** The text [pre] is before the offset, [t] after it, and there is room for [n]
    bytes and one more. *)
Record holds (pre t : list Z) (n lv : nat) (p : printbuffer) (b : list Z) : Prop := {
  h_buffer : buffer p = Some b;
  h_offset : offset p = length pre;
  h_text : take (length pre + length t) b = pre ++ t;
  h_depth : depth p = lv;
  h_held : held p = base + 1;
  h_room : (length pre + n + 1 <= length b)%nat;
}.
Definition at_room (pre t : list Z) (n lv : nat) (p : printbuffer) : Prop := exists b, holds pre t n lv p b.

(** At the end of [pre]; a block of no bytes is enlarged first. *)
Definition at_point (pre : list Z) (lv : nat) (p : printbuffer) : Prop :=
  at_room pre [] 0 lv p \/
  buffer p = Some [] /\ offset p = O /\ pre = [] /\ depth p = lv /\ held p = base + 1 /\ (reallocate || noalloc = true).

(** [t] is written after [pre], with its NUL, and a byte is left; the offset is
    somewhere in it. *)
Definition wrote (pre t : list Z) (lv : nat) (p : printbuffer) : Prop :=
  exists b, buffer p = Some b /\ (length pre <= offset p <= length (pre ++ t))%nat /\
    take (length (pre ++ t) + 1) b = pre ++ t ++ [0] /\ (length (pre ++ t) + 2 <= length b)%nat /\
    depth p = lv /\ held p = base + 1.

(** A failure gave the buffer back, or left it to the caller. *)
Definition failed (p : printbuffer) : Prop :=
  held p = base + match buffer p with Some _ => 1 | None => 0 end.

(** What [N] bytes in all need. *)
Definition enough (N : nat) (p : printbuffer) : Prop :=
  Z.of_nat N <= INT_MAX /\ ((N <= plength p)%nat \/ noalloc = false /\ forall n, grant n = true).

(** From [Pre] the step returns; it goes on to [Post], or it fails, which with
    enough memory it does only on an item that is not [ok]. *)
Definition triple (ok : bool) (N : nat) (Pre : printbuffer -> Prop) (m : P unit) (Post : printbuffer -> Prop) : Prop :=
  forall p, Pre p -> exists r p', m p = Some (r, p') /\
    match r with
    | Some _ => Post p' /\ (plength p <= plength p')%nat
    | None => failed p' /\ (enough N p -> ok = false)
    end.

Lemma enough_mono N p p' : (plength p <= plength p')%nat -> enough N p -> enough N p'.
Proof. intros Hl [Hn [Hp|H]]; (split; [done|]); [left; lia|by right]. Qed.

Lemma triple_seq ok N A m B k C :
  triple ok N A m B -> triple ok N B k C -> triple ok N A (m;; k) C.
Proof.
  intros Hm Hk p Hp. destruct (Hm p Hp) as (r & p1 & E & Hr). unfold mbind, P_bind. rewrite E. cbn [mbind option_bind].
  destruct r as [[]|]; [|by exists None, p1]. destruct Hr as [HB Hl].
  destruct (Hk p1 HB) as (r & p2 & E2 & Hr2). exists r, p2. split; [done|]. destruct r as [[]|].
  - destruct Hr2. split; [done|lia].
  - destruct Hr2 as [Hf He]. split; [done|]. intros H. apply He. by eapply enough_mono.
Qed.

Lemma triple_assoc ok N A B (m k l : P unit) : triple ok N A ((m;; k);; l) B -> triple ok N A (m;; k;; l) B.
Proof.
  intros H p Hp. destruct (H p Hp) as (r & p' & E & Hr). exists r, p'. split; [|done]. rewrite <- E.
  unfold mbind, P_bind. destruct (m p) as [[[a|] p1]|]; [|done..]. cbn [mbind option_bind]. by destruct (k p1) as [[[a'|] p2]|].
Qed.

Lemma triple_ret ok N A : triple ok N A (mret tt) A.
Proof. intros p Hp. exists (Some tt), p. split; [done|]. by split. Qed.

Lemma triple_weaken ok ok' N (A A' B B' : printbuffer -> Prop) m :
  (ok = false -> ok' = false) -> (forall p, A' p -> A p) -> (forall p, B p -> B' p) ->
  triple ok N A m B -> triple ok' N A' m B'.
Proof.
  intros Hok HA HB Hm p Hp. destruct (Hm p (HA p Hp)) as (r & p' & E & Hr). exists r, p'. split; [done|].
  destruct r; [destruct Hr; split; auto|destruct Hr as [Hf He]; split; auto].
Qed.

(** A fact learnt from the step before. *)
Lemma triple_pure ok N (A : printbuffer -> Prop) (phi : Prop) m B :
  (phi -> triple ok N A m B) -> triple ok N (fun p => A p /\ phi) m B.
Proof. intros H p [Hp Hphi]. by apply H. Qed.

Lemma triple_depth ok N (A : printbuffer -> Prop) lv (m : nat -> P unit) B :
  (forall p, A p -> depth p = lv) -> triple ok N A (m lv) B -> triple ok N A (fun p => m (depth p) p) B.
Proof. intros HA Hm p Hp. rewrite (HA p Hp). by apply Hm. Qed.

(** ** The steps *)

Lemma new_size_spec needed :
  match new_size needed with
  | Some newsize => (needed <= newsize)%nat
  | None => INT_MAX < Z.of_nat needed
  end.
Proof.
  unfold new_size. destruct (_ <? _); [destruct (Z.leb_spec (Z.of_nat needed) INT_MAX)|]; lia.
Qed.

Lemma fresh_bytes_length call from n : length (fresh_bytes fresh call from n) = n.
Proof. unfold fresh_bytes. by rewrite length_map, length_seq. Qed.

Lemma enlarge_spec newsize pre lv n N p b :
  buffer p = Some b -> offset p = length pre -> take (length pre) b = pre -> depth p = lv -> held p = base + 1 ->
  (length b < newsize)%nat -> (length pre + n + 1 <= newsize)%nat -> (length b < N)%nat ->
  (length pre < length b)%nat \/ reallocate = true ->
  exists r p', enlarge grant fresh reallocate newsize b p = Some (r, p') /\
    match r with
    | Some _ => at_room pre [] n lv p' /\ (plength p <= plength p')%nat
    | None => failed p' /\ (enough N p -> false = true)
    end.
Proof.
  intros Hb Ho Ht Hd Hh Hlt Hn HN Hroom.
  assert (Hpl : plength p = length b) by (unfold plength; by rewrite Hb).
  assert (Hpre : (length pre <= length b)%nat) by (apply (f_equal length) in Ht; rewrite length_take in Ht; lia).
  assert (Hno : grant (calls p) = false -> enough N p -> false = true).
  { intros Hg [_ [HN'|[_ Hall]]]; [lia|]. by rewrite <- Hg, Hall. }
  unfold enlarge. destruct reallocate.
  - destruct (grant (calls p)); eexists _, _; (split; [reflexivity|]).
    + split; [|unfold plength in *; cbn; rewrite length_app, length_take, fresh_bytes_length; lia].
      eexists. split; cbn; [reflexivity|done| |done|done|].
      * rewrite Nat.add_0_r, app_nil_r, take_app_le by (rewrite length_take; lia). rewrite take_take. by rewrite Nat.min_l by lia.
      * rewrite length_app, length_take, fresh_bytes_length. lia.
    + split; [unfold failed; cbn; lia|by apply Hno].
  - destruct Hroom as [Hroom|]; [|done].
    destruct (grant (calls p)); [|eexists _, _; split; [reflexivity|]; split; [unfold failed; cbn; lia|by apply Hno]].
    rewrite Ho, (proj2 (Nat.leb_le _ _)) by lia. eexists _, _. split; [reflexivity|].
    split; [|unfold plength in *; cbn; rewrite length_app, length_take, fresh_bytes_length; lia].
    eexists. split; cbn; [reflexivity|done| |done|lia|].
    + rewrite Nat.add_0_r, app_nil_r, take_app_le by (rewrite length_take; lia). rewrite take_take. by rewrite Nat.min_l by lia.
    + rewrite length_app, length_take, fresh_bytes_length. lia.
Qed.

Lemma ensure_triple pre lv n N :
  (length pre + n + 1 <= N)%nat -> triple true N (at_point pre lv) (ensure n) (at_room pre [] n lv).
Proof.
  intros HN p Hp.
  assert (H : exists b, buffer p = Some b /\ offset p = length pre /\ take (length pre) b = pre /\ depth p = lv /\
              held p = base + 1 /\ ((length pre < length b)%nat \/ b = [] /\ reallocate || noalloc = true)).
  { destruct Hp as [[b []]|(Hb & Ho & -> & Hd & Hh & Hr)].
    - exists b. rewrite Nat.add_0_r, app_nil_r in h_text0. split_and!; try done. left. lia.
    - exists []. split_and!; try done. by right. }
  destruct H as (b & Hb & Ho & Ht & Hd & Hh & Hsz). unfold JsonPrint.ensure. rewrite Hb, Ho.
  assert (Hpl : plength p = length b) by (unfold plength; by rewrite Hb).
  assert (Hfail : forall Q : Prop, (enough N p -> Q) -> exists r p', fails p = Some (r, p') /\
            match r with Some _ => at_room pre [] n lv p' /\ (plength p <= plength p')%nat
                       | None => failed p' /\ (enough N p -> Q) end).
  { intros Q HQ. exists None, p. split; [done|]. split; [unfold failed; by rewrite Hb|done]. }
  replace ((0 <? length b)%nat && (length b <=? length pre)%nat) with false
    by (symmetry; destruct Hsz as [H|[-> _]]; [rewrite (proj2 (Nat.leb_gt _ _)) by lia; by rewrite andb_false_r|done]).
  destruct (Z.ltb_spec INT_MAX (Z.of_nat n)) as [Hbig|_]; [apply Hfail; intros [? _]; lia|].
  destruct (Nat.leb_spec (n + length pre + 1) (length b)) as [Hle|Hgt].
  { exists (Some tt), p. split; [done|]. split; [|done]. exists b. split; try done; [by rewrite Nat.add_0_r, app_nil_r|lia]. }
  destruct noalloc eqn:Hna; [apply Hfail; intros [_ [?|[? _]]]; [lia|congruence]|].
  pose proof (new_size_spec (n + length pre + 1)) as Hs. destruct (new_size _) as [newsize|].
  2: { apply Hfail. intros [? _]. lia. }
  destruct (enlarge_spec newsize pre lv n N p b) as (r & p' & E & Hr); try done; try lia.
  { destruct Hsz as [?|[_ Hr]]; [by left|right; by rewrite orb_false_r in Hr]. }
  exists r, p'. split; [done|]. destruct r as [[]|]; [done|]. destruct Hr as [Hf He]. split; [done|]. intros H. by specialize (He H).
Qed.

Lemma put_triple pre t n lv N k t' :
  (k <= length t)%nat -> (k + length t' <= n + 1)%nat ->
  triple true N (at_room pre t n lv) (put k t') (at_room pre (take k t ++ t') n lv).
Proof.
  intros Hk Hn p [b []]. unfold put. rewrite h_buffer0. cbn [mbind option_bind]. rewrite h_offset0.
  rewrite (proj2 (Nat.leb_le _ _)) by lia. eexists _, _. split; [reflexivity|].
  assert (Hl : length (take (length pre + k) b) = (length pre + k)%nat) by (rewrite length_take; lia).
  split; [|unfold plength; rewrite h_buffer0; cbn; rewrite !length_app, length_drop; lia].
  eexists. split; cbn; [reflexivity|done| |done|done|].
  - assert (Hpre : take (length pre + k) b = pre ++ take k t).
    { rewrite <- (Nat.min_l (length pre + k) (length pre + length t)) by lia. rewrite <- take_take, h_text0, take_app_ge by lia.
      f_equal. f_equal. lia. }
    rewrite Hpre, <- !app_assoc. rewrite (app_assoc pre), (app_assoc _ t'). rewrite take_app_length'; [by rewrite <- app_assoc|].
    rewrite !length_app, length_take. lia.
  - rewrite !length_app, length_drop. lia.
Qed.

Lemma advance_triple pre t n lv N m :
  (m <= length t)%nat -> (m <= n)%nat ->
  triple true N (at_room pre t n lv) (advance m) (at_point (pre ++ take m t) lv).
Proof.
  intros Hm Hn p [b []]. eexists _, _. split; [reflexivity|]. split; [|done]. left. exists b.
  split; cbn; [done| | |done|done|]; rewrite ?length_app, ?length_take.
  - lia.
  - rewrite Nat.add_0_r, app_nil_r. rewrite <- (Nat.min_l (length pre + m `min` length t) (length pre + length t)) by lia.
    rewrite <- take_take, h_text0, take_app_ge by lia. do 2 f_equal. lia.
  - lia.
Qed.

(** A text with its NUL. *)
Lemma at_room_wrote pre t n lv p : (length t + 1 <= n)%nat -> at_room pre (t ++ [0]) n lv p -> wrote pre t lv p.
Proof.
  intros Hn [b []]. exists b. rewrite length_app in *. cbn in h_text0. split; [done|]. split; [rewrite h_offset0; lia|].
  rewrite <- Nat.add_assoc. split; [done|]. split; [lia|done].
Qed.

Lemma strlen_app l rest : Forall (fun c => c <> 0) l -> strlen (l ++ 0 :: rest) = Some (length l).
Proof.
  induction 1 as [|c l Hc _ IH]; cbn; [done|]. rewrite (proj2 (Z.eqb_neq _ _) Hc). by rewrite IH.
Qed.

Lemma update_triple pre t lv N :
  Forall (fun c => c <> 0) t -> triple true N (wrote pre t lv) update_offset (at_point (pre ++ t) lv).
Proof.
  intros Ht p (b & Hb & [Ho1 Ho2] & Htake & _ & Hd & Hh). unfold update_offset. rewrite Hb.
  assert (E : drop (offset p) b = drop (offset p - length pre) t ++ 0 :: drop (length (pre ++ t) + 1) b).
  { rewrite <- (take_drop (length (pre ++ t) + 1) b) at 1. rewrite Htake.
    rewrite (app_assoc pre t), drop_app_le by (rewrite !length_app in *; cbn; lia).
    rewrite <- app_assoc, drop_app_ge by lia. rewrite length_app in Ho2. rewrite drop_app_le by lia.
    by rewrite <- app_assoc. }
  rewrite E, strlen_app by by apply Forall_drop. cbn [mbind option_bind]. eexists _, _. split; [reflexivity|].
  assert (Hl : (length (pre ++ t) + 1 <= length b)%nat).
  { apply (f_equal length) in Htake. rewrite length_take, !length_app in *. cbn in Htake. lia. }
  split; [|done]. left. exists b. rewrite length_drop. rewrite length_app in *. split; cbn; try done; rewrite ?length_app.
  - lia.
  - rewrite Nat.add_0_r, app_nil_r. rewrite <- (Nat.min_l (length pre + length t) (length pre + length t + 1)) by lia.
    rewrite <- take_take, Htake, app_assoc. rewrite take_app_length'; [done|by rewrite length_app].
  - lia.
Qed.

(** [ensure], bytes from the offset on, and the offset past the text. *)
Lemma append_triple pre lv n N t rest :
  (length pre + n + 1 <= N)%nat -> (length (t ++ rest) <= n + 1)%nat -> (length t <= n)%nat ->
  triple true N (at_point pre lv) (ensure n;; put 0 (t ++ rest);; advance (length t)) (at_point (pre ++ t) lv).
Proof.
  intros HN Hr Ht. eapply triple_seq; [by apply ensure_triple|]. eapply triple_seq; [apply put_triple; cbn; lia|].
  eapply triple_weaken; [done|intros p Hp; exact Hp| |apply advance_triple].
  - intros p. by rewrite take_0, app_nil_l, take_app_length.
  - rewrite take_0, app_nil_l, length_app. lia.
  - done.
Qed.

(** The same with a NUL, the offset before the text. *)
Lemma text_triple pre lv n N t :
  (length pre + n + 1 <= N)%nat -> (length t + 1 <= n)%nat ->
  triple true N (at_point pre lv) (ensure n;; put 0 (t ++ [0])) (wrote pre t lv).
Proof.
  intros HN Ht. eapply triple_seq; [by apply ensure_triple|].
  eapply triple_weaken; [done|intros p Hp; exact Hp| |apply put_triple; [lia|rewrite length_app; cbn; lia]].
  intros p. rewrite take_0, app_nil_l. by apply at_room_wrote.
Qed.

Lemma literal_triple pre lv N s :
  (length pre + length s + 2 <= N)%nat ->
  triple true N (at_point pre lv) (print_literal grant fresh reallocate noalloc s) (wrote pre s lv).
Proof. intros HN. apply text_triple; lia. Qed.

(** ** Numbers *)

Lemma number_text_length d i : (length (number_text fmt_g scan_lg d i) <= 24)%nat.
Proof.
  unfold number_text. destruct (is_nan_or_inf d); [cbn; lia|]. destruct (lm_doubles_equal _ _ _).
  - pose proof (lld_length i). lia.
  - cbv zeta. repeat case_match; by apply fmt_g_length.
Qed.

Lemma decimal_point_same t : map (fun c => if c =? get_decimal_point then 46 else c) t = t.
Proof.
  induction t as [|c t IH]; cbn; [done|]. rewrite IH. by destruct (Z.eqb_spec c get_decimal_point) as [->|_].
Qed.

Lemma number_triple pre lv N d i :
  (length pre + length (number_text fmt_g scan_lg d i) + 2 <= N)%nat ->
  triple true N (at_point pre lv) (print_number grant fresh reallocate noalloc fmt_g scan_lg d i)
    (wrote pre (number_text fmt_g scan_lg d i) lv).
Proof.
  intros HN p Hp. unfold print_number. pose proof (number_text_length d i) as Hl.
  rewrite (proj2 (Nat.leb_gt _ _)) by lia. rewrite decimal_point_same. set (t := number_text fmt_g scan_lg d i) in *.
  assert (H : triple true N (at_point pre lv) (ensure (length t + 1);; put 0 (t ++ [0]);; advance (length t)) (wrote pre t lv)).
  2: { by apply H. }
  eapply triple_seq; [apply ensure_triple; lia|]. eapply triple_seq; [apply put_triple; rewrite ?length_app; cbn; lia|].
  intros q [b []]. rewrite take_0, app_nil_l in *. eexists _, _. split; [reflexivity|]. split; [|done].
  exists b. rewrite !length_app in *. cbn in *. split; [done|]. split; [lia|]. rewrite <- Nat.add_assoc. split; [done|]. split; [lia|done].
Qed.

(** ** Strings *)

Lemma escaped_char_cases c :
  (exists e, escape_letter c = Some e /\ is_copied c = false /\ escape_characters c = 1%nat /\
             simple_escape e = Some c) \/
  escape_letter c = None /\
  (c < 32 /\ is_copied c = false /\ escape_characters c = 5%nat \/
   32 <= c /\ c <> quote /\ c <> backslash /\ is_copied c = true /\ escape_characters c = 0%nat).
Proof.
  destruct (decide (c ∈ [92; 34; 8; 12; 10; 13; 9])) as [Hin|Hout].
  - left. rewrite !elem_of_cons in Hin. destruct_or? Hin; try (by apply elem_of_nil in Hin); subst c; eexists; split_and!; reflexivity.
  - right. rewrite !elem_of_cons in Hout. assert (c <> 92 /\ c <> 34 /\ c <> 8 /\ c <> 12 /\ c <> 10 /\ c <> 13 /\ c <> 9)
      as (H1 & H2 & H3 & H4 & H5 & H6 & H7) by naive_solver.
    assert (He : escape_letter c = None).
    { unfold escape_letter, quote, backslash. by rewrite !(proj2 (Z.eqb_neq c _)) by done. }
    unfold is_copied, escape_characters. rewrite He. split; [done|]. unfold quote, backslash.
    rewrite !(proj2 (Z.eqb_neq c _)) by done. cbn [negb]. rewrite !andb_true_r.
    destruct (Z.ltb_spec 31 c); [right|left]; (destruct (Z.ltb_spec c 32); [|]; try lia); by split_and!; try lia.
Qed.

Lemma escaped_char_length c : length (escaped_char c) = S (escape_characters c).
Proof.
  unfold escaped_char.
  destruct (escaped_char_cases c) as [(e & -> & -> & -> & _)|[-> [(_ & -> & ->)|(_ & _ & _ & -> & ->)]]]; done.
Qed.

Lemma escaped_length l : length (concat (map escaped_char l)) = (length l + list_sum (map escape_characters l))%nat.
Proof.
  induction l as [|c l IH]; cbn -[escaped_char escape_characters]; [done|]. rewrite length_app, escaped_char_length, IH.
  unfold list_sum. lia.
Qed.

(** [t] is after the offset, and something behind it that the next step writes
    over. *)
Definition at_least (pre t : list Z) (n lv : nat) (p : printbuffer) : Prop := exists junk, at_room pre (t ++ junk) n lv p.

Lemma at_room_least pre t n lv p : at_room pre t n lv p -> at_least pre t n lv p.
Proof. intros H. exists []. by rewrite app_nil_r. Qed.

Lemma at_least_wrote pre t n lv p : (length t + 1 <= n)%nat -> at_least pre (t ++ [0]) n lv p -> wrote pre t lv p.
Proof.
  intros Hn [junk [b []]]. exists b. rewrite !length_app in *. cbn [length] in *. split; [done|]. split; [lia|]. split; [|split; [lia|done]].
  rewrite <- (Nat.min_l (length pre + length t + 1) (length pre + (length t + 1 + length junk))) by lia.
  rewrite <- take_take, h_text0, app_assoc. apply take_app_length'. rewrite !length_app. cbn [length]. lia.
Qed.

Lemma put_over_triple pre t n lv N k t' x j :
  x = t' ++ j -> k = length t -> (k + length x <= n + 1)%nat ->
  triple true N (at_least pre t n lv) (put k x) (at_least pre (t ++ t') n lv).
Proof.
  intros -> -> Hn p [junk Hp]. destruct (put_triple pre (t ++ junk) n lv N (length t) (t' ++ j)) with (p := p) as (r & p' & E & Hr);
    [rewrite length_app; lia|done|done|]. rewrite take_app_length in Hr. exists r, p'. split; [done|].
  destruct r; [|done]. destruct Hr as [Hr Hl]. split; [|done]. exists j. by rewrite <- app_assoc.
Qed.

Lemma put_escaped_triple pre lv n N l : forall t k,
  k = length t -> (k + length (concat (map escaped_char l)) <= n)%nat ->
  triple true N (at_least pre t n lv) (put_escaped k l) (at_least pre (t ++ concat (map escaped_char l)) n lv).
Proof.
  induction l as [|c l IH]; intros t k -> Hn; cbn [map concat put_escaped].
  { rewrite app_nil_r. apply triple_ret. }
  cbn [map concat] in Hn. rewrite length_app in Hn.
  assert (Hnext : forall t' k', k' = length (t ++ t') -> t' = escaped_char c ->
            triple true N (at_least pre (t ++ t') n lv) (put_escaped k' l)
              (at_least pre (t ++ escaped_char c ++ concat (map escaped_char l)) n lv)).
  { intros t' k' -> ->. rewrite app_assoc. apply IH; [done|]. rewrite length_app. lia. }
  unfold escaped_char in *.
  destruct (escaped_char_cases c) as [(e & He & Hp & _)|[He [(Hc & Hp & _)|(Hc & _ & _ & Hp & _)]]]; rewrite Hp, ?He in *;
    cbn [length] in Hn.
  - eapply triple_seq; [apply (put_over_triple _ _ _ _ _ _ [backslash] _ []); [done|done|cbn; lia]|].
    eapply triple_seq; [apply (put_over_triple _ _ _ _ _ _ [e] _ []); [done|by rewrite length_app|cbn; lia]|].
    rewrite <- app_assoc. apply Hnext; [rewrite length_app; cbn; lia|done].
  - eapply triple_seq; [apply (put_over_triple _ _ _ _ _ _ [backslash] _ []); [done|done|cbn; lia]|].
    eapply triple_seq; [apply (put_over_triple _ _ _ _ _ _ (u04x c) _ [0]); [done|by rewrite length_app|cbn in *; lia]|].
    rewrite <- app_assoc. apply Hnext; [rewrite length_app; cbn; lia|done].
  - eapply triple_seq; [apply (put_over_triple _ _ _ _ _ _ [c] _ []); [done|done|cbn; lia]|].
    apply Hnext; [rewrite length_app; cbn; lia|done].
Qed.

Lemma no_escapes l : list_sum (map escape_characters l) = O -> concat (map escaped_char l) = l.
Proof.
  unfold list_sum. induction l as [|c l IH]; cbn -[escaped_char escape_characters]; [done|]. intros H. rewrite IH by lia.
  unfold escaped_char. destruct (escaped_char_cases c) as [(e & _ & _ & E & _)|[_ [(_ & _ & E)|(_ & _ & _ & -> & _)]]]; [lia..|done].
Qed.

Lemma c_str_nonzero l : Forall (fun c => c <> 0) (c_str l).
Proof. induction l as [|c l IH]; cbn; [done|]. destruct (Z.eqb_spec c 0); by constructor. Qed.

Lemma hex_letter_nonzero v : 0 <= v -> hex_letter v <> 0.
Proof. unfold hex_letter. destruct (v <? 10); lia. Qed.

Lemma string_out_nonzero s : Forall (fun c => c <> 0) (string_out s).
Proof.
  unfold string_out. constructor; [done|]. apply Forall_app. split; [|by repeat constructor].
  apply Forall_concat, Forall_map. eapply Forall_impl; [apply c_str_nonzero|]. intros c Hc. unfold escaped_char.
  destruct (escaped_char_cases c) as [(e & -> & -> & _ & Hs)|[-> [(_ & -> & _)|(_ & _ & _ & -> & _)]]].
  - repeat constructor; [done|]. intros ->. by vm_compute in Hs.
  - unfold u04x. repeat constructor; try done; apply hex_letter_nonzero, Z.mod_pos_bound; lia.
  - by constructor.
Qed.

Lemma string_triple pre lv N s :
  (length pre + length (string_out s) + 2 <= N)%nat ->
  triple true N (at_point pre lv) (print_string_ptr grant fresh reallocate noalloc (Some s)) (wrote pre (string_out s) lv).
Proof.
  intros HN. unfold print_string_ptr. pose proof (escaped_length (c_str s)) as Hl.
  assert (Hout : length (string_out s) = (length (c_str s) + list_sum (map escape_characters (c_str s)) + 2)%nat)
    by (unfold string_out; rewrite !length_app, Hl; cbn [length]; lia).
  eapply triple_seq; [apply ensure_triple; lia|].
  set (n := (length (c_str s) + list_sum (map escape_characters (c_str s)) + 3)%nat).
  assert (Hlast : triple true N (at_least pre ([quote] ++ concat (map escaped_char (c_str s))) n lv)
                    (put (length (c_str s) + list_sum (map escape_characters (c_str s)) + 1) [quote; 0])
                    (wrote pre (string_out s) lv)).
  { eapply triple_weaken; [done|intros p Hp; exact Hp|exact (fun p => at_least_wrote pre (string_out s) n lv p ltac:(lia))|].
    replace (string_out s ++ [0]) with (([quote] ++ concat (map escaped_char (c_str s))) ++ [quote; 0])
      by (unfold string_out; by rewrite <- !app_assoc). eapply put_over_triple with (j := []); [done| |cbn [length]; lia].
    rewrite length_app, Hl. cbn [length]. lia. }
  assert (Hfirst : triple true N (at_room pre [] n lv) (put 0 [quote]) (at_least pre [quote] n lv)).
  { eapply triple_weaken; [done|apply at_room_least|intros p Hp; exact Hp|].
    apply (put_over_triple pre [] n lv N 0 [quote] _ []); [done|done|cbn; lia]. }
  destruct (Nat.eqb_spec (list_sum (map escape_characters (c_str s))) 0) as [E0|_].
  - rewrite (no_escapes _ E0) in *. eapply triple_seq; [exact Hfirst|]. eapply triple_seq; [|exact Hlast].
    apply (put_over_triple _ _ _ _ _ _ (c_str s) _ []); [by rewrite app_nil_r|done|lia].
  - eapply triple_seq; [exact Hfirst|]. eapply triple_seq; [|exact Hlast]. apply put_escaped_triple; [done|lia].
Qed.

(** ** Items *)

Lemma triple_ok ok N A m B : triple true N A m B -> triple ok N A m B.
Proof. by apply triple_weaken. Qed.

Lemma deeper_triple pre lv N : triple true N (at_point pre lv) deeper (at_point pre (S lv)).
Proof.
  intros p Hp. eexists _, _. split; [reflexivity|]. split; [|done].
  destruct Hp as [[b []]|(Hb & Ho & Ht & Hd & Hh & Hr)].
  - left. exists b. split; cbn; try done. by rewrite h_depth0.
  - right. cbn. rewrite Hd. by split_and!.
Qed.

Lemma shallower_triple pre t lv N : triple true N (wrote pre t (S lv)) shallower (wrote pre t lv).
Proof.
  intros p (b & ? & ? & ? & ? & Hd & ?). eexists _, _. split; [reflexivity|]. split; [|done]. exists b. cbn. rewrite Hd. split_and!; try done; lia.
Qed.

Lemma print_dec_nonzero n : 0 <= n -> Forall (fun c => c <> 0) (print_dec n).
Proof.
  intros Hn. unfold print_dec. apply Forall_rev. generalize 20%nat. intros f. revert n Hn.
  induction f as [|f IH]; intros n Hn; cbn; [done|]. pose proof (Z.mod_pos_bound n 10 ltac:(lia)).
  constructor; [lia|]. destruct (n <? 10); [done|]. apply IH. apply Z.div_pos; lia.
Qed.

Lemma number_text_nonzero d i : Forall (fun c => c <> 0) (number_text fmt_g scan_lg d i).
Proof.
  unfold number_text, lld. destruct (is_nan_or_inf d); [by repeat constructor|]. destruct (lm_doubles_equal _ _ _).
  - destruct (Z.ltb_spec i 0); [constructor; [done|]|]; apply print_dec_nonzero; lia.
  - cbv zeta. repeat case_match; by apply fmt_g_nonzero.
Qed.

Lemma replicate_nonzero n c : c <> 0 -> Forall (fun c => c <> 0) (replicate n c).
Proof. intros Hc. by apply Forall_replicate. Qed.

Lemma render_nonzero j : forall lv, Forall (fun c => c <> 0) (render format fmt_g scan_lg lv j).
Proof.
  induction j as [| |b|d i|s|items IH|members IH] using json_nested_ind; intros lv; cbn [render].
  - done.
  - by repeat constructor.
  - destruct b; by repeat constructor.
  - apply number_text_nonzero.
  - apply string_out_nonzero.
  - constructor; [done|]. apply Forall_app. split; [|by repeat constructor].
    induction IH as [|i items Hi _ IHi]; cbn [render_elements]; [done|]. apply Forall_app. split; [apply Hi|].
    apply Forall_app. split; [|done]. destruct items, format; by repeat constructor.
  - constructor; [done|]. apply Forall_app. split; [destruct format; by repeat constructor|]. apply Forall_app. split.
    + induction IH as [|[k i] members Hi _ IHi]; cbn [render_members]; [done|]. rewrite !Forall_app.
      split_and!; first [exact IHi|apply Hi|apply string_out_nonzero|destruct format, members; by repeat constructor|idtac].
      destruct format; [by apply replicate_nonzero|done].
    + apply Forall_app. split; [destruct format; [by apply replicate_nonzero|done]|by repeat constructor].
Qed.

#[local] Abbreviation render := (render format fmt_g scan_lg).
#[local] Abbreviation string_ptr := (print_string_ptr grant fresh reallocate noalloc).

(** What [print_value] does to an item. *)
Definition prints (j : json) : Prop := forall pre lv N,
  (length pre + length (render lv j) + 2 <= N)%nat ->
  triple (valid j) N (at_point pre lv) (print_value j) (fun p => wrote pre (render lv j) lv p /\ valid j = true).

(** A child, with the offset behind it. *)
Lemma child_triple j pre lv N ok k B :
  prints j -> (length pre + length (render lv j) + 2 <= N)%nat -> (valid j = false -> ok = false) ->
  (valid j = true -> triple ok N (at_point (pre ++ render lv j) lv) k B) ->
  triple ok N (at_point pre lv) (print_value j;; update_offset;; k) B.
Proof.
  intros Hj HN Hok Hk. eapply triple_seq.
  { eapply triple_weaken; [exact Hok|intros p Hp; exact Hp|intros p Hp; exact Hp|by apply Hj]. }
  apply triple_pure. intros Hv. eapply triple_seq; [apply triple_ok, update_triple, render_nonzero|by apply Hk].
Qed.

Lemma name_triple name pre lv N ok k B :
  (length pre + length (string_out name) + 2 <= N)%nat ->
  triple ok N (at_point (pre ++ string_out name) lv) k B ->
  triple ok N (at_point pre lv) (string_ptr (Some name);; update_offset;; k) B.
Proof.
  intros HN Hk. eapply triple_seq; [by apply triple_ok, string_triple|].
  eapply triple_seq; [apply triple_ok, update_triple, string_out_nonzero|done].
Qed.

Lemma elements_triple items lv N : Forall prints items -> forall pre,
  (length pre + length (render_elements format (render lv) items) + 2 <= N)%nat ->
  triple (forallb valid items) N (at_point pre lv)
    (print_elements grant fresh reallocate noalloc format print_value items)
    (fun p => at_point (pre ++ render_elements format (render lv) items) lv p /\ forallb valid items = true).
Proof.
  induction 1 as [|i items Hi _ IH]; intros pre HN; cbn [print_elements render_elements forallb].
  { rewrite app_nil_r. eapply triple_weaken; [done|intros p Hp; exact Hp| |apply triple_ret]. by intros p Hp. }
  cbn [render_elements] in HN. rewrite !length_app in HN. apply child_triple; [done|lia|by intros ->|]. intros Hv. rewrite Hv. cbn [andb].
  rewrite !app_assoc. destruct items as [|i' items].
  - rewrite app_nil_r. eapply triple_seq; [apply triple_ret|]. apply IH. rewrite length_app. lia.
  - eapply triple_seq; [|apply IH; rewrite !length_app in *; lia].
    apply triple_ok. destruct format; cbn [app length] in *.
    + apply (append_triple _ _ _ _ [44; 32] [0]); rewrite ?length_app; cbn [app length]; lia.
    + apply (append_triple _ _ _ _ [44] [0]); rewrite ?length_app; cbn [app length]; lia.
Qed.

Lemma indent_triple pre lv N :
  (length pre + lv + 1 <= N)%nat ->
  triple true N (at_point pre lv) (indent grant fresh reallocate noalloc) (at_point (pre ++ replicate lv 9) lv).
Proof.
  intros HN. unfold indent. apply (triple_depth _ _ _ lv (fun d => ensure d;; put 0 (replicate d 9);; advance d)).
  - by intros p [[b []]|(_ & _ & _ & <- & _)].
  - pose proof (append_triple pre lv lv N (replicate lv 9) []) as H. rewrite app_nil_r, length_replicate in H. apply H; lia.
Qed.

Lemma members_triple members lv N : Forall (fun m => prints (snd m)) members -> forall pre,
  (length pre + length (render_members format (render lv) lv members) + 2 <= N)%nat ->
  triple (forallb (fun '(_, i) => valid i) members) N (at_point pre lv)
    (print_members grant fresh reallocate noalloc format print_value members)
    (fun p => at_point (pre ++ render_members format (render lv) lv members) lv p /\
              forallb (fun '(_, i) => valid i) members = true).
Proof.
  induction 1 as [|[name i] members Hi _ IH]; intros pre HN; cbn [print_members render_members forallb].
  { rewrite app_nil_r. eapply triple_weaken; [done|intros p Hp; exact Hp| |apply triple_ret]. by intros p Hp. }
  cbn [render_members] in HN. rewrite !length_app in HN. cbn [length snd] in *.
  eapply triple_seq with (B := at_point (pre ++ if format then replicate lv 9 else []) lv).
  { apply triple_ok. destruct format; [apply indent_triple; rewrite length_replicate in HN; lia|rewrite app_nil_r; apply triple_ret]. }
  apply name_triple; [rewrite length_app; lia|].
  set (pre1 := (pre ++ if format then replicate lv 9 else []) ++ string_out name) in *.
  assert (Hpre1 : (length pre1 = length pre + length (if format then replicate lv 9%Z else []) + length (string_out name))%nat)
    by (unfold pre1; rewrite !length_app; lia).
  eapply triple_seq with (B := at_point (pre1 ++ [58] ++ if format then [9] else []) lv).
  { apply triple_ok. destruct format; cbn [app length] in *.
    - apply (append_triple _ _ _ _ [58; 9] []); cbn [app length]; lia.
    - apply (append_triple _ _ _ _ [58] []); cbn [app length]; lia. }
  set (pre2 := pre1 ++ [58] ++ if format then [9] else []) in *.
  assert (Hpre2 : (length pre2 = length pre1 + 1 + length (if format then [9%Z] else []))%nat)
    by (unfold pre2; rewrite !length_app; cbn [length]; lia).
  apply child_triple; [done|lia|by intros ->|]. intros Hv. rewrite Hv. cbn [andb].
  set (pre3 := pre2 ++ render lv i) in *.
  assert (Hpre3 : (length pre3 = length pre2 + length (render lv i))%nat) by (unfold pre3; by rewrite length_app).
  set (comma := match members with [] => [] | _ :: _ => [44] end) in *. set (newline := if format then [10] else []) in *.
  eapply triple_seq with (B := at_point (pre3 ++ comma ++ newline) lv).
  { apply triple_ok, append_triple; rewrite ?length_app; cbn [length]; lia. }
  eapply triple_weaken; [done|intros p Hp; exact Hp| |apply IH; rewrite !length_app; lia].
  intros p [Hp Hm]. split; [|done]. unfold pre3, pre2, pre1 in Hp. rewrite <- !app_assoc in *. exact Hp.
Qed.

Lemma close_triple pre lv N :
  (length pre + length (if format then replicate lv 9%Z else []) + 3 <= N)%nat ->
  triple true N (at_point pre (S lv)) (close_object grant fresh reallocate noalloc format)
    (wrote pre ((if format then replicate lv 9 else []) ++ [125]) (S lv)).
Proof.
  intros HN. unfold close_object.
  apply (triple_depth _ _ _ (S lv) (fun d => ensure (if format then d + 1 else 2)%nat;;
           put 0 ((if format then replicate (d - 1) 9 else []) ++ [125; 0]))).
  { by intros p [[b []]|(_ & _ & _ & <- & _)]. }
  replace ((if format then replicate (S lv - 1) 9 else []) ++ [125; 0])
    with (((if format then replicate lv 9 else []) ++ [125]) ++ [0])
    by (rewrite <- app_assoc; by rewrite Nat.sub_1_r).
  destruct format; apply text_triple; rewrite ?length_app, ?length_replicate in *; cbn [length] in *; lia.
Qed.

Lemma wrote_more pre t t' lv p : wrote (pre ++ t) t' lv p -> wrote pre (t ++ t') lv p.
Proof.
  intros (b & Hb & [Ho1 Ho2] & Ht & H). exists b. rewrite (app_assoc pre t t').
  replace (pre ++ (t ++ t') ++ [0]) with ((pre ++ t) ++ t' ++ [0]) by (by rewrite <- !app_assoc).
  rewrite length_app in Ho1. split; [done|]. split; [lia|done].
Qed.

Lemma deeper_room pre t n lv N : triple true N (at_room pre t n lv) deeper (at_room pre t n (S lv)).
Proof.
  intros p [b []]. eexists _, _. split; [reflexivity|]. split; [|done]. exists b. split; cbn; try done. by rewrite h_depth0.
Qed.

Lemma open_object_triple pre lv N :
  (length pre + length (if format then [10%Z] else []) + 3 <= N)%nat ->
  triple true N (at_point pre lv)
    (ensure ((if format then 2 else 1) + 1)%nat;;
     put 0 [123];; deeper;; (if format then put 1 [10] else mret tt);; advance (if format then 2 else 1)%nat)
    (at_point (pre ++ [123] ++ if format then [10] else []) (S lv)).
Proof.
  intros HN. eapply triple_seq; [apply ensure_triple; destruct format; cbn [length] in *; lia|].
  eapply triple_seq; [apply put_triple; cbn [length]; lia|]. eapply triple_seq; [apply deeper_room|].
  rewrite take_0, app_nil_l. destruct format.
  - eapply triple_seq; [apply put_triple; cbn [length]; lia|]. apply (advance_triple pre [123; 10]); cbn [length]; lia.
  - eapply triple_seq; [apply triple_ret|]. apply (advance_triple pre [123]); cbn [length]; lia.
Qed.

Lemma value_triple j : prints j.
Proof.
  induction j as [| |b|d i|s|items IH|members IH] using json_nested_ind; intros pre lv N HN; cbn [print_value valid] in *.
  - intros p Hp. exists None, p. split; [done|]. split; [|done]. unfold failed.
    destruct Hp as [[b []]|(-> & _ & _ & _ & H & _)]; [by rewrite h_buffer0|done].
  - eapply triple_weaken; [done|intros p Hp; exact Hp| |by apply literal_triple]. by intros p Hp.
  - destruct b; (eapply triple_weaken; [done|intros p Hp; exact Hp| |by apply literal_triple]; by intros p Hp).
  - eapply triple_weaken; [done|intros p Hp; exact Hp| |by apply number_triple]. by intros p Hp.
  - eapply triple_weaken; [done|intros p Hp; exact Hp| |by apply string_triple]. by intros p Hp.
  - cbn [JsonPrint.render] in *. rewrite !length_app in HN. cbn [length] in HN.
    eapply triple_seq; [apply triple_ok, ensure_triple; lia|].
    eapply triple_seq; [apply triple_ok, put_triple; cbn [length]; lia|].
    eapply triple_seq; [apply triple_ok, (advance_triple pre [91]); cbn [length]; lia|].
    eapply triple_seq; [apply triple_ok, deeper_triple|].
    eapply triple_seq; [apply elements_triple; [done|rewrite length_app; cbn [take length]; lia]|].
    apply triple_pure. intros Hv. rewrite Hv, (app_assoc [91]).
    eapply triple_weaken; [done|intros p Hp; exact Hp|intros p Hp; split; [apply wrote_more, Hp|done]|].
    rewrite <- app_assoc. apply triple_ok, triple_assoc.
    eapply triple_seq; [apply (text_triple _ _ _ _ [93]); rewrite ?length_app; cbn [take length]; lia|apply shallower_triple].
  - cbn [JsonPrint.render] in *. rewrite !length_app in HN. cbn [length] in HN.
    eapply triple_seq; [apply triple_ok, open_object_triple; lia|].
    eapply triple_seq; [apply members_triple; [done|rewrite !length_app; cbn [length]; lia]|].
    apply triple_pure. intros Hv. rewrite Hv, (app_assoc [123]), (app_assoc (_ ++ _)).
    eapply triple_weaken; [done|intros p Hp; exact Hp|intros p Hp; split; [apply wrote_more, Hp|done]|].
    rewrite <- !app_assoc. apply triple_ok.
    eapply triple_seq; [apply close_triple; rewrite !length_app; cbn [length]; lia|apply shallower_triple].
Qed.
End Correct.

(** ** What the functions return *)

Lemma P_bind_eq (m k : P unit) p r p' :
  m p = Some (r, p') -> (m;; k) p = match r with Some _ => k p' | None => Some (None, p') end.
Proof. unfold mbind, P_bind. by intros ->. Qed.

Section Printed.
Context (grant : nat -> bool) (fresh : nat -> nat -> Z) (reallocate : bool).
Context (fmt_g : Z -> double -> list Z) (scan_lg : list Z -> option double).
Context (Hfmt : fmt_g_ok fmt_g).

(** A printed item, with the block [b] of the text. *)
Lemma print_item_spec noalloc format item p b base :
  buffer p = Some b -> offset p = O -> depth p = O -> held p = base + 1 ->
  (0 < length b)%nat \/ reallocate || noalloc = true ->
  exists r p', print_item grant fresh reallocate noalloc format fmt_g scan_lg item p = Some (r, p') /\
    match r with
    | Some _ => exists j, item = Some j /\ valid j = true /\ wrote base [] (render format fmt_g scan_lg 0 j) 0 p'
    | None => failed base p' /\ forall j, item = Some j -> valid j = true ->
                ~ enough grant noalloc (length (render format fmt_g scan_lg 0 j) + 2) p
    end.
Proof.
  intros Hb Ho Hd Hh Hlen. destruct item as [j|]; cbn [print_item].
  2: { exists None, p. split; [done|]. split; [unfold failed; by rewrite Hb|done]. }
  destruct (value_triple grant fresh reallocate noalloc format fmt_g scan_lg Hfmt base j [] 0%nat
              (length (render format fmt_g scan_lg 0 j) + 2)%nat (le_n _) p) as (r & p' & E & Hr).
  { destruct b as [|c b].
    - right. split_and!; try done. by destruct Hlen as [Hlen|]; [cbn in Hlen; lia|].
    - left. exists (c :: b). split; cbn; try done. lia. }
  exists r, p'. split; [done|]. destruct r as [[]|].
  - destruct Hr as [[Hw Hv] _]. by exists j.
  - destruct Hr as [Hf He]. split; [done|]. intros j' [= <-] Hv H. specialize (He H). congruence.
Qed.

(** The block after [strlen] was taken: the text is at its start. *)
Lemma wrote_text base t p : wrote base [] t 0 p -> exists b, buffer p = Some b /\ held p = base + 1 /\
  take (length t + 1) b = t ++ [0] /\ (length t + 2 <= length b)%nat.
Proof.
  intros (b & Hb & _ & Ht & Hl & _ & Hh). by exists b.
Qed.

(** The results of a function that prints. *)
Definition print_result (format : bool) (item : option json) (held_ : Z) (r : printed) (exact : list Z -> list Z -> Prop) : Prop :=
  match result r with
  | Some b => held_after r = held_ + 1 /\
      exists j, item = Some j /\ valid j = true /\ exact b (render format fmt_g scan_lg 0 j ++ [0])
  | None => held_after r = held_ /\
      forall j, item = Some j -> valid j = true -> len (render format fmt_g scan_lg 0 j) + 2 <= INT_MAX ->
                ~ forall n, grant n = true
  end.

Lemma print_failed_held p base : failed base p -> held_after (print_failed p) = base.
Proof. unfold failed, print_failed. cbn. destruct (buffer p); lia. Qed.

(** After the last [update_offset] the offset is that of the NUL. *)
Lemma update_exact base t p :
  Forall (fun c => c <> 0) t -> wrote base [] t 0 p ->
  exists b, update_offset p = Some (Some tt, mkPrint (Some b) (length t) (depth p) (calls p) (held p)) /\
    held p = base + 1 /\ take (length t + 1) b = t ++ [0] /\ (length t + 1 <= length b)%nat.
Proof.
  intros Ht Hw. destruct (wrote_text _ _ _ Hw) as (b & Hb & Hh & Htake & Hl). exists b. split; [|by split_and!; try lia].
  destruct Hw as (b' & Hb' & [_ Ho] & _). assert (b' = b) as -> by congruence. cbn [app length] in *.
  unfold update_offset. rewrite Hb. rewrite <- (take_drop (length t + 1) b) at 1. rewrite Htake.
  rewrite drop_app_le by (rewrite length_app; cbn [length]; lia). rewrite drop_app_le by lia.
  rewrite <- app_assoc. cbn [app]. rewrite strlen_app by by apply Forall_drop. cbn [mbind option_bind]. unfold advance.
  rewrite length_drop, Hb. do 4 f_equal. lia.
Qed.

Lemma print_returns item format calls_ held_ :
  exists r, print grant fresh reallocate fmt_g scan_lg item format calls_ held_ = Some r /\
            print_result format item held_ r eq.
Proof.
  unfold print. destruct (grant calls_) eqn:Hg; cbn [negb].
  2: { eexists. split; [reflexivity|]. cbn. split; [done|]. intros j _ _ _ Hall. by rewrite Hall in Hg. }
  set (p := mkPrint _ _ _ _ _).
  destruct (print_item_spec false format item p (fresh_bytes fresh calls_ 0 256) held_) as (r & p1 & E & Hr);
    [done..|left; rewrite fresh_bytes_length; lia|].
  rewrite (P_bind_eq _ _ _ _ _ E). destruct r as [[]|].
  2: { cbn [mbind option_bind]. eexists. split; [reflexivity|]. destruct Hr as [Hf He].
       split; [exact (print_failed_held _ _ Hf)|].
       intros j Hj Hv Hl Hall. apply (He j Hj Hv). split; [unfold len in Hl; lia|by right]. }
  destruct Hr as (j & Hj & Hv & Hw).
  destruct (update_exact _ _ _ (render_nonzero format fmt_g scan_lg Hfmt j 0) Hw) as (b & -> & Hh & Ht & Hl).
  cbn [mbind option_bind buffer offset calls held]. set (t := render format fmt_g scan_lg 0 j) in *.
  assert (Hno : forall h, grant (calls p1) = false -> h = held_ ->
            print_result format item held_ (mkPrinted None (S (calls p1)) h) eq).
  { intros h Hgr ->. split; [done|]. intros j' _ _ _ Hall. by rewrite Hall in Hgr. }
  assert (Hyes : forall x h, x = t ++ [0] -> h = held_ + 1 ->
            print_result format item held_ (mkPrinted (Some x) (S (calls p1)) h) eq).
  { intros x h -> ->. split; [done|]. by exists j. }
  destruct reallocate; destruct (grant (calls p1)) eqn:Hg1; eexists; (split; [reflexivity|]).
  - apply Hyes; [|done]. rewrite Ht. replace (length t + 1 - length b)%nat with 0%nat by lia. by rewrite app_nil_r.
  - apply Hno; [done|cbn; lia].
  - apply Hyes; [|lia]. rewrite Nat.min_r by lia. rewrite Ht, Nat.sub_diag, app_nil_r.
    rewrite insert_app_r_alt by lia. by rewrite Nat.sub_diag.
  - apply Hno; [done|cbn; lia].
Qed.

(** The text with its NUL at the start of a block. *)
Definition starts_with (b t : list Z) : Prop := take (length t) b = t.

Lemma PrintBuffered_returns item prebuffer fmt calls_ held_ :
  0 < prebuffer \/ reallocate = true ->
  exists r, cJSON_PrintBuffered grant fresh reallocate fmt_g scan_lg item prebuffer fmt calls_ held_ = Some r /\
            (0 <= prebuffer -> print_result fmt item held_ r starts_with).
Proof.
  intros Hpre. unfold cJSON_PrintBuffered. destruct (Z.ltb_spec prebuffer 0); [eexists; split; [reflexivity|lia]|].
  destruct (grant calls_) eqn:Hg; cbn [negb].
  2: { eexists. split; [reflexivity|]. intros _. cbn. split; [done|]. intros j _ _ _ Hall. by rewrite Hall in Hg. }
  set (p := mkPrint _ _ _ _ _).
  destruct (print_item_spec false fmt item p (fresh_bytes fresh calls_ 0 (Z.to_nat prebuffer)) held_) as (r & p1 & E & Hr);
    [done..| |].
  { rewrite fresh_bytes_length. destruct Hpre as [?| ->]; [left; lia|by right]. }
  rewrite E. cbn [mbind option_bind]. destruct r as [[]|].
  - destruct Hr as (j & Hj & Hv & Hw). destruct (wrote_text _ _ _ Hw) as (b & Hb & Hh & Ht & Hl).
    eexists. split; [reflexivity|]. intros _. unfold print_result. cbn [result held_after]. rewrite Hb. split; [done|].
    exists j. split_and!; try done. unfold starts_with. rewrite length_app. exact Ht.
  - eexists. split; [reflexivity|]. intros _. destruct Hr as [Hf He]. split; [exact (print_failed_held _ _ Hf)|].
    intros j Hj Hv Hl Hall. apply (He j Hj Hv). split; [unfold len in Hl; lia|by right].
Qed.
End Printed.

(** ** The text is in the language of the parser *)

(** A predicate on every element, by recursion. *)
Fixpoint all_of {A} (f : A -> Prop) (l : list A) : Prop :=
  match l with
  | [] => True
  | x :: l => f x /\ all_of f l
  end.

Section Back.
Context (strtod : list Z -> spec_float * nat).
Context (fmt_g : Z -> double -> list Z) (scan_lg : list Z -> option double).
Context (Hfmt : fmt_g_ok fmt_g).

(** The text of the number is one, and [strtod] reads the number from it. *)
Definition number_back (d : double) (i : Z) : Prop :=
  let t := number_text fmt_g scan_lg d i in
  Forall (fun c => is_number_char c = true) t /\ (exists c t', t = c :: t' /\ (c = 45 \/ 48 <= c <= 57)) /\
  strtod t = (d, length t) /\ saturated d = Some i.

(** The bytes of a C string. *)
Definition text_bytes (s : list Z) : Prop := Forall (fun c => 0 < c < 256) s.

(** What the text of an item can say: no item without a type, no NUL in a string,
    and numbers that are read back. *)
Fixpoint reads_back (j : json) : Prop :=
  match j with
  | JInvalid => False
  | JNumber d i => number_back d i
  | JString s => text_bytes s
  | JArray items => all_of reads_back items
  | JObject members => all_of (fun '(name, i) => text_bytes name /\ reads_back i) members
  | _ => True
  end.

Lemma text_c_str s : text_bytes s -> c_str s = s.
Proof. intros H. apply c_str_id. eapply Forall_impl; [exact H|]. cbn. lia. Qed.

Lemma hex_digit_letter v : 0 <= v < 16 -> hex_digit (hex_letter v) = Some v.
Proof.
  intros Hv. unfold hex_letter.
  assert (E : forallb (fun v => bool_decide (hex_digit (if v <? 10 then 48 + v else 87 + v) = Some v)) (map Z.of_nat (seq 0 16)) = true)
    by (vm_compute; reflexivity).
  rewrite forallb_forall in E. specialize (E v). apply bool_decide_eq_true in E; [exact E|].
  apply in_map_iff. exists (Z.to_nat v). split; [lia|]. apply in_seq. lia.
Qed.

Lemma hex4_u04x c : 0 <= c < 65536 -> exists x, u04x c = 117 :: x /\ hex4 x c.
Proof.
  intros Hc. unfold u04x. eexists. split; [reflexivity|].
  exists (hex_letter (c / 4096 mod 16)), (hex_letter (c / 256 mod 16)), (hex_letter (c / 16 mod 16)), (hex_letter (c mod 16)).
  exists (c / 4096 mod 16), (c / 256 mod 16), (c / 16 mod 16), (c mod 16).
  rewrite !hex_digit_letter by (apply Z.mod_pos_bound; lia). split_and!; try done. Z.div_mod_to_equations; lia.
Qed.

Lemma string_text_escaped s : text_bytes s -> string_text (concat (map escaped_char s)) s.
Proof.
  induction 1 as [|c s Hc _ IH]; cbn [map concat]; [constructor|]. unfold escaped_char at 1.
  destruct (escaped_char_cases c) as [(e & -> & -> & _ & Hs)|[-> [(Hlt & -> & _)|(_ & Hq & Hb & -> & _)]]].
  - by apply St_escape.
  - destruct (hex4_u04x c ltac:(lia)) as (x & -> & Hx).
    assert (E : utf8 c = [c]) by (unfold utf8; by rewrite (proj2 (Z.ltb_lt _ _)) by lia).
    pose proof (St_unicode x c _ _ Hx ltac:(lia) IH) as H. rewrite E in H. exact H.
  - by apply St_plain.
Qed.

Lemma string_out_text s : text_bytes s ->
  exists t, string_text t s /\ string_out s = [quote] ++ t ++ [quote].
Proof. intros H. eexists. split; [by apply string_text_escaped|]. unfold string_out. by rewrite text_c_str. Qed.

Lemma white_tabs n : white (replicate n 9).
Proof. unfold white. by apply Forall_replicate. Qed.

Section Format.
Context (format : bool).
#[local] Abbreviation render := (render format fmt_g scan_lg).

(** The text of an item is a value of its depth. *)
Definition in_language (j : json) : Prop := forall d lv,
  reads_back j -> (nesting j <= d)%nat -> value_text strtod d j (render lv j).

Lemma elements_language i items : Forall in_language (i :: items) -> forall d lv w,
  all_of reads_back (i :: items) -> (list_max (map nesting (i :: items)) <= d)%nat -> white w ->
  elements_text strtod d (i :: items) (w ++ render_elements format (render lv) (i :: items)).
Proof.
  revert i. induction items as [|i' items IH]; intros i Hl d lv w Hr Hd Hw; inversion Hl as [|?? Hi Hl']; subst; clear Hl;
    cbn [map all_of] in *; destruct Hr as [Hri Hr].
  - cbn [render_elements]. rewrite !app_nil_r. rewrite <- (app_nil_r (render lv i)).
    apply E_last; [done|apply Hi; [done|cbn in Hd; lia]|constructor].
  - assert (Hd' : (nesting i <= d)%nat /\ (list_max (map nesting (i' :: items)) <= d)%nat) by (cbn in *; lia).
    change (render_elements format (render lv) (i :: i' :: items))
      with (render lv i ++ ([44] ++ (if format then [32] else [])) ++ render_elements format (render lv) (i' :: items)).
    rewrite <- app_assoc. apply (E_next strtod d w i (render lv i) []); [done|apply Hi; [done|by destruct Hd']|constructor|].
    apply IH; [done|done|by destruct Hd'|destruct format; by repeat constructor].
Qed.

Lemma white_app w w' : white w -> white w' -> white (w ++ w').
Proof. intros H1 H2. by apply Forall_app. Qed.

Lemma white_if w : white w -> white (if format then w else []).
Proof. by destruct format; [|constructor]. Qed.

Lemma members_language name i members :
  in_language i -> Forall (fun m => in_language (snd m)) members -> forall d lv w w',
  text_bytes name /\ reads_back i -> all_of (fun '(name, i) => text_bytes name /\ reads_back i) members ->
  (nesting i <= d)%nat -> (list_max (map (fun '(_, i) => nesting i) members) <= d)%nat -> white w -> white w' ->
  members_text strtod d ((name, i) :: members) (w ++ render_members format (render lv) lv ((name, i) :: members) ++ w').
Proof.
  revert name i. induction members as [|[name' i'] members IH]; intros name i Hi Hl d lv w w' [Hn Hri] Hr Hdi Hd Hw Hw';
    destruct (string_out_text name Hn) as (k & Hk & Ek).
  - replace (w ++ render_members format (render lv) lv [(name, i)] ++ w')
      with ((w ++ if format then replicate lv 9 else []) ++ ([quote] ++ k ++ [quote]) ++ [] ++ [58]
            ++ (if format then [9] else []) ++ render lv i ++ (if format then [10] else []) ++ w').
    2: { cbn [render_members]. rewrite Ek, <- !app_assoc. by rewrite !app_nil_l. }
    apply M_last; try done; try by constructor.
    + apply white_app; [done|]. apply white_if, white_tabs.
    + apply white_if. by repeat constructor.
    + by apply Hi.
    + apply white_app; [apply white_if; by repeat constructor|done].
  - inversion Hl as [|?? Hi' Hl']; subst. cbn [map all_of] in *. destruct Hr as [Hr' Hr].
    assert (Hd' : (nesting i' <= d)%nat /\ (list_max (map (fun '(_, i) => nesting i) members) <= d)%nat) by (unfold list_max in *; cbn in *; lia).
    replace (w ++ render_members format (render lv) lv ((name, i) :: (name', i') :: members) ++ w')
      with ((w ++ if format then replicate lv 9 else []) ++ ([quote] ++ k ++ [quote]) ++ [] ++ [58]
            ++ (if format then [9] else []) ++ render lv i ++ [] ++ [44]
            ++ ((if format then [10] else []) ++ render_members format (render lv) lv ((name', i') :: members) ++ w')).
    2: { change (render_members format (render lv) lv ((name, i) :: (name', i') :: members))
           with ((if format then replicate lv 9 else []) ++ string_out name ++ [58] ++ (if format then [9] else [])
                 ++ render lv i ++ [44] ++ (if format then [10] else []) ++ render_members format (render lv) lv ((name', i') :: members)).
         rewrite Ek, <- !app_assoc. by rewrite !app_nil_l. }
    apply M_next; try done; try by constructor.
    + apply white_app; [done|]. apply white_if, white_tabs.
    + apply white_if. by repeat constructor.
    + by apply Hi.
    + destruct Hd'. apply IH; try done. apply white_if. by repeat constructor.
Qed.

Lemma render_language j : in_language j.
Proof.
  induction j as [| |b|n i|s|items IH|members IH] using json_nested_ind; intros d lv Hr Hd; cbn [JsonPrint.render].
  - done.
  - constructor.
  - destruct b; constructor.
  - destruct Hr as (Hc & Hs & Ht & Hi). apply T_number; try done.
    pose proof (number_text_length fmt_g scan_lg Hfmt n i). lia.
  - destruct (string_out_text s Hr) as (t & Ht & ->). by apply T_string.
  - cbn [nesting] in Hd. destruct d as [|d]; [lia|]. destruct items as [|i items].
    + apply (T_empty_array strtod d []). constructor.
    + apply T_array. apply (elements_language i items IH d (S lv) []); [exact Hr|lia|constructor].
  - cbn [nesting] in Hd. destruct d as [|d]; [lia|]. destruct members as [|[name i] members].
    + assert (Hw : white ((if format then [10] else []) ++ (if format then replicate lv 9 else [])))
        by (apply white_app; apply white_if; [by repeat constructor|apply white_tabs]).
      pose proof (T_empty_object strtod d _ Hw) as H. rewrite <- app_assoc in H. exact H.
    + inversion IH as [|?? Hi Hl]; subst. destruct Hr as [Hr1 Hr2]. unfold list_max in Hd. cbn in Hd.
      pose proof (members_language name i members Hi Hl d (S lv) (if format then [10] else [])
                    (if format then replicate lv 9 else []) Hr1 Hr2 ltac:(lia) ltac:(unfold list_max; lia)) as H.
      specialize (H ltac:(apply white_if; by repeat constructor) ltac:(apply white_if, white_tabs)).
      apply T_object in H. rewrite <- !app_assoc in H. exact H.
Qed.
End Format.
End Back.

Lemma c_str_nul t : Forall (fun c => c <> 0) t -> c_str (t ++ [0]) = t.
Proof. induction 1 as [|c t Hc _ IH]; cbn; [done|]. rewrite (proj2 (Z.eqb_neq _ _) Hc). by rewrite IH. Qed.

(** ** A block of the caller stays in place *)

Create HintDb keeps discriminated.

Section Keeps.
Context (grant : nat -> bool) (fresh : nat -> nat -> Z) (reallocate format : bool).
Context (fmt_g : Z -> double -> list Z) (scan_lg : list Z -> option double).

Definition keeps (m : P unit) : Prop := forall p r p', m p = Some (r, p') -> length <$> buffer p' = length <$> buffer p.

Lemma keeps_bind m k : keeps m -> keeps k -> keeps (m;; k).
Proof.
  intros Hm Hk p r p' E. unfold mbind, P_bind in E. destruct (m p) as [[[[]|] p1]|] eqn:E1; cbn in E; [|by simplify_eq; eauto|done].
  rewrite (Hk _ _ _ E). by eapply Hm.
Qed.

Lemma keeps_ret : keeps (mret tt).
Proof. by intros p r p' [= <- <-]. Qed.

Lemma keeps_advance n : keeps (advance n).
Proof. by intros p r p' [= <- <-]. Qed.

Lemma keeps_deeper : keeps deeper.
Proof. by intros p r p' [= <- <-]. Qed.

Lemma keeps_shallower : keeps shallower.
Proof. by intros p r p' [= <- <-]. Qed.

Lemma keeps_put k t : keeps (put k t).
Proof.
  intros p r p' E. unfold put in E. destruct (buffer p) as [b|] eqn:Hb; [|done]. cbn in E. destruct (Nat.leb_spec (offset p + k + length t) (length b)); [|done].
  injection E as <- <-. cbn. f_equal. rewrite !length_app, length_take, length_drop. lia.
Qed.

Lemma keeps_update : keeps update_offset.
Proof.
  intros p r p' E. unfold update_offset in E. destruct (buffer p) as [b|] eqn:Hb; [|by simplify_eq; rewrite Hb].
  destruct (strlen _) as [n|]; cbn in E; [|done]. injection E as <- <-. by rewrite <- Hb.
Qed.

Lemma keeps_ensure n : keeps (ensure grant fresh reallocate true n).
Proof.
  intros p r p' E. unfold ensure in E. destruct (buffer p) as [b|] eqn:Hb; [|by unfold fails in E; simplify_eq; rewrite Hb].
  repeat match type of E with (if ?c then _ else _) = _ => destruct c end; unfold fails in E; simplify_eq; by rewrite Hb.
Qed.

Lemma keeps_at (m : nat -> P unit) : (forall d, keeps (m d)) -> keeps (fun p => m (depth p) p).
Proof. intros H p. apply H. Qed.

#[local] Hint Resolve keeps_bind keeps_ret keeps_advance keeps_deeper keeps_shallower keeps_put keeps_update keeps_ensure : keeps.

Lemma keeps_escaped input : forall k, keeps (put_escaped k input).
Proof. induction input as [|c l IH]; intros k; cbn [put_escaped]; [auto with keeps|]. repeat case_match; auto with keeps. Qed.
#[local] Hint Resolve keeps_escaped : keeps.

Lemma keeps_string input : keeps (print_string_ptr grant fresh reallocate true input).
Proof. unfold print_string_ptr. destruct input; [|auto with keeps]. case_match; auto 6 with keeps. Qed.
#[local] Hint Resolve keeps_string : keeps.

Lemma keeps_value j : keeps (print_value grant fresh reallocate true format fmt_g scan_lg j).
Proof.
  induction j as [| |b|d i|s|items IH|members IH] using json_nested_ind; cbn [print_value]; unfold print_literal.
  - by intros p r p' [= <- <-].
  - auto with keeps.
  - destruct b; auto with keeps.
  - intros p r p' E. unfold print_number in E. destruct (_ <=? _)%nat; [done|].
    revert E. set (m := _;; _). assert (Hm : keeps m) by (unfold m; auto with keeps). apply Hm.
  - auto with keeps.
  - do 4 (apply keeps_bind; [auto with keeps|]). apply keeps_bind; [|auto with keeps].
    induction IH as [|i items Hi _ IHi]; cbn [print_elements]; [auto with keeps|].
    repeat (apply keeps_bind; [by auto with keeps|]). apply keeps_bind; [|done]. destruct items; auto with keeps.
  - apply keeps_bind; [destruct format; auto 8 with keeps|]. apply keeps_bind.
    + induction IH as [|[name i] members Hi _ IHi]; cbn [print_members]; [auto with keeps|].
      apply keeps_bind; [destruct format; [|auto with keeps]|auto 12 with keeps].
      apply (keeps_at (fun d => ensure grant fresh reallocate true d;; put 0 (replicate d 9);; advance d)). auto with keeps.
    + apply keeps_bind; [|auto with keeps].
      apply (keeps_at (fun d => ensure grant fresh reallocate true (if format then d + 1 else 2)%nat;;
               put 0 ((if format then replicate (d - 1) 9 else []) ++ [125; 0]))). auto with keeps.
Qed.
End Keeps.

(** ** Properties *)

(** C12: Printing gives the text of the item.  Whatever blocks the hooks hand out
    and whether they can enlarge one, [cJSON_Print] and [cJSON_PrintUnformatted]
    write nothing outside of their buffer.  They return the text of the item with
    its NUL, in a block of its own that is all they hold; or NULL, with every
    block given back, which happens only for an item without a type in it, when a
    hook fails, or when the text does not fit an [int]. *)
Theorem print_renders (grant : nat -> bool) (fresh : nat -> nat -> Z) (reallocate : bool)
    (fmt_g : Z -> double -> list Z) (scan_lg : list Z -> option double)
    (item : option json) (format : bool) (calls_ : nat) (held_ : Z) :
  fmt_g_ok fmt_g ->
  exists r, print grant fresh reallocate fmt_g scan_lg item format calls_ held_ = Some r /\
    match result r with
    | Some text => held_after r = held_ + 1 /\
        exists j, item = Some j /\ valid j = true /\ text = render format fmt_g scan_lg 0 j ++ [0]
    | None => held_after r = held_ /\
        forall j, item = Some j -> valid j = true -> len (render format fmt_g scan_lg 0 j) + 2 <= INT_MAX ->
                  ~ forall n, grant n = true
    end.
Proof. intros Hfmt. by apply print_returns. Qed.

(** C11: What is printed is read back.  An item whose strings hold no NUL and
    whose numbers are ones that [strtod] reads back from their text, nested at
    most 1000 deep, is printed, formatted or not, as a text from which
    [cJSON_Parse] gives that item. *)
Theorem print_parse (fresh : nat -> nat -> Z) (reallocate : bool)
    (fmt_g : Z -> double -> list Z) (scan_lg : list Z -> option double) (strtod : list Z -> spec_float * nat)
    (j : json) (format : bool) (calls_ : nat) (held_ : Z) (b : pbuf) :
  fmt_g_ok fmt_g -> reads_back strtod fmt_g scan_lg j -> (nesting j <= CJSON_NESTING_LIMIT)%nat -> valid j = true ->
  len (render format fmt_g scan_lg 0 j) + 2 <= INT_MAX ->
  exists r text p,
    print (fun _ => true) fresh reallocate fmt_g scan_lg (Some j) format calls_ held_ = Some r /\ result r = Some text /\
    cJSON_Parse text (fun _ => true) strtod b = Some p /\ item p = Some j /\ error p = None.
Proof.
  intros Hfmt Hr Hd Hv Hl.
  destruct (print_returns (fun _ => true) fresh reallocate fmt_g scan_lg Hfmt (Some j) format calls_ held_) as (r & E & H).
  unfold print_result in H. destruct (result r) as [text|] eqn:Et; [|by destruct H as [_ H]; destruct (H j)].
  destruct H as (_ & j' & [= <-] & _ & ->).
  destruct (parse_text strtod CJSON_NESTING_LIMIT j [] [] (render format fmt_g scan_lg 0 j) [] b) as (p & Ep & Hi & He & _).
  - by apply render_language.
  - done.
  - constructor.
  - constructor.
  - by left.
  - rewrite app_nil_r. by apply render_nonzero.
  - exists r, (render format fmt_g scan_lg 0 j ++ [0]), p. split_and!; try done. rewrite <- Ep. cbn [app]. rewrite app_nil_r.
    unfold cJSON_Parse. pose proof (render_nonzero format fmt_g scan_lg Hfmt j 0) as Hn. by rewrite (c_str_nul _ Hn), (c_str_id _ Hn).
Qed.

(** C34: Printing into a block of the caller.  [cJSON_PrintPreallocated] succeeds
    on an item exactly when the block is two bytes longer than its text -- the NUL
    and one byte that the estimates ask for in vain -- and then the text with its
    NUL is at the start of the block; it never writes outside of it. *)
Theorem print_preallocated (grant : nat -> bool) (fresh : nat -> nat -> Z) (reallocate : bool)
    (fmt_g : Z -> double -> list Z) (scan_lg : list Z -> option double)
    (j : json) (block : list Z) (length : Z) (format : bool) :
  fmt_g_ok fmt_g -> valid j = true -> 0 <= length <= INT_MAX -> length <= len block ->
  exists ok block', cJSON_PrintPreallocated grant fresh reallocate fmt_g scan_lg (Some j) (Some block) length format
                    = Some (ok, Some block') /\
    (ok = true <-> len (render format fmt_g scan_lg 0 j) + 2 <= length) /\
    (ok = true -> starts_with block' (render format fmt_g scan_lg 0 j ++ [0])).
Proof.
  intros Hfmt Hv Hl Hb. unfold cJSON_PrintPreallocated.
  rewrite (proj2 (Z.ltb_ge _ _)) by lia. rewrite (proj2 (Z.ltb_ge _ _)) by lia.
  set (p := mkPrint _ _ _ _ _).
  destruct (print_item_spec grant fresh reallocate fmt_g scan_lg Hfmt true format (Some j) p (take (Z.to_nat length) block) (-1))
    as (r & p1 & E & Hr); [done..|right; by destruct reallocate|].
  rewrite E. cbn [mbind option_bind]. apply (keeps_value grant fresh reallocate format fmt_g scan_lg j) in E.
  assert (Hsz : List.length (take (Z.to_nat length) block) = Z.to_nat length) by (rewrite length_take; unfold len in Hb; lia).
  destruct (buffer p1) as [b1|] eqn:Hb1; [|done]. cbn [p buffer] in E. cbn in E. injection E as E. rewrite Hsz in E.
  eexists _, b1. split; [reflexivity|]. destruct r as [[]|].
  - destruct Hr as (j' & [= <-] & _ & Hw). destruct (wrote_text _ _ _ Hw) as (b & Hb' & _ & Ht & Hlen).
    assert (b = b1) as -> by congruence. split; [|intros _; unfold starts_with; by rewrite length_app].
    split; [intros _; unfold len; lia|done].
  - split; [|done]. split; [done|]. intros Hfit. exfalso. destruct Hr as [_ He]. apply (He j eq_refl Hv).
    unfold enough, plength. change (default [] (buffer p)) with (take (Z.to_nat length) block). rewrite Hsz.
    unfold len in Hfit. split; [lia|left; lia].
Qed.

(** With a size of 0 and hooks that cannot enlarge a block, [ensure] copies a byte
    from behind the block. *)
Lemma PrintBuffered_zero_reads (fresh : nat -> nat -> Z) fmt_g scan_lg (calls_ : nat) (held_ : Z) :
  cJSON_PrintBuffered (fun _ => true) fresh false fmt_g scan_lg (Some JNull) 0 false calls_ held_ = None.
Proof. reflexivity. Qed.

(** A number within 2^-52 of an integer is printed as that integer: here 2^-53. *)
Lemma print_number_near fmt_g scan_lg : number_text fmt_g scan_lg (S754_finite false (2 ^ 52) (-105)) 0 = bytes "0".
Proof. reflexivity. Qed.

(** Another that is not read back: 0.1 + 0.2 is near enough to the double of its
    15 digits. *)
Lemma print_number_short fmt_g scan_lg :
  scan_lg (fmt_g 15 (S754_finite false 5404319552844596 (-54))) = Some (S754_finite false 5404319552844595 (-54)) ->
  number_text fmt_g scan_lg (S754_finite false 5404319552844596 (-54)) 0 = fmt_g 15 (S754_finite false 5404319552844596 (-54)).
Proof. intros H. unfold number_text. cbn [is_nan_or_inf]. rewrite H. reflexivity. Qed.

(** ** A concrete item *)

Module DemoPrint.
Definition strtod (l : list Z) : spec_float * nat := let '(v, n) := DemoNumber.digits 0 l in (double_of v, n).
Definition fmt_g (precision : Z) (d : double) : list Z := [].
Definition scan_lg (l : list Z) : option double := None.

(** A handler's settings: ["name"] with a quote and a control character in it. *)
Definition conf : json :=
  JObject [(bytes "name", JString ([quote] ++ bytes "mb" ++ [1; 10; 195; 166])); (bytes "mem", JNumber (double_of 1024) 1024);
           (bytes "list", JArray [JBool true; JNull; JArray []; JObject []])].

Lemma fmt_g_is_ok : fmt_g_ok fmt_g.
Proof. split; intros; cbn; [lia|constructor]. Qed.

Lemma conf_back : reads_back strtod fmt_g scan_lg conf.
Proof.
  assert (Htext : forall s, forallb (fun c => (0 <? c) && (c <? 256)) s = true -> text_bytes s).
  { intros s H. unfold text_bytes. apply Forall_forall. intros c Hc. rewrite forallb_forall in H.
    apply list_elem_of_In in Hc. specialize (H c Hc). lia. }
  cbn [reads_back conf all_of]. split_and!; try done; try (by apply Htext).
  unfold number_back. split_and!; [by repeat constructor| |reflexivity|reflexivity].
  exists 49, (bytes "024"). split; [reflexivity|lia].
Qed.
End DemoPrint.

Lemma print_parse_witness :
  exists r text p,
    print (fun _ => true) (fun _ _ => 7) false DemoPrint.fmt_g DemoPrint.scan_lg (Some DemoPrint.conf) true 0 0 = Some r /\
    result r = Some text /\ cJSON_Parse text (fun _ => true) DemoPrint.strtod (mkPB 0 0 0 0) = Some p /\
    item p = Some DemoPrint.conf /\ error p = None.
Proof.
  apply print_parse.
  - exact DemoPrint.fmt_g_is_ok.
  - exact DemoPrint.conf_back.
  - vm_compute. lia.
  - reflexivity.
  - vm_compute. discriminate.
Defined.

Lemma print_renders_witness :
  exists r, print (fun n => (n <? 2)%nat) (fun _ _ => 7) false DemoPrint.fmt_g DemoPrint.scan_lg
              (Some (JArray (replicate 120 (JBool true)))) false 0 0 = Some r /\ result r = None /\ held_after r = 0.
Proof.
  destruct (print_renders (fun n => (n <? 2)%nat) (fun _ _ => 7) false DemoPrint.fmt_g DemoPrint.scan_lg
              (Some (JArray (replicate 120 (JBool true)))) false 0 0 DemoPrint.fmt_g_is_ok) as (r & E & Hr).
  exists r. split; [exact E|]. vm_compute in E. injection E as <-. exact (conj eq_refl (proj1 Hr)).
Defined.

Lemma print_preallocated_witness :
  exists block', cJSON_PrintPreallocated (fun _ => true) (fun _ _ => 7) true DemoPrint.fmt_g DemoPrint.scan_lg
                   (Some (JArray [JNull])) (Some (replicate 8 255)) 8 false = Some (true, Some block') /\
                 starts_with block' (bytes "[null]" ++ [0]).
Proof.
  destruct (print_preallocated (fun _ => true) (fun _ _ => 7) true DemoPrint.fmt_g DemoPrint.scan_lg
              (JArray [JNull]) (replicate 8 255) 8 false DemoPrint.fmt_g_is_ok eq_refl ltac:(vm_compute; split; discriminate)
              ltac:(vm_compute; discriminate)) as (ok & block' & E & Hok & Hb).
  exists block'. assert (ok = true) as -> by (apply Hok; vm_compute; discriminate). split; [exact E|]. exact (Hb eq_refl).
Defined.
