(* ===== verification/JsonTree.v ===== *)
(** * Building and editing JSON values: [src/src/cJSON/cJSON.c]

    The functions of cJSON that make items and move them between arrays and
    objects.  A value is a graph of items on a heap: [child] is the first child
    of an item, [next] the next sibling, [prev] the one before, that of the
    first child being the last one.  [None] is an access to an item that does
    not exist, the release of a text that is not of the heap, or too little
    fuel.

    The abstract forest has for each item what it holds and the list of its
    children.  [refines] relates the two; the functions are the operations on
    lists that they mean to be. *)

From S2P Require Import Prelude.
From S2P Require Import Json.
From Stdlib Require Import SpecFloat.
From Stdlib Require Import Strings.String.
#[local] Open Scope Z_scope.
#[local] Abbreviation length := List.length.
#[local] Abbreviation concat := List.concat.

(** ** Data *)

Definition cJSON_Invalid : Z := 0.
Definition cJSON_False : Z := 1.
Definition cJSON_True : Z := 2.
Definition cJSON_NULL : Z := 4.
Definition cJSON_Number : Z := 8.
Definition cJSON_String : Z := 16.
Definition cJSON_Array : Z := 32.
Definition cJSON_Object : Z := 64.
Definition cJSON_Raw : Z := 128.
Definition cJSON_IsReference : Z := 256.
Definition cJSON_StringIsConst : Z := 512.

Definition ptr : Type := nat.

(** A text: a block of the heap that the item has to itself, or memory of
    somebody else. *)
Inductive text := Own (s : list Z) | Extern (s : list Z).

Definition text_of (t : text) : list Z := match t with Own s | Extern s => s end.

(** [cJSON]: what an item holds, and its links. *)
Record payload := mkPayload {
  type : Z; valuestring : option text; valueint : Z; valuedouble : spec_float; string : option text;
}.

Record cJSON := mkItem { next : option ptr; prev : option ptr; child : option ptr; data : payload }.

Definition has (d : payload) (flag : Z) : bool := negb (Z.land (type d) flag =? 0).

(** The items, the calls of the allocation hook so far, and the blocks that are
    live. *)
Record heap := mkHeap { items : gmap ptr cJSON; calls : nat; live : Z }.

(** ** Programs on the heap *)

Definition T (A : Type) : Type := heap -> option (A * heap).

#[export] Instance T_ret : MRet T := fun A a h => Some (a, h).
#[export] Instance T_bind : MBind T := fun A B f c h =>
  match c h with
  | Some (a, h) => f a h
  | None => None
  end.

Definition fault {A} : T A := fun _ => None.
Definition get (p : ptr) : T cJSON := fun h => n ← items h !! p; Some (n, h).
Definition upd (f : cJSON -> cJSON) (p : ptr) : T unit := fun h =>
  _ ← items h !! p; Some (tt, mkHeap (alter f p (items h)) (calls h) (live h)).

Definition with_next (x : option ptr) (n : cJSON) : cJSON := mkItem x (prev n) (child n) (data n).
Definition with_prev (x : option ptr) (n : cJSON) : cJSON := mkItem (next n) x (child n) (data n).
Definition with_child (x : option ptr) (n : cJSON) : cJSON := mkItem (next n) (prev n) x (data n).
Definition with_data (d : payload) (n : cJSON) : cJSON := mkItem (next n) (prev n) (child n) d.

Definition set_type (t : Z) (d : payload) : payload := mkPayload t (valuestring d) (valueint d) (valuedouble d) (string d).
Definition set_string (s : option text) (d : payload) : payload := mkPayload (type d) (valuestring d) (valueint d) (valuedouble d) s.
Definition set_valuestring (s : option text) (d : payload) : payload := mkPayload (type d) s (valueint d) (valuedouble d) (string d).

(** Fuel for the loops along a list of siblings: one unit for each item. *)
Definition siblings_fuel : T nat := fun h => Some (S (size (items h)), h).

Definition zero_item : cJSON := mkItem None None None (mkPayload 0 None 0 (S754_zero false) None).

Section Hooks.
(** Whether a call of the allocation hook succeeds. *)
Variable grant : nat -> bool.

(** *** Blocks *)

Definition cJSON_New_Item : T (option ptr) := fun h =>
  if grant (calls h)
  then let p := fresh (dom (items h) : gset nat) in
       Some (Some p, mkHeap (<[p := zero_item]> (items h)) (S (calls h)) (live h + 1))
  else Some (None, mkHeap (items h) (S (calls h)) (live h)).

Definition cJSON_strdup (s : option (list Z)) : T (option text) := fun h =>
  match s with
  | None => Some (None, h)
  | Some s =>
      if grant (calls h) then Some (Some (Own (c_str s)), mkHeap (items h) (S (calls h)) (live h + 1))
      else Some (None, mkHeap (items h) (S (calls h)) (live h))
  end.

Definition deallocate_text (t : text) : T unit := fun h =>
  match t with
  | Own _ => Some (tt, mkHeap (items h) (calls h) (live h - 1))
  | Extern _ => None
  end.

Definition deallocate_item (p : ptr) : T unit := fun h =>
  _ ← items h !! p; Some (tt, mkHeap (delete p (items h)) (calls h) (live h - 1)).

Definition deallocate_if (b : bool) (t : option text) : T unit :=
  match t with Some t => if b then deallocate_text t else mret tt | None => mret tt end.

(** One unit of fuel for each item that is deleted. *)
Fixpoint delete_items (fuel : nat) (item : option ptr) : T unit :=
  match item with
  | None => mret tt
  | Some p =>
      match fuel with
      | O => fault
      | S fuel =>
          n ← get p;
          (if negb (has (data n) cJSON_IsReference) then delete_items fuel (child n) else mret tt);;
          deallocate_if (negb (has (data n) cJSON_IsReference)) (valuestring (data n));;
          deallocate_if (negb (has (data n) cJSON_StringIsConst)) (string (data n));;
          deallocate_item p;;
          delete_items fuel (next n)
      end
  end.

Definition cJSON_Delete (item : option ptr) : T unit :=
  fuel ← siblings_fuel; delete_items fuel item.

(** *** Children *)

(** From [current_child] on. *)
Fixpoint item_at (index : nat) (current_child : option ptr) : T (option ptr) :=
  match current_child, index with
  | Some c, S index => n ← get c; item_at index (next n)
  | _, _ => mret current_child
  end.

Definition get_array_item (array : option ptr) (index : nat) : T (option ptr) :=
  match array with
  | None => mret None
  | Some array => n ← get array; item_at index (child n)
  end.

(** [strcmp(a, b) == 0] *)
Definition same_text (a b : list Z) : bool := bool_decide (c_str a = c_str b).

Fixpoint item_named (fuel : nat) (name : list Z) (case_sensitive : bool) (current_element : option ptr) : T (option ptr) :=
  match current_element with
  | None => mret None
  | Some e =>
      match fuel with
      | O => fault
      | S fuel =>
          n ← get e;
          match string (data n) with
          | None => if case_sensitive then mret None else item_named fuel name case_sensitive (next n)
          | Some s =>
              if (if case_sensitive then same_text else same_name) name (text_of s) then mret (Some e)
              else item_named fuel name case_sensitive (next n)
          end
      end
  end.

Definition get_object_item (object : option ptr) (name : option (list Z)) (case_sensitive : bool) : T (option ptr) :=
  match object, name with
  | Some object, Some name => n ← get object; fuel ← siblings_fuel; item_named fuel name case_sensitive (child n)
  | _, _ => mret None
  end.

Definition suffix_object (prev item : ptr) : T unit :=
  upd (with_next (Some item)) prev;; upd (with_prev (Some prev)) item.

Definition add_item_to_array (array item : option ptr) : T bool :=
  match array, item with
  | Some array, Some item =>
      if (array =? item)%nat then mret false
      else
        a ← get array;
        match child a with
        | None =>
            upd (with_child (Some item)) array;;
            upd (with_prev (Some item)) item;;
            upd (with_next None) item;;
            mret true
        | Some c =>
            n ← get c;
            match prev n with
            | Some last => suffix_object last item;; upd (with_prev (Some item)) c;; mret true
            | None => mret true
            end
        end
  | _, _ => mret false
  end.

Definition cJSON_AddItemToArray := add_item_to_array.

Definition add_item_to_object (object : option ptr) (name : option (list Z)) (item : option ptr) (constant_key : bool) : T bool :=
  match object, name, item with
  | Some o, Some name, Some i =>
      if (o =? i)%nat then mret false
      else
        n ← get i;
        new_key ← (if constant_key then mret (Some (Extern (c_str name))) else cJSON_strdup (Some name));
        match new_key with
        | None => mret false
        | Some _ =>
            let new_type := if constant_key then Z.lor (type (data n)) cJSON_StringIsConst
                            else Z.land (type (data n)) (Z.lnot cJSON_StringIsConst) in
            deallocate_if (negb (has (data n) cJSON_StringIsConst)) (string (data n));;
            upd (with_data (set_type new_type (set_string new_key (data n)))) i;;
            add_item_to_array object item
        end
  | _, _, _ => mret false
  end.

Definition cJSON_AddItemToObject (object : option ptr) (name : option (list Z)) (item : option ptr) : T bool :=
  add_item_to_object object name item false.
Definition cJSON_AddItemToObjectCS (object : option ptr) (name : option (list Z)) (item : option ptr) : T bool :=
  add_item_to_object object name item true.

(** *** References *)

(** The copy shares the text and the children of [item]. *)
Definition shared (t : option text) : option text := Extern ∘ text_of <$> t.

Definition create_reference (item : option ptr) : T (option ptr) :=
  match item with
  | None => mret None
  | Some item =>
      n ← get item;
      reference ← cJSON_New_Item;
      match reference with
      | None => mret None
      | Some r =>
          let d := data n in
          upd (fun _ => mkItem None None (child n)
                 (mkPayload (Z.lor (type d) cJSON_IsReference) (shared (valuestring d)) (valueint d) (valuedouble d) None)) r;;
          mret (Some r)
      end
  end.

Definition cJSON_AddItemReferenceToArray (array item : option ptr) : T bool :=
  match array with
  | None => mret false
  | Some _ => r ← create_reference item; add_item_to_array array r
  end.

Definition cJSON_AddItemReferenceToObject (object : option ptr) (name : option (list Z)) (item : option ptr) : T bool :=
  match object, name with
  | Some _, Some _ => r ← create_reference item; add_item_to_object object name r false
  | _, _ => mret false
  end.

(** *** Taking items out *)

(** The item of a pointer; NULL is a fault. *)
Definition deref (p : option ptr) : T ptr := match p with Some p => mret p | None => fault end.

Definition cJSON_DetachItemViaPointer (parent item : option ptr) : T (option ptr) :=
  match parent, item with
  | Some parent, Some item =>
      p ← get parent;
      n ← get item;
      let first := bool_decide (child p = Some item) in
      if negb first && bool_decide (prev n = None) then mret None
      else
        (if negb first then before ← deref (prev n); upd (with_next (next n)) before else mret tt);;
        n ← get item;
        match next n with Some after => upd (with_prev (prev n)) after | None => mret tt end;;
        (if first then upd (with_child (next n)) parent
         else match next n with
              | None => p ← get parent; c ← deref (child p); upd (with_prev (prev n)) c
              | Some _ => mret tt
              end);;
        upd (with_prev None) item;;
        upd (with_next None) item;;
        mret (Some item)
  | _, _ => mret None
  end.

Definition cJSON_DetachItemFromArray (array : option ptr) (which : Z) : T (option ptr) :=
  if which <? 0 then mret None
  else item ← get_array_item array (Z.to_nat which); cJSON_DetachItemViaPointer array item.

Definition cJSON_DeleteItemFromArray (array : option ptr) (which : Z) : T unit :=
  item ← cJSON_DetachItemFromArray array which; cJSON_Delete item.

Definition cJSON_DetachItemFromObject (object : option ptr) (name : option (list Z)) : T (option ptr) :=
  to_detach ← get_object_item object name false; cJSON_DetachItemViaPointer object to_detach.
Definition cJSON_DetachItemFromObjectCaseSensitive (object : option ptr) (name : option (list Z)) : T (option ptr) :=
  to_detach ← get_object_item object name true; cJSON_DetachItemViaPointer object to_detach.
Definition cJSON_DeleteItemFromObject (object : option ptr) (name : option (list Z)) : T unit :=
  item ← cJSON_DetachItemFromObject object name; cJSON_Delete item.
Definition cJSON_DeleteItemFromObjectCaseSensitive (object : option ptr) (name : option (list Z)) : T unit :=
  item ← cJSON_DetachItemFromObjectCaseSensitive object name; cJSON_Delete item.

(** *** Putting items in *)

Definition cJSON_InsertItemInArray (array : option ptr) (which : Z) (newitem : option ptr) : T bool :=
  match newitem with
  | None => mret false
  | Some new =>
      if which <? 0 then mret false
      else
        after_inserted ← get_array_item array (Z.to_nat which);
        match after_inserted, array with
        | Some after, Some array =>
            a ← get array;
            n ← get after;
            let first := bool_decide (child a = Some after) in
            if negb first && bool_decide (prev n = None) then mret false
            else
              upd (with_next (Some after)) new;;
              upd (with_prev (prev n)) new;;
              upd (with_prev (Some new)) after;;
              (if first then upd (with_child (Some new)) array
               else before ← deref (prev n); upd (with_next (Some new)) before);;
              mret true
        | _, _ => add_item_to_array array newitem
        end
  end.

Definition cJSON_ReplaceItemViaPointer (parent item replacement : option ptr) : T bool :=
  match parent, item, replacement with
  | Some parent, Some item, Some r =>
      p ← get parent;
      match child p with
      | None => mret false
      | Some c =>
          if (r =? item)%nat then mret true
          else
            n ← get item;
            upd (with_next (next n)) r;;
            upd (with_prev (prev n)) r;;
            match next n with Some after => upd (with_prev (Some r)) after | None => mret tt end;;
            (if (c =? item)%nat then
               f ← get c;
               (if bool_decide (prev f = Some c) then upd (with_prev (Some r)) r else mret tt);;
               upd (with_child (Some r)) parent
             else
               match prev n with Some before => upd (with_next (Some r)) before | None => mret tt end;;
               match next n with None => upd (with_prev (Some r)) c | Some _ => mret tt end);;
            upd (with_next None) item;;
            upd (with_prev None) item;;
            cJSON_Delete (Some item);;
            mret true
      end
  | _, _, _ => mret false
  end.

Definition cJSON_ReplaceItemInArray (array : option ptr) (which : Z) (newitem : option ptr) : T bool :=
  if which <? 0 then mret false
  else item ← get_array_item array (Z.to_nat which); cJSON_ReplaceItemViaPointer array item newitem.

Definition replace_item_in_object (object : option ptr) (name : option (list Z)) (replacement : option ptr) (case_sensitive : bool) : T bool :=
  match replacement, name with
  | Some r, Some _ =>
      n ← get r;
      deallocate_if (negb (has (data n) cJSON_StringIsConst)) (string (data n));;
      new_string ← cJSON_strdup name;
      upd (with_data (set_string new_string (data n))) r;;
      match new_string with
      | None => mret false
      | Some _ =>
          upd (with_data (set_type (Z.land (type (data n)) (Z.lnot cJSON_StringIsConst)) (set_string new_string (data n)))) r;;
          item ← get_object_item object name case_sensitive;
          cJSON_ReplaceItemViaPointer object item replacement
      end
  | _, _ => mret false
  end.

Definition cJSON_ReplaceItemInObject (object : option ptr) (name : option (list Z)) (newitem : option ptr) : T bool :=
  replace_item_in_object object name newitem false.
Definition cJSON_ReplaceItemInObjectCaseSensitive (object : option ptr) (name : option (list Z)) (newitem : option ptr) : T bool :=
  replace_item_in_object object name newitem true.

(** *** Making items *)

(** A new item that [f] fills. *)
Definition create (f : cJSON -> cJSON) : T (option ptr) :=
  item ← cJSON_New_Item;
  match item with
  | None => mret None
  | Some p => upd f p;; mret (Some p)
  end.

Definition typed (t : Z) (n : cJSON) : cJSON := with_data (set_type t (data n)) n.

Definition cJSON_CreateNull : T (option ptr) := create (typed cJSON_NULL).
Definition cJSON_CreateTrue : T (option ptr) := create (typed cJSON_True).
Definition cJSON_CreateFalse : T (option ptr) := create (typed cJSON_False).
Definition cJSON_CreateBool (b : bool) : T (option ptr) := create (typed (if b then cJSON_True else cJSON_False)).
Definition cJSON_CreateArray : T (option ptr) := create (typed cJSON_Array).
Definition cJSON_CreateObject : T (option ptr) := create (typed cJSON_Object).

(** [i] is the saturated integer of [num]; not a number has none. *)
Definition cJSON_CreateNumber (num : spec_float) : T (option ptr) :=
  match saturated num with
  | None => fault
  | Some i => create (with_data (mkPayload cJSON_Number None i num None))
  end.

(** An item with a copy of a text, or none. *)
Definition create_text (t : Z) (s : option (list Z)) : T (option ptr) :=
  item ← cJSON_New_Item;
  match item with
  | None => mret None
  | Some p =>
      upd (typed t) p;;
      copy ← cJSON_strdup s;
      n ← get p;
      upd (with_data (set_valuestring copy (data n))) p;;
      match copy with
      | None => cJSON_Delete (Some p);; mret None
      | Some _ => mret (Some p)
      end
  end.

Definition cJSON_CreateString (s : option (list Z)) : T (option ptr) := create_text cJSON_String s.
Definition cJSON_CreateRaw (s : option (list Z)) : T (option ptr) := create_text cJSON_Raw s.

Definition cJSON_CreateStringReference (s : option (list Z)) : T (option ptr) :=
  create (with_data (mkPayload (Z.lor cJSON_String cJSON_IsReference) (Extern <$> s) 0 (S754_zero false) None)).
Definition cJSON_CreateObjectReference (c : option ptr) : T (option ptr) :=
  create (fun n => with_child c (typed (Z.lor cJSON_Object cJSON_IsReference) n)).
Definition cJSON_CreateArrayReference (c : option ptr) : T (option ptr) :=
  create (fun n => with_child c (typed (Z.lor cJSON_Array cJSON_IsReference) n)).

(** The loop over the elements, [p] being the item before. *)
Fixpoint create_elements (a : ptr) (p : option ptr) (elements : list (T (option ptr))) : T (option ptr) :=
  match elements with
  | [] =>
      n ← get a;
      match child n with
      | Some c => upd (with_prev p) c
      | None => mret tt
      end;;
      mret (Some a)
  | e :: elements =>
      n ← e;
      match n with
      | None => cJSON_Delete (Some a);; mret None
      | Some n =>
          match p with
          | None => upd (with_child (Some n)) a
          | Some p => suffix_object p n
          end;;
          create_elements a (Some n) elements
      end
  end.

(** The four functions that make an array, of elements that are made one by one. *)
Definition create_array (elements : option (list (T (option ptr)))) (count : Z) : T (option ptr) :=
  match elements with
  | None => mret None
  | Some elements =>
      if count <? 0 then mret None
      else
        a ← cJSON_CreateArray;
        match a with
        | None => mret None
        | Some a => create_elements a None (take (Z.to_nat count) elements)
        end
  end.

(** An integer is a double without loss, and so is a float. *)
Definition double_of_int (i : Z) : spec_float := binary_normalize 53 1024 i 0 false.

(** [None] for the elements is NULL. *)
Definition cJSON_CreateIntArray (numbers : option (list Z)) (count : Z) : T (option ptr) :=
  create_array (map (cJSON_CreateNumber ∘ double_of_int) <$> numbers) count.
Definition cJSON_CreateFloatArray (numbers : option (list spec_float)) (count : Z) : T (option ptr) :=
  create_array (map cJSON_CreateNumber <$> numbers) count.
Definition cJSON_CreateDoubleArray (numbers : option (list spec_float)) (count : Z) : T (option ptr) :=
  create_array (map cJSON_CreateNumber <$> numbers) count.
Definition cJSON_CreateStringArray (strings : option (list (list Z))) (count : Z) : T (option ptr) :=
  create_array (map (cJSON_CreateString ∘ Some) <$> strings) count.

(** The functions [cJSON_Add...ToObject]: the new item, or nothing. *)
Definition add_to_object (new : T (option ptr)) (object : option ptr) (name : option (list Z)) : T (option ptr) :=
  item ← new;
  ok ← add_item_to_object object name item false;
  if (ok : bool) then mret item else cJSON_Delete item;; mret None.

Definition cJSON_AddNullToObject := add_to_object cJSON_CreateNull.
Definition cJSON_AddTrueToObject := add_to_object cJSON_CreateTrue.
Definition cJSON_AddFalseToObject := add_to_object cJSON_CreateFalse.
Definition cJSON_AddBoolToObject (b : bool) := add_to_object (cJSON_CreateBool b).
Definition cJSON_AddNumberToObject (num : spec_float) := add_to_object (cJSON_CreateNumber num).
Definition cJSON_AddStringToObject (s : option (list Z)) := add_to_object (cJSON_CreateString s).
Definition cJSON_AddRawToObject (s : option (list Z)) := add_to_object (cJSON_CreateRaw s).
Definition cJSON_AddObjectToObject := add_to_object cJSON_CreateObject.
Definition cJSON_AddArrayToObject := add_to_object cJSON_CreateArray.

(** *** Changing items *)

Definition cJSON_SetNumberHelper (object : ptr) (number : spec_float) : T spec_float :=
  match saturated number with
  | None => fault
  | Some i =>
      n ← get object;
      let d := data n in
      upd (with_data (mkPayload (type d) (valuestring d) i number (string d))) object;;
      mret number
  end.

(** The new text does not overlap the old one. *)
Definition cJSON_SetValuestring (object : option ptr) (s : option (list Z)) : T (option text) :=
  match object with
  | None => mret None
  | Some o =>
      n ← get o;
      if negb (has (data n) cJSON_String) || has (data n) cJSON_IsReference then mret None
      else
        match valuestring (data n), s with
        | Some old, Some s =>
            if (length (c_str s) <=? length (c_str (text_of old)))%nat
            then
              let new := match old with Own _ => Own (c_str s) | Extern _ => Extern (c_str s) end in
              upd (with_data (set_valuestring (Some new) (data n))) o;; mret (Some new)
            else
              copy ← cJSON_strdup (Some s);
              match copy with
              | None => mret None
              | Some _ =>
                  deallocate_text old;;
                  upd (with_data (set_valuestring copy (data n))) o;; mret copy
              end
        | _, _ => mret None
        end
  end.

(** *** Copies *)

Definition CJSON_CIRCULAR_LIMIT : nat := Z.to_nat 10000.

(** Behind [fail]: what there is of the copy is deleted. *)
Definition duplicate_failed (newitem : ptr) : T (option ptr) := cJSON_Delete (Some newitem);; mret None.

(** The copy without its children, or NULL. *)
Definition duplicate_item (item : ptr) : T (option ptr) :=
  newitem ← cJSON_New_Item;
  match newitem with
  | None => mret None
  | Some new =>
      n ← get item;
      let d := data n in
      let d1 := mkPayload (Z.land (type d) (Z.lnot cJSON_IsReference)) None (valueint d) (valuedouble d) None in
      upd (with_data d1) new;;
      v ← match valuestring d with Some t => cJSON_strdup (Some (text_of t)) | None => mret None end;
      upd (with_data (set_valuestring v d1)) new;;
      if bool_decide (v = None) && negb (bool_decide (valuestring d = None)) then duplicate_failed new
      else
        k ← match string d with
            | Some t => if has d cJSON_StringIsConst then mret (Some t) else cJSON_strdup (Some (text_of t))
            | None => mret None
            end;
        upd (with_data (set_string k (set_valuestring v d1))) new;;
        if bool_decide (k = None) && negb (bool_decide (string d = None)) then duplicate_failed new
        else mret (Some new)
  end.

(** [duplicate_children]: from [child_] on, [next_] being the last copy.  Two
    units of fuel for each item that is copied, and one for the end. *)
Fixpoint cJSON_Duplicate_rec (fuel : nat) (item : option ptr) (depth : nat) (recurse : bool) : T (option ptr) :=
  match item, fuel with
  | None, _ => mret None
  | Some _, O => fault
  | Some item, S fuel =>
      newitem ← duplicate_item item;
      match newitem with
      | None => mret None
      | Some new =>
          if negb recurse then mret (Some new)
          else n ← get item; duplicate_children fuel new (child n) None depth
      end
  end
with duplicate_children (fuel : nat) (new : ptr) (child_ next_ : option ptr) (depth : nat) : T (option ptr) :=
  match child_, fuel with
  | None, _ =>
      n ← get new;
      match child n with
      | Some c => upd (with_prev next_) c
      | None => mret tt
      end;;
      mret (Some new)
  | Some _, O => fault
  | Some c, S fuel =>
      if (CJSON_CIRCULAR_LIMIT <=? depth)%nat then duplicate_failed new
      else
        newchild ← cJSON_Duplicate_rec fuel (Some c) (S depth) true;
        match newchild with
        | None => duplicate_failed new
        | Some nc =>
            match next_ with
            | Some last => suffix_object last nc
            | None => upd (with_child (Some nc)) new
            end;;
            n ← get c;
            duplicate_children fuel new (next n) (Some nc) depth
        end
  end.

Definition cJSON_Duplicate (item : option ptr) (recurse : bool) : T (option ptr) :=
  fuel ← siblings_fuel; cJSON_Duplicate_rec (2 * fuel) item 0 recurse.
End Hooks.
