(* ===== verification/JsonForest.v ===== *)
(** * The forest behind a heap of JSON values

    The lists of children that the links of [JsonTree] stand for, the relation
    [refines] between a heap and such a forest, and what the functions that
    append, take out and put in do to both. *)

From S2P Require Import Prelude.
From Stdlib Require Import SpecFloat.
From Stdlib Require Import Strings.String.
From S2P Require Import Json.
From S2P Require Import JsonTree.
#[local] Open Scope Z_scope.
#[local] Abbreviation length := List.length.
#[local] Abbreviation concat := List.concat.

(** ** Chains of siblings *)

Definition hd_or (after : option ptr) (ks : list ptr) : option ptr := match ks with [] => after | k :: _ => Some k end.
Definition last_or (before : option ptr) (ks : list ptr) : option ptr := match last ks with Some k => Some k | None => before end.

(** [ks] is a doubly linked segment between [before] and [after]. *)
Fixpoint dl (m : gmap ptr cJSON) (before : option ptr) (ks : list ptr) (after : option ptr) : Prop :=
  match ks with
  | [] => True
  | k :: ks => (exists n, m !! k = Some n /\ prev n = before /\ next n = hd_or after ks) /\ dl m (Some k) ks after
  end.

Lemma last_or_app b l k : last_or b (l ++ [k]) = Some k.
Proof. unfold last_or. by rewrite last_snoc. Qed.

Lemma last_or_cons b k l : last_or b (k :: l) = last_or (Some k) l.
Proof. unfold last_or. rewrite last_cons. by destruct (last l). Qed.

Lemma dl_app m b l r a : dl m b (l ++ r) a <-> dl m b l (hd_or a r) /\ dl m (last_or b l) r a.
Proof.
  revert b. induction l as [|k l IH]; intros b; cbn [app dl].
  - unfold last_or. cbn. tauto.
  - rewrite IH, last_or_cons. assert (hd_or a (l ++ r) = hd_or (hd_or a r) l) as -> by (by destruct l). tauto.
Qed.

(** A chain depends on the links of its items. *)
Definition links (n : cJSON) : option ptr * option ptr := (next n, prev n).

Lemma dl_agree m m' b ks a : (forall k, k ∈ ks -> links <$> m' !! k = links <$> m !! k) -> dl m b ks a -> dl m' b ks a.
Proof.
  revert b. induction ks as [|k ks IH]; intros b Hag; [done|]. intros [(n & Hn & Hp & Hx) H]. split.
  - specialize (Hag k ltac:(by left)). rewrite Hn in Hag. destruct (m' !! k) as [n'|]; [|done]. injection Hag as Hx' Hp'.
    exists n'. split_and!; congruence.
  - apply IH; [|done]. intros k' Hk'. apply Hag. by right.
Qed.

Lemma dl_first m b b' k ks a : k ∉ ks -> dl m b (k :: ks) a -> dl (alter (with_prev b') k m) b' (k :: ks) a.
Proof.
  intros Hk [(n & Hn & Hp & Hx) H]. split.
  - exists (with_prev b' n). rewrite lookup_alter_eq, Hn. by split_and!.
  - eapply dl_agree; [|exact H]. intros k' Hk'. rewrite lookup_alter_ne; [done|]. by intros ->.
Qed.

Lemma dl_last m b ks k a a' : k ∉ ks -> dl m b (ks ++ [k]) a -> dl (alter (with_next a') k m) b (ks ++ [k]) a'.
Proof.
  intros Hk. rewrite !dl_app. cbn [dl hd_or]. intros [Hl [(n & Hn & Hp & Hx) _]]. split; [|split; [|done]].
  - eapply dl_agree; [|exact Hl]. intros k' Hk'. rewrite lookup_alter_ne; [done|]. by intros ->.
  - exists (with_next a' n). rewrite lookup_alter_eq, Hn. by split_and!.
Qed.

Lemma dl_lookup m b ks a k : dl m b ks a -> k ∈ ks -> is_Some (m !! k).
Proof.
  revert b. induction ks as [|k' ks IH]; intros b; [intros _ Hk; by apply not_elem_of_nil in Hk|].
  intros [(n & Hn & _) H] [->|Hk]%elem_of_cons; [by eexists|by eapply IH].
Qed.

(** ** Edits of links *)

(** [m'] has the items of [m] with their data, the children but of [p], and the
    links of the items outside of [S]. *)
Record edits (p : ptr) (S : ptr -> Prop) (m m' : gmap ptr cJSON) : Prop := {
  edits_data : forall q, data <$> m' !! q = data <$> m !! q;
  edits_child : forall q, q <> p -> child <$> m' !! q = child <$> m !! q;
  edits_links : forall q, ~ S q -> links <$> m' !! q = links <$> m !! q;
}.

Lemma edits_refl p S m : edits p S m m.
Proof. by split. Qed.

Lemma edits_alter p S m m' f q :
  edits p S m m' -> (forall n, data (f n) = data n) -> (q <> p -> forall n, child (f n) = child n) ->
  (~ S q -> forall n, links (f n) = links n) -> edits p S m (alter f q m').
Proof.
  intros [Hd Hc Hl] Fd Fc Fl. split; intros q'.
  - rewrite <- Hd. destruct (decide (q = q')) as [<-|]; [|by rewrite lookup_alter_ne].
    rewrite lookup_alter_eq. destruct (m' !! q); cbn; [by rewrite Fd|done].
  - intros Hq. rewrite <- Hc by done. destruct (decide (q = q')) as [<-|]; [|by rewrite lookup_alter_ne].
    rewrite lookup_alter_eq. destruct (m' !! q); cbn; [by rewrite Fc|done].
  - intros Hq. rewrite <- Hl by done. destruct (decide (q = q')) as [<-|]; [|by rewrite lookup_alter_ne].
    rewrite lookup_alter_eq. destruct (m' !! q); cbn; [by rewrite Fl|done].
Qed.

Lemma edits_child_alter p S m m' x : edits p S m m' -> edits p S m (alter (with_child x) p m').
Proof. intros H. by apply edits_alter. Qed.
Lemma edits_next p (S : ptr -> Prop) m m' q x : edits p S m m' -> S q -> edits p S m (alter (with_next x) q m').
Proof. intros H Hq. by apply edits_alter. Qed.
Lemma edits_prev p (S : ptr -> Prop) m m' q x : edits p S m m' -> S q -> edits p S m (alter (with_prev x) q m').
Proof. intros H Hq. by apply edits_alter. Qed.
Create HintDb edits.
#[local] Hint Resolve edits_refl edits_child_alter edits_next edits_prev : edits.

Lemma edits_is_Some p S m m' q : edits p S m m' -> is_Some (m !! q) -> is_Some (m' !! q).
Proof. intros [Hd _ _] [n Hn]. specialize (Hd q). rewrite Hn in Hd. destruct (m' !! q); [by eexists|done]. Qed.

(** ** The forest *)

#[local] Abbreviation forest := (gmap ptr (payload * list ptr)).

Definition kids (A : forest) (p : ptr) : list ptr := default [] (snd <$> A !! p).

(** Children after an edit. *)
Lemma child_next x q (m : gmap ptr cJSON) p : child <$> alter (with_next x) q m !! p = child <$> m !! p.
Proof. destruct (decide (q = p)) as [<-|]; [rewrite lookup_alter_eq; by destruct (m !! q)|by rewrite lookup_alter_ne]. Qed.
Lemma child_prev x q (m : gmap ptr cJSON) p : child <$> alter (with_prev x) q m !! p = child <$> m !! p.
Proof. destruct (decide (q = p)) as [<-|]; [rewrite lookup_alter_eq; by destruct (m !! q)|by rewrite lookup_alter_ne]. Qed.
Lemma child_set x q (m : gmap ptr cJSON) : child <$> alter (with_child x) q m !! q = (fun _ => x) <$> m !! q.
Proof. rewrite lookup_alter_eq. by destruct (m !! q). Qed.
Lemma child_set_is y q (m : gmap ptr cJSON) : is_Some (m !! q) -> child <$> alter (with_child y) q m !! q = Some y.
Proof. intros [n Hn]. by rewrite child_set, Hn. Qed.

(** Nobody's child. *)
Definition orphan (A : forest) (k : ptr) : Prop := forall p, k ∉ kids A p.

(** Every item has one place, and none is below itself. *)
Record forest_ok (A : forest) : Prop := {
  one_place : forall p q i j k, kids A p !! i = Some k -> kids A q !! j = Some k -> p = q /\ i = j;
  acyclic : forall p, Acc (fun c q => c ∈ kids A q) p;
}.

(** The heap of a forest. *)
Record refines (m : gmap ptr cJSON) (A : forest) : Prop := {
  ref_data : forall p, data <$> m !! p = fst <$> A !! p;
  ref_child : forall p d ks n, A !! p = Some (d, ks) -> m !! p = Some n ->
              if has d cJSON_IsReference then ks = [] else child n = head ks;
  ref_chain : forall p, dl m (last (kids A p)) (kids A p) None;
  ref_orphan : forall p n, m !! p = Some n -> orphan A p -> next n = None /\ prev n = None;
}.

Definition set_kids (p : ptr) (ks : list ptr) (A : forest) : forest := alter (fun x => (fst x, ks)) p A.

Lemma set_kids_eq p ks A : set_kids p ks A !! p = (fun x => (fst x, ks)) <$> A !! p.
Proof. apply lookup_alter_eq. Qed.
Lemma set_kids_ne p ks A q : p <> q -> set_kids p ks A !! q = A !! q.
Proof. apply lookup_alter_ne. Qed.

Lemma kids_set p ks A q : is_Some (A !! p) -> kids (set_kids p ks A) q = if decide (q = p) then ks else kids A q.
Proof.
  intros [x Hx]. unfold kids. case_decide as Hq; [subst q|by rewrite set_kids_ne].
  by rewrite set_kids_eq, Hx.
Qed.

Lemma one_place_NoDup A p : forest_ok A -> NoDup (kids A p).
Proof. intros [H _]. apply NoDup_alt. intros i j k Hi Hj. by destruct (H p p i j k Hi Hj). Qed.

Lemma same_parent A p q k : forest_ok A -> k ∈ kids A p -> k ∈ kids A q -> p = q.
Proof. intros [H _] [i Hi]%list_elem_of_lookup [j Hj]%list_elem_of_lookup. by destruct (H _ _ _ _ _ Hi Hj). Qed.

(** New children of [p]: the links of its old and new children are edited, and
    those that it does not have any more have none. *)
Lemma refines_set_kids m A p d ks ks' m' :
  refines m A -> forest_ok A -> A !! p = Some (d, ks) -> has d cJSON_IsReference = false ->
  edits p (fun q => q ∈ ks \/ q ∈ ks') m m' -> child <$> m' !! p = Some (head ks') ->
  dl m' (last ks') ks' None ->
  (forall k, k ∈ ks' -> k ∈ ks \/ orphan A k) ->
  (forall k nk, k ∈ ks -> k ∉ ks' -> m' !! k = Some nk -> next nk = None /\ prev nk = None) ->
  refines m' (set_kids p ks' A).
Proof.
  intros [Rd Rc Rl Ro] Hok Hp Hd [Ed Ec El] Hch Hdl Hks Hout.
  assert (HpS : is_Some (A !! p)) by (by eexists). assert (Hkp : kids A p = ks) by (unfold kids; by rewrite Hp).
  split.
  - intros q. rewrite Ed, Rd. destruct (decide (p = q)) as [<-|]; [|by rewrite set_kids_ne].
    by rewrite set_kids_eq, Hp.
  - intros q e ls nq Hq Hnq. destruct (decide (p = q)) as [<-|Hne].
    + rewrite set_kids_eq, Hp in Hq. injection Hq as <- <-. rewrite Hd. rewrite Hnq in Hch. by injection Hch.
    + rewrite set_kids_ne in Hq by done. specialize (Ec q ltac:(done)). rewrite Hnq in Ec.
      destruct (m !! q) as [n0|] eqn:E0; [|done]. injection Ec as ->. by apply (Rc q).
  - intros q. rewrite kids_set by done. case_decide as Hq; [done|]. eapply dl_agree; [|apply Rl].
    intros k Hk. apply El. intros [Hin|Hin].
    + apply Hq, (same_parent A q p k Hok Hk). by rewrite Hkp.
    + destruct (Hks k Hin) as [Hin'|Hor]; [|by apply (Hor q)]. apply Hq, (same_parent A q p k Hok Hk). by rewrite Hkp.
  - intros q nq Hnq Hor. assert (Hnot : q ∉ ks').
    { specialize (Hor p). rewrite kids_set, decide_True in Hor by done. done. }
    destruct (decide (q ∈ ks)) as [Hin|Hin]; [by apply (Hout q nq)|].
    specialize (El q ltac:(tauto)). rewrite Hnq in El. destruct (m !! q) as [n0|] eqn:E0; [|done]. injection El as -> ->.
    apply (Ro q n0 E0). intros r. specialize (Hor r). rewrite kids_set in Hor by done. case_decide; [by subst r; rewrite Hkp|done].
Qed.

(** [q] is [p] or above it. *)
Definition kid (A : forest) (q c : ptr) : Prop := c ∈ kids A q.
Definition above (A : forest) : ptr -> ptr -> Prop := rtc (kid A).

Lemma above_kid A q c p : c ∈ kids A q -> above A c p -> above A q p.
Proof. intros Hc. by apply rtc_l. Qed.

Lemma sn_irreflexive {X} (R : X -> X -> Prop) p : Acc (flip R) p -> ~ tc R p p.
Proof.
  induction 1 as [p _ IH]. intros Ht. inversion Ht as [? ? H|? y ? H H']; subst.
  - by apply (IH p H).
  - apply (IH y H). by eapply tc_r.
Qed.

Lemma not_above_kid A p c : forest_ok A -> c ∈ kids A p -> ~ above A c p.
Proof.
  intros [_ Hacc] Hc Hab. apply (sn_irreflexive (kid A) p (Hacc p)). eapply tc_rtc_r; [|exact Hab]. by constructor.
Qed.

Lemma forest_ok_set_kids A p ks' :
  forest_ok A -> is_Some (A !! p) -> NoDup ks' -> (forall k, k ∈ ks' -> k ∈ kids A p \/ orphan A k) ->
  (forall k, k ∈ ks' -> ~ above A k p) -> forest_ok (set_kids p ks' A).
Proof.
  intros Hok Hp Hnd Hks Hab. pose proof Hok as [Hone Hacc]. split.
  - intros q r i j k. rewrite !kids_set by done. repeat case_decide; subst; intros Hi Hj.
    + split; [done|]. by apply (NoDup_lookup ks' i j k).
    + exfalso. apply list_elem_of_lookup_2 in Hi, Hj. destruct (Hks k Hi) as [Hk|Hk]; [|by apply (Hk r)].
      by apply H0, (same_parent A r p k).
    + exfalso. apply list_elem_of_lookup_2 in Hi, Hj. destruct (Hks k Hj) as [Hk|Hk]; [|by apply (Hk q)].
      by apply H, (same_parent A q p k).
    + by apply Hone with k.
  - assert (H1 : forall q, ~ above A q p -> Acc (fun c q => c ∈ kids (set_kids p ks' A) q) q).
    { intros q. induction (Hacc q) as [q _ IH]. intros Hq. constructor. intros c Hc. rewrite kids_set in Hc by done.
      case_decide as Hqp; [subst q; destruct Hq; apply rtc_refl|]. apply IH; [done|]. intros Hcp. by apply Hq, (above_kid A q c). }
    intros q. induction (Hacc q) as [q _ IH]. constructor. intros c Hc. rewrite kids_set in Hc by done.
    case_decide; [by apply H1, Hab|by apply IH].
Qed.

(** Run forms of the steps. *)
Definition on_items (f : gmap ptr cJSON -> gmap ptr cJSON) (h : heap) : heap := mkHeap (f (items h)) (calls h) (live h).

Lemma T_run_Some {X Y} (c : T X) (f : X -> T Y) h x h' : c h = Some (x, h') -> (c ≫= f) h = f x h'.
Proof. intros H. unfold mbind, T_bind. by rewrite H. Qed.

Lemma T_ret_bind {X Y} (x : X) (f : X -> T Y) h : (mret x ≫= f) h = f x h.
Proof. done. Qed.

Lemma T_deref {Y} p (f : ptr -> T Y) h : (deref (Some p) ≫= f) h = f p h.
Proof. done. Qed.

Lemma T_assoc {X Y Z} (c : T X) (f : X -> T Y) (g : Y -> T Z) h : ((c ≫= f) ≫= g) h = (c ≫= (fun x => f x ≫= g)) h.
Proof. unfold mbind, T_bind. by destruct (c h) as [[x h']|]. Qed.

Lemma get_run p h n : items h !! p = Some n -> get p h = Some (n, h).
Proof. intros H. unfold get. by rewrite H. Qed.

Lemma get_child p h c : child <$> items h !! p = Some c -> exists n, get p h = Some (n, h) /\ child n = c.
Proof. intros H. destruct (items h !! p) as [n|] eqn:E; [|done]. injection H as H. exists n. split; [by apply get_run|done]. Qed.

Lemma upd_run f p h : is_Some (items h !! p) -> upd f p h = Some (tt, on_items (alter f p) h).
Proof. intros [n H]. unfold upd. by rewrite H. Qed.

Lemma alter_is_Some {X} (f : X -> X) p q (m : gmap ptr X) : is_Some (m !! q) -> is_Some (alter f p m !! q).
Proof. intros [n H]. destruct (decide (p = q)) as [<-|]; [rewrite lookup_alter_eq, H|rewrite lookup_alter_ne by done]; by eexists. Qed.

Ltac T_step H := rewrite (T_run_Some _ _ _ _ _ H).
(** A step [upd], whose item is there. *)
Ltac T_upd :=
  match goal with
  | |- context [(upd ?f ?p ≫= ?g) ?h] =>
      rewrite (T_run_Some (upd f p) g h _ _ (upd_run f p h ltac:(cbn [items on_items]; eauto using alter_is_Some)))
  end.

Lemma suffix_object_run l k h :
  is_Some (items h !! l) -> is_Some (items h !! k) ->
  suffix_object l k h = Some (tt, on_items (fun m => alter (with_prev (Some l)) k (alter (with_next (Some k)) l m)) h).
Proof. intros Hl Hk. unfold suffix_object. T_upd. by rewrite upd_run by by apply alter_is_Some. Qed.

(** *** A child more *)

(** An item that a client may put into [p]: it is nobody's child, and not [p]
    or above it. *)
Definition free_for (A : forest) (p k : ptr) : Prop := is_Some (A !! k) /\ orphan A k /\ ~ above A k p.

Lemma node_of m A p x : refines m A -> A !! p = Some x -> exists n, m !! p = Some n /\ data n = fst x.
Proof. intros [Rd _ _ _] Hp. specialize (Rd p). rewrite Hp in Rd. destruct (m !! p) as [n|]; [|done]. injection Rd as Hn. by exists n. Qed.

(** An edit outside of a chain. *)
Lemma dl_other f q m b ks a : q ∉ ks -> dl m b ks a -> dl (alter f q m) b ks a.
Proof. intros Hq. apply dl_agree. intros k Hk. rewrite lookup_alter_ne; [done|]. by intros ->. Qed.

Lemma dl_child x q m b ks a : dl m b ks a -> dl (alter (with_child x) q m) b ks a.
Proof.
  apply dl_agree. intros k _. destruct (decide (q = k)) as [<-|]; [|by rewrite lookup_alter_ne].
  rewrite lookup_alter_eq. by destruct (m !! q).
Qed.

Lemma forest_ok_snoc A p k :
  forest_ok A -> is_Some (A !! p) -> free_for A p k -> forest_ok (set_kids p (kids A p ++ [k]) A).
Proof.
  intros Hok Hp (Hk & Hor & Hab). apply forest_ok_set_kids; [done|done| | |].
  - apply NoDup_app. split_and!; [by apply one_place_NoDup| |by apply NoDup_singleton].
    intros q Hq ->%list_elem_of_singleton. by apply (Hor p).
  - intros q [Hq|Hq%list_elem_of_singleton]%elem_of_app; [by left|right; by subst q].
  - intros q [Hq|Hq%list_elem_of_singleton]%elem_of_app; [by apply not_above_kid|by subst q].
Qed.

Lemma add_item_to_array_spec h A p d ks k :
  refines (items h) A -> forest_ok A -> A !! p = Some (d, ks) -> has d cJSON_IsReference = false -> free_for A p k ->
  exists m', add_item_to_array (Some p) (Some k) h = Some (true, on_items (fun _ => m') h) /\
    refines m' (set_kids p (ks ++ [k]) A).
Proof.
  intros R Hok Hp Hd (Hk & Hor & Hab). pose proof R as [Rd Rc Rl Ro].
  assert (Hpk : p <> k) by (intros ->; apply Hab, rtc_refl).
  assert (Hkp : kids A p = ks) by (unfold kids; by rewrite Hp).
  destruct (node_of _ _ _ _ R Hp) as (np & Hnp & _). destruct Hk as [xk Hxk]. destruct (node_of _ _ _ _ R Hxk) as (nk & Hnk & _).
  specialize (Rc p d ks np Hp Hnp). rewrite Hd in Rc. specialize (Rl p). rewrite Hkp in Rl.
  destruct (Ro k nk Hnk Hor) as [Hnext _]. assert (Hkks : k ∉ ks) by (rewrite <- Hkp; apply Hor).
  assert (Hnd : NoDup ks) by (rewrite <- Hkp; by apply one_place_NoDup).
  assert (Hset : forall m', edits p (fun q => q ∈ ks \/ q ∈ ks ++ [k]) (items h) m' -> child <$> m' !! p = Some (head (ks ++ [k])) ->
            dl m' (Some k) (ks ++ [k]) None -> refines m' (set_kids p (ks ++ [k]) A)).
  { intros m' He Hc Hdl. apply (refines_set_kids (items h) A p d ks (ks ++ [k]) m'); try done.
    - by rewrite last_snoc.
    - intros q [Hq|Hq%list_elem_of_singleton]%elem_of_app; [by left|right; by subst q].
    - intros q nq Hq Hq'. destruct Hq'. apply elem_of_app. by left. }
  assert (Hin : k ∈ ks ++ [k]) by (apply elem_of_app; right; by left).
  unfold add_item_to_array. rewrite (proj2 (Nat.eqb_neq _ _) Hpk). T_step (get_run p h np Hnp). rewrite Rc.
  destruct ks as [|c ks0]; cbn [head].
  - do 3 T_upd. unfold on_items. cbn [items calls live]. eexists. split; [reflexivity|].
    eapply Hset; [eauto 6 with edits| |].
    + by rewrite child_next, child_prev, child_set, Hnp.
    + cbn. split; [|done]. rewrite !lookup_alter_eq, lookup_alter_ne, Hnk by done. by eexists.
  - pose proof Rl as [(nc & Hnc & Hpc & _) _]. T_step (get_run c h nc Hnc). rewrite Hpc.
    destruct (exists_last (l := c :: ks0)) as (ks1 & l & Ek); [done|]. rewrite Ek, last_snoc in *.
    assert (Hc : c ∈ ks1 ++ [l]) by (rewrite <- Ek; by left). assert (Hl : l ∈ ks1 ++ [l]) by (apply elem_of_app; right; by left).
    assert (Hl' : is_Some (items h !! l)) by (by eapply dl_lookup).
    T_step (suffix_object_run l k h Hl' ltac:(by eexists)). T_upd. unfold on_items. cbn [items calls live]. eexists. split; [reflexivity|].
    eapply Hset.
    + apply edits_prev; [apply edits_prev; [apply edits_next; [apply edits_refl|by left]|by right]|by left].
    + rewrite !child_prev, child_next, Hnp. rewrite <- Ek in *. cbn. by rewrite Rc.
    + apply dl_app. rewrite last_or_app. split.
      * rewrite <- Ek in *. cbn [hd_or]. apply (dl_first _ (Some l)); [by apply NoDup_cons in Hnd as [? _]|]. apply dl_other; [done|].
        rewrite Ek in *. apply (dl_last _ _ _ _ None); [|exact Rl]. apply NoDup_app in Hnd as (_ & Hl1 & _). intros Hl2. apply (Hl1 l Hl2). by left.
      * assert (c <> k /\ l <> k) as [Hck Hlk] by (split; by intros ->). cbn. split; [|done]. exists (with_prev (Some l) nk).
        rewrite lookup_alter_ne, lookup_alter_eq, lookup_alter_ne, Hnk by done. by split_and!.
Qed.
(** *** A child less *)

Lemma NoDup_middle (l r : list ptr) k :
  NoDup (l ++ k :: r) -> k ∉ l /\ k ∉ r /\ (forall q, q ∈ l -> q ∉ r) /\ NoDup l /\ NoDup r.
Proof.
  intros (Hl & Hlr & (Hk & Hr)%NoDup_cons)%NoDup_app. split_and!; try done.
  - intros H. apply (Hlr k H). by left.
  - intros q Hq Hq'. apply (Hlr q Hq). by right.
Qed.

Definition cleared (k : ptr) (m : gmap ptr cJSON) : gmap ptr cJSON := alter (with_next None) k (alter (with_prev None) k m).

Lemma cleared_at k (m : gmap ptr cJSON) n : cleared k m !! k = Some n -> next n = None /\ prev n = None.
Proof. unfold cleared. rewrite !lookup_alter_eq. destruct (m !! k); [|done]. by intros [= <-]. Qed.

Lemma dl_cleared k m b ks a : k ∉ ks -> dl m b ks a -> dl (cleared k m) b ks a.
Proof. intros Hk H. unfold cleared. by apply dl_other; [|apply dl_other]. Qed.

Lemma child_cleared k m p : child <$> cleared k m !! p = child <$> m !! p.
Proof. unfold cleared. by rewrite child_next, child_prev. Qed.

(** The list is linked without the item; the item is cleared. *)
Lemma refines_detach m A p d l k r m1 :
  refines m A -> forest_ok A -> A !! p = Some (d, l ++ k :: r) -> has d cJSON_IsReference = false ->
  edits p (fun q => q ∈ l ++ k :: r) m m1 -> child <$> m1 !! p = Some (head (l ++ r)) ->
  dl m1 (last (l ++ r)) (l ++ r) None -> refines (cleared k m1) (set_kids p (l ++ r) A).
Proof.
  intros R Hok Hp Hd [Ed Ec El] Hc Hdl.
  assert (Hnd : NoDup (l ++ k :: r)) by (pose proof (one_place_NoDup A p Hok) as H; unfold kids in H; by rewrite Hp in H).
  destruct (NoDup_middle _ _ _ Hnd) as (Hkl & Hkr & _). assert (Hk : k ∈ l ++ k :: r) by (apply elem_of_app; right; by left).
  assert (Hsub : forall q, q ∈ l ++ r -> q ∈ l ++ k :: r).
  { intros q [Hq|Hq]%elem_of_app; apply elem_of_app; [by left|right; by right]. }
  apply (refines_set_kids m A p d (l ++ k :: r) (l ++ r) (cleared k m1)); try done.
  - apply edits_next; [apply edits_prev; [|by left]|by left]. split; [done|done|]. intros q Hq. apply El. tauto.
  - by rewrite child_cleared.
  - apply dl_cleared; [|done]. intros [?|?]%elem_of_app; contradiction.
  - intros q Hq. left. by apply Hsub.
  - intros q nq Hq Hq' Hnq. assert (q = k) as ->; [|by eapply cleared_at].
    apply elem_of_app in Hq as [Hq|[Hq|Hq]%elem_of_cons]; [destruct Hq'; apply elem_of_app; by left|done|destruct Hq'; apply elem_of_app; by right].
Qed.

(** What the links of a middle item say. *)
Lemma dl_middle m b l k r a :
  dl m b (l ++ k :: r) a -> dl m b l (Some k) /\ (exists n, m !! k = Some n /\ prev n = last_or b l /\ next n = hd_or a r) /\ dl m (Some k) r a.
Proof. by intros [Hl [Hk Hr]]%dl_app. Qed.

(** A child [k] between [l] and [r]. *)
Section Site.
Context (h : heap) (A : forest) (p : ptr) (d : payload) (l : list ptr) (k : ptr) (r : list ptr).
Context (R : refines (items h) A) (Hok : forest_ok A) (Hp : A !! p = Some (d, l ++ k :: r)) (Hd : has d cJSON_IsReference = false).

Lemma site_kids : kids A p = l ++ k :: r /\ NoDup (l ++ k :: r).
Proof. assert (H : kids A p = l ++ k :: r) by (unfold kids; by rewrite Hp). split; [done|]. rewrite <- H. by apply one_place_NoDup. Qed.

Lemma site_in q : q = k \/ q ∈ l \/ q ∈ r -> q ∈ l ++ k :: r.
Proof. intros [->|[Hq|Hq]]; apply elem_of_app; [right; by left|by left|right; by right]. Qed.

Lemma site_nodes : exists np nk, items h !! p = Some np /\ items h !! k = Some nk /\
  child np = head (l ++ k :: r) /\ prev nk = last_or (last (l ++ k :: r)) l /\ next nk = hd_or None r /\
  dl (items h) (last (l ++ k :: r)) l (Some k) /\ dl (items h) (Some k) r None.
Proof.
  destruct (node_of _ _ _ _ R Hp) as (np & Hnp & _). pose proof (ref_child _ _ R p d _ np Hp Hnp) as Hc. rewrite Hd in Hc.
  pose proof (ref_chain _ _ R p) as Hl. rewrite (proj1 site_kids) in Hl. apply dl_middle in Hl as (Hl & (nk & Hnk & Hpk & Hxk) & Hr).
  by exists np, nk.
Qed.

(** The items before and behind a later child. *)
Lemma site_later l1 b : l = l1 ++ [b] -> exists c l2, l = c :: l2 /\ c <> k /\ b <> k /\ b ∈ l /\ c ∈ l /\ b ∉ l1 /\ b ∉ r.
Proof.
  intros El. destruct site_kids as [_ (Hkl & _ & Hlr & Hnd & _)%NoDup_middle].
  assert (Hb : b ∈ l) by (rewrite El; apply elem_of_app; right; by left).
  assert (exists c l2, l = c :: l2) as (c & l2 & Ec) by (rewrite El; destruct l1 as [|c l1]; eauto).
  assert (Hc : c ∈ l) by (rewrite Ec; by left). exists c, l2. split_and!; try done.
  - by intros ->.
  - by intros ->.
  - intros Hb1. rewrite El in Hnd. apply NoDup_app in Hnd as (_ & H & _). apply (H b Hb1). by left.
  - by apply Hlr.
Qed.

(** What an edit of the links must give to take the child out. *)
Definition detached (m1 : gmap ptr cJSON) : Prop :=
  edits p (fun q => q ∈ l ++ k :: r) (items h) m1 /\ child <$> m1 !! p = Some (head (l ++ r)) /\ dl m1 (last (l ++ r)) (l ++ r) None.

Definition detach_links (m1 : gmap ptr cJSON) : Prop :=
  cJSON_DetachItemViaPointer (Some p) (Some k) h = Some (Some k, on_items (fun _ => cleared k m1) h).

Lemma detach_first : l = [] -> exists m1, detach_links m1 /\ detached m1.
Proof.
  intros El. destruct site_kids as [_ (_ & Hkr & _ & _ & Hndr)%NoDup_middle].
  destruct site_nodes as (np & nk & Hnp & Hnk & Hc & Hprev & Hnext & _ & Hr). pose proof site_in as Hin.
  unfold detach_links, detached. rewrite El in *. cbn [app head] in *.
  assert (Hpp : is_Some (items h !! p)) by (by eexists). assert (Hkk : is_Some (items h !! k)) by (by eexists).
  unfold cJSON_DetachItemViaPointer. T_step (get_run p h np Hnp). T_step (get_run k h nk Hnk). rewrite Hc.
  rewrite bool_decide_eq_true_2 by done. cbn [negb andb]. rewrite T_ret_bind. T_step (get_run k h nk Hnk).
  rewrite Hnext. destruct r as [|r0 r1]; cbn [hd_or].
  - rewrite T_ret_bind. do 3 T_upd. unfold on_items. cbn [items calls live]. eexists. split; [reflexivity|]. split_and!; [eauto with edits| |done].
    by rewrite child_set, Hnp.
  - assert (Hr0 : is_Some (items h !! r0)) by (eapply dl_lookup; [exact Hr|by left]).
    do 4 T_upd. unfold on_items. cbn [items calls live]. eexists. split; [reflexivity|]. split_and!.
    + apply edits_child_alter, edits_prev; [apply edits_refl|]. apply Hin. right. right. by left.
    + rewrite child_set. pose proof (alter_is_Some (with_prev (prev nk)) r0 p _ Hpp) as [x Hx]. by rewrite Hx.
    + assert (prev nk = last (r0 :: r1)) as -> by (rewrite Hprev; reflexivity).
      apply dl_child, (dl_first _ (Some k)); [by apply NoDup_cons in Hndr as [? _]|done].
Qed.

Lemma detach_later l1 b : l = l1 ++ [b] -> exists m1, detach_links m1 /\ detached m1.
Proof.
  intros El. destruct site_kids as [_ (Hkl & Hkr & Hlr & Hndl & Hndr)%NoDup_middle].
  destruct site_nodes as (np & nk & Hnp & Hnk & Hc & Hprev & Hnext & Hl & Hr). pose proof site_in as Hin.
  destruct (site_later l1 b El) as (c & l2 & Ec & Hck & Hbk & Hb & Hcl & Hb1 & Hbr).
  assert (Hlast : last_or (last (l ++ k :: r)) l = Some b) by (rewrite El; apply last_or_app). rewrite Hlast in Hprev.
  assert (Hhd : child np = Some c) by (rewrite Hc, Ec; done). assert (Hb' : is_Some (items h !! b)) by (by eapply dl_lookup; [exact Hl|]).
  assert (Hc' : is_Some (items h !! c)) by (by eapply dl_lookup; [exact Hl|]).
  assert (Hpp : is_Some (items h !! p)) by (by eexists). assert (Hkk : is_Some (items h !! k)) by (by eexists).
  unfold detach_links, detached, cJSON_DetachItemViaPointer. T_step (get_run p h np Hnp). T_step (get_run k h nk Hnk). rewrite Hhd, Hprev.
  rewrite bool_decide_eq_false_2 by congruence. cbn [negb andb]. rewrite bool_decide_eq_false_2 by done.
  rewrite T_assoc, T_deref. T_upd. erewrite T_run_Some by (apply get_run; cbn; rewrite lookup_alter_ne by done; exact Hnk). rewrite Hnext.
  assert (D1 : forall a', dl (alter (with_next a') b (items h)) (last (l ++ k :: r)) l a')
    by (intros a'; rewrite El in Hl |- *; by apply (dl_last _ _ _ _ (Some k))).
  destruct r as [|r0 r1]; cbn [hd_or].
  - rewrite T_ret_bind, T_assoc.
    destruct (get_child p (on_items (alter (with_next None) b) h) (child np)) as (np' & Hg & Hgc); [cbn; by rewrite child_next, Hnp|].
    T_step Hg. rewrite Hgc, Hhd, T_assoc, T_deref. do 3 T_upd. unfold on_items. cbn [items calls live].
    eexists. split; [reflexivity|]. rewrite app_nil_r. split_and!.
    + apply edits_prev; [apply edits_next; [apply edits_refl|]|]; apply Hin; right; by left.
    + rewrite child_prev, child_next, Hnp. cbn. by rewrite Hhd, Ec.
    + assert (last l = Some b) as -> by (rewrite El; apply last_snoc). specialize (D1 None). rewrite Ec in D1, Hndl |- *.
      rewrite Hprev. eapply dl_first; [|exact D1]. by apply NoDup_cons in Hndl as [? _].
  - assert (Hr0 : is_Some (items h !! r0)) by (eapply dl_lookup; [exact Hr|by left]).
    T_upd. rewrite T_ret_bind. do 2 T_upd. unfold on_items. cbn [items calls live]. eexists. split; [reflexivity|]. split_and!.
    + apply edits_prev; [apply edits_next; [apply edits_refl|]|]; apply Hin; right; [by left|right; by left].
    + rewrite child_prev, child_next, Hnp. cbn. by rewrite Hhd, Ec.
    + assert (last (l ++ r0 :: r1) = last (l ++ k :: r0 :: r1)) as -> by (by rewrite !last_app_cons).
      apply dl_app. rewrite Hlast. split.
      * apply dl_other; [intros Hr1; apply (Hlr r0 Hr1); by left|]. apply D1.
      * rewrite Hprev. eapply dl_first; [by apply NoDup_cons in Hndr as [? _]|]. by apply dl_other; [|exact Hr].
Qed.
End Site.

Lemma DetachItemViaPointer_spec h A p d l k r :
  refines (items h) A -> forest_ok A -> A !! p = Some (d, l ++ k :: r) -> has d cJSON_IsReference = false ->
  exists m', cJSON_DetachItemViaPointer (Some p) (Some k) h = Some (Some k, on_items (fun _ => m') h) /\
    refines m' (set_kids p (l ++ r) A).
Proof.
  intros R Hok Hp Hd. assert (exists m1, detach_links h p k m1 /\ detached h p l k r m1) as (m1 & E & He & Hc & Hl).
  { destruct (decide (l = [])) as [El|Hl]; [by apply (detach_first h A p d l k r)|].
    destruct (exists_last Hl) as (l1 & b & El). by apply (detach_later h A p d l k r R Hok Hp Hd l1 b). }
  exists (cleared k m1). split; [exact E|]. by apply (refines_detach (items h) A p d l k r m1).
Qed.

(** *** A child in the middle *)

Lemma item_at_spec h b ks index : dl (items h) b ks None -> item_at index (head ks) h = Some (ks !! index, h).
Proof.
  revert b index. induction ks as [|k ks IH]; intros b index; [by destruct index|]. intros [(n & Hn & _ & Hx) H].
  destruct index as [|index]; [done|]. cbn [item_at head]. T_step (get_run k h n Hn). rewrite Hx.
  specialize (IH (Some k) index H). by destruct ks.
Qed.

Lemma get_array_item_spec h A p d ks index :
  refines (items h) A -> A !! p = Some (d, ks) -> has d cJSON_IsReference = false ->
  get_array_item (Some p) index h = Some (ks !! index, h).
Proof.
  intros R Hp Hd. destruct (node_of _ _ _ _ R Hp) as (np & Hnp & _). unfold get_array_item. T_step (get_run p h np Hnp).
  pose proof (ref_child _ _ R p d ks np Hp Hnp) as Hc. rewrite Hd in Hc. rewrite Hc.
  pose proof (ref_chain _ _ R p) as Hl. unfold kids in Hl. rewrite Hp in Hl. by eapply item_at_spec.
Qed.

(** An item before [a]. *)
Lemma refines_insert m A p d l a r k m1 :
  refines m A -> forest_ok A -> A !! p = Some (d, l ++ a :: r) -> has d cJSON_IsReference = false -> free_for A p k ->
  edits p (fun q => q ∈ l ++ k :: a :: r) m m1 -> child <$> m1 !! p = Some (head (l ++ k :: a :: r)) ->
  dl m1 (last (l ++ k :: a :: r)) (l ++ k :: a :: r) None -> refines m1 (set_kids p (l ++ k :: a :: r) A).
Proof.
  intros R Hok Hp Hd (Hk & Hor & Hab) [Ed Ec El] Hc Hdl.
  assert (Hsub : forall q, q ∈ l ++ a :: r -> q ∈ l ++ k :: a :: r).
  { intros q [Hq|Hq]%elem_of_app; apply elem_of_app; [by left|right; by right]. }
  apply (refines_set_kids m A p d (l ++ a :: r) (l ++ k :: a :: r) m1); try done.
  - split; [done|done|]. intros q Hq. apply El. tauto.
  - intros q [Hq|[Hq|Hq]%elem_of_cons]%elem_of_app; [left; apply elem_of_app; by left|right; by subst q|left; apply elem_of_app; by right].
  - intros q nq Hq Hq'. destruct Hq'. by apply Hsub.
Qed.

Lemma InsertItemInArray_spec h A p d l a r k :
  refines (items h) A -> forest_ok A -> A !! p = Some (d, l ++ a :: r) -> has d cJSON_IsReference = false -> free_for A p k ->
  exists m', cJSON_InsertItemInArray (Some p) (Z.of_nat (length l)) (Some k) h = Some (true, on_items (fun _ => m') h) /\
    refines m' (set_kids p (l ++ k :: a :: r) A).
Proof.
  intros R Hok Hp Hd Hfree. pose proof Hfree as (Hk & Hor & _).
  destruct (site_kids A p d l a r Hok Hp) as [Hkp Hnd]. destruct (NoDup_middle _ _ _ Hnd) as (Hal & Har & Hlr & Hndl & Hndr).
  pose proof (ref_chain _ _ R p) as Rl. rewrite Hkp in Rl.
  destruct (site_nodes h A p d l a r R Hok Hp Hd) as (np & na & Hnp & Hna & Rc & Hprev & Hnext & Hl & Hr).
  assert (Hkks : k ∉ l ++ a :: r) by (rewrite <- Hkp; apply Hor).
  assert (Hka : k <> a) by (intros ->; apply Hkks, elem_of_app; right; by left).
  assert (Hkl : k ∉ l) by (intros H; apply Hkks, elem_of_app; by left).
  assert (Hkar : k ∉ a :: r) by (intros H; apply Hkks, elem_of_app; by right).
  destruct Hk as [xk Hxk]. destruct (node_of _ _ _ _ R Hxk) as (nk & Hnk & _).
  assert (Hpp : is_Some (items h !! p)) by (by eexists). assert (Hkk : is_Some (items h !! k)) by (by eexists).
  assert (Haa : is_Some (items h !! a)) by (by eexists).
  assert (Hink : k ∈ l ++ k :: a :: r) by (apply elem_of_app; right; by left).
  assert (Hina : a ∈ l ++ k :: a :: r) by (apply elem_of_app; right; right; by left).
  assert (Hfin : forall m1, edits p (fun q => q ∈ l ++ k :: a :: r) (items h) m1 -> child <$> m1 !! p = Some (head (l ++ k :: a :: r)) ->
            dl m1 (last (l ++ k :: a :: r)) (l ++ k :: a :: r) None -> refines m1 (set_kids p (l ++ k :: a :: r) A))
    by (intros m1; by apply (refines_insert (items h) A p d l a r k m1)).
  unfold cJSON_InsertItemInArray. rewrite (proj2 (Z.ltb_ge _ _)) by lia. rewrite Nat2Z.id.
  rewrite (T_run_Some _ _ _ _ _ (get_array_item_spec h A p d _ (length l) R Hp Hd)), list_lookup_middle by done.
  T_step (get_run p h np Hnp). T_step (get_run a h na Hna). rewrite Rc.
  destruct (decide (l = [])) as [->|Hl0].
  - cbn [app head] in *. rewrite bool_decide_eq_true_2 by done. cbn [negb andb]. do 4 T_upd. unfold on_items. cbn [items calls live].
    eexists. split; [reflexivity|]. apply Hfin.
    + eauto 6 with edits.
    + apply child_set_is. by repeat apply alter_is_Some.
    + apply dl_child. split.
      * exists (with_prev (prev na) (with_next (Some a) nk)). rewrite lookup_alter_ne, !lookup_alter_eq, Hnk by done.
        split_and!; [done|by rewrite Hprev|done].
      * eapply dl_first; [done|]. apply dl_other; [done|]. by apply dl_other; [|exact Rl].
  - destruct (exists_last Hl0) as (l1 & b & ->). rewrite last_or_app in Hprev.
    assert (Hb : b ∈ l1 ++ [b]) by (apply elem_of_app; right; by left).
    assert (Hb' : is_Some (items h !! b)) by (eapply dl_lookup; [exact Hl|exact Hb]).
    rewrite bool_decide_eq_false_2.
    2: { intros E. apply Hal. destruct l1 as [|c l1]; injection E as ->; by left. }
    rewrite Hprev. cbn [negb andb]. rewrite bool_decide_eq_false_2 by done. do 3 T_upd. rewrite T_assoc, T_deref. T_upd.
    unfold on_items. cbn [items calls live]. eexists. split; [reflexivity|]. apply Hfin.
    + apply edits_next; [eauto 6 with edits|]. apply elem_of_app. by left.
    + rewrite child_next, !child_prev, child_next, Hnp. cbn. rewrite Rc. by destruct l1.
    + assert (Hb1 : b ∉ l1) by (apply NoDup_app in Hndl as (_ & Hx & _); intros Hb1; apply (Hx b Hb1); by left).
      assert (Hkb : k <> b) by (by intros ->). assert (Hab' : a <> b) by (by intros ->).
      apply dl_app. rewrite last_or_app. split; [|split].
      * apply (dl_last _ _ _ _ (Some a)); [done|]. apply dl_other; [done|]. do 2 (apply dl_other; [done|]).
        rewrite last_app_cons in *. exact Hl.
      * exists (with_prev (Some b) (with_next (Some a) nk)). rewrite !lookup_alter_ne, !lookup_alter_eq, Hnk by done. by split_and!.
      * apply dl_other; [by apply not_elem_of_cons; split; [done|apply Hlr]|]. apply (dl_first _ (Some b)); [done|].
        do 2 (apply dl_other; [done|]). split; [|exact Hr]. exists na. by split_and!.
Qed.
