(* ===== verification/JsonDelete.v ===== *)
(** * Deleting and replacing JSON values

    The blocks of a heap, the tree below an item, and the two functions that
    release it: the items and texts of the tree go, and nothing else. *)

From S2P Require Import Prelude.
From Stdlib Require Import SpecFloat.
From Stdlib Require Import Strings.String.
From S2P Require Import Json.
From S2P Require Import JsonTree.
From S2P Require Import JsonForest.
#[local] Open Scope Z_scope.
#[local] Abbreviation length := List.length.
#[local] Abbreviation concat := List.concat.
#[local] Abbreviation forest := (gmap ptr (payload * list ptr)).

(** ** The blocks of a heap *)

(** A text that is not the item's own belongs to somebody else. *)
Definition payload_ok (d : payload) : Prop :=
  (has d cJSON_IsReference = false -> forall t, valuestring d = Some t -> exists s, t = Own s) /\
  (has d cJSON_StringIsConst = false -> forall t, string d = Some t -> exists s, t = Own s).

Definition own_text (b : bool) (t : option text) : Z := match t with Some _ => Z.b2z b | None => 0 end.

(** The item and the texts that it has to itself. *)
Definition weight (d : payload) : Z :=
  1 + own_text (negb (has d cJSON_IsReference)) (valuestring d) + own_text (negb (has d cJSON_StringIsConst)) (string d).

Definition total (m : gmap ptr cJSON) : Z := map_fold (fun _ d n => weight d + n) 0 (data <$> m).

Lemma total_delete (m : gmap ptr cJSON) p n : m !! p = Some n -> total m = weight (data n) + total (delete p m).
Proof.
  intros H. unfold total. rewrite fmap_delete. apply (map_fold_delete_L (fun _ d x => weight d + x) 0 p (data n) (data <$> m)).
  - intros j1 j2 z1 z2 y _ _ _. lia.
  - by rewrite lookup_fmap, H.
Qed.

Lemma total_data m m' : (forall p, data <$> m' !! p = data <$> m !! p) -> total m' = total m.
Proof. intros H. unfold total. f_equal. apply map_eq. intros p. by rewrite !lookup_fmap. Qed.

Lemma total_insert (m : gmap ptr cJSON) p n : m !! p = None -> total (<[p := n]> m) = weight (data n) + total m.
Proof. intros H. rewrite (total_delete _ p n) by apply lookup_insert_eq. by rewrite delete_insert_id. Qed.

(** ** Trees *)

Inductive tree := Tree (p : ptr) (d : payload) (ts : list tree).

Section tree_nested_ind.
Variable P : tree -> Prop.
Hypothesis HTree : forall p d ts, Forall P ts -> P (Tree p d ts).

Fixpoint tree_nested_ind (t : tree) : P t :=
  match t with
  | Tree p d ts =>
      HTree p d ts ((fix go (ts : list tree) : Forall P ts :=
                       match ts with
                       | [] => Forall_nil_2 _
                       | t :: ts => Forall_cons_2 _ _ _ (tree_nested_ind t) (go ts)
                       end) ts)
  end.
End tree_nested_ind.

Definition root (t : tree) : ptr := match t with Tree p _ _ => p end.
Fixpoint flatten (t : tree) : list ptr := match t with Tree p _ ts => p :: concat (map flatten ts) end.
Definition flattens (ts : list tree) : list ptr := concat (map flatten ts).

(** The heap has the tree. *)
Inductive rep (m : gmap ptr cJSON) : tree -> Prop :=
  | rep_tree p d ts n :
      m !! p = Some n -> data n = d -> payload_ok d ->
      (if has d cJSON_IsReference then ts = [] else child n = head (map root ts)) ->
      dl m (last (map root ts)) (map root ts) None -> Forall (rep m) ts -> rep m (Tree p d ts).

Lemma root_flatten t : root t ∈ flatten t.
Proof. destruct t. by left. Qed.

Lemma flattens_bind ts : flattens ts = ts ≫= flatten.
Proof. unfold flattens. induction ts as [|t ts IH]; [done|]. cbn. by rewrite IH. Qed.

Lemma elem_of_flattens ts q : q ∈ flattens ts <-> exists t, q ∈ flatten t /\ t ∈ ts.
Proof. rewrite flattens_bind. apply list_elem_of_bind. Qed.

Lemma roots_flattens ts q : q ∈ map root ts -> q ∈ flattens ts.
Proof.
  intros (t & -> & Ht)%list_elem_of_fmap. apply elem_of_flattens. exists t. split; [apply root_flatten|done].
Qed.

Lemma rep_agree m m' t : (forall q, q ∈ flatten t -> m' !! q = m !! q) -> rep m t -> rep m' t.
Proof.
  induction t as [p d ts IH] using tree_nested_ind. intros Hag H. inversion H as [? ? ? n Hn Hd Hok Hc Hdl Hts]; subst.
  assert (Hsub : forall q, q ∈ flattens ts -> m' !! q = m !! q) by (intros q Hq; apply Hag; by right).
  apply (rep_tree _ _ _ _ n); try done.
  - rewrite Hag by by left. done.
  - eapply dl_agree; [|exact Hdl]. intros q Hq. by rewrite Hsub by by apply roots_flattens.
  - apply Forall_forall. intros t Ht. rewrite Forall_forall in IH, Hts. apply IH; [done| |by apply Hts].
    intros q Hq. apply Hsub, elem_of_flattens. by exists t.
Qed.

(** Items gone. *)
Definition remove {X} (qs : list ptr) (m : gmap ptr X) : gmap ptr X := foldr delete m qs.

Lemma remove_lookup {X} qs (m : gmap ptr X) q : remove qs m !! q = if decide (q ∈ qs) then None else m !! q.
Proof.
  induction qs as [|r qs IH]; cbn.
  - by rewrite decide_False by apply not_elem_of_nil.
  - destruct (decide (q = r)) as [->|Hne].
    + rewrite lookup_delete_eq, decide_True by by left. done.
    + rewrite lookup_delete_ne by done. fold (remove qs m). rewrite IH. do 2 case_decide; try done.
      * destruct H0. by right.
      * apply elem_of_cons in H0 as [?|?]; contradiction.
Qed.

Lemma remove_app {X} a b (m : gmap ptr X) : remove b (remove a m) = remove (a ++ b) m.
Proof. apply map_eq. intros q. rewrite !remove_lookup. repeat case_decide; set_solver. Qed.

(** *** Deletion *)

Lemma deallocate_own b t h :
  (b = true -> forall x, t = Some x -> exists s, x = Own s) ->
  deallocate_if b t h = Some (tt, mkHeap (items h) (calls h) (live h - own_text b t)).
Proof.
  intros H. destruct t as [t|]; cbn; [|destruct h; cbn; by rewrite Z.sub_0_r].
  destruct b; [|destruct h; cbn; by rewrite Z.sub_0_r]. by destruct (H eq_refl t eq_refl) as [s ->].
Qed.

(** The end of an item: its texts and itself. *)
Lemma deallocate_node_run p n h :
  items h !! p = Some n -> payload_ok (data n) ->
  (deallocate_if (negb (has (data n) cJSON_IsReference)) (valuestring (data n));;
   deallocate_if (negb (has (data n) cJSON_StringIsConst)) (string (data n));; deallocate_item p) h =
  Some (tt, mkHeap (delete p (items h)) (calls h) (live h - weight (data n))).
Proof.
  intros Hn [Hv Hs].
  erewrite T_run_Some by (apply deallocate_own; intros E; by apply Hv, negb_true_iff).
  erewrite T_run_Some by (apply deallocate_own; intros E; by apply Hs, negb_true_iff).
  unfold deallocate_item. cbn [items calls live]. rewrite Hn. cbn. unfold weight. do 3 f_equal. lia.
Qed.

Lemma delete_items_step fuel p n h :
  items h !! p = Some n ->
  delete_items (S fuel) (Some p) h =
  ((if negb (has (data n) cJSON_IsReference) then delete_items fuel (child n) else mret tt);;
   (deallocate_if (negb (has (data n) cJSON_IsReference)) (valuestring (data n));;
    deallocate_if (negb (has (data n) cJSON_StringIsConst)) (string (data n));; deallocate_item p);;
   delete_items fuel (next n)) h.
Proof.
  intros Hn. cbn [delete_items]. T_step (get_run p h n Hn).
  unfold mbind, T_bind. by repeat (case_match; simplify_eq/=).
Qed.

(** The items of the trees go, with their texts. *)
Lemma delete_items_run fuel ts h b :
  (length (flattens ts) <= fuel)%nat -> NoDup (flattens ts) -> dl (items h) b (map root ts) None -> Forall (rep (items h)) ts ->
  exists lv, delete_items fuel (head (map root ts)) h = Some (tt, mkHeap (remove (flattens ts) (items h)) (calls h) lv) /\
    lv - total (remove (flattens ts) (items h)) = live h - total (items h).
Proof.
  revert ts h b. induction fuel as [|fuel IH]; intros [|[p d cs] ts] h b Hf Hnd Hdl Hrep.
  1, 3: exists (live h); by destruct h.
  { cbn in Hf. lia. }
  apply Forall_cons in Hrep as [Ht Hts]. inversion Ht as [? ? ? n Hn Hd Hpay Hc Hdc Hcs]; subst.
  cbn [map root dl] in Hdl. destruct Hdl as [(n' & Hn' & _ & Hnext) Hdl]. rewrite Hn in Hn'. injection Hn' as <-.
  change (flattens (Tree p (data n) cs :: ts)) with (p :: flattens cs ++ flattens ts) in *.
  apply NoDup_cons in Hnd as [Hp (Hndc & Hdis & Hndt)%NoDup_app]. cbn [length] in Hf. rewrite length_app in Hf.
  assert (H1 : exists lv, (if negb (has (data n) cJSON_IsReference) then delete_items fuel (child n) else mret tt) h =
                 Some (tt, mkHeap (remove (flattens cs) (items h)) (calls h) lv) /\
               lv - total (remove (flattens cs) (items h)) = live h - total (items h)).
  { destruct (has (data n) cJSON_IsReference); cbn [negb]; [subst cs; exists (live h); by destruct h|].
    rewrite Hc. eapply IH; [lia|done|exact Hdc|done]. }
  destruct H1 as (lv & E & Hlv). cbn [head map root]. rewrite (delete_items_step fuel p n h Hn). T_step E.
  assert (Hn1 : items (mkHeap (remove (flattens cs) (items h)) (calls h) lv) !! p = Some n)
    by (cbn; rewrite remove_lookup, decide_False; [done|]; intros H; apply Hp, elem_of_app; by left).
  T_step (deallocate_node_run p n _ Hn1 Hpay). cbn [items calls live]. rewrite Hnext.
  assert (Hag : forall q, q ∈ flattens ts -> delete p (remove (flattens cs) (items h)) !! q = items h !! q).
  { intros q Hq. change (delete p (remove (flattens cs) (items h))) with (remove (p :: flattens cs) (items h)).
    rewrite remove_lookup, decide_False; [done|]. set_solver. }
  destruct (IH ts (mkHeap (delete p (remove (flattens cs) (items h))) (calls h) (lv - weight (data n))) (Some p)) as (lv' & E' & Hlv'); [lia|done| | |].
  - eapply dl_agree; [|exact Hdl]. intros q Hq. cbn. by rewrite Hag by by apply roots_flattens.
  - apply Forall_forall. intros t Hin. eapply rep_agree; [|by eapply Forall_forall in Hts].
    intros q Hq. apply Hag, elem_of_flattens. by exists t.
  - assert (remove (p :: flattens cs ++ flattens ts) (items h) = remove (flattens ts) (delete p (remove (flattens cs) (items h)))) as ->
      by (change (delete p (remove (flattens cs) (items h))) with (remove (p :: flattens cs) (items h)); by rewrite remove_app).
    assert (hd_or None (map root ts) = head (map root ts)) as -> by (by destruct ts). exists lv'. split; [exact E'|].
    cbn [items calls live] in Hlv', Hn1. pose proof (total_delete _ p n Hn1). lia.
Qed.

(** *** The trees of a forest *)

Inductive tree_of (A : forest) : tree -> Prop :=
  | tree_of_node p d ts : A !! p = Some (d, map root ts) -> Forall (tree_of A) ts -> tree_of A (Tree p d ts).

Lemma kids_eq A p d ks : A !! p = Some (d, ks) -> kids A p = ks.
Proof. intros H. unfold kids. by rewrite H. Qed.

Lemma kid_is_Some m A p k : refines m A -> k ∈ kids A p -> is_Some (A !! k).
Proof.
  intros [Rd _ Rl _] Hk. destruct (dl_lookup _ _ _ _ k (Rl p) Hk) as [n Hn]. specialize (Rd k). rewrite Hn in Rd.
  destruct (A !! k); [by eexists|done].
Qed.

Lemma tree_exists m A p : refines m A -> forest_ok A -> is_Some (A !! p) -> exists t, root t = p /\ tree_of A t.
Proof.
  intros R [_ Hacc]. induction (Hacc p) as [p _ IH]. intros [[d ks] Hp].
  assert (Hks : Forall (fun k => exists t, root t = k /\ tree_of A t) ks).
  { apply Forall_forall. intros k Hk. rewrite <- (kids_eq A p d ks Hp) in Hk. apply IH; [done|by eapply kid_is_Some]. }
  apply Forall_exists_Forall2_l in Hks as [ts Hts]. exists (Tree p d ts). split; [done|].
  assert (map root ts = ks /\ Forall (tree_of A) ts) as [Hm Hf].
  { clear -Hts. induction Hts as [|k t ks ts [Hr Ht] _ [IH1 IH2]]; [done|]. cbn. rewrite Hr, IH1. by split; [|constructor]. }
  constructor; [by rewrite Hm|done].
Qed.

Lemma flatten_above A t q : tree_of A t -> q ∈ flatten t -> above A (root t) q.
Proof.
  revert q. induction t as [p d ts IH] using tree_nested_ind. intros q H. inversion H as [? ? ? Hp Hts]; subst.
  intros [->|(t & Hq & Ht)%elem_of_flattens]%elem_of_cons; [apply rtc_refl|]. rewrite Forall_forall in IH, Hts.
  eapply above_kid; [|apply (IH t Ht q (Hts t Ht) Hq)]. cbn [root]. rewrite (kids_eq _ _ _ _ Hp). by apply list_elem_of_fmap_2.
Qed.

Lemma flatten_kids A t p k : tree_of A t -> p ∈ flatten t -> k ∈ kids A p -> k ∈ flatten t.
Proof.
  induction t as [r d ts IH] using tree_nested_ind. intros H. inversion H as [? ? ? Hr Hts]; subst. rewrite Forall_forall in IH, Hts.
  intros [->|(t & Hq & Ht)%elem_of_flattens]%elem_of_cons Hk; right.
  - rewrite (kids_eq _ _ _ _ Hr) in Hk. by apply roots_flattens.
  - apply elem_of_flattens. exists t. split; [|done]. by apply IH; [|apply Hts| |].
Qed.

Lemma flatten_parent A t q : tree_of A t -> q ∈ flatten t -> q = root t \/ exists p, p ∈ flatten t /\ q ∈ kids A p.
Proof.
  induction t as [r d ts IH] using tree_nested_ind. intros H. inversion H as [? ? ? Hr Hts]; subst. rewrite Forall_forall in IH, Hts.
  intros [->|(t & Hq & Ht)%elem_of_flattens]%elem_of_cons; [by left|right].
  destruct (IH t Ht (Hts t Ht) Hq) as [->|(p & Hp & Hk)].
  - exists r. split; [by left|]. rewrite (kids_eq _ _ _ _ Hr). by apply list_elem_of_fmap_2.
  - exists p. split; [|done]. right. apply elem_of_flattens. by exists t.
Qed.

Lemma flatten_in A t q : tree_of A t -> q ∈ flatten t -> is_Some (A !! q).
Proof.
  induction t as [r d ts IH] using tree_nested_ind. intros H. inversion H as [? ? ? Hr Hts]; subst. rewrite Forall_forall in IH, Hts.
  intros [->|(t & Hq & Ht)%elem_of_flattens]%elem_of_cons; [by eexists|]. by apply (IH t Ht (Hts t Ht)).
Qed.

(** What is below two children of an item is below the same child. *)
Lemma above_siblings A p k1 k2 q :
  forest_ok A -> k1 ∈ kids A p -> k2 ∈ kids A p -> above A k1 q -> above A k2 q -> k1 = k2.
Proof.
  intros Hok H1 H2 Ha. revert k2 H2. pattern q. revert q Ha. apply rtc_ind_r; [|intros z q Ha Hz IH]; intros k2 H2 Hb.
  - apply rtc_inv_r in Hb as [->|(z & Hb & Hz)]; [done|]. pose proof (same_parent A z p k1 Hok Hz H1) as ->.
    by destruct (not_above_kid A p k2 Hok H2).
  - apply rtc_inv_r in Hb as [->|(z' & Hb & Hz')].
    + pose proof (same_parent A z p q Hok Hz H2) as ->. by destruct (not_above_kid A p k1 Hok H1).
    + pose proof (same_parent A z z' q Hok Hz Hz') as ->. by apply IH.
Qed.

Lemma flatten_NoDup A t : forest_ok A -> tree_of A t -> NoDup (flatten t).
Proof.
  intros Hok. induction t as [p d ts IH] using tree_nested_ind. intros H. inversion H as [? ? ? Hp Hts]; subst.
  rewrite Forall_forall in IH, Hts. apply kids_eq in Hp as Hk.
  assert (Hroot : forall t, t ∈ ts -> root t ∈ kids A p) by (intros t Ht; rewrite Hk; by apply list_elem_of_fmap_2).
  assert (Hnd : NoDup (map root ts)) by (rewrite <- Hk; by apply one_place_NoDup).
  cbn [flatten]. fold (flattens ts). constructor.
  - intros (t & Hq & Ht)%elem_of_flattens. apply (not_above_kid A p (root t) Hok (Hroot t Ht)). by apply flatten_above; [apply Hts|].
  - rewrite flattens_bind. apply NoDup_bind; [|intros t Ht; by apply IH, Hts|by apply NoDup_fmap_1 in Hnd].
    intros t1 t2 q Ht1 Ht2 Hq1 Hq2.
    assert (E : root t1 = root t2) by (eapply (above_siblings A p); eauto using flatten_above).
    apply list_elem_of_lookup in Ht1 as [i Hi], Ht2 as [j Hj].
    assert (i = j) as ->; [|congruence]. apply (NoDup_lookup (root <$> ts) i j (root t1)); [done| |].
    + by rewrite list_lookup_fmap, Hi.
    + by rewrite list_lookup_fmap, Hj, E.
Qed.

Definition payloads_ok (A : forest) : Prop := forall p d ks, A !! p = Some (d, ks) -> payload_ok d.

Lemma tree_rep m A t : refines m A -> payloads_ok A -> tree_of A t -> rep m t.
Proof.
  intros R Hpay. induction t as [p d ts IH] using tree_nested_ind. intros H. inversion H as [? ? ? Hp Hts]; subst.
  rewrite Forall_forall in IH, Hts. destruct (node_of _ _ _ _ R Hp) as (n & Hn & Hd). apply (rep_tree _ _ _ _ n); try done.
  - by apply (Hpay p d (map root ts)).
  - pose proof (ref_child _ _ R p d _ n Hp Hn) as Hc. case_match; [by apply map_eq_nil in Hc|done].
  - pose proof (ref_chain _ _ R p) as Hc. by rewrite (kids_eq _ _ _ _ Hp) in Hc.
  - apply Forall_forall. intros t Ht. by apply IH; [|apply Hts].
Qed.

(** *** Forests without some trees *)

(** The children of what goes, go; what has a parent that stays, stays. *)
Definition uprooted (A : forest) (qs : list ptr) : Prop := forall p k, k ∈ kids A p -> (p ∈ qs <-> k ∈ qs).

Lemma uprooted_tree A t : forest_ok A -> tree_of A t -> orphan A (root t) -> uprooted A (flatten t).
Proof.
  intros Hok Ht Hor p k Hk. split; intros H; [by eapply flatten_kids|].
  destruct (flatten_parent A t k Ht H) as [->|(p' & Hp' & Hk')]; [by destruct (Hor p)|]. by rewrite (same_parent A p p' k).
Qed.

Lemma kids_remove A qs p : kids (remove qs A) p = if decide (p ∈ qs) then [] else kids A p.
Proof. unfold kids. rewrite remove_lookup. by case_decide. Qed.

Lemma orphan_remove A qs k : uprooted A qs -> k ∉ qs -> orphan (remove qs A) k <-> orphan A k.
Proof.
  intros Hu Hk. unfold orphan. split; intros H p Hp; specialize (H p); rewrite kids_remove in *; case_decide as Hq.
  - by apply (Hu p k Hp) in Hq.
  - done.
  - by apply not_elem_of_nil in Hp.
  - done.
Qed.

Lemma forest_ok_remove A qs : forest_ok A -> forest_ok (remove qs A).
Proof.
  intros [Hone Hacc]. split.
  - intros p q i j k. rewrite !kids_remove. repeat case_decide; rewrite ?lookup_nil; try done. by apply Hone.
  - intros p. induction (Hacc p) as [p _ IH]. constructor. intros c Hc. apply IH. rewrite kids_remove in Hc.
    case_decide; [by apply not_elem_of_nil in Hc|done].
Qed.

Lemma refines_remove m A qs : refines m A -> uprooted A qs -> refines (remove qs m) (remove qs A).
Proof.
  intros [Rd Rc Rl Ro] Hu. split.
  - intros p. rewrite !remove_lookup. by case_decide.
  - intros p d ks n. rewrite !remove_lookup. case_decide; [done|]. by apply Rc.
  - intros p. rewrite kids_remove. case_decide as Hp; [done|]. eapply dl_agree; [|apply Rl].
    intros k Hk. rewrite remove_lookup, decide_False; [done|]. intros Hq. by apply Hp, (Hu p k).
  - intros p n. rewrite remove_lookup. case_decide as Hp; [done|]. intros Hn Hor. apply (Ro p n Hn). by apply (orphan_remove A qs p).
Qed.

(** ** The heap of a forest, with its blocks *)

(** [base] blocks are live that are not of the items. *)
Record represents (base : Z) (h : heap) (A : forest) : Prop := {
  rp_refines : refines (items h) A;
  rp_ok : forest_ok A;
  rp_payloads : payloads_ok A;
  rp_live : live h = base + total (items h);
}.

Lemma length_dom {X} (l : list ptr) (m : gmap ptr X) : NoDup l -> (forall q, q ∈ l -> is_Some (m !! q)) -> (length l <= size m)%nat.
Proof.
  intros Hnd H. rewrite <- (size_list_to_set (C := gset ptr) l Hnd), <- size_dom. apply subseteq_size. intros q.
  rewrite elem_of_list_to_set, elem_of_dom. apply H.
Qed.

(** The item and all that is below it go. *)
Lemma Delete_spec base h A p :
  represents base h A -> is_Some (A !! p) -> orphan A p ->
  exists t h', root t = p /\ tree_of A t /\ cJSON_Delete (Some p) h = Some (tt, h') /\ represents base h' (remove (flatten t) A).
Proof.
  intros [R Hok Hpay Hlive] Hp Hor. destruct (tree_exists _ A p R Hok Hp) as (t & <- & Ht).
  pose proof (tree_rep _ A t R Hpay Ht) as Hrep. pose proof (flatten_NoDup A t Hok Ht) as Hnd.
  assert (Hfl : flattens [t] = flatten t) by (unfold flattens; cbn; by rewrite app_nil_r).
  assert (Hin : forall q, q ∈ flatten t -> is_Some (items h !! q)).
  { intros q Hq. destruct (flatten_in A t q Ht Hq) as [x Hx]. destruct (node_of _ _ _ _ R Hx) as (n & Hn & _). by eexists. }
  destruct (Hin (root t) (root_flatten t)) as [n Hn]. destruct (ref_orphan _ _ R _ n Hn Hor) as [Hnx Hpv].
  destruct (delete_items_run (S (size (items h))) [t] h None) as (lv & E & Hlv).
  - rewrite Hfl. pose proof (length_dom (flatten t) (items h) Hnd Hin). lia.
  - by rewrite Hfl.
  - split; [|done]. by exists n.
  - by constructor.
  - rewrite Hfl in *. exists t. eexists. split_and!; [done|done| |].
    + unfold cJSON_Delete, siblings_fuel, mbind, T_bind. exact E.
    + split; cbn [items live]; [|by apply forest_ok_remove| |lia].
      * apply refines_remove; [done|by apply uprooted_tree].
      * intros q d ks. rewrite remove_lookup. case_decide; [done|]. apply Hpay.
Qed.

Lemma payloads_set_kids A p ks : payloads_ok A -> payloads_ok (set_kids p ks A).
Proof.
  intros H q d ls. destruct (decide (p = q)) as [<-|]; [|rewrite set_kids_ne by done; apply H].
  rewrite set_kids_eq. destruct (A !! p) as [[e js]|] eqn:E; [|done]. intros [= <- <-]. by apply (H p e js).
Qed.

Lemma total_refines m m' A p ks : refines m A -> refines m' (set_kids p ks A) -> total m' = total m.
Proof.
  intros [R _ _ _] [R' _ _ _]. apply total_data. intros q. rewrite R, R'.
  destruct (decide (p = q)) as [<-|]; [|by rewrite set_kids_ne]. rewrite set_kids_eq. by destruct (A !! p).
Qed.

Lemma represents_set_kids base h A p ks m' :
  represents base h A -> refines m' (set_kids p ks A) -> forest_ok (set_kids p ks A) ->
  represents base (on_items (fun _ => m') h) (set_kids p ks A).
Proof.
  intros [R Hok Hpay Hl] R' Hok'. split; [done|done|by apply payloads_set_kids|].
  cbn. by rewrite Hl, (total_refines (items h) m' A p ks).
Qed.

(** *** An item in the place of another *)

Lemma dl_join m b l k r a n :
  dl m b l (Some k) -> m !! k = Some n -> prev n = last_or b l -> next n = hd_or a r -> dl m (Some k) r a -> dl m b (l ++ k :: r) a.
Proof. intros Hl Hk Hp Hn Hr. apply dl_app. split; [done|]. split; [by exists n|done]. Qed.

Lemma dl_first_hd m b b' ks k r a : ks = k :: r -> NoDup ks -> dl m b ks a -> dl (alter (with_prev b') k m) b' ks a.
Proof. intros -> [Hk _]%NoDup_cons. by apply dl_first. Qed.

(** The links around [x], and those of the first item. *)
Definition replaced_links (nk : cJSON) (k x : ptr) (m : gmap ptr cJSON) : gmap ptr cJSON :=
  let m := alter (with_prev (prev nk)) x (alter (with_next (next nk)) x m) in
  match next nk with Some after => alter (with_prev (Some x)) after m | None => m end.

Lemma cleared_swap k (m : gmap ptr cJSON) : alter (with_prev None) k (alter (with_next None) k m) = cleared k m.
Proof. unfold cleared. by rewrite !alter_alter_eq. Qed.

Lemma replace_tail k m1 h :
  is_Some (m1 !! k) ->
  (upd (with_next None) k;; upd (with_prev None) k;; cJSON_Delete (Some k);; mret true) (on_items (fun _ => m1) h) =
  (cJSON_Delete (Some k);; mret true) (on_items (fun _ => cleared k m1) h).
Proof. intros Hk. do 2 T_upd. unfold on_items. cbn [items calls live]. by rewrite cleared_swap. Qed.

Section Replace.
Context (h : heap) (A : forest) (p : ptr) (d : payload) (l : list ptr) (k : ptr) (r : list ptr) (x : ptr).
Context (R : refines (items h) A) (Hok : forest_ok A) (Hp : A !! p = Some (d, l ++ k :: r)).
Context (Hd : has d cJSON_IsReference = false) (Hx : free_for A p x).

(** What an edit of the links must give. *)
Definition replaced (m1 : gmap ptr cJSON) : Prop :=
  edits p (fun q => q ∈ l ++ k :: r \/ q ∈ l ++ x :: r) (items h) m1 /\ child <$> m1 !! p = Some (head (l ++ x :: r)) /\
  dl m1 (last (l ++ x :: r)) (l ++ x :: r) None.

Lemma refines_replaced m1 :
  replaced m1 -> refines (cleared k m1) (set_kids p (l ++ x :: r) A).
Proof.
  intros ([Ed Ec El] & Hc & Hdl). pose proof Hx as (_ & Hor & _).
  assert (Hnd : NoDup (l ++ k :: r)) by (rewrite <- (kids_eq A p d _ Hp); by apply one_place_NoDup).
  destruct (NoDup_middle _ _ _ Hnd) as (Hkl & Hkr & _). assert (Hk : k ∈ l ++ k :: r) by (apply elem_of_app; right; by left).
  assert (Hxk : x <> k) by (intros ->; apply (Hor p); by rewrite (kids_eq A p d _ Hp)).
  apply (refines_set_kids (items h) A p d (l ++ k :: r) (l ++ x :: r) (cleared k m1)); try done.
  - apply edits_next; [apply edits_prev; [|by left]|by left]. by split.
  - by rewrite child_cleared.
  - apply dl_cleared; [|done]. intros [H|[H|H]%elem_of_cons]%elem_of_app; congruence.
  - intros q [Hq|[->|Hq]%elem_of_cons]%elem_of_app; [left|by right|left]; apply elem_of_app; [by left|right; by right].
  - intros q nq Hq Hq' Hnq. assert (q = k) as ->; [|by eapply cleared_at].
    apply elem_of_app in Hq as [Hq|[Hq|Hq]%elem_of_cons]; [|done|]; destruct Hq'; apply elem_of_app; [by left|right; by right].
Qed.

Lemma replaced_item : k ∉ l /\ k ∉ r /\ x ∉ l /\ x ∉ r /\ x <> k /\ NoDup l /\ NoDup r /\ (forall q, q ∈ l -> q ∉ r).
Proof.
  pose proof Hx as (_ & Hor & _). specialize (Hor p). rewrite (kids_eq A p d _ Hp) in Hor.
  assert (Hnd : NoDup (l ++ k :: r)) by (rewrite <- (kids_eq A p d _ Hp); by apply one_place_NoDup).
  destruct (NoDup_middle _ _ _ Hnd) as (? & ? & ? & ? & ?). rewrite elem_of_app, elem_of_cons in Hor. split_and!; tauto.
Qed.

(** The item and the replacement, and the links. *)
Lemma replaced_nodes : exists np nk nx, items h !! p = Some np /\ items h !! k = Some nk /\ items h !! x = Some nx /\
  child np = head (l ++ k :: r) /\ prev nk = last_or (last (l ++ k :: r)) l /\ next nk = hd_or None r /\
  dl (items h) (last (l ++ k :: r)) l (Some k) /\ dl (items h) (Some k) r None.
Proof.
  destruct (node_of _ _ _ _ R Hp) as (np & Hnp & _). pose proof (ref_child _ _ R p d _ np Hp Hnp) as Hc. rewrite Hd in Hc.
  pose proof (ref_chain _ _ R p) as Hl. rewrite (kids_eq A p d _ Hp) in Hl. apply dl_middle in Hl as (Hl & (nk & Hnk & Hpk & Hxk) & Hr).
  destruct Hx as ([y Hy] & _ & _). destruct (node_of _ _ _ _ R Hy) as (nx & Hnx & _). by exists np, nk, nx.
Qed.

Definition replace_links (m1 : gmap ptr cJSON) : Prop :=
  cJSON_ReplaceItemViaPointer (Some p) (Some k) (Some x) h = (cJSON_Delete (Some k);; mret true) (on_items (fun _ => cleared k m1) h).

Lemma replace_close m1 :
  cJSON_ReplaceItemViaPointer (Some p) (Some k) (Some x) h =
    (upd (with_next None) k;; upd (with_prev None) k;; cJSON_Delete (Some k);; mret true) (on_items (fun _ => m1) h) ->
  replaced m1 -> exists m1, replace_links m1 /\ replaced m1.
Proof.
  intros E Hm. exists m1. split; [|done]. unfold replace_links. rewrite E. apply replace_tail.
  destruct replaced_nodes as (np & nk & nx & _ & Hnk & _). destruct Hm as [He _]. eapply edits_is_Some; [exact He|by eexists].
Qed.

Lemma replace_first : l = [] -> exists m1, replace_links m1 /\ replaced m1.
Proof.
  intros El. pose proof replace_close as Hclose. unfold replaced in Hclose at 1.
  destruct replaced_item as (_ & Hkr & _ & Hxr & Hxk & _ & Hndr & _).
  destruct replaced_nodes as (np & nk & nx & Hnp & Hnk & Hnx & Hc & Hprev & Hnext & _ & Hr).
  rewrite El in *. cbn [app head] in *. assert (Hpp : is_Some (items h !! p)) by (by eexists).
  assert (Hxx : is_Some (items h !! x)) by (by eexists). assert (Hkk : is_Some (items h !! k)) by (by eexists).
  unfold cJSON_ReplaceItemViaPointer in Hclose. revert Hclose.
  T_step (get_run p h np Hnp). rewrite Hc, (proj2 (Nat.eqb_neq _ _) Hxk).
  T_step (get_run k h nk Hnk). do 2 T_upd. rewrite Nat.eqb_refl, Hnext, Hprev.
  destruct r as [|r0 r1]; cbn [hd_or last_or last app head] in *.
  - rewrite T_ret_bind, T_assoc. erewrite T_run_Some by (apply get_run; cbn; rewrite !lookup_alter_ne by done; exact Hnk).
    rewrite bool_decide_eq_true_2 by done. rewrite T_assoc. do 2 T_upd. intros Hclose. eapply Hclose; [reflexivity|]. cbn [items on_items]. split_and!.
    + apply edits_child_alter, edits_prev; [|right; by left]. apply edits_prev; [|right; by left].
      apply edits_next; [apply edits_refl|right; by left].
    + apply child_set_is. by repeat apply alter_is_Some.
    + apply dl_child. split; [|done]. exists (with_prev (Some x) (with_prev (Some k) (with_next None nx))).
      by rewrite !lookup_alter_eq, Hnx.
  - assert (Hr0 : is_Some (items h !! r0)) by (eapply dl_lookup; [exact Hr|by left]).
    assert (Hxr0 : x <> r0 /\ k <> r0) by (split; intros ->; [apply Hxr|apply Hkr]; by left). destruct Hxr0 as [Hxr0 Hkr0].
    T_upd. rewrite T_assoc. erewrite T_run_Some by (apply get_run; cbn; rewrite !lookup_alter_ne by done; exact Hnk).
    rewrite bool_decide_eq_false_2. 2: { rewrite Hprev. intros E. by apply Hkr, last_Some_elem_of. }
    rewrite T_assoc, T_ret_bind. T_upd. intros Hclose. eapply Hclose; [reflexivity|]. cbn [items on_items]. split_and!.
    + apply edits_child_alter, edits_prev; [|left; right; by left]. apply edits_prev; [|right; by left].
      apply edits_next; [apply edits_refl|right; by left].
    + apply child_set_is. by repeat apply alter_is_Some.
    + apply dl_child, (dl_join _ _ [] _ _ _ (with_prev (prev nk) (with_next (next nk) nx))); [done| |by rewrite Hprev|by rewrite Hnext|].
      * rewrite lookup_alter_ne, !lookup_alter_eq, Hnx by done. by rewrite Hprev, Hnext.
      * eapply dl_first_hd; [done|done|]. apply dl_other; [done|]. apply dl_other; [done|]. exact Hr.
Qed.

Lemma replace_later l1 b : l = l1 ++ [b] -> exists m1, replace_links m1 /\ replaced m1.
Proof.
  intros El. pose proof replace_close as Hclose. unfold replaced in Hclose at 1.
  destruct replaced_item as (Hkl & Hkr & Hxl & Hxr & Hxk & Hndl & Hndr & Hlr).
  destruct replaced_nodes as (np & nk & nx & Hnp & Hnk & Hnx & Hc & Hprev & Hnext & Hl & Hr).
  rewrite El, last_or_app in *. assert (Hpp : is_Some (items h !! p)) by (by eexists).
  assert (Hxx : is_Some (items h !! x)) by (by eexists). assert (Hkk : is_Some (items h !! k)) by (by eexists).
  assert (Hb : b ∈ l1 ++ [b]) by (apply elem_of_app; right; by left).
  assert (Hb' : is_Some (items h !! b)) by (eapply dl_lookup; [exact Hl|exact Hb]).
  assert (exists c l2, l1 ++ [b] = c :: l2) as (c & l2 & Ec) by (destruct l1 as [|c l1]; eauto).
  assert (Hcl : c ∈ l1 ++ [b]) by (rewrite Ec; by left).
  assert (Hc' : is_Some (items h !! c)) by (eapply dl_lookup; [exact Hl|exact Hcl]).
  assert (Hck : c <> k) by (by intros ->). assert (Hb1 : b ∉ l1) by (intros Hb1; apply NoDup_app in Hndl as (_ & H & _); apply (H b Hb1); by left).
  assert (Hxb : x <> b) by (by intros ->). assert (Hxc : x <> c) by (by intros ->).
  assert (Hh : child np = Some c) by (rewrite Hc, Ec; done).
  assert (HS : forall q, q = x \/ q ∈ l1 ++ [b] \/ q ∈ r -> q ∈ (l1 ++ [b]) ++ k :: r \/ q ∈ (l1 ++ [b]) ++ x :: r).
  { intros q [->|[Hq|Hq]]; right; apply elem_of_app; [right; by left|by left|right; by right]. }
  unfold cJSON_ReplaceItemViaPointer in Hclose. revert Hclose.
  T_step (get_run p h np Hnp). rewrite Hh, (proj2 (Nat.eqb_neq _ _) Hxk).
  T_step (get_run k h nk Hnk). do 2 T_upd. rewrite (proj2 (Nat.eqb_neq _ _) Hck), Hnext, Hprev.
  destruct r as [|r0 r1]; cbn [hd_or] in *.
  - rewrite T_ret_bind, T_assoc. T_upd. T_upd. intros Hclose. eapply Hclose; [reflexivity|]. cbn [items on_items]. split_and!.
    + apply edits_prev; [|by apply HS; right; left]. apply edits_next; [|by apply HS; right; left].
      apply edits_prev; [|by apply HS; left]. apply edits_next; [apply edits_refl|by apply HS; left].
    + rewrite child_prev, child_next, child_prev, child_next, Hnp. cbn. by rewrite Hh, Ec.
    + rewrite last_snoc. apply (dl_join _ _ (l1 ++ [b]) x [] None (with_prev (Some b) (with_next None nx))); [| |by rewrite last_or_app| |done].
      * eapply dl_first_hd; [exact Ec|done|]. apply (dl_last _ _ _ _ (Some k)); [done|]. apply dl_other; [done|]. apply dl_other; [done|]. exact Hl.
      * rewrite !lookup_alter_ne, !lookup_alter_eq, Hnx by congruence. reflexivity.
      * done.
  - assert (Hr0 : is_Some (items h !! r0)) by (eapply dl_lookup; [exact Hr|by left]).
    assert (Hxr0 : x <> r0) by (intros ->; apply Hxr; by left). assert (Hr0l : r0 ∉ l1 ++ [b]) by (intros H; apply (Hlr _ H); by left).
    T_upd. rewrite T_assoc. T_upd. rewrite T_ret_bind. intros Hclose. eapply Hclose; [reflexivity|]. cbn [items on_items]. split_and!.
    + apply edits_next; [|by apply HS; right; left]. apply edits_prev; [|by apply HS; right; right; left].
      apply edits_prev; [|by apply HS; left]. apply edits_next; [apply edits_refl|by apply HS; left].
    + rewrite child_next, child_prev, child_prev, child_next, Hnp. cbn. by rewrite Hh, Ec.
    + apply (dl_join _ _ (l1 ++ [b]) x (r0 :: r1) None (with_prev (Some b) (with_next (Some r0) nx))); [| |by rewrite last_or_app| |].
      * apply (dl_last _ _ _ _ (Some k)); [done|]. do 3 (apply dl_other; [done|]). rewrite last_app_cons in *. exact Hl.
      * rewrite !lookup_alter_ne, !lookup_alter_eq, Hnx by congruence. reflexivity.
      * done.
      * apply dl_other; [by apply Hlr|]. eapply dl_first_hd; [done|done|]. do 2 (apply dl_other; [done|]). exact Hr.
Qed.

Lemma replace_run : exists m1, replace_links m1 /\ replaced m1.
Proof.
  destruct (decide (l = [])) as [El|Hl]; [by apply replace_first|].
  destruct (exists_last Hl) as (l1 & b & El). by apply (replace_later l1 b).
Qed.

Lemma forest_ok_replaced : forest_ok (set_kids p (l ++ x :: r) A) /\ orphan (set_kids p (l ++ x :: r) A) k.
Proof.
  destruct replaced_item as (Hkl & Hkr & Hxl & Hxr & Hxk & Hndl & Hndr & Hlr). pose proof Hx as (_ & Hor & Hab).
  assert (HpS : is_Some (A !! p)) by (by eexists). assert (Hkp := kids_eq A p d _ Hp). split.
  - apply forest_ok_set_kids; [done|done| | |].
    + apply NoDup_app. split_and!; [done| |by constructor]. intros q Hq [->|Hq']%elem_of_cons; [done|by apply (Hlr q)].
    + intros q [Hq|[->|Hq]%elem_of_cons]%elem_of_app; [left|by right|left]; rewrite Hkp; apply elem_of_app; [by left|right; by right].
    + intros q [Hq|[->|Hq]%elem_of_cons]%elem_of_app; [|done|]; apply not_above_kid; try done; rewrite Hkp; apply elem_of_app; [by left|right; by right].
  - intros q Hq. rewrite kids_set in Hq by done. case_decide as Hqp.
    + apply elem_of_app in Hq as [Hq|[Hq|Hq]%elem_of_cons]; congruence.
    + apply Hqp, (same_parent A q p k Hok Hq). rewrite Hkp. apply elem_of_app. right. by left.
Qed.
End Replace.

(** The replacement takes the place, and the item goes with all below it. *)
Lemma ReplaceItemViaPointer_spec base h A p d l k r x :
  represents base h A -> A !! p = Some (d, l ++ k :: r) -> has d cJSON_IsReference = false -> free_for A p x ->
  exists t h', root t = k /\ tree_of (set_kids p (l ++ x :: r) A) t /\
    cJSON_ReplaceItemViaPointer (Some p) (Some k) (Some x) h = Some (true, h') /\
    represents base h' (remove (flatten t) (set_kids p (l ++ x :: r) A)).
Proof.
  intros Rep Hp Hd Hx. pose proof Rep as [R Hok _ _].
  destruct (replace_run h A p d l k r x R Hok Hp Hd Hx) as (m1 & Hrun & Hm1).
  destruct (forest_ok_replaced A p d l k r x Hok Hp Hx) as [Hok' Hor].
  pose proof (refines_replaced h A p d l k r x R Hok Hp Hd Hx m1 Hm1) as R'.
  pose proof (represents_set_kids base h A p _ _ Rep R' Hok') as Rep'.
  assert (Hk : is_Some (set_kids p (l ++ x :: r) A !! k)).
  { destruct (kid_is_Some _ A p k R) as [y Hy]; [rewrite (kids_eq A p d _ Hp); apply elem_of_app; right; by left|].
    unfold set_kids. apply alter_is_Some. by eexists. }
  destruct (Delete_spec base _ _ k Rep' Hk Hor) as (t & h' & Ht & Htree & E & Rep'').
  exists t, h'. split_and!; [done|done| |done]. rewrite Hrun. by T_step E.
Qed.
