(* ===== verification/JsonClient.v ===== *)
(** * Clients of JSON values

    The functions that make, name and find items, and the calls of a client:
    after any legal sequence of them the heap is that of the forest that the
    calls have on lists of children, and no block is lost. *)

From S2P Require Import Prelude.
From Stdlib Require Import SpecFloat.
From Stdlib Require Import Strings.String.
From S2P Require Import Json.
From S2P Require Import JsonTree.
From S2P Require Import JsonForest.
From S2P Require Import JsonDelete.
#[local] Open Scope Z_scope.
#[local] Abbreviation length := List.length.
#[local] Abbreviation concat := List.concat.
#[local] Abbreviation forest := (gmap ptr (payload * list ptr)).

(** ** New items and new data *)

Lemma kids_None A p : A !! p = None -> kids A p = [].
Proof. intros H. unfold kids. by rewrite H. Qed.

Lemma refines_None m A p : refines m A -> m !! p = None -> A !! p = None.
Proof. intros [Rd _ _ _] H. specialize (Rd p). rewrite H in Rd. by destruct (A !! p). Qed.

Lemma forest_ok_kids A A' : (forall q, kids A' q = kids A q) -> forest_ok A -> forest_ok A'.
Proof.
  intros E [Hone Hacc]. split.
  - intros p q i j k. rewrite !E. apply Hone.
  - intros p. induction (Hacc p) as [p _ IH]. constructor. intros c Hc. apply IH. by rewrite <- E.
Qed.

Lemma above_kids A A' p q : (forall q, kids A' q = kids A q) -> above A' p q -> above A p q.
Proof. intros E H. induction H as [|p c q Hc _ IH]; [apply rtc_refl|]. apply (above_kid A p c q); [by rewrite <- E|done]. Qed.

Lemma free_for_kids A A' p k :
  (forall q, kids A' q = kids A q) -> is_Some (A' !! k) -> free_for A p k -> free_for A' p k.
Proof.
  intros E Hk (_ & Hor & Hab). split_and!; [done| |].
  - intros q. rewrite E. apply Hor.
  - intros H. by apply Hab, (above_kids A A').
Qed.

Lemma kids_insert_new A p d q : A !! p = None -> kids (<[p := (d, [])]> A) q = kids A q.
Proof.
  intros H. destruct (decide (p = q)) as [<-|]; [rewrite (kids_None A p H)|]; unfold kids.
  - by rewrite lookup_insert_eq.
  - by rewrite lookup_insert_ne.
Qed.

Lemma represents_new base h A p n cs :
  represents base h A -> items h !! p = None -> next n = None -> prev n = None ->
  (has (data n) cJSON_IsReference = false -> child n = None) -> payload_ok (data n) ->
  represents base (mkHeap (<[p := n]> (items h)) cs (live h + weight (data n))) (<[p := (data n, [])]> A).
Proof.
  intros [[Rd Rc Rl Ro] Hok Hpay Hl] Hp Hnx Hpv Hch Hd. assert (HA : A !! p = None) by (eapply refines_None; [by split|done]).
  assert (Hne : forall q k, k ∈ kids A q -> p <> k).
  { intros q k Hk <-. destruct (dl_lookup _ _ _ _ p (Rl q) Hk) as [x Hx]. congruence. }
  split; cbn [items live].
  - split.
    + intros q. destruct (decide (p = q)) as [<-|]; [by rewrite !lookup_insert_eq|by rewrite !lookup_insert_ne].
    + intros q d ks nq. destruct (decide (p = q)) as [<-|]; [|rewrite !lookup_insert_ne by done; apply Rc].
      rewrite !lookup_insert_eq. intros [= <- <-] [= <-]. destruct (has (data n) cJSON_IsReference); [done|by apply Hch].
    + intros q. rewrite kids_insert_new by done. eapply dl_agree; [|apply Rl]. intros k Hk. rewrite lookup_insert_ne; [done|by eapply Hne].
    + intros q nq. destruct (decide (p = q)) as [<-|]; [rewrite lookup_insert_eq; by intros [= <-]|].
      rewrite lookup_insert_ne by done. intros Hq Hor. apply (Ro q nq Hq). intros r. specialize (Hor r). by rewrite kids_insert_new in Hor.
  - eapply forest_ok_kids; [|exact Hok]. intros q. by apply kids_insert_new.
  - intros q d ks. destruct (decide (p = q)) as [<-|]; [rewrite lookup_insert_eq; by intros [= <- <-]|].
    rewrite lookup_insert_ne by done. apply Hpay.
  - rewrite total_insert by done. lia.
Qed.

(** The item [p] holds [d]. *)
Definition set_data (p : ptr) (d : payload) (A : forest) : forest := alter (fun x => (d, snd x)) p A.

Lemma kids_set_data A p d q : kids (set_data p d A) q = kids A q.
Proof.
  unfold kids, set_data. destruct (decide (p = q)) as [<-|]; [rewrite lookup_alter_eq; by destruct (A !! p)|by rewrite lookup_alter_ne].
Qed.

Lemma total_set_data (m : gmap ptr cJSON) p n d :
  m !! p = Some n -> total (alter (with_data d) p m) = total m - weight (data n) + weight d.
Proof.
  intros H. rewrite (total_delete (alter (with_data d) p m) p (with_data d n)) by (by rewrite lookup_alter_eq, H).
  rewrite (total_delete m p n H). assert (delete p (alter (with_data d) p m) = delete p m) as ->; [|cbn; lia].
  apply map_eq. intros q. destruct (decide (p = q)) as [<-|]; [by rewrite !lookup_delete_eq|].
  by rewrite !lookup_delete_ne, lookup_alter_ne.
Qed.

Lemma represents_set_data base h A p e ks d cs lv :
  represents base h A -> A !! p = Some (e, ks) -> has d cJSON_IsReference = has e cJSON_IsReference -> payload_ok d ->
  lv = live h - weight e + weight d -> represents base (mkHeap (alter (with_data d) p (items h)) cs lv) (set_data p d A).
Proof.
  intros [R Hok Hpay Hl] Hp Href Hd ->. destruct (node_of _ _ _ _ R Hp) as (n & Hn & Hdn). cbn in Hdn. pose proof R as [Rd Rc Rl Ro].
  split; cbn [items live].
  - split.
    + intros q. unfold set_data. destruct (decide (p = q)) as [<-|]; [by rewrite !lookup_alter_eq, Hn, Hp|by rewrite !lookup_alter_ne].
    + intros q dq js nq. unfold set_data. destruct (decide (p = q)) as [<-|]; [|rewrite !lookup_alter_ne by done; apply Rc].
      rewrite !lookup_alter_eq, Hn, Hp. intros [= <- <-] [= <-]. rewrite Href. by apply (Rc p e ks n).
    + intros q. rewrite kids_set_data. eapply dl_agree; [|apply Rl]. intros k _.
      destruct (decide (p = k)) as [<-|]; [by rewrite lookup_alter_eq, Hn|by rewrite lookup_alter_ne].
    + intros q nq. assert (Hor : orphan (set_data p d A) q -> orphan A q) by (intros H r; specialize (H r); by rewrite kids_set_data in H).
      destruct (decide (p = q)) as [<-|]; [rewrite lookup_alter_eq, Hn; intros [= <-] H; by apply (Ro p n Hn), Hor|].
      rewrite lookup_alter_ne by done. intros Hq H. by apply (Ro q nq Hq), Hor.
  - eapply forest_ok_kids; [|exact Hok]. intros q. apply kids_set_data.
  - intros q dq js. unfold set_data. destruct (decide (p = q)) as [<-|]; [|rewrite lookup_alter_ne by done; apply Hpay].
    rewrite lookup_alter_eq, Hp. by intros [= <- <-].
  - rewrite (total_set_data _ p n d Hn), Hdn. lia.
Qed.

Section Ops.
Context (grant : nat -> bool).

Lemma represents_calls base h A cs : represents base h A -> represents base (mkHeap (items h) cs (live h)) A.
Proof. by intros [R Hok Hpay Hl]. Qed.

Lemma remove_new A p (x : payload * list ptr) : A !! p = None -> remove [p] (<[p := x]> A) = A.
Proof. intros H. by apply delete_insert_id. Qed.

Lemma refines_no_kid m A q k : refines m A -> m !! k = None -> k ∉ kids A q.
Proof. intros [_ _ Rl _] Hk Hin. destruct (dl_lookup _ _ _ _ k (Rl q) Hin) as [x Hx]. congruence. Qed.

(** *** Makers *)

(** The outcome of a maker of an item with [d]. *)
Definition made_or_none (base : Z) (A : forest) (d : payload) (o : option (option ptr * heap)) : Prop :=
  exists r h', o = Some (r, h') /\
    match r with
    | Some p => A !! p = None /\ represents base h' (<[p := (d, [])]> A)
    | None => (exists i, grant i = false) /\ represents base h' A
    end.

Lemma New_Item_run h :
  exists p, items h !! p = None /\ cJSON_New_Item grant h =
    if grant (calls h) then Some (Some p, mkHeap (<[p := zero_item]> (items h)) (S (calls h)) (live h + 1))
    else Some (None, mkHeap (items h) (S (calls h)) (live h)).
Proof. exists (fresh (dom (items h) : gset nat)). split; [apply not_elem_of_dom, is_fresh|done]. Qed.

Lemma create_item_spec base h A f :
  represents base h A -> next (f zero_item) = None -> prev (f zero_item) = None -> child (f zero_item) = None ->
  payload_ok (data (f zero_item)) -> weight (data (f zero_item)) = 1 ->
  made_or_none base A (data (f zero_item)) (create grant f h).
Proof.
  intros Rep Hnx Hpv Hch Hpay Hw. unfold made_or_none, create.
  destruct (New_Item_run h) as (p & Hp & E). destruct (grant (calls h)) eqn:Hg; T_step E.
  - assert (Hs : is_Some (<[p := zero_item]> (items h) !! p)) by (rewrite lookup_insert_eq; by eexists).
    T_upd. exists (Some p). eexists. split; [reflexivity|].
    split; [by eapply refines_None; [apply Rep|]|]. unfold on_items. cbn [items calls live]. rewrite alter_insert_eq, <- Hw.
    by apply represents_new.
  - exists None. eexists. split; [reflexivity|]. split; [by eexists|by apply represents_calls].
Qed.

(** The text of an item with a copy of [s]. *)
Definition text_payload (t : Z) (s : list Z) : payload := mkPayload t (Some (Own (c_str s))) 0 (S754_zero false) None.

Lemma create_text_spec base h A t s :
  represents base h A -> Z.land t cJSON_IsReference = 0 ->
  made_or_none base A (text_payload t s) (create_text grant t (Some s) h).
Proof.
  intros Rep Ht. unfold made_or_none, create_text.
  destruct (New_Item_run h) as (p & Hp & E). destruct (grant (calls h)) eqn:Hg; T_step E.
  - assert (HA : A !! p = None) by (by eapply refines_None; [apply Rep|]).
    set (d0 := mkPayload t None 0 (S754_zero false) None). set (n0 := mkItem None None None d0).
    assert (Hw0 : weight d0 = 1) by done.
    assert (Rep0 : forall cs, represents base (mkHeap (<[p := n0]> (items h)) cs (live h + 1)) (<[p := (d0, [])]> A)).
    { intros cs. rewrite <- Hw0. by apply (represents_new base h A p n0). }
    assert (Hs : is_Some (<[p := zero_item]> (items h) !! p)) by (rewrite lookup_insert_eq; by eexists).
    T_upd. unfold on_items. cbn [items calls live]. rewrite alter_insert_eq. change (typed t zero_item) with n0.
    unfold cJSON_strdup at 1. destruct (grant (S (calls h))) eqn:Hg'.
    + unfold mbind at 1, T_bind at 1. cbn [items calls live]. rewrite Hg'.
      erewrite T_run_Some by (apply get_run; cbn; apply lookup_insert_eq).
      assert (Hs' : is_Some (<[p := n0]> (items h) !! p)) by (rewrite lookup_insert_eq; by eexists).
      T_upd. exists (Some p). eexists. split; [reflexivity|]. split; [done|]. unfold on_items. cbn [items calls live].
      assert (<[p := (text_payload t s, [])]> A = set_data p (text_payload t s) (<[p := (d0, [])]> A)) as ->
        by (unfold set_data; by rewrite alter_insert_eq).
      assert (Href : has (text_payload t s) cJSON_IsReference = false) by (unfold has; cbn; by rewrite Ht).
      apply (represents_set_data base _ _ p d0 [] (text_payload t s) _ _ (Rep0 0%nat)); [apply lookup_insert_eq|done| |].
      * split; [intros _ x [= <-]; by eexists|done].
      * unfold weight. rewrite Href. cbn. lia.
    + unfold mbind at 1, T_bind at 1. cbn [items calls live]. rewrite Hg'.
      erewrite T_run_Some by (apply get_run; cbn; apply lookup_insert_eq).
      assert (Hs' : is_Some (<[p := n0]> (items h) !! p)) by (rewrite lookup_insert_eq; by eexists).
      T_upd. unfold on_items. cbn [items calls live]. rewrite alter_insert_eq.
      change (with_data (set_valuestring None (data n0)) n0) with n0.
      destruct (Delete_spec base _ _ p (Rep0 (S (S (calls h))))) as (u & h' & Hu & Hut & E' & Rep'); [rewrite lookup_insert_eq; by eexists| |].
      * intros q. rewrite kids_insert_new by done. apply (fun H => refines_no_kid (items h) A q p H Hp). apply Rep.
      * T_step E'. exists None, h'. split; [done|]. split; [by eexists|].
        inversion Hut as [q d ts Hq Hts]; subst u. cbn in Hu. subst q. rewrite lookup_insert_eq in Hq. injection Hq as <- Hm.
        symmetry in Hm. apply map_eq_nil in Hm as ->.
        change (flatten (Tree p d0 [])) with [p] in Rep'. by rewrite remove_new in Rep'.
  - exists None. eexists. split; [reflexivity|]. split; [by eexists|by apply represents_calls].
Qed.

(** *** Names *)

(** What an item holds under a new name. *)
Definition named (name : list Z) (constant_key : bool) (d : payload) : payload :=
  set_type (if constant_key then Z.lor (type d) cJSON_StringIsConst else Z.land (type d) (Z.lnot cJSON_StringIsConst))
    (set_string (Some (if constant_key then Extern (c_str name) else Own (c_str name))) d).

Lemma named_flags name c d :
  has (named name c d) cJSON_IsReference = has d cJSON_IsReference /\ has (named name c d) cJSON_StringIsConst = c.
Proof.
  unfold has. destruct c; cbn [named set_type type].
  - rewrite !Z.land_lor_distr_l. change (Z.land cJSON_StringIsConst cJSON_IsReference) with 0. rewrite Z.lor_0_r. split; [done|].
    apply negb_true_iff, Z.eqb_neq. intros [_ H]%Z.lor_eq_0_iff. by vm_compute in H.
  - rewrite <- !Z.land_assoc. change (Z.land (Z.lnot cJSON_StringIsConst) cJSON_IsReference) with cJSON_IsReference.
    change (Z.land (Z.lnot cJSON_StringIsConst) cJSON_StringIsConst) with 0. by rewrite Z.land_0_r.
Qed.

Lemma named_ok name c d : payload_ok d -> payload_ok (named name c d).
Proof.
  intros [Hv _]. destruct (named_flags name c d) as [Hr Hc]. split.
  - rewrite Hr. apply Hv.
  - rewrite Hc. intros -> t [= <-]. by eexists.
Qed.

Lemma weight_named name c d :
  weight (named name c d) = weight d - own_text (negb (has d cJSON_StringIsConst)) (string d) + Z.b2z (negb c).
Proof.
  destruct (named_flags name c d) as [Hr Hc]. unfold weight. rewrite Hr, Hc. cbn [named set_type set_string valuestring string own_text].
  destruct c; cbn [own_text negb Z.b2z]; lia.
Qed.

Definition payload_at (A : forest) (p : ptr) : payload := default (data zero_item) (fst <$> A !! p).

Lemma payload_at_eq A p d ks : A !! p = Some (d, ks) -> payload_at A p = d.
Proof. intros H. unfold payload_at. by rewrite H. Qed.

(** The item in a forest where it has its new name. *)
Lemma named_free base h A p d ks k name c cs lv :
  represents base h A -> A !! p = Some (d, ks) -> has d cJSON_IsReference = false -> free_for A p k ->
  lv = live h - own_text (negb (has (payload_at A k) cJSON_StringIsConst)) (string (payload_at A k)) + Z.b2z (negb c) ->
  let A1 := set_data k (named name c (payload_at A k)) A in
  represents base (mkHeap (alter (with_data (named name c (payload_at A k))) k (items h)) cs lv) A1 /\
  A1 !! p = Some (d, ks) /\ free_for A1 p k.
Proof.
  intros Rep Hp Hd Hfree Hlv A1. subst A1. pose proof Hfree as ([[e js] Hk] & _ & Hab).
  assert (Hpk : k <> p) by (intros ->; apply Hab, rtc_refl). rewrite (payload_at_eq A k e js Hk) in *. split_and!.
  - apply (represents_set_data base h A k e js); [done|done|by apply named_flags| |rewrite weight_named; lia].
    by apply named_ok, (rp_payloads _ _ _ Rep k e js).
  - unfold set_data. by rewrite lookup_alter_ne.
  - apply (free_for_kids A); [intros q; apply kids_set_data| |done]. unfold set_data. rewrite lookup_alter_eq, Hk. by eexists.
Qed.

Lemma add_item_to_object_spec base h A p d ks name k c :
  represents base h A -> A !! p = Some (d, ks) -> has d cJSON_IsReference = false -> free_for A p k ->
  exists b h', add_item_to_object grant (Some p) (Some name) (Some k) c h = Some (b, h') /\
    if (b : bool) then represents base h' (set_kids p (ks ++ [k]) (set_data k (named name c (payload_at A k)) A))
    else c = false /\ (exists i, grant i = false) /\ represents base h' A.
Proof.
  intros Rep Hp Hd Hfree. pose proof Hfree as ([[e js] Hk] & _ & Hab).
  assert (Hpk : p <> k) by (intros ->; apply Hab, rtc_refl).
  destruct (node_of _ _ _ _ (rp_refines _ _ _ Rep) Hk) as (n & Hn & Hdn). cbn in Hdn.
  unfold add_item_to_object. rewrite (proj2 (Nat.eqb_neq _ _) Hpk). T_step (get_run k h n Hn). rewrite Hdn, <- (payload_at_eq A k e js Hk).
  set (e' := payload_at A k).
  assert (Hadd : forall cs, let h1 := mkHeap (alter (with_data (named name c e')) k (items h)) cs
                    (live h - own_text (negb (has e' cJSON_StringIsConst)) (string e') + Z.b2z (negb c)) in
            exists h', add_item_to_array (Some p) (Some k) h1 = Some (true, h') /\
              represents base h' (set_kids p (ks ++ [k]) (set_data k (named name c e') A))).
  { intros cs h1.
    destruct (named_free base h A p d ks k name c cs _ Rep Hp Hd Hfree eq_refl) as (Rep1 & Hp1 & Hfree1).
    pose proof Rep1 as [R1 Hok1 _ _].
    destruct (add_item_to_array_spec h1 _ p d ks k R1 Hok1 Hp1 Hd Hfree1) as (m' & E & R').
    eexists. split; [exact E|]. apply (represents_set_kids base h1); [done|done|].
    rewrite <- (kids_eq _ p d ks Hp1). apply forest_ok_snoc; [done|by eexists|done]. }
  assert (Hown : negb (has e' cJSON_StringIsConst) = true -> forall t, string e' = Some t -> exists s, t = Own s).
  { intros H. destruct (rp_payloads _ _ _ Rep k e js Hk) as [_ Hs]. rewrite <- (payload_at_eq A k e js Hk) in Hs. by apply Hs, negb_true_iff. }
  destruct c.
  - rewrite T_ret_bind. cbn [mbind]. erewrite T_run_Some by (apply deallocate_own, Hown). T_upd.
    destruct (Hadd (calls h)) as (h' & E & R'). exists true, h'. split; [|done]. rewrite <- E. unfold on_items. cbn. by rewrite Z.add_0_r.
  - unfold cJSON_strdup. destruct (grant (calls h)) eqn:Hg.
    + unfold mbind at 1, T_bind at 1. rewrite Hg.
      erewrite T_run_Some by (apply deallocate_own, Hown). T_upd.
      destruct (Hadd (S (calls h))) as (h' & E & R'). exists true, h'. split; [|done]. rewrite <- E. unfold on_items. cbn. do 2 f_equal. lia.
    + exists false. eexists. split; [unfold mbind, T_bind; rewrite Hg; reflexivity|]. split_and!; [done|by eexists|by apply represents_calls].
Qed.

(** The first child of a name; the search that minds the case ends at a child
    that has none. *)
Fixpoint find_named (A : forest) (name : list Z) (case_sensitive : bool) (ks : list ptr) : option ptr :=
  match ks with
  | [] => None
  | k :: ks =>
      match string (payload_at A k) with
      | None => if case_sensitive then None else find_named A name case_sensitive ks
      | Some s => if (if case_sensitive then same_text else same_name) name (text_of s) then Some k
                  else find_named A name case_sensitive ks
      end
  end.

Lemma item_named_spec h A name cs fuel ks b :
  refines (items h) A -> dl (items h) b ks None -> (length ks <= fuel)%nat ->
  item_named fuel name cs (head ks) h = Some (find_named A name cs ks, h).
Proof.
  intros [Rd _ _ _]. revert fuel b. induction ks as [|k ks IH]; intros fuel b Hdl Hf; [by destruct fuel|].
  destruct fuel as [|fuel]; [cbn in Hf; lia|]. destruct Hdl as [(n & Hn & _ & Hx) Hdl]. cbn [item_named head find_named].
  T_step (get_run k h n Hn). specialize (Rd k). rewrite Hn in Rd.
  assert (payload_at A k = data n) as -> by (unfold payload_at; by rewrite <- Rd).
  assert (Hnext : next n = head ks) by (rewrite Hx; by destruct ks). rewrite Hnext.
  assert (IH' : item_named fuel name cs (head ks) h = Some (find_named A name cs ks, h)) by (eapply IH; [exact Hdl|cbn in Hf; lia]).
  destruct (string (data n)) as [s|]; [by destruct ((if cs then same_text else same_name) name (text_of s))|by destruct cs].
Qed.

Lemma get_object_item_spec h A p d ks name cs :
  refines (items h) A -> forest_ok A -> A !! p = Some (d, ks) -> has d cJSON_IsReference = false ->
  get_object_item (Some p) (Some name) cs h = Some (find_named A name cs ks, h).
Proof.
  intros R Hok Hp Hd. destruct (node_of _ _ _ _ R Hp) as (np & Hnp & _). unfold get_object_item. T_step (get_run p h np Hnp).
  pose proof (ref_child _ _ R p d ks np Hp Hnp) as Hc. rewrite Hd in Hc. rewrite Hc.
  pose proof (ref_chain _ _ R p) as Hl. rewrite (kids_eq A p d ks Hp) in Hl.
  unfold siblings_fuel at 1, mbind at 1, T_bind at 1. eapply item_named_spec; [done|exact Hl|].
  assert (Hnd : NoDup ks) by (rewrite <- (kids_eq A p d ks Hp); by apply one_place_NoDup).
  pose proof (length_dom ks (items h) Hnd (fun q => dl_lookup _ _ _ _ q Hl)). lia.
Qed.

Lemma find_named_in A name cs ks k : find_named A name cs ks = Some k -> k ∈ ks.
Proof.
  induction ks as [|q ks IH]; [done|]. cbn. destruct (string (payload_at A q)) as [s|].
  - destruct (_ name (text_of s)); [intros [= ->]; by left|intros H; right; by apply IH].
  - destruct cs; [done|]. intros H. right. by apply IH.
Qed.

(** The items below [p], with [p]. *)
Fixpoint below (fuel : nat) (A : forest) (p : ptr) : list ptr :=
  match fuel with
  | O => []
  | S fuel => p :: concat (map (below fuel A) (kids A p))
  end.

Lemma length_flatten t ts : t ∈ ts -> (length (flatten t) <= length (flattens ts))%nat.
Proof.
  intros (l & r & ->)%list_elem_of_split. rewrite flattens_bind, bind_app, length_app. cbn. rewrite length_app. lia.
Qed.

Lemma below_tree A t fuel : tree_of A t -> (length (flatten t) <= fuel)%nat -> below fuel A (root t) = flatten t.
Proof.
  revert fuel. induction t as [p d ts IH] using tree_nested_ind. intros fuel H Hf. inversion H as [? ? ? Hp Hts]; subst.
  destruct fuel as [|fuel]; [cbn in Hf; lia|]. cbn [below root flatten]. f_equal. rewrite (kids_eq A p d _ Hp), map_map. f_equal.
  apply map_ext_in. intros t Ht. rewrite <- list_elem_of_In in Ht. rewrite Forall_forall in IH, Hts. apply IH; [done|by apply Hts|].
  pose proof (length_flatten t ts Ht). cbn in Hf. fold (flattens ts) in Hf. lia.
Qed.

Lemma below_size A t : forest_ok A -> tree_of A t -> below (size A) A (root t) = flatten t.
Proof.
  intros Hok Ht. apply below_tree; [done|]. apply length_dom; [by apply (flatten_NoDup A)|]. intros q. by apply flatten_in.
Qed.
End Ops.

(** ** A client *)

Section Client.
Context (grant : nat -> bool).

Inductive maker := MakeNull | MakeBool (b : bool) | MakeArray | MakeObject
  | MakeNumber (num : spec_float) | MakeString (s : list Z) | MakeRaw (s : list Z).

Definition run_maker (m : maker) : T (option ptr) :=
  match m with
  | MakeNull => cJSON_CreateNull grant
  | MakeBool b => cJSON_CreateBool grant b
  | MakeArray => cJSON_CreateArray grant
  | MakeObject => cJSON_CreateObject grant
  | MakeNumber num => cJSON_CreateNumber grant num
  | MakeString s => cJSON_CreateString grant (Some s)
  | MakeRaw s => cJSON_CreateRaw grant (Some s)
  end.

Definition plain (t : Z) : payload := set_type t (data zero_item).

Definition made (m : maker) : payload :=
  match m with
  | MakeNull => plain cJSON_NULL
  | MakeBool b => plain (if b then cJSON_True else cJSON_False)
  | MakeArray => plain cJSON_Array
  | MakeObject => plain cJSON_Object
  | MakeNumber num => mkPayload cJSON_Number None (default 0 (saturated num)) num None
  | MakeString s => text_payload cJSON_String s
  | MakeRaw s => text_payload cJSON_Raw s
  end.

Inductive call :=
  | Make (m : maker)
  | AddToArray (p k : ptr)
  | AddToObject (p : ptr) (name : list Z) (k : ptr) (constant_key : bool)
  | Detach (p k : ptr)
  | DetachAt (p : ptr) (which : Z)
  | DetachNamed (p : ptr) (name : list Z) (case_sensitive : bool)
  | InsertAt (p : ptr) (which : Z) (k : ptr)
  | ReplaceWith (p k x : ptr)
  | Delete (k : ptr)
  | SetNumber (p : ptr) (num : spec_float).

Inductive result := Ptr (p : option ptr) | Bool (b : bool) | Done.

Definition run (c : call) : T result :=
  match c with
  | Make m => r ← run_maker m; mret (Ptr r)
  | AddToArray p k => b ← cJSON_AddItemToArray (Some p) (Some k); mret (Bool b)
  | AddToObject p name k constant_key => b ← add_item_to_object grant (Some p) (Some name) (Some k) constant_key; mret (Bool b)
  | Detach p k => r ← cJSON_DetachItemViaPointer (Some p) (Some k); mret (Ptr r)
  | DetachAt p which => r ← cJSON_DetachItemFromArray (Some p) which; mret (Ptr r)
  | DetachNamed p name case_sensitive =>
      r ← (if case_sensitive then cJSON_DetachItemFromObjectCaseSensitive else cJSON_DetachItemFromObject) (Some p) (Some name);
      mret (Ptr r)
  | InsertAt p which k => b ← cJSON_InsertItemInArray (Some p) which (Some k); mret (Bool b)
  | ReplaceWith p k x => b ← cJSON_ReplaceItemViaPointer (Some p) (Some k) (Some x); mret (Bool b)
  | Delete k => cJSON_Delete (Some k);; mret Done
  | SetNumber p num => _ ← cJSON_SetNumberHelper p num; mret Done
  end.

(** *** What a call may ask for *)

Definition editable (A : forest) (p : ptr) : Prop := exists d ks, A !! p = Some (d, ks) /\ has d cJSON_IsReference = false.

Definition legal (A : forest) (c : call) : Prop :=
  match c with
  | Make (MakeNumber num) => saturated num <> None
  | Make _ => True
  | AddToArray p k => editable A p /\ free_for A p k
  | AddToObject p _ k _ => editable A p /\ free_for A p k
  | Detach p k => editable A p /\ k ∈ kids A p
  | DetachAt p _ | DetachNamed p _ _ => editable A p
  | InsertAt p which k => editable A p /\ free_for A p k /\ 0 <= which
  | ReplaceWith p k x => editable A p /\ k ∈ kids A p /\ free_for A p x
  | Delete k => is_Some (A !! k) /\ orphan A k
  | SetNumber p num => is_Some (A !! p) /\ saturated num <> None
  end.

(** *** What it does to the forest *)

Definition without (k : ptr) (ks : list ptr) : list ptr := filter (fun q => q <> k) ks.
Definition exchanged (k x : ptr) (ks : list ptr) : list ptr := map (fun q => if (q =? k)%nat then x else q) ks.

Definition number (num : spec_float) (d : payload) : payload :=
  mkPayload (type d) (valuestring d) (default 0 (saturated num)) num (string d).

Definition effect (A : forest) (c : call) (r : result) : forest :=
  match c, r with
  | Make m, Ptr (Some p) => <[p := (made m, [])]> A
  | AddToArray p k, Bool true => set_kids p (kids A p ++ [k]) A
  | AddToObject p name k constant_key, Bool true =>
      set_kids p (kids A p ++ [k]) (set_data k (named name constant_key (payload_at A k)) A)
  | (Detach p _ | DetachAt p _ | DetachNamed p _ _), Ptr (Some k) => set_kids p (without k (kids A p)) A
  | InsertAt p which k, Bool true => set_kids p (take (Z.to_nat which) (kids A p) ++ k :: drop (Z.to_nat which) (kids A p)) A
  | ReplaceWith p k x, Bool true =>
      let A := set_kids p (exchanged k x (kids A p)) A in remove (below (size A) A k) A
  | Delete k, Done => remove (below (size A) A k) A
  | SetNumber p num, Done => set_data p (number num (payload_at A p)) A
  | _, _ => A
  end.

(** *** What it answers *)

Definition answers (A : forest) (c : call) (r : result) : Prop :=
  match c with
  | Make _ => exists o, r = Ptr o /\ match o with Some p => A !! p = None | None => exists i, grant i = false end
  | AddToObject _ _ _ constant_key => r = Bool true \/ (constant_key = false /\ (exists i, grant i = false) /\ r = Bool false)
  | AddToArray _ _ | InsertAt _ _ _ | ReplaceWith _ _ _ => r = Bool true
  | Detach _ k => r = Ptr (Some k)
  | DetachAt p which => r = Ptr (if which <? 0 then None else kids A p !! Z.to_nat which)
  | DetachNamed p name case_sensitive => r = Ptr (find_named A name case_sensitive (kids A p))
  | Delete _ | SetNumber _ _ => r = Done
  end.

(** The call returns, with its answer and its effect. *)
Definition refined (base : Z) (h : heap) (A : forest) (c : call) : Prop :=
  exists r h', run c h = Some (r, h') /\ answers A c r /\ represents base h' (effect A c r).

(** *** The calls, one by one *)

Lemma refined_make base h A m : represents base h A -> legal A (Make m) -> refined base h A (Make m).
Proof.
  intros Rep Hl.
  assert (H : made_or_none grant base A (made m) (run_maker m h)).
  { destruct m as [|b| | |num|s|s]; cbn [run_maker made legal] in *.
    1, 3, 4: by apply (create_item_spec grant base h A).
    - destruct b; by apply (create_item_spec grant base h A).
    - unfold cJSON_CreateNumber. destruct (saturated num) as [i|]; [|done]. by apply (create_item_spec grant base h A).
    - by apply create_text_spec.
    - by apply create_text_spec. }
  destruct H as (r & h' & E & H). exists (Ptr r), h'. split_and!.
  - cbn [run]. by T_step E.
  - exists r. split; [done|]. destruct r; apply H.
  - cbn [effect]. destruct r; apply H.
Qed.

Lemma refined_add base h A p k : represents base h A -> legal A (AddToArray p k) -> refined base h A (AddToArray p k).
Proof.
  intros Rep [(d & ks & Hp & Hd) Hfree]. pose proof Rep as [R Hok _ _].
  destruct (add_item_to_array_spec h A p d ks k R Hok Hp Hd Hfree) as (m' & E & R').
  exists (Bool true). eexists. split_and!; [cbn [run]; unfold cJSON_AddItemToArray; by T_step E|done|].
  cbn [effect]. rewrite (kids_eq A p d ks Hp). apply represents_set_kids; [done|done|].
  rewrite <- (kids_eq A p d ks Hp). apply forest_ok_snoc; [done|by eexists|done].
Qed.

Lemma refined_add_named base h A p name k c :
  represents base h A -> legal A (AddToObject p name k c) -> refined base h A (AddToObject p name k c).
Proof.
  intros Rep [(d & ks & Hp & Hd) Hfree].
  destruct (add_item_to_object_spec grant base h A p d ks name k c Rep Hp Hd Hfree) as (b & h' & E & H).
  exists (Bool b), h'. split; [cbn [run]; by T_step E|]. cbn [effect answers]. rewrite (kids_eq A p d ks Hp).
  destruct b; [split; [by left|done]|]. destruct H as (Hc & Hg & H). split; [by right|done].
Qed.

Lemma without_none k ks : k ∉ ks -> without k ks = ks.
Proof.
  unfold without. induction ks as [|q ks IH]; [done|]. intros [Hq Hk]%not_elem_of_cons.
  rewrite filter_cons_True by congruence. by rewrite IH.
Qed.

Lemma without_middle k l r : NoDup (l ++ k :: r) -> without k (l ++ k :: r) = l ++ r.
Proof.
  intros (Hkl & Hkr & _ & _ & _)%NoDup_middle. unfold without. rewrite filter_app, filter_cons_False by tauto.
  fold (without k l) (without k r). by rewrite !without_none.
Qed.

Lemma exchanged_middle k x l r : NoDup (l ++ k :: r) -> exchanged k x (l ++ k :: r) = l ++ x :: r.
Proof.
  intros (Hkl & Hkr & _ & _ & _)%NoDup_middle. unfold exchanged. rewrite map_app. cbn [map]. rewrite Nat.eqb_refl.
  assert (Hid : forall ks, k ∉ ks -> map (fun q => if (q =? k)%nat then x else q) ks = ks); [|by rewrite !Hid].
  intros ks Hk. rewrite <- (map_id ks) at 2. apply map_ext_in. intros q Hq. rewrite <- list_elem_of_In in Hq.
  destruct (Nat.eqb_spec q k) as [->|]; [contradiction|done].
Qed.

(** Every function that takes an item out ends with this. *)
Lemma detach_refined base h A p d ks k :
  represents base h A -> A !! p = Some (d, ks) -> has d cJSON_IsReference = false -> k ∈ ks ->
  exists h', cJSON_DetachItemViaPointer (Some p) (Some k) h = Some (Some k, h') /\ represents base h' (set_kids p (without k (kids A p)) A).
Proof.
  intros Rep Hp Hd (l & r & ->)%list_elem_of_split. pose proof Rep as [R Hok _ _]. pose proof (kids_eq A p d _ Hp) as Hk.
  assert (Hnd : NoDup (l ++ k :: r)) by (rewrite <- Hk; by apply one_place_NoDup).
  destruct (DetachItemViaPointer_spec h A p d l k r R Hok Hp Hd) as (m' & E & R').
  eexists. split; [exact E|]. rewrite Hk, without_middle by done. apply represents_set_kids; [done|done|].
  apply forest_ok_set_kids; [done|by eexists| | |].
  - destruct (NoDup_middle _ _ _ Hnd) as (_ & _ & Hlr & Hl & Hr). by apply NoDup_app.
  - intros q Hq. left. rewrite Hk. apply elem_of_app in Hq as [Hq|Hq]; apply elem_of_app; [by left|right; by right].
  - intros q Hq. apply not_above_kid; [done|]. rewrite Hk. apply elem_of_app in Hq as [Hq|Hq]; apply elem_of_app; [by left|right; by right].
Qed.

Lemma refined_detach base h A p k : represents base h A -> legal A (Detach p k) -> refined base h A (Detach p k).
Proof.
  intros Rep [(d & ks & Hp & Hd) Hk]. rewrite (kids_eq A p d ks Hp) in Hk.
  destruct (detach_refined base h A p d ks k Rep Hp Hd Hk) as (h' & E & Rep').
  exists (Ptr (Some k)), h'. split_and!; [cbn [run]; by T_step E|done|done].
Qed.

Lemma refined_detach_at base h A p i : represents base h A -> legal A (DetachAt p i) -> refined base h A (DetachAt p i).
Proof.
  intros Rep (d & ks & Hp & Hd). unfold refined. cbn [run answers]. unfold cJSON_DetachItemFromArray. rewrite (kids_eq A p d ks Hp).
  destruct (i <? 0); [by exists (Ptr None), h|].
  rewrite T_assoc. T_step (get_array_item_spec h A p d ks (Z.to_nat i) (rp_refines _ _ _ Rep) Hp Hd).
  destruct (ks !! Z.to_nat i) as [k|] eqn:Hk; [|by exists (Ptr None), h].
  destruct (detach_refined base h A p d ks k Rep Hp Hd) as (h' & E & Rep'); [by eapply list_elem_of_lookup_2|].
  exists (Ptr (Some k)), h'. split_and!; [by T_step E|done|done].
Qed.

Lemma refined_detach_named base h A p name cs :
  represents base h A -> legal A (DetachNamed p name cs) -> refined base h A (DetachNamed p name cs).
Proof.
  intros Rep (d & ks & Hp & Hd). unfold refined. cbn [run answers]. rewrite (kids_eq A p d ks Hp).
  assert (E : (if cs then cJSON_DetachItemFromObjectCaseSensitive else cJSON_DetachItemFromObject) (Some p) (Some name) h =
              cJSON_DetachItemViaPointer (Some p) (find_named A name cs ks) h).
  { pose proof Rep as [R Hok _ _]. pose proof (get_object_item_spec h A p d ks name cs R Hok Hp Hd) as G. by destruct cs; apply T_run_Some. }
  destruct (find_named A name cs ks) as [k|] eqn:Hk.
  - destruct (detach_refined base h A p d ks k Rep Hp Hd) as (h' & E' & Rep'); [by eapply find_named_in|]. rewrite E' in E.
    exists (Ptr (Some k)), h'. split_and!; [by T_step E|done|done].
  - exists (Ptr None), h. split_and!; [by T_step E|done|done].
Qed.

Lemma item_at_end h ks b i : dl (items h) b ks None -> (length ks <= i)%nat -> item_at i (head ks) h = Some (None, h).
Proof. intros H Hi. rewrite (item_at_spec h b ks i H). by rewrite (proj2 (lookup_ge_None ks i)). Qed.

Lemma refined_insert base h A p i k : represents base h A -> legal A (InsertAt p i k) -> refined base h A (InsertAt p i k).
Proof.
  intros Rep ((d & ks & Hp & Hd) & Hfree & Hi). pose proof Rep as [R Hok _ _]. pose proof (kids_eq A p d ks Hp) as Hk.
  unfold refined. cbn [run answers effect]. exists (Bool true). rewrite Hk.
  destruct (ks !! Z.to_nat i) as [a|] eqn:Ha.
  - pose proof (list_elem_of_split_length ks (Z.to_nat i) a Ha) as (l & r & Eks & El). rewrite Eks in Hp.
    destruct (InsertItemInArray_spec h A p d l a r k R Hok Hp Hd Hfree) as (m' & E & R').
    assert (Ez : Z.of_nat (length l) = i) by (rewrite <- El; lia). rewrite Ez in E.
    eexists. split_and!; [by T_step E|done|]. rewrite Eks, El, take_app_length, drop_app_length.
    apply represents_set_kids; [done|done|]. rewrite Eks in Hk.
    pose proof Hfree as (_ & Hor & Hab). assert (Hkk : k ∉ l ++ a :: r) by (rewrite <- Hk; apply Hor).
    assert (Hnd : NoDup (l ++ a :: r)) by (rewrite <- Hk; by apply one_place_NoDup).
    assert (HP : l ++ k :: a :: r ≡ₚ k :: l ++ a :: r) by (symmetry; apply Permutation_middle).
    apply forest_ok_set_kids; [done|by eexists| | |].
    + rewrite HP. by constructor.
    + intros q. rewrite HP, Hk. intros [->|Hq]%elem_of_cons; [by right|by left].
    + intros q. rewrite HP. intros [->|Hq]%elem_of_cons; [done|]. apply not_above_kid; [done|by rewrite Hk].
  - apply lookup_ge_None in Ha. destruct (add_item_to_array_spec h A p d ks k R Hok Hp Hd Hfree) as (m' & E & R').
    assert (E' : cJSON_InsertItemInArray (Some p) i (Some k) h = add_item_to_array (Some p) (Some k) h).
    { unfold cJSON_InsertItemInArray. rewrite (proj2 (Z.ltb_ge _ _)) by lia.
      rewrite (T_run_Some _ _ _ _ _ (get_array_item_spec h A p d ks (Z.to_nat i) R Hp Hd)). by rewrite (proj2 (lookup_ge_None ks _)). }
    rewrite E in E'. eexists. split_and!; [by T_step E'|done|]. rewrite take_ge, drop_ge by lia.
    apply represents_set_kids; [done|done|]. rewrite <- Hk. apply forest_ok_snoc; [done|by eexists|done].
Qed.

Lemma refined_replace base h A p k x : represents base h A -> legal A (ReplaceWith p k x) -> refined base h A (ReplaceWith p k x).
Proof.
  intros Rep ((d & ks & Hp & Hd) & Hin & Hfree). pose proof (kids_eq A p d ks Hp) as Hk. rewrite Hk in Hin.
  apply list_elem_of_split in Hin as (l & r & ->).
  assert (Hnd : NoDup (l ++ k :: r)) by (rewrite <- Hk; apply one_place_NoDup, Rep).
  destruct (ReplaceItemViaPointer_spec base h A p d l k r x Rep Hp Hd Hfree) as (t & h' & <- & Ht & E & Rep').
  exists (Bool true), h'. cbn [run answers effect]. split_and!; [by T_step E|done|]. rewrite Hk, exchanged_middle by done.
  rewrite below_size; [done| |done]. apply (forest_ok_replaced A p d l (root t) r x); [apply Rep|done|done].
Qed.

Lemma refined_delete base h A k : represents base h A -> legal A (Delete k) -> refined base h A (Delete k).
Proof.
  intros Rep [Hk Hor]. destruct (Delete_spec base h A k Rep Hk Hor) as (t & h' & <- & Ht & E & Rep').
  exists Done, h'. cbn [run answers effect]. split_and!; [by T_step E|done|]. rewrite below_size; [done|apply Rep|done].
Qed.

Lemma refined_number base h A p num : represents base h A -> legal A (SetNumber p num) -> refined base h A (SetNumber p num).
Proof.
  intros Rep [[[d ks] Hp] Hnum]. destruct (node_of _ _ _ _ (rp_refines _ _ _ Rep) Hp) as (n & Hn & Hd). cbn in Hd.
  exists Done. cbn [run answers effect]. unfold cJSON_SetNumberHelper, number. rewrite (payload_at_eq A p d ks Hp).
  destruct (saturated num) as [i|]; [|done]. cbn [default]. rewrite T_assoc. T_step (get_run p h n Hn). rewrite T_assoc.
  assert (Hs : is_Some (items h !! p)) by (by eexists). T_upd. eexists. split_and!; [reflexivity|done|]. rewrite Hd.
  unfold on_items. apply (represents_set_data base h A p d ks); [done|done|done|by apply (rp_payloads _ _ _ Rep p d ks)|].
  change (live h = live h - weight d + weight d). lia.
Qed.

Lemma call_refined base h A c : represents base h A -> legal A c -> refined base h A c.
Proof.
  destruct c; eauto using refined_make, refined_add, refined_add_named, refined_detach, refined_detach_at, refined_detach_named,
    refined_insert, refined_replace, refined_delete, refined_number.
Qed.

(** ** Runs of a client *)

(** Each call is legal in the forest that the calls before have made. *)
Inductive plays : heap -> forest -> list call -> heap -> forest -> Prop :=
  | plays_nil h A : plays h A [] h A
  | plays_cons h A c r h1 cs h2 A2 :
      legal A c -> run c h = Some (r, h1) -> plays h1 (effect A c r) cs h2 A2 -> plays h A (c :: cs) h2 A2.

Lemma plays_represents base h A cs h' A' : represents base h A -> plays h A cs h' A' -> represents base h' A'.
Proof.
  intros Rep H. induction H as [|h A c r h1 cs h2 A2 Hl E _ IH]; [done|]. apply IH.
  destruct (call_refined base h A c Rep Hl) as (r' & h1' & E' & _ & Rep'). rewrite E in E'. by injection E' as <- <-.
Qed.

(** *** From an empty heap *)

Definition empty_heap (base : Z) : heap := mkHeap ∅ 0 base.

Lemma represents_empty base : represents base (empty_heap base) ∅.
Proof.
  assert (Hk : forall p, kids ∅ p = []) by (intros p; unfold kids; by rewrite lookup_empty). split.
  - split; [done|done| |done]. intros p. by rewrite Hk.
  - split; [intros p q i j k; by rewrite Hk|]. intros p. constructor. intros c. rewrite Hk. by intros H%not_elem_of_nil.
  - intros p d ks. by rewrite lookup_empty.
  - unfold empty_heap, total. cbn [items live]. rewrite fmap_empty, map_fold_empty. lia.
Qed.

(** *** Well formed items *)

(** The links of an item lead to items that lead back, and its texts are as
    its flags say. *)
Record item_ok (m : gmap ptr cJSON) (p : ptr) (n : cJSON) : Prop := {
  ok_payload : payload_ok (data n);
  ok_next : forall q, next n = Some q -> exists x, m !! q = Some x /\ prev x = Some p;
  ok_prev : forall q, prev n = Some q -> exists x, m !! q = Some x /\ (next x = Some p \/ next x = None);
  ok_child : has (data n) cJSON_IsReference = false -> forall c, child n = Some c ->
             exists x l y, m !! c = Some x /\ prev x = Some l /\ m !! l = Some y /\ next y = None;
}.

Lemma dl_at m b ks k : dl m b ks None -> k ∈ ks ->
  exists l r n, ks = l ++ k :: r /\ m !! k = Some n /\ prev n = last_or b l /\ next n = head r /\ dl m (Some k) r None.
Proof.
  intros H (l & r & ->)%list_elem_of_split. apply dl_middle in H as (_ & (n & Hn & Hp & Hx) & Hr). exists l, r, n.
  by split_and!.
Qed.

Lemma dl_end m b ks l : dl m b ks None -> last ks = Some l -> exists y, m !! l = Some y /\ next y = None.
Proof.
  intros H [ks' ->]%last_Some. apply dl_middle in H as (_ & (n & Hn & _ & Hx) & _). by exists n.
Qed.

Lemma represents_item_ok base h A p n : represents base h A -> items h !! p = Some n -> item_ok (items h) p n.
Proof.
  intros [R Hok Hpay _] Hn. pose proof R as [Rd Rc Rl Ro].
  assert (HA : exists ks, A !! p = Some (data n, ks)).
  { specialize (Rd p). rewrite Hn in Rd. destruct (A !! p) as [[d ks]|]; [|done]. injection Rd as ->. by exists ks. }
  destruct HA as [ks HA].
  assert (Hplace : (exists q, p ∈ kids A q) \/ orphan A p).
  { destruct (decide (map_Forall (fun _ x => p ∉ snd x) A)) as [H|H].
    - right. intros q Hq. unfold kids in Hq. destruct (A !! q) as [x|] eqn:E; [by apply (H q x E)|by apply not_elem_of_nil in Hq].
    - left. apply map_not_Forall in H as (q & x & E & Hx); [|apply _]. exists q. unfold kids. rewrite E. cbn. by destruct (decide (p ∈ snd x)). }
  split.
  - by apply (Hpay p (data n) ks).
  - intros q Hq. destruct Hplace as [[r Hr]|Hor]; [|destruct (Ro p n Hn Hor); congruence].
    destruct (dl_at _ _ _ p (Rl r) Hr) as (l & rs & n' & _ & Hn' & _ & Hx & Hrs). replace n' with n in * by congruence.
    rewrite Hq in Hx. destruct rs as [|q' rs]; [done|]. injection Hx as ->. destruct Hrs as [(x & Hx & Hp & _) _]. by exists x.
  - intros q Hq. destruct Hplace as [[r Hr]|Hor]; [|destruct (Ro p n Hn Hor); congruence].
    destruct (dl_at _ _ _ p (Rl r) Hr) as (l & rs & n' & Ek & Hn' & Hp & _ & _). replace n' with n in * by congruence.
    rewrite Hq in Hp. destruct l as [|a l] using rev_ind.
    + destruct (dl_end _ _ _ q (Rl r)) as (y & Hy & Hye); [done|]. exists y. split; [done|by right].
    + rewrite last_or_app in Hp. injection Hp as ->. pose proof (Rl r) as Hd. rewrite Ek, <- app_assoc in Hd.
      apply dl_middle in Hd as (_ & (x & Hx & _ & Hxn) & _). exists x. split; [done|by left].
  - intros Hd c Hc. specialize (Rc p _ ks n HA Hn). rewrite Hd, Hc in Rc. destruct ks as [|c' ks]; [done|]. injection Rc as <-.
    pose proof (Rl p) as Hl. rewrite (kids_eq A p _ _ HA) in Hl. pose proof Hl as [(x & Hx & Hp & _) _].
    destruct (last (c :: ks)) as [l|] eqn:El; [|by apply last_None in El].
    destruct (dl_end _ _ _ l Hl El) as (y & Hy & Hye). by exists x, l, y.
Qed.
End Client.

(** ** Checks for concrete forests *)

Lemma orphan_check A k : bool_decide (map_Forall (fun _ x => k ∉ snd x) A) = true -> orphan A k.
Proof.
  intros H%bool_decide_eq_true q Hq. unfold kids in Hq. destruct (A !! q) as [x|] eqn:E; [by apply (H q x E)|by apply not_elem_of_nil in Hq].
Qed.

Lemma free_for_leaf A p k :
  bool_decide (map_Forall (fun _ x => k ∉ snd x) A) = true -> is_Some (A !! k) -> kids A k = [] -> k <> p -> free_for A p k.
Proof.
  intros H Hk Hleaf Hne. split_and!; [done|by apply orphan_check|].
  intros Hab. apply rtc_inv in Hab as [->|(y & Hy & _)]; [done|]. unfold kid in Hy. rewrite Hleaf in Hy. by apply not_elem_of_nil in Hy.
Qed.

(** ** The theorems *)

(** C25: Whatever a client has made, added to arrays and objects, taken out, put
    in, replaced, deleted and set so far, and whichever allocations have failed,
    the heap is that of the forest that the calls have on lists of children: the
    next legal call returns, its answer is that of the forest, its effect is the
    operation on lists that it means to be, and the live blocks are the items of
    the forest with their texts. *)
Theorem client_refines grant base h A cs h' A' c :
  represents base h A -> plays grant h A cs h' A' -> legal A' c ->
  exists r h2, run grant c h' = Some (r, h2) /\ answers grant A' c r /\ represents base h2 (effect A' c r).
Proof. intros Rep Hp Hl. apply call_refined; [by eapply plays_represents|done]. Qed.

(** C26: From an empty heap on, every item is well formed after every legal
    sequence of calls: its links lead to items of the heap that lead back, the
    first child knows the last, its texts are its own where its flags say so;
    and when all items are deleted, no block is left. *)
Theorem client_items_ok grant base cs h A :
  plays grant (empty_heap base) ∅ cs h A ->
  (forall p n, items h !! p = Some n -> item_ok (items h) p n) /\ (A = ∅ -> items h = ∅ /\ live h = base).
Proof.
  intros H. assert (Rep : represents base h A) by (eapply plays_represents; [apply represents_empty|exact H]). split.
  - intros p n. by apply (represents_item_ok base h A).
  - intros ->. assert (E : items h = ∅).
    { apply map_eq. intros p. rewrite lookup_empty. pose proof (ref_data _ _ (rp_refines _ _ _ Rep) p) as Hd.
      rewrite lookup_empty in Hd. by destruct (items h !! p). }
    split; [done|]. rewrite (rp_live _ _ _ Rep), E. unfold total. rewrite fmap_empty, map_fold_empty. lia.
Qed.

(** An array of a number, with a text put before it that is then replaced. *)
Definition session : list call :=
  [Make MakeArray; Make (MakeNumber (S754_zero false)); AddToArray 0 1; Make (MakeString [65%Z]); InsertAt 0 0%Z 2;
   Make MakeNull; ReplaceWith 0 2 3]%nat.

Definition final (grant : nat -> bool) (cs : list call) : option (heap * forest) :=
  foldl (fun s c => '(h, A) ← s; '(r, h) ← run grant c h; Some (h, effect A c r)) (Some (empty_heap 5, ∅)) cs.

Example try1 : (fun s => (kids (snd s) 0%nat, live (fst s), size (items (fst s)))) <$> final (fun _ => true) session = Some ([3; 1]%nat, 8, 3%nat).
Proof. vm_compute. reflexivity. Qed.

(** A legal call, and what it does, on a concrete heap. *)
Ltac play_legal :=
  cbn [legal]; repeat match goal with
  | |- _ /\ _ => split
  | |- True => exact I
  | |- editable _ _ => eexists _, _; split; vm_compute; reflexivity
  | |- free_for _ _ _ => apply free_for_leaf; [vm_compute; reflexivity|eexists; vm_compute; reflexivity|vm_compute; reflexivity|lia]
  | |- is_Some _ => eexists; vm_compute; reflexivity
  | |- orphan _ _ => apply orphan_check; vm_compute; reflexivity
  | |- _ <> None => vm_compute; discriminate
  | |- _ ∈ _ => vm_compute; repeat constructor
  | |- (_ <= _)%Z => lia
  end.
Ltac play := eapply plays_cons; [play_legal|vm_compute; reflexivity|].

Lemma client_refines_witness :
  exists h A r h2, represents 5 (empty_heap 5) ∅ /\ plays (fun _ => true) (empty_heap 5) ∅ session h A /\
    run (fun _ => true) (Delete 0%nat) h = Some (r, h2) /\ answers (fun _ => true) A (Delete 0%nat) r /\ represents 5 h2 (effect A (Delete 0%nat) r).
Proof.
  assert (exists h A, plays (fun _ => true) (empty_heap 5) ∅ session h A /\ legal A (Delete 0%nat)) as (h & A & Hp & Hl).
  { do 2 eexists. split; [unfold session; do 7 play; apply plays_nil|play_legal]. }
  destruct (client_refines _ 5 _ _ _ _ _ (Delete 0%nat) (represents_empty 5) Hp Hl) as (r & h2 & H).
  exists h, A, r, h2. split; [apply represents_empty|split; [exact Hp|exact H]].
Defined.

Lemma client_items_ok_witness :
  exists h, plays (fun _ => true) (empty_heap 5) ∅ (session ++ [Delete 0%nat]) h ∅ /\ items h = ∅ /\ live h = 5.
Proof.
  assert (exists h, plays (fun _ => true) (empty_heap 5) ∅ (session ++ [Delete 0%nat]) h ∅) as (h & Hp).
  { eexists. unfold session. cbn [app]. do 8 play. apply plays_nil. }
  exists h. split; [exact Hp|]. by apply (client_items_ok _ 5 _ _ _ Hp).
Defined.

(** ** Where the contract ends *)

(** The array of a reference: its child is an item of the client, whose [prev]
    is not that of a list.  The function says that it has added the item; it
    is in no list. *)
Example add_to_reference_lost :
  exists h, (a ← cJSON_CreateNull (fun _ => true); r ← cJSON_CreateArrayReference (fun _ => true) a; x ← cJSON_CreateTrue (fun _ => true);
             cJSON_AddItemToArray r x) (empty_heap 0) = Some (true, h) /\
    child <$> items h !! 1%nat = Some (Some 0%nat) /\ next <$> items h !! 0%nat = Some None /\ prev <$> items h !! 2%nat = Some None.
Proof. eexists. split; [vm_compute; reflexivity|by vm_compute]. Qed.

(** The copy of the key fails: the reference, which only the function knows, is
    not released. *)
Example AddItemReferenceToObject_leak :
  exists h, (a ← cJSON_CreateNull (fun _ => true); o ← cJSON_CreateObject (fun _ => true);
             cJSON_AddItemReferenceToObject (fun i => i <? 3)%nat o (Some [107]) a) (empty_heap 0) = Some (false, h) /\
    live h = 3 /\ child <$> items h !! 1%nat = Some None.
Proof. eexists. split; [vm_compute; reflexivity|by vm_compute]. Qed.

(** The replacement has its new name even where nothing of that name is there
    to be replaced. *)
Example replace_renames :
  exists h, (o ← cJSON_CreateObject (fun _ => true); x ← cJSON_CreateNull (fun _ => true);
             cJSON_ReplaceItemInObject (fun _ => true) o (Some [107]) x) (empty_heap 0) = Some (false, h) /\
    string ∘ data <$> items h !! 1%nat = Some (Some (Own [107])).
Proof. eexists. split; [vm_compute; reflexivity|by vm_compute]. Qed.

(** NULL, or the array itself: nothing is done. *)
Lemma null_arguments grant h a i name c :
  add_item_to_array None i h = Some (false, h) /\ add_item_to_array a None h = Some (false, h) /\
  (forall p, add_item_to_array (Some p) (Some p) h = Some (false, h)) /\
  add_item_to_object grant None name i c h = Some (false, h) /\ add_item_to_object grant a None i c h = Some (false, h) /\
  cJSON_DetachItemViaPointer None i h = Some (None, h) /\ cJSON_DetachItemViaPointer a None h = Some (None, h) /\
  cJSON_ReplaceItemViaPointer None i a h = Some (false, h) /\ cJSON_Delete None h = Some (tt, h).
Proof.
  split_and!; try done; try by destruct a.
  intros p. unfold add_item_to_array. by rewrite Nat.eqb_refl.
Qed.
