(* ===== verification/JsonDuplicate.v ===== *)
(** * Copies of JSON values

    [cJSON_Duplicate] on the heap of [JsonTree]: the copy is a tree of new items
    that hold what the items hold, nothing else is touched, and a copy that
    fails half way gives back what there is of it. *)

From S2P Require Import Prelude.
From Stdlib Require Import SpecFloat.
From Stdlib Require Import Strings.String.
From S2P Require Import Json.
From S2P Require Import JsonTree.
From S2P Require Import JsonForest.
From S2P Require Import JsonDelete.
From S2P Require Import JsonClient.
#[local] Open Scope Z_scope.
#[local] Abbreviation length := List.length.
#[local] Abbreviation concat := List.concat.
#[local] Abbreviation forest := (gmap ptr (payload * list ptr)).

(** What the copy of an item holds. *)
Definition own_copy (t : text) : text := Own (c_str (text_of t)).

Definition copied (d : payload) : payload :=
  mkPayload (Z.land (type d) (Z.lnot cJSON_IsReference)) (own_copy <$> valuestring d) (valueint d) (valuedouble d)
    (if has d cJSON_StringIsConst then string d else own_copy <$> string d).

Lemma copied_ref d : has (copied d) cJSON_IsReference = false.
Proof. unfold has. cbn [copied type]. rewrite <- Z.land_assoc. change (Z.land (Z.lnot cJSON_IsReference) cJSON_IsReference) with 0. by rewrite Z.land_0_r. Qed.

Lemma copied_const d : has (copied d) cJSON_StringIsConst = has d cJSON_StringIsConst.
Proof.
  unfold has. cbn [copied type]. rewrite <- Z.land_assoc.
  by change (Z.land (Z.lnot cJSON_IsReference) cJSON_StringIsConst) with cJSON_StringIsConst.
Qed.

Lemma copied_ok d : payload_ok (copied d).
Proof.
  split; [intros _|rewrite copied_const; intros Hc]; cbn [copied valuestring string]; [|rewrite Hc]; intros t.
  - destruct (valuestring d); [intros [= <-]; by eexists|done].
  - destruct (string d); [intros [= <-]; by eexists|done].
Qed.

(** Blocks that are live besides those of the items. *)
Definition spare (h : heap) : Z := live h - total (items h).

(** An item that is being filled: a chain of children, the first of which does
    not know the last. *)
Record open (m : gmap ptr cJSON) (new : ptr) (d : payload) (ts : list tree) : Prop := {
  open_item : m !! new = Some (mkItem None None (head (map root ts)) d);
  open_ok : payload_ok d;
  open_ref : has d cJSON_IsReference = false;
  open_chain : dl m None (map root ts) None;
  open_rep : Forall (rep m) ts;
  open_nodup : NoDup (new :: flattens ts);
}.

Lemma rep_in m t q : rep m t -> q ∈ flatten t -> is_Some (m !! q).
Proof.
  induction t as [p d ts IH] using tree_nested_ind. intros H. inversion H as [? ? ? n Hn _ _ _ _ Hts]; subst.
  rewrite Forall_forall in IH, Hts. intros [->|(t & Hq & Ht)%elem_of_flattens]%elem_of_cons; [by eexists|].
  by apply (IH t Ht (Hts t Ht)).
Qed.

Lemma delete_none fuel h : delete_items fuel None h = Some (tt, h).
Proof. by destruct fuel. Qed.

Lemma delete_open h new d ts :
  open (items h) new d ts ->
  exists h', cJSON_Delete (Some new) h = Some (tt, h') /\ items h' = remove (new :: flattens ts) (items h) /\ spare h' = spare h.
Proof.
  intros [Hn Hpay Href Hdl Hrep Hnd]. apply NoDup_cons in Hnd as [Hnew Hnd].
  assert (Hin : forall q, q ∈ flattens ts -> is_Some (items h !! q)).
  { intros q (t & Hq & Ht)%elem_of_flattens. rewrite Forall_forall in Hrep. by apply (rep_in _ t q (Hrep t Ht)). }
  unfold cJSON_Delete, siblings_fuel, mbind at 1, T_bind at 1.
  rewrite (delete_items_step _ new _ h Hn). cbn [data next child]. rewrite Href. cbn [negb].
  destruct (delete_items_run (size (items h)) ts h None) as (lv & E & Hlv); [by apply length_dom|done|done|done|].
  T_step E.
  assert (Hn1 : items (mkHeap (remove (flattens ts) (items h)) (calls h) lv) !! new = Some (mkItem None None (head (map root ts)) d))
    by (cbn; by rewrite remove_lookup, decide_False).
  pose proof (deallocate_node_run new _ _ Hn1 Hpay) as E1. cbn [data] in E1. rewrite Href in E1. cbn [negb] in E1. T_step E1. rewrite delete_none.
  eexists. split; [reflexivity|]. split; [done|]. unfold spare. cbn [items live].
  pose proof (total_delete _ new _ Hn1) as Ht. cbn [items data] in Ht.
  change (remove (new :: flattens ts) (items h)) with (delete new (remove (flattens ts) (items h))). lia.
Qed.

(** *** One item *)

Section Duplicate.
Context (grant : nat -> bool).

(** Nothing is there but what was there. *)
Definition undone (h : heap) (o : option (option ptr * heap)) : Prop :=
  exists h', o = Some (None, h') /\ items h' = items h /\ spare h' = spare h.

Definition fresh_at (h : heap) (p : ptr) (d : payload) (cs : nat) : heap :=
  mkHeap (<[p := mkItem None None None d]> (items h)) cs (live h + weight d).

Lemma spare_fresh h p d cs : items h !! p = None -> spare (fresh_at h p d cs) = spare h.
Proof. intros Hp. unfold spare, fresh_at. cbn [items live]. rewrite total_insert by done. cbn [data]. lia. Qed.

Lemma failed_fresh h p d cs :
  items h !! p = None -> payload_ok d -> has d cJSON_IsReference = false -> undone h (duplicate_failed p (fresh_at h p d cs)).
Proof.
  intros Hp Hd Hr. destruct (delete_open (fresh_at h p d cs) p d []) as (h' & E & Hi & Hs).
  - split; [by apply lookup_insert_eq|done|done|done|done|]. by apply NoDup_singleton.
  - exists h'. unfold duplicate_failed. T_step E. split_and!; [done| |by rewrite Hs, spare_fresh].
    rewrite Hi. cbn [flattens map concat items fresh_at]. by apply delete_insert_id.
Qed.

Lemma get_fresh h p d cs q n : items h !! p = None -> items h !! q = Some n -> get q (fresh_at h p d cs) = Some (n, fresh_at h p d cs).
Proof. intros Hp Hq. apply get_run. cbn. rewrite lookup_insert_ne; [done|congruence]. Qed.

Lemma upd_fresh h p d d' cs lv :
  lv = live h + weight d' ->
  upd (with_data d') p (mkHeap (<[p := mkItem None None None d]> (items h)) cs lv) = Some (tt, fresh_at h p d' cs).
Proof. intros ->. rewrite upd_run by (cbn; rewrite lookup_insert_eq; by eexists). unfold on_items. cbn. by rewrite alter_insert_eq. Qed.

(** A copy of a text, for an item that does not have it yet. *)
Lemma strdup_run s cs (m : gmap ptr cJSON) lv :
  cJSON_strdup grant (Some s) (mkHeap m cs lv) =
  Some (if grant cs then Some (Own (c_str s)) else None, mkHeap m (S cs) (if grant cs then lv + 1 else lv)).
Proof. unfold cJSON_strdup. cbn [calls items live]. by destruct (grant cs). Qed.

(** The two texts one after the other: what the item holds, or how the copy
    fails. *)
Definition d_bare (d : payload) : payload := mkPayload (Z.land (type d) (Z.lnot cJSON_IsReference)) None (valueint d) (valuedouble d) None.

Lemma d_bare_flags d d' : type d' = type (d_bare d) -> has d' cJSON_IsReference = false /\ has d' cJSON_StringIsConst = has d cJSON_StringIsConst.
Proof. intros E. pose proof (copied_ref d) as H1. pose proof (copied_const d) as H2. unfold has in *. by rewrite E. Qed.

Lemma own_text_false t : own_text (negb true) t = 0.
Proof. by destruct t. Qed.

(** A text that the copy needs: there is none, or a copy of it, or no memory. *)
Lemma copy_text h p d t cs :
  exists v cs' lv, (match t with Some t => cJSON_strdup grant (Some (text_of t)) | None => mret None end) (fresh_at h p d cs) =
      Some (v, mkHeap (items (fresh_at h p d cs)) cs' lv) /\
    ((v = own_copy <$> t /\ lv = live h + weight d + own_text true v) \/
     ((exists i, grant i = false) /\ v = None /\ is_Some t /\ lv = live h + weight d)).
Proof.
  destruct t as [t|].
  - unfold fresh_at at 1. rewrite strdup_run. eexists _, _, _. split; [reflexivity|].
    destruct (grant cs) eqn:Hg; [by left|right]. split_and!; [by eexists|done|by eexists|done].
  - exists None, cs, (live h + weight d). split; [done|]. left. split; [done|]. cbn. lia.
Qed.

Definition d_valued (d : payload) : payload := set_valuestring (own_copy <$> valuestring d) (d_bare d).

Lemma weight_valued d : weight (d_valued d) = weight (d_bare d) + own_text true (own_copy <$> valuestring d).
Proof.
  unfold weight. assert (has (d_valued d) cJSON_IsReference = false) as -> by (by apply (d_bare_flags d)).
  cbn. destruct (valuestring d); cbn; lia.
Qed.

Lemma valued_ok d : payload_ok (d_valued d).
Proof. split; [|done]. intros _ t. cbn. destruct (valuestring d); [intros [= <-]; by eexists|done]. Qed.

Lemma weight_copied d :
  weight (copied d) = weight (d_valued d) + own_text (negb (has d cJSON_StringIsConst)) (own_copy <$> string d).
Proof.
  unfold weight. rewrite copied_ref, copied_const. assert (has (d_valued d) cJSON_IsReference = false) as -> by (by apply (d_bare_flags d)).
  cbn [copied string valuestring d_valued d_bare set_valuestring]. destruct (has d cJSON_StringIsConst), (string d); cbn; lia.
Qed.

Lemma duplicate_item_spec h item n :
  items h !! item = Some n ->
  (exists p cs, items h !! p = None /\ duplicate_item grant item h = Some (Some p, fresh_at h p (copied (data n)) cs)) \/
  ((exists i, grant i = false) /\ undone h (duplicate_item grant item h)).
Proof.
  intros Hn. unfold duplicate_item.
  destruct (New_Item_run grant h) as (p & Hp & E). destruct (grant (calls h)) eqn:Hg; T_step E.
  2: { right. split; [by eexists|]. exists (mkHeap (items h) (S (calls h)) (live h)). by split_and!. }
  change (mkHeap (<[p := zero_item]> (items h)) (S (calls h)) (live h + 1)) with (fresh_at h p (data zero_item) (S (calls h))).
  T_step (get_fresh h p (data zero_item) (S (calls h)) item n Hp Hn).
  set (d := data n). fold (d_bare d).
  T_step (upd_fresh h p (data zero_item) (d_bare d) (S (calls h)) _ eq_refl).
  destruct (copy_text h p (d_bare d) (valuestring d) (S (calls h))) as (v & cs & lv & Ev & Hv). T_step Ev. clear Ev. cbn [items fresh_at].
  destruct Hv as [[-> Hlv]|(Hfail & -> & [t Ht] & ->)].
  2: { right. split; [done|]. T_step (upd_fresh h p (d_bare d) (d_bare d) cs _ eq_refl). rewrite Ht.
       cbn [negb]. apply failed_fresh; [done|done|by apply (d_bare_flags d)]. }
  fold (d_valued d). T_step (upd_fresh h p (d_bare d) (d_valued d) cs lv ltac:(rewrite weight_valued; lia)).
  rewrite (bool_decide_ext _ (valuestring d = None)) by (by destruct (valuestring d)). rewrite andb_negb_r.
  assert (Hcopied : forall k, k = (if has d cJSON_StringIsConst then string d else own_copy <$> string d) ->
            set_string k (d_valued d) = copied d /\ bool_decide (k = None) = bool_decide (string d = None)).
  { intros k ->. split; [done|]. apply bool_decide_ext. destruct (has d cJSON_StringIsConst); [done|]. by destruct (string d). }
  pose proof (weight_copied d) as Hw. destruct (has d cJSON_StringIsConst) eqn:Hc.
  - assert (Ek : (match string d with Some t => if true then mret (Some t) else cJSON_strdup grant (Some (text_of t)) | None => mret None end : T (option text)) (fresh_at h p (d_valued d) cs) =
                 Some (string d, fresh_at h p (d_valued d) cs)) by (by destruct (string d)).
    T_step Ek. destruct (Hcopied (string d) eq_refl) as [E1 _]. rewrite E1, andb_negb_r.
    left. exists p, cs. split; [done|]. by T_step (upd_fresh h p (d_valued d) (copied d) cs (live h + weight (d_valued d)) ltac:(rewrite Hw, own_text_false; lia)).
  - destruct (copy_text h p (d_valued d) (string d) cs) as (k & cs' & lv' & Ek & Hk). T_step Ek. clear Ek. cbn [items fresh_at].
    destruct Hk as [[-> ->]|(Hfail & -> & [t Ht] & ->)].
    + destruct (Hcopied _ eq_refl) as [E1 E2]. rewrite E1, E2, andb_negb_r.
      left. exists p, cs'. split; [done|]. by T_step (upd_fresh h p (d_valued d) (copied d) cs' (live h + weight (d_valued d) + own_text true (own_copy <$> string d)) ltac:(rewrite Hw; cbn [negb]; lia)).
    + right. split; [done|]. assert (set_string None (d_valued d) = d_valued d) as -> by done.
      T_step (upd_fresh h p (d_valued d) (d_valued d) cs' _ eq_refl). rewrite Ht. cbn [negb].
      apply failed_fresh; [done|apply valued_ok|by apply (d_bare_flags d)].
Qed.

(** *** The trees *)

Inductive copy_of : tree -> tree -> Prop :=
  | copy_tree p d ts p' ts' : Forall2 copy_of ts ts' -> copy_of (Tree p d ts) (Tree p' (copied d) ts').

(** No item of the tree is a reference. *)
Inductive no_refs : tree -> Prop :=
  | no_refs_tree p d ts : has d cJSON_IsReference = false -> Forall no_refs ts -> no_refs (Tree p d ts).

Fixpoint height (t : tree) : nat := match t with Tree _ _ ts => S (list_max (map height ts)) end.

(** [m'] is [m] and what there is of [qs], which is new. *)
Definition extends (m m' : gmap ptr cJSON) (qs : list ptr) : Prop :=
  forall q, if decide (q ∈ qs) then m !! q = None else m' !! q = m !! q.

Lemma extends_new m m' qs q : extends m m' qs -> q ∈ qs -> m !! q = None.
Proof. intros H Hq. specialize (H q). by rewrite decide_True in H. Qed.
Lemma extends_old m m' qs q : extends m m' qs -> is_Some (m !! q) -> m' !! q = m !! q.
Proof. intros H [n Hn]. specialize (H q). case_decide; congruence. Qed.
Lemma extends_same m m' qs q : extends m m' qs -> q ∉ qs -> m' !! q = m !! q.
Proof. intros H Hq. specialize (H q). by rewrite decide_False in H. Qed.

Lemma extends_remove m m' qs : extends m m' qs -> remove qs m' = m.
Proof. intros H. apply map_eq. intros q. specialize (H q). rewrite remove_lookup. by case_decide. Qed.

Lemma extends_trans m m1 m2 a b : extends m m1 a -> extends m1 m2 b -> (forall q, q ∈ b -> q ∉ a) -> extends m m2 (a ++ b).
Proof.
  intros H1 H2 Hd q. case_decide as Hq.
  - destruct (decide (q ∈ a)) as [Ha|Ha]; [by eapply extends_new|]. apply elem_of_app in Hq as [|Hb]; [done|].
    rewrite <- (extends_same _ _ _ q H1 Ha). by eapply extends_new.
  - rewrite not_elem_of_app in Hq. destruct Hq as [Ha Hb]. by rewrite (extends_same _ _ _ q H2 Hb), (extends_same _ _ _ q H1 Ha).
Qed.

Lemma extends_alter m m' qs f k : extends m m' qs -> k ∈ qs -> extends m (alter f k m') qs.
Proof. intros H Hk q. specialize (H q). case_decide; [done|]. rewrite lookup_alter_ne; [done|]. by intros ->. Qed.

Lemma extends_rep m m' qs t : extends m m' qs -> rep m t -> rep m' t.
Proof. intros H Ht. eapply rep_agree; [|exact Ht]. intros q Hq. apply (extends_old _ _ _ q H). by eapply rep_in. Qed.

Lemma extends_disjoint m m' qs t q : extends m m' qs -> rep m t -> q ∈ flatten t -> q ∉ qs.
Proof. intros H Ht Hq Hin. destruct (rep_in m t q Ht Hq) as [n Hn]. pose proof (extends_new _ _ _ q H Hin). congruence. Qed.

Lemma extends_dl m m' qs b ks a : extends m m' qs -> dl m b ks a -> dl m' b ks a.
Proof. intros H Hd. eapply dl_agree; [|exact Hd]. intros k Hk. rewrite (extends_old _ _ _ k H); [done|]. by eapply dl_lookup. Qed.

(** The links of a root are not of its tree. *)
Lemma rep_alter_root f m t :
  (forall n, data (f n) = data n) -> (forall n, child (f n) = child n) -> NoDup (flatten t) -> rep m t -> rep (alter f (root t) m) t.
Proof.
  intros Fd Fc Hnd H. destruct t as [p d ts]. cbn [root flatten] in *. fold (flattens ts) in Hnd. apply NoDup_cons in Hnd as [Hp _].
  inversion H as [? ? ? n Hn Hd Hok Hc Hdl Hts]; subst.
  apply (rep_tree _ _ _ _ (f n)); [by rewrite lookup_alter_eq, Hn|done|done|by rewrite Fc| |].
  - apply dl_other; [|done]. intros Hin. by apply Hp, roots_flattens.
  - apply Forall_forall. intros t Ht. rewrite Forall_forall in Hts. eapply rep_agree; [|by apply Hts].
    intros q Hq. rewrite lookup_alter_ne; [done|]. intros ->. apply Hp, elem_of_flattens. by exists t.
Qed.

Lemma flattens_app a b : flattens (a ++ b) = flattens a ++ flattens b.
Proof. by rewrite !flattens_bind, bind_app. Qed.

Lemma flattens_one t : flattens [t] = flatten t.
Proof. unfold flattens. cbn. by rewrite app_nil_r. Qed.

Lemma reps_alter_root f m ts t :
  (forall n, data (f n) = data n) -> (forall n, child (f n) = child n) -> NoDup (flattens ts) -> t ∈ ts ->
  Forall (rep m) ts -> Forall (rep (alter f (root t) m)) ts.
Proof.
  intros Fd Fc Hnd (l & r & ->)%list_elem_of_split H. apply Forall_app in H as [Hl [Ht Hr]%Forall_cons].
  rewrite flattens_app in Hnd. change (flattens (t :: r)) with (flatten t ++ flattens r) in Hnd.
  apply NoDup_app in Hnd as (_ & Hdl & (Hnt & Hdr & _)%NoDup_app).
  assert (Hother : forall ts, (forall q, q ∈ flattens ts -> q <> root t) -> Forall (rep m) ts -> Forall (rep (alter f (root t) m)) ts).
  { intros ts Hne Hts. apply Forall_forall. intros u Hu. rewrite Forall_forall in Hts. eapply rep_agree; [|by apply Hts].
    intros q Hq. rewrite lookup_alter_ne; [done|]. intros E. apply (Hne q); [apply elem_of_flattens; by exists u|done]. }
  apply Forall_app. split; [apply Hother; [|done]|constructor; [by apply rep_alter_root|apply Hother; [|done]]].
  - intros q Hq ->. apply (Hdl _ Hq). apply elem_of_app. left. apply root_flatten.
  - intros q Hq ->. apply (Hdr (root t)); [apply root_flatten|done].
Qed.

Lemma spare_edit f h : (forall q, data <$> f (items h) !! q = data <$> items h !! q) -> spare (on_items f h) = spare h.
Proof. intros H. unfold spare. cbn [items live on_items]. by rewrite (total_data (items h)). Qed.

Lemma data_alter f k (m : gmap ptr cJSON) q : (forall n, data (f n) = data n) -> data <$> alter f k m !! q = data <$> m !! q.
Proof.
  intros F. destruct (decide (k = q)) as [<-|]; [|by rewrite lookup_alter_ne]. rewrite lookup_alter_eq. destruct (m !! k); [|done]. cbn. by rewrite F.
Qed.

(** *** One child more *)

Definition unlinked (m : gmap ptr cJSON) (p : ptr) : Prop := exists n, m !! p = Some n /\ next n = None /\ prev n = None.

Definition linked (new : ptr) (done : list tree) (k : ptr) (m : gmap ptr cJSON) : gmap ptr cJSON :=
  match last (map root done) with
  | Some l => alter (with_prev (Some l)) k (alter (with_next (Some k)) l m)
  | None => alter (with_child (Some k)) new m
  end.

Lemma last_snoc_root done l : last (map root done) = Some l -> exists ds u, done = ds ++ [u] /\ l = root u.
Proof. rewrite last_Some. intros [ks E]. apply map_eq_app in E as (ds & us & -> & <- & E). destruct us as [|u [|]]; [done| |done]. injection E as <-. by exists ds, u. Qed.

Lemma open_linked m new d done t :
  open m new d done -> rep m t -> unlinked m (root t) -> NoDup (flatten t) -> (forall q, q ∈ flatten t -> q ∉ new :: flattens done) ->
  open (linked new done (root t) m) new d (done ++ [t]).
Proof.
  intros [Hn Hpay Href Hdl Hrep Hnd] Ht (nr & Hr & Hnx & Hpv) Hndt Hdis.
  pose proof (Hdis (root t) (root_flatten t)) as [Hrn Hrd]%not_elem_of_cons. pose proof Hnd as [Hnew Hndd]%NoDup_cons.
  assert (Hnt : new ∉ flatten t) by (intros H; apply (Hdis new H); by left).
  assert (Hnd' : NoDup (new :: flattens (done ++ [t]))).
  { rewrite flattens_app, flattens_one. constructor.
    - rewrite elem_of_app. tauto.
    - apply NoDup_app. split_and!; [done| |done]. intros q Hq Hq'. apply (Hdis q Hq'). by right. }
  assert (Hreps : Forall (rep m) (done ++ [t])) by (apply Forall_app; split; [done|by constructor]).
  unfold linked. destruct (last (map root done)) as [l|] eqn:El.
  - destruct (last_snoc_root done l El) as (ds & u & -> & ->).
    assert (Hu : root u ∈ flattens (ds ++ [u])) by (apply roots_flattens; rewrite map_app; apply elem_of_app; right; by left).
    assert (Hur : root u <> root t) by congruence. assert (Hun : root u <> new) by congruence.
    split; try done.
    + rewrite !lookup_alter_ne by done. rewrite Hn. by rewrite !map_app, <- !app_assoc; destruct ds.
    + rewrite map_app in Hdl |- *. cbn [map] in *. apply dl_app. rewrite map_app. cbn [map]. rewrite last_or_app. split.
      * apply dl_other; [intros H; apply Hrd, roots_flattens; by rewrite map_app|]. apply (dl_last _ _ _ _ None); [|done].
        intros H. apply roots_flattens in H. rewrite flattens_app, flattens_one in Hndd. apply NoDup_app in Hndd as (_ & Hx & _).
        by apply (Hx _ H), root_flatten.
      * split; [|done]. exists (with_prev (Some (root u)) nr). rewrite lookup_alter_eq, lookup_alter_ne, Hr by done. by split_and!.
    + apply reps_alter_root; [done|done|by apply NoDup_cons in Hnd' as [_ ?]|apply elem_of_app; right; by left|].
      apply reps_alter_root; [done|done|by apply NoDup_cons in Hnd' as [_ ?]|apply elem_of_app; left; apply elem_of_app; right; by left|done].
  - apply last_None, map_eq_nil in El as ->. cbn [app] in *. split; try done.
    + by rewrite lookup_alter_eq, Hn.
    + cbn [map dl hd_or]. split; [|done]. exists nr. by rewrite lookup_alter_ne by done.
    + constructor; [|done]. eapply rep_agree; [|exact Ht]. intros q Hq. rewrite lookup_alter_ne; [done|]. congruence.
Qed.

Lemma linked_run new done k h :
  is_Some (items h !! new) -> is_Some (items h !! k) -> (forall q, q ∈ map root done -> is_Some (items h !! q)) ->
  (match last (map root done) with Some l => suffix_object l k | None => upd (with_child (Some k)) new end) h =
  Some (tt, on_items (linked new done k) h).
Proof.
  intros Hn Hk Hd. unfold linked. destruct (last (map root done)) as [l|] eqn:El; [|by apply upd_run].
  apply suffix_object_run; [|done]. apply Hd. rewrite last_Some in El. destruct El as [ks ->]. apply elem_of_app. right. by left.
Qed.

Lemma linked_data new done k m q : data <$> linked new done k m !! q = data <$> m !! q.
Proof. unfold linked. destruct (last (map root done)); by rewrite ?data_alter. Qed.

Lemma linked_extends m0 m new done t :
  extends m0 m ((new :: flattens done) ++ flatten t) -> extends m0 (linked new done (root t) m) (new :: flattens (done ++ [t])).
Proof.
  intros H. rewrite flattens_app, flattens_one, app_comm_cons. unfold linked. destruct (last (map root done)) as [l|] eqn:El.
  - destruct (last_snoc_root done l El) as (ds & u & -> & ->). apply extends_alter.
    + apply extends_alter; [done|]. apply elem_of_app. left. right. apply roots_flattens. rewrite map_app. apply elem_of_app. right. by left.
    + apply elem_of_app. right. apply root_flatten.
  - apply extends_alter; [done|]. by left.
Qed.

(** The item when all its children are there. *)
Definition closed (new : ptr) (ts : list tree) (m : gmap ptr cJSON) : gmap ptr cJSON :=
  match head (map root ts) with Some c => alter (with_prev (last (map root ts))) c m | None => m end.

Lemma closed_rep m new d ts :
  open m new d ts -> rep (closed new ts m) (Tree new d ts) /\ unlinked (closed new ts m) new.
Proof.
  intros [Hn Hpay Href Hdl Hrep Hnd]. pose proof Hnd as [Hnew Hndd]%NoDup_cons. destruct ts as [|t ts].
  - split; [|by eexists]. apply (rep_tree _ _ _ _ _ Hn); try done. by rewrite Href.
  - cbn [map head] in *. unfold closed. cbn [map head].
    assert (Hne : root t <> new) by (intros E; apply Hnew; rewrite <- E; apply roots_flattens; by left). split.
    + apply (rep_tree _ _ _ _ (mkItem None None (Some (root t)) d)); [by rewrite lookup_alter_ne|done|done|by rewrite Href| |].
      * apply (dl_first _ None); [|done]. change (root t :: map root ts) with (map root (t :: ts)) in *.
        intros H. apply roots_flattens in H. change (flattens (t :: ts)) with (flatten t ++ flattens ts) in Hndd.
        apply NoDup_app in Hndd as (_ & Hx & _). apply (Hx (root t)); [apply root_flatten|done].
      * apply reps_alter_root; [done|done|done|by left|done].
    + exists (mkItem None None (Some (root t)) d). by rewrite lookup_alter_ne.
Qed.

Lemma closed_data new ts m q : data <$> closed new ts m !! q = data <$> m !! q.
Proof. unfold closed. destruct (head (map root ts)); by rewrite ?data_alter. Qed.

Lemma closed_extends m0 m new ts : extends m0 m (new :: flattens ts) -> extends m0 (closed new ts m) (new :: flattens ts).
Proof.
  intros H. unfold closed. destruct ts as [|t ts]; [done|]. cbn [map head]. apply extends_alter; [done|].
  right. apply roots_flattens. by left.
Qed.

(** *** The recursion *)

(** What a copy fails for. *)
Definition blame (depth : nat) (ht : nat) : Prop := (exists i, grant i = false) \/ (CJSON_CIRCULAR_LIMIT < depth + ht)%nat.

Definition rec_spec (fuel : nat) : Prop := forall t depth h,
  rep (items h) t -> no_refs t -> (2 * length (flatten t) <= S fuel)%nat ->
  (exists t' h', cJSON_Duplicate_rec grant fuel (Some (root t)) depth true h = Some (Some (root t'), h') /\ copy_of t t' /\
     extends (items h) (items h') (flatten t') /\ rep (items h') t' /\ NoDup (flatten t') /\ unlinked (items h') (root t') /\ spare h' = spare h) \/
  (blame depth (height t) /\ undone h (cJSON_Duplicate_rec grant fuel (Some (root t)) depth true h)).

Definition children_spec (fuel : nat) : Prop := forall m0 ts b done new d depth h,
  Forall (rep m0) ts -> dl m0 b (map root ts) None -> Forall no_refs ts -> (2 * length (flattens ts) <= fuel)%nat ->
  extends m0 (items h) (new :: flattens done) -> open (items h) new d done ->
  (exists ts' h', duplicate_children grant fuel new (head (map root ts)) (last (map root done)) depth h = Some (Some new, h') /\
     Forall2 copy_of ts ts' /\ extends m0 (items h') (new :: flattens (done ++ ts')) /\ rep (items h') (Tree new d (done ++ ts')) /\
     NoDup (new :: flattens (done ++ ts')) /\ unlinked (items h') new /\ spare h' = spare h) \/
  (blame depth (S (list_max (map height ts))) /\
     exists h', duplicate_children grant fuel new (head (map root ts)) (last (map root done)) depth h = Some (None, h') /\
       items h' = m0 /\ spare h' = spare h).

Lemma failed_open m0 new d done h :
  extends m0 (items h) (new :: flattens done) -> open (items h) new d done ->
  exists h', duplicate_failed new h = Some (None, h') /\ items h' = m0 /\ spare h' = spare h.
Proof.
  intros Hext Hopen. destruct (delete_open h new d done Hopen) as (h' & E & Hi & Hs). exists h'. unfold duplicate_failed. T_step E.
  split_and!; [done|rewrite Hi; by apply extends_remove|done].
Qed.

Lemma children_end fuel m0 done new d depth h :
  extends m0 (items h) (new :: flattens done) -> open (items h) new d done ->
  exists h', duplicate_children grant fuel new None (last (map root done)) depth h = Some (Some new, h') /\
     extends m0 (items h') (new :: flattens done) /\ rep (items h') (Tree new d done) /\ NoDup (new :: flattens done) /\
     unlinked (items h') new /\ spare h' = spare h.
Proof.
  intros Hext Hopen. pose proof Hopen as [Hn _ _ Hdl _ Hnd]. exists (on_items (closed new done) h). split_and!.
  - destruct fuel; cbn [duplicate_children]; T_step (get_run new h _ Hn); cbn [child]; unfold closed, on_items;
      (destruct done as [|t done]; cbn [map head]; [by destruct h|]);
      (assert (Hs : is_Some (items h !! root t)) by (eapply dl_lookup; [exact Hdl|by left])); by T_upd.
  - by apply closed_extends.
  - by apply closed_rep.
  - done.
  - by apply (closed_rep _ _ d).
  - apply spare_edit. intros q. apply closed_data.
Qed.

Lemma children_none fuel : forall m0 done new d depth h,
  extends m0 (items h) (new :: flattens done) -> open (items h) new d done ->
  exists ts' h', duplicate_children grant fuel new None (last (map root done)) depth h = Some (Some new, h') /\
     Forall2 copy_of [] ts' /\ extends m0 (items h') (new :: flattens (done ++ ts')) /\ rep (items h') (Tree new d (done ++ ts')) /\
     NoDup (new :: flattens (done ++ ts')) /\ unlinked (items h') new /\ spare h' = spare h.
Proof.
  intros m0 done new d depth h Hext Hopen. destruct (children_end fuel m0 done new d depth h Hext Hopen) as (h' & E & H).
  exists [], h'. rewrite app_nil_r. split; [exact E|]. split; [constructor|]. tauto.
Qed.

Lemma rec_step fuel : children_spec fuel -> rec_spec (S fuel).
Proof.
  intros IHc [p d ts] depth h Hrep Href Hf. inversion Hrep as [? ? ? n Hn Hd Hok Hc Hdl Hts]; subst. inversion Href as [? ? ? Hr Hrs]; subst.
  cbn [root cJSON_Duplicate_rec]. destruct (duplicate_item_spec h p n Hn) as [(q & cs & Hq & E)|(Hg & h' & E & Hu)].
  2: { right. split; [by left|]. exists h'. T_step E. by split. }
  unfold undone. T_step E. cbn [negb]. T_step (get_fresh h q (copied (data n)) cs p n Hq Hn). rewrite Hr in Hc. rewrite Hc.
  destruct (IHc (items h) ts (last (map root ts)) [] q (copied (data n)) depth (fresh_at h q (copied (data n)) cs)) as [H|H]; try done.
  - cbn in Hf. fold (flattens ts) in Hf. lia.
  - intros x. cbn [flattens map concat]. case_decide as Hx; [apply elem_of_cons in Hx as [->|Hx]; [done|by apply not_elem_of_nil in Hx]|].
    cbn [items fresh_at]. rewrite lookup_insert_ne; [done|]. intros ->. apply Hx. by left.
  - split; [apply lookup_insert_eq|apply copied_ok|apply copied_ref|done|done|by apply NoDup_singleton].
  - left. destruct H as (ts' & h' & E' & Hcp & Hext & Hrep' & Hnd & Hun & Hs). exists (Tree q (copied (data n)) ts'), h'.
    split_and!; [exact E'|by constructor|exact Hext|exact Hrep'|exact Hnd|exact Hun|]. rewrite Hs. by apply spare_fresh.
  - right. destruct H as (Hb & h' & E' & Hi & Hs). split; [exact Hb|]. exists h'. split_and!; [exact E'|done|]. rewrite Hs. by apply spare_fresh.
Qed.

Lemma open_extends m m' qs new d done : extends m m' qs -> open m new d done -> open m' new d done.
Proof.
  intros H [Hn Hpay Href Hdl Hrep Hnd]. split; try done.
  - rewrite (extends_old _ _ _ _ H); [done|by eexists].
  - by eapply extends_dl.
  - eapply Forall_impl; [exact Hrep|]. intros t Ht. by eapply extends_rep.
Qed.

Lemma children_step fuel : rec_spec fuel -> children_spec fuel -> children_spec (S fuel).
Proof.
  intros IHr IHc m0 [|t ts] b done new d depth h Hreps Hdl Hrefs Hf Hext Hopen.
  { left. destruct (children_none (S fuel) m0 done new d depth h Hext Hopen) as (ts' & h' & H). exists ts', h'. tauto. }
  apply Forall_cons in Hreps as [Ht Hts], Hrefs as [Hrt Hrts]. destruct Hdl as [(nt & Hnt & _ & Hnext) Hdl].
  change (flattens (t :: ts)) with (flatten t ++ flattens ts) in Hf. rewrite length_app in Hf.
  assert (Hlen : (1 <= length (flatten t))%nat) by (destruct t; cbn; lia).
  cbn [map head duplicate_children]. destruct (Nat.leb_spec CJSON_CIRCULAR_LIMIT depth) as [Hdeep|_].
  { right. split; [right; cbn [map]; destruct t; cbn [height list_max foldr]; lia|]. by apply (failed_open m0 _ d done). }
  destruct (IHr t (S depth) h (extends_rep _ _ _ _ Hext Ht) Hrt ltac:(lia)) as [H|[Hb H]].
  2: { right. split.
       - destruct Hb as [Hb|Hb]; [by left|right]. cbn [map list_max foldr]. lia.
       - destruct H as (h1 & E & Hi & Hs). T_step E. rewrite <- Hs. apply (failed_open m0 _ d done); by rewrite Hi. }
  destruct H as (t' & h1 & E & Hcp & Hext1 & Hrep1 & Hnd1 & Hun1 & Hs1). T_step E. clear E.
  assert (Hold : forall q, q ∈ new :: flattens done -> is_Some (items h !! q)).
  { intros q. destruct Hopen as [Hn _ _ _ Hdone _]. intros [->|(u & Hq & Hu)%elem_of_flattens]%elem_of_cons; [by eexists|].
    rewrite Forall_forall in Hdone. by apply (rep_in _ u q (Hdone u Hu)). }
  assert (Hdis : forall q, q ∈ flatten t' -> q ∉ new :: flattens done).
  { intros q Hq Hin. destruct (Hold q Hin) as [x Hx]. pose proof (extends_new _ _ _ q Hext1 Hq). congruence. }
  assert (Hopen1 : open (items h1) new d done) by (by eapply open_extends).
  assert (Hnew1 : forall q, q ∈ new :: flattens done -> is_Some (items h1 !! q))
    by (intros q Hq; rewrite (extends_old _ _ _ q Hext1); by apply Hold).
  rewrite (T_run_Some _ _ _ _ _ (linked_run new done (root t') h1 ltac:(apply Hnew1; by left)
    ltac:(destruct Hun1 as (x & Hx & _); by eexists) ltac:(intros q Hq; apply Hnew1; right; by apply roots_flattens))).
  pose proof (open_linked _ _ _ _ _ Hopen1 Hrep1 Hun1 Hnd1 Hdis) as Hopen2.
  pose proof (linked_extends _ _ _ _ _ (extends_trans _ _ _ _ _ Hext Hext1 Hdis)) as Hext2.
  set (h2 := on_items (linked new done (root t')) h1) in *.
  assert (Hnt2 : items h2 !! root t = Some nt) by (rewrite (extends_old _ _ _ _ Hext2); [done|by eexists]).
  T_step (get_run (root t) h2 nt Hnt2). assert (next nt = head (map root ts)) as -> by (rewrite Hnext; by destruct ts).
  assert (Hs2 : spare h2 = spare h) by (unfold h2; rewrite spare_edit; [done|intros q; apply linked_data]).
  assert (Hlast : last (map root (done ++ [t'])) = Some (root t')) by (rewrite map_app; apply last_snoc).
  destruct (IHc m0 ts (Some (root t)) (done ++ [t']) new d depth h2 Hts Hdl Hrts ltac:(lia) Hext2 Hopen2) as [H|[Hb H]];
    rewrite Hlast in H.
  - left. destruct H as (ts' & h' & E & Hcps & H). exists (t' :: ts'), h'. rewrite <- app_assoc in H. rewrite <- Hs2.
    split; [exact E|]. split; [by constructor|exact H].
  - right. split; [destruct Hb as [Hb|Hb]; [by left|right; cbn [map list_max foldr]; unfold list_max in *; lia]|]. by rewrite <- Hs2.
Qed.

Lemma duplicate_specs fuel : rec_spec fuel /\ children_spec fuel.
Proof.
  induction fuel as [|fuel [IHr IHc]]; [|split; [by apply rec_step|by apply children_step]]. split.
  - intros [p d ts] depth h _ _ Hf. cbn in Hf. lia.
  - intros m0 [|t ts] b done new d depth h _ _ _ Hf Hext Hopen.
    + left. destruct (children_none 0 m0 done new d depth h Hext Hopen) as (ts' & h' & H). exists ts', h'. tauto.
    + change (flattens (t :: ts)) with (flatten t ++ flattens ts) in Hf. destruct t. cbn in Hf. lia.
Qed.
End Duplicate.

(** *** The forest of a tree *)

Fixpoint nodes (t : tree) : list (ptr * (payload * list ptr)) :=
  match t with Tree p d ts => (p, (d, map root ts)) :: concat (map nodes ts) end.
Definition forest_of (t : tree) : forest := list_to_map (nodes t).

Lemma concat_bind {X Y} (f : X -> list Y) l : concat (map f l) = l ≫= f.
Proof. induction l as [|x l IH]; [done|]. cbn. by rewrite IH. Qed.

Lemma nodes_flatten t : (nodes t).*1 = flatten t.
Proof.
  induction t as [p d ts IH] using tree_nested_ind. cbn [nodes flatten fmap list_fmap fst]. f_equal.
  induction IH as [|t ts Ht _ IH]; [done|]. cbn. by rewrite fmap_app, Ht, IH.
Qed.

Lemma elem_of_nodes p d ts x : x ∈ nodes (Tree p d ts) <-> x = (p, (d, map root ts)) \/ exists t, t ∈ ts /\ x ∈ nodes t.
Proof. cbn [nodes]. rewrite elem_of_cons, concat_bind, list_elem_of_bind. split; intros [H|(t & H1 & H2)]; eauto. Qed.

Lemma nodes_in t q x : (q, x) ∈ nodes t -> q ∈ flatten t.
Proof. intros H. rewrite <- nodes_flatten. change q with (fst (q, x)). by apply list_elem_of_fmap_2. Qed.

Lemma nodes_kids t q d ks k : (q, (d, ks)) ∈ nodes t -> k ∈ ks -> k ∈ flatten t.
Proof.
  induction t as [p e ts IH] using tree_nested_ind. intros [[= -> -> ->]|(t & Ht & H)]%elem_of_nodes Hk.
  - right. by apply roots_flattens.
  - rewrite Forall_forall in IH. right. apply elem_of_flattens. exists t. split; [by apply IH|done].
Qed.

Lemma forest_of_lookup t q x : NoDup (flatten t) -> forest_of t !! q = Some x <-> (q, x) ∈ nodes t.
Proof. intros H. symmetry. apply elem_of_list_to_map. by rewrite nodes_flatten. Qed.

Lemma forest_of_None t q : q ∉ flatten t -> forest_of t !! q = None.
Proof. intros H. apply not_elem_of_list_to_map_1. by rewrite nodes_flatten. Qed.

Lemma rep_nodes m t q d ks : rep m t -> (q, (d, ks)) ∈ nodes t ->
  exists n, m !! q = Some n /\ data n = d /\ payload_ok d /\ (if has d cJSON_IsReference then ks = [] else child n = head ks) /\ dl m (last ks) ks None.
Proof.
  induction t as [p e ts IH] using tree_nested_ind. intros H. inversion H as [? ? ? n Hn Hd Hok Hc Hdl Hts]; subst. rewrite Forall_forall in IH, Hts.
  intros [[= -> -> ->]|(t & Ht & Hq)]%elem_of_nodes; [|by apply (IH t Ht (Hts t Ht))].
  exists n. split_and!; try done. destruct (has (data n) cJSON_IsReference); [by subst|done].
Qed.

(** Every item but the root is the child of one item. *)
Lemma nodes_parent t k : k ∈ flatten t -> k = root t \/ exists q d ks, (q, (d, ks)) ∈ nodes t /\ k ∈ ks.
Proof.
  induction t as [p d ts IH] using tree_nested_ind. rewrite Forall_forall in IH.
  intros [->|(t & Hq & Ht)%elem_of_flattens]%elem_of_cons; [by left|right].
  destruct (IH t Ht Hq) as [->|(q & e & ks & Hn & Hk)].
  - exists p, d, (map root ts). split; [apply elem_of_nodes; by left|by apply list_elem_of_fmap_2].
  - exists q, e, ks. split; [apply elem_of_nodes; right; by exists t|done].
Qed.

Lemma flatten_apart p d ts : NoDup (flatten (Tree p d ts)) -> p ∉ flattens ts /\ NoDup (flattens ts).
Proof. cbn [flatten]. fold (flattens ts). by intros H%NoDup_cons. Qed.

Lemma flattens_NoDup_in ts t : NoDup (flattens ts) -> t ∈ ts -> NoDup (flatten t).
Proof.
  intros H (l1 & l2 & ->)%list_elem_of_split. rewrite flattens_app in H. apply NoDup_app in H as (_ & _ & H).
  change (flattens (t :: l2)) with (flatten t ++ flattens l2) in H. by apply NoDup_app in H as [? _].
Qed.

Lemma nodes_not_root t q d ks : NoDup (flatten t) -> (q, (d, ks)) ∈ nodes t -> root t ∉ ks.
Proof.
  destruct t as [p e ts]. cbn [root flatten]. fold (flattens ts). intros [Hp _]%NoDup_cons [[= -> -> ->]|(t & Ht & Hq)]%elem_of_nodes Hk.
  - by apply Hp, roots_flattens.
  - apply Hp, elem_of_flattens. exists t. split; [by eapply nodes_kids|done].
Qed.

Lemma flattens_apart ts i j t u q : NoDup (flattens ts) -> ts !! i = Some t -> ts !! j = Some u -> q ∈ flatten t -> q ∈ flatten u -> i = j.
Proof.
  revert i j. induction ts as [|v ts IH]; intros i j Hnd Hi Hj Ht Hu; [done|].
  change (flattens (v :: ts)) with (flatten v ++ flattens ts) in Hnd. apply NoDup_app in Hnd as (_ & Hd & Hnd).
  destruct i as [|i], j as [|j]; cbn in Hi, Hj; [done| | |f_equal; by apply IH]; exfalso.
  - injection Hi as ->. apply (Hd q Ht), elem_of_flattens. exists u. split; [done|by eapply list_elem_of_lookup_2].
  - injection Hj as ->. apply (Hd q Hu), elem_of_flattens. exists t. split; [done|by eapply list_elem_of_lookup_2].
Qed.

Lemma nodes_one_place t p d ks q e js i j k :
  NoDup (flatten t) -> (p, (d, ks)) ∈ nodes t -> (q, (e, js)) ∈ nodes t -> ks !! i = Some k -> js !! j = Some k -> p = q /\ i = j.
Proof.
  induction t as [r f ts IH] using tree_nested_ind. rewrite Forall_forall in IH. intros [_ Hnds]%flatten_apart.
  assert (Hroots : forall a b, map root ts !! a = Some k -> map root ts !! b = Some k -> a = b).
  { intros a b Ha Hb. rewrite list_lookup_fmap in Ha, Hb. destruct (ts !! a) as [u|] eqn:Eu; [|done]. destruct (ts !! b) as [v|] eqn:Ev; [|done].
    injection Ha as Ha. injection Hb as Hb. apply (flattens_apart ts a b u v k); try done; [rewrite <- Ha|rewrite <- Hb]; apply root_flatten. }
  assert (Hmix : forall a u s g ls, map root ts !! a = Some k -> u ∈ ts -> (s, (g, ls)) ∈ nodes u -> k ∈ ls -> False).
  { intros a u s g ls Ha Hu Hs Hk. rewrite list_lookup_fmap in Ha. destruct (ts !! a) as [v|] eqn:Ev; [|done]. injection Ha as Ha.
    apply list_elem_of_lookup in Hu as [b Eu]. assert (a = b) as -> by (apply (flattens_apart ts a b v u k); try done; [rewrite <- Ha; apply root_flatten|by eapply nodes_kids]).
    rewrite Eu in Ev. injection Ev as ->. apply (nodes_not_root v s g ls); [|done|by rewrite Ha].
    apply (flattens_NoDup_in ts); [done|by eapply list_elem_of_lookup_2]. }
  intros [[= -> -> ->]|(u & Hu & Hp)]%elem_of_nodes [[= -> -> ->]|(v & Hv & Hq)]%elem_of_nodes Hi Hj.
  - split; [done|by apply Hroots].
  - destruct (Hmix i v q e js); try done. by eapply list_elem_of_lookup_2.
  - destruct (Hmix j u p d ks); try done. by eapply list_elem_of_lookup_2.
  - pose proof Hu as [a Ea]%list_elem_of_lookup. pose proof Hv as [b Eb]%list_elem_of_lookup.
    assert (a = b) as ->.
    { apply (flattens_apart ts a b u v k); try done; eapply nodes_kids; try done; by eapply list_elem_of_lookup_2. }
    assert (u = v) as -> by congruence. apply (IH v Hv); try done. by apply (flattens_NoDup_in ts).
Qed.

(** *** A tree more *)

Section Added.
Context (base : Z) (h h' : heap) (A : forest) (t : tree).
Context (Rep : represents base h A) (Hext : extends (items h) (items h') (flatten t)).
Context (Ht : rep (items h') t) (Hnd : NoDup (flatten t)) (Hroot : unlinked (items h') (root t)) (Hs : spare h' = spare h).

Definition added : forest := forest_of t ∪ A.

Lemma added_new q x : (q, x) ∈ nodes t -> added !! q = Some x.
Proof. intros H. apply lookup_union_Some_l. by apply forest_of_lookup. Qed.

Lemma added_old q : q ∉ flatten t -> added !! q = A !! q.
Proof. intros H. apply lookup_union_r. by apply forest_of_None. Qed.

Lemma old_apart q : is_Some (A !! q) -> q ∉ flatten t.
Proof.
  intros [x Hx] Hq. destruct (node_of _ _ _ _ (rp_refines _ _ _ Rep) Hx) as (n & Hn & _).
  pose proof (extends_new _ _ _ q Hext Hq). congruence.
Qed.

Lemma added_cases q : (exists d ks, (q, (d, ks)) ∈ nodes t /\ added !! q = Some (d, ks)) \/ (q ∉ flatten t /\ added !! q = A !! q).
Proof.
  destruct (decide (q ∈ flatten t)) as [Hq|Hq]; [left|right; split; [done|by apply added_old]].
  rewrite <- nodes_flatten in Hq. apply list_elem_of_fmap in Hq as ([q' [d ks]] & -> & H). exists d, ks. split; [done|by apply added_new].
Qed.

Lemma kids_added_new q d ks : (q, (d, ks)) ∈ nodes t -> kids added q = ks.
Proof. intros H. unfold kids. by rewrite (added_new q _ H). Qed.
Lemma kids_added_old q : q ∉ flatten t -> kids added q = kids A q.
Proof. intros H. unfold kids. by rewrite added_old. Qed.

Lemma kids_old_apart q k : k ∈ kids A q -> k ∉ flatten t.
Proof. intros Hk. apply old_apart. eapply kid_is_Some; [apply Rep|done]. Qed.

Lemma orphan_added q : orphan added q -> q ∈ flatten t -> q = root t.
Proof.
  intros Ho Hq. destruct (nodes_parent t q Hq) as [->|(p & d & ks & Hp & Hk)]; [done|]. destruct (Ho p). by rewrite (kids_added_new p d ks).
Qed.

Lemma refines_added : refines (items h') added.
Proof.
  pose proof (rp_refines _ _ _ Rep) as [Rd Rc Rl Ro].
  assert (Hsame : forall q, q ∉ flatten t -> items h' !! q = items h !! q) by (intros q; by apply extends_same).
  split.
  - intros q. destruct (added_cases q) as [(d & ks & Hq & ->)|[Hq ->]].
    + destruct (rep_nodes _ _ _ _ _ Ht Hq) as (n & -> & <- & _). done.
    + by rewrite Hsame.
  - intros q d ks n Hq Hn. destruct (added_cases q) as [(d' & ks' & Hq' & E)|[Hq' E]]; rewrite E in Hq.
    + injection Hq as -> ->. destruct (rep_nodes _ _ _ _ _ Ht Hq') as (n' & Hn' & _ & _ & H & _). by replace n with n' by congruence.
    + rewrite Hsame in Hn by done. by apply (Rc q).
  - intros q. destruct (added_cases q) as [(d & ks & Hq & _)|[Hq _]].
    + rewrite (kids_added_new q d ks Hq). by destruct (rep_nodes _ _ _ _ _ Ht Hq) as (n & _ & _ & _ & _ & H).
    + rewrite kids_added_old by done. by eapply extends_dl.
  - intros q n Hn Ho. destruct (decide (q ∈ flatten t)) as [Hq|Hq].
    + rewrite (orphan_added q Ho Hq) in Hn. destruct Hroot as (n' & Hn' & H). by replace n with n' by congruence.
    + rewrite Hsame in Hn by done. apply (Ro q n Hn). intros p Hp. apply (Ho p).
      destruct (decide (p ∈ flatten t)) as [Hpt|Hpt]; [|by rewrite kids_added_old].
      unfold kids in Hp. destruct (A !! p) as [x|] eqn:E; [|by apply not_elem_of_nil in Hp]. by destruct (old_apart p ltac:(by eexists) Hpt).
Qed.

Lemma acc_nodes U u :
  (forall q x, (q, x) ∈ nodes u -> U !! q = Some x) -> forall q, q ∈ flatten u -> Acc (fun c q => c ∈ kids U q) q.
Proof.
  induction u as [p d ts IH] using tree_nested_ind. rewrite Forall_forall in IH. intros HU.
  assert (IH' : forall v, v ∈ ts -> forall q, q ∈ flatten v -> Acc (fun c q => c ∈ kids U q) q).
  { intros v Hv. apply IH; [done|]. intros q x Hx. apply HU, elem_of_nodes. right. by exists v. }
  intros q [->|(v & Hq & Hv)%elem_of_flattens]%elem_of_cons; [|by apply (IH' v)].
  constructor. intros c Hc. rewrite (kids_eq U p d (map root ts)) in Hc by (apply HU, elem_of_nodes; by left).
  apply list_elem_of_fmap in Hc as (v & -> & Hv). by apply (IH' v), root_flatten.
Qed.

Lemma forest_ok_added : forest_ok added.
Proof.
  pose proof (rp_ok _ _ _ Rep) as [Hone Hacc]. split.
  - intros p q i j k Hi Hj.
    assert (Hside : forall p i, kids added p !! i = Some k -> (p ∈ flatten t <-> k ∈ flatten t)).
    { clear -Rep Hext Hnd. intros p i Hi. pose proof (list_elem_of_lookup_2 _ _ _ Hi) as Hk. destruct (added_cases p) as [(d & ks & Hp & _)|[Hp _]].
      - rewrite (kids_added_new p d ks Hp) in Hk. split; intros _; [by eapply nodes_kids|by eapply nodes_in].
      - rewrite kids_added_old in Hk by done. split; [done|]. intros H. by destruct (kids_old_apart p k Hk). }
    destruct (added_cases p) as [(d & ks & Hp & _)|[Hp _]].
    + assert (Hq : q ∈ flatten t) by (apply (Hside q j Hj), (Hside p i Hi); by eapply nodes_in).
      destruct (added_cases q) as [(e & js & Hq' & _)|[Hq' _]]; [|done].
      rewrite (kids_added_new p d ks Hp) in Hi. rewrite (kids_added_new q e js Hq') in Hj. by apply (nodes_one_place t p d ks q e js i j k).
    + assert (Hq : q ∉ flatten t) by (intros H; by apply Hp, (Hside p i Hi), (Hside q j Hj)).
      rewrite kids_added_old in Hi, Hj by done. by apply (Hone p q i j k).
  - intros p. destruct (decide (p ∈ flatten t)) as [Hp|Hp]; [by apply (acc_nodes added t added_new)|].
    revert Hp. induction (Hacc p) as [p _ IH]. intros Hp. constructor. intros c Hc. rewrite kids_added_old in Hc by done.
    apply IH; [done|]. by apply (kids_old_apart p).
Qed.

Lemma represents_added : represents base h' added.
Proof.
  split; [apply refines_added|apply forest_ok_added| |].
  - intros q d ks. destruct (added_cases q) as [(e & js & Hq & ->)|[Hq ->]]; [|apply Rep].
    intros [= -> ->]. by destruct (rep_nodes _ _ _ _ _ Ht Hq) as (n & _ & _ & Hd & _).
  - unfold spare in Hs. pose proof (rp_live _ _ _ Rep). lia.
Qed.
End Added.

(** ** The theorem *)

(** C27: The copy of a value without references is a tree of items that were
    not there before, which hold what the items of the value hold with texts
    of their own; all items that were there are as they were, and the heap is
    that of the forest with the copy.  When memory runs out, or the value is
    deeper than the limit, the heap is that of the forest before: what there
    was of the copy has been given back. *)
Theorem Duplicate_copies grant base h A t :
  represents base h A -> tree_of A t -> no_refs t ->
  (exists t' h', cJSON_Duplicate grant (Some (root t)) true h = Some (Some (root t'), h') /\ copy_of t t' /\
     extends (items h) (items h') (flatten t') /\ represents base h' (forest_of t' ∪ A)) \/
  (((exists i, grant i = false) \/ (CJSON_CIRCULAR_LIMIT < height t)%nat) /\
     exists h', cJSON_Duplicate grant (Some (root t)) true h = Some (None, h') /\ items h' = items h /\ represents base h' A).
Proof.
  intros Rep Htree Href. pose proof Rep as [R Hok Hpay Hl]. pose proof (tree_rep _ A t R Hpay Htree) as Hrep.
  assert (Hlen : (length (flatten t) <= size (items h))%nat).
  { apply length_dom; [by apply (flatten_NoDup A)|]. intros q. by apply rep_in. }
  destruct (proj1 (duplicate_specs grant (2 * S (size (items h)))) t 0%nat h Hrep Href ltac:(lia)) as [H|[Hb H]]; [left|right].
  - destruct H as (t' & h' & E & Hcp & Hext & Ht' & Hnd & Hun & Hs). exists t', h'. split_and!; [exact E|done|done|].
    by apply (represents_added base h h' A t').
  - destruct H as (h' & E & Hi & Hs). split; [destruct Hb as [Hb|Hb]; [by left|by right]|]. exists h'. split_and!; [exact E|done|].
    split; [by rewrite Hi|done|done|]. unfold spare in Hs. rewrite Hi in *. lia.
Qed.

(** The copy of an array of a number. *)
Lemma Duplicate_copies_witness :
  exists h A t t' h', represents 5 h A /\ tree_of A t /\ no_refs t /\ root t = 0%nat /\
    cJSON_Duplicate (fun _ => true) (Some 0%nat) true h = Some (Some (root t'), h') /\ copy_of t t' /\
    represents 5 h' (forest_of t' ∪ A).
Proof.
  assert (exists h A, plays (fun _ => true) (empty_heap 5) ∅ [Make MakeArray; Make (MakeNumber (S754_zero false)); AddToArray 0 1]%nat h A /\
            tree_of A (Tree 0%nat (made MakeArray) [Tree 1%nat (made (MakeNumber (S754_zero false))) []])) as (h & A & Hp & Ht).
  { do 2 eexists. split; [do 3 play; apply plays_nil|]. repeat (constructor; try (vm_compute; reflexivity)). }
  assert (Rep : represents 5 h A) by (eapply plays_represents; [apply represents_empty|exact Hp]).
  assert (Href : no_refs (Tree 0%nat (made MakeArray) [Tree 1%nat (made (MakeNumber (S754_zero false))) []])) by (repeat (constructor; try reflexivity)).
  destruct (Duplicate_copies (fun _ => true) 5 h A _ Rep Ht Href) as [(t' & h' & E & Hc & _ & Rep')|[[[i Hi]|Hd] _]].
  - exists h, A. do 3 eexists. split; [exact Rep|]. split; [exact Ht|]. split; [exact Href|]. split; [reflexivity|]. split; [exact E|]. split; [exact Hc|exact Rep'].
  - discriminate.
  - exfalso. revert Hd. apply Nat.ltb_nlt. vm_compute. reflexivity.
Defined.
