(* ===== verification/JsonCompare.v ===== *)
(** * Comparing JSON values

    [cJSON_Compare] on the heap of [JsonTree], and the relation between values
    that it decides: arrays item by item, objects by the names of their members,
    whatever their order. *)

From S2P Require Import Prelude.
From Stdlib Require Import SpecFloat.
From Stdlib Require Import Strings.String.
From S2P Require Import Json.
From S2P Require Import JsonPrint.
From S2P Require Import JsonTree.
From S2P Require Import JsonForest.
From S2P Require Import JsonDelete.
From S2P Require Import JsonClient.
From S2P Require Import JsonDuplicate.
#[local] Open Scope Z_scope.
#[local] Abbreviation length := List.length.
#[local] Abbreviation concat := List.concat.
#[local] Abbreviation forest := (gmap ptr (payload * list ptr)).

(** ** The functions *)

(** [type & 0xFF] *)
Definition low (d : payload) : Z := Z.land (type d) 255.

Definition cJSON_IsInvalid (d : payload) : bool := low d =? cJSON_Invalid.
Definition cJSON_IsNull (d : payload) : bool := low d =? cJSON_NULL.
Definition cJSON_IsRaw (d : payload) : bool := low d =? cJSON_Raw.

Definition valid_type (t : Z) : bool :=
  bool_decide (t ∈ [cJSON_False; cJSON_True; cJSON_NULL; cJSON_Number; cJSON_String; cJSON_Raw; cJSON_Array; cJSON_Object]).

Definition same_valuestring (d e : payload) : bool :=
  match valuestring d, valuestring e with
  | Some s, Some t => same_text (text_of s) (text_of t)
  | _, _ => false
  end.

(** One unit of fuel for each call and each turn of a loop. *)
Fixpoint cJSON_Compare (fuel : nat) (a b : option ptr) (case_sensitive : bool) : T bool :=
  match a, b, fuel with
  | Some a, Some b, S fuel =>
      na ← get a;
      nb ← get b;
      let t := low (data na) in
      if negb (t =? low (data nb)) then mret false
      else if negb (valid_type t) then mret false
      else if (a =? b)%nat then mret true
      else if (t =? cJSON_False) || (t =? cJSON_True) || (t =? cJSON_NULL) then mret true
      else if t =? cJSON_Number then mret (compare_double (valuedouble (data na)) (valuedouble (data nb)))
      else if (t =? cJSON_String) || (t =? cJSON_Raw) then mret (same_valuestring (data na) (data nb))
      else if t =? cJSON_Array then compare_elements fuel (child na) (child nb) case_sensitive
      else
        ok ← compare_members fuel (child na) b case_sensitive;
        if (ok : bool) then compare_members fuel (child nb) a case_sensitive else mret false
  | Some _, Some _, O => fault
  | _, _, _ => mret false
  end
with compare_elements (fuel : nat) (a_element b_element : option ptr) (case_sensitive : bool) : T bool :=
  match a_element, b_element, fuel with
  | Some a, Some b, S fuel =>
      ok ← cJSON_Compare fuel (Some a) (Some b) case_sensitive;
      if (ok : bool) then
        na ← get a;
        nb ← get b;
        compare_elements fuel (next na) (next nb) case_sensitive
      else mret false
  | Some _, Some _, O => fault
  | _, _, _ => mret (bool_decide (a_element = b_element))
  end
(** From [element] on: each has its like in [other]. *)
with compare_members (fuel : nat) (element : option ptr) (other : ptr) (case_sensitive : bool) : T bool :=
  match element, fuel with
  | Some e, S fuel =>
      n ← get e;
      o ← get_object_item (Some other) (text_of <$> string (data n)) case_sensitive;
      match o with
      | None => mret false
      | Some _ =>
          ok ← cJSON_Compare fuel (Some e) o case_sensitive;
          if (ok : bool) then compare_members fuel (next n) other case_sensitive else mret false
      end
  | Some _, O => fault
  | None, _ => mret true
  end.

(** ** What it decides *)

Definition payload_of (t : tree) : payload := match t with Tree _ d _ => d end.
Definition kids_of (t : tree) : list tree := match t with Tree _ _ ts => ts end.
Definition name_of (t : tree) : option (list Z) := text_of <$> string (payload_of t).

(** The first member of a name, as [get_object_item] finds it. *)
Fixpoint member (name : list Z) (case_sensitive : bool) (ts : list tree) : option tree :=
  match ts with
  | [] => None
  | t :: ts =>
      match name_of t with
      | None => if case_sensitive then None else member name case_sensitive ts
      | Some s => if (if case_sensitive then same_text else same_name) name s then Some t else member name case_sensitive ts
      end
  end.

Inductive equal (cs : bool) : tree -> tree -> Prop :=
  | equal_same a b : root a = root b -> low (payload_of a) = low (payload_of b) -> valid_type (low (payload_of a)) = true -> equal cs a b
  | equal_plain a b k : k ∈ [cJSON_False; cJSON_True; cJSON_NULL] -> low (payload_of a) = k -> low (payload_of b) = k -> equal cs a b
  | equal_number a b : low (payload_of a) = cJSON_Number -> low (payload_of b) = cJSON_Number ->
      compare_double (valuedouble (payload_of a)) (valuedouble (payload_of b)) = true -> equal cs a b
  | equal_text a b k : k ∈ [cJSON_String; cJSON_Raw] -> low (payload_of a) = k -> low (payload_of b) = k ->
      same_valuestring (payload_of a) (payload_of b) = true -> equal cs a b
  | equal_array a b : low (payload_of a) = cJSON_Array -> low (payload_of b) = cJSON_Array ->
      Forall2 (equal cs) (kids_of a) (kids_of b) -> equal cs a b
  | equal_object a b : low (payload_of a) = cJSON_Object -> low (payload_of b) = cJSON_Object ->
      Forall (fun x => exists name y, name_of x = Some name /\ member name cs (kids_of b) = Some y /\ equal cs x y) (kids_of a) ->
      Forall (fun y => exists name x, name_of y = Some name /\ member name cs (kids_of a) = Some x /\ equal cs y x) (kids_of b) ->
      equal cs a b.

Section Compare.
Context (h : heap) (cs : bool).

(** A value of the heap that the functions may walk. *)
Definition good (t : tree) : Prop := rep (items h) t /\ no_refs t /\ NoDup (flatten t).

Lemma good_node t : good t -> exists n, items h !! root t = Some n /\ data n = payload_of t /\ child n = head (map root (kids_of t)) /\
  dl (items h) (last (map root (kids_of t))) (map root (kids_of t)) None /\ Forall good (kids_of t).
Proof.
  intros (Hrep & Href & Hnd). inversion Hrep as [p d ts n Hn Hd Hok Hc Hdl Hts]; subst. inversion Href as [? ? ? Hr Hrs]; subst.
  exists n. cbn [root payload_of kids_of]. rewrite Hr in Hc. split_and!; try done.
  apply flatten_apart in Hnd as [_ Hnd]. rewrite Forall_forall in Hts, Hrs. apply Forall_forall. intros t Ht.
  split_and!; [by apply Hts|by apply Hrs|by eapply flattens_NoDup_in].
Qed.

Lemma item_named_trees name fuel ts b :
  dl (items h) b (map root ts) None -> Forall good ts -> (length ts <= fuel)%nat ->
  item_named fuel name cs (head (map root ts)) h = Some (root <$> member name cs ts, h).
Proof.
  revert fuel b. induction ts as [|t ts IH]; intros fuel b Hdl Hg Hf; [by destruct fuel|].
  destruct fuel as [|fuel]; [cbn in Hf; lia|]. destruct Hdl as [(n & Hn & _ & Hx) Hdl]. apply Forall_cons in Hg as [Ht Hts].
  cbn [map head item_named]. T_step (get_run (root t) h n Hn). destruct (good_node t Ht) as (n' & Hn' & Hd & _). replace n' with n in * by congruence.
  rewrite Hd. assert (next n = head (map root ts)) as -> by (rewrite Hx; by destruct ts).
  specialize (IH fuel (Some (root t)) Hdl Hts ltac:(cbn in Hf; lia)). cbn [member]. unfold name_of.
  destruct (string (payload_of t)) as [s|]; cbn [fmap option_fmap option_map].
  - by destruct ((if cs then same_text else same_name) name (text_of s)).
  - by destruct cs.
Qed.

Lemma roots_length t : good t -> (length (kids_of t) <= size (items h))%nat.
Proof.
  intros Ht. destruct (good_node t Ht) as (n & _ & _ & _ & Hdl & _). rewrite <- (length_map root). apply length_dom; [|intros q Hq; by eapply dl_lookup].
  destruct Ht as (_ & _ & Hnd). destruct t as [p d ts]. apply flatten_apart in Hnd as [_ Hnd]. cbn [kids_of].
  apply NoDup_alt. intros i j k Hi Hj. rewrite list_lookup_fmap in Hi, Hj.
  destruct (ts !! i) as [u|] eqn:Eu; [|done]. destruct (ts !! j) as [v|] eqn:Ev; [|done]. injection Hi as Hi. injection Hj as Hj.
  apply (flattens_apart ts i j u v k); try done; [rewrite <- Hi|rewrite <- Hj]; apply root_flatten.
Qed.

Lemma get_object_item_tree name t :
  good t -> get_object_item (Some (root t)) (Some name) cs h = Some (root <$> member name cs (kids_of t), h).
Proof.
  intros Ht. pose proof (roots_length t Ht) as Hl. destruct (good_node t Ht) as (n & Hn & _ & Hc & Hdl & Hg).
  unfold get_object_item. T_step (get_run (root t) h n Hn). rewrite Hc. unfold siblings_fuel, mbind, T_bind.
  eapply item_named_trees; [exact Hdl|done|lia].
Qed.

Lemma member_in name ts t : member name cs ts = Some t -> t ∈ ts.
Proof.
  induction ts as [|u ts IH]; [done|]. cbn. destruct (name_of u) as [s|].
  - destruct (_ name s); [intros [= ->]; by left|intros H; right; by apply IH].
  - destruct cs; [done|]. intros H. right. by apply IH.
Qed.

(** *** Each function by its relation *)

Definition decides (o : option (bool * heap)) (P : Prop) : Prop := exists r, o = Some (r, h) /\ (r = true <-> P).

Lemma decides_bool b P : (b = true <-> P) -> decides ((mret b : T bool) h) P.
Proof. intros H. by exists b. Qed.

Definition has_like (other : tree) (x : tree) : Prop :=
  exists name y, name_of x = Some name /\ member name cs (kids_of other) = Some y /\ equal cs x y.

Definition compare_spec (fuel : nat) : Prop := forall a b, good a -> good b -> (2 * (length (flatten a) + length (flatten b)) <= fuel)%nat ->
  decides (cJSON_Compare fuel (Some (root a)) (Some (root b)) cs h) (equal cs a b).

Definition elements_spec (fuel : nat) : Prop := forall ts us x y,
  Forall good ts -> Forall good us -> dl (items h) x (map root ts) None -> dl (items h) y (map root us) None ->
  (2 * (length (flattens ts) + length (flattens us)) < fuel)%nat ->
  decides (compare_elements fuel (head (map root ts)) (head (map root us)) cs h) (Forall2 (equal cs) ts us).

Definition members_spec (fuel : nat) : Prop := forall ts b x,
  Forall good ts -> good b -> dl (items h) x (map root ts) None ->
  (2 * (length (flattens ts) + length (flattens (kids_of b))) < fuel)%nat ->
  decides (compare_members fuel (head (map root ts)) (root b) cs h) (Forall (has_like b) ts).

Lemma flattens_cons t ts : length (flattens (t :: ts)) = (length (flatten t) + length (flattens ts))%nat.
Proof. change (flattens (t :: ts)) with (flatten t ++ flattens ts). apply length_app. Qed.

Lemma flatten_kids_of t : length (flatten t) = S (length (flattens (kids_of t))).
Proof. by destruct t. Qed.

Lemma elements_step fuel : compare_spec fuel -> elements_spec fuel -> elements_spec (S fuel).
Proof.
  intros IHc IHe [|t ts] [|u us] x y Hts Hus Hdt Hdu Hf; cbn [map head compare_elements].
  - apply decides_bool. by split; [constructor|].
  - apply decides_bool. split; [done|]. intros H. inversion H.
  - apply decides_bool. split; [done|]. intros H. inversion H.
  - rewrite !flattens_cons in Hf. apply Forall_cons in Hts as [Ht Hts], Hus as [Hu Hus].
    destruct (IHc t u Ht Hu) as (r & E & Hr); [pose proof (flatten_kids_of t); pose proof (flatten_kids_of u); lia|]. unfold decides. T_step E.
    destruct Hdt as [(n & Hn & _ & Hx) Hdt], Hdu as [(m & Hm & _ & Hy) Hdu]. destruct r.
    + T_step (get_run (root t) h n Hn). T_step (get_run (root u) h m Hm).
      assert (next n = head (map root ts)) as -> by (rewrite Hx; by destruct ts).
      assert (next m = head (map root us)) as -> by (rewrite Hy; by destruct us).
      pose proof (flatten_kids_of t). destruct (IHe ts us _ _ Hts Hus Hdt Hdu ltac:(lia)) as (r & E' & Hr'). exists r. split; [exact E'|].
      rewrite Hr', Forall2_cons. tauto.
    + exists false. split; [done|]. rewrite Forall2_cons. split; [done|]. intros [H _]. by apply Hr in H.
Qed.

Lemma members_step fuel : compare_spec fuel -> members_spec fuel -> members_spec (S fuel).
Proof.
  intros IHc IHm [|t ts] b x Hts Hb Hdt Hf; cbn [map head compare_members].
  - apply decides_bool. by split; [constructor|].
  - rewrite !flattens_cons in Hf. apply Forall_cons in Hts as [Ht Hts]. destruct Hdt as [(n & Hn & _ & Hx) Hdt].
    unfold decides. T_step (get_run (root t) h n Hn). destruct (good_node t Ht) as (n' & Hn' & Hd & _). replace n' with n in * by congruence.
    rewrite Hd. fold (name_of t). destruct (name_of t) as [name|] eqn:Hname.
    2: { exists false. split; [done|]. rewrite Forall_cons. split; [done|]. intros [(s & y & Hs & _) _]. congruence. }
    T_step (get_object_item_tree name b Hb). destruct (member name cs (kids_of b)) as [y|] eqn:Hy; cbn [fmap option_fmap option_map].
    2: { exists false. split; [done|]. rewrite Forall_cons. split; [done|]. intros [(s & y & Hs & Hm & _) _]. congruence. }
    pose proof (member_in _ _ _ Hy) as Hin. destruct (good_node b Hb) as (_ & _ & _ & _ & _ & Hgood). rewrite Forall_forall in Hgood.
    pose proof (length_flatten y _ Hin) as Hly. pose proof (flatten_kids_of t).
    destruct (IHc t y Ht (Hgood y Hin) ltac:(lia)) as (r & E & Hr). T_step E. destruct r.
    + assert (next n = head (map root ts)) as -> by (rewrite Hx; by destruct ts).
      destruct (IHm ts b _ Hts Hb Hdt ltac:(lia)) as (r & E' & Hr'). exists r. split; [exact E'|]. rewrite Hr', Forall_cons.
      split; [|tauto]. intros H'. split; [|done]. exists name, y. tauto.
    + exists false. split; [done|]. rewrite Forall_cons. split; [done|]. intros [(s & z & Hs & Hm & He) _]. apply Hr. congruence.
Qed.

(** What is left when the types agree, are valid, and the items are two. *)
Lemma decides_iff o P Q : (P <-> Q) -> decides o P -> decides o Q.
Proof. intros H (r & E & Hr). exists r. split; [done|]. by rewrite Hr. Qed.

Lemma plain_valid k : k ∈ [cJSON_False; cJSON_True; cJSON_NULL] \/ k ∈ [cJSON_String; cJSON_Raw] -> valid_type k = true.
Proof. rewrite !elem_of_cons. intros H. decompose [or] H; subst; try done; exfalso; by eapply not_elem_of_nil. Qed.

Lemma equal_type a b : equal cs a b -> low (payload_of a) = low (payload_of b) /\ valid_type (low (payload_of a)) = true.
Proof.
  intros [u v _ E V|u v k Hk E1 E2|u v E1 E2 _|u v k Hk E1 E2 _|u v E1 E2 _|u v E1 E2 _ _]; [by split|..];
    (split; [congruence|]); rewrite E1; try done; apply plain_valid; tauto.
Qed.

(** The relation for two items of one type, by the type. *)
Ltac clash := exfalso; match goal with A : low ?x = _, B : low ?x = _ |- _ => rewrite A in B; discriminate B end.
Ltac equal_inv H :=
  destruct H as [u v Eq Et V|u v k' Hk E1 E2|u v E1 E2 X|u v k' Hk E1 E2 X|u v E1 E2 X|u v E1 E2 X Y];
  [contradiction|try done; try (by split); try clash..];
  rewrite !elem_of_cons in Hk; decompose [or] Hk; subst k'; try clash; exfalso; by eapply not_elem_of_nil.

Lemma equal_number_iff a b : root a <> root b -> low (payload_of a) = cJSON_Number -> low (payload_of b) = cJSON_Number ->
  equal cs a b <-> compare_double (valuedouble (payload_of a)) (valuedouble (payload_of b)) = true.
Proof. intros Hne Ha Hb. split; [|by apply equal_number]. intros H. equal_inv H. Qed.

Lemma equal_text_iff a b k : root a <> root b -> k ∈ [cJSON_String; cJSON_Raw] -> low (payload_of a) = k -> low (payload_of b) = k ->
  equal cs a b <-> same_valuestring (payload_of a) (payload_of b) = true.
Proof.
  intros Hne Hin Ha Hb. split; [|by apply (equal_text _ _ _ k)]. intros H.
  assert (Hk' : k = cJSON_String \/ k = cJSON_Raw) by (apply elem_of_cons in Hin as [->|[->|Hin]%elem_of_cons]; [by left|by right|by apply not_elem_of_nil in Hin]).
  destruct Hk' as [-> | ->]; equal_inv H.
Qed.

Lemma equal_array_iff a b : root a <> root b -> low (payload_of a) = cJSON_Array -> low (payload_of b) = cJSON_Array ->
  equal cs a b <-> Forall2 (equal cs) (kids_of a) (kids_of b).
Proof. intros Hne Ha Hb. split; [|by apply equal_array]. intros H. equal_inv H. Qed.

Lemma equal_object_iff a b : root a <> root b -> low (payload_of a) = cJSON_Object -> low (payload_of b) = cJSON_Object ->
  equal cs a b <-> Forall (has_like b) (kids_of a) /\ Forall (has_like a) (kids_of b).
Proof. intros Hne Ha Hb. split; [|intros [? ?]; by apply equal_object]. intros H. equal_inv H. Qed.

Lemma valid_cases t : valid_type t = true ->
  (t ∈ [cJSON_False; cJSON_True; cJSON_NULL] /\ (t =? cJSON_False) || (t =? cJSON_True) || (t =? cJSON_NULL) = true) \/ t = cJSON_Number \/
  t ∈ [cJSON_String; cJSON_Raw] \/ t = cJSON_Array \/ t = cJSON_Object.
Proof.
  unfold valid_type. intros H%bool_decide_eq_true. rewrite !elem_of_cons in *.
  decompose [or] H; subst; try (by left; split; [tauto|]); tauto.
Qed.

Lemma compare_step fuel : elements_spec fuel -> members_spec fuel -> compare_spec (S fuel).
Proof.
  intros IHe IHm a b Ha Hb Hf. destruct (good_node a Ha) as (na & Hna & Hda & Hca & Hdla & Hga).
  destruct (good_node b Hb) as (nb & Hnb & Hdb & Hcb & Hdlb & Hgb). rewrite !flatten_kids_of in Hf.
  unfold decides. cbn [cJSON_Compare]. T_step (get_run (root a) h na Hna). T_step (get_run (root b) h nb Hnb). rewrite Hda, Hdb.
  destruct (Z.eqb_spec (low (payload_of a)) (low (payload_of b))) as [Et|Et]; cbn [negb].
  2: { apply decides_bool. split; [done|]. by intros [H _]%equal_type. }
  destruct (valid_type (low (payload_of a))) eqn:Hv; cbn [negb].
  2: { apply decides_bool. split; [done|]. intros [_ H]%equal_type. congruence. }
  destruct (Nat.eqb_spec (root a) (root b)) as [Er|Er]; [apply decides_bool; by split; [intros _; apply equal_same|]|].
  destruct (valid_cases _ Hv) as [[Hk E]|[E|[Hk|[E|E]]]].
  - rewrite E. apply decides_bool. split; [|done]. intros _. by eapply equal_plain.
  - rewrite E. cbn. apply decides_bool. symmetry. apply equal_number_iff; congruence.
  - assert (Hif : (low (payload_of a) =? cJSON_False) || (low (payload_of a) =? cJSON_True) || (low (payload_of a) =? cJSON_NULL) = false /\
              (low (payload_of a) =? cJSON_Number) = false /\ (low (payload_of a) =? cJSON_String) || (low (payload_of a) =? cJSON_Raw) = true).
    { rewrite !elem_of_cons in Hk. decompose [or] Hk; [rewrite H; by split_and!|rewrite H0; by split_and!|by apply not_elem_of_nil in H0]. }
    destruct Hif as (-> & -> & ->). apply decides_bool. symmetry. by eapply equal_text_iff.
  - rewrite E. cbn. rewrite Hca, Hcb. eapply decides_iff; [symmetry; apply equal_array_iff; congruence|].
    eapply IHe; [done|done|exact Hdla|exact Hdlb|lia].
  - rewrite E. cbn. rewrite Hca, Hcb.
    destruct (IHm (kids_of a) b _ Hga Hb Hdla ltac:(lia)) as (r & E1 & Hr). T_step E1.
    assert (Hiff : equal cs a b <-> Forall (has_like b) (kids_of a) /\ Forall (has_like a) (kids_of b)) by (apply equal_object_iff; congruence).
    destruct r; [|apply decides_bool; rewrite Hiff; intuition congruence].
    destruct (IHm (kids_of b) a _ Hgb Ha Hdlb ltac:(lia)) as (r & E2 & Hr2). exists r. split; [exact E2|]. rewrite Hiff, Hr2. tauto.
Qed.

Lemma compare_specs fuel : compare_spec fuel /\ elements_spec fuel /\ members_spec fuel.
Proof.
  induction fuel as [|fuel (IHc & IHe & IHm)]; [|split_and!; [by apply compare_step|by apply elements_step|by apply members_step]].
  split_and!; [|intros ? ? ? ? ? ? ? ? Hf; lia|intros ? ? ? ? ? ? Hf; lia].
  intros a b _ _ Hf. rewrite (flatten_kids_of a) in Hf. lia.
Qed.
End Compare.

(** C28: Comparing two values without references always ends, reads only items
    of the two, changes nothing, and says whether they are [equal]: of one
    valid type, with the same number up to the precision of doubles, the same
    text, equal items in the same order, or equal members under each name of
    either. *)
Theorem Compare_decides base h A a b cs :
  represents base h A -> tree_of A a -> tree_of A b -> no_refs a -> no_refs b ->
  forall fuel, (2 * (length (flatten a) + length (flatten b)) <= fuel)%nat ->
  exists r, cJSON_Compare fuel (Some (root a)) (Some (root b)) cs h = Some (r, h) /\ (r = true <-> equal cs a b).
Proof.
  intros [R Hok Hpay _] Ha Hb Hra Hrb fuel Hf. apply compare_specs; [| |done].
  - split_and!; [by apply (tree_rep _ A)|done|by apply (flatten_NoDup A)].
  - split_and!; [by apply (tree_rep _ A)|done|by apply (flatten_NoDup A)].
Qed.

(** ** A value and its copy *)

(** A value that compares equal to itself: the types are valid, the numbers are
    numbers, the texts are there, and each member is the first of its name. *)
Inductive comparable (cs : bool) : tree -> Prop :=
  | comparable_tree p d ts :
      valid_type (low d) = true ->
      (low d = cJSON_Number -> compare_double (valuedouble d) (valuedouble d) = true) ->
      (low d ∈ [cJSON_String; cJSON_Raw] -> is_Some (valuestring d)) ->
      (low d = cJSON_Object -> Forall (fun x => exists name, name_of x = Some name /\ member name cs ts = Some x) ts) ->
      Forall (comparable cs) ts -> comparable cs (Tree p d ts).

Lemma c_str_twice l : c_str (c_str l) = c_str l.
Proof. induction l as [|c l IH]; [done|]. cbn. destruct (c =? 0) eqn:E; [done|]. cbn. by rewrite E, IH. Qed.

Lemma low_copied d : low (copied d) = low d.
Proof. unfold low. cbn [copied type]. rewrite <- Z.land_assoc. by change (Z.land (Z.lnot cJSON_IsReference) 255) with 255. Qed.

Section Copies.
Context (cs : bool).

Definition same (a b : list Z) : bool := (if cs then same_text else same_name) a b.

Lemma same_c_str a b : same a (c_str b) = same a b /\ same (c_str a) b = same a b.
Proof. unfold same. destruct cs; unfold same_text, same_name; by rewrite !c_str_twice. Qed.

(** Names that the searches do not tell apart. *)
Definition alike (s t : option (list Z)) : Prop := c_str <$> s = c_str <$> t.

Lemma alike_same s t a : alike s t -> (fun x => same a x) <$> s = (fun x => same a x) <$> t.
Proof.
  destruct s as [s|], t as [t|]; try done. unfold alike. cbn. intros [=E]. f_equal. rewrite <- (proj1 (same_c_str a s)), E. apply same_c_str.
Qed.

Lemma alike_copied p d ts p' ts' : alike (name_of (Tree p d ts)) (name_of (Tree p' (copied d) ts')).
Proof.
  unfold alike, name_of. cbn [payload_of copied string]. destruct (has d cJSON_StringIsConst); [done|]. destruct (string d); [|done]. cbn. by rewrite c_str_twice.
Qed.

Lemma copy_alike t t' : copy_of t t' -> alike (name_of t) (name_of t').
Proof. intros []. apply alike_copied. Qed.

Lemma member_same name name' ts : c_str name = c_str name' -> member name cs ts = member name' cs ts.
Proof.
  intros E. induction ts as [|t ts IH]; [done|]. cbn. destruct (name_of t) as [s|]; [|by rewrite IH].
  fold (same name s) (same name' s). rewrite <- (proj2 (same_c_str name s)), E, (proj2 (same_c_str name' s)). by rewrite IH.
Qed.

Lemma member_copy name ts ts' : Forall2 copy_of ts ts' ->
  match member name cs ts, member name cs ts' with Some t, Some t' => copy_of t t' | None, None => True | _, _ => False end.
Proof.
  induction 1 as [|t t' ts ts' Ht _ IH]; [done|]. pose proof (copy_alike t t' Ht) as Ha. cbn.
  destruct (name_of t) as [s|], (name_of t') as [s'|]; try done.
  - pose proof (alike_same _ _ name Ha) as E. cbn in E. injection E as E. fold (same name s) (same name s'). rewrite E. by destruct (same name s').
  - by destruct cs.
Qed.

Lemma equal_copy t t' : comparable cs t -> copy_of t t' -> equal cs t t' /\ equal cs t' t.
Proof.
  revert t'. induction t as [p d ts IH] using tree_nested_ind. intros t' Hc Ht'. inversion Ht' as [? ? ? p' ts' Hts]; subst.
  inversion Hc as [? ? ? Hv Hnum Htext Hobj Hkids]; subst. rewrite Forall_forall in IH, Hkids.
  pose proof (low_copied d) as El. set (a := Tree p d ts). set (b := Tree p' (copied d) ts').
  assert (Ea : low (payload_of a) = low d) by done. assert (Eb : low (payload_of b) = low d) by done.
  assert (Hrec : forall x y, x ∈ ts -> copy_of x y -> equal cs x y /\ equal cs y x) by (intros x y Hx; apply IH; [done|by apply Hkids]).
  destruct (valid_cases _ Hv) as [[Hk _]|[E|[Hk|[E|E]]]].
  - split; by apply (equal_plain _ _ _ (low d)).
  - rewrite E in *. split; apply equal_number; try done; cbn; by apply Hnum.
  - destruct (Htext Hk) as [s Hs]. assert (Hsame : same_valuestring d (copied d) = true /\ same_valuestring (copied d) d = true).
    { unfold same_valuestring, same_text. cbn [copied valuestring]. rewrite Hs. cbn. rewrite c_str_twice. split; by apply bool_decide_eq_true. }
    destruct Hsame as [H1 H2]. split; by apply (equal_text _ _ _ (low d)).
  - rewrite E in *. split; apply equal_array; try done; cbn [kids_of a b].
    + clear -Hts Hrec. induction Hts as [|x y ts ts' Hxy _ IH]; [done|]. constructor; [by destruct (Hrec x y ltac:(by left) Hxy)|]. apply IH. intros u v Hu. apply Hrec. by right.
    + clear -Hts Hrec. induction Hts as [|x y ts ts' Hxy _ IH]; [done|]. constructor; [by destruct (Hrec x y ltac:(by left) Hxy)|]. apply IH. intros u v Hu. apply Hrec. by right.
  - rewrite E in *. specialize (Hobj eq_refl). rewrite Forall_forall in Hobj.
    assert (Hall : forall x y, x ∈ ts -> copy_of x y -> exists name name', name_of x = Some name /\ name_of y = Some name' /\
              member name' cs ts = Some x /\ exists z, member name cs ts' = Some z /\ copy_of x z).
    { intros x y Hx Hxy. destruct (Hobj x Hx) as (name & Hn & Hm). pose proof (copy_alike x y Hxy) as Ha. rewrite Hn in Ha.
      destruct (name_of y) as [name'|] eqn:Hny; [|done]. exists name, name'. injection Ha as Ha. split_and!; try done.
      - by rewrite <- (member_same name name' ts Ha).
      - pose proof (member_copy name ts ts' Hts) as H. rewrite Hm in H. destruct (member name cs ts') as [z|]; [|done]. by exists z. }
    assert (H1 : Forall (has_like cs b) ts).
    { apply Forall_forall. intros x Hx. pose proof Hx as [i Hi]%list_elem_of_lookup. destruct (Forall2_lookup_l _ _ _ i x Hts Hi) as (y & _ & Hxy).
      destruct (Hall x y Hx Hxy) as (name & _ & Hn & _ & _ & z & Hz & Hxz). exists name, z. split_and!; [done|done|by destruct (Hrec x z Hx Hxz)]. }
    assert (H2 : Forall (has_like cs a) ts').
    { apply Forall_forall. intros y [i Hi]%list_elem_of_lookup. destruct (Forall2_lookup_r _ _ _ i y Hts Hi) as (x & Hx%list_elem_of_lookup_2 & Hxy).
      destruct (Hall x y Hx Hxy) as (_ & name' & _ & Hn & Hm & _). exists name', x. split_and!; [done|done|by destruct (Hrec x y Hx Hxy)]. }
    split; by apply equal_object.
Qed.
End Copies.

Lemma copy_no_refs t t' : copy_of t t' -> no_refs t'.
Proof.
  revert t'. induction t as [p d ts IH] using tree_nested_ind. intros t' H. inversion H as [? ? ? p' ts' Hts]; subst. constructor; [apply copied_ref|].
  apply Forall_forall. intros y [i Hi]%list_elem_of_lookup. destruct (Forall2_lookup_r _ _ _ i y Hts Hi) as (x & Hx%list_elem_of_lookup_2 & Hxy).
  rewrite Forall_forall in IH. by apply (IH x Hx).
Qed.

Lemma Duplicate_copied grant base h A t :
  represents base h A -> tree_of A t -> no_refs t -> forall p h', cJSON_Duplicate grant (Some (root t)) true h = Some (Some p, h') ->
  exists t', root t' = p /\ copy_of t t' /\ good h' t /\ good h' t'.
Proof.
  intros [R Hok Hpay Hl] Htree Href p h' E. pose proof (tree_rep _ A t R Hpay Htree) as Hrep. pose proof (flatten_NoDup A t Hok Htree) as Hnd.
  assert (Hlen : (length (flatten t) <= size (items h))%nat) by (apply length_dom; [done|]; intros q; by apply rep_in).
  destruct (proj1 (duplicate_specs grant (2 * S (size (items h)))) t 0%nat h Hrep Href ltac:(lia)) as [H|[_ (h1 & E1 & _)]].
  - destruct H as (t' & h1 & E1 & Hcp & Hext & Ht' & Hnd' & _).
    assert (E2 : cJSON_Duplicate grant (Some (root t)) true h = Some (Some (root t'), h1)) by exact E1. rewrite E in E2. injection E2 as -> ->.
    exists t'. split_and!; [done|done|split_and!; [by eapply extends_rep|done|done]|split_and!; [done|by eapply copy_no_refs|done]].
  - assert (E2 : cJSON_Duplicate grant (Some (root t)) true h = Some (None, h1)) by exact E1. congruence.
Qed.

(** C29: A value that can be compared at all compares equal to the copy that
    [cJSON_Duplicate] has made of it, both ways. *)
Theorem Duplicate_Compare grant base h A t cs p h' :
  represents base h A -> tree_of A t -> no_refs t -> comparable cs t ->
  cJSON_Duplicate grant (Some (root t)) true h = Some (Some p, h') ->
  exists N, forall fuel, (N <= fuel)%nat ->
    cJSON_Compare fuel (Some (root t)) (Some p) cs h' = Some (true, h') /\
    cJSON_Compare fuel (Some p) (Some (root t)) cs h' = Some (true, h').
Proof.
  intros Rep Ht Href Hcmp E. destruct (Duplicate_copied grant base h A t Rep Ht Href p h' E) as (t' & <- & Hcp & Hg & Hg').
  destruct (equal_copy cs t t' Hcmp Hcp) as [H1 H2]. exists (2 * (length (flatten t) + length (flatten t')))%nat. intros fuel Hf.
  destruct (proj1 (compare_specs h' cs fuel) t t' Hg Hg' Hf) as (r1 & E1 & Hr1).
  destruct (proj1 (compare_specs h' cs fuel) t' t Hg' Hg ltac:(lia)) as (r2 & E2 & Hr2).
  apply Hr1 in H1. apply Hr2 in H2. by subst.
Qed.

(** *** An object of an array and a text *)

Definition demo_calls : list call :=
  [Make MakeObject; Make MakeArray; AddToObject 0 [97%Z] 1 false; Make (MakeNumber (S754_finite false (2 ^ 52) (-52))); AddToArray 1 2;
   Make (MakeString [65%Z]); AddToObject 0 [98%Z] 3 false]%nat.
Definition demo : heap * forest := default (empty_heap 5, ∅) (final (fun _ => true) demo_calls).
Definition demo_array : tree := Tree 1%nat (payload_at (snd demo) 1%nat) [Tree 2%nat (payload_at (snd demo) 2%nat) []].
Definition demo_object : tree := Tree 0%nat (payload_at (snd demo) 0%nat) [demo_array; Tree 3%nat (payload_at (snd demo) 3%nat) []].

Lemma demo_represents : represents 5 (fst demo) (snd demo).
Proof.
  apply (plays_represents (fun _ => true) 5 (empty_heap 5) ∅ demo_calls); [apply represents_empty|].
  let d := eval vm_compute in demo in replace demo with d by (vm_compute; reflexivity).
  unfold demo_calls. do 7 play. apply plays_nil.
Qed.

Lemma demo_trees : tree_of (snd demo) demo_object /\ tree_of (snd demo) demo_array /\ no_refs demo_object /\ no_refs demo_array.
Proof. split_and!; repeat (constructor; try (vm_compute; reflexivity)). Qed.

Lemma demo_comparable : comparable true demo_object.
Proof.
  assert (Htext : forall d : payload, valuestring d = None -> low d <> cJSON_String -> low d <> cJSON_Raw ->
            low d ∈ [cJSON_String; cJSON_Raw] -> is_Some (valuestring d)).
  { intros d _ H1 H2. rewrite !elem_of_cons. intros [|[|H]]; try done. by apply not_elem_of_nil in H. }
  assert (Ho : forall d : payload, forall P : Prop, low d <> cJSON_Object -> low d = cJSON_Object -> P) by done.
  repeat match goal with
  | |- comparable _ _ => constructor
  | |- Forall (comparable _) _ => constructor
  | |- valid_type _ = true => vm_compute; reflexivity
  | |- _ = cJSON_Number -> _ => intros _; vm_compute; reflexivity
  | |- _ = cJSON_Number -> _ => intros H; vm_compute in H; discriminate
  | |- _ ∈ _ -> _ => intros _; eexists; vm_compute; reflexivity
  | |- _ ∈ _ -> _ => apply Htext; vm_compute; (reflexivity || discriminate)
  | |- _ = cJSON_Object -> _ => intros H; vm_compute in H; discriminate
  | |- _ = cJSON_Object -> _ => intros _; repeat constructor; eexists; split; vm_compute; reflexivity
  end.
Qed.

Lemma Compare_decides_witness :
  exists r, cJSON_Compare 12 (Some 0%nat) (Some 1%nat) true (fst demo) = Some (r, fst demo) /\ (r = true <-> equal true demo_object demo_array).
Proof.
  destruct demo_trees as (Ho & Ha & Hro & Hra).
  apply (Compare_decides 5 (fst demo) (snd demo) demo_object demo_array true demo_represents Ho Ha Hro Hra). vm_compute. lia.
Defined.

Lemma Duplicate_Compare_witness :
  exists h' N, cJSON_Duplicate (fun _ => true) (Some 0%nat) true (fst demo) = Some (Some 4%nat, h') /\
    forall fuel, (N <= fuel)%nat -> cJSON_Compare fuel (Some 0%nat) (Some 4%nat) true h' = Some (true, h').
Proof.
  destruct demo_trees as (Ho & _ & Hro & _).
  assert (E : exists h', cJSON_Duplicate (fun _ => true) (Some 0%nat) true (fst demo) = Some (Some 4%nat, h')) by (eexists; vm_compute; reflexivity).
  destruct E as (h' & E).
  destruct (Duplicate_Compare (fun _ => true) 5 (fst demo) (snd demo) demo_object true 4%nat h' demo_represents Ho Hro demo_comparable E) as (N & H).
  exists h', N. split; [exact E|]. intros fuel Hf. apply (H fuel Hf).
Defined.
