(* ===== verification/JsonMinify.v ===== *)
(** * Removing white space from JSON text: [cJSON_Minify]

    [cJSON_Minify] of [src/src/cJSON/cJSON.c] works in place: it reads the text
    at one position and writes it, without white space and comments, at another
    one that never passes the first.  A result of [None] is an access outside of
    the block, or too little fuel.  [minified] is the text that it makes. *)

From S2P Require Import Prelude.
From Stdlib Require Import SpecFloat.
From Stdlib Require Import Strings.String.
From S2P Require Import LmDefs.
From S2P Require Import Timing.
From S2P Require Import Json.
From S2P Require Import JsonPrint.
#[local] Open Scope Z_scope.
#[local] Abbreviation length := List.length.
#[local] Abbreviation concat := List.concat.

(** ** In place *)

Definition store (b : list Z) (i : nat) (c : Z) : option (list Z) :=
  if (i <? length b)%nat then Some (<[i := c]> b) else None.

Definition slash : Z := 47.
Definition star : Z := 42.
Definition blank (c : Z) : bool := (c =? 32) || (c =? 9) || (c =? 13) || (c =? 10).

(** One unit of fuel for each character. *)
Fixpoint skip_oneline_from (fuel : nat) (b : list Z) (input : nat) : option nat :=
  match fuel with
  | O => None
  | S fuel =>
      c ← b !! input;
      if c =? 0 then Some input
      else if c =? 10 then Some (S input)
      else skip_oneline_from fuel b (S input)
  end.
Definition skip_oneline_comment (fuel : nat) (b : list Z) (input : nat) : option nat := skip_oneline_from fuel b (input + 2).

Fixpoint skip_multiline_from (fuel : nat) (b : list Z) (input : nat) : option nat :=
  match fuel with
  | O => None
  | S fuel =>
      c ← b !! input;
      if c =? 0 then Some input
      else
        stop ← (if c =? star then d ← b !! S input; Some (d =? slash) else Some false);
        if (stop : bool) then Some (input + 2)%nat else skip_multiline_from fuel b (S input)
  end.
Definition skip_multiline_comment (fuel : nat) (b : list Z) (input : nat) : option nat := skip_multiline_from fuel b (input + 2).

(** The block and the two positions after the loop. *)
Fixpoint minify_string_from (fuel : nat) (b : list Z) (input output : nat) : option (list Z * nat * nat) :=
  match fuel with
  | O => None
  | S fuel =>
      c ← b !! input;
      if c =? 0 then Some (b, input, output)
      else
        b ← store b output c;
        c ← b !! input;
        if c =? quote then b ← store b output quote; Some (b, S input, S output)
        else
          escaped ← (if c =? backslash then d ← b !! S input; Some (d =? quote) else Some false);
          if (escaped : bool) then
            d ← b !! S input;
            b ← store b (S output) d;
            minify_string_from fuel b (S (S input)) (S (S output))
          else minify_string_from fuel b (S input) (S output)
  end.

Definition minify_string (fuel : nat) (b : list Z) (input output : nat) : option (list Z * nat * nat) :=
  c ← b !! input;
  b ← store b output c;
  minify_string_from fuel b (S input) (S output).

Fixpoint minify_from (fuel : nat) (b : list Z) (json into : nat) : option (list Z) :=
  match fuel with
  | O => None
  | S fuel =>
      c ← b !! json;
      if c =? 0 then store b into 0
      else if blank c then minify_from fuel b (S json) into
      else if c =? slash then
        d ← b !! S json;
        if d =? slash then json ← skip_oneline_comment fuel b json; minify_from fuel b json into
        else if d =? star then json ← skip_multiline_comment fuel b json; minify_from fuel b json into
        else minify_from fuel b (S json) into
      else if c =? quote then '(b, json, into) ← minify_string fuel b json into; minify_from fuel b json into
      else b ← store b into c; minify_from fuel b (S json) (S into)
  end.

Definition cJSON_Minify (json : option (list Z)) : option (option (list Z)) :=
  match json with
  | None => Some None
  | Some b => Some <$> minify_from (S (length b)) b 0 0
  end.

(** ** The text that it makes *)

Fixpoint after_line (l : list Z) : list Z :=
  match l with [] => [] | c :: l => if c =? 10 then l else after_line l end.

Fixpoint after_comment (l : list Z) : list Z :=
  match l with
  | [] => []
  | c :: l => if (c =? star) && (match l with d :: _ => d =? slash | [] => false end) then drop 1 l else after_comment l
  end.

(** A string up to its end, and what follows. *)
Fixpoint string_end (l : list Z) : list Z * list Z :=
  match l with
  | [] => ([], [])
  | c :: l =>
      if c =? quote then ([quote], l)
      else match l with
           | d :: l' => if (c =? backslash) && (d =? quote) then let '(s, r) := string_end l' in (c :: d :: s, r)
                        else let '(s, r) := string_end l in (c :: s, r)
           | [] => ([c], [])
           end
  end.

(** One unit of fuel for each character, and one for the end. *)
Fixpoint minified (fuel : nat) (l : list Z) : list Z :=
  match fuel, l with
  | S fuel, c :: l =>
      if blank c then minified fuel l
      else if c =? slash then
        match l with
        | d :: l' => if d =? slash then minified fuel (after_line l')
                     else if d =? star then minified fuel (after_comment l')
                     else minified fuel l
        | [] => []
        end
      else if c =? quote then let '(s, r) := string_end l in quote :: s ++ minified fuel r
      else c :: minified fuel l
  | _, _ => []
  end.

Lemma after_line_length l : (length (after_line l) <= length l)%nat.
Proof. induction l as [|c l IH]; cbn; [done|]. destruct (c =? 10); lia. Qed.

Lemma after_comment_length l : (length (after_comment l) <= length l)%nat.
Proof. induction l as [|c l IH]; cbn -[drop]; [done|]. case_match; [rewrite length_drop|]; lia. Qed.

(** Two characters at a time, or one. *)
Lemma two_step_ind (Q : list Z -> Prop) :
  Q [] -> (forall c, Q [c]) -> (forall c d l, Q l -> Q (d :: l) -> Q (c :: d :: l)) -> forall l, Q l.
Proof.
  intros H0 H1 H2 l. assert (H : Q l /\ forall c, Q (c :: l)); [|by destruct H].
  induction l as [|d l [IH1 IH2]]; [by split|]. split; [apply IH2|]. intros c. by apply H2.
Qed.

Lemma string_end_two c d l :
  string_end (c :: d :: l) =
  (if c =? quote then ([quote], d :: l)
   else if (c =? backslash) && (d =? quote) then let '(s, r) := string_end l in (c :: d :: s, r)
   else let '(s, r) := string_end (d :: l) in (c :: s, r)).
Proof. reflexivity. Qed.

Lemma string_end_length l : (length (snd (string_end l)) <= length l)%nat.
Proof.
  induction l as [|c|c d l IH1 IH2] using two_step_ind; cbn -[string_end]; [done|cbn; case_match; cbn; lia|].
  rewrite string_end_two. destruct (c =? quote); [cbn; lia|].
  destruct (_ && _); [destruct (string_end l); cbn in *; lia|destruct (string_end (d :: l)); cbn in *; lia].
Qed.

(** More fuel changes nothing. *)
Lemma minified_fuel l : forall f g, (length l < f)%nat -> (length l < g)%nat -> minified f l = minified g l.
Proof.
  induction l as [l IH] using (well_founded_induction (well_founded_ltof _ (@length Z))). unfold ltof in IH.
  destruct l as [|c l], f as [|f], g as [|g]; cbn -[minified after_line after_comment string_end]; intros Hf Hg; try lia; try done.
  cbn [minified]. destruct (blank c); [apply IH; cbn; lia|]. destruct (c =? slash).
  - destruct l as [|d l]; [done|]. cbn in *. pose proof (after_line_length l). pose proof (after_comment_length l).
    destruct (d =? slash); [apply IH; cbn; lia|]. destruct (d =? star); apply IH; cbn; lia.
  - destruct (c =? quote); [|f_equal; apply IH; cbn; lia]. pose proof (string_end_length l) as Hs.
    destruct (string_end l) as [s r]. cbn in *. do 2 f_equal. apply IH; cbn; lia.
Qed.

(** ** In place is as good *)

(** [rest] is read from [i] on, [out] is written up to [o]. *)
Record at_ (b : list Z) (i : nat) (rest : list Z) (o : nat) (out : list Z) : Prop := {
  a_rest : drop i b = rest;
  a_out : take o b = out;
  a_o : length out = o;
  a_behind : (o <= i)%nat;
}.

Lemma at_read b i c rest o out : at_ b i (c :: rest) o out -> b !! i = Some c.
Proof. intros []. by rewrite <- (Nat.add_0_r i), <- lookup_drop, a_rest0. Qed.

Lemma at_next b i c rest o out : at_ b i (c :: rest) o out -> at_ b (S i) rest o out.
Proof.
  intros []. split; [|done..|lia]. replace (S i) with (i + 1)%nat by lia. by rewrite <- drop_drop, a_rest0.
Qed.

(** Writing the character that was read: the reader still finds it. *)
Lemma at_store b i c rest o out :
  at_ b i (c :: rest) o out ->
  exists b', store b o c = Some b' /\ b' !! i = Some c /\ at_ b' (S i) rest (S o) (out ++ [c]) /\ length b' = length b.
Proof.
  intros H. pose proof (at_read _ _ _ _ _ _ H) as Hi. pose proof (at_next _ _ _ _ _ _ H) as [Hr _ _ _]. destruct H as [_ Ho Hl Hb].
  pose proof (lookup_lt_Some _ _ _ Hi). exists (<[o:=c]> b). unfold store. rewrite (proj2 (Nat.ltb_lt _ _)) by lia.
  split; [done|]. split; [|split; [|by rewrite length_insert]].
  - destruct (decide (o = i)) as [->|Hne]; [by rewrite list_lookup_insert_eq by lia|by rewrite list_lookup_insert_ne by lia].
  - split; [by rewrite drop_insert_lt by lia| |rewrite length_app, Hl; cbn; lia|lia].
    rewrite (take_S_r _ _ c) by (rewrite list_lookup_insert_eq; [done|lia]). rewrite take_insert_ge by lia. by rewrite Ho.
Qed.

(** The NUL at the end. *)
Lemma at_end b i tail o out :
  at_ b i (0 :: tail) o out ->
  exists b', store b o 0 = Some b' /\ take (S o) b' = out ++ [0] /\ drop (S i) b' = tail /\ length b' = length b.
Proof. intros H. destruct (at_store _ _ _ _ _ _ H) as (b' & -> & _ & [] & ?). by exists b'. Qed.

#[local] Abbreviation nonzero := (Forall (fun c => c <> 0)).

Section InPlace.
(** What is behind the text. *)
Context (tail : list Z).

#[local] Abbreviation at_text b i text := (at_ b i (text ++ 0 :: tail)).

Lemma skip_oneline_at b l : forall i o out f,
  nonzero l -> at_text b i l o out -> (length l < f)%nat ->
  exists i', skip_oneline_from f b i = Some i' /\ at_text b i' (after_line l) o out.
Proof.
  induction l as [|c l IH]; intros i o out [|f] Hn H Hf; cbn [length] in Hf; try lia; cbn [skip_oneline_from after_line app] in *;
    rewrite (at_read _ _ _ _ _ _ H); cbn [mbind option_bind].
  - by exists i.
  - inversion_clear Hn. rewrite (proj2 (Z.eqb_neq c 0)) by done. apply at_next in H. destruct (c =? 10); [by exists (S i)|].
    apply IH; [done..|lia].
Qed.

Lemma skip_multiline_at b l : forall i o out f,
  nonzero l -> at_text b i l o out -> (length l < f)%nat ->
  exists i', skip_multiline_from f b i = Some i' /\ at_text b i' (after_comment l) o out.
Proof.
  induction l as [|c l IH]; intros i o out [|f] Hn H Hf; cbn [length] in Hf; try lia;
    cbn [skip_multiline_from after_comment app] in *; rewrite (at_read _ _ _ _ _ _ H); cbn [mbind option_bind].
  - by exists i.
  - inversion_clear Hn. rewrite (proj2 (Z.eqb_neq c 0)) by done. apply at_next in H. destruct (c =? star); cbn [andb].
    2: { cbn [mbind option_bind]. apply IH; [done..|lia]. }
    destruct l as [|d l]; cbn [app] in *; rewrite (at_read _ _ _ _ _ _ H); cbn [mbind option_bind].
    + change (0 =? slash) with false. cbn iota. apply (IH _ o out); [done..|lia].
    + destruct (d =? slash); [|apply IH; [done..|lia]]. exists (i + 2)%nat. split; [done|]. apply at_next in H.
      by replace (i + 2)%nat with (S (S i)) by lia.
Qed.

Lemma store_written b i rest o out c : at_ b i rest (S o) (out ++ [c]) -> store b o c = Some b.
Proof.
  intros [_ Ho Hl _]. rewrite length_app in Hl. cbn in Hl.
  assert (Hb : b !! o = Some c).
  { rewrite <- (lookup_take_lt _ (S o)) by lia. rewrite Ho, lookup_app_r by lia. by replace (o - length out)%nat with 0%nat by lia. }
  unfold store. rewrite (proj2 (Nat.ltb_lt _ _)) by (by eapply lookup_lt_Some). by rewrite list_insert_id.
Qed.

(** One character of a string, with [d] after it. *)
Lemma string_step b i c d rest o out f :
  c <> 0 -> at_ b i (c :: d :: rest) o out ->
  exists b', length b' = length b /\ at_ b' (S i) (d :: rest) (S o) (out ++ [c]) /\
    (c = quote -> minify_string_from (S f) b i o = Some (b', S i, S o)) /\
    (c = backslash -> d = quote ->
     exists b2, length b2 = length b /\ at_ b2 (S (S i)) rest (S (S o)) (out ++ [c; d]) /\
       minify_string_from (S f) b i o = minify_string_from f b2 (S (S i)) (S (S o))) /\
    (c <> quote -> ~ (c = backslash /\ d = quote) -> minify_string_from (S f) b i o = minify_string_from f b' (S i) (S o)).
Proof.
  intros Hc H. destruct (at_store _ _ _ _ _ _ H) as (b1 & Es & Hi & H1 & Hl). exists b1. split; [done|]. split; [done|].
  cbn [minify_string_from]. rewrite (at_read _ _ _ _ _ _ H). cbn [mbind option_bind]. rewrite (proj2 (Z.eqb_neq c 0)) by done.
  rewrite Es. cbn [mbind option_bind]. rewrite Hi, (at_read _ _ _ _ _ _ H1). cbn [mbind option_bind]. split_and!.
  - intros ->. cbn. by rewrite (store_written _ _ _ _ _ _ H1).
  - intros -> ->. destruct (at_store _ _ _ _ _ _ H1) as (b2 & Es2 & _ & H2 & Hl2). exists b2. split; [congruence|].
    rewrite <- app_assoc in H2. split; [exact H2|]. cbn. by rewrite Es2.
  - intros Hq Hb. rewrite (proj2 (Z.eqb_neq c quote)) by done.
    destruct (Z.eqb_spec c backslash); cbn [mbind option_bind]; [|done]. by destruct (Z.eqb_spec d quote); [destruct Hb|].
Qed.

Lemma string_at l : forall b i o out f,
  nonzero l -> at_text b i l o out -> (length l < f)%nat ->
  exists b' i' o', minify_string_from f b i o = Some (b', i', o') /\ length b' = length b /\
    at_text b' i' (snd (string_end l)) o' (out ++ fst (string_end l)).
Proof.
  assert (Hend : forall b i o out f, at_text b i [] o out -> minify_string_from (S f) b i o = Some (b, i, o)).
  { intros b i o out f H. cbn [minify_string_from app] in *. by rewrite (at_read _ _ _ _ _ _ H). }
  induction l as [|c|c d l IH1 IH2] using two_step_ind; intros b i o out [|f] Hn H Hf; cbn [length] in Hf; try lia.
  { exists b, i, o. rewrite (Hend _ _ _ _ _ H). cbn. by rewrite app_nil_r. }
  all: cbn [app] in H; inversion_clear Hn as [|? ? Hc Hn']; destruct (string_step _ _ _ _ _ _ _ f Hc H) as (b1 & Hl & H1 & Sq & Sb & Ss).
  - exists b1, (S i), (S o). cbn [string_end]. destruct f as [|f]; [lia|]. destruct (Z.eqb_spec c quote) as [->|Hq].
    + by rewrite Sq.
    + assert (0 <> quote) by done. rewrite Ss by naive_solver. by rewrite (Hend _ _ _ _ _ H1).
  - rewrite string_end_two. destruct (Z.eqb_spec c quote) as [->|Hq]; [exists b1, (S i), (S o); by rewrite Sq|].
    destruct (Z.eqb_spec c backslash) as [->|Hb], (Z.eqb_spec d quote) as [->|Hd]; cbn [andb].
    { destruct (Sb eq_refl eq_refl) as (b2 & Hl2 & H2 & ->). inversion_clear Hn' as [|? ? _ Hn2].
      destruct (IH1 b2 (S (S i)) (S (S o)) (out ++ [backslash; quote]) f) as (b3 & i3 & o3 & E & Hl3 & Hat); [done..|lia|].
      exists b3, i3, o3. rewrite E, Hl3, Hl2. destruct (string_end l). by rewrite <- app_assoc in Hat. }
    all: rewrite Ss by naive_solver;
      edestruct (IH2 b1 (S i) (S o)) as (b3 & i3 & o3 & E & Hl3 & Hat); [done|exact H1|instantiate (1 := f); cbn; lia|].
    all: exists b3, i3, o3; rewrite E, Hl3, Hl; destruct (string_end (_ :: l)); by rewrite <- app_assoc in Hat.
Qed.

Lemma nonzero_after_line l : nonzero l -> nonzero (after_line l).
Proof. induction 1 as [|c l Hc Hl IH]; cbn; [done|]. by destruct (c =? 10). Qed.

Lemma nonzero_after_comment l : nonzero l -> nonzero (after_comment l).
Proof. induction 1 as [|c l Hc Hl IH]; cbn -[drop]; [done|]. case_match; [by apply Forall_drop|done]. Qed.

Lemma nonzero_string_end l : nonzero l -> nonzero (snd (string_end l)).
Proof.
  induction l as [|c|c d l IH1 IH2] using two_step_ind; intros Hn; [done|cbn; by case_match|]. rewrite string_end_two.
  inversion_clear Hn as [|? ? _ Hn1]. inversion_clear Hn1 as [|? ? Hd Hn2]. destruct (c =? quote); [by constructor|].
  destruct (_ && _); [specialize (IH1 Hn2); by destruct (string_end l)|].
  specialize (IH2 (Forall_cons_2 (fun c => c <> 0) d l Hd Hn2)). by destruct (string_end (d :: l)).
Qed.

(** The block at the end: the text that was made, its NUL, and the rest as it was. *)
Definition made (b : list Z) (text : list Z) (b' : list Z) : Prop :=
  length b' = length b /\ take (S (length text)) b' = text ++ [0] /\ drop (length b - length tail) b' = tail.

Definition minifies (f : nat) (text : list Z) : Prop := forall b i o out,
  nonzero text -> at_text b i text o out -> (length text < f)%nat ->
  exists b', minify_from f b i o = Some b' /\ made b (out ++ minified f text) b'.

(** Each kind of character, when the loop does the rest. *)
Lemma minifies_end f : minifies (S f) [].
Proof.
  intros b i o out Hn H Hf. cbn [app minify_from minified] in *. rewrite (at_read _ _ _ _ _ _ H). cbn [mbind option_bind].
  rewrite (proj2 (Z.eqb_eq 0 0)) by done. destruct (at_end _ _ _ _ _ H) as (b' & -> & Ht & Hd & Hl). exists b'. split; [done|].
  rewrite app_nil_r. destruct H as [Hr Ho Hlo Hi]. split_and!; [done|by rewrite Hlo|].
  rewrite <- Hd at 2. f_equal. rewrite <- Hd, length_drop, Hl. apply (f_equal length) in Hr. rewrite length_drop in Hr. cbn in Hr. lia.
Qed.

Lemma minifies_slash f text : (forall text, minifies f text) -> minifies (S f) (slash :: text).
Proof.
  intros IH b i o out Hn H Hf. inversion_clear Hn as [|? ? _ Hn']. cbn [app length] in *.
  cbn [minify_from minified]. rewrite (at_read _ _ _ _ _ _ H). cbn [mbind option_bind]. apply at_next in H.
  change (slash =? 0) with false. change (blank slash) with false. change (slash =? slash) with true. cbn iota.
  destruct text as [|d text]; cbn [app] in *; rewrite (at_read _ _ _ _ _ _ H); cbn [mbind option_bind].
  { change (0 =? slash) with false. change (0 =? star) with false. cbn iota.
    destruct (IH [] b (S i) o out) as (b' & E & Hm); [done..|cbn in *; lia|]. exists b'. split; [exact E|]. by destruct f. }
  inversion_clear Hn' as [|? ? Hd Hn2]. pose proof (at_next _ _ _ _ _ _ H) as H2.
  cbn [length] in *. pose proof (after_line_length text). pose proof (after_comment_length text).
  unfold skip_oneline_comment, skip_multiline_comment. replace (i + 2)%nat with (S (S i)) by lia.
  destruct (d =? slash).
  { destruct (skip_oneline_at b text (S (S i)) o out f) as (i2 & -> & Hat); [done..|lia|]. cbn [mbind option_bind].
    apply IH; [by apply nonzero_after_line|done|lia]. }
  destruct (d =? star).
  { destruct (skip_multiline_at b text (S (S i)) o out f) as (i2 & -> & Hat); [done..|lia|]. cbn [mbind option_bind].
    apply IH; [by apply nonzero_after_comment|done|lia]. }
  apply IH; [by constructor|done|cbn; lia].
Qed.

Lemma minifies_quote f text : (forall text, minifies f text) -> minifies (S f) (quote :: text).
Proof.
  intros IH b i o out Hn H Hf. inversion_clear Hn as [|? ? _ Hn']. cbn [app length] in *.
  cbn [minify_from minified]. destruct (at_store _ _ _ _ _ _ H) as (b1 & Es & _ & H2 & Hl). unfold minify_string.
  rewrite (at_read _ _ _ _ _ _ H). cbn [mbind option_bind]. rewrite Es. cbn [mbind option_bind].
  change (quote =? 0) with false. change (blank quote) with false. change (quote =? slash) with false. change (quote =? quote) with true.
  cbn iota. destruct (string_at text b1 (S i) (S o) (out ++ [quote]) f) as (b2 & i2 & o2 & -> & Hl2 & Hat); [done..|lia|].
  cbn [mbind option_bind]. pose proof (string_end_length text). pose proof (nonzero_string_end _ Hn').
  destruct (string_end text) as [s r]. cbn [fst snd] in *.
  destruct (IH r b2 i2 o2 _ ltac:(done) Hat) as (b' & E & Hm); [lia|]. exists b'. split; [exact E|].
  rewrite <- !app_assoc in Hm. unfold made in *. by rewrite <- Hl, <- Hl2.
Qed.

Lemma minify_at f : forall text, minifies f text.
Proof.
  induction f as [|f IH]; intros text; [intros b i o out _ _ Hf; lia|]. destruct text as [|c text]; [apply minifies_end|].
  destruct (Z.eqb_spec c slash) as [->|Hs]; [by apply minifies_slash|].
  destruct (Z.eqb_spec c quote) as [->|Hq]; [by apply minifies_quote|].
  intros b i o out Hn H Hf. inversion_clear Hn as [|? ? Hc Hn']. pose proof (at_next _ _ _ _ _ _ H) as H1. cbn [app length] in *.
  cbn [minify_from minified]. rewrite (at_read _ _ _ _ _ _ H). cbn [mbind option_bind]. rewrite (proj2 (Z.eqb_neq c 0)) by done.
  rewrite (proj2 (Z.eqb_neq c slash)), (proj2 (Z.eqb_neq c quote)) by done.
  destruct (blank c); [apply IH; [done..|lia]|]. destruct (at_store _ _ _ _ _ _ H) as (b1 & -> & _ & H2 & Hl). cbn [mbind option_bind].
  destruct (IH text b1 (S i) (S o) (out ++ [c])) as (b' & E & Hm); [done..|lia|]. exists b'. split; [exact E|].
  rewrite <- app_assoc in Hm. unfold made in *. by rewrite <- Hl.
Qed.
End InPlace.

(** ** Printed text *)

(** [minified] with fuel enough for the text. *)
Definition minify_text (l : list Z) : list Z := minified (S (length l)) l.

(** A character that stands for itself outside of a string. *)
Definition plain (c : Z) : bool := negb (blank c) && negb (c =? slash) && negb (c =? quote).

Lemma minify_blank c l : blank c = true -> minify_text (c :: l) = minify_text l.
Proof. intros H. unfold minify_text. cbn [minified length]. by rewrite H. Qed.

Lemma minify_plain c l : plain c = true -> minify_text (c :: l) = c :: minify_text l.
Proof.
  intros H. unfold minify_text. cbn [minified length]. unfold plain in H. apply andb_prop in H as [H Hq].
  apply andb_prop in H as [Hb Hs]. apply negb_true_iff in Hb, Hs, Hq.  by rewrite Hb, Hs, Hq.
Qed.

Lemma minify_quote l : minify_text (quote :: l) = quote :: fst (string_end l) ++ minify_text (snd (string_end l)).
Proof.
  change (minify_text (quote :: l)) with (let '(s, r) := string_end l in quote :: s ++ minified (S (length l)) r).
  pose proof (string_end_length l) as Hl. destruct (string_end l) as [s r]. cbn [fst snd] in *. do 2 f_equal.
  unfold minify_text. apply minified_fuel; lia.
Qed.

(** A piece of text of which [m] is left, whatever follows. *)
Definition becomes (l m : list Z) : Prop := forall rest, minify_text (l ++ rest) = m ++ minify_text rest.

Lemma becomes_app l1 m1 l2 m2 : becomes l1 m1 -> becomes l2 m2 -> becomes (l1 ++ l2) (m1 ++ m2).
Proof. intros H1 H2 rest. by rewrite <- !app_assoc, H1, H2. Qed.

Lemma becomes_plain l : forallb plain l = true -> becomes l l.
Proof.
  induction l as [|c l IH]; intros H rest; [done|]. cbn in H. apply andb_prop in H as [Hc Hl]. cbn [app].
  by rewrite minify_plain, IH.
Qed.

Lemma becomes_blank l : forallb blank l = true -> becomes l [].
Proof.
  induction l as [|c l IH]; intros H rest; [done|]. cbn in H. apply andb_prop in H as [Hc Hl]. cbn [app].
  by rewrite minify_blank, IH.
Qed.

Lemma becomes_blank_app l l2 m : forallb blank l = true -> becomes l2 m -> becomes (l ++ l2) m.
Proof. intros Hl H. apply (becomes_app l [] l2 m); [by apply becomes_blank|done]. Qed.

(** Characters of a string that are neither a quote nor a backslash. *)
Definition inside (c : Z) : bool := negb (c =? quote) && negb (c =? backslash).
Definition onto (p : list Z) (e : list Z * list Z) : list Z * list Z := (p ++ fst e, snd e).

Lemma string_end_inside p l : forallb inside p = true -> l <> [] -> string_end (p ++ l) = onto p (string_end l).
Proof.
  induction p as [|c p IH]; intros H Hl; cbn [app]; [by destruct (string_end l)|]. cbn in H. apply andb_prop in H as [Hc Hp].
  unfold inside in Hc. apply andb_prop in Hc as [Hq Hb]. apply negb_true_iff in Hq, Hb.
  specialize (IH Hp Hl). destruct (p ++ l) as [|d r] eqn:E; [by destruct p, l|].
  rewrite string_end_two, Hq, Hb, IH. done.
Qed.

Lemma u04x_inside c : forallb inside (u04x c) = true.
Proof.
  assert (H : forall v, 0 <= v < 16 -> inside (hex_letter v) = true).
  { intros v Hv. unfold inside, hex_letter, quote, backslash. case_match; lia. }
  unfold u04x. cbn [forallb]. rewrite !H by (apply Z.mod_pos_bound; lia). done.
Qed.

Lemma escape_backslash c : escape_letter c = Some backslash -> c = backslash.
Proof. unfold escape_letter. destruct (Z.eqb_spec c backslash); [done|]. repeat case_match; discriminate. Qed.

(** An escape in front of a text that does not start with a quote, or one that
    does not end with a backslash. *)
Lemma string_end_escaped c l d :
  d <> quote \/ c <> backslash -> string_end (escaped_char c ++ d :: l) = onto (escaped_char c) (string_end (d :: l)).
Proof.
  intros Hd. unfold escaped_char.
  destruct (escaped_char_cases c) as [(e & He & -> & _ & _)|[-> [(_ & -> & _)|(_ & Hq & Hb & -> & _)]]].
  - rewrite He. cbn [app]. rewrite string_end_two. change (backslash =? quote) with false. cbn [andb]. change (backslash =? backslash) with true.
    destruct (Z.eqb_spec e quote) as [->|Hq]; cbn [andb]; [by destruct (string_end (d :: l))|].
    rewrite string_end_two, (proj2 (Z.eqb_neq e quote)) by done.
    assert ((e =? backslash) && (d =? quote) = false) as ->.
    { apply andb_false_iff. destruct (Z.eqb_spec e backslash) as [->|_]; [right|by left]. apply Z.eqb_neq. destruct Hd as [Hd|Hd]; [done|].
      by destruct Hd; apply escape_backslash. }
    by destruct (string_end (d :: l)).
  - pose proof (string_end_inside (u04x c) (d :: l) (u04x_inside c) ltac:(done)) as H. unfold u04x in *. cbn [app] in *.
    rewrite string_end_two, H. change (backslash =? quote) with false. change (117 =? quote) with false.
    rewrite andb_false_r. done.
  - apply (string_end_inside [c]); [|done]. cbn. unfold inside. by rewrite (proj2 (Z.eqb_neq c quote)), (proj2 (Z.eqb_neq c backslash)).
Qed.

(** A string that does not end with a backslash. *)
Definition ends_well (s : list Z) : bool := match last (c_str s) with Some c => negb (c =? backslash) | None => true end.

Lemma escaped_char_head c : exists d r, escaped_char c = d :: r /\ d <> quote.
Proof.
  unfold escaped_char. destruct (escaped_char_cases c) as [(e & -> & -> & _ & _)|[-> [(_ & -> & _)|(_ & Hq & Hb & -> & _)]]]; by eexists _, _.
Qed.

Lemma string_end_out l rest : last l <> Some backslash ->
  string_end (concat (map escaped_char l) ++ quote :: rest) = (concat (map escaped_char l) ++ [quote], rest).
Proof.
  induction l as [|c l IH]; intros Hl; [done|]. cbn [map concat]. rewrite <- app_assoc. destruct l as [|c' l].
  - cbn [map concat app]. rewrite string_end_escaped by (right; naive_solver). cbn. by rewrite app_nil_r.
  - specialize (IH Hl). destruct (escaped_char_head c') as (d & r & Hd & Hq). cbn [map concat] in *. rewrite Hd in *. cbn [app] in *.
    rewrite string_end_escaped by (by left). rewrite IH. unfold onto. cbn [fst snd app]. rewrite <- !app_assoc. cbn [app]. by rewrite <- app_assoc.
Qed.

Lemma becomes_string s : ends_well s = true -> becomes (string_out s) (string_out s).
Proof.
  intros Hs rest. unfold string_out. cbn [app]. rewrite <- app_assoc. rewrite minify_quote. cbn [app]. rewrite string_end_out.
  - cbn [fst snd]. by rewrite <- app_assoc.
  - unfold ends_well in Hs. intros Hl. by rewrite Hl in Hs.
Qed.

Section Values.
Context (fmt_g : Z -> double -> list Z) (scan_lg : list Z -> option double).
(** The formats of a double give no white space, no slash and no quote. *)
Context (Hplain : forall precision d, forallb plain (fmt_g precision d) = true).

Fixpoint strings_end_well (j : json) : bool :=
  match j with
  | JString s => ends_well s
  | JArray items => forallb strings_end_well items
  | JObject members => forallb (fun '(name, i) => ends_well name && strings_end_well i) members
  | _ => true
  end.

Lemma digits_plain l : Forall (fun c => is_digit c = true) l -> forallb plain l = true.
Proof.
  induction 1 as [|c l Hc _ IH]; [done|]. cbn. rewrite IH. unfold is_digit in Hc. unfold plain, blank, slash, quote. lia.
Qed.

Lemma number_text_plain d i : forallb plain (number_text fmt_g scan_lg d i) = true.
Proof.
  unfold number_text, lld. destruct (is_nan_or_inf d); [done|]. destruct (lm_doubles_equal _ _ _).
  - destruct (Z.ltb_spec i 0); cbn [forallb]; rewrite digits_plain; try done; apply print_dec_digits; lia.
  - cbv zeta. repeat case_match; apply Hplain.
Qed.

#[local] Abbreviation shown := (render true fmt_g scan_lg).
#[local] Abbreviation packed := (render false fmt_g scan_lg).

Lemma becomes_elements lv lv' items :
  Forall (fun i => becomes (shown lv i) (packed lv' i)) items ->
  becomes (render_elements true (shown lv) items) (render_elements false (packed lv') items).
Proof.
  induction 1 as [|i items Hi _ IH]; cbn [render_elements]; [done|]. apply becomes_app; [done|]. apply becomes_app; [|done].
  destruct items; [done|]. apply (becomes_app [44] [44] [32] []); [by apply becomes_plain|by apply becomes_blank].
Qed.

Lemma tabs_blank n : forallb blank (replicate n 9) = true.
Proof. induction n; done. Qed.

Lemma becomes_members lv lv' n n' members :
  Forall (fun m => ends_well (fst m) = true /\ becomes (shown lv (snd m)) (packed lv' (snd m))) members ->
  becomes (render_members true (shown lv) n members) (render_members false (packed lv') n' members).
Proof.
  induction 1 as [|[name i] members [Hn Hi] _ IH]; cbn [render_members fst snd] in *; [done|].
  apply becomes_blank_app; [apply tabs_blank|]. cbn [app]. apply becomes_app; [by apply becomes_string|].
  apply (becomes_app [58; 9] [58]); [apply (becomes_app [58] [58] [9] []); [by apply becomes_plain|by apply becomes_blank]|].
  apply becomes_app; [done|]. apply becomes_app; [destruct members; [done|by apply becomes_plain]|].
  apply (becomes_blank_app [10]); done.
Qed.

Lemma becomes_value j : forall lv lv', strings_end_well j = true -> becomes (shown lv j) (packed lv' j).
Proof.
  induction j as [| |b|d i|s|items IH|members IH] using json_nested_ind; intros lv lv' Hs; cbn [render].
  - done.
  - by apply becomes_plain.
  - destruct b; by apply becomes_plain.
  - apply becomes_plain, number_text_plain.
  - by apply becomes_string.
  - apply becomes_app; [by apply becomes_plain|]. apply becomes_app; [|by apply becomes_plain].
    apply becomes_elements. cbn [strings_end_well] in Hs. rewrite forallb_forall in Hs. rewrite !Forall_forall in *.
    intros i Hi. apply IH; [done|]. apply Hs. by apply list_elem_of_In.
  - apply (becomes_app [123] [123]); [by apply becomes_plain|]. apply (becomes_blank_app [10]); [done|]. rewrite !app_nil_l. apply becomes_app.
    2: { apply becomes_blank_app; [apply tabs_blank|by apply becomes_plain]. }
    apply becomes_members. cbn [strings_end_well] in Hs. rewrite forallb_forall in Hs. rewrite !Forall_forall in *.
    intros [name i] Hi. specialize (Hs _ (proj1 (list_elem_of_In _ _) Hi)). apply andb_prop in Hs as [Hn Hv].
    split; [done|]. exact (IH _ Hi _ _ Hv).
Qed.

Lemma minify_shown j : strings_end_well j = true -> minify_text (shown 0 j) = packed 0 j.
Proof. intros H. pose proof (becomes_value j 0%nat 0%nat H []) as E. rewrite !app_nil_r in E. exact E. Qed.
End Values.

(** What [cJSON_Minify] does to a block. *)
Lemma Minify_text text tail :
  nonzero text ->
  exists b, cJSON_Minify (Some (text ++ 0 :: tail)) = Some (Some b) /\ length b = length (text ++ 0 :: tail) /\
            starts_with b (minify_text text ++ [0]) /\ drop (S (length text)) b = tail.
Proof.
  intros Hn. unfold cJSON_Minify.
  destruct (minify_at tail (S (length (text ++ 0 :: tail))) text (text ++ 0 :: tail) 0%nat 0%nat []) as (b & -> & Hl & Ht & Hd);
    [done|by split|rewrite length_app; cbn; lia|].
  exists b. split; [done|]. split; [done|]. cbn [app] in *.
  rewrite (minified_fuel _ _ (S (length text))) in Ht by (rewrite ?length_app; cbn; lia). split.
  - unfold starts_with, minify_text. rewrite length_app. cbn [length]. by rewrite Nat.add_1_r.
  - rewrite <- Hd. f_equal. rewrite length_app. cbn. lia.
Qed.

(** C30: White space is all that formatting adds.  The text that [cJSON_Print]
    returns is turned by [cJSON_Minify], in its own block and without touching
    anything outside of it, into the text that [cJSON_PrintUnformatted] returns;
    this is so for every item whose names and strings do not end with a
    backslash. *)
Theorem Print_Minify (fresh : nat -> nat -> Z) (reallocate : bool)
    (fmt_g : Z -> double -> list Z) (scan_lg : list Z -> option double) (j : json) (calls_ : nat) (held_ : Z) :
  fmt_g_ok fmt_g -> (forall precision d, forallb plain (fmt_g precision d) = true) ->
  valid j = true -> strings_end_well j = true -> len (render true fmt_g scan_lg 0 j) + 2 <= INT_MAX ->
  exists r text b r' unformatted,
    print (fun _ => true) fresh reallocate fmt_g scan_lg (Some j) true calls_ held_ = Some r /\ result r = Some text /\
    cJSON_Minify (Some text) = Some (Some b) /\ length b = length text /\
    print (fun _ => true) fresh reallocate fmt_g scan_lg (Some j) false calls_ held_ = Some r' /\
    result r' = Some unformatted /\ starts_with b unformatted.
Proof.
  intros Hfmt Hplain Hv Hs Hl.
  destruct (Minify_text (render true fmt_g scan_lg 0 j) [] (render_nonzero true fmt_g scan_lg Hfmt j 0)) as (b & Eb & Hlb & Hb & _).
  rewrite minify_shown in Hb by done.
  assert (Hshort : (length (render false fmt_g scan_lg 0 j) <= length (render true fmt_g scan_lg 0 j))%nat).
  { unfold starts_with in Hb. apply (f_equal length) in Hb. rewrite length_take, Hlb, !length_app in Hb. cbn in Hb. lia. }
  destruct (print_returns (fun _ => true) fresh reallocate fmt_g scan_lg Hfmt (Some j) true calls_ held_) as (r & E & H).
  destruct (print_returns (fun _ => true) fresh reallocate fmt_g scan_lg Hfmt (Some j) false calls_ held_) as (r' & E' & H').
  unfold print_result in H, H'. unfold len in *.
  destruct (result r) as [text|] eqn:Et; [|by destruct H as [_ H]; destruct (H j)].
  destruct (result r') as [text'|] eqn:Et'; [|destruct H' as [_ H']; destruct (H' j); [done..|lia|done]].
  destruct H as (_ & j1 & [= <-] & _ & ->), H' as (_ & j2 & [= <-] & _ & ->).
  by exists r, (render true fmt_g scan_lg 0 j ++ [0]), b, r', (render false fmt_g scan_lg 0 j ++ [0]).
Qed.

(** A name or a string that ends with a backslash is printed with an escaped one,
    which the code takes for the escape of the quote behind it: the string goes on
    for it, and the white space that follows stays. *)
Lemma Minify_backslash :
  let text := [91; quote; 97; backslash; backslash; quote; 44; 32; 49; 93; 0] in cJSON_Minify (Some text) = Some (Some text).
Proof. reflexivity. Qed.

Lemma Print_Minify_witness :
  exists r text b r' unformatted,
    print (fun _ => true) (fun _ _ => 7) false DemoPrint.fmt_g DemoPrint.scan_lg (Some DemoPrint.conf) true 0 0 = Some r /\
    result r = Some text /\ cJSON_Minify (Some text) = Some (Some b) /\ length b = length text /\
    print (fun _ => true) (fun _ _ => 7) false DemoPrint.fmt_g DemoPrint.scan_lg (Some DemoPrint.conf) false 0 0 = Some r' /\
    result r' = Some unformatted /\ starts_with b unformatted.
Proof.
  apply Print_Minify; [exact DemoPrint.fmt_g_is_ok|reflexivity|reflexivity|reflexivity|vm_compute; discriminate].
Defined.
