(* ===== verification/Bench.v ===== *)
(** * The benchmarks: timed allocators and the tight loops

    The wrappers that time a call of an allocator
    ([src/src/allocators/allocator_wrappers.c]), the loops that call them
    ([src/src/tests/tight_loop_test.c]), the choice of the tests by the
    configuration ([run_tests] of [src/src/tests/tests.c]) and the file of
    timings, with its reader in [src/src/metrics/data_analysis.py].

    A wrapper runs an operation of the allocator's own model, in whatever state
    that has, between two readings of the cycle counter.  What the loops need of
    an arena is the class [BenchTarget], of which [u_arena.c] is an instance. *)

From S2P Require Import Prelude.
From S2P Require Import Memory.
From S2P Require Import Os.
From S2P Require Import UArena.
From S2P Require Import KArena.
From S2P Require Import OldKArena.
From S2P Require Import Json.
From Stdlib Require Import Strings.String.
#[local] Open Scope Z_scope.
#[local] Abbreviation length := List.length.

(** ** Statistics *)

(** The statics [tstats] and [tcoll]; [tc_arr] is the mapped part of the array
    from [arr] on, [None] when that is NULL. *)
Record bench := mkBench {
  total_tsc : Z; iter : Z;
  tc_cap : Z; tc_cur : Z; tc_arr : option (list Z);
}.

Definition bench_start : bench := mkBench 0 0 0 0 None.

Definition init_alloc_tcoll (cap : Z) (arr : option (list Z)) (b : bench) : bench :=
  mkBench (total_tsc b) (iter b) cap 0 arr.

(** [mem]: what the new arena maps; [None] when it cannot be made.  The cursor
    is not set. *)
Definition init_alloc_tcoll_dynamic (cap : Z) (mem : option (list Z)) (b : bench) : option bench :=
  mem ← mem; Some (mkBench (total_tsc b) (iter b) cap (tc_cur b) (Some mem)).

(** A store past the mapping is a fault. *)
Definition add_timing (t : Z) (b : bench) : option bench :=
  arr ← tc_arr b;
  if (0 <=? tc_cur b) && (tc_cur b <? len arr)
  then Some (mkBench (total_tsc b) (iter b) (tc_cap b) (u64 (tc_cur b + 1))
               (Some (<[Z.to_nat (tc_cur b) := t]> arr)))
  else None.

(** ** Timed calls *)

(** The statistics, how often the counter was read, and the allocator's state. *)
Record running (S : Type) := mkRunning { stats : bench; ticks : nat; state : S }.
Arguments mkRunning {S} _ _ _.
Arguments stats {S} _.
Arguments ticks {S} _.
Arguments state {S} _.

Definition B (S A : Type) : Type := running S -> option (A * running S).

#[export] Instance B_ret {S} : MRet (B S) := fun A a r => Some (a, r).
#[export] Instance B_bind {S} : MBind (B S) := fun A B f c r =>
  match c r with
  | Some (a, r) => f a r
  | None => None
  end.

Section Timed.
(** The readings of the counter. *)
Variable tsc : nat -> Z.

(** The body that all the wrappers share. *)
Definition timed {S A} (op : S -> option (A * S)) : B S A := fun r =>
  let alloc_start := tsc (ticks r) in
  '(ptr, s) ← op (state r);
  let alloc_end := tsc (1 + ticks r) in
  let alloc_time := u64 (alloc_end - alloc_start) in
  let b := stats r in
  let b := mkBench (u64 (total_tsc b + alloc_time)) (u64 (iter b + 1)) (tc_cap b) (tc_cur b) (tc_arr b) in
  b ← add_timing alloc_time b;
  Some (ptr, mkRunning b (2 + ticks r) s).

Definition ua_alloc_timed (ua sz : Z) : B mem Z := timed (ua_alloc ua sz).
Definition ua_zalloc_timed (ua sz : Z) : B mem Z := timed (ua_zalloc ua sz).
Definition ua_falloc_timed (ua sz : Z) : B mem Z := timed (ua_falloc ua sz).
Definition ua_fzalloc_timed (ua sz : Z) : B mem Z := timed (ua_fzalloc ua sz).
Definition ua_realloc_timed (ua ptr old_sz sz : Z) : B mem Z :=
  timed (new ← ua_alloc ua sz; memcpy new ptr old_sz;; mret new).

Definition ka_alloc_timed vplace pid (ka sz : Z) : B kclient Z := timed (ka_alloc vplace pid ka sz).
Definition oka_alloc_timed kplace vzplace (ka sz : Z) : B okclient Z := timed (oka_alloc kplace vzplace ka sz).

Definition malloc_timed place junk (sz : Z) : B os Z := timed (malloc place junk sz).
(** [calloc(1, sz)] *)
Definition calloc_timed place (sz : Z) : B os Z := timed (malloc place (fun _ => 0) sz).
Definition free_timed (ptr : Z) : B os unit := timed (free ptr).
Definition realloc_timed (realloc : Z -> Z -> P Z) (ptr sz : Z) : B os Z := timed (realloc ptr sz).
End Timed.

(** Function pointers of type [alloc_fn_t]. *)
Inductive alloc_fn_t :=
  | Oka_alloc_timed | Ka_alloc_timed | Ua_alloc_timed | Ua_zalloc_timed | Ua_falloc_timed | Ua_fzalloc_timed
  | Malloc_timed | Calloc_timed | Other_alloc_fn.

Inductive alloc_type :=
  | MALLOC | CALLOC | REALLOC | FREE | OKA_ALLOC | KA_ALLOC
  | UA_ALLOC | UA_ZALLOC | UA_FALLOC | UA_FZALLOC | UA_REALLOC | UNKNOWN.

Definition alloct_string (type : alloc_type) : list Z :=
  match type with
  | MALLOC => bytes "malloc" | CALLOC => bytes "calloc" | REALLOC => bytes "realloc" | FREE => bytes "free"
  | OKA_ALLOC => bytes "oka_alloc" | KA_ALLOC => bytes "ka_alloc"
  | UA_ALLOC => bytes "ua_alloc" | UA_ZALLOC => bytes "ua_zalloc" | UA_FALLOC => bytes "ua_falloc"
  | UA_FZALLOC => bytes "ua_fzalloc" | UA_REALLOC => bytes "ua_realloc"
  | UNKNOWN => bytes "unknown"
  end.

Definition get_alloc_type (alloc_fn : alloc_fn_t) : alloc_type :=
  match alloc_fn with
  | Oka_alloc_timed => OKA_ALLOC
  | Ka_alloc_timed => KA_ALLOC
  | Ua_alloc_timed => UA_ALLOC
  | Ua_zalloc_timed => UA_ZALLOC
  | Ua_falloc_timed => UA_FALLOC
  | Ua_fzalloc_timed => UA_FZALLOC
  | Malloc_timed => MALLOC
  | Calloc_timed => CALLOC
  | Other_alloc_fn => UNKNOWN
  end.

(** ** The file of timings *)

Definition encode_u64s (l : list Z) : list Z := List.concat (map (le_encode 8) l).

(** [fwrite(buf, size, 1, file) == 1] fails for an empty buffer. *)
Definition lm_write_bytes_to_file (buf : list Z) (written : bool) (errno : Z) (file : list Z) : Z * list Z :=
  if written && (0 <? length buf)%nat then (0, file ++ buf) else (- errno, file).

(** The result and what the file holds; [opened] is whether it could be
    opened, [written i] whether write [i] goes through. *)
Definition write_alloc_timing_data_to_file (opened : bool) (written : nat -> bool) (errno : Z) (b : bench)
    : option (Z * list Z) :=
  if negb opened then None
  else
    let '(res, f) := lm_write_bytes_to_file (encode_u64s [total_tsc b; iter b]) (written 0%nat) errno [] in
    if negb (res =? 0) then Some (res, f)
    else
      let '(res, f) := lm_write_bytes_to_file (encode_u64s [tc_cur b]) (written 1%nat) errno f in
      if negb (res =? 0) then Some (res, f)
      else
        let arr := take (Z.to_nat (tc_cur b)) (default [] (tc_arr b)) in
        let '(res, f) := lm_write_bytes_to_file (encode_u64s arr) (written 2%nat) errno f in
        if negb (res =? 0) then Some (res, f) else Some (0, f).

(** [struct.unpack('Q' * n, ...)] of the next [8 n] bytes, and the rest. *)
Fixpoint unpack (n : nat) (l : list Z) : option (list Z * list Z) :=
  match n with
  | O => Some ([], l)
  | S n =>
      if (length l <? 8)%nat then None
      else '(vs, rest) ← unpack n (drop 8 l); Some (le_decode (take 8 l) :: vs, rest)
  end.

(** Of [data_analysis.py]: the total, the number of calls, and the array. *)
Definition parse_timing_data (file : list Z) : option (Z * Z * list Z) :=
  '(fields, file) ← unpack 2 file;
  '(count, file) ← unpack 1 file;
  '(arr, _) ← unpack (Z.to_nat (default 0 (head count))) file;
  match fields with
  | [total; iter] => Some (total, iter, arr)
  | _ => None
  end.

(** ** The tight loops *)

(** What the loops ask of an allocator: a block, a store of a byte at its start,
    and the release of all.  [bt_at cap cur s]: in [s], [cur] bytes of [cap] are
    taken. *)
Class BenchTarget (S : Type) := {
  bt_alloc : Z -> S -> option (Z * S);
  bt_poke : Z -> S -> option (unit * S);
  bt_free : S -> option (unit * S);
  bt_at : Z -> Z -> S -> Prop;
  bt_alloc_fits cap cur n s :
    bt_at cap cur s -> 0 < n -> cur + n <= cap ->
    exists ptr s1 s2, bt_alloc n s = Some (ptr, s1) /\ bt_poke ptr s1 = Some (tt, s2) /\ bt_at cap (cur + n) s2;
  bt_alloc_full cap cur n s :
    bt_at cap cur s -> 0 < n < 2 ^ 63 -> cap < cur + n ->
    exists ptr s1, bt_alloc n s = Some (ptr, s1) /\ bt_poke ptr s1 = None;
  bt_free_all cap cur s : bt_at cap cur s -> exists s', bt_free s = Some (tt, s') /\ bt_at cap 0 s';
}.

Section Loops.
Context {S : Type} `{BenchTarget S}.
Variable tsc : nat -> Z.
(** Whether the arena for the timings can be made; what becomes of the file. *)
Variable timings_arena : bool.
Variables (opened : bool) (written : nat -> bool) (errno : Z).

Definition untimed {A} (op : S -> option (A * S)) : B S A := fun r =>
  '(a, s) ← op (state r); Some (a, mkRunning (stats r) (ticks r) s).
Definition with_stats (f : bench -> bench) : B S unit := fun r =>
  Some (tt, mkRunning (f (stats r)) (ticks r) (state r)).

(** [uint8_t *ptr = alloc_fn(test_ua, test_ka, size); *ptr = 1;] *)
Definition alloc_and_poke (size : Z) : B S unit :=
  ptr ← timed tsc (bt_alloc size); untimed (bt_poke ptr).

Fixpoint for_sizes (alloc_sizes : list Z) : B S unit :=
  match alloc_sizes with
  | [] => mret tt
  | size :: alloc_sizes => alloc_and_poke size;; for_sizes alloc_sizes
  end.

Fixpoint iterate (n : nat) (body : B S unit) : B S unit :=
  match n with
  | O => mret tt
  | Datatypes.S n => body;; iterate n body
  end.

(** [UaPushArray(timings_ua, uint64_t, count)] of an arena of that size: both are
    [count * sizeof(uint64_t)] as a [size_t], which may have wrapped around. *)
Definition timing_arr (count : Z) : option (list Z) :=
  let timing_vals_sz := count *64 8 in
  if timings_arena then Some (replicate (Z.to_nat (timing_vals_sz / 8)) 0) else None.

Definition write_data_to_file : B S (Z * list Z) := fun r =>
  f ← write_alloc_timing_data_to_file opened written errno (stats r); Some (f, r).

Definition all_sizes_repeatedly (alloc_iterations : nat) (alloc_sizes : list Z) : B S (Z * list Z) :=
  let total_iterations := Z.of_nat alloc_iterations *64 Z.of_nat (length alloc_sizes) in
  match timing_arr total_iterations with
  | None => fun _ => None
  | Some arr =>
      with_stats (init_alloc_tcoll total_iterations (Some arr));;
      iterate alloc_iterations (for_sizes alloc_sizes);;
      untimed bt_free;;
      write_data_to_file
  end.

(** The body of the loop over the sizes; [arr] is what the array holds. *)
Definition one_size (arr : list Z) (alloc_iterations : nat) (size : Z) : B S (Z * list Z) :=
  with_stats (init_alloc_tcoll (Z.of_nat alloc_iterations) (Some arr));;
  iterate alloc_iterations (alloc_and_poke size);;
  untimed bt_free;;
  write_data_to_file.

Definition get_arr : B S (list Z) := fun r => Some (default [] (tc_arr (stats r)), r).

Fixpoint each_size (arr : list Z) (alloc_iterations : nat) (alloc_sizes : list Z) : B S (list (Z * list Z)) :=
  match alloc_sizes with
  | [] => mret []
  | size :: alloc_sizes =>
      f ← one_size arr alloc_iterations size;
      arr ← get_arr;
      fs ← each_size arr alloc_iterations alloc_sizes;
      mret (f :: fs)
  end.

Definition each_size_by_itself (alloc_iterations : nat) (alloc_sizes : list Z) : B S (list (Z * list Z)) :=
  match timing_arr (Z.of_nat alloc_iterations) with
  | None => fun _ => None
  | Some arr => each_size arr alloc_iterations alloc_sizes
  end.

(** Whether a failed assertion is only logged, as in the build of the [Makefile]. *)
Variable NDEBUG : bool.

(** The size of the arena for the allocators that take one; the assertion looks
    at the largest size only. *)
Definition arena_holds (arena_sz : option Z) (alloc_iterations : nat) (alloc_sizes : list Z) : bool :=
  match arena_sz with
  | Some arena_sz => List.last alloc_sizes 0 *64 Z.of_nat alloc_iterations <=? arena_sz
  | None => true
  end.

(** [fresh]: what the test works on, just made.  A forked child has a copy of
    everything, and its death is not seen; [forked i] is whether fork [i] works. *)
Definition tight_loop_test (arena_sz : option Z) (running_in_debugger : bool) (forked : nat -> bool) (fresh : S)
    (alloc_iterations : nat) (alloc_sizes : list Z) : B S (list (Z * list Z)) := fun r =>
  if negb (arena_holds arena_sz alloc_iterations alloc_sizes) && negb NDEBUG then None
  else
    let child := mkRunning (stats r) (ticks r) fresh in
    if running_in_debugger then
      (fs ← each_size_by_itself alloc_iterations alloc_sizes;
       f ← all_sizes_repeatedly alloc_iterations alloc_sizes;
       mret (fs ++ [f])) child
    else
      let fs := if forked 0%nat then each_size_by_itself alloc_iterations alloc_sizes child else None in
      let f := if forked 1%nat then all_sizes_repeatedly alloc_iterations alloc_sizes child else None in
      Some (match fs with Some (fs, _) => fs | None => [] end ++
            match f with Some (f, _) => [f] | None => [] end, r).
End Loops.

(** ** Recording: lemmas *)

Lemma B_bind_Some {S A C} (c : B S A) (f : A -> B S C) r a r' : c r = Some (a, r') -> (c ≫= f) r = f a r'.
Proof. intros H. unfold mbind, B_bind. by rewrite H. Qed.

Ltac B_step H := rewrite (B_bind_Some _ _ _ _ _ H).

Definition sum (l : list Z) : Z := foldr Z.add 0 l.

Lemma sum_app l l' : sum (l ++ l') = sum l + sum l'.
Proof. induction l as [|x l IH]; cbn; [done|]. fold (sum (l ++ l')) (sum l). lia. Qed.

(** Room for [n] more timings. *)
Definition room (b : bench) (n : nat) : Prop :=
  exists arr, tc_arr b = Some arr /\ 0 <= tc_cur b /\ tc_cur b + Z.of_nat n <= len arr < 2 ^ 64.

Definition is_u64 (v : Z) : Prop := 0 <= v < 2 ^ 64.
Definition counters_ok (b : bench) : Prop := is_u64 (total_tsc b) /\ is_u64 (iter b).

(** The timings [ts] and nothing else were added, in order. *)
Record recorded (ts : list Z) (b b' : bench) : Prop := {
  rc_total : u64 (total_tsc b') = u64 (total_tsc b + sum ts);
  rc_iter : u64 (iter b') = u64 (iter b + len ts);
  rc_ok : counters_ok b -> counters_ok b';
  rc_cap : tc_cap b' = tc_cap b;
  rc_cur : tc_cur b' = tc_cur b + len ts;
  rc_arr : exists arr arr', tc_arr b = Some arr /\ tc_arr b' = Some arr' /\ length arr' = length arr /\
             take (Z.to_nat (tc_cur b')) arr' = take (Z.to_nat (tc_cur b)) arr ++ ts;
}.

Lemma recorded_nil b n : room b n -> recorded [] b b.
Proof.
  intros (arr & Ha & _). change (len []) with 0. cbn [sum foldr].
  split; rewrite ?Z.add_0_r; try done. exists arr, arr. by rewrite app_nil_r.
Qed.

Lemma recorded_app ts ts' b b1 b2 : recorded ts b b1 -> recorded ts' b1 b2 -> recorded (ts ++ ts') b b2.
Proof.
  intros [T1 I1 O1 C1 U1 (a & a1 & Ea & Ea1 & L1 & K1)] [T2 I2 O2 C2 U2 (a1' & a2 & Ea1' & Ea2 & L2 & K2)].
  rewrite Ea1 in Ea1'. injection Ea1' as <-. split; rewrite ?sum_app, ?len_app.
  - unfold u64 in *. rewrite T2, <- Zplus_mod_idemp_l, T1, Zplus_mod_idemp_l. f_equal. lia.
  - unfold u64 in *. rewrite I2, <- Zplus_mod_idemp_l, I1, Zplus_mod_idemp_l. f_equal. lia.
  - auto.
  - congruence.
  - lia.
  - exists a, a2. split_and!; [done|done|congruence|]. by rewrite K2, K1, app_assoc.
Qed.

Lemma recorded_room ts b b' n : recorded ts b b' -> room b (length ts + n) -> room b' n.
Proof.
  intros [_ _ _ _ U (a & a' & Ea & Ea' & L & _)] (arr & Harr & Hc & Hl). rewrite Ea in Harr. injection Harr as <-.
  exists a'. split; [done|]. unfold len in *. rewrite L. lia.
Qed.

Lemma add_timing_recorded t b :
  room b 1 ->
  exists b', add_timing t (mkBench (u64 (total_tsc b + t)) (u64 (iter b + 1)) (tc_cap b) (tc_cur b) (tc_arr b)) = Some b' /\
             recorded [t] b b'.
Proof.
  intros (arr & Ha & Hc & Hl). unfold add_timing. cbn [tc_arr tc_cur total_tsc iter tc_cap]. rewrite Ha. cbn [mbind option_bind].
  rewrite (proj2 (Z.leb_le _ _)), (proj2 (Z.ltb_lt _ _)) by lia. eexists. split; [reflexivity|].
  split; cbn [tc_arr tc_cur total_tsc iter tc_cap sum foldr].
  - by rewrite Z.add_0_r; unfold u64; rewrite Zmod_mod.
  - change (len [t]) with 1. unfold u64. by rewrite Zmod_mod.
  - intros _. split; apply u64_range.
  - done.
  - change (len [t]) with 1. rewrite u64_small; [done|]. unfold len in Hl. lia.
  - exists arr, (<[Z.to_nat (tc_cur b) := t]> arr). split_and!; [done|done|by rewrite length_insert|].
    rewrite u64_small by (unfold len in Hl; lia). replace (Z.to_nat (tc_cur b + 1)) with (S (Z.to_nat (tc_cur b))) by lia.
    rewrite (take_S_r _ _ t); [by rewrite take_insert_ge by lia|].
    apply list_lookup_insert_eq. unfold len in Hl. lia.
Qed.

(** The lengths of the next [n] calls, the counter having been read [k] times. *)
Fixpoint times (tsc : nat -> Z) (k n : nat) : list Z :=
  match n with
  | O => []
  | S n => u64 (tsc (1 + k)%nat - tsc k) :: times tsc (2 + k) n
  end.

Lemma times_length tsc k n : length (times tsc k n) = n.
Proof. revert k. induction n as [|n IH]; intros k; cbn; [done|by rewrite IH]. Qed.

Lemma times_app tsc k n n' : times tsc k (n + n') = times tsc k n ++ times tsc (k + 2 * n) n'.
Proof.
  revert k. induction n as [|n IH]; intros k; cbn [times Nat.add app]; [by rewrite Nat.mul_0_r, Nat.add_0_r|].
  rewrite IH. replace (k + 2 * S n)%nat with (2 + k + 2 * n)%nat by lia. reflexivity.
Qed.

(** A timed call is the call, and its time recorded. *)
Lemma timed_spec {S A} tsc (op : S -> option (A * S)) r a s :
  room (stats r) 1 -> op (state r) = Some (a, s) ->
  exists b, timed tsc op r = Some (a, mkRunning b (2 + ticks r) s) /\ recorded (times tsc (ticks r) 1) (stats r) b.
Proof.
  intros Hroom Hop. unfold timed. rewrite Hop. cbn [mbind option_bind].
  destruct (add_timing_recorded (u64 (tsc (1 + ticks r)%nat - tsc (ticks r))) (stats r) Hroom) as (b & E & Hb).
  cbn [tc_arr tc_cur total_tsc iter tc_cap]. rewrite E. by exists b.
Qed.

Section LoopFacts.
Context {S : Type} `{BenchTarget S}.
Variable tsc : nat -> Z.

(** [n] calls were made, from [cur] on, and [done] bytes taken. *)
Definition after_calls (n : nat) (cap cur : Z) (r r' : running S) : Prop :=
  ticks r' = (ticks r + 2 * n)%nat /\ recorded (times tsc (ticks r) n) (stats r) (stats r') /\ bt_at cap cur (state r').

Lemma after_calls_app n n' cap cur cur' r r1 r2 :
  after_calls n cap cur r r1 -> after_calls n' cap cur' r1 r2 -> after_calls (n + n') cap cur' r r2.
Proof.
  intros (T1 & R1 & _) (T2 & R2 & A2). split; [lia|]. split; [|done]. rewrite times_app, <- T1. by eapply recorded_app.
Qed.

Lemma alloc_and_poke_spec size cap cur r :
  bt_at cap cur (state r) -> 0 < size -> cur + size <= cap -> room (stats r) 1 ->
  exists r', alloc_and_poke tsc size r = Some (tt, r') /\ after_calls 1 cap (cur + size) r r'.
Proof.
  intros Ha Hs Hfit Hroom. destruct (bt_alloc_fits cap cur size (state r) Ha Hs Hfit) as (ptr & s1 & s2 & E1 & E2 & H2).
  destruct (timed_spec tsc (bt_alloc size) r ptr s1 Hroom E1) as (b & E & Hb).
  unfold alloc_and_poke. B_step E. unfold untimed. cbn [state]. rewrite E2. cbn [mbind option_bind].
  eexists. split; [reflexivity|]. split; [cbn [ticks]; lia|]. by split.
Qed.

Lemma for_sizes_spec sizes cap cur r :
  bt_at cap cur (state r) -> Forall (fun n => 0 < n) sizes -> cur + sum sizes <= cap -> room (stats r) (length sizes) ->
  exists r', for_sizes tsc sizes r = Some (tt, r') /\ after_calls (length sizes) cap (cur + sum sizes) r r'.
Proof.
  revert cur r. induction sizes as [|size sizes IH]; intros cur r Ha Hs Hfit Hroom; cbn [for_sizes length].
  - exists r. split; [done|]. split; [lia|]. split; [by eapply recorded_nil|]. cbn. by rewrite Z.add_0_r.
  - inversion Hs as [|?? Hs0 Hs']; subst. cbn [sum foldr] in Hfit. fold (sum sizes) in Hfit.
    assert (Hnn : 0 <= sum sizes) by (clear -Hs'; induction Hs'; cbn; [lia|]; fold (sum l); lia).
    destruct (alloc_and_poke_spec size cap cur r Ha Hs0) as (r1 & E1 & A1); [lia| |].
    { destruct Hroom as (arr & ? & ? & ?). exists arr. cbn [length] in *. split_and!; [done|lia|lia|lia]. }
    B_step E1. pose proof A1 as (T1 & R1 & At1).
    destruct (IH (cur + size) r1 At1 Hs') as (r2 & E2 & A2); [lia| |].
    { eapply recorded_room; [exact R1|]. by rewrite times_length. }
    exists r2. split; [exact E2|]. replace (cur + sum (size :: sizes)) with (cur + size + sum sizes)
      by (cbn [sum foldr]; fold (sum sizes); lia). exact (after_calls_app 1 (length sizes) _ _ _ r r1 r2 A1 A2).
Qed.

(** Without room, a store through NULL. *)
Lemma for_sizes_full sizes cap cur r :
  bt_at cap cur (state r) -> Forall (fun n => 0 < n < 2 ^ 63) sizes -> cap < cur + sum sizes -> cur <= cap ->
  room (stats r) (length sizes) -> for_sizes tsc sizes r = None.
Proof.
  revert cur r. induction sizes as [|size sizes IH]; intros cur r Ha Hs Hfull Hc Hroom; cbn [for_sizes length].
  { cbn in Hfull. lia. }
  inversion Hs as [|?? Hs0 Hs']; subst. cbn [sum foldr] in Hfull. fold (sum sizes) in Hfull.
  assert (Hroom1 : room (stats r) 1).
  { destruct Hroom as (arr & ? & ? & ?). exists arr. cbn [length] in *. split_and!; [done|lia|lia|lia]. }
  destruct (Z.le_gt_cases (cur + size) cap) as [Hfit|Hno].
  - destruct (alloc_and_poke_spec size cap cur r Ha) as (r1 & E1 & T1 & R1 & At1); [lia|done|done|].
    B_step E1. eapply IH; [exact At1|done|lia|done|].
    eapply recorded_room; [exact R1|]. by rewrite times_length.
  - destruct (bt_alloc_full cap cur size (state r) Ha Hs0 Hno) as (ptr & s1 & E1 & E2).
    destruct (timed_spec tsc (bt_alloc size) r ptr s1 Hroom1 E1) as (b & E & _).
    unfold mbind at 1, B_bind at 1. unfold alloc_and_poke. B_step E. unfold untimed. cbn [state]. by rewrite E2.
Qed.

(** The nested loops are one loop over the sizes, repeated. *)
Lemma iterate_for_sizes n sizes r :
  iterate n (for_sizes tsc sizes) r = for_sizes tsc (mjoin (replicate n sizes)) r.
Proof.
  revert r. induction n as [|n IH]; intros r; cbn [iterate replicate mjoin list_join]; [done|].
  rename sizes into l0. assert (Hgo : forall l r,
    (for_sizes tsc l;; iterate n (for_sizes tsc l0)) r = for_sizes tsc (l ++ mjoin (replicate n l0)) r).
  { induction l as [|x l IHl]; intros r'; cbn [for_sizes app]; [apply IH|].
    unfold mbind, B_bind in *. destruct (alloc_and_poke tsc x r') as [[[] r1]|]; [|done]. apply IHl. }
  apply Hgo.
Qed.

Lemma iterate_one n size r : iterate n (alloc_and_poke tsc size) r = for_sizes tsc (replicate n size) r.
Proof.
  revert r. induction n as [|n IH]; intros r; cbn [iterate replicate for_sizes]; [done|].
  unfold mbind, B_bind in *. destruct (alloc_and_poke tsc size r) as [[[] r1]|]; [|done]. apply IH.
Qed.
End LoopFacts.

(** ** The file: lemmas *)

Lemma unpack_encode l rest : Forall is_u64 l -> unpack (length l) (encode_u64s l ++ rest) = Some (l, rest).
Proof.
  unfold encode_u64s. induction 1 as [|v l Hv _ IH]; cbn [unpack map List.concat length app]; [done|].
  rewrite <- app_assoc. rewrite length_app, length_le_encode. rewrite (proj2 (Nat.ltb_ge _ _)) by lia.
  rewrite drop_app_length' by (by rewrite length_le_encode). rewrite IH. cbn [mbind option_bind].
  rewrite take_app_length' by (by rewrite length_le_encode). by rewrite le_decode_encode_64.
Qed.

Lemma encode_u64s_nonempty v l : (0 <? length (encode_u64s (v :: l)))%nat = true.
Proof. apply Nat.ltb_lt. unfold encode_u64s. cbn [map List.concat]. rewrite length_app, length_le_encode. lia. Qed.

(** The collection in the state of [b]: what is recorded. *)
Definition collected (b : bench) : list Z := take (Z.to_nat (tc_cur b)) (default [] (tc_arr b)).

Lemma write_then_parse errno b :
  is_u64 (total_tsc b) -> is_u64 (iter b) -> is_u64 (tc_cur b) -> 0 < tc_cur b <= len (default [] (tc_arr b)) ->
  Forall is_u64 (collected b) ->
  exists file, write_alloc_timing_data_to_file true (fun _ => true) errno b = Some (0, file) /\
               parse_timing_data file = Some (total_tsc b, iter b, collected b).
Proof.
  intros Ht Hi Hc Hcur Harr. unfold write_alloc_timing_data_to_file, lm_write_bytes_to_file. cbn [negb andb].
  rewrite !encode_u64s_nonempty. cbn [Z.eqb negb app]. fold (collected b).
  assert (Hlen : length (collected b) = Z.to_nat (tc_cur b)).
  { unfold collected. rewrite length_take. unfold len in Hcur. lia. }
  destruct (collected b) as [|v l] eqn:El; [cbn in Hlen; lia|].
  rewrite encode_u64s_nonempty. cbn [Z.eqb negb]. eexists. split; [reflexivity|].
  unfold parse_timing_data. rewrite <- app_assoc.
  rewrite (unpack_encode [total_tsc b; iter b] _ (Forall_cons_2 _ _ _ Ht (Forall_cons_2 _ _ _ Hi (Forall_nil_2 _)))). cbn [mbind option_bind].
  rewrite (unpack_encode [tc_cur b] _ (Forall_cons_2 _ _ _ Hc (Forall_nil_2 _))). cbn [mbind option_bind]. change (default 0 (head [tc_cur b])) with (tc_cur b).
  rewrite <- Hlen, <- (app_nil_r (encode_u64s (v :: l))). by rewrite unpack_encode.
Qed.

Lemma times_u64 tsc k n : Forall is_u64 (times tsc k n).
Proof. revert k. induction n as [|n IH]; intros k; cbn; constructor; [apply u64_range|apply IH]. Qed.

Lemma sum_replicate n x : sum (replicate n x) = Z.of_nat n * x.
Proof. induction n as [|n IH]; [done|]. cbn [replicate sum foldr]. fold (sum (replicate n x)). lia. Qed.

Lemma sum_join_replicate n l : sum (mjoin (replicate n l)) = Z.of_nat n * sum l.
Proof. induction n as [|n IH]; [done|]. change (mjoin (replicate (S n) l)) with (l ++ mjoin (replicate n l)). rewrite sum_app, IH. lia. Qed.

Lemma length_join_replicate {A} n (l : list A) : length (mjoin (replicate n l)) = (n * length l)%nat.
Proof. induction n as [|n IH]; [done|]. change (mjoin (replicate (S n) l)) with (l ++ mjoin (replicate n l)). rewrite length_app, IH. lia. Qed.

Lemma Forall_join_replicate {A} (P : A -> Prop) n l : Forall P l -> Forall P (mjoin (replicate n l)).
Proof. intros H. induction n as [|n IH]; [constructor|]. change (mjoin (replicate (S n) l)) with (l ++ mjoin (replicate n l)). by apply Forall_app_2. Qed.

Section RunFacts.
Context {S : Type} `{BenchTarget S}.
Variable tsc : nat -> Z.
Variable errno : Z.

(** What both tests do once the array is there: the calls [ns], the release and
    the file. *)
Lemma recorded_run ns arr cap r :
  bt_at cap 0 (state r) -> Forall (fun n => 0 < n) ns -> sum ns <= cap -> (0 < length ns)%nat ->
  Z.of_nat (length ns) <= len arr < 2 ^ 64 -> counters_ok (stats r) ->
  let ts := times tsc (ticks r) (length ns) in
  let b0 := init_alloc_tcoll (Z.of_nat (length ns)) (Some arr) (stats r) in
  exists r1 file r',
    for_sizes tsc ns (mkRunning b0 (ticks r) (state r)) = Some (tt, r1) /\
    (untimed bt_free;; write_data_to_file true (fun _ => true) errno) r1 = Some ((0, file), r') /\
    parse_timing_data file = Some (u64 (total_tsc (stats r) + sum ts), u64 (iter (stats r) + len ts), ts) /\
    bt_at cap 0 (state r') /\ ticks r' = (ticks r + 2 * length ns)%nat /\ counters_ok (stats r') /\
    total_tsc (stats r') = u64 (total_tsc (stats r) + sum ts) /\ iter (stats r') = u64 (iter (stats r) + len ts) /\
    exists arr', tc_arr (stats r') = Some arr' /\ length arr' = length arr.
Proof.
  intros Hat Hpos Hfit Hn Harr Hok ts b0.
  destruct (for_sizes_spec tsc ns cap 0 (mkRunning b0 (ticks r) (state r))) as (r1 & E1 & T1 & R1 & At1);
    [done|done|lia| |].
  { exists arr. cbn. split_and!; [done|lia|lia|lia]. }
  destruct (bt_free_all _ _ _ At1) as (s2 & E2 & At2). cbn [ticks stats] in T1, R1. fold ts in R1.
  assert (Hlen : len ts = Z.of_nat (length ns)) by (unfold len, ts; by rewrite times_length).
  destruct R1 as [Rt Ri Ro _ Ru (a & a' & Ea & Ea' & La & Ka)].
  cbn [b0 init_alloc_tcoll total_tsc iter tc_cur tc_arr] in Rt, Ri, Ro, Ru, Ea, Ka. injection Ea as <-.
  destruct (Ro Hok) as [Ho1 Ho2]. unfold is_u64 in Ho1, Ho2. rewrite u64_small in Rt, Ri by done.
  change (take (Z.to_nat 0) arr) with (@nil Z) in Ka. cbn [app] in Ka. rewrite Z.add_0_l in Ru.
  destruct (write_then_parse errno (stats r1)) as (file & Ef & Pf); [done|done| | | |].
  - rewrite Ru. unfold is_u64. lia.
  - rewrite Ea', Ru. change (default [] (Some a')) with a'. unfold len in Harr, Hlen |- *. rewrite La. lia.
  - unfold collected. rewrite Ea'. change (default [] (Some a')) with a'. rewrite Ka. apply times_u64.
  - exists r1, file, (mkRunning (stats r1) (ticks r1) s2). split; [exact E1|]. split.
    { unfold untimed, mbind, B_bind. rewrite E2. cbn [mbind option_bind]. unfold write_data_to_file. cbn [stats].
      by rewrite Ef. }
    unfold collected in Pf. rewrite Ea' in Pf. change (default [] (Some a')) with a' in Pf. rewrite Ka, Rt, Ri in Pf.
    cbn [stats state ticks]. split_and!; [exact Pf|done|done|by split|done|done|by exists a'].
Qed.
End RunFacts.

(** An empty collection is an error, with the header written. *)
Lemma write_alloc_timing_data_empty errno b :
  tc_cur b = 0 -> 0 < errno ->
  write_alloc_timing_data_to_file true (fun _ => true) errno b
  = Some (- errno, encode_u64s [total_tsc b; iter b] ++ encode_u64s [0]).
Proof.
  intros Hc He. unfold write_alloc_timing_data_to_file, lm_write_bytes_to_file. cbn [negb andb].
  rewrite !encode_u64s_nonempty, Hc. change (0 =? 0) with true. cbn [negb app].
  change (encode_u64s (take (Z.to_nat 0) (default [] (tc_arr b)))) with (@nil Z).
  change (0 <? length (@nil Z))%nat with false. cbv iota beta. by rewrite (proj2 (Z.eqb_neq (- errno) 0)) by lia.
Qed.

(** A dynamic collection goes on where the last one stopped: after a full one,
    its first timing is a fault. *)
Lemma init_alloc_tcoll_dynamic_full b cap mem b' t :
  len mem <= tc_cur b -> init_alloc_tcoll_dynamic cap (Some mem) b = Some b' -> add_timing t b' = None.
Proof.
  intros Hc [= <-]. unfold add_timing. cbn [tc_arr tc_cur mbind option_bind].
  by rewrite (proj2 (Z.ltb_ge _ _) Hc), andb_false_r.
Qed.

(** ** [u_arena.c] as what is measured *)

Section UArenaTarget.
Variable p : Z.

Definition ua_poke (ptr : Z) : mem -> option (unit * mem) := store8 ptr 1.

Definition ua_taken (cap cur : Z) (m : mem) : Prop :=
  exists a, arena_at m p a /\ wf_arena m p a /\ ua_cap a = cap /\ ua_cur a = cur /\ cap < 2 ^ 63 /\ m !! NULL = None.

Lemma ua_alloc_pokes cap cur n m :
  ua_taken cap cur m -> 0 < n -> cur + n <= cap ->
  exists ptr m1 m2, ua_alloc p n m = Some (ptr, m1) /\ ua_poke ptr m1 = Some (tt, m2) /\ ua_taken cap (cur + n) m2.
Proof.
  intros (a & Ha & Hwf & <- & <- & Hcap & Hnull) Hn Hfit. pose proof (wf_cur _ _ _ Hwf) as Hcur.
  pose proof (ua_alloc_refines m p a n Ha Hwf Hcap ltac:(lia)) as H. unfold step_refines in H. cbn [Bump.step] in H.
  rewrite (proj2 (Z.leb_le _ _) Hfit) in H. destruct H as (m1 & E1 & A1 & F1). cbn [concrete] in E1.
  assert (W1 : wf_arena m1 p (with_cur a (ua_cur a + n))) by (eapply wf_with_cur; [done..|lia]).
  destruct (store8_spec m1 (ua_mem a + ua_cur a) 1) as (m2 & E2 & A2 & _).
  { eapply mapped_sub; [exact (wf_mapped _ _ _ W1)|cbn; lia..]. }
  assert (F2 : frame (in_block a n) m1 m2) by (eapply agree_outside_frame; [exact A2|]; unfold in_block; lia).
  exists (ua_mem a + ua_cur a), m1, m2. split_and!; [done|exact E2|].
  exists (with_cur a (ua_cur a + n)). split_and!; try done.
  - eapply arena_at_frame; [exact F2| |exact A1]. pose proof (wf_apart _ _ _ Hwf). unfold in_block. unfold_fields. intros x Hx. lia.
  - destruct W1. split; try done. by eapply frame_mapped.
  - assert (D : forall x, m !! x = None -> m2 !! x = None).
    { intros x. rewrite !eq_None_not_Some. rewrite (proj1 A2 x), (proj1 F1 x). done. }
    by apply D.
Qed.

Lemma ua_alloc_full_pokes cap cur n m :
  ua_taken cap cur m -> 0 < n < 2 ^ 63 -> cap < cur + n ->
  exists ptr m1, ua_alloc p n m = Some (ptr, m1) /\ ua_poke ptr m1 = None.
Proof.
  intros (a & Ha & Hwf & <- & <- & Hcap & Hnull) Hn Hfull. pose proof (wf_cur _ _ _ Hwf) as Hcur.
  exists NULL, m. split; [apply (ua_alloc_full m p a n Ha); rewrite u64_small; lia|].
  unfold ua_poke, store8. cbn [write_bytes]. by rewrite Hnull.
Qed.

Lemma ua_free_taken cap cur m : ua_taken cap cur m -> exists m', ua_free p m = Some (tt, m') /\ ua_taken cap 0 m'.
Proof.
  intros (a & Ha & Hwf & <- & <- & Hcap & Hnull). destruct (ua_free_spec m p a Ha) as (m' & E & A & At).
  exists m'. split; [done|]. exists (with_cur a 0). pose proof (wf_cur _ _ _ Hwf).
  split_and!; try done.
  - eapply wf_with_cur; [done|by apply cur_store_frame|lia].
  - rewrite eq_None_not_Some, (proj1 A NULL), Hnull. by intros [? ?].
Qed.

#[local] Instance UArena_target : BenchTarget mem := {
  bt_alloc := ua_alloc p;
  bt_poke := ua_poke;
  bt_free := ua_free p;
  bt_at := ua_taken;
  bt_alloc_fits := ua_alloc_pokes;
  bt_alloc_full := ua_alloc_full_pokes;
  bt_free_all := ua_free_taken;
}.
End UArenaTarget.

(** ** Both loops *)

Section Runs.
Context {S : Type} `{BenchTarget S}.
Variable tsc : nat -> Z.
Variable errno : Z.

(** The state in which a loop starts. *)
Definition ready (cap : Z) (r : running S) : Prop := bt_at cap 0 (state r) /\ counters_ok (stats r).

(** What file [j] holds when each has [n] timings: its own timings, and the
    totals of all the calls so far. *)
Definition file_of (r : running S) (n j : nat) (file : list Z) : Prop :=
  parse_timing_data file =
    Some (u64 (total_tsc (stats r) + sum (times tsc (ticks r) (n * (1 + j)))),
          u64 (iter (stats r) + Z.of_nat (n * (1 + j))),
          times tsc (ticks r + 2 * (n * j)) n).

Lemma file_of_next r r' n j file :
  ticks r' = (ticks r + 2 * n)%nat ->
  total_tsc (stats r') = u64 (total_tsc (stats r) + sum (times tsc (ticks r) n)) ->
  iter (stats r') = u64 (iter (stats r) + Z.of_nat n) ->
  file_of r' n j file -> file_of r n (1 + j) file.
Proof.
  intros Ht Htot Hi Hf. unfold file_of in *. rewrite Hf, Ht, Htot, Hi. clear.
  replace (n * (1 + (1 + j)))%nat with (n + n * (1 + j))%nat by lia. rewrite times_app, sum_app.
  replace (ticks r + 2 * n + 2 * (n * j))%nat with (ticks r + 2 * (n * (1 + j)))%nat by lia.
  unfold u64. rewrite !Zplus_mod_idemp_l. do 3 f_equal; [f_equal; lia|f_equal; lia].
Qed.

Lemma one_size_spec n arr cap size r :
  ready cap r -> 0 < size -> Z.of_nat n * size <= cap -> (0 < n)%nat -> Z.of_nat n <= len arr < 2 ^ 64 ->
  exists file r', one_size tsc true (fun _ => true) errno arr n size r = Some ((0, file), r') /\
    file_of r n 0 file /\ ready cap r' /\ ticks r' = (ticks r + 2 * n)%nat /\
    total_tsc (stats r') = u64 (total_tsc (stats r) + sum (times tsc (ticks r) n)) /\
    iter (stats r') = u64 (iter (stats r) + Z.of_nat n) /\
    exists arr', tc_arr (stats r') = Some arr' /\ length arr' = length arr.
Proof.
  intros [Hat Hok] Hs Hfit Hn Harr.
  destruct (recorded_run tsc errno (replicate n size) arr cap r) as (r1 & file & r' & E1 & E2 & Hp & At & Ht & Ok & Tot & It & Ha).
  - done.
  - by apply Forall_replicate.
  - by rewrite sum_replicate.
  - by rewrite length_replicate.
  - by rewrite length_replicate.
  - done.
  - unfold len in Hp, It. rewrite length_replicate in *. rewrite times_length in *. exists file, r'. split_and!; try done.
    + unfold one_size. rewrite (B_bind_Some _ _ r tt (mkRunning _ (ticks r) (state r))) by reflexivity.
      rewrite (B_bind_Some _ _ _ tt r1); [exact E2|]. rewrite iterate_one. exact E1.
    + unfold file_of. by rewrite Nat.mul_1_r, Nat.mul_0_r, Nat.mul_0_r, Nat.add_0_r.
Qed.

Lemma each_size_spec n cap sizes arr r :
  ready cap r -> Forall (fun size => 0 < size /\ Z.of_nat n * size <= cap) sizes ->
  (0 < n)%nat -> Z.of_nat n <= len arr < 2 ^ 64 ->
  exists fs r', each_size tsc true (fun _ => true) errno arr n sizes r = Some (fs, r') /\
    length fs = length sizes /\ ready cap r' /\
    forall j f, fs !! j = Some f -> fst f = 0 /\ file_of r n j (snd f).
Proof.
  revert arr r. induction sizes as [|size sizes IH]; intros arr r Hr Hs Hn Harr; cbn [each_size].
  { exists [], r. split_and!; [done..|]. intros j f Hj. by rewrite lookup_nil in Hj. }
  inversion Hs as [|?? [Hs0 Hfit] Hs']; subst.
  destruct (one_size_spec n arr cap size r) as (file & r1 & E1 & F1 & R1 & T1 & Tot1 & I1 & arr' & Ea & La); [done..|].
  B_step E1. rewrite (B_bind_Some _ _ r1 arr' r1) by (unfold get_arr; by rewrite Ea).
  destruct (IH arr' r1) as (fs & r2 & E2 & L2 & R2 & F2); [done|done|done|unfold len in *; by rewrite La|].
  B_step E2. exists ((0, file) :: fs), r2. split_and!; [done|cbn; by rewrite L2|done|].
  intros [|j] f Hj; cbn in Hj.
  - by injection Hj as <-.
  - destruct (F2 j f Hj) as [? ?]. split; [done|]. by apply (file_of_next r r1).
Qed.

(** The array, when its size does not wrap; and when it does: the array has not
    room for all the timings. *)
Lemma timing_arr_fits n : Z.of_nat n < 2 ^ 61 -> timing_arr true (Z.of_nat n) = Some (replicate n 0).
Proof.
  intros Hn. unfold timing_arr. rewrite u64_small by lia. rewrite Z.div_mul by done. by rewrite Nat2Z.id.
Qed.

Lemma timing_arr_wraps n arr : 2 ^ 61 <= n -> timing_arr true n = Some arr -> len arr < n.
Proof.
  unfold timing_arr, len. intros Hn [= <-]. rewrite length_replicate. pose proof (u64_range (n * 8)).
  rewrite Z2Nat.id by (apply Z.div_pos; lia). apply Z.div_lt_upper_bound; lia.
Qed.

(** The files of [each_size_by_itself].  Over an arena in which every size
    fits [alloc_iterations] times, no call faults, the arena is empty again
    after each size, and the reader gets back, from the file of the [j]-th
    size, the [alloc_iterations] timings of that size alone but the total and
    the number of calls of all sizes up to it: the collection starts afresh for
    each size, the statistics do not. *)
Theorem each_size_accumulates (n : nat) (cap : Z) (alloc_sizes : list Z) (r : running S) :
  ready cap r -> Forall (fun size => 0 < size /\ Z.of_nat n * size <= cap) alloc_sizes -> 0 < Z.of_nat n < 2 ^ 61 ->
  exists fs r', each_size_by_itself tsc true true (fun _ => true) errno n alloc_sizes r = Some (fs, r') /\
    length fs = length alloc_sizes /\ ready cap r' /\
    forall j f, fs !! j = Some f -> fst f = 0 /\ file_of r n j (snd f).
Proof.
  intros Hr Hs Hn. unfold each_size_by_itself. rewrite timing_arr_fits by lia. apply each_size_spec; [done|done|lia|].
  unfold len. rewrite length_replicate. lia.
Qed.

(** C20: [all_sizes_repeatedly] on an arena, for fewer than 2^61 calls (of as many
    the size of the array wraps around: [timing_arr_wraps]), with the memory for
    the timings granted and a file that is written.  It runs to its end exactly when the
    arena holds [alloc_iterations] rounds of all the sizes together -- otherwise
    a store goes through NULL, whatever the largest size -- and then the file is
    read back as the timings of all the calls in order, with their total and
    number. *)
Theorem all_sizes_repeatedly_runs (n : nat) (cap : Z) (alloc_sizes : list Z) (r : running S) :
  ready cap r -> 0 <= cap -> Forall (fun size => 0 < size < 2 ^ 63) alloc_sizes ->
  0 < Z.of_nat (n * length alloc_sizes) < 2 ^ 61 ->
  if Z.of_nat n * sum alloc_sizes <=? cap
  then exists file r', all_sizes_repeatedly tsc true true (fun _ => true) errno n alloc_sizes r = Some ((0, file), r') /\
         file_of r (n * length alloc_sizes) 0 file /\ ready cap r'
  else all_sizes_repeatedly tsc true true (fun _ => true) errno n alloc_sizes r = None.
Proof.
  intros [Hat Hok] Hcap Hs Hn. set (ns := mjoin (replicate n alloc_sizes)).
  assert (Hlen : length ns = (n * length alloc_sizes)%nat) by apply length_join_replicate.
  assert (Hns : Forall (fun size => 0 < size < 2 ^ 63) ns) by by apply Forall_join_replicate.
  assert (Hsum : sum ns = Z.of_nat n * sum alloc_sizes) by apply sum_join_replicate.
  set (arr := replicate (n * length alloc_sizes) 0). unfold all_sizes_repeatedly.
  rewrite <- Nat2Z.inj_mul, u64_small, timing_arr_fits by lia. fold arr.
  assert (Harr : Z.of_nat (length ns) <= len arr < 2 ^ 64) by (unfold len, arr; rewrite length_replicate; lia).
  rewrite (B_bind_Some _ _ r tt (mkRunning (init_alloc_tcoll (Z.of_nat (length ns)) (Some arr) (stats r)) (ticks r) (state r)))
    by by rewrite Hlen.
  destruct (Z.leb_spec (Z.of_nat n * sum alloc_sizes) cap) as [Hfit|Hfull].
  - destruct (recorded_run tsc errno ns arr cap r) as (r1 & file & r' & E1 & E2 & Hp & At & Ht & Ok & _); [done| |lia|lia|done|done|].
    { eapply Forall_impl; [exact Hns|]. cbn. lia. }
    exists file, r'. rewrite (B_bind_Some _ _ _ tt r1) by (rewrite iterate_for_sizes; exact E1). split_and!; [exact E2| |done].
    unfold len in Hp. rewrite times_length in Hp. unfold file_of. rewrite <- Hlen, Hp. by rewrite Nat.mul_1_r, !Nat.mul_0_r, Nat.add_0_r.
  - unfold mbind at 1, B_bind at 1. rewrite iterate_for_sizes, (for_sizes_full tsc ns cap 0); [done|done|done|lia|done|].
    exists arr. cbn [stats init_alloc_tcoll tc_arr tc_cur]. split_and!; [done|lia|lia|lia].
Qed.
End Runs.

(** ** Concrete runs *)

Module Demo.
#[export] Existing Instance UArena_target.

(** The arena of [UArena.Demo], emptied: 64 bytes. *)
Definition start : mem := match ua_free 1000 UArena.Demo.m0 with Some (_, m) => m | None => ∅ end.

Definition counter (k : nat) : Z := Z.of_nat (k * k).
Definition r0 : running mem := mkRunning bench_start 0 start.

Lemma ready0 : ready (S := mem) (H := UArena_target 1000) 64 r0.
Proof.
  split; [|split; cbn; unfold is_u64; lia].
  destruct (ua_free_spec UArena.Demo.m0 1000 UArena.Demo.a0 UArena.Demo.at0) as (m' & E & A & At).
  assert (Hm : m' = start) by (unfold start; by rewrite E). subst m'.
  exists (with_cur UArena.Demo.a0 0). split_and!; [exact At| |done|done|done|by vm_compute].
  eapply wf_with_cur; [exact UArena.Demo.wf0|by apply cur_store_frame|cbn; lia].
Qed.
End Demo.

Lemma each_size_accumulates_witness :
  exists f1 f2 r',
    each_size_by_itself (S := mem) (H := UArena_target 1000) Demo.counter true true (fun _ => true) 5 2 [8; 27] Demo.r0
      = Some ([(0, f1); (0, f2)], r') /\
    parse_timing_data f1 = Some (6, 2, [1; 5]) /\ parse_timing_data f2 = Some (28, 4, [9; 13]).
Proof.
  destruct (each_size_accumulates (S := mem) (H := UArena_target 1000) Demo.counter 5 2 64 [8; 27] Demo.r0 Demo.ready0)
    as (fs & r' & E & L & _ & F).
  - repeat constructor; lia.
  - lia.
  - destruct fs as [|[? f1] [|[? f2] [|]]]; try discriminate L.
    destruct (F 0%nat _ eq_refl) as [E1 F1]. destruct (F 1%nat _ eq_refl) as [E2 F2]. cbn in E1, E2. subst.
    exists f1, f2, r'. split; [exact E|]. split; [exact F1|exact F2].
Defined.

Lemma all_sizes_repeatedly_runs_witness :
  (exists file r',
    all_sizes_repeatedly (S := mem) (H := UArena_target 1000) Demo.counter true true (fun _ => true) 5 2 [8; 16] Demo.r0
      = Some ((0, file), r') /\ parse_timing_data file = Some (28, 4, [1; 5; 9; 13])) /\
  2 * 27 <= 64 /\
  all_sizes_repeatedly (S := mem) (H := UArena_target 1000) Demo.counter true true (fun _ => true) 5 2 [8; 27] Demo.r0 = None.
Proof.
  split; [|split; [lia|]].
  - destruct (all_sizes_repeatedly_runs (S := mem) (H := UArena_target 1000) Demo.counter 5 2 64 [8; 16] Demo.r0 Demo.ready0)
      as (file & r' & E & F & _); [lia|repeat (apply Forall_cons_2; [lia|]); apply Forall_nil_2|cbn; lia|].
    exists file, r'. split; [exact E|exact F].
  - apply (all_sizes_repeatedly_runs (S := mem) (H := UArena_target 1000) Demo.counter 5 2 64 [8; 27] Demo.r0 Demo.ready0);
      [lia|repeat (apply Forall_cons_2; [lia|]); apply Forall_nil_2|cbn; lia].
Defined.
