(* ===== verification/Tests.v ===== *)
(** * The choice of the benchmarks

    [run_tests] and the tests it can run ([src/src/tests/tests.c]): which tight
    loops run, in which order and with which parameters, is what the
    configuration says.  The number of a run, with which its files are named,
    comes from the names already in the directory ([get_next_run_nr], of which
    [tests.c], [tight_loop_test.c] and [Sdhs.c] each have a copy).

    A test is the list of the runs that it starts; the loops themselves are in
    [Bench], [SdhsMain] in [SetUp] and [Session].  A run need not come back: in
    the process of the suite ("debugger") an assertion, a store through NULL or a
    call of [exit] ends the suite with it, and a forked child may never end.
    Whether a run comes back is an input, and what was started before is part
    of every result.  The file system is a parameter too: what a directory
    lists the [n]-th time that one is read, and which files can be created. *)

From S2P Require Import Prelude.
From S2P Require Import LmDefs.
From S2P Require Import Json.
From S2P Require Import Session.
From S2P Require Import SetUp.
From S2P Require Import Timing.
From S2P Require Import Bench.
From Stdlib Require Import SpecFloat.
From Stdlib Require Import Strings.String.
#[local] Open Scope Z_scope.
#[local] Abbreviation length := List.length.

(** ** The number of a run *)

Record dir_entry := mkEntry { is_dir : bool; d_name : list Z }.

(** The loop over the entries, from [largest_num]; [number] is what is made of
    a name before [atoi]. *)
Fixpoint largest_run (number : list Z -> list Z) (entries : list dir_entry) (largest_num : Z) : option Z :=
  match entries with
  | [] => Some largest_num
  | entry :: entries =>
      if is_dir entry then largest_run number entries largest_num
      else
        current_num ← atoi (number (d_name entry));
        largest_run number entries
          (if (0 <? current_num) && (largest_num <? current_num) then current_num else largest_num)
  end.

(** [directory]: its entries, or [None] when it cannot be opened. *)
Definition get_next_run_nr (number : list Z -> list Z) (errno : Z) (directory : option (list dir_entry)) : option Z :=
  match directory with
  | None => Some (- errno)
  | Some entries =>
      largest_num ← largest_run number entries 0;
      if largest_num =? 0 then Some 1 else if largest_num =? INT_MAX then None else Some (largest_num + 1)
  end.

(** [lm_string_backspace(filename, 4)]: of a shorter name the text stays, the
    NUL goes into the header. *)
Definition without_extension (filename : list Z) : list Z :=
  if (length filename <? 4)%nat then filename else take (length filename - 4) filename.

Definition get_next_run_nr_of_tests : Z -> option (list dir_entry) -> option Z := get_next_run_nr without_extension.

(** The directory of the files that the loops write. *)
Definition run_directory (log_dir : list Z) (atype : alloc_type) (size_name : option (list Z)) (alloc_size : Z)
    : list Z :=
  match size_name with
  | None => log_dir ++ alloct_string atype ++ bytes "-" ++ lld alloc_size ++ bytes "B/"
  | Some size_name => log_dir ++ alloct_string atype ++ bytes "-" ++ size_name ++ bytes "/"
  end.

(** The directory is made, or was there; the result of an early return, or the
    name of the file. *)
Definition next_file (errno : Z) (make_dir : list Z -> bool) (listing : list Z -> option (list dir_entry))
    (directory : list Z) : option (Z + list Z) :=
  if negb (make_dir directory) then Some (inl (- errno))
  else
    run_nr ← get_next_run_nr (fun name => name) errno (listing directory);
    if run_nr <=? 0 then Some (inl run_nr) else Some (inr (directory ++ lld run_nr ++ bytes ".bin")).

(** [write_data_to_file]: the name that it gives to the file, if it gets there. *)
Definition run_file (errno : Z) make_dir listing (log_dir : list Z) (atype : alloc_type)
    (size_name : option (list Z)) (alloc_size : Z) : option (option (list Z)) :=
  r ← next_file errno make_dir listing (run_directory log_dir atype size_name alloc_size);
  Some (match r with inl _ => None | inr file => Some file end).

(** The end of [SdhsMain], with the statistics [b]: its result, and the file with
    its bytes if there is one. *)
Definition SdhsMain_timings (errno : Z) make_dir listing (opened : bool) (written : nat -> bool) (log_dir : list Z)
    (sdhs_alloc_fn : alloc_fn_t) (b : bench) : option (Z * option (list Z * list Z)) :=
  r ← next_file errno make_dir listing (log_dir ++ alloct_string (get_alloc_type sdhs_alloc_fn) ++ bytes "/");
  match r with
  | inl ret => Some (ret, None)
  | inr file =>
      '(res, data) ← write_alloc_timing_data_to_file opened written errno b;
      Some (if negb (res =? 0) then 1 else 0, Some (file, data))
  end.

(** ** The tests *)

Record ua_params := mkParams { arena_sz : Z; contiguous : bool; mallocd : bool }.

Definition small_sizes : list Z := [8; 27; 64; 125; 128].
Definition medium_sizes : list Z := [183; 512; 1359; 3875; 4096].
Definition large_sizes : list Z := [LmKibiByte 5 + 35; LmKibiByte 32; LmKibiByte 128 + 133].

Inductive action :=
  | ArenaInfo (log_filename : list Z) (params : ua_params)
  | TightLoop (params : option ua_params) (running_in_debugger is_karena : bool) (alloc_iterations : Z)
      (alloc_fn : alloc_fn_t) (alloc_fn_name : list Z) (alloc_sizes : list Z) (size_name : list Z)
      (log_filename file_mode log_directory : list Z)
  | RunSdhs (forked : bool) (log_dir : list Z).

(** The directories read so far, and what was run, in order. *)
Record testing := mkTesting { reads : nat; trace : list action }.

(** The result is [None] when the process is over: killed by a fault or a failed
    assertion, ended by [exit], or waiting for ever. *)
Definition T (A : Type) : Type := testing -> option A * testing.

#[export] Instance T_ret : MRet T := fun A a w => (Some a, w).
#[export] Instance T_bind : MBind T := fun A B f c w =>
  match c w with
  | (Some a, w) => f a w
  | (None, w) => (None, w)
  end.

Definition back {A} (a : A) : T A := mret a.
Definition crash {A} : T A := fun w => (None, w).
Definition lift_option {A} (o : option A) : T A := fun w => (o, w).

Section Tests.
Variable errno : Z.
Variable listing : nat -> list Z -> option (list dir_entry).
Variable can_create : list Z -> bool.
(** Whether the fork of [sdhs_test] works; whether a failed assertion is only
    logged. *)
Variable fork_works NDEBUG : bool.
(** Whether a run comes back to the suite, after the runs before it: one in the
    process of the suite by returning, one in a child by the child's end. *)
Variable comes_back : list action -> action -> bool.

(** The line in the log is not a run. *)
Definition is_back (before : list action) (a : action) : bool :=
  match a with ArenaInfo _ _ => true | _ => comes_back before a end.

Definition run (a : action) : T unit := fun w =>
  (if is_back (trace w) a then Some tt else None, mkTesting (reads w) (trace w ++ [a])).

Definition LmAssert (cond : bool) : T unit := if negb cond && negb NDEBUG then crash else mret tt.

Definition next_run_nr (log_dir : list Z) : T Z := fun w =>
  (get_next_run_nr_of_tests errno (listing (reads w) log_dir), mkTesting (S (reads w)) (trace w)).

(** [*log_dir] and [*log_filename]. *)
Definition prepare_logging (log_dir_json : option json) : T (list Z * list Z) :=
  let log_dir := default [] (cJSON_GetStringValue log_dir_json) in
  run_nr ← next_run_nr log_dir;
  mret (log_dir, log_dir ++ lld run_nr ++ bytes "-log.txt").

(** [tight_loop_test] up to its forks: the assertion is made in the suite. *)
Definition start_tight_loop (params : option ua_params) (running_in_debugger is_karena : bool) (iterations : Z)
    (alloc_fn : alloc_fn_t) (alloc_fn_name : list Z) (alloc_sizes size_name : list Z)
    (log_filename file_mode log_directory : list Z) : T unit :=
  LmAssert (arena_holds (option_map arena_sz params) (Z.to_nat iterations) alloc_sizes);;
  run (TightLoop params running_in_debugger is_karena iterations alloc_fn alloc_fn_name alloc_sizes size_name
         log_filename file_mode log_directory).

Definition tight_loop_test_all_sizes (params : option ua_params) (running_in_debugger is_karena : bool)
    (iterations : Z) (alloc_fn : alloc_fn_t) (alloc_fn_name log_filename file_mode log_filename_base : list Z) : T unit :=
  start_tight_loop params running_in_debugger is_karena iterations alloc_fn alloc_fn_name small_sizes (bytes "small")
    log_filename file_mode log_filename_base;;
  start_tight_loop params running_in_debugger is_karena iterations alloc_fn alloc_fn_name medium_sizes (bytes "medium")
    log_filename file_mode log_filename_base;;
  start_tight_loop params running_in_debugger is_karena iterations alloc_fn alloc_fn_name large_sizes (bytes "large")
    log_filename file_mode log_filename_base.

(** Each function with its name; names beyond the functions are not used. *)
Definition a_alloc_functions : list (alloc_fn_t * list Z) :=
  [(Oka_alloc_timed, bytes "okalloc"); (Ka_alloc_timed, bytes "kalloc"); (Ua_alloc_timed, bytes "ualloc")].
Definition malloc_and_fam : list (alloc_fn_t * list Z) := [(Malloc_timed, bytes "malloc")].

Definition is_karena_fn (alloc_fn : alloc_fn_t) : bool :=
  match alloc_fn with Ka_alloc_timed | Oka_alloc_timed => true | _ => false end.

Fixpoint for_functions (body : alloc_fn_t -> list Z -> T unit) (fns : list (alloc_fn_t * list Z)) : T unit :=
  match fns with
  | [] => mret tt
  | (alloc_fn, alloc_fn_name) :: fns => body alloc_fn alloc_fn_name;; for_functions body fns
  end.

Definition present (j : option json) : bool := match j with Some _ => true | None => false end.

Definition arena_test (ctx_json : option json) (running_in_debugger : bool) : T Z :=
  let arena_sz_json := cJSON_GetObjectItem ctx_json (bytes "arena_sz") in
  let mallocd_json := cJSON_GetObjectItem ctx_json (bytes "mallocd") in
  let contiguous_json := cJSON_GetObjectItem ctx_json (bytes "contiguous") in
  let alloc_iterations_json := cJSON_GetObjectItem ctx_json (bytes "alloc_iterations") in
  let log_directory_json := cJSON_GetObjectItem ctx_json (bytes "log_directory") in
  LmAssert (present arena_sz_json && present mallocd_json && present contiguous_json
              && present alloc_iterations_json && present log_directory_json);;
  let params := mkParams (lm_mem_sz_from_string (cJSON_GetStringValue arena_sz_json))
                  (cJSON_IsTrue contiguous_json) (cJSON_IsTrue mallocd_json) in
  alloc_iterations ← lift_option (u64_of_double (cJSON_GetNumberValue alloc_iterations_json));
  LmAssert (0 <? alloc_iterations);;
  '(log_dir, log_filename) ← prepare_logging log_directory_json;
  if negb (can_create log_filename) then crash
  else
    run (ArenaInfo log_filename params);;
    for_functions (fun alloc_fn alloc_fn_name =>
      tight_loop_test_all_sizes (Some params) running_in_debugger (is_karena_fn alloc_fn) alloc_iterations
        alloc_fn alloc_fn_name log_filename (bytes "a") log_dir) a_alloc_functions;;
    mret 0.

Definition malloc_test (ctx_json : option json) (running_in_debugger : bool) : T Z :=
  let alloc_iterations_json := cJSON_GetObjectItem ctx_json (bytes "alloc_iterations") in
  let log_directory_json := cJSON_GetObjectItem ctx_json (bytes "log_directory") in
  LmAssert (present alloc_iterations_json && present log_directory_json);;
  alloc_iterations ← lift_option (u64_of_double (cJSON_GetNumberValue alloc_iterations_json));
  '(log_dir, log_filename) ← prepare_logging log_directory_json;
  LmAssert (0 <? alloc_iterations);;
  for_functions (fun alloc_fn alloc_fn_name =>
    tight_loop_test_all_sizes None running_in_debugger false alloc_iterations alloc_fn alloc_fn_name
      log_filename (bytes "a") log_dir) malloc_and_fam;;
  mret 0.

Definition sdhs_test (ctx_json : option json) (running_in_debugger : bool) : T Z :=
  let log_directory_json := cJSON_GetObjectItem ctx_json (bytes "log_directory") in
  if negb (present ctx_json) || negb (present log_directory_json) then mret (-1)
  else
    '(log_dir, _) ← prepare_logging log_directory_json;
    if negb running_in_debugger && negb fork_works then mret (-1)
    else run (RunSdhs (negb running_in_debugger) log_dir);; mret 0.

Definition test_fn_t : Type := option json -> bool -> T Z.

Definition test_definitions : list (list Z * test_fn_t) :=
  [(bytes "arena", arena_test); (bytes "malloc", malloc_test); (bytes "sdhs", sdhs_test)].

Fixpoint find_definition (test_name : list Z) (defs : list (list Z * test_fn_t)) : option test_fn_t :=
  match defs with
  | [] => None
  | (name, test) :: defs => if bool_decide (name = test_name) then Some test else find_definition test_name defs
  end.

(** A fault when the name is not a string; [None] of the result is NULL. *)
Definition get_test_definition (test_name_json : option json) : T (option test_fn_t) :=
  match cJSON_GetStringValue test_name_json with
  | None => crash
  | Some test_name => mret (find_definition test_name test_definitions)
  end.

Fixpoint run_each (running_in_debugger : bool) (tests : list json) : T Z :=
  match tests with
  | [] => mret 0
  | test_json :: tests =>
      if cJSON_IsTrue (cJSON_GetObjectItem (Some test_json) (bytes "enabled")) then
        let name_json := cJSON_GetObjectItem (Some test_json) (bytes "name") in
        if negb (present name_json) then mret (-1)
        else
          let ctx_json :=
            if cJSON_HasObjectItem (Some test_json) (bytes "ctx")
            then cJSON_GetObjectItem (Some test_json) (bytes "ctx") else None in
          test_definition ← get_test_definition name_json;
          match test_definition with
          | None => crash
          | Some test =>
              result ← test ctx_json running_in_debugger;
              if negb (result =? 0) then mret result else run_each running_in_debugger tests
          end
      else run_each running_in_debugger tests
  end.

Definition run_tests (conf : option json) : T Z :=
  if negb (present conf) then mret (-1)
  else
    let suite_enabled_json := cJSON_GetObjectItem conf (bytes "enabled") in
    let running_in_debugger_json := cJSON_GetObjectItem conf (bytes "debugger") in
    let tests_json := cJSON_GetObjectItem conf (bytes "tests") in
    if negb (present suite_enabled_json && present running_in_debugger_json) then mret (-1)
    else if cJSON_IsFalse suite_enabled_json then mret 1
    else run_each (cJSON_IsTrue running_in_debugger_json) (snd <$> children tests_json).
End Tests.

(** ** The number of a run: lemmas *)

Lemma largest_run_bounds number entries l l' :
  largest_run number entries l = Some l' -> 0 <= l <= INT_MAX ->
  l <= l' <= INT_MAX /\
  forall e, e ∈ entries -> is_dir e = false -> exists v, atoi (number (d_name e)) = Some v /\ v <= l'.
Proof.
  revert l. induction entries as [|e entries IH]; intros l; cbn [largest_run].
  { intros [= <-] Hl. split; [lia|]. intros e He. set_solver. }
  destruct (is_dir e) eqn:Ed.
  - intros H Hl. destruct (IH _ H Hl) as [Hb Hall]. split; [done|]. intros e' [->|He']%elem_of_cons Hd; [congruence|auto].
  - destruct (atoi (number (d_name e))) as [v|] eqn:Ev; [|done]. cbn [mbind option_bind]. intros H Hl.
    assert (Hv : v <= INT_MAX).
    { unfold atoi in Ev. destruct (match _ with 43 :: _ => _ | _ => _ end) as [neg ds]. cbv zeta in Ev.
      destruct (_ && _) eqn:E in Ev; [|done]. injection Ev as <-. apply andb_true_iff in E as [_ E%Z.leb_le]. done. }
    destruct ((0 <? v) && (l <? v)) eqn:Ec.
    + apply andb_true_iff in Ec as [H0%Z.ltb_lt H1%Z.ltb_lt]. destruct (IH _ H) as [Hb Hall]; [lia|]. split; [lia|].
      intros e' [->|He']%elem_of_cons Hd; [exists v; split; [done|lia]|auto].
    + apply andb_false_iff in Ec as [E%Z.ltb_ge|E%Z.ltb_ge]; destruct (IH _ H Hl) as [Hb Hall]; (split; [lia|]);
        intros e' [->|He']%elem_of_cons Hd; try (exists v; split; [done|lia]); auto.
Qed.

Lemma get_next_run_nr_above number errno entries nr :
  get_next_run_nr number errno (Some entries) = Some nr ->
  1 <= nr <= INT_MAX /\
  forall e, e ∈ entries -> is_dir e = false -> exists v, atoi (number (d_name e)) = Some v /\ v < nr.
Proof.
  unfold get_next_run_nr. destruct (largest_run number entries 0) as [l|] eqn:El; [|done]. cbn [mbind option_bind].
  destruct (largest_run_bounds _ _ _ _ El) as [Hb Hall]; [by unfold INT_MAX|]. intros H.
  assert (Hnr : nr = l + 1 /\ nr <= INT_MAX).
  { destruct (Z.eqb_spec l 0); [injection H as <-; unfold INT_MAX; lia|]. destruct (Z.eqb_spec l INT_MAX); [done|].
    injection H as <-. lia. }
  split; [lia|]. intros e He Hd. destruct (Hall e He Hd) as (v & Hv & Hle). exists v. split; [done|lia].
Qed.

Lemma lld_print n : 0 <= n -> lld n = print_dec n.
Proof. intros H. unfold lld. by rewrite (proj2 (Z.ltb_ge _ _)). Qed.

(** A name of which the number is read back is not in the directory. *)
Lemma new_name number errno entries nr name :
  get_next_run_nr number errno (Some entries) = Some nr ->
  (1 <= nr <= INT_MAX -> atoi (number name) = Some nr) -> mkEntry false name ∉ entries.
Proof.
  intros H Hn He. destruct (get_next_run_nr_above _ _ _ _ H) as [Hb Hall].
  destruct (Hall _ He eq_refl) as (v & Hv & Hlt). cbn [d_name] in Hv. rewrite (Hn Hb) in Hv. injection Hv as <-. lia.
Qed.

Lemma atoi_run_file nr suffix :
  1 <= nr <= INT_MAX -> (forall c rest, suffix = c :: rest -> is_digit c = false) -> atoi (lld nr ++ suffix) = Some nr.
Proof. intros Hn Hs. rewrite lld_print by lia. apply atoi_print; [lia|done]. Qed.

Lemma without_extension_app l ext : length ext = 4%nat -> without_extension (l ++ ext) = l.
Proof.
  intros He. unfold without_extension. rewrite length_app, He. rewrite (proj2 (Nat.ltb_ge _ _)) by lia.
  replace (length l + 4 - 4)%nat with (length l) by lia. by rewrite take_app_length.
Qed.

(** The file of the next run, if it gets so far, is a new one of its directory. *)
Lemma next_file_new errno make_dir listing directory file :
  0 <= errno -> next_file errno make_dir listing directory = Some (inr file) ->
  exists entries name, listing directory = Some entries /\ file = directory ++ name /\ (mkEntry false name ∉ entries).
Proof.
  intros He. unfold next_file. destruct (negb _); [done|]. destruct (listing directory) as [entries|].
  2: { cbn [get_next_run_nr mbind option_bind]. by rewrite (proj2 (Z.leb_le _ _)) by lia. }
  destruct (get_next_run_nr _ errno _) as [nr|] eqn:E; [|done]. cbn [mbind option_bind].
  destruct (nr <=? 0); [done|]. intros [= <-]. exists entries, (lld nr ++ bytes ".bin"). split_and!; [done..|].
  eapply (new_name _ errno entries nr); [exact E|]. intros Hb. apply atoi_run_file; [done|]. by intros c rest [= <- _].
Qed.

Lemma next_run_name_new errno entries nr tail ext :
  get_next_run_nr_of_tests errno (Some entries) = Some nr -> length ext = 4%nat -> is_digit (List.hd 0 tail) = false ->
  mkEntry false (lld nr ++ tail ++ ext) ∉ entries.
Proof.
  intros H Hext Ht. eapply (new_name without_extension errno entries nr); [exact H|]. intros Hb. rewrite app_assoc, without_extension_app by done.
  apply atoi_run_file; [done|]. by intros c rest ->.
Qed.

(** A run never overwrites the files of another.  The file of timings that a
    tight loop or [SdhsMain] writes has a name that its directory does not list;
    and the number of a test, whose copy of [get_next_run_nr] cuts four
    characters off each name, is a positive [int] for which the directory lists
    neither [<n>-log.txt] nor [<n>-tsc_freq.bin]. *)
Theorem run_files_new (errno : Z) (make_dir : list Z -> bool) (listing : list Z -> option (list dir_entry))
    (log_dir : list Z) (entries : list dir_entry) (nr : Z) :
  0 <= errno ->
  (forall atype size_name alloc_size file, run_file errno make_dir listing log_dir atype size_name alloc_size = Some (Some file) ->
     let directory := run_directory log_dir atype size_name alloc_size in
     exists entries name, listing directory = Some entries /\ file = directory ++ name /\ (mkEntry false name ∉ entries)) /\
  (forall opened written fn b ret file data,
     SdhsMain_timings errno make_dir listing opened written log_dir fn b = Some (ret, Some (file, data)) ->
     let directory := log_dir ++ alloct_string (get_alloc_type fn) ++ bytes "/" in
     exists entries name, listing directory = Some entries /\ file = directory ++ name /\ (mkEntry false name ∉ entries)) /\
  (get_next_run_nr_of_tests errno (Some entries) = Some nr ->
     1 <= nr <= INT_MAX /\ (mkEntry false (lld nr ++ bytes "-log.txt") ∉ entries) /\
     (mkEntry false (lld nr ++ bytes "-tsc_freq.bin") ∉ entries)).
Proof.
  intros He. split_and!.
  - intros atype size_name alloc_size file H. unfold run_file in H.
    destruct (next_file _ _ _ _) as [[r|f]|] eqn:E; [done| |done]. injection H as <-. by eapply next_file_new.
  - intros opened written fn b ret file data H. unfold SdhsMain_timings in H.
    destruct (next_file _ _ _ _) as [[r|f]|] eqn:E; [done| |done]. cbn [mbind option_bind] in H.
    destruct (write_alloc_timing_data_to_file _ _ _ _) as [[res d]|]; [|done]. injection H as _ <- _. by eapply next_file_new.
  - intros H. pose proof (get_next_run_nr_above without_extension errno entries nr H) as [Hb _]. split_and!; [lia..| |].
    + change (bytes "-log.txt") with (bytes "-log" ++ bytes ".txt"). by eapply next_run_name_new.
    + change (bytes "-tsc_freq.bin") with (bytes "-tsc_freq" ++ bytes ".bin"). by eapply next_run_name_new.
Qed.

(** Directories are skipped, whatever their names. *)
Module DemoFiles.
Definition entries : list dir_entry :=
  [mkEntry true (bytes ".."); mkEntry false (bytes "9.bin"); mkEntry false (bytes "a"); mkEntry true (bytes "40")].
Definition directory : list Z := bytes "./logs/ua_alloc-8B/".
End DemoFiles.

Lemma run_files_new_witness :
  run_file 2 (fun _ => true) (fun _ => Some DemoFiles.entries) (bytes "./logs/") UA_ALLOC None 8
    = Some (Some (DemoFiles.directory ++ bytes "10.bin")) /\
  exists entries name, Some DemoFiles.entries = Some entries /\
    DemoFiles.directory ++ bytes "10.bin" = DemoFiles.directory ++ name /\ (mkEntry false name ∉ entries).
Proof.
  assert (E : run_file 2 (fun _ => true) (fun _ => Some DemoFiles.entries) (bytes "./logs/") UA_ALLOC None 8
    = Some (Some (DemoFiles.directory ++ bytes "10.bin"))) by by vm_compute.
  split; [exact E|].
  exact (proj1 (run_files_new 2 (fun _ => true) (fun _ => Some DemoFiles.entries) (bytes "./logs/") [] 1 ltac:(lia))
           UA_ALLOC None 8 _ E).
Defined.

(** ** What the configuration asks for *)

Definition size_classes : list (list Z * list Z) :=
  [(small_sizes, bytes "small"); (medium_sizes, bytes "medium"); (large_sizes, bytes "large")].

(** For each function the three classes of sizes, in order. *)
Definition loops (params : option ua_params) (debugger : bool) (n : Z) (fns : list (alloc_fn_t * list Z))
    (log_filename log_dir : list Z) : list action :=
  fn ← fns; sizes ← size_classes;
  [TightLoop params debugger (is_karena_fn fn.1) n fn.1 fn.2 sizes.1 sizes.2 log_filename (bytes "a") log_dir].

Definition enabled (t : json) : bool := cJSON_IsTrue (member (Some t) "enabled").
Definition named (t : json) (name : string) : Prop := cJSON_GetStringValue (member (Some t) "name") = Some (bytes name).
Definition text_of (ctx : option json) (name : string) (s : list Z) : Prop :=
  cJSON_GetStringValue (member ctx name) = Some s.
Definition count_of (ctx : option json) (n : Z) : Prop :=
  u64_of_double (cJSON_GetNumberValue (member ctx "alloc_iterations")) = Some n /\ 0 < n.

(** What has been started when these runs have been asked for, after those in
    [before], and whether all of them came back. *)
Fixpoint fate (comes_back : list action -> action -> bool) (before acts : list action) : list action * bool :=
  match acts with
  | [] => (before, true)
  | a :: acts => if is_back comes_back before a then fate comes_back (before ++ [a]) acts else (before ++ [a], false)
  end.

Lemma fate_app cb before l l' :
  fate cb before (l ++ l') = (let '(tr, back) := fate cb before l in if back then fate cb tr l' else (tr, false)).
Proof.
  revert before. induction l as [|a l IH]; intros before; cbn [app fate]; [done|].
  destruct (is_back cb before a); [apply IH|done].
Qed.

Section Plan.
Variable errno : Z.
Variable listing : nat -> list Z -> option (list dir_entry).
Variable can_create : list Z -> bool.
Variable fork_works NDEBUG debugger : bool.
Variable comes_back : list action -> action -> bool.

(** Where a computation is that has asked for [acts]: behind them at [f], or
    over with the first of them that does not come back. *)
Definition proceeds {A} (w : testing) (acts : list action) (k : nat) (f : testing -> option A * testing)
    (r : option A * testing) : Prop :=
  let '(tr, back) := fate comes_back (trace w) acts in
  if back then r = f (mkTesting k tr) else exists k', r = (None, mkTesting k' tr).

(** The assertion of a tight loop on an arena of this size: each class fits, or
    assertions are off. *)
Definition sizes_fit (sz n : Z) : bool :=
  NDEBUG || forallb (fun c : list Z * list Z => arena_holds (Some sz) (Z.to_nat n) c.1) size_classes.

(** The number of the run, when [k] directories have been read. *)
Definition numbered (k : nat) (log_dir : list Z) (nr : Z) : Prop :=
  get_next_run_nr_of_tests errno (listing k log_dir) = Some nr.

(** [t] is complete; when [k] directories have been read, it starts these runs
    and reads directories up to the last number. *)
Inductive complete : nat -> json -> list action -> nat -> Prop :=
  | complete_off k t : enabled t = false -> complete k t [] k
  | complete_arena k t ctx sz dir nr n :
      enabled t = true -> named t "arena" -> member (Some t) "ctx" = Some ctx ->
      text_of (Some ctx) "arena_sz" sz -> text_of (Some ctx) "log_directory" dir -> count_of (Some ctx) n ->
      member (Some ctx) "mallocd" <> None -> member (Some ctx) "contiguous" <> None ->
      numbered k dir nr -> can_create (dir ++ lld nr ++ bytes "-log.txt") = true ->
      sizes_fit (lm_mem_sz_from_string (Some sz)) n = true ->
      let file := dir ++ lld nr ++ bytes "-log.txt" in
      let params := mkParams (lm_mem_sz_from_string (Some sz)) (cJSON_IsTrue (member (Some ctx) "contiguous"))
                      (cJSON_IsTrue (member (Some ctx) "mallocd")) in
      complete k t (ArenaInfo file params :: loops (Some params) debugger n a_alloc_functions file dir) (S k)
  | complete_malloc k t ctx dir nr n :
      enabled t = true -> named t "malloc" -> member (Some t) "ctx" = Some ctx ->
      text_of (Some ctx) "log_directory" dir -> count_of (Some ctx) n -> numbered k dir nr ->
      complete k t (loops None debugger n malloc_and_fam (dir ++ lld nr ++ bytes "-log.txt") dir) (S k)
  | complete_sdhs k t ctx dir nr :
      enabled t = true -> named t "sdhs" -> member (Some t) "ctx" = Some ctx ->
      text_of (Some ctx) "log_directory" dir -> numbered k dir nr -> debugger || fork_works = true ->
      complete k t [RunSdhs (negb debugger) dir] (S k).

Inductive all_complete : nat -> list json -> list action -> nat -> Prop :=
  | all_complete_nil k : all_complete k [] [] k
  | all_complete_cons k t acts k' ts acts' k'' :
      complete k t acts k' -> all_complete k' ts acts' k'' -> all_complete k (t :: ts) (acts ++ acts') k''.

Lemma T_bind_Some {A B} (c : T A) (f : A -> T B) w a w' : c w = (Some a, w') -> (c ≫= f) w = f a w'.
Proof. intros H. unfold mbind, T_bind. by rewrite H. Qed.

Lemma T_bind_None {A B} (c : T A) (f : A -> T B) w w' : c w = (None, w') -> (c ≫= f) w = (None, w').
Proof. intros H. unfold mbind, T_bind. by rewrite H. Qed.

Lemma proceeds_start {A} w (f : testing -> option A * testing) : proceeds w [] (reads w) f (f w).
Proof. unfold proceeds. cbn. by destruct w. Qed.

Lemma proceeds_bind {A B} w acts k (c : T A) a (f : A -> T B) :
  proceeds w acts k (back a) (c w) -> proceeds w acts k (f a) ((c ≫= f) w).
Proof.
  unfold proceeds. destruct (fate _ _ _) as [tr []].
  - intros E. by rewrite (T_bind_Some _ _ _ _ _ E).
  - intros [k' E]. exists k'. by apply T_bind_None.
Qed.

Lemma proceeds_then {A} w acts k acts' k' (f g : testing -> option A * testing) r :
  proceeds w acts k f r -> (forall w', reads w' = k -> proceeds w' acts' k' g (f w')) -> proceeds w (acts ++ acts') k' g r.
Proof.
  unfold proceeds. intros H Hf. rewrite fate_app. destruct (fate _ (trace w) acts) as [tr []]; [|exact H].
  subst r. exact (Hf (mkTesting k tr) eq_refl).
Qed.

Lemma run_proceeds w a : proceeds w [a] (reads w) (back tt) (run comes_back a w).
Proof. unfold proceeds, run. cbn. destruct (is_back _ _ _); [done|]. by exists (reads w). Qed.

Lemma member_ctx t ctx :
  member (Some t) "ctx" = Some ctx ->
  (if cJSON_HasObjectItem (Some t) (bytes "ctx") then cJSON_GetObjectItem (Some t) (bytes "ctx") else None) = Some ctx.
Proof. unfold member. intros H. unfold cJSON_HasObjectItem. by rewrite H. Qed.

Lemma string_present j s : cJSON_GetStringValue j = Some s -> present j = true.
Proof. by destruct j. Qed.

Lemma number_present j n : u64_of_double (cJSON_GetNumberValue j) = Some n -> present j = true.
Proof. by destruct j. Qed.

Lemma not_none_present j : j <> None -> present j = true.
Proof. by destruct j. Qed.

Lemma prepare_logging_spec j dir nr w :
  cJSON_GetStringValue j = Some dir -> numbered (reads w) dir nr ->
  prepare_logging errno listing j w = (Some (dir, dir ++ lld nr ++ bytes "-log.txt"), mkTesting (S (reads w)) (trace w)).
Proof.
  intros Hj Hn. unfold prepare_logging. rewrite Hj. change (default [] (Some dir)) with dir.
  rewrite (T_bind_Some _ _ w nr (mkTesting (S (reads w)) (trace w))); [done|].
  unfold next_run_nr. unfold numbered in Hn. by rewrite Hn.
Qed.

Lemma assert_true b w : b || NDEBUG = true -> LmAssert NDEBUG b w = (Some tt, w).
Proof. unfold LmAssert. rewrite <- negb_orb. by intros ->. Qed.

(** The arena, where there is one, fits the sizes. *)
Definition loops_fit (params : option ua_params) (n : Z) : Prop :=
  forall c, c ∈ size_classes -> arena_holds (option_map arena_sz params) (Z.to_nat n) c.1 || NDEBUG = true.

Lemma sizes_fit_loops params n : sizes_fit (arena_sz params) n = true -> loops_fit (Some params) n.
Proof.
  unfold sizes_fit, loops_fit. intros H c Hc. rewrite orb_comm. destruct NDEBUG; [done|]. cbn [orb] in *.
  rewrite forallb_forall in H. apply H. by apply list_elem_of_In.
Qed.

Lemma no_arena_fits n : loops_fit None n.
Proof. by intros c _. Qed.

Lemma all_sizes_go_on params n fn name file dir w :
  loops_fit params n ->
  proceeds w (loops params debugger n [(fn, name)] file dir) (reads w) (back tt)
    (tight_loop_test_all_sizes NDEBUG comes_back params debugger (is_karena_fn fn) n fn name file (bytes "a") dir w).
Proof.
  intros Hfit.
  assert (Hone : forall sizes sname w, (sizes, sname) ∈ size_classes ->
    let a := TightLoop params debugger (is_karena_fn fn) n fn name sizes sname file (bytes "a") dir in
    proceeds w [a] (reads w) (back tt)
      (start_tight_loop NDEBUG comes_back params debugger (is_karena_fn fn) n fn name sizes sname file (bytes "a") dir w)).
  { intros sizes sname w' Hc a. unfold start_tight_loop. rewrite (T_bind_Some _ _ w' tt w' (assert_true _ _ (Hfit _ Hc))). apply run_proceeds. }
  unfold tight_loop_test_all_sizes, loops, size_classes. cbn [mbind list_bind app fst snd].
  eapply (proceeds_then w [_] (reads w)); [apply proceeds_bind, Hone; set_solver|]. intros w1 E1.
  eapply (proceeds_then w1 [_] (reads w)); [rewrite <- E1; apply proceeds_bind, Hone; set_solver|]. intros w2 E2.
  rewrite <- E2. apply Hone. set_solver.
Qed.

Lemma for_functions_go_on params n fns file dir w :
  loops_fit params n ->
  proceeds w (loops params debugger n fns file dir) (reads w) (back tt)
    (for_functions (fun fn name => tight_loop_test_all_sizes NDEBUG comes_back params debugger (is_karena_fn fn) n fn name file (bytes "a") dir) fns w).
Proof.
  intros Hfit. revert w. induction fns as [|[fn name] fns IH]; intros w; cbn [for_functions]; [apply proceeds_start|].
  change (loops params debugger n ((fn, name) :: fns) file dir)
    with (loops params debugger n [(fn, name)] file dir ++ loops params debugger n fns file dir).
  eapply proceeds_then; [apply proceeds_bind; by apply all_sizes_go_on|]. intros w' E. cbv beta. rewrite <- E. apply IH.
Qed.

Lemma arena_test_runs ctx sz dir nr n w :
  text_of (Some ctx) "arena_sz" sz -> text_of (Some ctx) "log_directory" dir -> count_of (Some ctx) n ->
  member (Some ctx) "mallocd" <> None -> member (Some ctx) "contiguous" <> None ->
  numbered (reads w) dir nr -> can_create (dir ++ lld nr ++ bytes "-log.txt") = true ->
  sizes_fit (lm_mem_sz_from_string (Some sz)) n = true ->
  let file := dir ++ lld nr ++ bytes "-log.txt" in
  let params := mkParams (lm_mem_sz_from_string (Some sz)) (cJSON_IsTrue (member (Some ctx) "contiguous"))
                  (cJSON_IsTrue (member (Some ctx) "mallocd")) in
  proceeds w (ArenaInfo file params :: loops (Some params) debugger n a_alloc_functions file dir) (S (reads w)) (back 0)
    (arena_test errno listing can_create NDEBUG comes_back (Some ctx) debugger w).
Proof.
  intros Hsz Hdir [Hn H0] Hm%not_none_present Hc%not_none_present Hnr Hcan Hfit file params.
  pose proof (string_present _ _ Hsz) as P1. pose proof (string_present _ _ Hdir) as P2.
  pose proof (number_present _ _ Hn) as P3. unfold text_of, member in *. unfold arena_test.
  rewrite (T_bind_Some _ _ w tt w) by (apply assert_true; by rewrite P1, Hm, Hc, P3, P2).
  rewrite (T_bind_Some _ _ w n w) by (unfold lift_option; by rewrite Hn).
  rewrite (T_bind_Some _ _ w tt w) by (apply assert_true; by rewrite (proj2 (Z.ltb_lt _ _) H0)).
  rewrite (T_bind_Some _ _ w _ _ (prepare_logging_spec _ dir nr w Hdir Hnr)), Hcan, Hsz. cbn [negb].
  set (w1 := mkTesting _ _). change (proceeds w) with (proceeds (A := Z) w1). change (S (reads w)) with (reads w1).
  eapply (proceeds_then w1 [ArenaInfo file params]); [apply proceeds_bind, run_proceeds|]. intros w2 E2.
  rewrite <- E2. apply (proceeds_bind _ _ _ _ tt (fun _ => mret 0)), for_functions_go_on. by apply (sizes_fit_loops params).
Qed.

Lemma malloc_test_runs ctx dir nr n w :
  text_of (Some ctx) "log_directory" dir -> count_of (Some ctx) n -> numbered (reads w) dir nr ->
  proceeds w (loops None debugger n malloc_and_fam (dir ++ lld nr ++ bytes "-log.txt") dir) (S (reads w)) (back 0)
    (malloc_test errno listing NDEBUG comes_back (Some ctx) debugger w).
Proof.
  intros Hdir [Hn H0] Hnr. pose proof (string_present _ _ Hdir) as P2. pose proof (number_present _ _ Hn) as P3.
  unfold text_of, member in *. unfold malloc_test.
  rewrite (T_bind_Some _ _ w tt w) by (apply assert_true; by rewrite P3, P2).
  rewrite (T_bind_Some _ _ w n w) by (unfold lift_option; by rewrite Hn).
  rewrite (T_bind_Some _ _ w _ _ (prepare_logging_spec _ dir nr w Hdir Hnr)).
  erewrite T_bind_Some by (apply assert_true; by rewrite (proj2 (Z.ltb_lt _ _) H0)).
  set (w1 := mkTesting _ _). change (proceeds w) with (proceeds (A := Z) w1).
  apply (proceeds_bind w1 _ (reads w1) _ tt (fun _ => mret 0)), for_functions_go_on, no_arena_fits.
Qed.

Lemma sdhs_test_runs ctx dir nr w :
  text_of (Some ctx) "log_directory" dir -> numbered (reads w) dir nr -> debugger || fork_works = true ->
  proceeds w [RunSdhs (negb debugger) dir] (S (reads w)) (back 0)
    (sdhs_test errno listing fork_works comes_back (Some ctx) debugger w).
Proof.
  intros Hdir Hnr Hf. pose proof (string_present _ _ Hdir) as P. unfold text_of, member in *. unfold sdhs_test.
  rewrite P. cbn [present negb orb]. rewrite (T_bind_Some _ _ w _ _ (prepare_logging_spec _ dir nr w Hdir Hnr)).
  rewrite <- negb_orb, Hf. set (w1 := mkTesting _ _). change (proceeds w) with (proceeds (A := Z) w1).
  apply (proceeds_bind w1 _ (reads w1) _ tt (fun _ => mret 0)), run_proceeds.
Qed.

Abbreviation each := (run_each errno listing can_create fork_works NDEBUG comes_back debugger).

(** One complete test and then the others. *)
Lemma run_complete t ts acts k' w : complete (reads w) t acts k' -> proceeds w acts k' (each ts) (each (t :: ts) w).
Proof.
  assert (Hon : forall ctx name test acts k', enabled t = true -> named t name -> member (Some t) "ctx" = Some ctx ->
    find_definition (bytes name) (test_definitions errno listing can_create fork_works NDEBUG comes_back) = Some test ->
    proceeds w acts k' (back 0) (test (Some ctx) debugger w) -> proceeds w acts k' (each ts) (each (t :: ts) w)).
  { clear acts k'. intros ctx name test acts k' He Hn Hc Hf Ht. unfold enabled, named, member in He, Hn. cbn [run_each]. rewrite He.
    rewrite (string_present _ _ Hn). cbn [negb]. rewrite (member_ctx t ctx Hc).
    rewrite (T_bind_Some _ _ w (Some test) w) by (unfold get_test_definition; rewrite Hn; by rewrite Hf).
    exact (proceeds_bind _ _ _ _ _ (fun r => if negb (r =? 0) then mret r else each ts) Ht). }
  intros H. inversion H; subst.
  - cbn [run_each]. unfold enabled, member in *. match goal with E : _ = false |- _ => rewrite E end. apply proceeds_start.
  - eapply (Hon ctx "arena"%string); [assumption..|reflexivity|]. by apply arena_test_runs.
  - eapply (Hon ctx "malloc"%string); [assumption..|reflexivity|]. by apply malloc_test_runs.
  - eapply (Hon ctx "sdhs"%string); [assumption..|reflexivity|]. by eapply sdhs_test_runs.
Qed.

Lemma run_all_complete ts rest acts k' w :
  all_complete (reads w) ts acts k' -> proceeds w acts k' (each rest) (each (ts ++ rest) w).
Proof.
  intros H. remember (reads w) as k eqn:Ek. revert w Ek. induction H as [|k t acts k1 ts acts' k2 Ht _ IH]; intros w ->; cbn [app].
  - apply proceeds_start.
  - eapply proceeds_then; [by apply run_complete|]. intros w' <-. by apply IH.
Qed.
End Plan.

(** The suite is on, and lists these tests. *)
Definition suite (conf : json) (debugger : bool) (tests : list json) : Prop :=
  member (Some conf) "enabled" <> None /\ cJSON_IsFalse (member (Some conf) "enabled") = false /\
  member (Some conf) "debugger" <> None /\ cJSON_IsTrue (member (Some conf) "debugger") = debugger /\
  snd <$> children (member (Some conf) "tests") = tests.

(** [sdhs] without the entry that it needs; a name that no test has. *)
Definition incomplete_sdhs (t : json) : Prop :=
  enabled t = true /\ named t "sdhs" /\ member (member (Some t) "ctx") "log_directory" = None.
Definition unknown_test (t : json) : Prop :=
  enabled t = true /\
  exists name, cJSON_GetStringValue (member (Some t) "name") = Some name /\
    name ∉ [bytes "arena"; bytes "malloc"; bytes "sdhs"].

Lemma run_each_incomplete errno listing can_create fork_works NDEBUG comes_back debugger t ts w :
  incomplete_sdhs t -> run_each errno listing can_create fork_works NDEBUG comes_back debugger (t :: ts) w = (Some (-1), w).
Proof.
  intros (He & Hn & Hd). unfold enabled, named, member in *. cbn [run_each]. rewrite He, (string_present _ _ Hn). cbn [negb].
  rewrite (T_bind_Some _ _ w (Some (sdhs_test errno listing fork_works comes_back)) w) by (unfold get_test_definition; by rewrite Hn).
  rewrite (T_bind_Some _ _ w (-1) w); [done|]. unfold sdhs_test.
  set (ctx := if cJSON_HasObjectItem _ _ then _ else None).
  assert (Hc : cJSON_GetObjectItem ctx (bytes "log_directory") = None) by (unfold ctx; by destruct (cJSON_HasObjectItem _ _)).
  rewrite Hc. by destruct ctx.
Qed.

Lemma run_each_unknown errno listing can_create fork_works NDEBUG comes_back debugger t ts w :
  unknown_test t -> run_each errno listing can_create fork_works NDEBUG comes_back debugger (t :: ts) w = (None, w).
Proof.
  intros (He & name & Hn & Hnot). unfold enabled, member in *. cbn [run_each]. rewrite He, (string_present _ _ Hn). cbn [negb].
  rewrite (T_bind_Some _ _ w None w); [done|]. unfold get_test_definition. rewrite Hn. unfold test_definitions. cbn [find_definition].
  rewrite !bool_decide_false; [done|set_solver..].
Qed.

(** C21: The benchmarks run what the configuration lists.  When the first tests
    of the list are complete -- their entries are there, their arenas as large as
    the assertion asks, unless assertions are off -- each enabled one starts its
    runs in the order of
    the list -- the arenas: kernel module, new kernel driver, user space, each
    with the small, the medium and the large sizes -- with the parameters of
    its entry and log files numbered from its directory.  A run that does not come
    back -- one in the process of the suite that is killed or exits, a child that
    never ends -- is the last one, and the suite is over with it.  If all come
    back and these tests are all, the
    result is 0; an [sdhs] test without a directory stops the suite with -1, and
    a test that no one knows is called through NULL. *)
Theorem run_tests_runs (errno : Z) (listing : nat -> list Z -> option (list dir_entry)) (can_create : list Z -> bool)
    (fork_works NDEBUG : bool) (comes_back : list action -> action -> bool)
    (debugger : bool) (conf : json) (good rest : list json) (acts : list action) (k : nat) (w : testing) :
  suite conf debugger (good ++ rest) ->
  all_complete errno listing can_create fork_works NDEBUG debugger (reads w) good acts k ->
  let r := run_tests errno listing can_create fork_works NDEBUG comes_back (Some conf) w in
  let '(started, all_back) := fate comes_back (trace w) acts in
  let w' := mkTesting k started in
  if all_back then
    match rest with
    | [] => r = (Some 0, w')
    | t :: _ => (incomplete_sdhs t -> r = (Some (-1), w')) /\ (unknown_test t -> r = (None, w'))
    end
  else exists k', r = (None, mkTesting k' started).
Proof.
  intros (He%not_none_present & Hf & Hd%not_none_present & Ht & Hl) Hall r.
  assert (E : r = run_each errno listing can_create fork_works NDEBUG comes_back debugger (good ++ rest) w).
  { unfold member in *. unfold r, run_tests. rewrite He, Hd, Hf, Ht, Hl. done. }
  rewrite E. pose proof (run_all_complete errno listing can_create fork_works NDEBUG debugger comes_back good rest acts k w Hall) as Hgo.
  unfold proceeds in Hgo. destruct (fate comes_back (trace w) acts) as [started []]; [|exact Hgo]. cbv zeta.
  destruct rest as [|t rest]; [exact Hgo|]. rewrite Hgo. split; [apply run_each_incomplete|apply run_each_unknown].
Qed.

(** Witness: the configuration that the repository ships, in directories where
    the last run had the numbers 2, 0 and 7. *)
Module DemoSuite.
Definition conf : json := Shipped.conf Shipped.benchmark_config.
Definition tests : list json := Eval vm_compute in snd <$> children (member (Some conf) "tests").
Definition test (i : nat) : json := List.nth i tests JInvalid.
Definition ctx (i : nat) : json := default JInvalid (member (Some (test i)) "ctx").

Definition listing (k : nat) (dir : list Z) : option (list dir_entry) :=
  match k with
  | O => Some [mkEntry false (bytes "2-log.txt"); mkEntry true (bytes "9")]
  | S O => Some []
  | _ => Some [mkEntry false (bytes "7-log.txt"); mkEntry false (bytes "6-log.txt")]
  end.
End DemoSuite.

Lemma demo_suite_complete :
  exists acts, all_complete 2 DemoSuite.listing (fun _ => true) true false false 0 DemoSuite.tests acts 3 /\
    length acts = 14%nat /\ head acts = Some (ArenaInfo (bytes "./logs/arena/3-log.txt") (mkParams 4294967296 true false)) /\
    last acts = Some (RunSdhs true (bytes "./logs/sdhs/")) /\
    fate (fun _ _ => true) [] acts = (acts, true) /\
    (fate (fun before _ => negb (length before =? 2)%nat) [] acts).2 = false /\
    length (fate (fun before _ => negb (length before =? 2)%nat) [] acts).1 = 3%nat.
Proof.
  eexists. split; [|shelve].
  eapply (all_complete_cons _ _ _ _ _ _ 0 (DemoSuite.test 0)).
  { by apply (complete_arena _ _ _ _ _ _ 0 _ (DemoSuite.ctx 0) (bytes "4gB") (bytes "./logs/arena/") 3 1000); vm_compute. }
  eapply (all_complete_cons _ _ _ _ _ _ 1 (DemoSuite.test 1)).
  { by apply (complete_malloc _ _ _ _ _ _ 1 _ (DemoSuite.ctx 1) (bytes "./logs/malloc/") 1 1000); vm_compute. }
  eapply (all_complete_cons _ _ _ _ _ _ 2 (DemoSuite.test 2)); [|apply all_complete_nil].
  by apply (complete_sdhs _ _ _ _ _ _ 2 _ (DemoSuite.ctx 2) (bytes "./logs/sdhs/") 8); vm_compute.
  Unshelve. all: try (split_and!; by vm_compute).
Qed.

(** All runs come back; and a suite that is over with the third. *)
Lemma run_tests_runs_witness :
  (exists w', run_tests 2 DemoSuite.listing (fun _ => true) true false (fun _ _ => true) (Some DemoSuite.conf) (mkTesting 0 []) = (Some 0, w') /\
    length (trace w') = 14%nat /\
    head (trace w') = Some (ArenaInfo (bytes "./logs/arena/3-log.txt") (mkParams 4294967296 true false)) /\
    last (trace w') = Some (RunSdhs true (bytes "./logs/sdhs/"))) /\
  exists w', run_tests 2 DemoSuite.listing (fun _ => true) true false (fun before _ => negb (length before =? 2)%nat)
               (Some DemoSuite.conf) (mkTesting 0 []) = (None, w') /\ length (trace w') = 3%nat.
Proof.
  destruct demo_suite_complete as (acts & Hc & Hlen & Hh & Hl & Hf & Hf' & Hn').
  assert (Hs : suite DemoSuite.conf false (DemoSuite.tests ++ [])) by (split_and!; by vm_compute).
  split.
  - pose proof (run_tests_runs 2 DemoSuite.listing (fun _ => true) true false (fun _ _ => true) false DemoSuite.conf
      DemoSuite.tests [] acts 3 (mkTesting 0 []) Hs Hc) as H.
    cbn [trace] in H. rewrite Hf in H. eexists. split; [exact H|]. split; [exact Hlen|]. split; [exact Hh|exact Hl].
  - pose proof (run_tests_runs 2 DemoSuite.listing (fun _ => true) true false (fun before _ => negb (length before =? 2)%nat) false
      DemoSuite.conf DemoSuite.tests [] acts 3 (mkTesting 0 []) Hs Hc) as H.
    cbn [trace] in H. rewrite (surjective_pairing (fate _ [] acts)), Hf' in H.
    destruct H as [k' H]. eexists. split; [exact H|exact Hn'].
Defined.
