(* ===== verification/Benchmarks.v ===== *)
(** * The main function of the benchmarks, and what it asks of the system

    [benchmarks.c]: one arena for the whole run, a child of it for cJSON, whose
    allocator ends the process when the child is full, the configuration loaded
    onto the arena and parsed, and the tests that it names (what the tests do to
    the files is in [Files] and [Bench], not in the result here).  [system_info.c]: the
    frequency of the cycle counter, the sizes of a page and of a cache line. *)

From S2P Require Import Prelude.
From S2P Require Import Memory.
From S2P Require Import Os.
From S2P Require Import LmDefs.
From S2P Require Import UArena.
From S2P Require Import Files.
From S2P Require Import Json.
From S2P Require Import Timing.
From S2P Require Import Tests.
From Stdlib Require Import SpecFloat.
From Stdlib Require Import Strings.String.
Import Streams.
#[local] Open Scope Z_scope.
#[local] Abbreviation length := List.length.

(** ** System information *)

Definition dadd : double -> double -> double := SFadd 53 1024.

(** The static variables of [get_tsc_freq]. *)
Record tsc_static := mkTsc { tsc_freq : double; tsc_has_been_calibrated : bool }.

(** Two readings of the clock and of the counter. *)
Record calibration := mkCal {
  start_sec : Z; start_nsec : Z; tsc_start : Z;
  end_sec : Z; end_nsec : Z; tsc_end : Z;
}.

Definition calibrate (c : calibration) : double :=
  let elapsed_sec := dadd (double_of (end_sec c - start_sec c))
                       (ddiv (double_of (end_nsec c - start_nsec c)) (double_of 1000000000)) in
  ddiv (double_of (tsc_end c -64 tsc_start c)) elapsed_sec.

Definition get_tsc_freq (c : calibration) (s : tsc_static) : double * tsc_static :=
  let s := if tsc_has_been_calibrated s then s else mkTsc (calibrate c) true in
  (tsc_freq s, s).

(** What [sysconf] answers, as a [size_t]; the assertions about it are off. *)
Definition get_page_size (page_size : Z) : Z := u64 page_size.
Definition get_l1d_cacheln_sz (l1d_cache_line : Z) : Z := u64 l1d_cache_line.

(** ** The main function *)

Definition EXIT_FAILURE : Z := 1.
Definition config_name : list Z := bytes "./configs/benchmark_config.json".

(** [None]: the process exits with [EXIT_FAILURE]. *)
Definition cjson_alloc (cjson_arena sz : Z) : M (option Z) :=
  ptr ← ua_alloc cjson_arena sz;
  mret (if ptr =? NULL then None else Some ptr).

Definition cjson_free (ptr : Z) : M unit := mret tt.

(** The string at [a], of fewer than [fuel] bytes. *)
Fixpoint c_string (fuel : nat) (a : Z) : M (list Z) :=
  match fuel with
  | O => fault
  | S fuel => c ← load8 a; if c =? 0 then mret [] else s ← c_string fuel (a + 1); mret (c :: s)
  end.

Section Main.
Variable place : os -> block_kind -> Z -> option Z.
Variable junk : Z -> Z.
Variable cacheln_sz : Z.
Variable strtod : list Z -> spec_float * nat.
(** The size that the parser asks for with its [n]-th call: [Json] counts the
    blocks. *)
Variable sizes : nat -> Z.
(** The parameters of [Tests]. *)
Variable errno : Z.
Variable listing : nat -> list Z -> option (list dir_entry).
Variable can_create : list Z -> bool.
Variable fork_works NDEBUG : bool.
Variable comes_back : list action -> action -> bool.

(** The calls of the allocator from the [k]-th on; [false]: one of them has
    ended the process. *)
Fixpoint parser_allocates (n k : nat) (cjson_arena : Z) : M bool :=
  match n with
  | O => mret true
  | S n =>
      ptr ← cjson_alloc cjson_arena (sizes k);
      match ptr with
      | None => mret false
      | Some _ => parser_allocates n (S k) cjson_arena
      end
  end.

(** [cJSON_Parse] with these hooks: no allocation that returns has failed. *)
Definition parse_config (cjson_arena : Z) (file : option (Z * Z)) : M (option (option json)) :=
  match file with
  | None => mret (Some None)
  | Some (test_config_file, config_file_sz) =>
      value ← c_string (S (Z.to_nat config_file_sz)) test_config_file;
      match cJSON_Parse value (fun _ => true) strtod (mkPB 0 0 0 0) with
      | None => fault
      | Some p =>
          ok ← parser_allocates (calls (after p)) 0 cjson_arena;
          mret (if (ok : bool) then Some (item p) else None)
      end
  end.

Definition load_config (r : io) : F (option (option json)) :=
  main_ua ← on_system (ua_create place junk cacheln_sz (LmGibiByte 4) true false);
  cjson_arena ← on_system (lift (ua_bootstrap main_ua NULL (LmKibiByte 512)));
  test_config_file ← lm_load_file_into_memory place junk config_name r main_ua;
  on_system (lift (parse_config cjson_arena test_config_file)).

Definition main (r : io) (w : files) : T Z := fun t =>
  match load_config r w with
  | None => (None, t)
  | Some (None, _) => (Some EXIT_FAILURE, t)
  | Some (Some test_config_json, _) =>
      run_tests errno listing can_create fork_works NDEBUG comes_back test_config_json t
  end.
End Main.

(** ** Lemmas *)

(** Calibration happens once: later calls read nothing. *)
Lemma get_tsc_freq_once c c' s : tsc_has_been_calibrated s = false ->
  let '(f, s) := get_tsc_freq c s in get_tsc_freq c' s = (f, s) /\ f = calibrate c.
Proof. unfold get_tsc_freq. intros ->. by cbn. Qed.

(** A system that does not know the size of its cache lines answers 0, which the
    arenas divide by. *)
Lemma cacheln_sz_unknown : get_l1d_cacheln_sz 0 = 0 /\ get_l1d_cacheln_sz (-1) = 2 ^ 64 - 1.
Proof. by split. Qed.

Lemma c_string_S fuel a : c_string (S fuel) a = (c ← load8 a; if c =? 0 then mret [] else s ← c_string fuel (a + 1); mret (c :: s)).
Proof. done. Qed.

Lemma c_string_read m l : forall a, read_bytes m a (length l) = Some l -> Forall (fun c => c <> 0) l ->
  m !! (a + len l) = Some 0 -> c_string (S (length l)) a m = Some (l, m).
Proof.
  induction l as [|c l IH]; intros a Hr Hz He.
  - unfold len in He. cbn in He. rewrite Z.add_0_r in He. rewrite c_string_S. unfold mbind, M_bind, load8. by rewrite He.
  - apply Forall_cons in Hz as [Hc Hz]. cbn [length read_bytes] in Hr. destruct (m !! a) as [b|] eqn:Ea; [|done]. cbn [mbind option_bind] in Hr.
    destruct (read_bytes m (a + 1) (length l)) as [l'|] eqn:Er; [|done]. injection Hr as -> ->.
    change (length (c :: l)) with (S (length l)). rewrite c_string_S. unfold mbind, M_bind, load8. rewrite Ea. cbn [mbind option_bind].
    rewrite (proj2 (Z.eqb_neq _ _) Hc). rewrite (IH (a + 1) Er Hz); [done|].
    rewrite <- He. f_equal. unfold len. cbn [length]. lia.
Qed.

(** What the first [n] calls from the [k]-th on take. *)
Fixpoint taken (sizes : nat -> Z) (n k : nat) : Z :=
  match n with O => 0 | S n => sizes k + taken sizes n (S k) end.

Lemma taken_pos sizes n : (forall i, 0 <= sizes i < 2 ^ 62) -> forall k, 0 <= taken sizes n k.
Proof. intros Hs. induction n as [|n IH]; intros k; cbn; [done|]. specialize (Hs k). specialize (IH (S k)). lia. Qed.

(** The parser gets all that it asks for exactly when that fits. *)
Lemma parser_allocates_spec sizes p n : (forall i, 0 <= sizes i < 2 ^ 62) -> forall k m a,
  arena_at m p a -> 0 < ua_mem a -> ua_mem a + ua_cap a < 2 ^ 64 -> 0 <= ua_cur a <= ua_cap a -> ua_cap a < 2 ^ 62 ->
  exists m', parser_allocates sizes n k p m = Some (ua_cur a + taken sizes n k <=? ua_cap a, m').
Proof.
  intros Hs. induction n as [|n IH]; intros k m a Ha Hm Hb Hc Hcap; cbn [parser_allocates taken].
  { exists m. rewrite (proj2 (Z.leb_le _ _)) by lia. done. }
  pose proof (Hs k) as Hk. pose proof (taken_pos sizes n Hs (S k)) as Ht. unfold cjson_alloc.
  destruct (Z.leb_spec (ua_cur a + sizes k) (ua_cap a)) as [Hfit|Hfull].
  - destruct (ua_alloc_fits m p a (sizes k) Ha) as (m1 & E & _ & A1); [rewrite u64_small; lia|]. rewrite !u64_small in * by lia.
    destruct (IH (S k) m1 _ A1) as (m' & E'); cbn; try lia. cbn [ua_cur ua_cap with_cur] in E'. exists m'.
    unfold mbind, M_bind. rewrite E. cbn. rewrite (proj2 (Z.eqb_neq (ua_mem a + ua_cur a) NULL)) by (unfold NULL; lia). rewrite E'.
    do 3 f_equal. lia.
  - exists m. unfold mbind, M_bind. rewrite (ua_alloc_full _ _ _ _ Ha) by (rewrite u64_small; lia). cbn.
    rewrite (proj2 (Z.leb_gt _ _)) by lia. done.
Qed.

(** The arena of a mapping is clear behind its struct. *)
Lemma create_clear place junk cacheln_sz o cap ua o' :
  place_fresh place -> 0 < cacheln_sz < 2 ^ 32 -> 0 < cap -> arena_cache_aligned_sz cacheln_sz + cap < 2 ^ 64 ->
  place o Mmap (arena_cache_aligned_sz cacheln_sz + cap) = Some ua ->
  ua_create place junk cacheln_sz cap true false o = Some (ua, o') ->
  forall x, ua + arena_cache_aligned_sz cacheln_sz <= x < ua + arena_cache_aligned_sz cacheln_sz + cap -> os_mem o' !! x = Some 0.
Proof.
  intros Hpl Hli Hcap Hov Hp E x Hx. pose proof (arena_cache_aligned_sz_bounds _ Hli) as Hsz. unfold sizeof_UArena in Hsz.
  destruct (Hpl _ _ _ _ Hp) as (H0 & Hend & _). unfold ua_create in E. rewrite (u64_small (_ + cap)) in E by lia.
  destruct (mmap_granted place Hpl (arena_cache_aligned_sz cacheln_sz + cap) ua o ltac:(lia) Hp) as [Hm Hnf]. unfold mbind, P_bind in E. rewrite Hm in E.
  rewrite (proj2 (Z.eqb_neq _ _) Hnf) in E. rewrite (u64_small (ua + _)) in E by lia.
  set (o1 := grant _ _ _ _ o) in E.
  assert (Hmap : mapped (os_mem o1) ua (arena_cache_aligned_sz cacheln_sz + cap)) by (apply grant_mapped; lia).
  destruct (ua_init_spec (os_mem o1) ua true false false cap (ua + arena_cache_aligned_sz cacheln_sz)) as (m' & S & A & _);
    [unfold NULL; lia|eapply mapped_sub; [exact Hmap|unfold sizeof_UArena; lia..]|lia..|].
  rewrite (lift_Some _ _ _ _ S) in E. injection E as <-. cbn. rewrite (proj2 A) by (unfold sizeof_UArena; lia).
  unfold o1. rewrite grant_mem, decide_True by lia. done.
Qed.

(** The configuration is in memory: the arena of the run, its child for cJSON,
    and the text with a zero byte behind it. *)
Lemma config_loaded place junk cacheln_sz A content (r : io) w :
  place_fresh place -> 0 < cacheln_sz < 2 ^ 32 ->
  place (system w) Mmap (arena_cache_aligned_sz cacheln_sz + LmGibiByte 4) = Some A ->
  opens r = true -> seeks r = true -> (length content <= takes r)%nat -> disk w !! config_name = Some content ->
  0 < len content < LmGibiByte 4 - LmKibiByte 512 - sizeof_UArena ->
  let mem := A + arena_cache_aligned_sz cacheln_sz in let file := mem + (sizeof_UArena + LmKibiByte 512) in
  exists o1 m2 m3,
    ua_create place junk cacheln_sz (LmGibiByte 4) true false (system w) = Some (A, o1) /\
    ua_bootstrap A NULL (LmKibiByte 512) (os_mem o1) = Some (mem, m2) /\
    lm_load_file_into_memory place junk config_name r A (mkFiles (disk w) (streams w) (mkOs m2 (os_blocks o1))) =
      Some (Some (file, len content), mkFiles (disk w) (streams w) (mkOs m3 (os_blocks o1))) /\
    arena_at m3 mem (mkUArena (flag_bits false false true) (LmKibiByte 512) 0 (mem + sizeof_UArena)) /\
    0 < mem /\ mem + LmGibiByte 4 < 2 ^ 64 /\
    read_bytes m3 file (length content) = Some content /\ m3 !! (file + len content) = Some 0.
Proof.
  intros Hpl Hli Hp Ho Hsk Ht Hd Hlen mem file. change (LmGibiByte 4) with (2 ^ 32) in *. change (LmKibiByte 512) with (2 ^ 19) in *.
  pose proof (arena_cache_aligned_sz_bounds _ Hli) as Hsz. unfold sizeof_UArena in *. destruct (Hpl _ _ _ _ Hp) as (HA0 & HA1 & _).
  destruct (ua_create_granted place junk cacheln_sz Hpl Hli (system w) (2 ^ 32) true false A mem)
    as (o1 & E1 & A1 & W1 & _); [lia|lia|split; [by rewrite u64_small by lia|done]|].
  pose proof (create_clear place junk cacheln_sz (system w) (2 ^ 32) A o1 Hpl Hli ltac:(lia) ltac:(lia) Hp E1) as Hz.
  set (a1 := mkUArena _ _ _ _) in *.
  destruct (ua_bootstrap_fits (os_mem o1) A a1 (2 ^ 19) A1 W1) as (m2 & E2 & C2 & WC2 & A2 & F2); [lia|unfold sizeof_UArena; cbn; lia|].
  cbn [ua_cur ua_mem a1] in E2. rewrite Z.add_0_r in E2. unfold sizeof_UArena in *. cbn [ua_cur ua_mem ua_cap a1] in *.
  set (a2 := with_cur a1 _) in *.
  assert (W2 : wf_arena m2 A a2).
  { eapply wf_with_cur; [exact W1| |cbn; lia]. eapply frame_mono; [exact F2|]. unfold arena_footprint, in_block. cbn. lia. }
  destruct (lm_load_on_arena place junk config_name content r (mkFiles (disk w) (streams w) (mkOs m2 (os_blocks o1))) A a2 Ho Hsk Hd)
    as (m3 & E3 & _ & _ & F3 & R3); [lia|exact A2|exact W2|cbn; lia|cbn; lia|].
  rewrite (proj2 (Nat.leb_le _ _) Ht) in *. specialize (R3 eq_refl). cbn [disk streams system os_mem os_blocks ua_mem ua_cur ua_cap a2 a1 with_cur child_of] in E3, R3, F3, C2.
  rewrite Z.add_0_l in E3, R3. rewrite Z.add_0_r in C2. rewrite (eq_refl : child_of a1 (2 ^ 19) = mkUArena (flag_bits false false true) (2 ^ 19) 0 (mem + 0 + 32)), Z.add_0_r in C2. fold file in E3, R3.
  exists o1, m2, m3. split; [done|]. split; [done|].
  assert (Hfp : forall x, load_footprint A a2 content x -> A <= x < mem \/ file <= x < file + len content).
  { intros x. unfold load_footprint, p_cur. unfold_fields. cbn [ua_mem ua_cur a2 a1 with_cur]. lia. }
  split_and!; [exact E3| |lia|lia|exact R3|].
  - eapply arena_at_frame; [exact F3| |exact C2]. unfold sizeof_UArena. intros x Hx [?|?]%Hfp; lia.
  - rewrite (proj2 F3) by (intros [?|?]%Hfp; lia). rewrite (proj2 F2) by (unfold in_block, p_cur; cbn; lia).
    apply Hz. lia.
Qed.


(** A suite that is switched off, parsed in blocks of 64 bytes. *)
Module DemoMain.
Definition q : list Z := [quote].
Definition text : list Z := bytes "{" ++ (q ++ bytes "enabled" ++ q) ++ bytes ":false," ++ (q ++ bytes "debugger" ++ q) ++ bytes ":false}".
Definition conf : json := JObject [(bytes "enabled", JBool false); (bytes "debugger", JBool false)].
Definition disk0 : files := mkFiles {[ config_name := text ]} ∅ (mkOs ∅ ∅).
Definition whole : io := mkIo true true 100 0 5.
End DemoMain.


(** Without the file nothing is run, and the result is -1. *)
Lemma main_no_config place junk cacheln_sz A strtod sizes errno listing can_create fork_works NDEBUG comes_back r w s :
  place_fresh place -> 0 < cacheln_sz < 2 ^ 32 ->
  place (system w) Mmap (arena_cache_aligned_sz cacheln_sz + LmGibiByte 4) = Some A -> disk w !! config_name = None ->
  main place junk cacheln_sz strtod sizes errno listing can_create fork_works NDEBUG comes_back r w s = (Some (-1), s).
Proof.
  intros Hpl Hli Hp Hd. pose proof (arena_cache_aligned_sz_bounds _ Hli) as Hsz. unfold sizeof_UArena in Hsz.
  change (LmGibiByte 4) with (2 ^ 32) in *.
  destruct (ua_create_granted place junk cacheln_sz Hpl Hli (system w) (2 ^ 32) true false A (A + arena_cache_aligned_sz cacheln_sz))
    as (o1 & E1 & A1 & W1 & _); [lia|lia|split; [by rewrite u64_small by lia|done]|].
  destruct (ua_bootstrap_fits (os_mem o1) A _ (2 ^ 19) A1 W1) as (m2 & E2 & _); [lia|unfold sizeof_UArena; cbn; lia|].
  assert (EL : exists w', load_config place junk cacheln_sz strtod sizes r w = Some (Some None, w')).
  { eexists. unfold load_config.
    rewrite (F_bind_Some _ _ _ _ _ (on_system_Some _ w _ _ E1)).
    rewrite (F_bind_Some _ _ _ _ _ (on_system_Some _ (mkFiles (disk w) (streams w) o1) _ _ (lift_Some _ o1 _ _ E2))).
    unfold lm_load_file_into_memory, fopen, mbind, F_bind. cbn [disk streams]. rewrite Hd. by destruct (opens r). }
  destruct EL as [w' EL]. unfold main. by rewrite EL.
Qed.
