(* ===== verification/DataPath.v ===== *)
(** * From the sensor to the database

    The two threads of a group at work on one pipe: the inner loop of [MbRun]
    ([DataHandlers/ModbusWithPostgres/Modbus.c]) receives packets and fills
    buffers, the inner loop of [PgRun] ([ModbusWithPostgres/Postgres.c]) takes
    the buffers and inserts them.  The pieces are those of [Modbus]
    ([MbRun_receive], [buffer_store]), of [Pipe] (the two functions, interleaved
    access by access) and of [Postgres] ([PgInsertData], the counters of
    [PgRun]); here they run together, in any order of turns.

    A turn of the reader that inserts is one step: the database is its own.  The
    code after [reconnect] is not part of the system: a turn that would go there
    is not taken.  The waiting with [epoll] only delays the reader. *)

From Stdlib Require Import Strings.String.
From S2P Require Import Prelude.
From S2P Require Import Memory.
From S2P Require Import Pipe.
From S2P Require Import Modbus.
From S2P Require Import Postgres.
#[local] Open Scope Z_scope.
#[local] Abbreviation length := List.length.
#[local] Abbreviation concat := List.concat.

Section Path.
Context {conn : Type} `{Libpq conn}.
(** Of the pipe: the number of buffers, their capacity, and the sizes that
    [PgPrepareCtx] fills in; of the database thread: the room in its scratch
    arena and the table. *)
Variables BufCount BufCap BufferMaxFill PacketSize avail : Z.
Variable Ti : pg_table_info.

(** [received]: the packets that the writer stored; [results]: what the
    insertions returned, oldest first; [running]: [PgRun] is in its loop. *)
Record path := mkPath {
  threads : sys; link : net; received : list (list Z);
  database : conn; results : list Z; counters : pgrun_state; running : bool;
}.

Definition path_start (w : net) (c : conn) : path :=
  mkPath (sys_init BufCount) w [] c [] (mkRun 0 0 0 0) true.

Definition with_threads (t : sys) (y : path) : path :=
  mkPath t (link y) (received y) (database y) (results y) (counters y) (running y).

Definition on_threads (c : choice) (y : path) : option path :=
  t ← advance BufCount c (threads y); Some (with_threads t y).

(** One step of [MbRun]: a full buffer is handed over, an open one gets the next
    packet. *)
Definition mb_turn (y : path) : option path :=
  match writer (threads y) with
  | WHold CurBuf =>
      if len (buffer (shared (threads y)) CurBuf) =? BufferMaxFill then on_threads Writer y
      else
        match MbRun_receive PacketSize (link y) with
        | (MbPacket Data, w) =>
            s ← buffer_store BufCap CurBuf Data (shared (threads y));
            Some (mkPath (mkSys s (WHold CurBuf) (reader (threads y)) (published (threads y)) (consumed (threads y)))
                    w (received y ++ [Data]) (database y) (results y) (counters y) (running y))
        | (MbContinue, w) =>
            Some (mkPath (threads y) w (received y) (database y) (results y) (counters y) (running y))
        | (MbReconnect, _) => None
        end
  | WCall _ => on_threads Writer y
  end.

(** The counters after an insertion of [ItemCount] items, and whether the loop
    goes on. *)
Definition count_items (ItemCount InsertRet : Z) (s : pgrun_state) : pgrun_state * bool :=
  let Total := TotalInsertedItems s +64 ItemCount in
  if break_on_count <=? Total then (mkRun (run_ret s) (PgFailCounter s) (TimeoutCounter s) Total, false)
  else if negb (InsertRet =? 0) then
    let Fails := PgFailCounter s +64 1 in
    (mkRun (if 5 <=? Fails then -1 else run_ret s) Fails (TimeoutCounter s) Total, true)
  else (mkRun (run_ret s) (PgFailCounter s) (TimeoutCounter s) Total, true).

(** One step of [PgRun]. *)
Definition pg_turn (y : path) : option path :=
  if negb (running y) then None
  else
    match reader (threads y) with
    | RHold Buf =>
        let Data := buffer (shared (threads y)) Buf in
        let ItemCount := len Data / PacketSize in
        '(InsertRet, c) ← PgInsertData avail Ti Data ItemCount (database y);
        let '(s, go) := count_items ItemCount InsertRet (counters y) in
        t ← advance BufCount Reader (threads y);
        Some (mkPath t (link y) (received y) c (results y ++ [InsertRet]) s go)
    | RCall _ => on_threads Reader y
    end.

Inductive turn := MbTurn | PgTurn.

Definition take_turn (t : turn) : path -> option path :=
  match t with MbTurn => mb_turn | PgTurn => pg_turn end.

Fixpoint take_turns (ts : list turn) (y : path) : option path :=
  match ts with
  | [] => Some y
  | t :: ts => y ← take_turn t y; take_turns ts y
  end.
End Path.

Arguments mkPath {conn}.
Arguments threads {conn}.
Arguments link {conn}.
Arguments received {conn}.
Arguments database {conn}.
Arguments results {conn}.
Arguments counters {conn}.
Arguments running {conn}.

(** ** The link

    [delivers w ps]: what the server sends for the packets [ps] arrives whole, or
    cut after the header, with time-outs between the frames. *)
Inductive delivers : net -> list (list Z) -> Prop :=
  | delivers_nil : delivers [] []
  | delivers_whole p w ps : delivers w ps -> delivers (Chunk (server_frame p) :: w) (p :: ps)
  | delivers_cut p w ps :
      delivers w ps -> delivers (Chunk (take 7 (server_frame p)) :: Chunk (drop 7 (server_frame p)) :: w) (p :: ps)
  | delivers_late w ps : delivers w ps -> delivers (TimedOut :: w) ps.

Lemma receive_whole p w : len p = 48 -> MbRun_receive 48 (Chunk (server_frame p) :: w) = (MbPacket p, w).
Proof.
  intros Hl. pose proof (server_frame_len p Hl) as HL.
  apply (MbRun_receive_whole p _ (Chunk (drop 7 (server_frame p)) :: w) w Hl).
  - unfold SocketRecvWithTimeout, recv. by rewrite (proj2 (Z.leb_gt _ _)) by lia.
  - assert (E : len (drop 7 (server_frame p)) = 51) by (unfold len in *; rewrite length_drop; lia).
    unfold SocketRecvWithTimeout, recv. by rewrite E.
Qed.

Lemma receive_cut p w : len p = 48 ->
  MbRun_receive 48 (Chunk (take 7 (server_frame p)) :: Chunk (drop 7 (server_frame p)) :: w) = (MbPacket p, w).
Proof.
  intros Hl. pose proof (server_frame_len p Hl) as HL.
  apply (MbRun_receive_whole p _ (Chunk (drop 7 (server_frame p)) :: w) w Hl).
  - assert (E : len (take 7 (server_frame p)) = 7) by (unfold len in *; rewrite length_take; lia).
    unfold SocketRecvWithTimeout, recv. by rewrite E.
  - assert (E : len (drop 7 (server_frame p)) = 51) by (unfold len in *; rewrite length_drop; lia).
    unfold SocketRecvWithTimeout, recv. by rewrite E.
Qed.

Lemma MbRun_receive_delivers w ps :
  delivers w ps -> Forall (fun p => len p = 48) ps ->
  match MbRun_receive 48 w with
  | (MbPacket p, w') => exists ps', ps = p :: ps' /\ delivers w' ps'
  | (MbContinue, w') => delivers w' ps
  | (MbReconnect, _) => ps = []
  end.
Proof.
  intros Hd Hp. destruct Hd as [|p w ps Hd|p w ps Hd|w ps Hd]; [done| | |exact Hd]; inversion Hp as [|?? Hl Hp']; subst.
  - rewrite (receive_whole p w Hl). by exists ps.
  - rewrite (receive_cut p w Hl). by exists ps.
Qed.

(** ** The writer's buffer *)

Ltac invert_code :=
  repeat match goal with
  | H : writer_work _ _ _ _ |- _ => inversion H; subst; clear H
  | H : reader_lag _ _ _ _ |- _ => inversion H; subst; clear H
  end; try discriminate;
  repeat match goal with H : _ = Eff _ _ |- _ => injection H as <- <- end.

(** The buffer that a call of the writer returns has just been emptied. *)
Lemma writer_returns_empty BufCount s e k r p c v s' b :
  2 <= BufCount < 2 ^ 32 -> length (buffers s) = Z.to_nat BufCount ->
  token BufCount s (WCall (Eff e k)) r p c -> exec e s = Some (v, s') -> k v = Ret (Some b) -> buffer s' b = [].
Proof.
  intros Hn Hring Ht He Hk.
  assert (E : e = ArenaFree b /\ 0 <= b < BufCount).
  { inversion Ht; subst; invert_code; cbn in Hk; simplify_eq; try (split; [done|by apply slot_range]);
      repeat case_match; simplify_eq. }
  destruct E as [-> Hb]. cbn in He. simplify_eq. apply buffer_set_eq. lia.
Qed.

(** ** Batches *)

(** [kept results batches stored]: the batches that the table has; those whose
    insertion failed may be missing. *)
Inductive kept {A} : list Z -> list A -> list A -> Prop :=
  | kept_nil : kept [] [] []
  | kept_add r rs b bs st : kept rs bs st -> kept (rs ++ [r]) (bs ++ [b]) (st ++ [b])
  | kept_lost r rs b bs st : r <> 0 -> kept rs bs st -> kept (rs ++ [r]) (bs ++ [b]) st.

Lemma kept_sublist {A} rs (bs st : list A) : kept rs bs st -> st `sublist_of` bs.
Proof.
  induction 1; [reflexivity|by apply sublist_app|by apply sublist_inserts_r].
Qed.

Lemma kept_all {A} rs (bs st : list A) : kept rs bs st -> Forall (fun r => r = 0) rs -> st = bs.
Proof.
  induction 1 as [|r rs b bs st H IH|r rs b bs st Hr H IH]; intros Hz; [done| |].
  - apply Forall_app in Hz as [Hz _]. by rewrite IH.
  - apply Forall_app in Hz as [_ Hz]. by inversion Hz.
Qed.

Lemma sublist_concat {A} (l l' : list (list A)) : l `sublist_of` l' -> concat l `sublist_of` concat l'.
Proof.
  induction 1; cbn; [reflexivity|by apply sublist_app|by apply sublist_inserts_l].
Qed.

Lemma concat_take_batches {A} m (bs : list (list A)) k :
  Forall (fun b => length b = m) bs -> (k <= length bs)%nat -> concat (take k bs) = take (m * k) (concat bs).
Proof.
  intros Hb. revert k. induction Hb as [|b bs Hb _ IH]; intros [|k] Hk; cbn in *; try lia.
  - by rewrite Nat.mul_0_r.
  - by rewrite Nat.mul_0_r.
  - rewrite take_app, (take_ge b) by lia. f_equal. rewrite IH by lia. f_equal. lia.
Qed.

Lemma len_concat_packets n ps : Forall (fun p => len p = n) ps -> len (concat ps) = n * Z.of_nat (length ps).
Proof. induction 1 as [|p ps Hp _ IH]; cbn [concat length]; [by rewrite Z.mul_0_r|]. rewrite len_app, IH, Hp. rewrite Nat2Z.inj_succ. ring. Qed.

(** The rows that the table stores for packets. *)
Definition rows_of (Ti : pg_table_info) (ps : list (list Z)) : list db_row :=
  map (row_values (ColMetadata Ti)) ps.

Lemma row_at_packet n ps i p :
  0 <= n -> Forall (fun p => len p = n) ps -> ps !! i = Some p -> row_at n (concat ps) i = p.
Proof.
  intros Hn Hp. revert i. induction Hp as [|q ps Hq _ IH]; intros i Hi; [done|].
  assert (Eq : Z.to_nat n = length q) by (unfold len in Hq; lia). unfold row_at in *. rewrite Eq in *.
  destruct i as [|i]; cbn [lookup list_lookup concat] in *.
  - injection Hi as ->. cbn. by rewrite drop_0, take_app_length.
  - cbn [Nat.mul]. rewrite drop_app_ge by lia. replace (length q + i * length q - length q)%nat with (i * length q)%nat by lia.
    by apply IH.
Qed.

(** The rows of a buffer that holds packets are those of the packets. *)
Lemma table_rows_packets Ti ps :
  0 <= RowSize Ti -> Forall (fun p => len p = RowSize Ti) ps -> table_rows Ti (concat ps) (length ps) = rows_of Ti ps.
Proof.
  intros Hn Hp. unfold table_rows, rows_of. apply list_eq. intros i. rewrite !list_lookup_fmap.
  destruct (ps !! i) as [p|] eqn:E.
  - pose proof (lookup_lt_Some _ _ _ E). rewrite lookup_seq_lt by done. cbn. do 2 f_equal. by apply row_at_packet.
  - apply lookup_ge_None in E. rewrite lookup_seq_ge by done. done.
Qed.

(** ** The invariant *)

(** What [PgPrepareCtx] sets up for a table of the sensor's packets: [m] packets
    fill a buffer; the scratch arena has room for the conversion of a buffer, which
    is shorter than 2^31 bytes. *)
Record set_up (cols : nat) (CopyCmd : list Z) (BufCap avail : Z) (Ti : pg_table_info) (m : nat) : Prop := {
  su_items : (0 < m)%nat /\ 48 * Z.of_nat m <= BufCap /\ 48 * Z.of_nat m < 2 ^ 64;
  su_table : table_ok Ti;
  su_command : CopyCommand Ti = CopyCmd;
  su_cols : cols = length (data_cols (ColMetadata Ti));
  su_row : RowSize Ti = 48;
  su_room : NtwrkConvBufSize Ti (Z.of_nat m) <= avail /\ Z.of_nat m * row_bytes Ti <= avail /\ Z.of_nat m * row_bytes Ti < 2 ^ 31;
}.

Section Invariant.
Context {conn : Type} `{PgServer conn cols CopyCmd}.
Context (BufCount BufCap avail : Z) (Ti : pg_table_info) (m : nat).
Context (Hcount : 3 <= BufCount < 2 ^ 32) (Hsu : set_up cols CopyCmd BufCap avail Ti m).
(** The packets that the server sends, and the database at the start. *)
Context (packets : list (list Z)) (c0 : conn).
Context (Hpackets : Forall (fun p => len p = 48 /\ is_bytes p) packets).

Abbreviation take_turn := (take_turn BufCount BufCap (48 * Z.of_nat m) 48 avail Ti).

(** The writer's side: [pending] is in the buffer that it holds. *)
Definition writer_holds (pending : list (list Z)) (y : sys) : Prop :=
  match writer y with
  | WHold b => buffer (shared y) b = concat pending
  | WCall (Ret (Some b)) => pending = [] /\ buffer (shared y) b = []
  | WCall _ => pending = []
  end.

Record path_inv (batches : list (list (list Z))) (pending : list (list Z)) (stored : list (list (list Z)))
    (y : path (conn := conn)) : Prop := {
  pi_reach : reachable BufCount (threads y);
  pi_ring : length (buffers (shared (threads y))) = Z.to_nat BufCount;
  pi_link : exists rest, packets = received y ++ rest /\ delivers (link y) rest;
  pi_received : received y = concat batches ++ pending;
  pi_published : published (threads y) = map (@concat Z) batches;
  pi_batches : Forall (fun b => length b = m) batches;
  pi_pending : (length pending <= m)%nat;
  pi_writer : writer_holds pending (threads y);
  pi_results : length (results y) = length (consumed (threads y));
  pi_kept : kept (results y) (take (length (results y)) batches) stored;
  pi_rows : committed (database y) = committed c0 ++ rows_of Ti (concat stored);
}.

Lemma path_inv_start w : delivers w packets -> path_inv [] [] [] (path_start BufCount w c0).
Proof.
  intros Hw. destruct Hsu as [[Hm _] _ _ _ _ _]. split; cbn; try done; try lia.
  - constructor.
  - by rewrite length_replicate.
  - by exists packets.
  - unfold writer_holds, buffer. cbn. destruct (Z.to_nat BufCount); [done|by cbn].
  - constructor.
  - by rewrite app_nil_r.
Qed.

(** The bytes of a batch. *)
Lemma batch_packets b batches pending y stored :
  path_inv batches pending stored y -> b ∈ batches ->
  Forall (fun p => len p = 48 /\ is_bytes p) b /\ len (concat b) = 48 * Z.of_nat m /\ is_bytes (concat b).
Proof.
  intros Hi Hb. destruct (pi_link _ _ _ _ Hi) as (rest & E & _).
  assert (Hall : Forall (fun p => len p = 48 /\ is_bytes p) b).
  { rewrite E, (pi_received _ _ _ _ Hi) in Hpackets. apply Forall_app in Hpackets as [[Hc _]%Forall_app _].
    apply Forall_concat in Hc. rewrite Forall_forall in Hc. by apply Hc. }
  split; [done|]. pose proof (pi_batches _ _ _ _ Hi) as Hl. rewrite Forall_forall in Hl. split.
  - rewrite (len_concat_packets 48), (Hl _ Hb); [done|]. eapply Forall_impl; [exact Hall|]. by intros ? [].
  - unfold is_bytes. apply Forall_concat. eapply Forall_impl; [exact Hall|]. by intros ? [].
Qed.

(** A step of the threads that moves no packet and inserts nothing. *)
Lemma path_inv_threads batches batches' pending pending' stored y t :
  path_inv batches pending stored y -> step BufCount (threads y) t ->
  length (buffers (shared t)) = Z.to_nat BufCount ->
  concat batches' ++ pending' = concat batches ++ pending -> published t = map (@concat Z) batches' ->
  Forall (fun b => length b = m) batches' -> (length pending' <= m)%nat -> writer_holds pending' t ->
  consumed t = consumed (threads y) -> take (length (results y)) batches' = take (length (results y)) batches ->
  path_inv batches' pending' stored (with_threads t y).
Proof.
  intros [] Hs Hring Hc Hp Hb Hl Hw Hcons Ht. split; cbn; try done; try congruence.
  by eapply reach_step.
Qed.

(** An access keeps the number of buffers. *)
Lemma exec_ring e s v s' : exec e s = Some (v, s') -> length (buffers s') = length (buffers s).
Proof.
  intros He. destruct e as [[]|[] v0| | |[]|[] v0|b|b]; cbn in He;
    repeat match type of He with context [if ?c then _ else _] => destruct c end; simplify_eq; try done.
  cbn. by rewrite length_insert.
Qed.

Lemma published_batches batches pending stored y :
  path_inv batches pending stored y -> length (published (threads y)) = length batches.
Proof. intros Hi. by rewrite (pi_published _ _ _ _ Hi), length_map. Qed.

Lemma results_in_batches batches pending stored y :
  path_inv batches pending stored y -> (length (results y) <= length batches)%nat.
Proof.
  intros Hi. pose proof Hcount as H3.
  pose proof (contents_reachable BufCount ltac:(lia) ltac:(lia) _ (pi_reach _ _ _ _ Hi)) as [Hc _].
  rewrite (pi_results _ _ _ _ Hi), Hc, length_take, <- (published_batches _ _ _ _ Hi). lia.
Qed.

(** The writer hands over a full buffer, or goes on with a call. *)
Lemma writer_advances batches pending stored y t :
  path_inv batches pending stored y ->
  (forall b, writer (threads y) = WHold b -> len (buffer (shared (threads y)) b) = 48 * Z.of_nat m) ->
  advance BufCount Writer (threads y) = Some t ->
  exists batches' pending', path_inv batches' pending' stored (with_threads t y).
Proof.
  intros Hi Hfull Ha. pose proof (advance_step _ _ _ _ Ha) as Hs. pose proof (results_in_batches _ _ _ _ Hi) as Hrb.
  pose proof Hcount as H3. destruct Hsu as [[Hm _] _ _ _ _ _].
  pose proof (token_reachable BufCount ltac:(lia) _ (pi_reach _ _ _ _ Hi)) as Htok. unfold token_ok in Htok.
  pose proof (pi_writer _ _ _ _ Hi) as Hw. pose proof (pi_ring _ _ _ _ Hi) as Hring.
  pose proof (pi_published _ _ _ _ Hi) as Hpub.
  unfold writer_holds in Hw. destruct (threads y) as [s w r P C] eqn:Ey. cbn [shared writer reader published consumed] in *.
  cbn in Ha. destruct w as [b|[[b|]|e k]]; [| |done|].
  - injection Ha as <-. specialize (Hfull b eq_refl). rewrite Hw in Hfull.
    assert (Hpend : length pending = m).
    { rewrite (len_concat_packets 48) in Hfull; [lia|].
      destruct (pi_link _ _ _ _ Hi) as (rest & E & _). rewrite E, (pi_received _ _ _ _ Hi) in Hpackets.
      apply Forall_app in Hpackets as [[_ Hc]%Forall_app _]. eapply Forall_impl; [exact Hc|]. by intros ? []. }
    exists (batches ++ [pending]), []. eapply path_inv_threads; [exact Hi|by rewrite Ey|..].
    + done.
    + by rewrite concat_app, app_nil_r; cbn; rewrite app_nil_r.
    + cbn. by rewrite Hpub, map_app, Hw.
    + apply Forall_app. split; [exact (pi_batches _ _ _ _ Hi)|by repeat constructor].
    + cbn. lia.
    + done.
    + by rewrite Ey.
    + by rewrite take_app_le.
  - injection Ha as <-. destruct Hw as [-> Hb]. exists batches, []. eapply path_inv_threads; [exact Hi|by rewrite Ey|..]; try done.
    + exact (pi_batches _ _ _ _ Hi).
    + cbn. lia.
    + by rewrite Ey.
  - destruct (exec e s) as [[v s']|] eqn:He; [|done]. cbn in Ha. injection Ha as <-. subst pending.
    exists batches, []. eapply path_inv_threads; [exact Hi|by rewrite Ey|..]; try done.
    + cbn. by rewrite (exec_ring _ _ _ _ He).
    + exact (pi_batches _ _ _ _ Hi).
    + cbn. lia.
    + unfold writer_holds. cbn. destruct (k v) as [[b|]|] eqn:Ek; [|done|done]. split; [done|].
      eapply (writer_returns_empty BufCount); [lia|exact Hring|exact Htok|exact He|exact Ek].
    + by rewrite Ey.
Qed.

Lemma mb_turn_inv batches pending stored y y' :
  path_inv batches pending stored y -> take_turn MbTurn y = Some y' ->
  exists batches' pending', path_inv batches' pending' stored y'.
Proof.
  intros Hi. cbn [DataPath.take_turn]. unfold mb_turn, on_threads. destruct (writer (threads y)) as [b|q] eqn:Ew.
  2: { destruct (advance BufCount Writer (threads y)) as [t|] eqn:Ea; [|done]. intros [= <-].
       eapply writer_advances; [exact Hi| |exact Ea]. by rewrite Ew. }
  destruct (Z.eqb_spec (len (buffer (shared (threads y)) b)) (48 * Z.of_nat m)) as [Hfull|Hopen].
  { destruct (advance BufCount Writer (threads y)) as [t|] eqn:Ea; [|done]. intros [= <-].
    eapply writer_advances; [exact Hi| |exact Ea]. rewrite Ew. by intros ? [= <-]. }
  destruct (pi_link _ _ _ _ Hi) as (rest & Epk & Hd).
  assert (Hall : Forall (fun p => len p = 48) packets) by (eapply Forall_impl; [exact Hpackets|]; by intros ? []).
  rewrite Epk in Hall. apply Forall_app in Hall as [Hrec Hrest].
  pose proof (MbRun_receive_delivers _ _ Hd Hrest) as Hr. destruct (MbRun_receive 48 (link y)) as [[| |Data] w]; [| |].
  - intros [= <-]. exists batches, pending. destruct Hi. split; cbn; try done. by exists rest.
  - done.
  - destruct Hr as (rest' & -> & Hd'). unfold buffer_store. destruct (_ <=? BufCap); [|done]. intros [= <-].
    exists batches, (pending ++ [Data]). pose proof (pi_writer _ _ _ _ Hi) as Hw. unfold writer_holds in Hw. rewrite Ew in Hw.
    pose proof (len_concat_packets 48 pending) as Hlen. rewrite (pi_received _ _ _ _ Hi) in Hrec.
    apply Forall_app in Hrec as [_ Hpend]. specialize (Hlen Hpend). rewrite Hw, Hlen in Hopen.
    pose proof (pi_pending _ _ _ _ Hi). pose proof (pi_ring _ _ _ _ Hi) as Hring.
    pose proof Hcount as H3.
    pose proof (token_reachable BufCount ltac:(lia) _ (pi_reach _ _ _ _ Hi)) as Htok. unfold token_ok in Htok. rewrite Ew in Htok.
    destruct (token_whold _ _ _ _ _ _ Htok) as [Hb _]. pose proof (slot_range BufCount ltac:(lia) (length (published (threads y)))) as Hsl.
    destruct Hi. split; cbn; try done.
    + eapply reach_step; [exact pi_reach0|]. destruct (threads y) as [s ww r P C]. cbn in *. subst ww. apply step_fill.
    + by rewrite length_insert.
    + exists rest'. split; [|done]. by rewrite Epk, <- app_assoc.
    + by rewrite pi_received0, app_assoc.
    + rewrite length_app. cbn. lia.
    + unfold writer_holds. cbn. rewrite buffer_set_eq by lia. rewrite Hw, concat_app. cbn. by rewrite app_nil_r.
Qed.

(** The reader holds the next batch, and its insertion returns. *)
Lemma insertion batches pending stored y b :
  path_inv batches pending stored y -> reader (threads y) = RHold b ->
  exists batch r c,
    batches !! length (results y) = Some batch /\
    PgInsertData avail Ti (buffer (shared (threads y)) b) (len (buffer (shared (threads y)) b) / 48) (database y) = Some (r, c) /\
    (r = 0 -> committed c = committed (database y) ++ rows_of Ti batch) /\
    (r <> 0 -> committed c = committed (database y) \/ committed c = committed (database y) ++ rows_of Ti batch).
Proof.
  intros Hi Er. pose proof Hcount as H3. destruct Hsu as [[Hm [_ Hsz]] Htab Hcmd Hcols Hrow (Hroom1 & Hroom2 & Hint)].
  pose proof (token_reachable BufCount ltac:(lia) _ (pi_reach _ _ _ _ Hi)) as Htok. unfold token_ok in Htok. rewrite Er in Htok.
  destruct (token_rhold _ _ _ _ _ _ Htok) as [-> Hlt].
  destruct (contents_reachable BufCount ltac:(lia) ltac:(lia) _ (pi_reach _ _ _ _ Hi)) as [_ Hc].
  specialize (Hc (length (consumed (threads y))) ltac:(lia)). rewrite (pi_published _ _ _ _ Hi), list_lookup_fmap in Hc.
  rewrite (pi_results _ _ _ _ Hi).
  destruct (batches !! length (consumed (threads y))) as [batch|] eqn:Eb; [|done]. cbn in Hc. injection Hc as <-.
  destruct (batch_packets batch _ _ _ _ Hi) as (Hall & Hlen & Hbytes); [by eapply list_elem_of_lookup_2|].
  assert (Hbl : length batch = m).
  { pose proof (pi_batches _ _ _ _ Hi) as Hbs. rewrite Forall_forall in Hbs. apply Hbs. by eapply list_elem_of_lookup_2. }
  assert (E48 : Forall (fun p => len p = RowSize Ti) batch).
  { eapply Forall_impl; [exact Hall|]. rewrite Hrow. by intros ? []. }
  rewrite Hlen. replace (48 * Z.of_nat m / 48) with (Z.of_nat m) by (rewrite Z.mul_comm, Z.div_mul by lia; done).
  destruct (PgInsertData_returns avail Ti (concat batch) m (database y)) as (r & c & E & R0 & R1);
    [done..|by rewrite Hrow|rewrite Hrow, Hlen; lia|done|done|done|].
  pose proof (table_rows_packets Ti batch ltac:(lia) E48) as Hrows. rewrite Hbl in Hrows. rewrite Hrows in *.
  exists batch, r, c. split_and!; auto.
Qed.

Lemma rows_of_snoc stored batch : rows_of Ti (concat (stored ++ [batch])) = rows_of Ti (concat stored) ++ rows_of Ti batch.
Proof. unfold rows_of. by rewrite concat_app, map_app; cbn; rewrite app_nil_r. Qed.

(** A step of the reader leaves the buffers and the writer alone. *)
Lemma reader_advances (y : path (conn := conn)) t :
  reachable BufCount (threads y) -> advance BufCount Reader (threads y) = Some t ->
  buffers (shared t) = buffers (shared (threads y)) /\ writer t = writer (threads y) /\
  published t = published (threads y) /\
  consumed t = consumed (threads y) ++ match reader (threads y) with RHold b => [buffer (shared (threads y)) b] | _ => [] end.
Proof.
  intros Hr Ha. pose proof Hcount as H3. pose proof (token_reachable BufCount ltac:(lia) _ Hr) as Htok.
  unfold token_ok in Htok. destruct (threads y) as [s w r P C]. cbn in *. destruct r as [b|[[b|]|e k]]; simplify_eq; cbn.
  - done.
  - by rewrite app_nil_r.
  - destruct (exec e s) as [[v s']|] eqn:He; [|done]. cbn in Ha. simplify_eq. cbn. rewrite app_nil_r. split_and!; [|done..].
    eapply exec_buffers; [exact He|]. intros b ->. by eapply token_rfree.
Qed.

Lemma writer_holds_same pending (y t : sys) :
  buffers (shared t) = buffers (shared y) -> writer t = writer y -> writer_holds pending y -> writer_holds pending t.
Proof. intros Hb Hw. unfold writer_holds, buffer. rewrite Hw. destruct (writer y) as [|[[]|]]; by rewrite ?Hb. Qed.

Lemma pg_turn_inv batches pending stored y y' :
  path_inv batches pending stored y -> take_turn PgTurn y = Some y' ->
  exists stored', path_inv batches pending stored' y'.
Proof.
  intros Hi. cbn [DataPath.take_turn]. unfold pg_turn, on_threads. destruct (running y); [|done]. cbn [negb].
  destruct (reader (threads y)) as [b|q] eqn:Er.
  - destruct (insertion _ _ _ _ _ Hi Er) as (batch & r & c & Eb & E & R0 & R1). rewrite E. cbn [mbind option_bind].
    destruct (count_items _ r (counters y)) as [s go].
    destruct (advance BufCount Reader (threads y)) as [t|] eqn:Ea; [|done]. intros [= <-].
    destruct (reader_advances _ _ (pi_reach _ _ _ _ Hi) Ea) as (Hb & Hw & Hp & Hc). rewrite Er in Hc.
    assert (Hstored : exists stored', kept (results y ++ [r]) (take (length (results y ++ [r])) batches) stored' /\
                committed c = committed c0 ++ rows_of Ti (concat stored')).
    { rewrite length_app. cbn [length]. rewrite Nat.add_1_r, (take_S_r _ _ _ Eb).
      pose proof (pi_kept _ _ _ _ Hi) as Hk. pose proof (pi_rows _ _ _ _ Hi) as Hrows.
      destruct (decide (r = 0)) as [Hr|Hr]; [|destruct (R1 Hr) as [Ec|Ec]].
      - exists (stored ++ [batch]). split; [by constructor|]. by rewrite (R0 Hr), Hrows, rows_of_snoc, app_assoc.
      - exists stored. split; [by constructor|congruence].
      - exists (stored ++ [batch]). split; [by constructor|]. by rewrite Ec, Hrows, rows_of_snoc, app_assoc. }
    destruct Hstored as (stored' & Hk' & Hrows'). exists stored'. destruct Hi. split; cbn; try done.
    + eapply reach_step; [exact pi_reach0|]. by eapply advance_step.
    + by rewrite Hb.
    + congruence.
    + by eapply writer_holds_same.
    + by rewrite Hc, !length_app, pi_results0.
  - destruct (advance BufCount Reader (threads y)) as [t|] eqn:Ea; [|done]. intros [= <-]. exists stored.
    destruct (reader_advances _ _ (pi_reach _ _ _ _ Hi) Ea) as (Hb & Hw & Hp & Hc). rewrite Er, app_nil_r in Hc.
    eapply path_inv_threads; [exact Hi|by eapply advance_step| |done| | | | |done|done].
    + rewrite Hb. exact (pi_ring _ _ _ _ Hi).
    + by rewrite Hp, (pi_published _ _ _ _ Hi).
    + exact (pi_batches _ _ _ _ Hi).
    + exact (pi_pending _ _ _ _ Hi).
    + eapply writer_holds_same; [exact Hb|exact Hw|exact (pi_writer _ _ _ _ Hi)].
Qed.

Lemma take_turns_inv ts batches pending stored y y' :
  path_inv batches pending stored y ->
  take_turns BufCount BufCap (48 * Z.of_nat m) 48 avail Ti ts y = Some y' ->
  exists batches' pending' stored', path_inv batches' pending' stored' y'.
Proof.
  revert batches pending stored y. induction ts as [|t ts IH]; intros batches pending stored y Hi; cbn [take_turns].
  - intros [= <-]. by exists batches, pending, stored.
  - destruct (take_turn t y) as [y1|] eqn:Et; [|done]. cbn [mbind option_bind]. intros Hts. destruct t.
    + destruct (mb_turn_inv _ _ _ _ _ Hi Et) as (b' & p' & Hi'). by eapply IH.
    + destruct (pg_turn_inv _ _ _ _ _ Hi Et) as (s' & Hi'). by eapply IH.
Qed.

(** No call of the pipe's functions returns NULL here. *)
Lemma token_no_null s w r p k :
  token BufCount s w r p k -> w <> WCall (Ret None) /\ r <> RCall (Ret None).
Proof. intros Ht. split; intros ->; inversion Ht; subst; invert_code. Qed.

Lemma advance_call_None q y :
  writer y = WCall q -> advance BufCount Writer y = None -> q <> Ret None ->
  exists e k, q = Eff e k /\ exec e (shared y) = None.
Proof.
  destruct y as [s w r P C]. cbn. intros ->. destruct q as [[b|]|e k]; [done|done|]. intros Ha _.
  exists e, k. split; [done|]. by destruct (exec e s) as [[v s']|].
Qed.

Lemma advance_read_None q y :
  reader y = RCall q -> advance BufCount Reader y = None -> q <> Ret None ->
  exists e k, q = Eff e k /\ exec e (shared y) = None.
Proof.
  destruct y as [s w r P C]. cbn. intros ->. destruct q as [[b|]|e k]; [done|done|]. intros Ha _.
  exists e, k. split; [done|]. by destruct (exec e s) as [[v s']|].
Qed.

(** When its next turn cannot be taken, the writer waits for a credit, unless
    everything has been received. *)
Lemma mb_turn_stuck batches pending stored y :
  path_inv batches pending stored y -> received y <> packets -> take_turn MbTurn y = None ->
  exists e k, writer (threads y) = WCall (Eff e k) /\ exec e (shared (threads y)) = None.
Proof.
  intros Hi Hmore. cbn [DataPath.take_turn]. unfold mb_turn, on_threads. pose proof Hcount as H3. destruct Hsu as [[Hm [Hcap _]] _ _ _ _ _].
  pose proof (token_reachable BufCount ltac:(lia) _ (pi_reach _ _ _ _ Hi)) as Htok. unfold token_ok in Htok.
  apply token_no_null in Htok as [Hnull _]. pose proof (pi_writer _ _ _ _ Hi) as Hw. unfold writer_holds in Hw.
  destruct (writer (threads y)) as [b|q] eqn:Ew.
  2: { destruct (advance BufCount Writer (threads y)) as [t|] eqn:Ea; [done|]. intros _.
       destruct (advance_call_None q _ Ew Ea) as (e & k & -> & He); [congruence|]. by exists e, k. }
  destruct (Z.eqb_spec (len (buffer (shared (threads y)) b)) (48 * Z.of_nat m)) as [Hfull|Hopen].
  { destruct (threads y) as [s w r P C]. cbn in Ew |- *. by subst w. }
  destruct (pi_link _ _ _ _ Hi) as (rest & Epk & Hd).
  assert (Hall : Forall (fun p => len p = 48) packets) by (eapply Forall_impl; [exact Hpackets|]; by intros ? []).
  rewrite Epk in Hall. apply Forall_app in Hall as [Hrec Hrest].
  pose proof (MbRun_receive_delivers _ _ Hd Hrest) as Hr. destruct (MbRun_receive 48 (link y)) as [[| |Data] w]; [done| |].
  - subst rest. rewrite app_nil_r in Epk. by destruct Hmore.
  - destruct Hr as (rest' & -> & _). inversion Hrest as [|?? Hl _]; subst. unfold buffer_store.
    rewrite (pi_received _ _ _ _ Hi) in Hrec. apply Forall_app in Hrec as [_ Hpend].
    pose proof (len_concat_packets 48 pending Hpend) as Hlen. pose proof (pi_pending _ _ _ _ Hi).
    rewrite Hw, Hlen in Hopen |- *. by rewrite (proj2 (Z.leb_le _ _)) by lia.
Qed.

Lemma pg_turn_stuck batches pending stored y :
  path_inv batches pending stored y -> running y = true -> take_turn PgTurn y = None ->
  exists e k, reader (threads y) = RCall (Eff e k) /\ exec e (shared (threads y)) = None.
Proof.
  intros Hi Hrun. cbn [DataPath.take_turn]. unfold pg_turn, on_threads. rewrite Hrun. cbn [negb].
  pose proof Hcount as H3.
  pose proof (token_reachable BufCount ltac:(lia) _ (pi_reach _ _ _ _ Hi)) as Htok. unfold token_ok in Htok.
  apply token_no_null in Htok as [_ Hnull]. destruct (reader (threads y)) as [b|q] eqn:Er.
  - destruct (insertion _ _ _ _ _ Hi Er) as (batch & r & c & _ & E & _). rewrite E. cbn [mbind option_bind].
    destruct (count_items _ r (counters y)) as [s go]. destruct (threads y) as [s' w r' P C]. cbn in Er. by subst r'.
  - destruct (advance BufCount Reader (threads y)) as [t|] eqn:Ea; [done|]. intros _.
    destruct (advance_read_None q _ Er Ea) as (e & k & -> & He); [congruence|]. by exists e, k.
Qed.
End Invariant.

(** ** Two buffers *)

Section Two.
Context {conn : Type} `{PgServer conn cols CopyCmd}.
Context (BufCap avail : Z) (Ti : pg_table_info) (m : nat) (Hsu : set_up cols CopyCmd BufCap avail Ti m).

Abbreviation run := (take_turns 2 BufCap (48 * Z.of_nat m) 48 avail Ti).

(** [y'] can come after [y]. *)
Definition leads (y y' : path (conn := conn)) : Prop := exists ts, run ts y = Some y'.

Lemma run_app ts ts' y : run (ts ++ ts') y = (y ← run ts y; run ts' y).
Proof.
  revert y. induction ts as [|t ts IH]; intros y; [done|]. cbn [app take_turns].
  destruct (take_turn _ _ _ _ _ _ t y) as [y'|]; [|done]. cbn [mbind option_bind]. apply IH.
Qed.

#[local] Instance leads_trans : Transitive leads.
Proof. intros y1 y2 y3 [ts E] [ts' E']. exists (ts ++ ts'). by rewrite run_app, E. Qed.

Lemma leads_by ts y y' : run ts y = Some y' -> leads y y'.
Proof. by exists ts. Qed.

(** The writer has a full buffer and asks for the next one; up to its wait. *)
Lemma writer_asks b r fc re we (B : list (list Z)) rd P C lk rec db rs cn go :
  len (buffer (mkPipe b r fc re we B) b) = 48 * Z.of_nat m -> 0 <= b <= 1 ->
  leads (mkPath (mkSys (mkPipe b r fc re we B) (WHold b) rd P C) lk rec db rs cn go)
    (mkPath (mkSys (mkPipe b r fc re we B) (WCall (gw_take (1 - b))) rd (P ++ [buffer (mkPipe b r fc re we B) b]) C) lk rec db rs cn go).
Proof.
  intros Hfull Hb. apply (leads_by [MbTurn; MbTurn]). cbn [take_turns take_turn mb_turn threads writer shared].
  rewrite Hfull, Z.eqb_refl. assert (b = 0 \/ b = 1) as [->| ->] by lia; reflexivity.
Qed.

(** It is given a credit and goes on in the other buffer, which it clears. *)
Lemma writer_gets nx r fc re we b (B : list (list Z)) rd P C lk rec db rs cn go :
  0 < we ->
  leads (mkPath (mkSys (mkPipe b r fc re we B) (WCall (gw_take nx)) rd P C) lk rec db rs cn go)
    (mkPath (mkSys (mkPipe nx r (u32 (fc + 1)) (re + 1) 0 (<[Z.to_nat nx := []]> B)) (WHold nx) rd P C) lk rec db rs cn go).
Proof.
  intros Hwe. apply (leads_by (replicate 6 MbTurn)). cbn [replicate take_turns take_turn mb_turn threads writer shared].
  unfold on_threads. cbn [threads advance gw_take exec write_event].
  rewrite (proj2 (Z.eqb_neq we 0)) by lia. cbn [mbind option_bind with_threads threads].
  rewrite (proj2 (Z.eqb_neq we (-1))) by lia. reflexivity.
Qed.

(** The reader is given the credit of a full buffer, and gives it back. *)
Lemma reader_gets w r fc re we (B : list (list Z)) wr P C lk rec db rs cn :
  0 < re -> 0 <= r <= 1 ->
  leads (mkPath (mkSys (mkPipe w r fc re we B) wr (RCall (SdPipeGetReadBuffer 2)) P C) lk rec db rs cn true)
    (mkPath (mkSys (mkPipe w (1 - r) (u32 (fc - 1)) 0 (we + 1) B) wr (RHold r) P C) lk rec db rs cn true).
Proof.
  intros Hre Hr. trans (mkPath (mkSys (mkPipe w r fc 0 we B) wr (RCall (gr_load 2)) P C) lk rec db rs cn true).
  - apply (leads_by [PgTurn]). cbn -[Z.eqb]. rewrite (proj2 (Z.eqb_neq re 0)) by lia. cbn -[Z.eqb].
    by rewrite (proj2 (Z.eqb_neq re (-1))) by lia.
  - apply (leads_by (replicate 5 PgTurn)). assert (r = 0 \/ r = 1) as [->| ->] by lia; reflexivity.
Qed.

(** It inserts what the buffer holds. *)
Lemma reader_inserts s b wr P C lk rec db rs cn batch :
  length batch = m -> Forall (fun p => len p = 48 /\ is_bytes p) batch -> buffer s b = concat batch ->
  0 <= TotalInsertedItems cn < 2 ^ 62 ->
  exists res db' cn',
    leads (mkPath (mkSys s wr (RHold b) P C) lk rec db rs cn true)
      (mkPath (mkSys s wr (RCall (SdPipeGetReadBuffer 2)) P (C ++ [concat batch])) lk rec db' (rs ++ [res]) cn'
         (TotalInsertedItems cn + Z.of_nat m <? break_on_count)) /\
    TotalInsertedItems cn' = TotalInsertedItems cn + Z.of_nat m /\
    (res = 0 -> committed db' = committed db ++ rows_of Ti batch).
Proof.
  intros Hl Hp Hb HT. destruct Hsu as [[Hm [_ Hsz]] Htab Hcmd Hcols Hrow (Hroom1 & Hroom2 & Hint)].
  assert (E48 : Forall (fun p => len p = 48) batch) by (eapply Forall_impl; [exact Hp|]; by intros ? []).
  assert (Hbytes : is_bytes (concat batch)) by (unfold is_bytes; apply Forall_concat; eapply Forall_impl; [exact Hp|]; by intros ? []).
  pose proof (len_concat_packets 48 batch E48) as Hlen. rewrite Hl in Hlen.
  destruct (PgInsertData_returns avail Ti (concat batch) m db) as (res & db' & E & R0 & _);
    [done..|by rewrite Hrow|rewrite Hrow, Hlen; lia|done|done|done|].
  pose proof (table_rows_packets Ti batch ltac:(lia) ltac:(by rewrite Hrow)) as Hrows. rewrite Hl in Hrows. rewrite Hrows in R0.
  destruct (count_items (Z.of_nat m) res cn) as [cn' go] eqn:Ec. exists res, db', cn'.
  assert (Hcn : TotalInsertedItems cn' = TotalInsertedItems cn + Z.of_nat m /\ go = (TotalInsertedItems cn + Z.of_nat m <? break_on_count)).
  { unfold count_items in Ec. rewrite u64_small in Ec by lia. rewrite Z.ltb_antisym.
    destruct (break_on_count <=? _); [by simplify_eq|]. destruct (res =? 0); cbn in Ec; by simplify_eq. }
  destruct Hcn as [Hcn ->]. split_and!; [|done|done].
  apply (leads_by [PgTurn]). cbn [take_turns take_turn]. unfold pg_turn. cbn [running negb threads reader shared database].
  rewrite Hb, Hlen. replace (48 * Z.of_nat m / 48) with (Z.of_nat m) by (rewrite Z.mul_comm, Z.div_mul by lia; done).
  rewrite E. cbn [mbind option_bind counters]. rewrite Ec. cbn [advance threads]. rewrite Hb. reflexivity.
Qed.
(** The writer receives the next packets into the buffer it holds. *)
Lemma fill_one w p ps b (B : list (list Z)) l r fc re we rd P C rec db rs cn go :
  delivers w (p :: ps) -> len p = 48 -> 0 <= b -> B !! Z.to_nat b = Some l -> len l + 48 <= 48 * Z.of_nat m ->
  exists w', delivers w' ps /\
    leads (mkPath (mkSys (mkPipe b r fc re we B) (WHold b) rd P C) w rec db rs cn go)
      (mkPath (mkSys (mkPipe b r fc re we (<[Z.to_nat b := l ++ p]> B)) (WHold b) rd P C) w' (rec ++ [p]) db rs cn go).
Proof.
  intros Hd Hp Hb HB Hroom. destruct Hsu as [[Hm [Hcap _]] _ _ _ _ _]. remember (p :: ps) as q eqn:Eq.
  assert (Hstore : forall w w', MbRun_receive 48 w = (MbPacket p, w') ->
    leads (mkPath (mkSys (mkPipe b r fc re we B) (WHold b) rd P C) w rec db rs cn go)
      (mkPath (mkSys (mkPipe b r fc re we (<[Z.to_nat b := l ++ p]> B)) (WHold b) rd P C) w' (rec ++ [p]) db rs cn go)).
  { intros v v' E. apply (leads_by [MbTurn]). cbn [take_turns take_turn]. unfold mb_turn. cbn [threads writer shared link].
    unfold buffer_store, buffer. cbn [buffers]. rewrite HB. cbn [default from_option].
    change (id l) with l. rewrite (proj2 (Z.eqb_neq (len l) (48 * Z.of_nat m))) by lia. rewrite E, Hp. rewrite (proj2 (Z.leb_le _ _)) by lia. reflexivity. }
  induction Hd as [|p' w ps' Hd _|p' w ps' Hd _|w ps' Hd IH]; [done|..].
  - injection Eq as -> ->. exists w. split; [done|]. apply Hstore, (receive_whole p w Hp).
  - injection Eq as -> ->. exists w. split; [done|]. apply Hstore, (receive_cut p w Hp).
  - destruct (IH Eq) as (w' & Hd' & L). exists w'. split; [done|]. etrans; [|exact L].
    apply (leads_by [MbTurn]). cbn [take_turns take_turn]. unfold mb_turn. cbn [threads writer shared link].
    unfold buffer. cbn [buffers]. rewrite HB. cbn [default from_option]. change (id l) with l. by rewrite (proj2 (Z.eqb_neq (len l) (48 * Z.of_nat m))) by lia.
Qed.

Lemma fill ps rest b r fc re we rd P C db rs cn go : Forall (fun p => len p = 48 /\ is_bytes p) ps -> 0 <= b ->
  forall w rec (B : list (list Z)) l,
  delivers w (ps ++ rest) -> B !! Z.to_nat b = Some l -> len l + 48 * Z.of_nat (length ps) <= 48 * Z.of_nat m ->
  exists w', delivers w' rest /\
    leads (mkPath (mkSys (mkPipe b r fc re we B) (WHold b) rd P C) w rec db rs cn go)
      (mkPath (mkSys (mkPipe b r fc re we (<[Z.to_nat b := l ++ concat ps]> B)) (WHold b) rd P C) w' (rec ++ ps) db rs cn go).
Proof.
  intros Hp Hb. induction Hp as [|p ps [Hl _] _ IH]; intros w rec B l Hd HB Hroom.
  { exists w. split; [done|]. rewrite !app_nil_r, list_insert_id by done. by apply (leads_by []). }
  cbn [length] in Hroom. destruct (fill_one w p (ps ++ rest) b B l r fc re we rd P C rec db rs cn go) as (w1 & Hd1 & L1); [done..|lia|].
  destruct (IH w1 (rec ++ [p]) (<[Z.to_nat b := l ++ p]> B) (l ++ p) Hd1) as (w2 & Hd2 & L2).
  { rewrite list_lookup_insert_eq; [done|]. by eapply lookup_lt_Some. }
  { rewrite len_app. lia. }
  exists w2. split; [done|]. etrans; [exact L1|]. rewrite list_insert_insert_eq, <- !app_assoc in L2. exact L2.
Qed.

(** A full batch, into a buffer that is empty. *)
Lemma fill_batch batch rest b r fc re we rd P C db rs cn go w rec (B : list (list Z)) :
  length batch = m -> Forall (fun p => len p = 48 /\ is_bytes p) batch -> 0 <= b -> delivers w (batch ++ rest) -> B !! Z.to_nat b = Some [] ->
  exists w', delivers w' rest /\
    leads (mkPath (mkSys (mkPipe b r fc re we B) (WHold b) rd P C) w rec db rs cn go)
      (mkPath (mkSys (mkPipe b r fc re we (<[Z.to_nat b := concat batch]> B)) (WHold b) rd P C) w' (rec ++ batch) db rs cn go).
Proof. intros Hl Hp Hb Hd HB. apply (fill batch rest b r fc re we rd P C db rs cn go Hp Hb w rec B [] Hd HB). rewrite len_nil. lia. Qed.

Lemma batch_full batch : length batch = m -> Forall (fun p => len p = 48 /\ is_bytes p) batch -> len (concat batch) = 48 * Z.of_nat m.
Proof. intros Hl Hp. rewrite (len_concat_packets 48), Hl; [done|]. eapply Forall_impl; [exact Hp|]. by intros ? []. Qed.

(** The steps, each in front of what follows. *)
Lemma then_leads (y y1 : path) (Q : path -> Prop) : leads y y1 -> (exists y2, leads y1 y2 /\ Q y2) -> exists y2, leads y y2 /\ Q y2.
Proof. intros L (y2 & L2 & HQ). exists y2. split; [by etrans|done]. Qed.

Lemma then_fill batch rest b r fc re we rd P C db rs cn go w rec (B : list (list Z)) (Q : path -> Prop) :
  length batch = m -> Forall (fun p => len p = 48 /\ is_bytes p) batch -> delivers w (batch ++ rest) -> 0 <= b -> B !! Z.to_nat b = Some [] ->
  (forall w', delivers w' rest -> exists y2,
     leads (mkPath (mkSys (mkPipe b r fc re we (<[Z.to_nat b := concat batch]> B)) (WHold b) rd P C) w' (rec ++ batch) db rs cn go) y2 /\ Q y2) ->
  exists y2, leads (mkPath (mkSys (mkPipe b r fc re we B) (WHold b) rd P C) w rec db rs cn go) y2 /\ Q y2.
Proof.
  intros Hl Hp Hd Hb HB Hk. destruct (fill_batch batch rest b r fc re we rd P C db rs cn go w rec B) as (w' & Hd' & L); [done..|].
  by eapply then_leads; [exact L|apply Hk].
Qed.

Lemma then_insert batch s b wr P C lk rec db rs cn (Q : path -> Prop) :
  length batch = m -> Forall (fun p => len p = 48 /\ is_bytes p) batch -> buffer s b = concat batch -> 0 <= TotalInsertedItems cn < 2 ^ 62 ->
  (forall res db' cn', TotalInsertedItems cn' = TotalInsertedItems cn + Z.of_nat m ->
     (res = 0 -> committed db' = committed db ++ rows_of Ti batch) ->
     exists y2, leads (mkPath (mkSys s wr (RCall (SdPipeGetReadBuffer 2)) P (C ++ [concat batch])) lk rec db' (rs ++ [res]) cn'
                  (TotalInsertedItems cn + Z.of_nat m <? break_on_count)) y2 /\ Q y2) ->
  exists y2, leads (mkPath (mkSys s wr (RHold b) P C) lk rec db rs cn true) y2 /\ Q y2.
Proof.
  intros Hl Hp Hb HT Hk. destruct (reader_inserts s b wr P C lk rec db rs cn batch Hl Hp Hb HT) as (res & db' & cn' & L & E & R).
  eapply then_leads; [exact L|]. by eapply Hk.
Qed.

(** The writer overtakes: the reader has given the credit of the first buffer
    back and not inserted it, and finds the third batch in it. *)
Lemma buffer_overtaken w b1 b2 b3 b4 c :
  Forall (fun b => length b = m /\ Forall (fun p => len p = 48 /\ is_bytes p) b) [b1; b2; b3; b4] ->
  delivers w (b1 ++ b2 ++ b3 ++ b4) -> 3 * Z.of_nat m < break_on_count ->
  exists y, leads (path_start 2 w c) y /\ received y = b1 ++ b2 ++ b3 ++ b4 /\
    consumed (threads y) = map (@List.concat Z) [b3; b2; b3; b4] /\ length (results y) = 4%nat /\
    (Forall (fun r => r = 0) (results y) -> committed (database y) = committed c ++ rows_of Ti (concat [b3; b2; b3; b4])).
Proof.
  intros HB Hd H3. rewrite !Forall_cons in HB. destruct HB as ((L1 & P1) & (L2 & P2) & (L3 & P3) & (L4 & P4) & _).
  unfold break_on_count in H3. rewrite <- (app_nil_r b4) in Hd at 1.
  pose proof (batch_full _ L1 P1) as F1. pose proof (batch_full _ L2 P2) as F2. pose proof (batch_full _ L3 P3) as F3. pose proof (batch_full _ L4 P4) as F4.
  change (path_start 2 w c) with (mkPath (mkSys (mkPipe 0 0 0 0 1 [[]; []]) (WHold 0) (RCall (SdPipeGetReadBuffer 2)) [] []) w [] c [] (mkRun 0 0 0 0) true).
  eapply (then_fill b1); [done..|intros w1 D1].
  eapply then_leads; [apply writer_asks; [exact F1|lia]|]. eapply then_leads; [apply writer_gets; lia|].
  eapply (then_fill b2); [done..|intros w2 D2].
  eapply then_leads; [apply writer_asks; [exact F2|lia]|]. eapply then_leads; [apply reader_gets; lia|]. eapply then_leads; [apply writer_gets; lia|].
  eapply (then_fill b3); [done..|intros w3 D3].
  eapply (then_insert b3); [done..|intros r1 c1 n1 N1 R1].
  assert (E1 : (TotalInsertedItems (mkRun 0 0 0 0) + Z.of_nat m <? break_on_count) = true) by (unfold break_on_count; apply Z.ltb_lt; cbn; lia).
  rewrite E1. cbn [TotalInsertedItems] in N1.
  eapply then_leads; [apply reader_gets; lia|].
  eapply (then_insert b2); [done..|lia|intros r2 c2 n2 N2 R2].
  assert (E2 : (TotalInsertedItems n1 + Z.of_nat m <? break_on_count) = true) by (unfold break_on_count; apply Z.ltb_lt; lia).
  rewrite E2.
  eapply then_leads; [apply writer_asks; [exact F3|lia]|]. eapply then_leads; [apply writer_gets; lia|].
  eapply (then_fill b4); [done..|intros w4 D4].
  eapply then_leads; [apply reader_gets; lia|].
  eapply (then_insert b3); [done..|lia|intros r3 c3 n3 N3 R3].
  assert (E3 : (TotalInsertedItems n2 + Z.of_nat m <? break_on_count) = true) by (unfold break_on_count; apply Z.ltb_lt; lia).
  rewrite E3.
  eapply then_leads; [apply writer_asks; [exact F4|lia]|]. eapply then_leads; [apply writer_gets; lia|].
  eapply then_leads; [apply reader_gets; lia|].
  eapply (then_insert b4); [done..|lia|intros r4 c4 n4 N4 R4].
  eexists. split; [by apply (leads_by [])|]. split_and!; [by cbn; rewrite <- !app_assoc|done|done|].
  cbn [app results]. rewrite !Forall_cons. intros (Z1 & Z2 & Z3 & Z4 & _). cbn [database].
  rewrite (R4 Z4), (R3 Z3), (R2 Z2), (R1 Z1). unfold rows_of. cbn [concat]. by rewrite !map_app, app_nil_r, !app_assoc.
Qed.
End Two.

(** ** Properties *)


(** The thread of [t] is in a read of its event descriptor, whose counter is 0. *)
Definition waits {conn : Type} (t : turn) (y : path (conn := conn)) : Prop :=
  exists f k, exec (EvRead f) (shared (threads y)) = None /\
    match t with
    | MbTurn => writer (threads y) = WCall (Eff (EvRead f) k)
    | PgTurn => reader (threads y) = RCall (Eff (EvRead f) k)
    end.

Lemma exec_waits e s : exec e s = None -> exists f, e = EvRead f.
Proof. destruct e as [[]|[] v| | |f|[] v|b|b]; cbn; try done. by exists f. Qed.



(** ** Concrete runs *)

Module DemoPath.
(** A packet of six 8-byte fields, of which the table stores the first and the
    last. *)
Definition packet (n : Z) : list Z := le_encode 8 n ++ replicate 32 0 ++ le_encode 8 (100 + n).
Definition columns : list pg_col_metadata :=
  [mkCol PG_INT4 4 (-1) (-1) (bytes "id") true true; mkCol PG_INT8 8 0 (-1) (bytes "a") false false;
   mkCol PG_INT8 8 40 (-1) (bytes "b") false false].
Definition table : pg_table_info := mkTable 3 2 48 (bytes "t") Demo.copy_cmd columns.
Definition row (n : Z) : db_row := [Some [0; 0; 0; 0; 0; 0; 0; n]; Some [0; 0; 0; 0; 0; 0; 0; 100 + n]].

Definition packets : list (list Z) := map packet [1; 2; 3; 4].

(** The first frame whole, a time-out, the others cut after the header. *)
Definition sent : net :=
  Chunk (server_frame (packet 1)) :: TimedOut ::
  concat (map (fun n => let f := server_frame (packet n) in [Chunk (take 7 f); Chunk (drop 7 f)]) [2; 3; 4]).

(** So many turns of the writer, then of the reader, and so on. *)
Fixpoint alternate (t : turn) (ns : list nat) : list turn :=
  match ns with
  | [] => []
  | n :: ns => replicate n t ++ alternate (match t with MbTurn => PgTurn | PgTurn => MbTurn end) ns
  end.

(** One packet to a buffer; a run to the end on three buffers. *)
Definition turns : list turn :=
  alternate MbTurn [7; 1; 1; 1; 1; 1; 1; 1; 1; 1; 1; 1; 1; 1; 4; 1; 1; 1; 1; 1; 1; 1; 1; 1; 1; 1; 1; 1; 3; 1; 1; 1; 1; 1; 1; 1; 1; 1; 1; 1; 1; 1; 3; 1; 1; 1; 1; 5]%nat.

Abbreviation run_demo BufCount ts :=
  (take_turns BufCount 64 (48 * Z.of_nat 1) 48 1000 table ts (path_start BufCount sent Demo.start)).

Lemma three : 3 <= 3 < 2 ^ 32.
Proof. done. Qed.

Lemma delivers_sent : delivers sent packets.
Proof. unfold sent, packets. cbn [map concat app]. repeat constructor. Qed.

Lemma packets_ok : Forall (fun p => len p = 48 /\ is_bytes p) packets.
Proof. unfold is_bytes. apply (bool_decide_unpack _). vm_compute. exact I. Qed.

Lemma batches_ok :
  Forall (fun b => length b = 1%nat /\ Forall (fun p => len p = 48 /\ is_bytes p) b) [[packet 1]; [packet 2]; [packet 3]; [packet 4]].
Proof. unfold is_bytes. apply (bool_decide_unpack _). vm_compute. exact I. Qed.

Lemma is_set_up : set_up 2 Demo.copy_cmd 64 1000 table 1.
Proof.
  split; try done; try (cbn; lia); try (vm_compute; split; done).
  constructor; [done..|]. cbn. constructor; [|constructor; [|constructor]]; (split; [by exists 8%nat|cbn; lia]).
Qed.
End DemoPath.



