(* ===== verification/Threads.v ===== *)
(** * A thread of the handler from its start to its end

    What [MbRun], [PgRun] and [MbPipeThroughputTest]
    ([DataHandlers/ModbusWithPostgres/Modbus.c], [Postgres.c]) do before and
    after their loops: the arena of the thread with its scratch arenas, the
    connection and the descriptors, and the thread functions of
    [ModbusWithPostgres.c] around them.  The loop of the database thread is
    [Postgres.PgRun_loop]; that of the Modbus thread, in [Session], is known here
    by what it does to memory.  A thread need not end: a call may fault, the other
    threads may never come to the barrier, a loop may run on for ever. *)

From S2P Require Import Prelude.
From S2P Require Import Memory.
From S2P Require Import Os.
From S2P Require Import UArena.
From S2P Require Import ThreadArenas.
From S2P Require Import Postgres.
#[local] Open Scope Z_scope.
#[local] Abbreviation length := List.length.

(** ** The memory of a thread *)

(** [MB_SCRATCH_COUNT], [PG_SCRATCH_COUNT] *)
Definition SCRATCH_COUNT : nat := 2.

Section Start.
Variable place : os -> block_kind -> Z -> option Z.
Variable junk : Z -> Z.
Variable cacheln_sz : Z.

(** The loop over the scratch arenas; what [ThreadArenasAdd] returns is not
    looked at. *)
Fixpoint add_scratch (n : nat) (Arena ScratchSize : Z) (tas : thread_arenas) : P thread_arenas :=
  match n with
  | O => mret tas
  | S n =>
      Scratch ← lift (ua_bootstrap Arena NULL ScratchSize);
      match thread_arenas_add Scratch tas with
      | None => lift fault
      | Some (_, tas) => add_scratch n Arena ScratchSize tas
      end
  end.

(** [TABuf] and [tas]: the table of the thread and its buffer, as they are. *)
Definition thread_memory (MemSize ScratchSize : Z) (TABuf : list Z) (tas : thread_arenas) : P (Z * thread_arenas) :=
  let ASize := MemSize +64 (Z.of_nat SCRATCH_COUNT *64 ScratchSize) in
  Arena ← ua_create place junk cacheln_sz ASize true false;
  let tas := thread_arenas_init TABuf tas in
  tas ← add_scratch SCRATCH_COUNT Arena ScratchSize tas;
  mret (Arena, tas).

(** The start of a thread; [Arena_] is the local variable with the address of
    its arena. *)
Definition thread_start (MemSize ScratchSize : Z) (TABuf : list Z) (tas : thread_arenas) (Arena_ : Z) : P thread_arenas :=
  '(Arena, tas) ← thread_memory MemSize ScratchSize TABuf tas;
  _ ← lift (store64 Arena_ Arena);
  mret tas.
End Start.

(** ** The database thread *)

(** Of the process: its memory, the connections and descriptors that are open,
    the shutdown flag, how often the barrier has been passed, and the static
    counter of [PgRun]. *)
Record process := mkProcess {
  p_os : os;
  connections : Z;
  fds : gset Z;
  GShutdownRequested : Z;
  barrier_waits : Z;
  inserted : Z;
}.

Definition on_os (o : os) (s : process) : process :=
  mkProcess o (connections s) (fds s) (GShutdownRequested s) (barrier_waits s) (inserted s).
Definition connected (n : Z) (s : process) : process :=
  mkProcess (p_os s) (connections s + n) (fds s) (GShutdownRequested s) (barrier_waits s) (inserted s).
Definition on_fds (f : gset Z -> gset Z) (s : process) : process :=
  mkProcess (p_os s) (connections s) (f (fds s)) (GShutdownRequested s) (barrier_waits s) (inserted s).
Definition pass_barrier (s : process) : process :=
  mkProcess (p_os s) (connections s) (fds s) (GShutdownRequested s) (barrier_waits s + 1) (inserted s).
Definition InitiateGracefulShutdown (s : process) : process :=
  mkProcess (p_os s) (connections s) (fds s) 1 (barrier_waits s) (inserted s).
Definition counted (n : Z) (s : process) : process :=
  mkProcess (p_os s) (connections s) (fds s) (GShutdownRequested s) (barrier_waits s) n.

(** What becomes of a thread: it returns; it is still somewhere in its function,
    and will be; or it has crashed the process. *)
Inductive thread_end (A : Type) := Ended (a : A) (s : process) | Stuck (s : process) | Faulted.
Arguments Ended {A} a s.
Arguments Stuck {A} s.
Arguments Faulted {A}.

Definition or_fault {A B} (r : option A) (f : A -> thread_end B) : thread_end B :=
  match r with Some a => f a | None => Faulted end.

(** What the calls do.  [PgPrepareCtx] returns a context, with its connection, or
    NULL, having closed the connection, or faults; [epoll_create1] gives a
    descriptor or sets [errno], as [epoll_ctl] does; the other threads come to the
    barrier or not; the main loop meets these results of [epoll_wait] and these
    buffers, and then either reads the flag as set or goes on.  [PgPrepareCtx] and
    the insertions use the arena, and [None] is a fault. *)
Record pg_calls := mkPgCalls {
  prepares : os -> option (bool * os);
  epoll_create1 : Z + Z;
  epoll_ctl : option Z;
  others_arrive : bool;
  epoll_results : list epoll_result;
  pipe_reads : list read_result;
  told_to_stop : bool;
  inserts : os -> option os;
}.

(** The main loop, from the items inserted so far: its [Ret] and the items then,
    unless it never ends. *)
Definition main_loop (c : pg_calls) (TotalInserted : Z) : option (Z * Z) :=
  match PgRun_loop (epoll_results c) (pipe_reads c) (mkRun 0 0 0 TotalInserted) with
  | PgExit r => Some (run_ret r, TotalInsertedItems r)
  | PgBlocked => None
  | PgRunning r => if told_to_stop c then Some (run_ret r, TotalInsertedItems r) else None
  end.

Section PgRun.
Variable place : os -> block_kind -> Z -> option Z.
Variable junk : Z -> Z.
Variable cacheln_sz : Z.

Definition PgRun (PgMemSize PgScratchSize : Z) (TABuf : list Z) (tas : thread_arenas) (PgArena_ : Z) (c : pg_calls) (s : process)
    : thread_end Z :=
  or_fault (thread_start place junk cacheln_sz PgMemSize PgScratchSize TABuf tas PgArena_ (p_os s)) (fun '(_, o) =>
  or_fault (prepares c o) (fun '(PgCtx, o) =>
  let s := on_os o s in
  if negb PgCtx then Ended (-1) s
  else
    let s := connected 1 s in
    match epoll_create1 c with
    | inr errno => Ended (- errno) s
    | inl EpollFd =>
        let s := on_fds (fun f => {[EpollFd]} ∪ f) s in
        match epoll_ctl c with
        | Some errno => Ended (- errno) s
        | None =>
            if negb (others_arrive c) then Stuck s
            else
              let s := pass_barrier s in
              or_fault (inserts c (p_os s)) (fun o =>
              let s := on_os o s in
              match main_loop c (inserted s) with
              | None => Stuck s
              | Some (Ret, TotalInserted) =>
                  let s := InitiateGracefulShutdown (counted TotalInserted s) in
                  let s := connected (-1) s in
                  let s := on_fds (fun f => f ∖ {[EpollFd]}) s in
                  or_fault (ua_destroy cacheln_sz PgArena_ (p_os s)) (fun '(_, o) => Ended Ret (on_os o s))
              end)
        end
    end)).
End PgRun.

(** ** The Modbus thread, and the test in its place *)

(** A loop by what it does to memory: it ends, it stays, or it faults. *)
Inductive ran := Ran (o : os) | Stays (o : os) | Crashed.

Section MbRun.
Variable place : os -> block_kind -> Z -> option Z.
Variable junk : Z -> Z.
Variable cacheln_sz : Z.
Variable others : bool.

Definition barrier {A} (s : process) (f : process -> thread_end A) : thread_end A :=
  if others then f (pass_barrier s) else Stuck s.

Definition after_loop {A} (r : ran) (s : process) (f : os -> thread_end A) : thread_end A :=
  match r with Ran o => f o | Stays o => Stuck (on_os o s) | Crashed => Faulted end.

(** [loop]: the connections and the receptions, [Session.MbRun]. *)
Definition MbRun (ModbusMemSize ModbusScratchSize : Z) (TABuf : list Z) (tas : thread_arenas) (MbArena_ : Z)
    (loop : os -> ran) (s : process) : thread_end Z :=
  or_fault (thread_start place junk cacheln_sz ModbusMemSize ModbusScratchSize TABuf tas MbArena_ (p_os s)) (fun '(_, o) =>
  barrier (on_os o s) (fun s =>
  after_loop (loop (p_os s)) s (fun o =>
  or_fault (ua_destroy cacheln_sz MbArena_ o) (fun '(_, o) => Ended 0 (on_os o s))))).

(** [load]: [SdbLoadFileIntoMemory], whose result is not compared with NULL;
    [test_loop]: [Modbus.MbPipeThroughputTest_loop] and the flush. *)
Definition MbPipeThroughputTest (ModbusMemSize ModbusScratchSize : Z) (TABuf : list Z) (tas : thread_arenas) (MbArena_ : Z)
    (load : os -> Z * os) (test_loop : Z -> os -> ran) (s : process) : thread_end thread_arenas :=
  or_fault (thread_start place junk cacheln_sz ModbusMemSize ModbusScratchSize TABuf tas MbArena_ (p_os s)) (fun '(tas, o) =>
  let '(TestData, o) := load o in
  barrier (on_os o s) (fun s =>
  if TestData =? NULL then Faulted
  else
    after_loop (test_loop TestData (p_os s)) s (fun o =>
    or_fault (ua_destroy cacheln_sz MbArena_ o) (fun '(_, o) =>
    or_fault (free TestData o) (fun '(_, o) => Ended tas (on_os o s)))))).

(** The test again and again, with the buffer of the table as the time before
    left it, as long as [runs] says that no shutdown was requested: its result
    is always 0. *)
Fixpoint MbPgPipeThroughputTest (runs : nat) (ModbusMemSize ModbusScratchSize : Z) (TABuf : list Z) (tas : thread_arenas) (MbArena_ : Z)
    (load : os -> Z * os) (test_loop : Z -> os -> ran) (s : process) : thread_end thread_arenas :=
  match runs with
  | O => Ended tas s
  | S runs =>
      match MbPipeThroughputTest ModbusMemSize ModbusScratchSize TABuf tas MbArena_ load test_loop s with
      | Ended tas s =>
          MbPgPipeThroughputTest runs ModbusMemSize ModbusScratchSize (default TABuf (tas_uas tas)) tas MbArena_ load test_loop s
      | Stuck s => Stuck s
      | Faulted => Faulted
      end
  end.
End MbRun.

(** ** The thread functions *)

(** The result, always NULL, and the error that is logged. *)
Definition thread_function (Ret : Z) : Z * option Z := (NULL, if Ret =? 0 then None else Some Ret).
Definition PgThread (Ret : Z) : Z * option Z := thread_function Ret.
Definition MbThread (Ret : Z) : Z * option Z := thread_function Ret.

(** [RunModbusTestServer]'s result is not looked at. *)
Definition MbPgTestServer (Ret : Z) : Z := NULL.

(** ** Lemmas *)

Section Memory.
Context (place : os -> block_kind -> Z -> option Z) (junk : Z -> Z) (cacheln_sz : Z).
Context (Hplace : place_fresh place) (Hline : 0 < cacheln_sz < 2 ^ 32).

#[local] Abbreviation arena_sz := (arena_cache_aligned_sz cacheln_sz).

(** The arena of a thread at [A], its buffer at [A + arena_sz]. *)
Definition thread_arena (A MemSize ScratchSize c : Z) : UArena :=
  mkUArena (flag_bits true false false) (MemSize + 2 * ScratchSize) c (A + arena_sz).

Definition scratch_arena (at_ ScratchSize : Z) : UArena := mkUArena (flag_bits false false true) ScratchSize 0 (at_ + sizeof_UArena).

(** A fresh table. *)
Definition fresh_table (TABuf : list Z) (tas : thread_arenas) : Prop :=
  length TABuf = SCRATCH_COUNT /\ tas_count tas = 0 /\ tas_max_count tas = Z.of_nat SCRATCH_COUNT.

Lemma add_two (b0 b1 s0 s1 : Z) (tas : thread_arenas) :
  tas_count tas = 0 -> tas_max_count tas = 2 ->
  exists t1 t2, thread_arenas_add s0 (thread_arenas_init [b0; b1] tas) = Some (0, t1) /\ thread_arenas_add s1 t1 = Some (0, t2) /\
    registered t2 = [s0; s1] /\ tas_count t2 = 2 /\ tas_max_count t2 = 2.
Proof.
  destruct tas as [u c x]. cbn. intros -> ->. unfold thread_arenas_add. cbn. do 2 eexists. split; [reflexivity|]. split; [reflexivity|]. done.
Qed.

(** The memory of a thread: an arena from the system, two scratch arenas in it,
    each with its own struct, and both in the table. *)
Lemma thread_memory_spec (o : os) (MemSize ScratchSize A : Z) (TABuf : list Z) (tas : thread_arenas) :
  0 <= ScratchSize < 2 ^ 60 -> 2 * sizeof_UArena <= MemSize < 2 ^ 60 -> fresh_table TABuf tas ->
  place o Mmap (arena_sz + (MemSize + 2 * ScratchSize)) = Some A ->
  let S0 := A + arena_sz in let S1 := S0 + sizeof_UArena + ScratchSize in
  let a := thread_arena A MemSize ScratchSize (2 * (sizeof_UArena + ScratchSize)) in
  exists tas' o', thread_memory place junk cacheln_sz MemSize ScratchSize TABuf tas o = Some ((A, tas'), o') /\
    registered tas' = [S0; S1] /\ tas_count tas' = 2 /\ tas_max_count tas' = 2 /\
    arena_at (os_mem o') S0 (scratch_arena S0 ScratchSize) /\ wf_arena (os_mem o') S0 (scratch_arena S0 ScratchSize) /\
    arena_at (os_mem o') S1 (scratch_arena S1 ScratchSize) /\ wf_arena (os_mem o') S1 (scratch_arena S1 ScratchSize) /\
    arena_at (os_mem o') A a /\ wf_arena (os_mem o') A a /\ owns cacheln_sz o' A a /\
    blocks_without A a (os_blocks o') = os_blocks o /\
    (forall x, held cacheln_sz A a x -> os_mem o !! x = None) /\
    (forall x, ~ held cacheln_sz A a x -> os_mem o' !! x = os_mem o !! x).
Proof.
  intros Hs Hm (Hb & Hc & Hx) Hp S0 S1 a. pose proof (arena_cache_aligned_sz_bounds _ Hline) as Hsz.
  unfold sizeof_UArena in *. unfold thread_memory. change (Z.of_nat SCRATCH_COUNT) with 2.
  rewrite (u64_small (2 * ScratchSize)), (u64_small (MemSize + _)) by lia.
  destruct (ua_create_granted place junk cacheln_sz Hplace Hline o (MemSize + 2 * ScratchSize) true false A (A + arena_sz))
    as (o1 & E1 & A1 & W1 & Own & Fresh & Keep & Blk); [lia|lia|split; [by rewrite u64_small by lia|done]|].
  set (a1 := mkUArena _ _ _ _) in *. pose proof (proj1 (wf_buf _ _ _ W1)) as Hb1. pose proof (proj2 (wf_buf _ _ _ W1)) as Hb2. cbn in Hb1, Hb2.
  destruct (ua_bootstrap_fits (os_mem o1) A a1 ScratchSize A1 W1) as (m2 & E2 & C2 & WC2 & A2 & F2); [lia|unfold sizeof_UArena; cbn; lia|].
  assert (Hfp : forall c x, 0 <= c -> c + (32 + ScratchSize) <= ua_cap a1 ->
            p_cur A <= x < p_cur A + 8 \/ in_block (with_cur a1 c) (sizeof_UArena + ScratchSize) x -> arena_footprint A a1 x).
  { unfold arena_footprint, in_block, sizeof_UArena. cbn. lia. }
  pose proof (wf_with_cur _ m2 A a1 (32 + ScratchSize) W1 (frame_mono _ _ _ _ F2 (fun x => Hfp 0 x ltac:(lia) ltac:(cbn; lia))) ltac:(cbn; lia)) as W2.
  cbn [ua_cur with_cur] in A2. unfold sizeof_UArena in A2. rewrite Z.add_0_l in A2.
  set (a2 := with_cur a1 (32 + ScratchSize)) in *.
  destruct (ua_bootstrap_fits m2 A a2 ScratchSize A2 W2) as (m3 & E3 & C3 & WC3 & A3 & F3); [lia|unfold sizeof_UArena; cbn; lia|].
  assert (F3' : frame (arena_footprint A a1) m2 m3).
  { eapply frame_mono; [exact F3|]. intros x. apply (Hfp (32 + ScratchSize)); [lia|cbn; lia]. }
  assert (F2' : frame (arena_footprint A a1) (os_mem o1) m2) by exact (frame_mono _ _ _ _ F2 (fun x => Hfp 0 x ltac:(lia) ltac:(cbn; lia))).
  unfold child_of, a2, a1, sizeof_UArena in C2, WC2, C3, WC3, A3, E2, E3. cbn [ua_mem ua_cur with_cur] in C2, WC2, C3, WC3, A3, E2, E3.
  rewrite Z.add_0_r in C2, WC2, E2. replace (A + arena_sz + (32 + ScratchSize)) with S1 in C3, WC3, E3 by (unfold S1, S0; lia).
  fold S0 in C2, WC2, E2.
  destruct TABuf as [|b0 [|b1 [|]]]; try done. destruct (add_two b0 b1 S0 S1 tas Hc Hx) as (t1 & t2 & T1 & T2 & Hreg & Hcnt & Hmax).
  exists t2, (mkOs m3 (os_blocks o1)). P_step E1. unfold SCRATCH_COUNT. cbn [add_scratch].
  assert (G : forall o' S m' t t' (k : thread_arenas -> P thread_arenas), ua_bootstrap A NULL ScratchSize (os_mem o') = Some (S, m') ->
            thread_arenas_add S t = Some (0, t') ->
            (Scratch ← lift (ua_bootstrap A NULL ScratchSize); match thread_arenas_add Scratch t with None => lift fault | Some (_, t) => k t end) o'
            = k t' (mkOs m' (os_blocks o'))).
  { intros o' S m' t t' k Hbs Ht. P_lift Hbs. by rewrite Ht. }
  unfold mbind at 1, P_bind at 1. rewrite (G o1 S0 m2 _ t1 _ E2 T1), (G (mkOs m2 _) S1 m3 _ t2 _ E3 T2).
  split; [reflexivity|]. split; [done|]. split; [done|]. split; [done|]. cbn [os_mem os_blocks].
  assert (Hfin : with_cur a1 (32 + ScratchSize + 32 + ScratchSize) = a) by (unfold a, thread_arena, a1, with_cur; cbn; f_equal; unfold sizeof_UArena; lia).
  split_and!.
  - eapply arena_at_frame; [exact F3| |exact C2]. unfold in_block, a2, a1, sizeof_UArena, p_cur. cbn. unfold S0. lia.
  - destruct WC2. split; cbn in *; try done. eapply frame_mapped; [exact F3|]. done.
  - exact C3.
  - exact WC3.
  - rewrite <- Hfin. exact A3.
  - rewrite <- Hfin. apply (wf_with_cur _ m3 A a1 _ W1); [by etrans|cbn; lia].
  - exact Own.
  - exact Blk.
  - exact Fresh.
  - intros x Hx2. assert (Hnx : ~ arena_footprint A a1 x).
    { intros Hf. apply Hx2. unfold held, a, thread_arena. cbn [ua_flags ua_cap]. destruct (flag_bits_decode true false false) as (-> & _ & _).
      unfold arena_footprint, p_cur in Hf. cbn in Hf. lia. }
    rewrite (proj2 F3'), (proj2 F2') by done. by apply Keep.
Qed.
End Memory.

(** A full table takes no more: a thread that starts again, as the loop of
    [MbPgPipeThroughputTest] does, keeps the scratch arenas of the time before. *)
Lemma add_scratch_full n Arena ScratchSize : forall tas o tas' o',
  tas_count tas = tas_max_count tas -> add_scratch n Arena ScratchSize tas o = Some (tas', o') -> tas' = tas.
Proof.
  induction n as [|n IH]; intros tas o tas' o' Hf E; cbn [add_scratch] in E; [by injection E as <-|].
  unfold mbind, P_bind in E. destruct (lift _ o) as [[s o1]|]; [|done]. unfold thread_arenas_add in E.
  rewrite (proj2 (Z.leb_gt _ _)) in E by lia. by eapply IH.
Qed.

Lemma thread_memory_again place junk cacheln_sz MemSize ScratchSize TABuf tas o A tas' o' :
  tas_count tas = tas_max_count tas ->
  thread_memory place junk cacheln_sz MemSize ScratchSize TABuf tas o = Some ((A, tas'), o') ->
  tas' = thread_arenas_init TABuf tas.
Proof.
  intros Hf E. unfold thread_memory, mbind, P_bind in E. destruct (ua_create _ _ _ _ _ _ _) as [[a o1]|]; [|done].
  destruct (add_scratch _ _ _ _ _) as [[t o2]|] eqn:Ea; [|done]. apply add_scratch_full in Ea; [|done]. by injection E as _ <- _.
Qed.

Lemma thread_start_again place junk cacheln_sz MemSize ScratchSize TABuf tas cell o tas' o' :
  tas_count tas = tas_max_count tas ->
  thread_start place junk cacheln_sz MemSize ScratchSize TABuf tas cell o = Some (tas', o') -> tas' = thread_arenas_init TABuf tas.
Proof.
  intros Hf E. unfold thread_start, mbind, P_bind in E. destruct (thread_memory _ _ _ _ _ _ _ _) as [[[A t] o1]|] eqn:Et; [|done].
  destruct (lift _ o1) as [[? o2]|]; [|done]. injection E as <- _. by eapply thread_memory_again.
Qed.

(** The arena of a thread and the variable with its address. *)
Definition has_arena (cacheln_sz A Arena_ MemSize ScratchSize : Z) (o : os) : Prop :=
  exists c, arena_at (os_mem o) A (thread_arena cacheln_sz A MemSize ScratchSize c) /\
    wf_arena (os_mem o) A (thread_arena cacheln_sz A MemSize ScratchSize c) /\ word_at (os_mem o) Arena_ A.

(** What uses the arena and comes back leaves it to be destroyed, and the blocks
    as they are. *)
Definition uses_arena {R} (cacheln_sz A Arena_ MemSize ScratchSize : Z) (f : os -> R) (gives : R -> os -> Prop) : Prop :=
  forall o o', has_arena cacheln_sz A Arena_ MemSize ScratchSize o -> gives (f o) o' ->
    has_arena cacheln_sz A Arena_ MemSize ScratchSize o' /\ os_blocks o' = os_blocks o.

(** The block of the arena. *)
Definition owns_arena (cacheln_sz A MemSize ScratchSize : Z) (bs : gmap Z (block_kind * Z)) : Prop :=
  bs !! A = Some (Mmap, arena_cache_aligned_sz cacheln_sz + (MemSize + 2 * ScratchSize)).

(** The addresses of the arena, whatever its cursor. *)
Lemma thread_held cacheln_sz A MemSize ScratchSize c x : held cacheln_sz A (thread_arena cacheln_sz A MemSize ScratchSize c) x <->
  A <= x < A + (arena_cache_aligned_sz cacheln_sz + (MemSize + 2 * ScratchSize)).
Proof. unfold held, thread_arena. cbn [ua_flags ua_cap]. by destruct (flag_bits_decode true false false) as (-> & _ & _). Qed.

(** A local variable, in memory that was there before, is set to the arena. *)
Lemma keep_pointer cacheln_sz A cell MemSize ScratchSize c o o1 :
  let a := thread_arena cacheln_sz A MemSize ScratchSize c in
  0 < cacheln_sz < 2 ^ 32 -> arena_at (os_mem o1) A a -> wf_arena (os_mem o1) A a -> 0 <= A < 2 ^ 64 ->
  (forall x, held cacheln_sz A a x -> os_mem o !! x = None) -> (forall x, ~ held cacheln_sz A a x -> os_mem o1 !! x = os_mem o !! x) ->
  mapped (os_mem o) cell 8 ->
  exists m', lift (store64 cell A) o1 = Some (tt, mkOs m' (os_blocks o1)) /\ arena_at m' A a /\ wf_arena m' A a /\ word_at m' cell A.
Proof.
  intros a Hli HA HW Hr Hfresh Hkeep Hcell. pose proof (arena_cache_aligned_sz_bounds _ Hli) as Hsz. unfold sizeof_UArena in Hsz.
  assert (Hout : forall x, cell <= x < cell + 8 -> ~ held cacheln_sz A a x).
  { intros x Hx Hh. destruct (Hcell x Hx) as [b Hb]. by rewrite Hfresh in Hb. }
  destruct (store64_word (os_mem o1) cell A) as (m' & E & Hag & Hw); [|done|].
  { intros x Hx. rewrite Hkeep by auto. by apply Hcell. }
  exists m'. split; [by apply lift_Some|]. assert (Hf : frame (fun x => cell <= x < cell + 8) (os_mem o1) m') by (by eapply agree_outside_frame).
  split; [|split; [|done]].
  - eapply arena_at_frame; [exact Hf| |exact HA]. unfold sizeof_UArena. intros x Hx Hc. apply (Hout x Hc), thread_held.
    pose proof (wf_cur _ _ _ HW). cbn in *. lia.
  - destruct HW. split; try done. by eapply frame_mapped.
Qed.

(** The start of a thread whose memory is granted; its scratch arenas are in an
    empty table, and not in a full one. *)
Lemma thread_starts place junk cacheln_sz MemSize ScratchSize A cell TABuf tas o :
  place_fresh place -> 0 < cacheln_sz < 2 ^ 32 -> 0 <= ScratchSize < 2 ^ 60 -> 2 * sizeof_UArena <= MemSize < 2 ^ 60 ->
  fresh_table TABuf tas -> place o Mmap (arena_cache_aligned_sz cacheln_sz + (MemSize + 2 * ScratchSize)) = Some A ->
  mapped (os_mem o) cell 8 ->
  exists tas' o', thread_start place junk cacheln_sz MemSize ScratchSize TABuf tas cell o = Some (tas', o') /\
    has_arena cacheln_sz A cell MemSize ScratchSize o' /\ owns_arena cacheln_sz A MemSize ScratchSize (os_blocks o') /\
    delete A (os_blocks o') = os_blocks o /\ os_blocks o !! A = None /\
    (forall c x, cell <= x < cell + 8 -> ~ held cacheln_sz A (thread_arena cacheln_sz A MemSize ScratchSize c) x).
Proof.
  intros Hpl Hli Hs Hm Ht Hp Hcell.
  destruct (thread_memory_spec place junk cacheln_sz Hpl Hli o MemSize ScratchSize A TABuf tas Hs Hm Ht Hp)
    as (tas' & o1 & E1 & _ & _ & _ & _ & _ & _ & _ & HA & HW & Hown & Hblk & Hfresh & Hkeep).
  pose proof (arena_cache_aligned_sz_bounds _ Hli) as Hsz. unfold sizeof_UArena in Hsz, Hm. destruct (Hpl _ _ _ _ Hp) as (HA0 & HA1 & _ & HAb).
  destruct (keep_pointer cacheln_sz A cell MemSize ScratchSize _ o o1 Hli HA HW ltac:(lia) Hfresh Hkeep Hcell) as (m2 & E2 & HA2 & HW2 & Hc2).
  exists tas', (mkOs m2 (os_blocks o1)). unfold thread_start, mbind, P_bind. rewrite E1, E2. split; [done|].
  destruct (flag_bits_decode true false false) as (Fc & Fm & _).
  split_and!; [by eexists| | |done|].
  - unfold owns, thread_arena in Hown. cbn [ua_flags ua_cap] in Hown. rewrite Fc, Fm, u64_small in Hown by lia. exact Hown.
  - unfold blocks_without, thread_arena in Hblk. cbn [ua_flags] in Hblk. by rewrite Fc in Hblk.
  - intros c0 x Hx Hh. pose proof (proj1 (thread_held _ _ _ _ _ _) Hh) as Hr. destruct (Hcell x Hx) as [b Hb].
    rewrite (Hfresh x) in Hb; [done|]. exact (proj2 (thread_held _ _ _ _ _ _) Hr).
Qed.

(** Destroying the arena at the end. *)
Lemma thread_destroyed cacheln_sz A cell MemSize ScratchSize o :
  0 < cacheln_sz < 2 ^ 32 -> 0 <= ScratchSize < 2 ^ 60 -> 2 * sizeof_UArena <= MemSize < 2 ^ 60 -> cell <> NULL ->
  has_arena cacheln_sz A cell MemSize ScratchSize o -> owns_arena cacheln_sz A MemSize ScratchSize (os_blocks o) ->
  (forall c x, cell <= x < cell + 8 -> ~ held cacheln_sz A (thread_arena cacheln_sz A MemSize ScratchSize c) x) ->
  exists o', ua_destroy cacheln_sz cell o = Some (tt, o') /\ os_blocks o' = delete A (os_blocks o).
Proof.
  intros Hli Hs Hm Hn (c & HA & HW & Hc) Hown Hout. pose proof (arena_cache_aligned_sz_bounds _ Hli) as Hsz. unfold sizeof_UArena in Hsz, Hm.
  destruct (flag_bits_decode true false false) as (Fc & Fm & Fb).
  destruct (ua_destroy_ok cacheln_sz Hli o cell A (thread_arena cacheln_sz A MemSize ScratchSize c) Hn Hc)
    as (o' & E & Hb & _); [exact Fb|done|done|cbn; lia|cbn; lia| |apply Hout|].
  { unfold owns, thread_arena. cbn [ua_flags ua_cap]. rewrite Fc, Fm, u64_small by lia. exact Hown. }
  exists o'. split; [done|]. unfold blocks_without, thread_arena in Hb. cbn [ua_flags] in Hb. by rewrite Fc in Hb.
Qed.


(** A thread whose calls all succeed, with its local variable at address 16; the
    loop is told to stop before its first turn. *)
Module DemoPg.
Definition cell_mem : mem := foldr (fun i m => <[16 + Z.of_nat i := 0]> m) ∅ (seq 0 8).
Definition s0 : process := mkProcess (mkOs cell_mem ∅) 0 ∅ 0 0 0.
Definition calls : pg_calls := mkPgCalls (fun o => Some (true, o)) (inl 7) None true [] [] true Some.
Definition table : thread_arenas := thread_arenas_register 2.
End DemoPg.


(** The Modbus thread gives its memory back when its loop ends. *)
Lemma MbRun_ends place junk cacheln_sz MemSize ScratchSize A MbArena_ TABuf tas loop s :
  place_fresh place -> 0 < cacheln_sz < 2 ^ 32 -> 0 <= ScratchSize < 2 ^ 60 -> 2 * sizeof_UArena <= MemSize < 2 ^ 60 ->
  fresh_table TABuf tas -> place (p_os s) Mmap (arena_cache_aligned_sz cacheln_sz + (MemSize + 2 * ScratchSize)) = Some A ->
  MbArena_ <> NULL -> mapped (os_mem (p_os s)) MbArena_ 8 ->
  uses_arena cacheln_sz A MbArena_ MemSize ScratchSize loop (fun r o => r = Ran o) ->
  match MbRun place junk cacheln_sz true MemSize ScratchSize TABuf tas MbArena_ loop s with
  | Ended Ret s' => Ret = 0 /\ barrier_waits s' = barrier_waits s + 1 /\ GShutdownRequested s' = GShutdownRequested s /\
                    os_blocks (p_os s') = os_blocks (p_os s)
  | Stuck _ => exists o o', loop o = Stays o'
  | Faulted => exists o, loop o = Crashed
  end.
Proof.
  intros Hpl Hli Hs Hm Ht Hp Hnn Hcell Hloop.
  destruct (thread_starts place junk _ _ _ _ _ _ _ _ Hpl Hli Hs Hm Ht Hp Hcell) as (tas' & o2 & E & Har & Hown & Hblk & _ & Hout).
  unfold MbRun. rewrite E. cbn [or_fault barrier p_os pass_barrier on_os]. destruct (loop o2) as [o3|o3|] eqn:El; cbn [after_loop].
  2: { by exists o2, o3. }
  2: { by exists o2. }
  destruct (Hloop _ _ Har El) as (Har3 & Hb3).
  destruct (thread_destroyed cacheln_sz A MbArena_ MemSize ScratchSize o3) as (o5 & E5 & Hb5); try done; [by rewrite Hb3|].
  rewrite E5. cbn. by rewrite Hb5, Hb3.
Qed.

(** The test without its file: NULL is read, after the barrier. *)
Lemma MbPipeThroughputTest_no_data place junk cacheln_sz MemSize ScratchSize MbArena_ TABuf tas load test_loop s :
  (forall o, (load o).1 = NULL) ->
  MbPipeThroughputTest place junk cacheln_sz true MemSize ScratchSize TABuf tas MbArena_ load test_loop s = Faulted.
Proof.
  intros Hl. unfold MbPipeThroughputTest. destruct (thread_start _ _ _ _ _ _ _ _ _) as [[t o]|]; [|done]. cbn [or_fault].
  specialize (Hl o). destruct (load o) as [T o']. cbn in Hl. by subst.
Qed.

(** Each run waits at the barrier, which the database thread passes once.  From
    the second run on the table is full, and its entries are those of the first
    run, whose arena has been destroyed. *)
Lemma throughput_barrier place junk cacheln_sz others MemSize ScratchSize MbArena_ load test_loop runs : forall TABuf tas s tas' s',
  MbPgPipeThroughputTest place junk cacheln_sz others runs MemSize ScratchSize TABuf tas MbArena_ load test_loop s = Ended tas' s' ->
  barrier_waits s' = barrier_waits s + Z.of_nat runs /\
  (tas_count tas = tas_max_count tas -> tas_uas tas = Some TABuf -> tas' = tas).
Proof.
  induction runs as [|runs IH]; intros TABuf tas s tas' s' E; cbn [MbPgPipeThroughputTest] in E.
  { injection E as <- <-. split; [lia|done]. }
  destruct (MbPipeThroughputTest _ _ _ _ _ _ _ _ _ _ _ s) as [t s1|s1|] eqn:E1; [|done..].
  unfold MbPipeThroughputTest in E1. destruct (thread_start _ _ _ _ _ _ _ _ _) as [[t1 o1]|] eqn:Es; [|done]. cbn [or_fault] in E1.
  destruct (load o1) as [T o2]. unfold barrier in E1. destruct others; [|done]. destruct (T =? NULL); [done|].
  destruct (test_loop T _) as [o3|o3|]; [|done..]. cbn [after_loop] in E1. destruct (ua_destroy _ _ _) as [[? o4]|]; [|done].
  cbn [or_fault] in E1. destruct (free T o4) as [[? o5]|]; [|done]. injection E1 as -> <-.
  apply IH in E as [Eb Er]. split; [rewrite Eb; cbn; lia|].
  intros Hf Hb. apply thread_start_again in Es; [|done]. subst t. destruct tas as [buf n x]. cbn in *. subst buf. by apply Er.
Qed.
